(* ===== verification/_CoqProject ===== *)
-Q . S2P
Prelude.v
Paging.v
Prog.v
GoString.v
GoUnicode.v
GoTime.v
GoSort.v
GoFloat.v
GoCrypto.v
GoBase64.v
GoJson.v
GoJsonLaws.v
GoJsonMap.v
GoTimeParse.v
BlockOrder.v
ApiErr.v
Frames.v
Audio.v
Resampler.v
Turn.v
Silence.v
RescueLog.v
AICost.v
Pricing.v
Session.v
ReviewPayload.v
EvalRules.v
ReviewView.v
SessionLaws.v
SessionQueue.v
SessionListing.v
SessionHistory.v
Effects.v
ReviewGen.v
SessionService.v
SessionServiceLaws.v
SessionEnd.v
SessionWorker.v
ReviewGrounded.v
Corpus.v
CorpusStore.v
CorpusLaws.v
CorpusListing.v
CorpusService.v
CorpusApi.v
CorpusServiceLaws.v
CorpusSelect.v
Content.v
ContentLaws.v
Drill.v
DrillService.v
DrillLaws.v
Account.v
AccountService.v
AccountLaws.v
AccountSessions.v
Materials.v
MaterialsLaws.v
Topic.v
TopicGround.v
TopicService.v
TopicQuote.v
TopicStreak.v
TopicLaws.v
Privacy.v
PrivacyLaws.v
PrivacyUndo.v
HitDetect.v
Badge.v
Conversation.v
Rescue.v
RescueLaws.v
VoiceLoop.v
VoiceLaws.v
Duplex.v
Volc.v
VolcLaws.v
Wer.v
Tts.v
Starter.v
