(* ===== verification/Prelude.v ===== *)
(** * FluentWork backend: verification development

    The program is the backend of an English speaking app.  A learner talks to a
    model over a voice connection; what was said is reviewed afterwards; the
    phrases worth keeping go into the learner's corpus, are drilled, quoted in
    topic cards and daily reads, and are recognised when the learner uses them
    in a later conversation.  This library models the services, their in-memory
    stores and the voice gateway, and proves what they promise.

    ** Parts of the program, and where they are

    All sources are under [src/internal] unless a file is named otherwise.

    - Foundations.  [Prelude] (results, histories, list lemmas), [Prog] (programs
      over effects, the interface [Runs] between a program and what answers it,
      and the rule [tracks] that follows a program by its own steps only),
      [Effects] (the effects of the session service), [Paging] (clients that
      follow cursors).
    - The Go standard library, as far as the sources use it: [GoString],
      [GoUnicode], [GoTime], [GoTimeParse], [GoSort], [GoFloat], [GoCrypto],
      [GoBase64], [GoJson] with [GoJsonLaws] and [GoJsonMap].
    - Errors: [ApiErr] (apierr/apierr.go).
    - Voice gateway.  [Frames] (voiceproto/frames.go), [Audio]
      (voicegateway/seq_allocator.go, voice_usage.go, utterance.go), [Resampler]
      (pcm_resampler.go), [Turn] (turn.go), [Silence] (silence_detector.go),
      [RescueLog] (rescue_log.go), [Badge] (badge_emitter.go), [HitDetect]
      (session/voice_hit_detect.go), [Conversation] (conversation/
      incomplete_detector.go, rescue_generator.go), [Rescue] and [RescueLaws]
      (voicegateway/handler_rescue.go, rescue_orchestrator.go),
      [VoiceLoop] and [VoiceLaws] (handler.go, handler_control.go), [Duplex]
      (voiceduplex/volc_duplex.go), [Volc] and [VolcLaws]
      (voicegateway/provider_volc_duplex.go, turn_id.go).
    - Sessions.  [Session] (session/types.go, store.go, memory_store.go),
      [SessionLaws], [SessionQueue], [SessionListing] (laws of the store),
      [SessionService] (service.go, voice_cost.go), [SessionServiceLaws],
      [SessionEnd], [SessionHistory] (sessionhistory/).
    - Reviews.  [ReviewGen] (reviewgen/), [BlockOrder] (reviewgen/block_order.go),
      [EvalRules] (eval/validate.go), [ReviewPayload] and [ReviewView]
      (session/review.go, service.go), [SessionWorker] (session/review.go,
      review/service.go), [ReviewGrounded].
    - Corpus.  [Corpus] (corpus/types.go, schedule.go), [CorpusStore]
      (memory_store.go), [CorpusLaws], [CorpusListing], [CorpusService]
      (service.go, hits_service.go, recommend.go), [CorpusApi] (the list
      endpoint), [CorpusServiceLaws], [CorpusSelect],
      [Starter] (starter.go, source_adapter.go).
    - What is made of the corpus.  [Content] and [ContentLaws] (content/),
      [Drill], [DrillService] and [DrillLaws] (drill/), [Materials] and
      [MaterialsLaws] (materials/), [Topic], [TopicGround], [TopicService],
      [TopicQuote], [TopicStreak] and [TopicLaws] (topic/).
    - Accounts.  [Account] (account/types.go, store.go, memory_store.go),
      [AccountService] (service.go, service_auth.go, token.go, password.go),
      [AccountLaws], [AccountSessions]; [Privacy], [PrivacyLaws] and
      [PrivacyUndo] (account/privacy_service.go and the privacy wipers of the
      stores, registered in src/cmd/app-server/main.go).
    - Speech.  [Tts] (content/tts: manager.go, router.go, provider.go, voices.go,
      collect.go, httpstatus.go and the handler of http.go).
    - Costs and measurements.  [AICost] (aicost/), [Pricing]
      (orchestrator/pricing.go), [Wer] (voicepoc/wer.go, wer_surface.go,
      window.go).

    Small components keep model and laws in one file: so do [EvalRules],
    [HitDetect], [Badge], [SessionHistory], [CorpusApi], [ReviewView], [Corpus],
    [GoFloat], [Tts], [Starter] and [Wer].

    ** How they interact

    The gateway redeems a ticket at the session service, opens a provider
    session, and runs a read loop next to the goroutines that collect a turn,
    poll for silence, speak a rung of the rescue ladder and emit badges.  When
    the connection ends it reports transcript, ladders and usage once; the
    session service closes the session, files the costs and queues a review job.
    The worker claims the job, asks the review generator, checks its documents
    against the transcript and stores the review or a stub; the client reads it,
    accepts phrases into the corpus, and drills, topics and daily reads work on
    the corpus from then on.  Deleting an account wipes all these stores through
    one interface ([PrivacyLaws]) and an undelete restores them.

    ** How code becomes definitions

    - A method of a store holds the store's lock, so it is a function
      [state -> result * state], one atomic step.  A history of a store is a list
      of calls with arbitrary arguments ([foldl_keeps], [foldl_moves]).
    - A method that calls several collaborators is a [program]: the tree of its
      calls.  Before each call of a store other goroutines may make calls of
      their own: the environment answers with a list of interfering calls, over
      which theorems quantify.  A theorem about methods between whose calls
      nobody else acts says in its comment that they run alone; what others can
      break then is in lemmas of their own ([racing_end_queues_abandoned_review],
      [racing_abandon_denies_the_review], [racing_generations_store_six],
      [racing_accepts_store_a_phrase_twice], [refine_outlives_deletion]).  The
      privacy service ([Privacy]) is modelled without interference: there it is
      the calls that may fail.
    - Goroutines of one connection are programs whose steps are the critical
      sections of the source; a run is a list of choices of which goroutine
      steps and what the outside answers it ([Rescue], [VoiceLoop], [Volc], [Tts],
      [Badge]).  Theorems hold for every such list.  [Volc] takes sections of
      the source without a lock as one step only where the fields are used by
      one of the two goroutines.
    - Go ranges over a map in an arbitrary order; methods whose answer depends on
      it take the order from the interface [MapRange], or as a list.
    - [sort.Slice] is a sort of unspecified stability: theorems about it use
      only that the result is sorted and a permutation, or that the comparison
      separates the elements ([GoSort]).
    - An [int64] wraps where the sources can reach its bounds; times are
      instants in nanoseconds and [Sub] saturates.  A [float64] that decides
      something is a [spec_float] of precision 53 ([GoFloat]).
    - A string is its bytes.  The Unicode tables are those of version 15.0, as in
      package [unicode].
    - Contexts are not cancelled, but for the deadlines that appear as answers
      of a call.  Log lines and metrics are left out.

    ** Parameters

    Code outside [src] is an argument: the JWT library and the address parser of
    [net/mail] ([AccountService]); the replies of language models, with their
    failures; the speech synthesizer, the vendor's socket and the detector of
    hits; how [strconv] reads and prints a decoded number ([number_text],
    [number_int] of the review documents).  Theorems quantify over them; where a
    law of one is needed it is a named hypothesis and the witness has an
    instance.

    ** Bounds and fuel

    - The JSON parser runs on the length of its input, and [GoJsonLaws] proves
      that enough.
    - Loops over paginated endpoints are followed for as many pages as there are
      rows, and the paging theorems prove that the last page is reached.
    - The walk of [Wer.walk] goes up or left in every round, so the sum of the
      two lengths is enough; the theorem says that the scorer answers.
    - [Audio] and [Rescue] cut frames with the length of the audio as fuel: each
      frame takes at least one byte.
    - The loops of [Duplex] wait until a deadline.  [events] bounds how many
      events come before it; when they are used up the deadline has passed, and
      every theorem holds for every bound.
    - The other recursions are structural.

    ** What the theorems show

    - Safety over all interleavings: a ticket works once, a report of a session
      is accepted once and its answer agrees with what is stored, a claimed job
      is exclusive, a badge is shown once, a rung's text leads its voice and the
      voice falls silent, the frames of a turn are one bracketed stream, what an
      interrupted reply leaves in the transcript is what was pushed to the
      learner.
    - Grounding: a stored review quotes only what was said; a topic card quotes
      only live blocks of its learner; a daily read only phrases of its own.
    - Requests that run alone, with any history between two of them: a refresh
      token works once, a replayed end report changes nothing, a day has its cards
      once, a phrase is accepted once.
    - Errors and restoration: a failed deletion is undone, an undelete gives the
      soft-deleted data back, a timed-out judgement costs nothing, an appeal
      restores exactly the snapshot.
    - Liveness: a review arrives, a refinement settles, a daily read is ready, a
      client that follows cursors ends with every row shown once.
    - Equivalences: streaming resampling and batch, streaming a reply and sending
      it at the end, the tables of [TopicGround] and [Wer] with the longest
      shared run and the cheapest alignment, the streak with the calendar.
    - Failover: the speech manager switches after three failures in a row, for good.
    - Invariants of the stores: keyed tables, distinct phrases, ledgers that agree
      with counters, closed sessions that stay closed.

    Lemmas with names that say what goes wrong (for example
    [guest_merge_leaves_rescues], [interrupted_reply_is_sent_whole]) run the model
    to a state the code's own comments rule out.

    ** Not modelled

    - The MySQL stores: SQL run by a database; the in-memory stores implement the
      same interfaces.
    - HTTP handlers, routing, clients of internal endpoints, metrics: decoding
      and I/O around the services.
    - The orchestrator's client, the vendors behind text to speech, the socket,
      reading goroutine and silence pump of the duplex session: network I/O.
    - The turn evaluator (floating-point scores read from a model's text), the
      average of the stuck map, and the prompt texts of the judge and refiner.
    - Wiring, configuration and the commands; the probes of the proof of
      concept. *)
From Stdlib Require Export Ascii String.
From Stdlib Require Export ZArith Lia List Sorted.
From stdpp Require Export base tactics numbers strings list sorting gmap fin_maps relations.

#[global] Set Default Goal Selector "!".

(** ** Results

    A Go function returning [(T, error)] becomes a [result T]: the value on a
    nil error, the error otherwise. *)
Inductive result (E A : Type) : Type :=
| Ok (a : A)
| Err (e : E).
Arguments Ok {E A} a.
Arguments Err {E A} e.

Definition is_ok {E A} (r : result E A) : bool :=
  match r with Ok _ => true | Err _ => false end.

(** ** Histories

    A component's history is a list of events folded over its state. *)
Section histories.
Context {S E : Type} (step : S -> E -> S).

(** An invariant every event keeps holds along every history. *)
Lemma foldl_keeps (P : S -> Prop) (es : list E) s :
  (forall s e, e ∈ es -> P s -> P (step s e)) -> P s -> P (foldl step s es).
Proof.
  revert s. induction es as [|e es IH]; intros s Hstep H; [done|].
  apply IH; [|by apply Hstep; [left|]]. intros. apply Hstep; [by right|done].
Qed.

(** A preorder every event follows relates the ends of every history. *)
Lemma foldl_moves (R : S -> S -> Prop) `{!PreOrder R} (es : list E) s :
  (forall s e, e ∈ es -> R s (step s e)) -> R s (foldl step s es).
Proof.
  revert s. induction es as [|e es IH]; intros s Hstep; [done|].
  transitivity (step s e); [apply Hstep; left|]. apply IH. intros. apply Hstep. by right.
Qed.
End histories.

(** ** Automation

    [fluent] collects the lemmas that keep an invariant of a table of rows
    along its elementary changes; the components add theirs. *)
Create HintDb fluent.
#[export] Hint Resolve map_Forall_empty map_Forall_insert_2 map_Forall_delete : fluent.
#[export] Hint Resolve Forall_nil_2 Forall_cons_2 Forall_app_2 : fluent.
