(* ===== verification/Paging.v ===== *)
(** * Clients that follow cursors

    An endpoint lists rows page by page: each page holds the first [k] of the
    rows beyond its cursor, and tells whether there is a next page, whose cursor
    names the last row shown.  Between the pages the store may change: [st m] is
    the store the [m]-th page reads.  A client that follows the cursors of an
    unchanging store is shown every row once; one of a changing store is shown
    once whatever stays. *)
From S2P Require Import Prelude.

Section paging.
Context {S C A : Type} (rows : option C -> S -> list A) (cur : A -> C) (k : nat) (more : list A -> bool).
Context (st : nat -> S).

(** The cursor of the next page, when there is one. *)
Definition next_of (R : list A) : option C :=
  if more R then match last (take k R) with Some x => Some (cur x) | None => None end else None.

(** The rows shown by the pages from the [m]-th on. *)
Fixpoint walk (fuel m : nat) (c : option C) : option (list A) :=
  match fuel with
  | O => None
  | Datatypes.S fuel =>
      let R := rows c (st m) in
      match next_of R with
      | Some c => app (take k R) <$> walk fuel (Datatypes.S m) (Some c)
      | None => Some (take k R)
      end
  end.

(** A page without a next one is the last; one with a next one shows rows. *)
Context (more_no : forall R, more R = false -> drop k R = []).
Context (more_yes : forall R, more R = true -> take k R <> []).
(** The rows beyond the last of a page are those that were left. *)
Context (rows_next : forall m c pre x post, rows c (st m) = pre ++ x :: post -> rows (Some (cur x)) (st m) = post).

Lemma last_split (R : list A) x : last (take k R) = Some x -> exists pre, R = pre ++ x :: drop k R.
Proof.
  intros H. apply last_Some in H as [pre Hp]. exists pre.
  rewrite <- (take_drop k R) at 1. by rewrite Hp, <- app_assoc.
Qed.

Lemma next_none R : next_of R = None -> take k R = R.
Proof.
  unfold next_of. destruct (more R) eqn:E.
  - destruct (last (take k R)) eqn:Hx; [done|]. apply last_None in Hx. by destruct (more_yes R E).
  - intros _. rewrite <- (take_drop k R) at 2. by rewrite (more_no R E), app_nil_r.
Qed.

Lemma next_some m c c' : next_of (rows c (st m)) = Some c' ->
  rows (Some c') (st m) = drop k (rows c (st m)) /\
  (length (drop k (rows c (st m))) < length (rows c (st m)))%nat.
Proof.
  unfold next_of. destruct (more _); [|done]. destruct (last _) as [x|] eqn:Hx; [|done]. intros [= <-].
  destruct (last_split _ x Hx) as [pre Hpre]. split; [by eapply rows_next|].
  rewrite Hpre at 2. rewrite length_app. cbn. lia.
Qed.

(** Once the store is left alone the walk shows what is left. *)
Lemma walk_quiet : forall fuel m c, (forall i, (m <= i)%nat -> st i = st m) ->
  (length (rows c (st m)) < fuel)%nat -> walk fuel m c = Some (rows c (st m)).
Proof.
  induction fuel as [|fuel IH]; intros m c Hq Hf; [lia|]. cbn [walk].
  destruct (next_of (rows c (st m))) as [c'|] eqn:E; [|by rewrite next_none].
  destruct (next_some m c c' E) as [Hnext Hl]. pose proof (Hq (Datatypes.S m) ltac:(lia)) as HS.
  rewrite IH, HS, Hnext; [cbn; by rewrite take_drop| |rewrite HS, Hnext; lia].
  intros i Hi. rewrite HS. apply Hq. lia.
Qed.

Lemma walk_ends : forall j m c, (forall i, (m + j <= i)%nat -> st i = st (m + j)%nat) ->
  exists fuel items, walk fuel m c = Some items.
Proof.
  induction j as [|j IH]; intros m c Hq.
  - do 2 eexists. apply walk_quiet; [|apply Nat.lt_succ_diag_r]. intros i Hi.
    rewrite Nat.add_0_r in Hq. apply Hq. lia.
  - destruct (next_of (rows c (st m))) as [c'|] eqn:E.
    + destruct (IH (Datatypes.S m) (Some c')) as (fuel & items & Hf).
      { intros i Hi. rewrite (Hq i) by lia. f_equal. lia. }
      exists (Datatypes.S fuel). cbn [walk]. rewrite E, Hf. by eexists.
    + exists 1%nat. cbn [walk]. rewrite E. by eexists.
Qed.

(** Rows that are counted alike in every store are shown that often. *)
Definition occ (p : A -> bool) (l : list A) : nat := length (List.filter p l).

Lemma occ_app p l1 l2 : occ p (l1 ++ l2) = (occ p l1 + occ p l2)%nat.
Proof. unfold occ. by rewrite List.filter_app, length_app. Qed.

Lemma walk_once p (want : option C -> nat) : (forall m c, occ p (rows c (st m)) = want c) ->
  forall fuel m c items, walk fuel m c = Some items -> occ p items = want c.
Proof.
  intros Hw. induction fuel as [|fuel IH]; intros m c items Hf; [done|]. cbn [walk] in Hf.
  rewrite <- (Hw m c). destruct (next_of (rows c (st m))) as [c'|] eqn:E.
  - destruct (walk fuel (Datatypes.S m) (Some c')) as [rest|] eqn:Hr; [|done]. injection Hf as <-.
    rewrite occ_app, (IH _ _ _ Hr), <- (Hw m (Some c')), (proj1 (next_some m c c' E)), <- occ_app.
    by rewrite take_drop.
  - injection Hf as <-. by rewrite next_none.
Qed.
End paging.

(** ** The stores the pages read

    [step n] is what other requests do to the store before call [n]. *)
Section states.
Context {S : Type} (step : nat -> S -> S).

(** The store the [m]-th page from call [n] on reads. *)
Fixpoint read_state (n : nat) (s : S) (m : nat) : S :=
  match m with
  | O => step n s
  | Datatypes.S m => read_state (Datatypes.S n) (step n s) m
  end.

Lemma read_state_keeps (P : S -> Prop) : (forall n s, P s -> P (step n s)) -> forall m n s, P s -> P (read_state n s m).
Proof. intros Hstep. induction m as [|m IH]; intros n s Hs; cbn [read_state]; auto. Qed.

(** Nothing changes from the call on after which nobody else is at work. *)
Lemma read_state_quiet j s i : (forall m s, (j <= m)%nat -> step m s = s) -> (j <= i)%nat ->
  read_state 0 s i = read_state 0 s j.
Proof.
  intros Hq. assert (forall i n s, (j <= n)%nat -> read_state n s i = s) as Hsame.
  { induction i0 as [|i' IH]; intros n t Hn; cbn [read_state]; rewrite Hq by done; [done|]. apply IH. lia. }
  assert (forall d n s i, (j <= n + d)%nat -> (d <= i)%nat -> read_state n s i = read_state n s d) as Hd.
  { induction d as [|d IH]; intros n t i' Hn Hi; [by rewrite !Hsame by lia|].
    destruct i' as [|i']; [lia|]. cbn [read_state]. apply IH; lia. }
  intros Hi. apply Hd; lia.
Qed.
End states.

(** In a list whose keys are distinct a key occurs once or not at all. *)
Lemma occ_key {A} (key : A -> string) (l : list A) x :
  NoDup l -> (forall y, y ∈ l -> key y = key x -> y = x) ->
  (x ∈ l -> occ (fun y => String.eqb (key y) (key x)) l = 1%nat) /\
  (x ∉ l -> occ (fun y => String.eqb (key y) (key x)) l = 0%nat).
Proof.
  intros Hnd Hu. assert (forall l', (forall y, y ∈ l' -> y ∈ l /\ y <> x) ->
    occ (fun y => String.eqb (key y) (key x)) l' = 0%nat) as Hnone.
  { intros l'. unfold occ. induction l' as [|y l' IH]; intros H; [done|]. cbn.
    destruct (String.eqb_spec (key y) (key x)) as [E|].
    - destruct (H y ltac:(left)) as [Hy Hne]. by destruct Hne; apply Hu.
    - apply IH. intros z Hz. apply H. by right. }
  split.
  - intros (l1 & l2 & ->)%list_elem_of_split. apply NoDup_app in Hnd as (_ & H1 & H2).
    apply NoDup_cons in H2 as [H2 _]. rewrite occ_app, Hnone.
    + unfold occ at 1. cbn. rewrite String.eqb_refl. cbn. f_equal. apply Hnone. intros y Hy.
      split; [apply elem_of_app; right; by right|]. intros ->. done.
    + intros y Hy. split; [apply elem_of_app; by left|]. intros ->. apply (H1 x Hy). left.
  - intros Hx. apply Hnone. intros y Hy. split; [done|]. intros ->. done.
Qed.
