(* ===== verification/Prog.v ===== *)
(** * Programs over effects

    A method that interleaves calls of its collaborators — a store, the clock,
    an identifier source — is the tree of those calls: [program E A] issues
    effects of the signature [E] and answers an [A].  A [Runs] instance is the
    interface between programs and what answers their effects: an oracle for
    everything outside the state, and a state.  [tracks] follows a program through
    the steps of others by a relation only its own steps have to keep. *)
From S2P Require Import Prelude.

Inductive program (E : Type -> Type) (A : Type) : Type :=
| Ret (a : A)
| Do {R : Type} (e : E R) (k : R -> program E A).
Arguments Ret {E A} a.
Arguments Do {E A R} e k.

Fixpoint bind {E A B} (p : program E A) (k : A -> program E B) : program E B :=
  match p with
  | Ret a => k a
  | Do e h => Do e (fun r => bind (h r) k)
  end.

Definition call {E R} (e : E R) : program E R := Do e Ret.

Declare Scope prog_scope.
Delimit Scope prog_scope with prog.
Notation "x <- p ; k" := (bind p (fun x => k))
  (at level 100, p at next level, k at level 200, right associativity) : prog_scope.
(** Go's [if err != nil { return ..., err }]. *)
Notation "x <-! p ; k" :=
  (bind p (fun r => match r with Ok x => k | Err err => Ret (Err err) end))
  (at level 100, p at next level, k at level 200, right associativity) : prog_scope.

(** How the oracle and the state answer the effect of step [n]. *)
Class Runs (O : Type) (E : Type -> Type) (S : Type) : Type :=
  perform : forall {R : Type}, O -> E R -> nat -> S -> R * S.

(** The answer, the number of the next step, and the state. *)
Fixpoint run_prog {O E S A} `{!Runs O E S} (o : O) (p : program E A) (n : nat) (s : S)
  : A * nat * S :=
  match p with
  | Ret a => (a, n, s)
  | Do e k => let (r, s') := perform o e n s in run_prog o (k r) (Datatypes.S n) s'
  end.

Lemma run_bind {O E S A B} `{!Runs O E S} (o : O) (p : program E A) (k : A -> program E B) n (s : S) :
  run_prog o (bind p k) n s =
  let '(a, m, s') := run_prog o p n s in run_prog o (k a) m s'.
Proof.
  revert n s. induction p as [a|R e h IH]; intros n s; [done|].
  cbn. destruct (perform o e n s) as [r s']. apply IH.
Qed.

(** A state property every effect keeps is kept by every program. *)
Lemma run_prog_keeps {O E S A} `{!Runs O E S} (P : S -> Prop) (o : O) (p : program E A) n (s : S) :
  (forall R (e : E R) m s, P s -> P (perform o e m s).2) -> P s -> P (run_prog o p n s).2.
Proof.
  intros Hstep. revert n s. induction p as [a|R e h IH]; intros n s HP; [done|].
  cbn. specialize (Hstep R e n s HP). destruct (perform o e n s) as [r s']. by apply IH.
Qed.

(** * What every step of a program keeps *)

(** ** What every step of a program keeps

    Goroutines share a state of type [S]; a step of one, answered by the outside,
    changes the state and puts something out.  [tracks ok upd t p post]: along
    every run of [p], whatever the others do to the state between its steps,
    [upd] accounts for each step from account [t] on, and [post] holds of the
    account at its end.  [ok] is what the others leave alone. *)
Section tracks.
Context {E : Type -> Type} {S Answer Out : Type} (perform : forall R, Answer -> E R -> S -> R * S * list Out).
Context {T : Type} (ok : T -> S -> Prop) (upd : T -> S -> S -> list Out -> T -> Prop).

Fixpoint tracks {A} (t : T) (p : program E A) (post : T -> A -> Prop) : Prop :=
  match p with
  | Ret a => post t a
  | @Do _ _ R e k => forall a s, ok t s ->
      exists t', upd t s (perform R a e s).1.2 (perform R a e s).2 t' /\
        tracks t' (k (perform R a e s).1.1) post
  end.

Lemma tracks_bind {A B} (p : program E A) (k : A -> program E B) post : forall t,
  tracks t p (fun t a => tracks t (k a) post) -> tracks t (bind p k) post.
Proof.
  induction p as [a|R e h IH]; intros t H; [done|]. intros a s Hok.
  destruct (H a s Hok) as (t' & E' & Ht). exists t'. split; [done|]. by apply IH.
Qed.

Lemma tracks_mono {A} (p : program E A) (post post' : T -> A -> Prop) : (forall t a, post t a -> post' t a) ->
  forall t, tracks t p post -> tracks t p post'.
Proof.
  intros Hpost. induction p as [a|R e h IH]; intros t H; [by apply Hpost|]. intros a s Hok.
  destruct (H a s Hok) as (t' & E' & Ht). exists t'. split; [done|]. by apply IH.
Qed.

Lemma tracks_call {R} (e : E R) t (post : T -> R -> Prop) :
  (forall a s, ok t s -> exists t', upd t s (perform R a e s).1.2 (perform R a e s).2 t' /\
     post t' (perform R a e s).1.1) ->
  tracks t (call e) post.
Proof. intros H a s Hok. by apply H. Qed.
End tracks.

Lemma tracks_weaken {E S Answer Out T} (perform : forall R, Answer -> E R -> S -> R * S * list Out)
    (ok : T -> S -> Prop) (upd upd' : T -> S -> S -> list Out -> T -> Prop) {A} (p : program E A) post :
  (forall t s s' es t', upd t s s' es t' -> upd' t s s' es t') ->
  forall t, tracks perform ok upd t p post -> tracks perform ok upd' t p post.
Proof.
  intros Hu. induction p as [a|R e h IH]; intros t H; [done|]. intros a s Hok.
  destruct (H a s Hok) as (t' & E' & Ht). exists t'. split; [by apply Hu|]. by apply IH.
Qed.
