(* ===== verification/GoString.v ===== *)
(** * Go strings

    A Go string is a sequence of bytes, as is Rocq's [string].  This file models
    the part of package [strings], [unicode/utf8] and [regexp] the sources use:
    [TrimSpace] with every Unicode white space, UTF-8 decoding and encoding as
    Go performs it (an invalid byte decodes to U+FFFD with width one), rune
    truncation, byte-wise ordering and the two anchored character-class
    patterns of the session service. *)
From S2P Require Import Prelude.

Open Scope Z_scope.

Abbreviation bytes := (list ascii).

Abbreviation to_bytes := list_ascii_of_string.
Abbreviation of_bytes := string_of_list_ascii.

(** [len(s)] *)
Definition go_len (s : string) : Z := Z.of_nat (String.length s).

Definition byte_val (b : ascii) : Z := Z.of_N (N_of_ascii b).
Definition byte_of (z : Z) : ascii := ascii_of_N (Z.to_N (z mod 256)).

(** ** [strings.TrimSpace]

    [unicode.IsSpace] holds of the ASCII blanks, U+0085, U+00A0, U+1680,
    U+2000..U+200A, U+2028, U+2029, U+202F, U+205F and U+3000; the three
    predicates recognise their one-, two- and three-byte encodings. *)
Definition space1 (a : ascii) : bool :=
  let n := byte_val a in ((9 <=? n) && (n <=? 13)) || (n =? 32).

Definition space2 (a b : ascii) : bool :=
  (byte_val a =? 194) && ((byte_val b =? 133) || (byte_val b =? 160)).

Definition space3 (a b c : ascii) : bool :=
  let x := byte_val a in let y := byte_val b in let z := byte_val c in
  ((x =? 225) && (y =? 154) && (z =? 128))
  || ((x =? 226) && (y =? 128) && ((128 <=? z) && (z <=? 138)))
  || ((x =? 226) && (y =? 128) && ((z =? 168) || (z =? 169) || (z =? 175)))
  || ((x =? 226) && (y =? 129) && (z =? 159))
  || ((x =? 227) && (y =? 128) && (z =? 128)).

Section strip.
Context (s1 : ascii -> bool) (s2 : ascii -> ascii -> bool)
        (s3 : ascii -> ascii -> ascii -> bool).

(** Drop leading blanks; a blank is one, two or three bytes. *)
Fixpoint strip (l : bytes) : bytes :=
  match l with
  | [] => []
  | a :: t =>
      if s1 a then strip t else
      match t with
      | [] => l
      | b :: t' =>
          if s2 a b then strip t' else
          match t' with
          | [] => l
          | c :: t'' => if s3 a b c then strip t'' else l
          end
      end
  end.

(** No blank at the head. *)
Definition stripped (l : bytes) : bool :=
  match l with
  | [] => true
  | a :: t =>
      negb (s1 a) &&
      match t with
      | [] => true
      | b :: t' =>
          negb (s2 a b) &&
          match t' with
          | [] => true
          | c :: _ => negb (s3 a b c)
          end
      end
  end.

Lemma strip_cases l :
  stripped l = true /\ strip l = l \/
  exists p l', l = p ++ l' /\ strip l = strip l' /\ p <> [].
Proof.
  destruct l as [|a t]; [by left|]. simpl.
  destruct (s1 a) eqn:?; simpl.
  { right. by exists [a], t. }
  destruct t as [|b t]; [by left|].
  destruct (s2 a b) eqn:?; simpl.
  { right. by exists [a; b], t. }
  destruct t as [|c t]; [by left|].
  destruct (s3 a b c) eqn:?; simpl; [|by left].
  right. by exists [a; b; c], t.
Qed.


Lemma strip_spec l : stripped (strip l) = true /\ exists p, l = p ++ strip l.
Proof.
  remember (length l) as n eqn:Hn. revert l Hn.
  induction n as [n IH] using lt_wf_ind. intros l ->.
  destruct (strip_cases l) as [[Hs ->]|(p & l' & -> & -> & Hp)].
  - split; [done|by exists []].
  - destruct (IH (length l')) with (l := l') as [? [q Hq]]; [|done|].
    { rewrite length_app. destruct p; [done|simpl; lia]. }
    split; [done|]. exists (p ++ q). by rewrite <-app_assoc, <-Hq.
Qed.

Lemma strip_stripped l : stripped l = true -> strip l = l.
Proof.
  destruct l as [|a t]; [done|]. simpl. destruct (s1 a); [done|].
  destruct t as [|b t]; [done|]. simpl. destruct (s2 a b); [done|].
  destruct t as [|c t]; [done|]. simpl. by destruct (s3 a b c).
Qed.

(** A prefix of a list without a leading blank has no leading blank. *)
Lemma stripped_prefix l k : stripped (l ++ k) = true -> stripped l = true.
Proof.
  destruct l as [|a [|b [|c l]]]; simpl; intros H; try done;
    apply andb_true_iff in H as [-> H]; try done;
    apply andb_true_iff in H as [-> H]; done.
Qed.
End strip.

Definition trim_left (l : bytes) : bytes := strip space1 space2 space3 l.
Definition trim_right (l : bytes) : bytes :=
  reverse (strip space1 (fun b a => space2 a b) (fun c b a => space3 a b c) (reverse l)).

Definition trim_bytes (l : bytes) : bytes := trim_right (trim_left l).

(** [strings.TrimSpace(s)] *)
Definition TrimSpace (s : string) : string := of_bytes (trim_bytes (to_bytes s)).

Lemma trim_right_prefix l : exists p, l = trim_right l ++ p.
Proof.
  unfold trim_right.
  destruct (strip_spec space1 (fun b a => space2 a b) (fun c b a => space3 a b c) (reverse l))
    as [_ [p Hp]].
  exists (reverse p). rewrite <-reverse_app, <-Hp. by rewrite reverse_involutive.
Qed.

Lemma trim_right_idem l : trim_right (trim_right l) = trim_right l.
Proof.
  unfold trim_right. rewrite reverse_involutive.
  f_equal. apply strip_stripped, strip_spec.
Qed.

Lemma trim_bytes_idem l : trim_bytes (trim_bytes l) = trim_bytes l.
Proof.
  unfold trim_bytes. set (m := trim_left l).
  assert (Hm : stripped space1 space2 space3 m = true) by apply strip_spec.
  destruct (trim_right_prefix m) as [p Hp].
  assert (trim_left (trim_right m) = trim_right m) as ->.
  { apply strip_stripped. rewrite Hp in Hm. by apply stripped_prefix in Hm. }
  apply trim_right_idem.
Qed.

Lemma TrimSpace_idem s : TrimSpace (TrimSpace s) = TrimSpace s.
Proof.
  unfold TrimSpace. by rewrite list_ascii_of_string_of_list_ascii, trim_bytes_idem.
Qed.

Lemma TrimSpace_empty : TrimSpace "" = "".
Proof. reflexivity. Qed.

(** [strings.TrimSpace(s) == ""] *)
Definition blank (s : string) : bool := String.eqb (TrimSpace s) "".

Lemma blank_TrimSpace s : blank (TrimSpace s) = blank s.
Proof. unfold blank. by rewrite TrimSpace_idem. Qed.

Lemma blank_false s : blank s = false <-> TrimSpace s <> "".
Proof. unfold blank. apply String.eqb_neq. Qed.

Lemma blank_true s : blank s = true <-> TrimSpace s = "".
Proof. unfold blank. apply String.eqb_eq. Qed.

Lemma to_bytes_app s t : to_bytes (s +:+ t) = to_bytes s ++ to_bytes t.
Proof.
  induction s as [|a s IH]; [done|]. change (a :: to_bytes (s +:+ t) = a :: (to_bytes s ++ to_bytes t)).
  by rewrite IH.
Qed.

Lemma to_bytes_inj s t : to_bytes s = to_bytes t -> s = t.
Proof. intros H. apply (f_equal string_of_list_ascii) in H. by rewrite !string_of_list_ascii_of_string in H. Qed.

Lemma byte_val_range a : 0 <= byte_val a < 256.
Proof. unfold byte_val. pose proof (N_ascii_bounded a). lia. Qed.

Lemma byte_val_of z : byte_val (byte_of z) = z mod 256.
Proof.
  unfold byte_val, byte_of. pose proof (Z.mod_pos_bound z 256).
  rewrite N_ascii_embedding; lia.
Qed.

(** Printable ASCII text has nothing to trim. *)
Definition graphic (a : ascii) : Prop := 32 < byte_val a < 128.

Lemma graphic_stripped s1 s2 s3 l :
  Forall graphic l ->
  (forall a, graphic a -> s1 a = false) ->
  (forall a b, graphic a -> graphic b -> s2 a b = false) ->
  (forall a b c, graphic a -> graphic b -> graphic c -> s3 a b c = false) ->
  stripped s1 s2 s3 l = true.
Proof.
  intros Hl H1 H2 H3. destruct Hl as [|a l Ha Hl]; [done|]. cbn. rewrite H1 by done.
  destruct Hl as [|b l Hb Hl]; [done|]. rewrite H2 by done.
  destruct Hl as [|c l Hc Hl]; [done|]. by rewrite H3.
Qed.

Lemma graphic_space2 a b : graphic a -> space2 a b = false.
Proof. unfold graphic, space2. lia. Qed.

Lemma graphic_space3 a b c : graphic a -> space3 a b c = false.
Proof. unfold graphic, space3. lia. Qed.

Lemma TrimSpace_graphic s : Forall graphic (to_bytes s) -> TrimSpace s = s.
Proof.
  intros H. unfold TrimSpace, trim_bytes, trim_left, trim_right.
  rewrite (strip_stripped space1 space2 space3).
  - rewrite strip_stripped; [by rewrite reverse_involutive, string_of_list_ascii_of_string|].
    apply graphic_stripped; [by rewrite Forall_reverse|..].
    + unfold graphic, space1. lia.
    + intros. by apply graphic_space2.
    + intros. by apply graphic_space3.
  - apply graphic_stripped; [done|..].
    + unfold graphic, space1. lia.
    + intros. by apply graphic_space2.
    + intros. by apply graphic_space3.
Qed.

Lemma byte_of_val a : byte_of (byte_val a) = a.
Proof.
  unfold byte_of. rewrite Z.mod_small by apply byte_val_range.
  unfold byte_val. rewrite N2Z.id. apply ascii_N_embedding.
Qed.

(** ** UTF-8 *)
Definition RuneError : Z := 65533.

Definition in_range (lo x hi : Z) : bool := (lo <=? x) && (x <=? hi).

(** [[]rune(s)]: every rune of a string.  A byte that does not start a
    well-formed sequence yields [RuneError] and is consumed alone. *)
Fixpoint runes (l : bytes) : list Z :=
  match l with
  | [] => []
  | a :: t =>
      let x := byte_val a in
      if x <? 128 then x :: runes t else
      match t with
      | [] => [RuneError]
      | b :: t1 =>
          let y := byte_val b in
          if in_range 194 x 223 && in_range 128 y 191
          then ((x - 192) * 64 + (y - 128)) :: runes t1 else
          match t1 with
          | [] => RuneError :: runes t
          | c :: t2 =>
              let z := byte_val c in
              if in_range 224 x 239
                 && in_range (if x =? 224 then 160 else 128) y
                             (if x =? 237 then 159 else 191)
                 && in_range 128 z 191
              then ((x - 224) * 4096 + (y - 128) * 64 + (z - 128)) :: runes t2 else
              match t2 with
              | [] => RuneError :: runes t
              | d :: t3 =>
                  let w := byte_val d in
                  if in_range 240 x 244
                     && in_range (if x =? 240 then 144 else 128) y
                                 (if x =? 244 then 143 else 191)
                     && in_range 128 z 191 && in_range 128 w 191
                  then ((x - 240) * 262144 + (y - 128) * 4096 + (z - 128) * 64 + (w - 128))
                         :: runes t3
                  else RuneError :: runes t
              end
          end
      end
  end.

(** A Unicode scalar value: what [utf8.ValidRune] accepts. *)
Definition valid_rune (r : Z) : bool := in_range 0 r 55295 || in_range 57344 r 1114111.

(** [utf8.AppendRune] on a valid rune. *)
Definition encode_rune (r : Z) : bytes :=
  if r <? 128 then [byte_of r]
  else if r <? 2048 then [byte_of (192 + r / 64); byte_of (128 + r mod 64)]
  else if r <? 65536 then
    [byte_of (224 + r / 4096); byte_of (128 + (r / 64) mod 64); byte_of (128 + r mod 64)]
  else
    [byte_of (240 + r / 262144); byte_of (128 + (r / 4096) mod 64);
     byte_of (128 + (r / 64) mod 64); byte_of (128 + r mod 64)].

(** [string(rs)] on valid runes. *)
Definition encode_runes (rs : list Z) : bytes := concat (map encode_rune rs).

(** [utf8.RuneCountInString(s)] *)
Definition rune_count (s : string) : Z := Z.of_nat (length (runes (to_bytes s))).

(** [string([]rune(s)[:n])], guarded by the rune count as the callers do. *)
Definition capRunes (s : string) (n : nat) : string :=
  if rune_count s <=? Z.of_nat n then s
  else of_bytes (encode_runes (take n (runes (to_bytes s)))).

(** Decide range conditions, conditional bounds included. *)
Ltac range_lia :=
  unfold valid_rune, in_range in *;
  repeat match goal with
  | H : context [if ?c then _ else _] |- _ => destruct c eqn:?
  | |- context [if ?c then _ else _] => destruct c eqn:?
  end; lia.

Lemma runes_ind (P : bytes -> Prop) :
  (forall l, (forall l', (length l' < length l)%nat -> P l') -> P l) -> forall l, P l.
Proof.
  intros H l. remember (length l) as n eqn:Hn. revert l Hn.
  induction n as [n IH] using lt_wf_ind. intros l ->.
  apply H. intros l' ?. by eapply IH.
Qed.

Lemma runes_valid l : Forall (fun r => valid_rune r = true) (runes l).
Proof.
  induction l as [l IH] using runes_ind.
  destruct l as [|a t]; [constructor|]. cbn [runes].
  pose proof (byte_val_range a).
  destruct (byte_val a <? 128) eqn:?.
  { constructor; [range_lia|apply IH; simpl; lia]. }
  destruct t as [|b t1]; [by repeat constructor|].
  destruct (in_range 194 _ 223 && _) eqn:H2.
  { constructor; [range_lia|apply IH; simpl; lia]. }
  destruct t1 as [|c t2]; [constructor; [done|apply IH; simpl; lia]|].
  destruct (in_range 224 _ 239 && _ && _) eqn:H3.
  { constructor; [range_lia|apply IH; simpl; lia]. }
  destruct t2 as [|d t3]; [constructor; [done|apply IH; simpl; lia]|].
  destruct (in_range 240 _ 244 && _ && _ && _) eqn:H4.
  { constructor; [range_lia|apply IH; simpl; lia]. }
  constructor; [done|apply IH; simpl; lia].
Qed.

Lemma runes_encode r l : valid_rune r = true -> runes (encode_rune r ++ l) = r :: runes l.
Proof.
  intros Hv. unfold encode_rune.
  destruct (r <? 128) eqn:Hr1.
  { cbn [app runes]. rewrite byte_val_of, Z.mod_small by range_lia. by rewrite Hr1. }
  pose proof (Z.div_mod r 64). pose proof (Z.mod_pos_bound r 64).
  destruct (r <? 2048) eqn:Hr2.
  { cbn [app runes]. rewrite !byte_val_of, !Z.mod_small by range_lia.
    replace (192 + r / 64 <? 128) with false by lia.
    replace (in_range 194 _ 223 && _) with true by range_lia.
    f_equal. lia. }
  pose proof (Z.div_mod (r / 64) 64). pose proof (Z.mod_pos_bound (r / 64) 64).
  assert (Hd : r / 4096 = r / 64 / 64) by (rewrite Z.div_div by lia; done).
  destruct (r <? 65536) eqn:Hr3.
  { cbn [app runes]. rewrite !byte_val_of, Hd.
    rewrite (Z.mod_small (224 + _)), (Z.mod_small (128 + r / 64 mod 64)),
      (Z.mod_small (128 + r mod 64)) by range_lia.
    replace (224 + r / 64 / 64 <? 128) with false by lia.
    replace (in_range 194 _ 223 && _) with false by range_lia.
    replace (in_range 224 _ 239 && _ && _) with true by range_lia.
    f_equal. lia. }
  pose proof (Z.div_mod (r / 4096) 64). pose proof (Z.mod_pos_bound (r / 4096) 64).
  assert (Hd' : r / 262144 = r / 4096 / 64) by (rewrite Z.div_div by lia; done).
  cbn [app runes]. rewrite !byte_val_of, Hd'.
  rewrite (Z.mod_small (240 + _)), (Z.mod_small (128 + r / 4096 mod 64)),
    (Z.mod_small (128 + r / 64 mod 64)), (Z.mod_small (128 + r mod 64)) by range_lia.
  replace (240 + r / 4096 / 64 <? 128) with false by lia.
  replace (in_range 194 _ 223 && _) with false by range_lia.
  replace (in_range 224 _ 239 && _ && _) with false by range_lia.
  replace (in_range 240 _ 244 && _ && _ && _) with true by range_lia.
  f_equal. lia.
Qed.

(** Encoding valid runes and decoding them again is the identity. *)
Lemma runes_encode_runes rs :
  Forall (fun r => valid_rune r = true) rs -> runes (encode_runes rs) = rs.
Proof.
  unfold encode_runes. induction 1 as [|r rs Hr _ IH]; [done|].
  simpl. by rewrite runes_encode, IH.
Qed.

Lemma capRunes_runes s n :
  runes (to_bytes (capRunes s n)) = take n (runes (to_bytes s)).
Proof.
  unfold capRunes, rune_count. destruct (Z.leb_spec (Z.of_nat (length (runes (to_bytes s)))) (Z.of_nat n)).
  - rewrite take_ge; [done|lia].
  - rewrite list_ascii_of_string_of_list_ascii. apply runes_encode_runes.
    apply Forall_take, runes_valid.
Qed.

Lemma capRunes_count s n : rune_count (capRunes s n) <= Z.of_nat n.
Proof. unfold rune_count. rewrite capRunes_runes, length_take. lia. Qed.

Lemma capRunes_idem s n : capRunes (capRunes s n) n = capRunes s n.
Proof.
  unfold capRunes at 1. pose proof (capRunes_count s n).
  by destruct (Z.leb_spec (rune_count (capRunes s n)) (Z.of_nat n)); [|lia].
Qed.

Lemma capRunes_empty n : capRunes "" n = "".
Proof. by destruct n. Qed.

(** [strings.Contains(s, sub)] *)
Fixpoint Contains (s sub : string) : bool :=
  String.prefix sub s ||
  match s with
  | EmptyString => false
  | String _ s => Contains s sub
  end.

(** ** Ordering and character classes *)

(** Go compares strings byte by byte. *)
Definition str_lt (a b : string) : bool := String.ltb a b.

Lemma str_lt_le a b : str_lt a b = negb (String.leb b a).
Proof.
  unfold str_lt, String.ltb, String.leb. rewrite String.compare_antisym.
  by destruct (String.compare b a).
Qed.

Lemma str_lt_irrefl a : str_lt a a = false.
Proof. rewrite str_lt_le. pose proof (reflexivity (R := String.le) a) as H.
  unfold String.le in H. by destruct (String.leb a a). Qed.

Lemma str_lt_trichotomy a b : a = b \/ str_lt a b = true \/ str_lt b a = true.
Proof.
  unfold str_lt, String.ltb. rewrite (String.compare_antisym b a).
  destruct (String.compare a b) eqn:H; simpl; auto.
  left. by apply String.compare_eq_iff.
Qed.

Lemma str_lt_trans a b c : str_lt a b = true -> str_lt b c = true -> str_lt a c = true.
Proof.
  rewrite !str_lt_le, !negb_true_iff. intros Hab Hbc.
  destruct (String.leb c a) eqn:Hca; [|done].
  destruct (String.leb_total a b) as [H|H]; [|by rewrite Hab in H].
  enough (String.leb c b = true) as E by (by rewrite Hbc in E).
  apply Is_true_true. change (String.le c b).
  transitivity a; unfold String.le; by apply Is_true_true.
Qed.

Lemma str_lt_asymm a b : str_lt a b = true -> str_lt b a = false.
Proof.
  intros H. apply not_true_iff_false. intros H'.
  pose proof (str_lt_trans _ _ _ H H') as E. by rewrite str_lt_irrefl in E.
Qed.

Lemma str_lt_negtrans a b c :
  str_lt b a = false -> str_lt c b = false -> str_lt c a = false.
Proof.
  rewrite !str_lt_le, !negb_false_iff. intros H1 H2.
  apply Is_true_true. change (String.le a c).
  transitivity b; unfold String.le; by apply Is_true_true.
Qed.

Lemma str_lt_antisymm a b : str_lt a b = false -> str_lt b a = false -> a = b.
Proof. intros H1 H2. by destruct (str_lt_trichotomy a b) as [?|[?|?]]; [|congruence..]. Qed.

(** [sort.Strings] and [slices.Sort] on strings. *)
Definition SortStrings (l : list string) : list string := merge_sort String.le l.

Lemma SortStrings_Permutation l : SortStrings l ≡ₚ l.
Proof. apply merge_sort_Permutation. Qed.

Lemma SortStrings_strict l :
  NoDup l -> StronglySorted (fun a b => str_lt a b = true) (SortStrings l).
Proof.
  intros Hnd. assert (NoDup (SortStrings l)) as Hn by (by rewrite SortStrings_Permutation).
  pose proof (StronglySorted_merge_sort String.le l) as Hs.
  fold (SortStrings l) in Hs. induction Hs as [|a k Hs IH Ha]; [constructor|].
  apply NoDup_cons in Hn as [Hni Hn]. constructor; [by apply IH|].
  apply Forall_forall. intros b Hb. rewrite Forall_forall in Ha. specialize (Ha b Hb).
  rewrite str_lt_le. apply negb_true_iff.
  destruct (String.leb b a) eqn:E; [|done]. exfalso. apply Hni.
  assert (a = b) as -> by (apply (anti_symm String.le); [done|by apply Is_true_true in E]).
  done.
Qed.

Definition is_alnum (a : ascii) : bool :=
  let x := byte_val a in in_range 65 x 90 || in_range 97 x 122 || in_range 48 x 57.

(** [regexp.MustCompile(`^[class]{lo,hi}$`).MatchString(s)] *)
Definition match_class (class : ascii -> bool) (lo hi : Z) (s : string) : bool :=
  in_range lo (go_len s) hi && forallb class (to_bytes s).

Lemma go_len_nonneg s : 0 <= go_len s.
Proof. unfold go_len. lia. Qed.

(** ** Searching and trimming *)

(** [strings.Index(s, string(a))] for one byte, [None] for -1 *)
Fixpoint index_byte (a : ascii) (l : bytes) : option nat :=
  match l with
  | [] => None
  | b :: t => if Ascii.eqb a b then Some O else S <$> index_byte a t
  end.

(** [strings.LastIndex(s, string(a))] for one byte *)
Fixpoint last_index_byte (a : ascii) (l : bytes) : option nat :=
  match l with
  | [] => None
  | b :: t =>
      match last_index_byte a t with
      | Some n => Some (S n)
      | None => if Ascii.eqb a b then Some O else None
      end
  end.

(** [strings.TrimPrefix(s, p)] and [strings.TrimSuffix(s, p)] *)
Definition TrimPrefix (s p : string) : string :=
  if String.prefix p s
  then String.substring (String.length p) (String.length s - String.length p) s else s.
Definition HasSuffix (s p : string) : bool :=
  (String.length p <=? String.length s)%nat &&
  String.eqb (String.substring (String.length s - String.length p) (String.length p) s) p.
Definition TrimSuffix (s p : string) : string :=
  if HasSuffix s p then String.substring 0 (String.length s - String.length p) s else s.

(** [s[:n]] in bytes, guarded by the length as the callers do *)
Definition cut_bytes (s : string) (n : nat) : string := of_bytes (take n (to_bytes s)).

(** The outermost braces of a reply: [s] from its first opening brace to its
    last closing one, when they are in that order; [s] otherwise. *)
Definition brace_span (s : string) : string :=
  match index_byte "{" (to_bytes s), last_index_byte "}" (to_bytes s) with
  | Some i, Some j =>
      if (i <? j)%nat then of_bytes (take (S j - i) (drop i (to_bytes s))) else s
  | _, _ => s
  end.
