(* ===== verification/GoUnicode.v ===== *)
(** * Unicode lower case (package strings, package unicode)

    [strings.ToLower] on the runes of a string.  [lower_ranges] is the
    simple lower-case mapping of the Unicode character database, compressed to
    (first, last, step, delta) the way package unicode stores it. *)
From S2P Require Import Prelude GoString.

Open Scope Z_scope.

Definition lower_ranges : list (Z * Z * Z * Z) :=
  [(65,90,1,32); (192,214,1,32); (216,222,1,32); (256,302,2,1); (304,304,1,-199); (306,310,2,1);
   (313,327,2,1); (330,374,2,1); (376,376,1,-121); (377,381,2,1); (385,385,1,210); (386,388,2,1);
   (390,390,1,206); (391,391,1,1); (393,394,1,205); (395,395,1,1); (398,398,1,79); (399,399,1,202);
   (400,400,1,203); (401,401,1,1); (403,403,1,205); (404,404,1,207); (406,406,1,211);
   (407,407,1,209); (408,408,1,1); (412,412,1,211); (413,413,1,213); (415,415,1,214);
   (416,420,2,1); (422,422,1,218); (423,423,1,1); (425,425,1,218); (428,428,1,1); (430,430,1,218);
   (431,431,1,1); (433,434,1,217); (435,437,2,1); (439,439,1,219); (440,440,1,1); (444,444,1,1);
   (452,452,1,2); (453,453,1,1); (455,455,1,2); (456,456,1,1); (458,458,1,2); (459,475,2,1);
   (478,494,2,1); (497,497,1,2); (498,500,2,1); (502,502,1,-97); (503,503,1,-56); (504,542,2,1);
   (544,544,1,-130); (546,562,2,1); (570,570,1,10795); (571,571,1,1); (573,573,1,-163);
   (574,574,1,10792); (577,577,1,1); (579,579,1,-195); (580,580,1,69); (581,581,1,71);
   (582,590,2,1); (880,882,2,1); (886,886,1,1); (895,895,1,116); (902,902,1,38); (904,906,1,37);
   (908,908,1,64); (910,911,1,63); (913,929,1,32); (931,939,1,32); (975,975,1,8); (984,1006,2,1);
   (1012,1012,1,-60); (1015,1015,1,1); (1017,1017,1,-7); (1018,1018,1,1); (1021,1023,1,-130);
   (1024,1039,1,80); (1040,1071,1,32); (1120,1152,2,1); (1162,1214,2,1); (1216,1216,1,15);
   (1217,1229,2,1); (1232,1326,2,1); (1329,1366,1,48); (4256,4293,1,7264); (4295,4295,1,7264);
   (4301,4301,1,7264); (5024,5103,1,38864); (5104,5109,1,8); (7312,7354,1,-3008);
   (7357,7359,1,-3008); (7680,7828,2,1); (7838,7838,1,-7615); (7840,7934,2,1); (7944,7951,1,-8);
   (7960,7965,1,-8); (7976,7983,1,-8); (7992,7999,1,-8); (8008,8013,1,-8); (8025,8031,2,-8);
   (8040,8047,1,-8); (8072,8079,1,-8); (8088,8095,1,-8); (8104,8111,1,-8); (8120,8121,1,-8);
   (8122,8123,1,-74); (8124,8124,1,-9); (8136,8139,1,-86); (8140,8140,1,-9); (8152,8153,1,-8);
   (8154,8155,1,-100); (8168,8169,1,-8); (8170,8171,1,-112); (8172,8172,1,-7); (8184,8185,1,-128);
   (8186,8187,1,-126); (8188,8188,1,-9); (8486,8486,1,-7517); (8490,8490,1,-8383);
   (8491,8491,1,-8262); (8498,8498,1,28); (8544,8559,1,16); (8579,8579,1,1); (9398,9423,1,26);
   (11264,11311,1,48); (11360,11360,1,1); (11362,11362,1,-10743); (11363,11363,1,-3814);
   (11364,11364,1,-10727); (11367,11371,2,1); (11373,11373,1,-10780); (11374,11374,1,-10749);
   (11375,11375,1,-10783); (11376,11376,1,-10782); (11378,11378,1,1); (11381,11381,1,1);
   (11390,11391,1,-10815); (11392,11490,2,1); (11499,11501,2,1); (11506,11506,1,1);
   (42560,42604,2,1); (42624,42650,2,1); (42786,42798,2,1); (42802,42862,2,1); (42873,42875,2,1);
   (42877,42877,1,-35332); (42878,42886,2,1); (42891,42891,1,1); (42893,42893,1,-42280);
   (42896,42898,2,1); (42902,42920,2,1); (42922,42922,1,-42308); (42923,42923,1,-42319);
   (42924,42924,1,-42315); (42925,42925,1,-42305); (42926,42926,1,-42308); (42928,42928,1,-42258);
   (42929,42929,1,-42282); (42930,42930,1,-42261); (42931,42931,1,928); (42932,42946,2,1);
   (42948,42948,1,-48); (42949,42949,1,-42307); (42950,42950,1,-35384); (42951,42953,2,1);
   (42960,42960,1,1); (42966,42968,2,1); (42997,42997,1,1); (65313,65338,1,32); (66560,66599,1,40);
   (66736,66771,1,40); (66928,66938,1,39); (66940,66954,1,39); (66956,66962,1,39);
   (66964,66965,1,39); (68736,68786,1,64); (71840,71871,1,32); (93760,93791,1,32);
   (125184,125217,1,34)].

Definition range_hit (r : Z) (g : Z * Z * Z * Z) : bool :=
  let '(lo, hi, st, _) := g in in_range lo r hi && ((r - lo) mod st =? 0).

(** [unicode.ToLower(r)] *)
Definition rune_lower (r : Z) : Z :=
  match find (range_hit r) lower_ranges with
  | Some (_, _, _, d) => r + d
  | None => r
  end.

(** [strings.ToLower(s)]: a byte that is not UTF-8 becomes [RuneError]. *)
Definition ToLower (s : string) : string :=
  of_bytes (encode_runes (map rune_lower (runes (to_bytes s)))).

(** ** The mapping is a projection *)

Definition range_points (g : Z * Z * Z * Z) : list Z :=
  let '(lo, hi, st, _) := g in
  map (fun k => lo + Z.of_nat k * st) (seq 0 (Z.to_nat ((hi - lo) / st + 1))).

Definition lower_points : list Z := concat (map range_points lower_ranges).

Definition lower_point_ok (r : Z) : bool :=
  (rune_lower (rune_lower r) =? rune_lower r) && valid_rune (rune_lower r).

Lemma lower_points_ok : forallb lower_point_ok lower_points = true.
Proof. vm_compute. reflexivity. Qed.

Lemma range_hit_point r g :
  0 < g.1.2 -> range_hit r g = true -> In r (range_points g).
Proof.
  destruct g as [[[lo hi] st] d]. cbn. intros Hst H.
  apply andb_true_iff in H as [Hr Hm]. apply Z.eqb_eq in Hm.
  unfold in_range in Hr. apply in_map_iff.
  exists (Z.to_nat ((r - lo) / st)).
  pose proof (Z.div_mod (r - lo) st). pose proof (Z.div_pos (r - lo) st).
  assert ((r - lo) / st <= (hi - lo) / st) by (apply Z.div_le_mono; lia).
  split; [nia|]. apply in_seq. lia.
Qed.

Lemma lower_ranges_steps : Forall (fun g : Z * Z * Z * Z => 0 < g.1.2) lower_ranges.
Proof. apply Forall_forall. intros g H. apply list_elem_of_In in H.
  assert (forallb (fun g : Z * Z * Z * Z => 0 <? g.1.2) lower_ranges = true) as E
    by (vm_compute; reflexivity).
  rewrite forallb_forall in E. apply E in H. lia. Qed.

Lemma rune_lower_spec r :
  rune_lower r = r \/ lower_point_ok r = true.
Proof.
  unfold rune_lower at 1. destruct (find (range_hit r) lower_ranges) as [g|] eqn:E; [|auto].
  right. apply find_some in E as [Hin Hhit].
  pose proof lower_ranges_steps as Hs. rewrite Forall_forall in Hs.
  pose proof lower_points_ok as Hok. rewrite forallb_forall in Hok. apply Hok.
  apply in_concat. exists (range_points g). split; [by apply in_map|].
  apply range_hit_point; [|done]. by apply Hs, list_elem_of_In.
Qed.

Lemma rune_lower_idem r : rune_lower (rune_lower r) = rune_lower r.
Proof.
  destruct (rune_lower_spec r) as [H|H]; [by rewrite !H|].
  apply andb_true_iff in H as [H _]. lia.
Qed.

Lemma rune_lower_valid r : valid_rune r = true -> valid_rune (rune_lower r) = true.
Proof.
  intros Hv. destruct (rune_lower_spec r) as [H|H]; [by rewrite H|].
  by apply andb_true_iff in H as [_ H].
Qed.

Lemma ToLower_idem s : ToLower (ToLower s) = ToLower s.
Proof.
  unfold ToLower. rewrite list_ascii_of_string_of_list_ascii, runes_encode_runes.
  - rewrite map_map. f_equal. f_equal. apply map_ext. apply rune_lower_idem.
  - apply Forall_map. eapply Forall_impl; [apply runes_valid|].
    intros r. apply rune_lower_valid.
Qed.

(** ** [strings.EqualFold]

    Two runes are equal under simple case folding when they have the same fold,
    which is the lower case except on these points. *)
Definition fold_exceptions : list (Z * Z * Z * Z) :=
  [(181,181,1,775); (304,304,1,0); (383,383,1,-268); (837,837,1,116); (962,962,1,1);
   (976,976,1,-30); (977,977,1,-25); (981,981,1,-15); (982,982,1,-22); (1008,1008,1,-54);
   (1009,1009,1,-48); (1013,1013,1,-64); (5024,5109,1,0); (5112,5117,1,-8); (7296,7296,1,-6222);
   (7297,7297,1,-6221); (7298,7298,1,-6212); (7299,7300,1,-6210); (7301,7301,1,-6211);
   (7302,7302,1,-6204); (7303,7303,1,-6180); (7304,7304,1,35267); (7835,7835,1,-58);
   (8126,8126,1,-7173); (43888,43967,1,-38864)].

Definition rune_fold (r : Z) : Z :=
  match find (range_hit r) fold_exceptions with
  | Some (_, _, _, d) => r + d
  | None => rune_lower r
  end.

Definition EqualFold (s t : string) : bool :=
  bool_decide (map rune_fold (runes (to_bytes s)) = map rune_fold (runes (to_bytes t))).

Lemma EqualFold_refl s : EqualFold s s = true.
Proof. by apply bool_decide_eq_true. Qed.

Example EqualFold_long_s : EqualFold "STANDUP" (of_bytes (encode_runes [383]) +:+ "tandup") = true.
Proof. vm_compute. reflexivity. Qed.

(** ** [strings.FieldsFunc] and [strings.Join] *)

(** The maximal runs of runes that are not separators, as rune lists; [cur] is
    the run being read, reversed. *)
Fixpoint rune_fields (sep : Z -> bool) (cur : list Z) (rs : list Z) : list (list Z) :=
  match rs with
  | [] => match cur with [] => [] | _ => [reverse cur] end
  | r :: rs =>
      if sep r then
        match cur with
        | [] => rune_fields sep [] rs
        | _ => reverse cur :: rune_fields sep [] rs
        end
      else rune_fields sep (r :: cur) rs
  end.

Fixpoint join_runes (sep : list Z) (fs : list (list Z)) : list Z :=
  match fs with
  | [] => []
  | [f] => f
  | f :: fs => f ++ sep ++ join_runes sep fs
  end.

Lemma rune_fields_run sep cur f rs :
  Forall (fun r => sep r = false) f ->
  rune_fields sep cur (f ++ rs) = rune_fields sep (reverse f ++ cur) rs.
Proof.
  revert cur. induction f as [|r f IH]; intros cur Hf; [done|]. inversion_clear Hf as [|? ? Hr Hf'].
  cbn [rune_fields app]. rewrite Hr, IH by done. by rewrite reverse_cons, <- app_assoc.
Qed.

(** Every field is a non-empty run of kept runes of the string. *)
Lemma rune_fields_kept sep cur rs :
  Forall (fun r => sep r = false) cur ->
  Forall (fun f => f <> [] /\ Forall (fun r => sep r = false) f) (rune_fields sep cur rs).
Proof.
  revert cur. induction rs as [|r rs IH]; intros cur Hc; cbn.
  { destruct cur as [|c cur]; [done|]. constructor; [|done]. split.
    - intros E. apply (f_equal length) in E. by rewrite length_reverse in E.
    - by rewrite Forall_reverse. }
  destruct (sep r) eqn:E; [|by apply IH; constructor].
  destruct cur as [|c cur]; [by apply IH|]. constructor; [|by apply IH]. split.
  - intros E'. apply (f_equal length) in E'. by rewrite length_reverse in E'.
  - by rewrite Forall_reverse.
Qed.

(** Splitting the fields joined by a separator gives the fields back. *)
Lemma rune_fields_join sep x fs :
  sep x = true -> Forall (fun f => f <> [] /\ Forall (fun r => sep r = false) f) fs ->
  rune_fields sep [] (join_runes [x] fs) = fs.
Proof.
  intros Hx. induction 1 as [|f fs [Hne Hf] Hfs IH]; [done|].
  assert (reverse f <> []) as Hr.
  { intros E. apply Hne. by rewrite <- (reverse_involutive f), E. }
  destruct fs as [|g fs].
  - cbn. rewrite <- (app_nil_r f) at 1. rewrite rune_fields_run, app_nil_r by done. cbn.
    destruct (reverse f) eqn:E; [done|]. by rewrite <- E, reverse_involutive.
  - change (join_runes [x] (f :: g :: fs)) with (f ++ x :: join_runes [x] (g :: fs)).
    rewrite rune_fields_run, app_nil_r by done. cbn [rune_fields]. rewrite Hx.
    destruct (reverse f) eqn:E; [done|]. by rewrite <- E, reverse_involutive, IH.
Qed.

(** On ASCII letters and digits it is the usual one. *)
Example ToLower_kelvin : ToLower "ABC-xyz" = "abc-xyz"%string.
Proof. vm_compute. reflexivity. Qed.
