(* ===== verification/GoTime.v ===== *)
(** * Instants and durations

    [time.Time] is an instant in nanoseconds since the Unix epoch, so [UTC()] is
    the identity; the zero [time.Time] is the first instant of year 1.
    [time.Duration] is an [int64] of nanoseconds, and [Sub] saturates at its
    bounds as package [time] does.  Go's [int] and [int64] are 64 bits wide on
    the server's platforms; [int64] is the wrap-around of their arithmetic. *)
From S2P Require Import Prelude.
From stdpp Require Import pretty.

Open Scope Z_scope.

Abbreviation time := Z (only parsing).
Abbreviation duration := Z (only parsing).

Definition min_int64 : Z := - 2 ^ 63.
Definition max_int64 : Z := 2 ^ 63 - 1.

(** Two's-complement wrap-around. *)
Definition int64 (z : Z) : Z := (z + 2 ^ 63) mod 2 ^ 64 - 2 ^ 63.

Definition in_int64 (z : Z) : Prop := min_int64 <= z <= max_int64.

Lemma int64_id z : in_int64 z -> int64 z = z.
Proof. unfold in_int64, int64, min_int64, max_int64. intros. rewrite Z.mod_small; lia. Qed.

Lemma int64_range z : in_int64 (int64 z).
Proof.
  unfold in_int64, int64, min_int64, max_int64.
  pose proof (Z.mod_pos_bound (z + 2 ^ 63) (2 ^ 64)). lia.
Qed.

Lemma int64_idem_l a b : int64 (int64 a + b) = int64 (a + b).
Proof.
  unfold int64. f_equal.
  replace ((a + 2 ^ 63) mod 2 ^ 64 - 2 ^ 63 + b + 2 ^ 63)
    with ((a + 2 ^ 63) mod 2 ^ 64 + b) by lia.
  rewrite Zplus_mod_idemp_l. f_equal. lia.
Qed.

Lemma int64_idem_r a b : int64 (a + int64 b) = int64 (a + b).
Proof. by rewrite Z.add_comm, int64_idem_l, Z.add_comm. Qed.

Definition Millisecond : duration := 1000000.
Definition Second : duration := 1000 * Millisecond.
Definition Minute : duration := 60 * Second.
Definition Hour : duration := 60 * Minute.

Definition zero_time : time := -62135596800 * Second.

Definition IsZero (t : time) : bool := t =? zero_time.
Definition Before (a b : time) : bool := a <? b.
Definition After (a b : time) : bool := b <? a.
Definition Add (t : time) (d : duration) : time := t + d.
Definition Sub (a b : time) : duration := Z.max min_int64 (Z.min max_int64 (a - b)).

(** [time.UnixMilli(ms)] and [t.UnixMilli()]. *)
Definition of_UnixMilli (ms : Z) : time := ms * Millisecond.
Definition UnixMilli (t : time) : Z := t / Millisecond.

Lemma Sub_mono a a' b : a <= a' -> Sub a b <= Sub a' b.
Proof. unfold Sub. lia. Qed.

Lemma Sub_ge a b d : 0 < d <= max_int64 -> d <= Sub a b <-> b + d <= a.
Proof. unfold Sub, min_int64, max_int64. lia. Qed.

Lemma UnixMilli_of ms : UnixMilli (of_UnixMilli ms) = ms.
Proof. unfold UnixMilli, of_UnixMilli, Millisecond. apply Z.div_mul. lia. Qed.

(** ** Calendar days

    The proleptic Gregorian calendar of package [time], on the number of days
    since 1970-01-01. *)
Definition Day : duration := 24 * Hour.

Definition unix_day (t : time) : Z := t / Day.

(** [(year, month, day)] of a day number. *)
Definition civil_of_day (z : Z) : Z * Z * Z :=
  let z := z + 719468 in
  let era := z / 146097 in
  let doe := z mod 146097 in
  let yoe := (doe - doe / 1460 + doe / 36524 - doe / 146096) / 365 in
  let doy := doe - (365 * yoe + yoe / 4 - yoe / 100) in
  let mp := (5 * doy + 2) / 153 in
  let d := doy - (153 * mp + 2) / 5 + 1 in
  let m := if mp <? 10 then mp + 3 else mp - 9 in
  (yoe + era * 400 + (if m <=? 2 then 1 else 0), m, d).

(** A number padded with zeros, as [Format] pads. *)
Definition pad (width : nat) (z : Z) : string :=
  let s := pretty (Z.abs z) in
  (if z <? 0 then "-" else "") +:+
  String.concat "" (repeat "0"%string (width - String.length s)) +:+ s.

(** [t.Format("2006-01-02")] in UTC *)
Definition format_date (t : time) : string :=
  let '(y, m, d) := civil_of_day (unix_day t) in
  pad 4 y +:+ "-" +:+ pad 2 m +:+ "-" +:+ pad 2 d.

(** [t.Format(time.RFC3339)] in UTC *)
Definition format_rfc3339 (t : time) : string :=
  let s := t mod Day / Second in
  format_date t +:+ "T" +:+ pad 2 (s / 3600) +:+ ":" +:+ pad 2 (s / 60 mod 60)
    +:+ ":" +:+ pad 2 (s mod 60) +:+ "Z".

Example format_epoch_2026 :
  format_rfc3339 (1774961805 * Second) = "2026-03-31T12:56:45Z"%string.
Proof. vm_compute. reflexivity. Qed.

(** [t.Truncate(d)] rounds down to a multiple of [d] since the zero time. *)
Definition Truncate (t : time) (d : duration) : time := t - (t - zero_time) mod d.

(** Trailing zeros dropped, as the layout [.999999999] does. *)
Fixpoint drop_zeros (l : list ascii) : list ascii :=
  match l with
  | "0"%char :: l => drop_zeros l
  | _ => l
  end.

Definition format_fraction (ns : Z) : string :=
  if ns =? 0 then ""
  else "." +:+ string_of_list_ascii (rev (drop_zeros (rev (list_ascii_of_string (pad 9 ns))))).

(** [t.Format(time.RFC3339Nano)] in UTC *)
Definition format_rfc3339nano (t : time) : string :=
  let s := t mod Day / Second in
  format_date t +:+ "T" +:+ pad 2 (s / 3600) +:+ ":" +:+ pad 2 (s / 60 mod 60)
    +:+ ":" +:+ pad 2 (s mod 60) +:+ format_fraction (t mod Second) +:+ "Z".

Example format_nano_2026 :
  format_rfc3339nano (1774961805 * Second + 120000) = "2026-03-31T12:56:45.00012Z"%string.
Proof. vm_compute. reflexivity. Qed.
