(* ===== verification/GoSort.v ===== *)
(** * sort.Slice and slices.SortFunc

    Go's [sort.Slice] is not stable, so it is specified by what every correct
    sort returns: a permutation in order.  [sort_Slice] is one such function,
    and [sort_Slice_unique] says it is the only possible answer whenever the
    comparison separates the elements. *)
From S2P Require Import Prelude GoString.

(** The contract of a [less] function: [negb (less b a)] is a total preorder. *)
Class StrictWeak {A} (less : A -> A -> bool) : Prop := {
  less_asymm : forall a b, less a b = true -> less b a = false;
  less_negtrans : forall a b c, less b a = false -> less c b = false -> less c a = false;
}.

Definition not_after {A} (less : A -> A -> bool) (a b : A) : Prop := less b a = false.

#[export] Instance not_after_dec {A} (less : A -> A -> bool) : RelDecision (not_after less).
Proof. intros a b. unfold not_after. apply _. Defined.

Definition sort_Slice {A} (less : A -> A -> bool) (l : list A) : list A :=
  merge_sort (not_after less) l.

Section sorting.
Context {A : Type} (less : A -> A -> bool) `{!StrictWeak less}.

#[local] Instance not_after_trans : Transitive (not_after less).
Proof. intros a b c. unfold not_after. apply less_negtrans. Qed.

#[local] Instance not_after_total : Total (not_after less).
Proof.
  intros a b. unfold not_after. destruct (less b a) eqn:E; [right|by left].
  by apply less_asymm.
Qed.

Lemma sort_Slice_Permutation l : sort_Slice less l ≡ₚ l.
Proof. apply merge_sort_Permutation. Qed.

Lemma sort_Slice_sorted l : StronglySorted (not_after less) (sort_Slice less l).
Proof. apply (StronglySorted_merge_sort (not_after less)). Qed.

(** The elements of [l] are told apart by [less]. *)
Definition separated (l : list A) : Prop :=
  forall a b, a ∈ l -> b ∈ l -> less a b = false -> less b a = false -> a = b.

Lemma sort_Slice_unique l l' :
  separated l -> l' ≡ₚ l -> StronglySorted (not_after less) l' -> l' = sort_Slice less l.
Proof.
  intros Hs Hp Hss.
  apply (StronglySorted_unique_strong (not_after less)).
  - intros a b Ha Hb. rewrite Hp in Ha. rewrite sort_Slice_Permutation in Hb.
    intros H1 H2. by apply Hs.
  - done.
  - apply sort_Slice_sorted.
  - by rewrite Hp, sort_Slice_Permutation.
Qed.

Lemma sort_Slice_perm l l' :
  separated l -> l ≡ₚ l' -> sort_Slice less l = sort_Slice less l'.
Proof.
  intros Hs Hp. apply sort_Slice_unique.
  - intros a b Ha Hb. rewrite <- Hp in Ha, Hb. by apply Hs.
  - by rewrite sort_Slice_Permutation.
  - apply sort_Slice_sorted.
Qed.

Lemma sort_Slice_sorted_id l :
  separated l -> StronglySorted (not_after less) l -> sort_Slice less l = l.
Proof. intros Hs Hss. symmetry. by apply sort_Slice_unique. Qed.

Lemma less_irrefl a : less a a = false.
Proof. destruct (less a a) eqn:E; [|done]. by pose proof (less_asymm _ _ E); congruence. Qed.

(** In a sorted list without duplicates, the elements after [x] are those
    [x] is less than. *)
Lemma filter_less_after pre x post :
  StronglySorted (not_after less) (pre ++ x :: post) ->
  separated (pre ++ x :: post) -> NoDup (pre ++ x :: post) ->
  List.filter (less x) (pre ++ x :: post) = post.
Proof.
  intros Hs Hsep Hnd. rewrite List.filter_app. cbn. rewrite less_irrefl.
  assert (List.filter (less x) pre = []) as ->.
  { clear Hsep Hnd. induction pre as [|y pre IH]; [done|]. cbn in Hs.
    inversion Hs as [|? ? Hs' Hy]; subst. rewrite Forall_forall in Hy. cbn.
    rewrite (Hy x); [by apply IH|]. apply elem_of_app. right. left. }
  cbn. apply NoDup_app in Hnd as (_ & _ & Hnd). apply NoDup_cons in Hnd as [Hx _].
  assert (Forall (not_after less x) post) as Hpost.
  { clear Hsep Hx. induction pre as [|y pre IH]; cbn in Hs; inversion Hs; subst; auto. }
  assert (forall y, y ∈ post -> less x y = true) as Hall.
  { intros y Hy. rewrite Forall_forall in Hpost. specialize (Hpost y Hy).
    destruct (less x y) eqn:E; [done|]. exfalso. apply Hx.
    rewrite (Hsep x y); [done|..|done|done]; apply elem_of_app; right; [left|by right]. }
  clear -Hall. induction post as [|y post IH]; [done|]. cbn.
  rewrite Hall by left. f_equal. apply IH. intros z Hz. apply Hall. by right.
Qed.
End sorting.

Lemma StronglySorted_mono {A} (R R' : A -> A -> Prop) l :
  (forall a b, R a b -> R' a b) -> StronglySorted R l -> StronglySorted R' l.
Proof. intros H. induction 1; constructor; [done|]. eapply Forall_impl; eauto. Qed.

(** ** Keyset pagination

    A listing selects elements of a collection and sorts them; a page holds its
    first elements, and the cursor of the last one selects those after it. *)
Section paging.
Context {A : Type} (less : A -> A -> bool) `{!StrictWeak less}.

Lemma filter_filter (p q : A -> bool) l :
  List.filter p (List.filter q l) = List.filter (fun x => q x && p x) l.
Proof.
  induction l as [|x l IH]; [done|]. cbn.
  destruct (q x) eqn:E; cbn; [destruct (p x)|]; by rewrite IH.
Qed.

Lemma filter_Permutation (p : A -> bool) l l' :
  l ≡ₚ l' -> List.filter p l ≡ₚ List.filter p l'.
Proof. induction 1; cbn; repeat case_match; try done; by econstructor. Qed.

Lemma filter_sorted (R : A -> A -> Prop) (p : A -> bool) l :
  StronglySorted R l -> StronglySorted R (List.filter p l).
Proof.
  induction 1 as [|x l Hs IH Hx]; cbn; [constructor|]. case_match; [|done].
  constructor; [done|]. apply Forall_forall. intros y Hy.
  apply list_elem_of_In, filter_In in Hy as [Hy _]. rewrite Forall_forall in Hx.
  by apply Hx, list_elem_of_In.
Qed.

(** What follows [x] in a listing is the listing of what its cursor selects. *)
Lemma sorted_after p p' l pre x post :
  separated less l -> NoDup l -> (forall y, p' y = p y && less x y) ->
  sort_Slice less (List.filter p l) = pre ++ x :: post ->
  sort_Slice less (List.filter p' l) = post.
Proof.
  intros Hsep Hnd Hp' HL.
  assert (pre ++ x :: post ≡ₚ List.filter p l) as Hp by (rewrite <- HL; apply (sort_Slice_Permutation _)).
  assert (forall q, separated less (List.filter q l)) as Hq.
  { intros q a b Ha Hb. apply list_elem_of_In, filter_In in Ha as [Ha _].
    apply list_elem_of_In, filter_In in Hb as [Hb _]. by apply Hsep; apply list_elem_of_In. }
  pose proof (filter_less_after less pre x post) as Hf. rewrite <- HL in Hf at 1.
  assert (List.filter (less x) (pre ++ x :: post) = post) as Hf'.
  { apply Hf; [apply (sort_Slice_sorted _)| |].
    - intros a b. rewrite Hp. apply Hq.
    - rewrite Hp. by apply NoDup_ListNoDup, List.NoDup_filter, NoDup_ListNoDup. }
  symmetry. apply sort_Slice_unique; [apply _|apply Hq|..].
  - rewrite (filter_ext _ _ Hp'), <- filter_filter, <- (filter_Permutation _ _ _ Hp). by rewrite Hf'.
  - rewrite <- Hf'. apply filter_sorted. rewrite <- HL. apply (sort_Slice_sorted _).
Qed.

(** A client that asks for the page after the last element of each page. *)
Fixpoint walk_pages {C} (page : option C -> list A) (cursor : A -> C) (fuel : nat)
    (c : option C) : list A :=
  match fuel with
  | O => []
  | S fuel =>
      match last (page c) with
      | None => []
      | Some x => page c ++ walk_pages page cursor fuel (Some (cursor x))
      end
  end.

Lemma walk_pages_from {C} (page : option C -> list A) cursor n L fuel c post :
  (0 < n)%nat -> (length post < fuel)%nat ->
  (forall pre x post, L = pre ++ x :: post -> page (Some (cursor x)) = take n post) ->
  (exists pre, L = pre ++ post) -> page c = take n post ->
  walk_pages page cursor fuel c = post.
Proof.
  intros Hn Hf Hpage. revert post c Hf. induction fuel as [|fuel IH]; intros post c Hf [pre HL] Hc; [lia|].
  cbn [walk_pages]. rewrite Hc. destruct post as [|y post]; [by rewrite take_nil|].
  destruct (last (take n (y :: post))) as [x|] eqn:E.
  2: { apply last_None in E. destruct n; [lia|done]. }
  apply last_Some in E as [pre' E]. rewrite <- (take_drop n (y :: post)) at 2.
  f_equal.
  assert (y :: post = pre' ++ x :: drop n (y :: post)) as Hsplit
    by (rewrite <- (take_drop n (y :: post)) at 1; rewrite E, <- app_assoc; done).
  assert (L = (pre ++ pre') ++ x :: drop n (y :: post)) as HL'
    by (rewrite HL, Hsplit at 1; by rewrite <- app_assoc).
  apply IH.
  - rewrite length_drop. cbn [length] in *. lia.
  - exists (pre ++ pre' ++ [x]). rewrite HL', <- !app_assoc. done.
  - by eapply Hpage.
Qed.

(** Following the cursors visits the whole listing. *)
Lemma walk_pages_all {C} (page : option C -> list A) cursor n L fuel :
  (0 < n)%nat -> (length L < fuel)%nat -> page None = take n L ->
  (forall pre x post, L = pre ++ x :: post -> page (Some (cursor x)) = take n post) ->
  walk_pages page cursor fuel None = L.
Proof. intros. eapply walk_pages_from; try done. by exists []. Qed.
End paging.

(** ** Ranging over a map

    The order in which Go ranges over a map is unspecified: an operation that
    depends on it takes the order from this interface. *)
Class MapRange : Type := {
  map_range : forall {V : Type}, gmap string V -> list (string * V);
  map_range_perm : forall {V : Type} (m : gmap string V), map_range m ≡ₚ map_to_list m;
}.

Definition key_order : MapRange :=
  {| map_range := fun V m => map_to_list m; map_range_perm := fun V m => Permutation_refl _ |}.

(** Ordering by an integer key. *)
Definition less_by {A} (key : A -> Z) (a b : A) : bool := (key a <? key b)%Z.

#[export] Instance less_by_weak {A} (key : A -> Z) : StrictWeak (less_by key).
Proof. unfold less_by. split; intros; lia. Qed.

(** ** Lexicographic comparisons *)

(** By [l1], and among equals by [l2]. *)
Definition lex {A} (l1 l2 : A -> A -> bool) (a b : A) : bool :=
  l1 a b || (negb (l1 b a) && l2 a b).

#[export] Instance lex_weak {A} (l1 l2 : A -> A -> bool) :
  StrictWeak l1 -> StrictWeak l2 -> StrictWeak (lex l1 l2).
Proof.
  intros W1 W2. unfold lex. split.
  - intros a b. pose proof (less_asymm (less := l1) a b). pose proof (less_asymm (less := l1) b a).
    pose proof (less_asymm (less := l2) a b).
    destruct (l1 a b), (l1 b a), (l2 a b), (l2 b a); naive_solver.
  - intros a b c.
    pose proof (less_negtrans (less := l1) a b c). pose proof (less_negtrans (less := l1) c b a).
    pose proof (less_negtrans (less := l2) a b c).
    pose proof (less_negtrans (less := l1) b a c). pose proof (less_negtrans (less := l1) b c a).
    pose proof (less_negtrans (less := l1) a c b). pose proof (less_negtrans (less := l1) c a b).
    pose proof (less_asymm (less := l1) a b). pose proof (less_asymm (less := l1) b c).
    pose proof (less_asymm (less := l1) a c).
    destruct (l1 a b), (l1 b a), (l1 b c), (l1 c b), (l1 a c), (l1 c a); cbn in *; naive_solver.
Qed.

Lemma flip_weak {A} (l : A -> A -> bool) : StrictWeak l -> StrictWeak (fun a b => l b a).
Proof.
  intros W. split; [intros a b; apply (less_asymm (less := l))|].
  intros a b c H1 H2. exact (less_negtrans (less := l) c b a H2 H1).
Qed.

(** Two elements the order does not separate agree on each key of it. *)
Lemma lex_equal {A} (l1 l2 : A -> A -> bool) a b :
  lex l1 l2 a b = false -> lex l1 l2 b a = false ->
  (l1 a b = false /\ l1 b a = false) /\ (l2 a b = false /\ l2 b a = false).
Proof. unfold lex. destruct (l1 a b), (l1 b a), (l2 a b), (l2 b a); naive_solver. Qed.

(** Ordering by a string key. *)
Definition str_by {A} (key : A -> string) (a b : A) : bool := str_lt (key a) (key b).

#[export] Instance str_by_weak {A} (key : A -> string) : StrictWeak (str_by key).
Proof.
  split; unfold str_by.
  - intros a b. apply str_lt_asymm.
  - intros a b c. apply str_lt_negtrans.
Qed.
