(* ===== verification/GoFloat.v ===== *)
(** * float64

    Go's [float64] as the Standard Library's [spec_float] of precision 53:
    conversion of integers, correctly rounded division and comparison.  The
    lemmas say that the values that are not NaN are totally preordered and that
    a quotient of positive integers is one of them. *)
From Stdlib Require Import SpecFloat.
From S2P Require Import Prelude GoSort.

Open Scope Z_scope.

(** [float64(z)], [x / y], [x < y], [x <= y], [x != y] *)
Definition float_of (z : Z) : spec_float := binary_normalize 53 1024 z 0 false.
Definition float_div (x y : spec_float) : spec_float := SFdiv 53 1024 x y.
Definition float_lt (x y : spec_float) : bool := SFltb x y.
Definition float_le (x y : spec_float) : bool := SFleb x y.
Definition float_ne (x y : spec_float) : bool := negb (SFeqb x y).

Definition is_number (x : spec_float) : Prop := x <> S754_nan.

(** ** The order *)

(** The class, exponent and mantissa that order the numbers. *)
Definition float_key (x : spec_float) : Z * Z * Z :=
  match x with
  | S754_nan => (3, 0, 0)
  | S754_infinity true => (-2, 0, 0)
  | S754_finite true m e => (-1, - e, Z.neg m)
  | S754_zero _ => (0, 0, 0)
  | S754_finite false m e => (1, e, Z.pos m)
  | S754_infinity false => (2, 0, 0)
  end.

Definition key_lt (a b : Z * Z * Z) : Prop :=
  a.1.1 < b.1.1 \/ a.1.1 = b.1.1 /\ (a.1.2 < b.1.2 \/ a.1.2 = b.1.2 /\ a.2 < b.2).

Lemma compare_cont_spec m1 m2 : Pos.compare_cont Eq m1 m2 = (Z.pos m1 ?= Z.pos m2).
Proof. reflexivity. Qed.

Lemma float_lt_key x y :
  is_number x -> is_number y -> float_lt x y = true <-> key_lt (float_key x) (float_key y).
Proof.
  intros Hx Hy. unfold float_lt, SFltb, key_lt.
  destruct x as [[]|[]| |[] m e]; try done;
    destruct y as [[]|[]| |[] m' e']; try done;
    cbn -[Z.compare Pos.compare_cont Z.lt Z.opp]; try (split; [done|lia]); try (split; [lia|done]).
  - rewrite compare_cont_spec. destruct (Z.compare_spec e e') as [->|H|H]; cbn [CompOpp].
    + destruct (Z.compare_spec (Z.pos m) (Z.pos m')); cbn [CompOpp]; split; (done || lia).
    + split; [done|lia].
    + split; [lia|done].
  - rewrite compare_cont_spec. destruct (Z.compare_spec e e') as [->|H|H].
    + destruct (Z.compare_spec (Z.pos m) (Z.pos m')); split; (done || lia).
    + split; [lia|done].
    + split; [done|lia].
Qed.

Lemma float_ne_key x y :
  is_number x -> is_number y -> float_ne x y = false <-> float_key x = float_key y.
Proof.
  intros Hx Hy. unfold float_ne, SFeqb.
  destruct x as [[]|[]| |[] m e]; try done;
    destruct y as [[]|[]| |[] m' e']; try done;
    cbn -[Z.compare Pos.compare_cont]; try done;
    rewrite compare_cont_spec; destruct (Z.compare_spec e e') as [->|H|H]; cbn [CompOpp negb];
    try (split; [done|intros [=]; lia]);
    destruct (Z.compare_spec (Z.pos m) (Z.pos m')) as [[= ->]|H|H]; cbn [CompOpp negb];
    split; try done; intros [=]; subst; lia.
Qed.

Lemma float_le_lt x y : is_number x -> is_number y -> float_le x y = negb (float_lt y x).
Proof.
  intros Hx Hy. pose proof (float_lt_key y x Hy Hx) as L. pose proof (float_lt_key x y Hx Hy) as L'.
  pose proof (float_ne_key x y Hx Hy) as E.
  assert (float_le x y = float_lt x y || negb (float_ne x y)) as ->
    by (unfold float_le, float_lt, float_ne, SFleb, SFltb, SFeqb; by repeat case_match).
  unfold key_lt in *. destruct (float_lt x y) eqn:Ex; cbn [orb].
  - destruct (float_lt y x); [|done]. destruct L as [L _], L' as [L' _].
    specialize (L eq_refl). specialize (L' eq_refl). lia.
  - destruct (float_ne x y) eqn:En; cbn.
    + destruct (float_lt y x); [done|]. exfalso. assert (float_key x <> float_key y) as Hne by (by intros ?%E).
      apply Hne. destruct (float_key x) as [[a b] c], (float_key y) as [[a' b'] c']. cbn in *.
      destruct L as [_ L], L' as [_ L']. f_equal; [f_equal|]; lia.
    + destruct (float_lt y x); [|done]. destruct E as [E _]. rewrite (E eq_refl) in L.
      destruct L as [L _]. specialize (L eq_refl). lia.
Qed.

(** ** Quotients of positive integers are numbers *)

Lemma shr_1_nonneg mrs : 0 <= shr_m mrs -> 0 <= shr_m (shr_1 mrs).
Proof. destruct mrs as [[|[]|[]] r s]; cbn; lia. Qed.

Lemma iter_shr_nonneg (n : positive) mrs : 0 <= shr_m mrs -> 0 <= shr_m (SpecFloat.iter_pos shr_1 n mrs).
Proof.
  revert mrs. induction n as [n IH|n IH|]; intros mrs H; cbn; [| |by apply shr_1_nonneg].
  - apply IH, IH. by apply shr_1_nonneg.
  - by apply IH, IH.
Qed.

Lemma shr_fexp_nonneg m e l : 0 <= m -> 0 <= shr_m (shr_fexp 53 1024 m e l).1.
Proof.
  intros H. unfold shr_fexp, shr.
  assert (0 <= shr_m (shr_record_of_loc m l)) as Hr by (destruct l as [|[]]; exact H).
  case_match; cbn; [exact Hr|by apply iter_shr_nonneg|exact Hr].
Qed.

Lemma round_aux_number s m e l : 0 <= m -> is_number (binary_round_aux 53 1024 s m e l).
Proof.
  intros H. unfold binary_round_aux.
  destruct (shr_fexp 53 1024 m e l) as [mrs e1] eqn:E1.
  pose proof (shr_fexp_nonneg m e l H) as H1. rewrite E1 in H1. cbn in H1.
  destruct (shr_fexp 53 1024 _ e1 loc_Exact) as [mrs2 e2] eqn:E2.
  assert (0 <= shr_m mrs2) as H2.
  { change mrs2 with (mrs2, e2).1. rewrite <- E2. apply shr_fexp_nonneg.
    unfold round_nearest_even. repeat case_match; lia. }
  destruct (shr_m mrs2); [done| |lia]. by case_match.
Qed.

Lemma float_of_number z : is_number (float_of z).
Proof.
  unfold float_of, binary_normalize. destruct z as [|p|p]; [done|..];
    unfold binary_round; case_match; by apply round_aux_number.
Qed.

Lemma float_div_number x y :
  is_number x -> is_number y -> (forall s, x <> S754_infinity s) -> (forall s, y <> S754_zero s) ->
  is_number (float_div x y).
Proof.
  intros Hx Hy Hi Hz. unfold float_div, SFdiv.
  destruct x as [[]|[]| |sx m e], y as [[]|[]| |sy m' e']; try done;
    try (by exfalso; eapply Hi); try (by exfalso; eapply Hz).
  destruct (SFdiv_core_binary 53 1024 _ e _ e') as [[mz ez] lz] eqn:E. apply round_aux_number.
  unfold SFdiv_core_binary in E.
  destruct (Z.div_eucl _ (Z.pos m')) as [q r] eqn:Eq. injection E as <- _ _.
  apply (f_equal fst) in Eq. cbn in Eq. rewrite <- Eq. apply Z.div_pos; [|lia].
  repeat case_match; try lia. apply Z.shiftl_nonneg. lia.
Qed.

Lemma float_le_lt_trans x y z :
  is_number x -> is_number y -> is_number z ->
  float_le x y = true -> float_lt y z = true -> float_lt x z = true.
Proof.
  intros Hx Hy Hz. rewrite float_le_lt, negb_true_iff by done. intros H.
  assert (~ float_lt y x = true) as N by congruence. rewrite float_lt_key in N by done.
  rewrite !float_lt_key by done. unfold key_lt in *.
  destruct (float_key x) as [[a b] c], (float_key y) as [[a' b'] c'], (float_key z) as [[a2 b2] c2].
  cbn in *. lia.
Qed.

Lemma float_lt_le_trans x y z :
  is_number x -> is_number y -> is_number z ->
  float_lt x y = true -> float_le y z = true -> float_lt x z = true.
Proof.
  intros Hx Hy Hz H1. rewrite float_le_lt, negb_true_iff by done. intros H.
  assert (~ float_lt z y = true) as N by congruence. rewrite float_lt_key in N by done.
  rewrite !float_lt_key in * by done. unfold key_lt in *.
  destruct (float_key x) as [[a b] c], (float_key y) as [[a' b'] c'], (float_key z) as [[a2 b2] c2].
  cbn in *. lia.
Qed.

(** * sort.SliceStable

    The stable sort as an insertion sort: what it answers is a permutation in
    order in which elements the comparison does not tell apart keep their
    places.  The comparison has to be a total preorder on the elements of the
    list only, so that one on [float64] qualifies when no element is NaN. *)

Fixpoint insert_stable {A} (less : A -> A -> bool) (x : A) (l : list A) : list A :=
  match l with
  | [] => [x]
  | y :: l => if less y x then y :: insert_stable less x l else x :: y :: l
  end.

Definition sort_SliceStable {A} (less : A -> A -> bool) (l : list A) : list A :=
  foldr (insert_stable less) [] l.

Section stable.
Context {A : Type} (less : A -> A -> bool).

Lemma insert_stable_perm x l : insert_stable less x l ≡ₚ x :: l.
Proof.
  induction l as [|y l IH]; cbn; [done|]. case_match; [|done]. rewrite IH. constructor.
Qed.

Lemma sort_SliceStable_perm l : sort_SliceStable less l ≡ₚ l.
Proof. induction l as [|x l IH]; cbn; [done|]. by rewrite insert_stable_perm, IH. Qed.

(** [less] is a total preorder on the elements of [l]. *)
Record ordered_on (l : list A) : Prop := {
  on_asymm : forall a b, a ∈ l -> b ∈ l -> less a b = true -> less b a = false;
  on_negtrans : forall a b c, a ∈ l -> b ∈ l -> c ∈ l ->
    less b a = false -> less c b = false -> less c a = false;
}.

Lemma ordered_on_sub l l' : (forall x, x ∈ l' -> x ∈ l) -> ordered_on l -> ordered_on l'.
Proof. intros H [Ha Hn]. split; eauto. Qed.

Lemma sorted_tail x l : ordered_on (x :: l) -> ordered_on (sort_SliceStable less l).
Proof. apply ordered_on_sub. intros y Hy. rewrite sort_SliceStable_perm in Hy. by right. Qed.

Lemma insert_stable_sorted x l :
  ordered_on (x :: l) -> StronglySorted (not_after less) l ->
  StronglySorted (not_after less) (insert_stable less x l).
Proof.
  induction l as [|y l IH]; intros Ho Hs; cbn; [by repeat constructor|].
  apply StronglySorted_inv in Hs as [Hs Hy]. destruct (less y x) eqn:E.
  - constructor.
    + apply IH; [|done]. revert Ho. apply ordered_on_sub. set_solver.
    + rewrite insert_stable_perm. constructor; [|done]. unfold not_after.
      apply (on_asymm _ Ho); set_solver.
  - constructor; [by constructor|]. constructor; [exact E|].
    rewrite Forall_forall in Hy |- *. intros z Hz. specialize (Hy z Hz). unfold not_after in *.
    apply (on_negtrans _ Ho x y z); set_solver.
Qed.

Lemma sort_SliceStable_sorted l :
  ordered_on l -> StronglySorted (not_after less) (sort_SliceStable less l).
Proof.
  induction l as [|x l IH]; intros Ho; [constructor|].
  change (sort_SliceStable less (x :: l)) with (insert_stable less x (sort_SliceStable less l)).
  apply insert_stable_sorted.
  - revert Ho. apply ordered_on_sub. intros y [->|Hy]%elem_of_cons; [left|].
    rewrite sort_SliceStable_perm in Hy. by right.
  - apply IH. revert Ho. apply ordered_on_sub. set_solver.
Qed.

(** Elements of a class [less] does not tell apart keep their places. *)
Lemma insert_stable_filter (p : A -> bool) x l :
  (forall y, y ∈ l -> p x = true -> p y = true -> less y x = false) ->
  List.filter p (insert_stable less x l) = List.filter p (x :: l).
Proof.
  induction l as [|y l IH]; intros H; cbn; [done|].
  destruct (less y x) eqn:E; [|done]. cbn. rewrite IH by set_solver. cbn.
  destruct (p y) eqn:Ey, (p x) eqn:Ex; try done. rewrite H in E; [done|set_solver|done..].
Qed.

Lemma sort_SliceStable_filter (p : A -> bool) l :
  (forall x y, x ∈ l -> y ∈ l -> p x = true -> p y = true -> less y x = false) ->
  List.filter p (sort_SliceStable less l) = List.filter p l.
Proof.
  induction l as [|x l IH]; intros H; [done|].
  change (sort_SliceStable less (x :: l)) with (insert_stable less x (sort_SliceStable less l)).
  rewrite insert_stable_filter.
  - cbn [List.filter]. rewrite IH by set_solver. done.
  - intros y Hy. rewrite sort_SliceStable_perm in Hy.
    apply H; [left|by right].
Qed.

(** The first of the sorted list is the first of the least ones. *)
Lemma sort_SliceStable_head l x rest :
  ordered_on l -> sort_SliceStable less l = x :: rest ->
  exists pre post, l = pre ++ x :: post /\
    (forall y, y ∈ pre -> less x y = true) /\ (forall y, y ∈ l -> less y x = false).
Proof.
  revert x rest. induction l as [|z l IH]; intros x rest Ho; [done|]. cbn.
  assert (ordered_on l) as Hl by (revert Ho; apply ordered_on_sub; set_solver).
  fold (sort_SliceStable less l). destruct (sort_SliceStable less l) as [|y r] eqn:E; cbn.
  { intros [= <- <-]. assert (l = []) as ->.
    { apply Permutation_nil_r. by rewrite <- (sort_SliceStable_perm l), E. }
    exists [], []. split; [done|]. split; [set_solver|]. intros y ->%list_elem_of_singleton.
    destruct (less z z) eqn:Ez; [|done]. rewrite <- Ez. apply (on_asymm _ Ho); set_solver. }
  destruct (IH y r Hl eq_refl) as (pre & post & -> & Hpre & Hmin).
  destruct (less y z) eqn:Eyz; intros [= <- <-].
  - exists (z :: pre), post. split; [done|]. split.
    + intros w [->|Hw]%elem_of_cons; [done|by apply Hpre].
    + intros w [->|Hw]%elem_of_cons; [|by apply Hmin]. apply (on_asymm _ Ho); set_solver.
  - exists [], (pre ++ y :: post). split; [done|]. split; [set_solver|].
    intros w [->|Hw]%elem_of_cons.
    + destruct (less z z) eqn:Ez; [|done]. rewrite <- Ez. apply (on_asymm _ Ho); set_solver.
    + apply (on_negtrans _ Ho z y w); [set_solver..|done|by apply Hmin].
Qed.
End stable.
