(* ===== verification/GoCrypto.v ===== *)
(** * Ticket encoding (crypto/sha256, encoding/hex, encoding/base64)

    The three standard encodings the services use on secrets: SHA-256 on byte
    strings (FIPS 180-4), lower-case hexadecimal, and unpadded base64url. *)
From S2P Require Import Prelude GoString.

Open Scope Z_scope.

Definition w32 (z : Z) : Z := z mod 2 ^ 32.
Definition rotr (n x : Z) : Z := Z.lor (Z.shiftr x n) (w32 (Z.shiftl x (32 - n))).

(** The constants of FIPS 180-4 are the first 32 fractional bits of the cube
    roots (round constants) and square roots (initial hash) of the first
    primes; they are computed here from that definition. *)
Definition is_prime (n : Z) : bool :=
  forallb (fun d => negb (n mod d =? 0)) (seqZ 2 (n - 2)).

Definition first_primes (count : nat) : list Z :=
  take count (List.filter is_prime (seqZ 2 312)).

(** The largest [r < 2^bits] with [r ^ k <= n], bit by bit from the top. *)
Fixpoint root_floor (k n : Z) (bits : nat) (r : Z) : Z :=
  match bits with
  | O => r
  | S b =>
      let r' := r + 2 ^ Z.of_nat b in
      root_floor k n b (if r' ^ k <=? n then r' else r)
  end.

Definition root_fraction (k p : Z) : Z := w32 (root_floor k (p * 2 ^ (32 * k)) 38 0).

Definition sha_k : list Z := Eval vm_compute in map (root_fraction 3) (first_primes 64).
Definition sha_init : list Z := Eval vm_compute in map (root_fraction 2) (first_primes 8).

(** Big-endian bytes of a number. *)
Fixpoint be_bytes (n : nat) (z : Z) : list Z :=
  match n with
  | O => []
  | S n => be_bytes n (z / 256) ++ [z mod 256]
  end.

Definition sha_pad (msg : list Z) : list Z :=
  let n := Z.of_nat (length msg) in
  msg ++ [128] ++ repeat 0 (Z.to_nat ((55 - n) mod 64)) ++ be_bytes 8 (8 * n).

Fixpoint words (l : list Z) : list Z :=
  match l with
  | a :: b :: c :: d :: l => (((a * 256 + b) * 256 + c) * 256 + d) :: words l
  | _ => []
  end.

Definition s0 (x : Z) := Z.lxor (Z.lxor (rotr 7 x) (rotr 18 x)) (Z.shiftr x 3).
Definition s1 (x : Z) := Z.lxor (Z.lxor (rotr 17 x) (rotr 19 x)) (Z.shiftr x 10).
Definition S0 (x : Z) := Z.lxor (Z.lxor (rotr 2 x) (rotr 13 x)) (rotr 22 x).
Definition S1 (x : Z) := Z.lxor (Z.lxor (rotr 6 x) (rotr 11 x)) (rotr 25 x).
Definition ch (x y z : Z) := Z.lxor (Z.land x y) (Z.land (Z.lxor x (2 ^ 32 - 1)) z).
Definition maj (x y z : Z) := Z.lxor (Z.lxor (Z.land x y) (Z.land x z)) (Z.land y z).

(** The message schedule, newest word first, extended by [n] words. *)
Fixpoint schedule (n : nat) (rev_w : list Z) : list Z :=
  match n with
  | O => rev_w
  | S n =>
      let at_ k := nth k rev_w 0 in
      schedule n (w32 (s1 (at_ 1%nat) + at_ 6%nat + s0 (at_ 14%nat) + at_ 15%nat) :: rev_w)
  end.

Definition sha_round (h : list Z) (kw : Z * Z) : list Z :=
  match h with
  | [a; b; c; d; e; f; g; hh] =>
      let t1 := hh + S1 e + ch e f g + kw.1 + kw.2 in
      let t2 := S0 a + maj a b c in
      [w32 (t1 + t2); a; b; c; w32 (d + t1); e; f; g]
  | _ => h
  end.

Definition sha_block (h : list Z) (block : list Z) : list Z :=
  let w := rev (schedule 48 (rev (words block))) in
  zip_with (fun a b => w32 (a + b)) h (foldl sha_round h (zip sha_k w)).

Fixpoint sha_blocks (fuel : nat) (h : list Z) (l : list Z) : list Z :=
  match fuel, l with
  | S fuel, _ :: _ => sha_blocks fuel (sha_block h (take 64 l)) (drop 64 l)
  | _, _ => h
  end.

(** [sha256.Sum256(msg)] as 32 bytes. *)
Definition Sum256 (msg : list Z) : list Z :=
  let l := sha_pad msg in
  concat (map (be_bytes 4) (sha_blocks (S (length l / 64)) sha_init l)).

Definition hex_digit (d : Z) : ascii := byte_of (if d <? 10 then 48 + d else 87 + d).

(** [hex.EncodeToString(b)] *)
Definition hex_EncodeToString (b : list Z) : string :=
  of_bytes (concat (map (fun x => [hex_digit (x / 16); hex_digit (x mod 16)]) b)).

Definition b64url (d : Z) : ascii :=
  byte_of (if d <? 26 then 65 + d else if d <? 52 then 71 + d else if d <? 62 then d - 4
           else if d =? 62 then 45 else 95).

Fixpoint b64_bytes (l : list Z) : bytes :=
  match l with
  | a :: b :: c :: l =>
      [b64url (a / 4); b64url (a mod 4 * 16 + b / 16); b64url (b mod 16 * 4 + c / 64);
       b64url (c mod 64)] ++ b64_bytes l
  | [a; b] => [b64url (a / 4); b64url (a mod 4 * 16 + b / 16); b64url (b mod 16 * 4)]
  | [a] => [b64url (a / 4); b64url (a mod 4 * 16)]
  | [] => []
  end.

(** [base64.RawURLEncoding.EncodeToString(b)] *)
Definition RawURLEncode (b : list Z) : string := of_bytes (b64_bytes b).

Arguments Sum256 : simpl never.
Arguments hex_EncodeToString : simpl never.
Arguments RawURLEncode : simpl never.

Definition byte_values (s : string) : list Z := map byte_val (to_bytes s).

(** Encoded tickets are printable ASCII. *)
Lemma b64url_graphic d : 0 <= d < 64 -> graphic (b64url d).
Proof.
  intros Hd. unfold graphic, b64url. rewrite byte_val_of.
  destruct (d <? 26) eqn:?; [rewrite Z.mod_small; lia|].
  destruct (d <? 52) eqn:?; [rewrite Z.mod_small; lia|].
  destruct (d <? 62) eqn:?; [rewrite Z.mod_small; lia|].
  destruct (d =? 62); rewrite Z.mod_small; lia.
Qed.

Definition is_byte (z : Z) : Prop := 0 <= z < 256.

Lemma b64_bytes_graphic l : Forall is_byte l -> Forall graphic (b64_bytes l).
Proof.
  remember (length l) as n eqn:Hn. revert l Hn.
  induction n as [n IH] using lt_wf_ind. intros l -> Hl.
  assert (forall x, is_byte x -> 0 <= x / 4 < 64 /\ 0 <= x mod 4 < 4 /\ 0 <= x / 16 < 16 /\
            0 <= x mod 16 < 16 /\ 0 <= x / 64 < 4 /\ 0 <= x mod 64 < 64) as Hx.
  { intros x [? ?]. repeat split; try (apply Z.mod_pos_bound; lia); try (apply Z.div_pos; lia);
      apply Z.div_lt_upper_bound; lia. }
  destruct Hl as [|a l Ha Hl]; [constructor|]. pose proof (Hx a Ha).
  destruct Hl as [|b l Hb Hl].
  { cbn. repeat constructor; apply b64url_graphic; lia. }
  pose proof (Hx b Hb). destruct Hl as [|c l Hc Hl].
  { cbn. repeat constructor; apply b64url_graphic; lia. }
  pose proof (Hx c Hc). cbn [b64_bytes]. apply Forall_app. split.
  - repeat constructor; apply b64url_graphic; lia.
  - apply (IH (length l)); [cbn; lia|done|done].
Qed.

Lemma RawURLEncode_trim l : Forall is_byte l -> TrimSpace (RawURLEncode l) = RawURLEncode l.
Proof.
  intros Hl. apply TrimSpace_graphic. unfold RawURLEncode.
  rewrite list_ascii_of_string_of_list_ascii. by apply b64_bytes_graphic.
Qed.

Lemma RawURLEncode_nonempty l : l <> [] -> RawURLEncode l <> ""%string.
Proof. destruct l as [|a [|b [|c l]]]; done. Qed.

Example sha256_abc :
  hex_EncodeToString (Sum256 (byte_values "abc")) =
  "ba7816bf8f01cfea414140de5dae2223b00361a396177a9cb410ff61f20015ad"%string.
Proof. vm_compute. reflexivity. Qed.

Example rawurl_example : RawURLEncode [255; 239; 1; 2] = "_-8BAg"%string.
Proof. vm_compute. reflexivity. Qed.
