(* ===== verification/GoBase64.v ===== *)
(** * encoding/base64 and the password derivation of crypto/pbkdf2

    Base64 over an alphabet, unpadded and padded, decoded as Go decodes it —
    line breaks skipped, trailing bits ignored — and PBKDF2 over HMAC-SHA-256. *)
From S2P Require Import Prelude GoString GoCrypto.

Open Scope Z_scope.

(** The alphabets differ in the last two digits. *)
Definition b64std (d : Z) : ascii :=
  if d <? 26 then byte_of (65 + d)
  else if d <? 52 then byte_of (71 + d)
  else if d <? 62 then byte_of (d - 4)
  else if d =? 62 then "+"%char else "/"%char.

Fixpoint b64_encode (alpha : Z -> ascii) (l : list Z) : bytes :=
  match l with
  | [] => []
  | [a] => [alpha (a / 4); alpha (a mod 4 * 16)]
  | [a; b] => [alpha (a / 4); alpha (a mod 4 * 16 + b / 16); alpha (b mod 16 * 4)]
  | a :: b :: c :: l =>
      alpha (a / 4) :: alpha (a mod 4 * 16 + b / 16) :: alpha (b mod 16 * 4 + c / 64)
      :: alpha (c mod 64) :: b64_encode alpha l
  end.

Definition b64_digits : list Z := map Z.of_nat (seq 0 64).

(** The digit a character stands for. *)
Definition b64_value (alpha : Z -> ascii) (c : ascii) : option Z :=
  List.find (fun d => Ascii.eqb (alpha d) c) b64_digits.

Fixpoint b64_groups (ds : list Z) : option (list Z) :=
  match ds with
  | [] => Some []
  | [_] => None
  | [p; q] => Some [p * 4 + q / 16]
  | [p; q; r] => Some [p * 4 + q / 16; q mod 16 * 16 + r / 4]
  | p :: q :: r :: s :: ds =>
      match b64_groups ds with
      | Some l => Some (p * 4 + q / 16 :: q mod 16 * 16 + r / 4 :: r mod 4 * 64 + s :: l)
      | None => None
      end
  end.

Definition is_line_break (c : ascii) : bool := (byte_val c =? 10) || (byte_val c =? 13).

Fixpoint all_some {A} (l : list (option A)) : option (list A) :=
  match l with
  | [] => Some []
  | Some a :: l => match all_some l with Some l => Some (a :: l) | None => None end
  | None :: _ => None
  end.

(** [DecodeString] of an encoding without padding *)
Definition b64_decode (alpha : Z -> ascii) (s : string) : option (list Z) :=
  match all_some (map (b64_value alpha) (List.filter (fun c => negb (is_line_break c)) (to_bytes s))) with
  | Some ds => b64_groups ds
  | None => None
  end.

Definition RawStdEncode (l : list Z) : string := of_bytes (b64_encode b64std l).

(** ** Round trip *)

(** An alphabet: 64 distinct characters, no line break among them. *)
Definition alphabet (alpha : Z -> ascii) : Prop :=
  forallb (fun d => match b64_value alpha (alpha d) with Some d' => d' =? d | None => false end
                    && negb (is_line_break (alpha d))) b64_digits = true.

Lemma b64std_alphabet : alphabet b64std.
Proof. vm_compute. reflexivity. Qed.
Lemma b64url_alphabet : alphabet b64url.
Proof. vm_compute. reflexivity. Qed.

Lemma alphabet_value alpha d :
  alphabet alpha -> 0 <= d < 64 ->
  b64_value alpha (alpha d) = Some d /\ is_line_break (alpha d) = false.
Proof.
  intros Ha Hd. unfold alphabet in Ha. rewrite forallb_forall in Ha.
  assert (In d b64_digits) as Hin.
  { apply in_map_iff. exists (Z.to_nat d). rewrite in_seq. lia. }
  specialize (Ha d Hin). apply andb_prop in Ha as [H1 H2].
  destruct (b64_value alpha (alpha d)); [|done]. apply Z.eqb_eq in H1 as ->.
  by destruct (is_line_break _).
Qed.

Lemma b64_url_encode l : b64_bytes l = b64_encode b64url l.
Proof.
  induction l as [l IH] using (induction_ltof1 _ (@length Z)). unfold ltof in IH.
  destruct l as [|a [|b [|c l]]]; try done. cbn. by rewrite IH by (cbn; lia).
Qed.

Section decoding.
Context (alpha : Z -> ascii) (Halpha : alphabet alpha).

Definition digits_of (l : bytes) : option (list Z) :=
  all_some (map (b64_value alpha) (List.filter (fun c => negb (is_line_break c)) l)).

Lemma digits_of_cons d l :
  0 <= d < 64 ->
  digits_of (alpha d :: l) = match digits_of l with Some ds => Some (d :: ds) | None => None end.
Proof.
  intros Hd. destruct (alphabet_value alpha d Halpha Hd) as [Hv Hb]. unfold digits_of.
  cbn [List.filter]. rewrite Hb. cbn [negb map all_some]. by rewrite Hv.
Qed.

Lemma digits_roundtrip l :
  Forall is_byte l -> exists ds, digits_of (b64_encode alpha l) = Some ds /\ b64_groups ds = Some l.
Proof.
  induction l as [l IH] using (induction_ltof1 _ (@length Z)). unfold ltof in IH. intros Hl.
  assert (forall a, is_byte a -> 0 <= a / 4 < 64 /\ 0 <= a mod 4 < 4 /\ 0 <= a / 16 < 16 /\
            0 <= a mod 16 < 16 /\ 0 <= a / 64 < 4 /\ 0 <= a mod 64 < 64 /\
            a = 4 * (a / 4) + a mod 4 /\ a = 16 * (a / 16) + a mod 16 /\ a = 64 * (a / 64) + a mod 64) as Hb.
  { unfold is_byte. intros a Ha. repeat split; try (apply Z.mod_pos_bound; lia);
      try (apply Z.div_pos; lia); try (apply Z.div_lt_upper_bound; lia); apply Z.div_mod; lia. }
  assert (forall k m r, 0 <= r < k -> (m * k + r) / k = m /\ (m * k + r) mod k = r) as Hdm.
  { intros k m r Hr. split.
    - rewrite Z.div_add_l, Z.div_small by lia. lia.
    - rewrite Z.add_comm, Z.mod_add, Z.mod_small by lia. lia. }
  destruct l as [|a [|b [|c l]]]; cbn [b64_encode].
  - by exists [].
  - apply Forall_cons in Hl as [Ha _]. apply Hb in Ha as (?&?&?&?&?&?&?&?&?).
    rewrite !digits_of_cons by lia. cbn. eexists. split; [done|]. cbn.
    rewrite Z.div_mul by lia. do 2 f_equal. lia.
  - apply Forall_cons in Hl as [Ha [Hb' _]%Forall_cons].
    apply Hb in Ha as (?&?&?&?&?&?&?&?&?). apply Hb in Hb' as (?&?&?&?&?&?&?&?&?).
    rewrite !digits_of_cons by lia. cbn. eexists. split; [done|]. cbn.
    destruct (Hdm 16 (a mod 4) (b / 16)) as [-> ->]; [lia|]. rewrite Z.div_mul by lia.
    do 2 f_equal; [lia|]. f_equal. lia.
  - apply Forall_cons in Hl as [Ha [Hb' [Hc Hl]%Forall_cons]%Forall_cons].
    apply Hb in Ha as (?&?&?&?&?&?&?&?&?). apply Hb in Hb' as (?&?&?&?&?&?&?&?&?).
    apply Hb in Hc as (?&?&?&?&?&?&?&?&?).
    destruct (IH l ltac:(cbn; lia) Hl) as (ds & E1 & E2).
    rewrite !digits_of_cons, E1 by lia. eexists. split; [done|]. cbn [b64_groups]. rewrite E2.
    destruct (Hdm 16 (a mod 4) (b / 16)) as [-> ->]; [lia|].
    destruct (Hdm 4 (b mod 16) (c / 64)) as [-> ->]; [lia|].
    f_equal. f_equal; [lia|]. f_equal; [lia|]. f_equal. lia.
Qed.

Lemma b64_roundtrip l :
  Forall is_byte l -> b64_decode alpha (of_bytes (b64_encode alpha l)) = Some l.
Proof.
  intros H. destruct (digits_roundtrip l H) as (ds & E1 & E2). unfold b64_decode.
  rewrite list_ascii_of_string_of_list_ascii. unfold digits_of in E1. by rewrite E1.
Qed.
End decoding.

(** ** With padding *)

Definition pad_char : ascii := "="%char.

(** The padding that fills the last group of four. *)
Definition b64_padding {A} (l : list A) : bytes :=
  match (length l mod 3)%nat with 1%nat => [pad_char; pad_char] | 2%nat => [pad_char] | _ => [] end.

(** [base64.URLEncoding.EncodeToString(l)], [base64.StdEncoding...] *)
Definition EncodeToString (alpha : Z -> ascii) (l : list Z) : string :=
  of_bytes (b64_encode alpha l ++ b64_padding l).

(** Groups of four characters, the last padded. *)
Fixpoint b64_padded (alpha : Z -> ascii) (l : bytes) : option (list Z) :=
  match l with
  | [] => Some []
  | c1 :: c2 :: c3 :: c4 :: l =>
      match b64_value alpha c1, b64_value alpha c2 with
      | Some p, Some q =>
          if Ascii.eqb c3 pad_char then
            match Ascii.eqb c4 pad_char, l with
            | true, [] => Some [p * 4 + q / 16]
            | _, _ => None
            end
          else
            match b64_value alpha c3 with
            | None => None
            | Some r =>
                if Ascii.eqb c4 pad_char then
                  match l with [] => Some [p * 4 + q / 16; q mod 16 * 16 + r / 4] | _ => None end
                else
                  match b64_value alpha c4, b64_padded alpha l with
                  | Some s, Some rest =>
                      Some (p * 4 + q / 16 :: q mod 16 * 16 + r / 4 :: r mod 4 * 64 + s :: rest)
                  | _, _ => None
                  end
            end
      | _, _ => None
      end
  | _ => None
  end.

Definition DecodeString (alpha : Z -> ascii) (s : string) : option (list Z) :=
  b64_padded alpha (List.filter (fun c => negb (is_line_break c)) (to_bytes s)).

Lemma byte_parts a b c : is_byte a -> is_byte b -> is_byte c ->
  (0 <= a / 4 < 64 /\ 0 <= a mod 4 * 16 < 64 /\ 0 <= a mod 4 * 16 + b / 16 < 64 /\ 0 <= b mod 16 * 4 < 64 /\
   0 <= b mod 16 * 4 + c / 64 < 64 /\ 0 <= c mod 64 < 64) /\
  a / 4 * 4 + a mod 4 * 16 / 16 = a /\ a / 4 * 4 + (a mod 4 * 16 + b / 16) / 16 = a /\
  (a mod 4 * 16 + b / 16) mod 16 * 16 + b mod 16 * 4 / 4 = b /\
  (a mod 4 * 16 + b / 16) mod 16 * 16 + (b mod 16 * 4 + c / 64) / 4 = b /\
  (b mod 16 * 4 + c / 64) mod 4 * 64 + c mod 64 = c.
Proof. unfold is_byte. intros. Z.to_euclidean_division_equations. lia. Qed.

Section padded.
Context (alpha : Z -> ascii) (Halpha : alphabet alpha) (Hpad : b64_value alpha pad_char = None).

Lemma alphabet_no_pad d : 0 <= d < 64 -> Ascii.eqb (alpha d) pad_char = false.
Proof.
  intros Hd. destruct (Ascii.eqb_spec (alpha d) pad_char) as [E|]; [|done].
  destruct (alphabet_value alpha d Halpha Hd) as [H _]. rewrite E in H. congruence.
Qed.

Lemma padded_roundtrip l : Forall is_byte l -> b64_padded alpha (b64_encode alpha l ++ b64_padding l) = Some l.
Proof.
  induction l as [l IH] using (induction_ltof1 _ (@length Z)). unfold ltof in IH. intros Hl.
  assert (is_byte 0) as H0 by done.
  destruct l as [|a [|b [|c l]]]; cbn [b64_encode].
  - done.
  - apply Forall_cons in Hl as [Ha _]. destruct (byte_parts a 0 0 Ha H0 H0) as ((?&?&_) & E & _).
    change (b64_padding [a]) with [pad_char; pad_char]. cbn [app b64_padded]. rewrite !(fun d H => proj1 (alphabet_value alpha d Halpha H)) by lia.
    change (Ascii.eqb pad_char pad_char) with true. by rewrite E.
  - apply Forall_cons in Hl as [Ha [Hb _]%Forall_cons].
    destruct (byte_parts a b 0 Ha Hb H0) as ((?&?&?&?&_) & _ & E1 & E2 & _).
    change (b64_padding [a; b]) with [pad_char]. cbn [app b64_padded]. rewrite !(fun d H => proj1 (alphabet_value alpha d Halpha H)) by lia.
    change (Ascii.eqb pad_char pad_char) with true. by rewrite alphabet_no_pad, E1, E2 by lia.
  - apply Forall_cons in Hl as [Ha [Hb [Hc Hl]%Forall_cons]%Forall_cons].
    destruct (byte_parts a b c Ha Hb Hc) as ((?&?&?&?&?&?) & _ & E1 & _ & E2 & E3).
    replace (b64_padding (a :: b :: c :: l)) with (b64_padding l).
    2: { unfold b64_padding. cbn [length]. replace (S (S (S (length l)))) with (length l + 1 * 3)%nat by lia.
         by rewrite Nat.Div0.mod_add. }
    cbn [app b64_padded]. rewrite !(fun d H => proj1 (alphabet_value alpha d Halpha H)) by lia.
    rewrite !alphabet_no_pad, IH, E1, E2, E3 by (done || lia || (cbn; lia)). done.
Qed.

Lemma encode_no_break l : Forall is_byte l ->
  List.filter (fun c => negb (is_line_break c)) (b64_encode alpha l ++ b64_padding l) =
  b64_encode alpha l ++ b64_padding l.
Proof.
  intros Hl. rewrite List.filter_app. f_equal; [|unfold b64_padding; by repeat case_match].
  induction l as [l IH] using (induction_ltof1 _ (@length Z)). unfold ltof in IH.
  assert (is_byte 0) as H0 by done.
  assert (forall d r, 0 <= d < 64 -> List.filter (fun c => negb (is_line_break c)) (alpha d :: r) =
            alpha d :: List.filter (fun c => negb (is_line_break c)) r) as Hc
    by (intros d r Hd; cbn; by rewrite (proj2 (alphabet_value alpha d Halpha Hd))).
  destruct l as [|a [|b [|c l]]]; cbn [b64_encode]; [done|..].
  - apply Forall_cons in Hl as [Ha _]. destruct (byte_parts a 0 0 Ha H0 H0) as ((?&?&_) & _).
    by rewrite !Hc by lia.
  - apply Forall_cons in Hl as [Ha [Hb _]%Forall_cons].
    destruct (byte_parts a b 0 Ha Hb H0) as ((?&?&?&?&_) & _). by rewrite !Hc by lia.
  - apply Forall_cons in Hl as [Ha [Hb [Hd Hl]%Forall_cons]%Forall_cons].
    destruct (byte_parts a b c Ha Hb Hd) as ((?&?&?&?&?&?) & _). rewrite !Hc by lia.
    by rewrite IH by (try done; cbn; lia).
Qed.

Lemma DecodeString_EncodeToString l : Forall is_byte l -> DecodeString alpha (EncodeToString alpha l) = Some l.
Proof.
  intros Hl. unfold DecodeString, EncodeToString.
  rewrite list_ascii_of_string_of_list_ascii, encode_no_break by done. by apply padded_roundtrip.
Qed.
End padded.

(** A string as bytes and back. *)
Lemma byte_values_ok s : Forall is_byte (byte_values s).
Proof. apply Forall_map, Forall_true. intros a. cbn. apply byte_val_range. Qed.

Lemma of_byte_values s : of_bytes (map byte_of (byte_values s)) = s.
Proof.
  unfold byte_values. rewrite map_map, (map_ext _ (fun a => a)), map_id; [apply string_of_list_ascii_of_string|].
  intros a. apply byte_of_val.
Qed.

(** ** PBKDF2 *)

Definition sha_block_size : nat := 64.

Definition hmac_key (key : list Z) : list Z :=
  let k := if (sha_block_size <? length key)%nat then Sum256 key else key in
  k ++ repeat 0 (sha_block_size - length k).

Definition hmac (key msg : list Z) : list Z :=
  let k := hmac_key key in
  Sum256 (map (Z.lxor 92) k ++ Sum256 (map (Z.lxor 54) k ++ msg)).

Definition xor_bytes (a b : list Z) : list Z := zip_with Z.lxor a b.

(** The block [T_i] of [iter] rounds. *)
Definition pbkdf2_block (password salt : list Z) (iter i : Z) : list Z :=
  let u1 := hmac password (salt ++ be_bytes 4 i) in
  (Z.iter (iter - 1) (fun st => let u := hmac password st.1 in (u, xor_bytes st.2 u)) (u1, u1)).2.

(** [pbkdf2.Key(sha256.New, password, salt, iter, keyLength)] *)
Definition pbkdf2_key (password salt : list Z) (iter : Z) (keyLength : nat) : list Z :=
  take keyLength
    (concat (map (fun i => pbkdf2_block password salt iter (Z.of_nat i))
                 (seq 1 ((keyLength + 31) / 32)))).
