(* ===== verification/GoJson.v ===== *)
(** * encoding/json

    The parser and the encoder of the JSON the program exchanges.  A value is
    kept as its concrete syntax without insignificant white space: number and
    string literals are the bytes of the source, so that a [json.RawMessage]
    is a value and compaction is [print].  [unquote] reads a string literal and
    [quote] writes one.  The end of the input is read as a space, as Go's
    scanner does, which is what separates "unexpected end of JSON input" from
    the other syntax errors.  The end of the file decodes arrays into slices. *)
From S2P Require Import Prelude GoString GoUnicode GoTime.

Open Scope Z_scope.

Inductive json :=
| JNull
| JBool (b : bool)
| JNum (lit : bytes)
| JStr (lit : bytes)
| JArr (items : list json)
| JObj (members : list (bytes * json)).

Inductive json_error := UnexpectedEnd | BadSyntax | TypeMismatch.

Abbreviation parsed A := (result json_error (A * bytes)).

Definition and_then {A B} (r : parsed A) (k : A -> bytes -> parsed B) : parsed B :=
  match r with Ok (a, rest) => k a rest | Err e => Err e end.

(** ** Scanning *)
Definition chr (s : string) : ascii :=
  match s with String a _ => a | EmptyString => zero end.
Definition is_ws (a : ascii) : bool :=
  let x := byte_val a in (x =? 32) || (x =? 9) || (x =? 10) || (x =? 13).
Definition is_digit (a : ascii) : bool := in_range 48 (byte_val a) 57.
Definition is_hex (a : ascii) : bool :=
  in_range 48 (byte_val a) 57 || in_range 65 (byte_val a) 70 || in_range 97 (byte_val a) 102.
(** The one-letter escapes. *)
Definition is_escape (a : ascii) : bool :=
  bool_decide (a ∈ to_bytes ("bfnrt/\" +:+ String (ascii_of_N 34) "")).
Definition dquote : ascii := ascii_of_N 34.
Definition backslash : ascii := ascii_of_N 92.

Fixpoint skip_ws (l : bytes) : bytes :=
  match l with a :: t => if is_ws a then skip_ws t else l | [] => [] end.

(** The literal after its opening quote, and what follows its closing quote. *)
Fixpoint string_lit (l : bytes) : parsed bytes :=
  match l with
  | [] => Err UnexpectedEnd
  | a :: t =>
      if Ascii.eqb a dquote then Ok ([], t)
      else if Ascii.eqb a backslash then
        match t with
        | [] => Err UnexpectedEnd
        | b :: t1 =>
            if is_escape b then and_then (string_lit t1) (fun x r => Ok (a :: b :: x, r))
            else if Ascii.eqb b "u" then
              match t1 with
              | [] => Err UnexpectedEnd
              | h1 :: t2 => if negb (is_hex h1) then Err BadSyntax else
              match t2 with
              | [] => Err UnexpectedEnd
              | h2 :: t3 => if negb (is_hex h2) then Err BadSyntax else
              match t3 with
              | [] => Err UnexpectedEnd
              | h3 :: t4 => if negb (is_hex h3) then Err BadSyntax else
              match t4 with
              | [] => Err UnexpectedEnd
              | h4 :: t5 => if negb (is_hex h4) then Err BadSyntax else
                  and_then (string_lit t5)
                    (fun x r => Ok (a :: b :: h1 :: h2 :: h3 :: h4 :: x, r))
              end end end end
            else Err BadSyntax
        end
      else if byte_val a <? 32 then Err BadSyntax
      else and_then (string_lit t) (fun x r => Ok (a :: x, r))
  end.

(** The longest run of digits. *)
Fixpoint digits (l : bytes) : bytes * bytes :=
  match l with
  | a :: t => if is_digit a then let (x, r) := digits t in (a :: x, r) else ([], l)
  | [] => ([], [])
  end.

(** At least one digit. *)
Definition some_digits (l : bytes) : parsed bytes :=
  match l with
  | [] => Err UnexpectedEnd
  | a :: _ => if is_digit a then Ok (digits l) else Err BadSyntax
  end.

Definition exponent (l : bytes) : parsed bytes :=
  match l with
  | e :: t =>
      if Ascii.eqb e "e" || Ascii.eqb e "E" then
        match t with
        | s :: t1 =>
            if Ascii.eqb s "+" || Ascii.eqb s "-"
            then and_then (some_digits t1) (fun x r => Ok (e :: s :: x, r))
            else and_then (some_digits t) (fun x r => Ok (e :: x, r))
        | [] => Err UnexpectedEnd
        end
      else Ok ([], l)
  | [] => Ok ([], [])
  end.

Definition fraction (l : bytes) : parsed bytes :=
  match l with
  | p :: t =>
      if Ascii.eqb p "." then
        and_then (some_digits t) (fun x r =>
          and_then (exponent r) (fun y r => Ok (p :: x ++ y, r)))
      else exponent l
  | [] => Ok ([], [])
  end.

(** A number without its sign. *)
Definition unsigned (l : bytes) : parsed bytes :=
  match l with
  | [] => Err UnexpectedEnd
  | a :: t =>
      if Ascii.eqb a "0" then and_then (fraction t) (fun x r => Ok (a :: x, r))
      else if is_digit a then
        let (x, r) := digits l in and_then (fraction r) (fun y r => Ok (x ++ y, r))
      else Err BadSyntax
  end.

Definition number_lit (l : bytes) : parsed bytes :=
  match l with
  | a :: t =>
      if Ascii.eqb a "-" then and_then (unsigned t) (fun x r => Ok (a :: x, r)) else unsigned l
  | [] => Err UnexpectedEnd
  end.

(** The rest of [true], [false] or [null]. *)
Fixpoint expect (w : bytes) (l : bytes) : parsed unit :=
  match w, l with
  | [], _ => Ok (tt, l)
  | _ :: _, [] => Err UnexpectedEnd
  | a :: w, b :: l => if Ascii.eqb a b then expect w l else Err BadSyntax
  end.

Definition max_depth : nat := 10000.

(** ** Values

    A byte of the input costs at most two calls, so twice its length is enough:
    [fuel_is_enough] below. *)
Fixpoint value (fuel depth : nat) (l : bytes) : parsed json :=
  match fuel with
  | O => Err UnexpectedEnd
  | S fuel =>
      match skip_ws l with
      | [] => Err UnexpectedEnd
      | a :: t =>
          if Ascii.eqb a "{" then
            if (depth =? 0)%nat then Err BadSyntax else
            match skip_ws t with
            | [] => Err UnexpectedEnd
            | b :: t1 =>
                if Ascii.eqb b "}" then Ok (JObj [], t1)
                else and_then (members fuel (pred depth) (b :: t1)) (fun ms r => Ok (JObj ms, r))
            end
          else if Ascii.eqb a "[" then
            if (depth =? 0)%nat then Err BadSyntax else
            match skip_ws t with
            | [] => Err UnexpectedEnd
            | b :: t1 =>
                if Ascii.eqb b "]" then Ok (JArr [], t1)
                else and_then (elements fuel (pred depth) (b :: t1)) (fun vs r => Ok (JArr vs, r))
            end
          else if Ascii.eqb a dquote then and_then (string_lit t) (fun x r => Ok (JStr x, r))
          else if Ascii.eqb a "t" then and_then (expect (to_bytes "rue") t) (fun _ r => Ok (JBool true, r))
          else if Ascii.eqb a "f" then and_then (expect (to_bytes "alse") t) (fun _ r => Ok (JBool false, r))
          else if Ascii.eqb a "n" then and_then (expect (to_bytes "ull") t) (fun _ r => Ok (JNull, r))
          else and_then (number_lit (a :: t)) (fun x r => Ok (JNum x, r))
      end
  end
with elements (fuel depth : nat) (l : bytes) : parsed (list json) :=
  match fuel with
  | O => Err UnexpectedEnd
  | S fuel =>
      and_then (value fuel depth l) (fun v r =>
        match skip_ws r with
        | [] => Err UnexpectedEnd
        | b :: t =>
            if Ascii.eqb b "]" then Ok ([v], t)
            else if Ascii.eqb b "," then
              and_then (elements fuel depth t) (fun vs r => Ok (v :: vs, r))
            else Err BadSyntax
        end)
  end
with members (fuel depth : nat) (l : bytes) : parsed (list (bytes * json)) :=
  match fuel with
  | O => Err UnexpectedEnd
  | S fuel =>
      match skip_ws l with
      | [] => Err UnexpectedEnd
      | q :: t =>
          if negb (Ascii.eqb q dquote) then Err BadSyntax else
          and_then (string_lit t) (fun k r =>
            match skip_ws r with
            | [] => Err UnexpectedEnd
            | c :: t =>
                if negb (Ascii.eqb c ":") then Err BadSyntax else
                and_then (value fuel depth t) (fun v r =>
                  match skip_ws r with
                  | [] => Err UnexpectedEnd
                  | b :: t =>
                      if Ascii.eqb b "}" then Ok ([(k, v)], t)
                      else if Ascii.eqb b "," then
                        and_then (members fuel depth t) (fun ms r => Ok ((k, v) :: ms, r))
                      else Err BadSyntax
                  end)
            end)
      end
  end.

(** What [json.Unmarshal] accepts: one value and white space around it. *)
Definition parse (s : string) : result json_error json :=
  let l := to_bytes s ++ [ascii_of_N 32] in
  match value (S (2 * length l)) max_depth l with
  | Ok (v, r) => match skip_ws r with [] => Ok v | _ :: _ => Err BadSyntax end
  | Err e => Err e
  end.

(** ** String literals *)

Definition hex_val (a : Z) : Z :=
  if in_range 48 a 57 then a - 48 else if in_range 65 a 70 then a - 55 else a - 87.

(** The code points of a literal's runes; only a [\u] escape yields a surrogate. *)
Fixpoint unescape (rs : list Z) : list Z :=
  match rs with
  | 92 :: 117 :: a :: b :: c :: d :: t =>
      (hex_val a * 4096 + hex_val b * 256 + hex_val c * 16 + hex_val d) :: unescape t
  | 92 :: e :: t =>
      (if e =? 98 then 8 else if e =? 102 then 12 else if e =? 110 then 10
       else if e =? 114 then 13 else if e =? 116 then 9 else e) :: unescape t
  | r :: t => r :: unescape t
  | [] => []
  end.

Definition is_surrogate (r : Z) : bool := in_range 55296 r 57343.

(** UTF-16 pairs are joined, lone surrogates replaced. *)
Fixpoint join_surrogates (rs : list Z) : list Z :=
  match rs with
  | [] => []
  | r :: t =>
      if negb (is_surrogate r) then r :: join_surrogates t else
      match t with
      | r2 :: t2 =>
          if in_range 55296 r 56319 && in_range 56320 r2 57343
          then (65536 + (r - 55296) * 1024 + (r2 - 56320)) :: join_surrogates t2
          else RuneError :: join_surrogates t
      | [] => [RuneError]
      end
  end.

Definition unquote (lit : bytes) : string :=
  of_bytes (encode_runes (join_surrogates (unescape (runes lit)))).

(** [utf8.DecodeRune]: the size of the rune [r] that [l] starts with. *)
Definition rune_size (l : bytes) (r : Z) : nat :=
  if (r =? RuneError) && negb (bool_decide (take 3 l = encode_rune RuneError)) then 1
  else length (encode_rune r).

Definition hex_lower (d : Z) : ascii := byte_of (if d <? 10 then 48 + d else 87 + d).
Definition u_escape (r : Z) : bytes :=
  [backslash; "u"%char; hex_lower (r / 4096); hex_lower (r / 256 mod 16);
   hex_lower (r / 16 mod 16); hex_lower (r mod 16)].

(** How the encoder writes the rune [r] (HTML escaping on). *)
Definition quote_rune (r : Z) : bytes :=
  if (r =? 34) || (r =? 92) then [backslash; byte_of r]
  else if r =? 8 then [backslash; "b"%char]
  else if r =? 12 then [backslash; "f"%char]
  else if r =? 10 then [backslash; "n"%char]
  else if r =? 13 then [backslash; "r"%char]
  else if r =? 9 then [backslash; "t"%char]
  else if (r <? 32) || (r =? 60) || (r =? 62) || (r =? 38) || (r =? 8232) || (r =? 8233)
  then u_escape r
  else encode_rune r.

(** The literal [json.Marshal] writes for a string; an ill-formed byte becomes
    an escaped replacement character. *)
Fixpoint quote_bytes (fuel : nat) (l : bytes) : bytes :=
  match fuel, runes l with
  | S fuel, r :: _ =>
      let n := rune_size l r in
      (if (r =? RuneError) && (n =? 1)%nat then u_escape RuneError else quote_rune r)
        ++ quote_bytes fuel (drop n l)
  | _, _ => []
  end.

Definition quote (s : string) : bytes := quote_bytes (String.length s) (to_bytes s).

(** ** Printing *)

(** What compaction with HTML escaping does to a literal of a raw message. *)
Fixpoint html_escape (l : bytes) : bytes :=
  match l with
  | a :: t =>
      let x := byte_val a in
      if (x =? 60) || (x =? 62) || (x =? 38) then u_escape x ++ html_escape t
      else match t with
           | b :: c :: t2 =>
               if (x =? 226) && (byte_val b =? 128) && ((byte_val c =? 168) || (byte_val c =? 169))
               then u_escape (8192 + (byte_val c - 128)) ++ html_escape t2
               else a :: html_escape t
           | _ => a :: html_escape t
           end
  | [] => []
  end.

Fixpoint join (sep : ascii) (ls : list bytes) : bytes :=
  match ls with
  | [] => []
  | [l] => l
  | l :: ls => l ++ sep :: join sep ls
  end.

Definition in_quotes (lit : bytes) : bytes := dquote :: lit ++ [dquote].

Fixpoint print (v : json) : bytes :=
  match v with
  | JNull => to_bytes "null"
  | JBool true => to_bytes "true"
  | JBool false => to_bytes "false"
  | JNum lit => lit
  | JStr lit => in_quotes lit
  | JArr vs => "["%char :: join "," (map print vs) ++ ["]"%char]
  | JObj ms =>
      "{"%char :: join "," (map (fun m => in_quotes m.1 ++ ":"%char :: print m.2) ms) ++ ["}"%char]
  end.

(** [json.Compact] with HTML escaping, as [Marshal] applies it to raw messages. *)
Fixpoint escape_html (v : json) : json :=
  match v with
  | JStr lit => JStr (html_escape lit)
  | JArr vs => JArr (map escape_html vs)
  | JObj ms => JObj (map (fun m => (html_escape m.1, escape_html m.2)) ms)
  | v => v
  end.

Definition text (v : json) : string := of_bytes (print v).

(** ** Decoding into Go values

    A decoder gets the value its target already holds: [null] leaves it, and so
    does a value of the wrong type, whose error is reported at the end. *)
Definition dec_string (old : string) (v : json) : result json_error string :=
  match v with
  | JStr lit => Ok (unquote lit)
  | JNull => Ok old
  | _ => Err TypeMismatch
  end.

Definition dec_bool (old : bool) (v : json) : result json_error bool :=
  match v with
  | JBool b => Ok b
  | JNull => Ok old
  | _ => Err TypeMismatch
  end.

Definition dec_list (v : json) : result json_error (list json) :=
  match v with
  | JArr vs => Ok vs
  | JNull => Ok []
  | _ => Err TypeMismatch
  end.

(** A [map[string]json.RawMessage]: the last of equal keys wins. *)
Definition dec_map (v : json) : result json_error (gmap string json) :=
  match v with
  | JObj ms => Ok (foldl (fun acc m => <[unquote m.1 := m.2]> acc) ∅ ms)
  | JNull => Ok ∅
  | _ => Err TypeMismatch
  end.

(** The struct field a key addresses: the one of that name, or else the first
    whose name agrees up to case. *)
Definition resolve (names : list string) (key : string) : option string :=
  match List.find (String.eqb key) names with
  | Some n => Some n
  | None => List.find (EqualFold key) names
  end.

Definition keep_first (e : option json_error) (e' : json_error) : option json_error :=
  match e with Some _ => e | None => Some e' end.

(** A struct with fields [names]: [set] decodes into one field. *)
Definition dec_struct {A} (names : list string) (set : string -> A -> json -> result json_error A)
    (old : A) (v : json) : A * option json_error :=
  match v with
  | JObj ms =>
      foldl (fun acc (m : bytes * json) =>
               match resolve names (unquote m.1) with
               | None => acc
               | Some f =>
                   match set f acc.1 m.2 with
                   | Ok a => (a, acc.2)
                   | Err e => (acc.1, keep_first acc.2 e)
                   end
               end) (old, None) ms
  | JNull => (old, None)
  | _ => (old, Some TypeMismatch)
  end.

(** [json.Unmarshal([]byte(s), &old)] into a struct. *)
Definition Unmarshal {A} (names : list string) (set : string -> A -> json -> result json_error A)
    (old : A) (s : string) : A * option json_error :=
  match parse s with
  | Ok v => dec_struct names set old v
  | Err e => (old, Some e)
  end.

(** The object [json.Marshal] writes for a map: keys in increasing order. *)
Definition marshal_map (m : gmap string json) : json :=
  JObj (map (fun k => (quote k, default JNull (m !! k)))
            (SortStrings (map fst (map_to_list m)))).

(** * Decoding JSON arrays into slices

    [encoding/json] decodes an array into the elements its target slice already
    has, the hidden ones of its capacity included, and only then appends: a key
    repeated in an object merges element by element. *)

Record slice (A : Type) := mkSlice { backing : list A; slen : nat }.
Arguments mkSlice {A} backing slen.
Arguments backing {A}.
Arguments slen {A}.

Definition nil_slice {A} : slice A := mkSlice [] 0.
Definition elems {A} (s : slice A) : list A := take (slen s) (backing s).

(** Each value is decoded into the element at its place, or into a zero one. *)
Fixpoint dec_elems {A} (zero : A) (dec : A -> json -> result json_error A) (old : list A)
    (vs : list json) : result json_error (list A) :=
  match vs with
  | [] => Ok old
  | v :: vs =>
      match dec (List.hd zero old) v, dec_elems zero dec (List.tl old) vs with
      | Ok a, Ok l => Ok (a :: l)
      | Err e, _ => Err e
      | _, Err e => Err e
      end
  end.

Definition dec_slice {A} (zero : A) (dec : A -> json -> result json_error A) (old : slice A)
    (v : json) : result json_error (slice A) :=
  match v with
  | JNull | JArr [] => Ok nil_slice
  | JArr vs =>
      match dec_elems zero dec (backing old) vs with
      | Ok l => Ok (mkSlice l (length vs))
      | Err e => Err e
      end
  | _ => Err TypeMismatch
  end.

(** A string field: [put] stores what was decoded over [old]. *)
Definition on_string {A} (old : string) (v : json) (put : string -> A) : result json_error A :=
  match dec_string old v with Ok x => Ok (put x) | Err e => Err e end.

(** A struct element: its first error is the one reported. *)
Definition dec_object {A} (names : list string) (set : string -> A -> json -> result json_error A)
    (old : A) (v : json) : result json_error A :=
  match dec_struct names set old v with
  | (a, None) => Ok a
  | (_, Some e) => Err e
  end.

Lemma dec_elems_length {A} (zero : A) dec old vs l :
  dec_elems zero dec old vs = Ok l -> (length vs <= length l)%nat.
Proof.
  revert old l. induction vs as [|v vs IH]; intros old l; cbn; [lia|].
  destruct (dec _ v) as [a|]; [|done]. destruct (dec_elems _ _ _ vs) as [l'|] eqn:E; [|done].
  intros [= <-]. apply IH in E. cbn. lia.
Qed.

(** A decoded array has as many elements as the text gives. *)
Lemma dec_slice_length {A} (zero : A) dec old vs s :
  dec_slice zero dec old (JArr vs) = Ok s -> length (elems s) = length vs.
Proof.
  unfold dec_slice, elems. destruct vs as [|v vs]; [by intros [= <-]|].
  destruct (dec_elems _ _ _ _) as [l|] eqn:E; [|done]. intros [= <-]. cbn [slen backing].
  apply dec_elems_length in E. rewrite length_take. cbn [length] in *. lia.
Qed.
