(* ===== verification/GoJsonLaws.v ===== *)
(** * Laws of the JSON model

    The parser's fuel is enough, a parsed value prints to a text that parses to
    it again, and a quoted string unquotes to itself. *)
From S2P Require Import Prelude GoString GoUnicode GoTime GoJson.

Open Scope Z_scope.

Lemma and_then_ok {A B} (r : parsed A) (k : A -> bytes -> parsed B) y :
  and_then r k = Ok y <-> exists a l, r = Ok (a, l) /\ k a l = Ok y.
Proof. destruct r as [[a l]|e]; cbn; naive_solver. Qed.

(** ** Literals *)

Lemma skip_ws_length l : (length (skip_ws l) <= length l)%nat.
Proof. induction l as [|a t IH]; cbn; [done|]. destruct (is_ws a); cbn; lia. Qed.

(** What may follow a number. *)
Definition stops (r : bytes) : Prop :=
  match r with
  | b :: _ => b = ","%char \/ b = "]"%char \/ b = "}"%char \/ b = ascii_of_N 32
  | [] => False
  end.

Definition lit_ok (x : bytes) : Prop := forall r, string_lit (x ++ dquote :: r) = Ok (x, r).
Definition num_ok (x : bytes) : Prop := forall r, stops r -> number_lit (x ++ r) = Ok (x, r).

Lemma string_lit_local l x r :
  string_lit l = Ok (x, r) -> l = x ++ dquote :: r /\ lit_ok x.
Proof.
  revert x r. induction l as [l IH] using runes_ind. intros x r.
  destruct l as [|a t]; [done|]. cbn [string_lit].
  destruct (Ascii.eqb_spec a dquote) as [->|Hq]; [by intros [= <- <-]|].
  destruct (Ascii.eqb_spec a backslash) as [->|Hb].
  - destruct t as [|b t1]; [done|]. destruct (is_escape b) eqn:He.
    { intros (y & l & H & [= <- <-])%and_then_ok.
      destruct (IH t1 ltac:(cbn; lia) _ _ H) as [-> Hl]. split; [done|]. intros r'.
      cbn [app string_lit]. by rewrite He, (Hl r'). }
    destruct (Ascii.eqb b "u") eqn:Hu; [|done].
    do 4 (destruct t1 as [|?h t1]; [done|]; cbv iota beta;
          lazymatch goal with |- context [is_hex ?h] => destruct (is_hex h) eqn:? end;
          cbn [negb]; [|done]).
    intros (y & l & H & [= <- <-])%and_then_ok.
    destruct (IH t1 ltac:(cbn; lia) _ _ H) as [-> Hl]. split; [done|]. intros r'.
    cbn [app string_lit]. rewrite He, Hu, (Hl r').
    repeat match goal with H : is_hex _ = true |- _ => rewrite H; clear H end. done.
  - destruct (byte_val a <? 32) eqn:H32; [done|].
    intros (y & l & H & [= <- <-])%and_then_ok.
    destruct (IH t ltac:(cbn; lia) _ _ H) as [-> Hl]. split; [done|]. intros r'.
    cbn [app string_lit]. rewrite H32, (Hl r').
    apply Ascii.eqb_neq in Hq, Hb. by rewrite Hq, Hb.
Qed.

Lemma digits_local l x r :
  digits l = (x, r) ->
  l = x ++ r /\ forall r', match r' with b :: _ => is_digit b = false | [] => True end ->
    digits (x ++ r') = (x, r').
Proof.
  revert x r. induction l as [|a t IH]; cbn; intros x r.
  { intros [= <- <-]. split; [done|]. intros [|b r'] H; [done|]. cbn. by rewrite H. }
  destruct (is_digit a) eqn:Ha.
  - destruct (digits t) as [y s]. intros [= <- <-]. destruct (IH y s eq_refl) as [-> H].
    split; [done|]. intros r' Hr. cbn. by rewrite Ha, (H r' Hr).
  - intros [= <- <-]. split; [done|]. intros [|b r'] H; [done|]. cbn. by rewrite H.
Qed.

Definition stop_char (b : ascii) : bool :=
  Ascii.eqb b "," || Ascii.eqb b "]" || Ascii.eqb b "}" || Ascii.eqb b (ascii_of_N 32).

Lemma stop_char_cases (P : ascii -> Prop) b :
  P ","%char -> P "]"%char -> P "}"%char -> P (ascii_of_N 32) -> stop_char b = true -> P b.
Proof.
  intros ???? H. unfold stop_char in H.
  repeat (apply orb_prop in H as [H|H]); apply Ascii.eqb_eq in H; by subst b.
Qed.

Definition no_digit_first (l : bytes) : Prop :=
  match l with c :: _ => is_digit c = false | [] => True end.

(** A parser that splits off the same literal whatever stops it. *)
Definition local (f : bytes -> parsed bytes) : Prop :=
  forall l x r, f l = Ok (x, r) ->
    l = x ++ r /\ forall b r', stop_char b = true -> f (x ++ b :: r') = Ok (x, b :: r').

Lemma some_digits_local l x r :
  some_digits l = Ok (x, r) ->
  l = x ++ r /\ (exists a y, x = a :: y /\ is_digit a = true) /\
  forall r', no_digit_first r' -> some_digits (x ++ r') = Ok (x, r').
Proof.
  destruct l as [|a t]; [done|]. unfold some_digits.
  destruct (is_digit a) eqn:Ha; [|done]. intros [= H].
  assert (digits (a :: t) = (x, r)) as Hd by done. clear H.
  destruct (digits_local _ _ _ Hd) as [E Hl]. split; [done|].
  destruct x as [|a' x].
  { cbn in Hd. rewrite Ha in Hd. by destruct (digits t). }
  injection E as <- ->. split; [by eauto|]. intros r' Hr. cbn [app]. rewrite Ha.
  f_equal. by apply (Hl r').
Qed.

Lemma exponent_local : local exponent /\
  forall l x r b r', exponent l = Ok (x, r) -> stop_char b = true -> no_digit_first (x ++ b :: r').
Proof.
  assert (forall b r', stop_char b = true -> exponent (b :: r') = Ok ([], b :: r')) as Hstop.
  { intros b r'. revert b. by refine (fun b => stop_char_cases (fun b => exponent (b :: r') = Ok ([], b :: r')) b _ _ _ _). }
  assert (forall b (r' : bytes), stop_char b = true -> no_digit_first (b :: r')) as Hnd.
  { intros b r'. by refine (stop_char_cases (fun b => no_digit_first (b :: r')) b _ _ _ _). }
  assert (forall e, Ascii.eqb e "e" || Ascii.eqb e "E" = true -> is_digit e = false) as He'.
  { intros e [->%Ascii.eqb_eq | ->%Ascii.eqb_eq]%orb_prop; done. }
  split.
  - intros l x r. destruct l as [|e t]; cbn.
    { intros [= <- <-]. split; [done|]. intros b r'. apply Hstop. }
    destruct (Ascii.eqb e "e" || Ascii.eqb e "E") eqn:He.
    2: { intros [= <- <-]. split; [done|]. intros b r'. apply Hstop. }
    destruct t as [|s t1]; [done|].
    destruct (Ascii.eqb s "+" || Ascii.eqb s "-") eqn:Hs;
      intros (y & l & H & [= <- <-])%and_then_ok;
      apply some_digits_local in H as (-> & (d & z & -> & Hd) & Hl);
      (split; [done|]); intros b r' Hb; cbn [app exponent]; rewrite He, ?Hs.
    + change (d :: z ++ b :: r') with ((d :: z) ++ b :: r'). by rewrite (Hl (b :: r') (Hnd b r' Hb)).
    + replace (Ascii.eqb d "+" || Ascii.eqb d "-") with false.
      2: { symmetry. apply orb_false_intro; apply Ascii.eqb_neq; intros ->; done. }
      specialize (Hl (b :: r') (Hnd b r' Hb)). cbn [app] in Hl. by rewrite Hl.
  - intros l x r b r' H Hb. destruct l as [|e t]; cbn in H.
    { injection H as <- <-. by apply Hnd. }
    destruct (Ascii.eqb e "e" || Ascii.eqb e "E") eqn:He.
    2: { injection H as <- <-. by apply Hnd. }
    destruct t as [|s t1]; [done|].
    destruct (Ascii.eqb s "+" || Ascii.eqb s "-");
      apply and_then_ok in H as (y & l & _ & [= <- <-]); by apply He'.
Qed.

Lemma fraction_local : local fraction /\
  forall l x r b r', fraction l = Ok (x, r) -> stop_char b = true -> no_digit_first (x ++ b :: r').
Proof.
  destruct exponent_local as [He Hf].
  assert (forall l x r, exponent l = Ok (x, r) ->
            (exists p y, x = p :: y /\ Ascii.eqb p "." = false) \/ x = []) as Hp.
  { intros [|e t] x r; cbn; [intros [= <- <-]; by right|].
    destruct (Ascii.eqb e "e" || Ascii.eqb e "E") eqn:E; [|intros [= <- <-]; by right].
    destruct t as [|s t]; [done|]. intros H.
    assert (Ascii.eqb e "." = false) by
      (apply orb_prop in E as [->%Ascii.eqb_eq | ->%Ascii.eqb_eq]; done).
    destruct (Ascii.eqb s "+" || Ascii.eqb s "-");
      apply and_then_ok in H as (y & l & _ & [= <- <-]); left; by eauto. }
  assert (forall l, match l with p :: _ => Ascii.eqb p "." = false | [] => True end ->
            fraction l = exponent l) as Hx.
  { intros [|p t]; [done|]. cbn. by intros ->. }
  assert (forall b (r : bytes), stop_char b = true -> Ascii.eqb b "." = false) as Hs.
  { intros b r. by refine (stop_char_cases (fun b => Ascii.eqb b "." = false) b _ _ _ _). }
  split.
  - intros l x r H. destruct l as [|p t].
    { injection H as <- <-. split; [done|]. intros b r' Hb. cbn.
      rewrite (Hs b r' Hb). by apply (He [] [] [] eq_refl). }
    cbn [fraction] in H. destruct (Ascii.eqb p ".") eqn:E.
    + apply and_then_ok in H as (y & l & H1 & (z & m & H2 & [= <- <-])%and_then_ok).
      apply some_digits_local in H1 as (-> & _ & H1).
      destruct (He _ _ _ H2) as [-> H2']. split; [cbn; by rewrite <- app_assoc|].
      intros b r' Hb. cbn [app fraction]. rewrite E, <- app_assoc, (H1 _ (Hf _ _ _ b r' H2 Hb)).
      cbn. by rewrite (H2' b r' Hb).
    + destruct (He _ _ _ H) as [-> H']. split; [done|]. intros b r' Hb.
      rewrite Hx; [by apply H'|]. destruct (Hp _ _ _ H) as [(q & y & -> & Eq)| ->]; [done|].
      by apply (Hs b []).
  - intros l x r b r' H Hb. destruct l as [|p t].
    { injection H as <- <-. by apply (Hf [] [] []). }
    cbn [fraction] in H. destruct (Ascii.eqb p ".") eqn:E; [|by apply (Hf _ _ _ b r' H)].
    apply and_then_ok in H as (y & l & H1 & (z & m & H2 & [= <- <-])%and_then_ok).
    apply Ascii.eqb_eq in E. by subst p.
Qed.

Lemma number_lit_local l x r : number_lit l = Ok (x, r) -> l = x ++ r /\ num_ok x.
Proof.
  destruct fraction_local as [Hf Hd].
  assert (local unsigned) as Hu.
  { intros m y s H. destruct m as [|a t]; [done|]. cbn [unsigned] in H.
    destruct (Ascii.eqb a "0") eqn:E0.
    - apply and_then_ok in H as (z & q & H & [= <- <-]). destruct (Hf _ _ _ H) as [-> H'].
      split; [done|]. intros b r' Hb. cbn [app unsigned]. by rewrite E0, (H' b r' Hb).
    - destruct (is_digit a) eqn:Ea; [|done]. destruct (digits (a :: t)) as [z q] eqn:Ez.
      apply and_then_ok in H as (w & p & H & [= <- <-]).
      assert (z <> []) as Hz.
      { intros ->. cbn in Ez. rewrite Ea in Ez. by destruct (digits t). }
      apply digits_local in Ez as [Et Ez]. destruct (Hf _ _ _ H) as [-> H'].
      split; [by rewrite <- app_assoc|]. intros b r' Hb.
      destruct z as [|a' z]; [done|].
      injection Et as <- ->. cbn [app unsigned]. rewrite E0, Ea.
      specialize (Ez _ (Hd _ _ _ b r' H Hb)). rewrite <- app_assoc. cbn [app] in Ez.
      rewrite Ez. by rewrite (H' b r' Hb). }
  assert (forall r', stops r' -> exists b t, r' = b :: t /\ stop_char b = true) as Hstop.
  { intros [|b t]; [done|]. intros [->|[->|[->| ->]]]; by eauto. }
  destruct l as [|a t]; [done|]. cbn [number_lit]. destruct (Ascii.eqb a "-") eqn:E.
  - intros (y & s & H & [= <- <-])%and_then_ok. destruct (Hu _ _ _ H) as [-> H'].
    split; [done|]. intros r' (b & t & -> & Hb)%Hstop. cbn [app number_lit].
    by rewrite E, (H' b t Hb).
  - intros H. destruct (Hu _ _ _ H) as [Ex H']. split; [done|].
    intros r' (b & q & -> & Hb)%Hstop. destruct x as [|a' x].
    { specialize (H' (","%char) [] eq_refl). done. }
    injection Ex as <- ->. cbn [app number_lit]. rewrite E. by apply (H' b q).
Qed.

(** ** Values *)

(** A value whose literals are well formed, nested at most [depth] deep. *)
Fixpoint json_ok (depth : nat) (v : json) {struct v} : Prop :=
  match v with
  | JNull | JBool _ => True
  | JNum lit => num_ok lit
  | JStr lit => lit_ok lit
  | JArr vs =>
      match depth with
      | O => False
      | S depth => foldr (fun v P => json_ok depth v /\ P) True vs
      end
  | JObj ms =>
      match depth with
      | O => False
      | S depth => foldr (fun m P => (lit_ok m.1 /\ json_ok depth m.2) /\ P) True ms
      end
  end.

Definition elements_ok (depth : nat) (vs : list json) : Prop :=
  vs <> [] /\ foldr (fun v P => json_ok depth v /\ P) True vs.
Definition members_ok (depth : nat) (ms : list (bytes * json)) : Prop :=
  ms <> [] /\ foldr (fun m P => (lit_ok m.1 /\ json_ok depth m.2) /\ P) True ms.

(** The text of the tail of an array or object, closing bracket included. *)
Definition print_elements (vs : list json) : bytes := join "," (map print vs) ++ ["]"%char].
Definition print_member (m : bytes * json) : bytes := in_quotes m.1 ++ ":"%char :: print m.2.
Definition print_members (ms : list (bytes * json)) : bytes :=
  join "," (map print_member ms) ++ ["}"%char].

Lemma print_arr vs : print (JArr vs) = "["%char :: print_elements vs.
Proof. done. Qed.
Lemma print_obj ms : print (JObj ms) = "{"%char :: print_members ms.
Proof. done. Qed.

Lemma print_elements_cons v vs :
  print_elements (v :: vs) =
  print v ++ match vs with [] => ["]"%char] | _ :: _ => ","%char :: print_elements vs end.
Proof. unfold print_elements. destruct vs; [done|]. cbn. by rewrite <- app_assoc. Qed.

Lemma print_members_cons k v ms :
  print_members ((k, v) :: ms) =
  dquote :: k ++ dquote :: ":"%char :: print v ++
    match ms with [] => ["}"%char] | _ :: _ => ","%char :: print_members ms end.
Proof.
  unfold print_members, print_member, in_quotes. destruct ms; cbn;
    rewrite <- ?app_assoc; cbn; by rewrite <- ?app_assoc.
Qed.

(** What may follow a value: anything, but a number must be stopped. *)
Definition after_value (v : json) (r : bytes) : Prop :=
  match v with JNum _ => stops r | _ => True end.

Lemma number_first x : num_ok x -> exists a t, x = a :: t /\ (a = "-"%char \/ is_digit a = true).
Proof.
  intros H. specialize (H ["}"%char] ltac:(cbn; auto)). destruct x as [|a t]; [done|].
  exists a, t. split; [done|]. cbn [app number_lit] in H.
  destruct (Ascii.eqb_spec a "-"); [by left|]. cbn [unsigned] in H.
  destruct (Ascii.eqb_spec a "0"); [subst; by right|]. destruct (is_digit a); [by right|done].
Qed.

(** The first byte of a printed value decides which value it is. *)
Definition first_ok (v : json) (a : ascii) : Prop :=
  match v with
  | JNull => a = "n"%char
  | JBool b => a = if b then "t"%char else "f"%char
  | JNum _ => a = "-"%char \/ is_digit a = true
  | JStr _ => a = dquote
  | JArr _ => a = "["%char
  | JObj _ => a = "{"%char
  end.

Lemma print_first depth v : json_ok depth v -> exists a t, print v = a :: t /\ first_ok v a.
Proof.
  destruct v as [|[]|x|x|vs|ms]; cbn [json_ok]; intros H; try (by eexists _, _).
  destruct (number_first x H) as (a & t & -> & Ha). by exists a, t.
Qed.

Lemma digit_other a b : is_digit a = true -> is_digit b = false -> Ascii.eqb a b = false.
Proof. intros Ha Hb. apply Ascii.eqb_neq. intros ->. congruence. Qed.

(** Every character the parser compares the first byte of a value with. *)
Lemma first_other v a b :
  first_ok v a -> b ∈ ["]"%char; "}"%char; ","%char; ":"%char] -> Ascii.eqb a b = false.
Proof.
  intros Ha Hb. assert (is_digit b = false) as Hd by set_solver.
  destruct v as [|[]|x|x|vs|ms]; cbn in Ha; try (by subst a; set_solver).
  destruct Ha as [->|Ha]; [set_solver|by apply digit_other].
Qed.

Lemma first_not_ws v a : first_ok v a -> is_ws a = false.
Proof.
  destruct v as [|[]|x|x|vs|ms]; cbn; try (by intros ->). intros [->|H]; [done|].
  unfold is_digit, in_range in H. unfold is_ws. lia.
Qed.

Lemma skip_ws_first a t : is_ws a = false -> skip_ws (a :: t) = a :: t.
Proof. intros H. cbn. by rewrite H. Qed.

(** *** Printing, then parsing *)

Definition value_prints (fuel : nat) : Prop := forall depth v r,
  json_ok depth v -> after_value v r -> (2 * length (print v ++ r) < fuel)%nat ->
  value fuel depth (print v ++ r) = Ok (v, r).
Definition elements_print (fuel : nat) : Prop := forall depth vs r,
  elements_ok depth vs -> (S (2 * length (print_elements vs ++ r)) < fuel)%nat ->
  elements fuel depth (print_elements vs ++ r) = Ok (vs, r).
Definition members_print (fuel : nat) : Prop := forall depth ms r,
  members_ok depth ms -> (S (2 * length (print_members ms ++ r)) < fuel)%nat ->
  members fuel depth (print_members ms ++ r) = Ok (ms, r).

Lemma after_close v r b : b ∈ ["]"%char; "}"%char; ","%char] -> after_value v (b :: r).
Proof. intros H. destruct v; cbn; set_solver. Qed.

Lemma elements_step fuel : value_prints fuel -> elements_print fuel -> elements_print (S fuel).
Proof.
  intros Hv He depth vs r [Hne Hok] Hlen. destruct vs as [|v vs]; [done|].
  cbn in Hok. destruct Hok as [Hvok Hvs].
  rewrite print_elements_cons in Hlen |- *. rewrite <- app_assoc in Hlen |- *. cbn [elements].
  rewrite length_app in Hlen.
  rewrite Hv; [|done|destruct vs; apply after_close; set_solver|rewrite length_app; lia].
  cbn [and_then]. destruct vs as [|w vs]; [done|].
  cbn [app]. rewrite skip_ws_first by done. cbn beta iota.
  change (Ascii.eqb "," "]") with false. change (Ascii.eqb "," ",") with true. cbn beta iota.
  cbn in Hlen. by rewrite He by (cbn; done || lia).
Qed.

Lemma members_step fuel : value_prints fuel -> members_print fuel -> members_print (S fuel).
Proof.
  intros Hv Hm depth ms r [Hne Hok] Hlen. destruct ms as [|[k v] ms]; [done|].
  cbn in Hok. destruct Hok as [[Hk Hvok] Hms].
  rewrite print_members_cons in Hlen |- *.
  repeat (cbn [app] in Hlen |- *; rewrite <- ?app_assoc in Hlen |- * ). cbn [members].
  rewrite skip_ws_first by done. cbn beta iota.
  change (Ascii.eqb dquote dquote) with true. cbn [negb].
  rewrite (Hk _). cbn [and_then]. rewrite skip_ws_first by done.
  change (Ascii.eqb ":" ":") with true. cbn [negb].
  cbn in Hlen. rewrite length_app in Hlen. cbn in Hlen.
  rewrite Hv; [|done|destruct ms; apply after_close; set_solver|lia].
  cbn [and_then]. destruct ms as [|m ms]; [done|].
  cbn [app]. rewrite skip_ws_first by done. cbn beta iota.
  change (Ascii.eqb "," "}") with false. change (Ascii.eqb "," ",") with true. cbn beta iota.
  rewrite length_app in Hlen. cbn in Hlen. by rewrite Hm by (cbn; done || lia).
Qed.

Lemma value_step fuel :
  elements_print fuel -> members_print fuel -> value_prints (S fuel).
Proof.
  intros He Hm depth v r Hok Hr Hlen.
  destruct v as [|[]|x|x|vs|ms]; try done.
  - cbn [json_ok after_value] in *. destruct (number_first x Hok) as (a & t & -> & Ha).
    cbn [print app value]. rewrite skip_ws_first by by apply (first_not_ws (JNum [])).
    assert (forall b, Ascii.eqb b "-" = false -> is_digit b = false -> Ascii.eqb a b = false) as Hab.
    { intros b Hb Hd. destruct Ha as [->|Ha]; [|by apply digit_other].
      apply Ascii.eqb_neq. intros <-. done. }
    rewrite !Hab by done. change (a :: t ++ r) with ((a :: t) ++ r). by rewrite (Hok r Hr).
  - cbn [json_ok print value] in *. unfold in_quotes. cbn [app].
    rewrite skip_ws_first by done. change (Ascii.eqb dquote "{") with false. change (Ascii.eqb dquote "[") with false.
    change (Ascii.eqb dquote dquote) with true. cbn beta iota.
    rewrite <- app_assoc. cbn [app]. by rewrite (Hok r).
  - rewrite print_arr in Hlen |- *. destruct depth as [|depth]; [done|].
    cbn [app value]. rewrite skip_ws_first by done.
    change (Ascii.eqb "[" "{") with false. change (Ascii.eqb "[" "[") with true. cbn beta iota.
    destruct vs as [|v vs]; [done|]. pose proof (proj1 Hok) as Hv.
    destruct (print_first _ _ Hv) as (a & t & Ep & Ea).
    assert (exists q, print_elements (v :: vs) ++ r = a :: q) as [q Eq].
    { rewrite print_elements_cons, Ep. by eexists. }
    pose proof (He depth (v :: vs) r ltac:(by split)) as H. rewrite Eq in H |- *.
    cbn [app length] in Hlen. rewrite Eq in Hlen. cbn in Hlen.
    rewrite skip_ws_first by by eapply first_not_ws. cbn [Nat.eqb pred] in *.
    rewrite (first_other v a) by (done || set_solver). rewrite H by (cbn; lia). done.
  - rewrite print_obj in Hlen |- *. destruct depth as [|depth]; [done|].
    cbn [app value]. rewrite skip_ws_first by done.
    change (Ascii.eqb "{" "{") with true. cbn beta iota.
    destruct ms as [|[k v] ms]; [done|].
    pose proof (Hm depth ((k, v) :: ms) r ltac:(by split)) as H.
    assert (exists q, print_members ((k, v) :: ms) ++ r = dquote :: q) as [q Eq].
    { rewrite print_members_cons. by eexists. }
    rewrite Eq in H |- *. cbn [app length] in Hlen. rewrite Eq in Hlen. cbn in Hlen.
    rewrite skip_ws_first by done. cbn [Nat.eqb pred] in *.
    change (Ascii.eqb dquote "}") with false. rewrite H by (cbn; lia). done.
Qed.

Lemma value_print_all fuel : value_prints fuel /\ elements_print fuel /\ members_print fuel.
Proof.
  induction fuel as [|fuel (Hv & He & Hm)].
  { repeat split; intros ????; lia. }
  split; [by apply value_step|]. split; [by apply elements_step|by apply members_step].
Qed.

(** A well-formed value is read back from its text. *)
Lemma parse_text v : json_ok max_depth v -> parse (text v) = Ok v.
Proof.
  intros H. unfold parse, text. rewrite list_ascii_of_string_of_list_ascii.
  destruct (value_print_all (S (2 * length (print v ++ [ascii_of_N 32])))) as [Hv _].
  rewrite Hv; [done|done| |lia]. destruct v; cbn; auto.
Qed.

(** *** What the parser returns is well formed *)
Lemma foldr_and {A} (P : A -> Prop) l : foldr (fun x Q => P x /\ Q) True l <-> Forall P l.
Proof. induction l as [|x l IH]; cbn; [done|]. by rewrite Forall_cons, IH. Qed.

Definition value_sound (fuel : nat) : Prop := forall depth l v r,
  value fuel depth l = Ok (v, r) -> json_ok depth v.
Definition elements_sound (fuel : nat) : Prop := forall depth l vs r,
  elements fuel depth l = Ok (vs, r) -> Forall (json_ok depth) vs.
Definition members_sound (fuel : nat) : Prop := forall depth l ms r,
  members fuel depth l = Ok (ms, r) -> Forall (fun m => lit_ok m.1 /\ json_ok depth m.2) ms.

Lemma parsed_all fuel : value_sound fuel /\ elements_sound fuel /\ members_sound fuel.
Proof.
  induction fuel as [|fuel (Hv & He & Hm)]; [by repeat split|]. split; [|split].
  - intros depth l v r H. cbn [value] in H. destruct (skip_ws l) as [|a t]; [done|].
    destruct (Ascii.eqb a "{").
    { destruct depth as [|depth]; [done|]. cbn in H. destruct (skip_ws t) as [|b t1]; [done|].
      destruct (Ascii.eqb b "}"); [by injection H as <- <-|].
      apply and_then_ok in H as (ms & q & H & [= <- <-]). cbn. apply foldr_and. by eapply Hm. }
    destruct (Ascii.eqb a "[").
    { destruct depth as [|depth]; [done|]. cbn in H. destruct (skip_ws t) as [|b t1]; [done|].
      destruct (Ascii.eqb b "]"); [by injection H as <- <-|].
      apply and_then_ok in H as (vs & q & H & [= <- <-]). cbn. apply foldr_and. by eapply He. }
    destruct (Ascii.eqb a dquote).
    { apply and_then_ok in H as (x & q & H & [= <- <-]). by apply string_lit_local in H as [_ ?]. }
    destruct (Ascii.eqb a "t"); [by apply and_then_ok in H as (x & q & H & [= <- <-])|].
    destruct (Ascii.eqb a "f"); [by apply and_then_ok in H as (x & q & H & [= <- <-])|].
    destruct (Ascii.eqb a "n"); [by apply and_then_ok in H as (x & q & H & [= <- <-])|].
    apply and_then_ok in H as (x & q & H & [= <- <-]). by apply number_lit_local in H as [_ ?].
  - intros depth l vs r H. cbn [elements] in H. apply and_then_ok in H as (v & q & Hl & H).
    apply Hv in Hl. destruct (skip_ws q) as [|b t]; [done|].
    destruct (Ascii.eqb b "]"); [injection H as <- <-; by repeat constructor|].
    destruct (Ascii.eqb b ","); [|done].
    apply and_then_ok in H as (ws & p & H & [= <- <-]). constructor; [done|by eapply He].
  - intros depth l ms r H. cbn [members] in H. destruct (skip_ws l) as [|q t]; [done|].
    destruct (negb _); [done|]. apply and_then_ok in H as (k & s & Hk & H).
    apply string_lit_local in Hk as [_ Hk]. destruct (skip_ws s) as [|c t1]; [done|].
    destruct (negb _); [done|]. apply and_then_ok in H as (v & p & Hl & H). apply Hv in Hl.
    destruct (skip_ws p) as [|b t2]; [done|].
    destruct (Ascii.eqb b "}"); [injection H as <- <-; by repeat constructor|].
    destruct (Ascii.eqb b ","); [|done].
    apply and_then_ok in H as (ns & p2 & H & [= <- <-]). constructor; [done|by eapply Hm].
Qed.

Lemma parse_ok s v : parse s = Ok v -> json_ok max_depth v.
Proof.
  unfold parse. destruct (value _ _ _) as [[w r]|e] eqn:E; [|done].
  destruct (skip_ws r); [|done]. intros [= <-]. by eapply parsed_all.
Qed.

(** *** The fuel is enough *)
Lemma string_lit_length l x r : string_lit l = Ok (x, r) -> (length r < length l)%nat.
Proof. intros [-> _]%string_lit_local. rewrite length_app. cbn. lia. Qed.

Lemma and_then_eq {A B} (r : parsed A) (k k' : A -> bytes -> parsed B) :
  (forall a l, r = Ok (a, l) -> k a l = k' a l) -> and_then r k = and_then r k'.
Proof. destruct r as [[a l]|e]; cbn; auto. Qed.

Lemma expect_length w l r : expect w l = Ok (tt, r) -> (length r <= length l)%nat.
Proof.
  revert l. induction w as [|a w IH]; intros [|b l]; cbn; try (by intros [= <-]); try done.
  destruct (Ascii.eqb a b); [|done]. intros H%IH. lia.
Qed.

Definition value_shrinks (fuel : nat) : Prop := forall depth l v r,
  value fuel depth l = Ok (v, r) -> (length r < length l)%nat.
Definition elements_shrink (fuel : nat) : Prop := forall depth l vs r,
  elements fuel depth l = Ok (vs, r) -> (length r < length l)%nat.
Definition members_shrink (fuel : nat) : Prop := forall depth l ms r,
  members fuel depth l = Ok (ms, r) -> (length r < length l)%nat.

Lemma shrink_all fuel : value_shrinks fuel /\ elements_shrink fuel /\ members_shrink fuel.
Proof.
  induction fuel as [|fuel (Hv & He & Hm)]; [by repeat split|]. split; [|split].
  - intros depth l v r H. cbn [value] in H. pose proof (skip_ws_length l) as Hl.
    destruct (skip_ws l) as [|a t]; [done|]. cbn in Hl. pose proof (skip_ws_length t) as Ht.
    destruct (Ascii.eqb a "{").
    { destruct (_ =? 0)%nat; [done|]. destruct (skip_ws t) as [|b t1]; [done|]. cbn in Ht.
      destruct (Ascii.eqb b "}"); [injection H as _ <-; lia|].
      apply and_then_ok in H as (x & q & H%Hm & [= _ <-]). cbn in H. lia. }
    destruct (Ascii.eqb a "[").
    { destruct (_ =? 0)%nat; [done|]. destruct (skip_ws t) as [|b t1]; [done|]. cbn in Ht.
      destruct (Ascii.eqb b "]"); [injection H as _ <-; lia|].
      apply and_then_ok in H as (x & q & H%He & [= _ <-]). cbn in H. lia. }
    destruct (Ascii.eqb a dquote).
    { apply and_then_ok in H as (x & q & H%string_lit_length & [= _ <-]). lia. }
    destruct (Ascii.eqb a "t");
      [apply and_then_ok in H as ([] & q & H%expect_length & [= _ <-]); lia|].
    destruct (Ascii.eqb a "f");
      [apply and_then_ok in H as ([] & q & H%expect_length & [= _ <-]); lia|].
    destruct (Ascii.eqb a "n");
      [apply and_then_ok in H as ([] & q & H%expect_length & [= _ <-]); lia|].
    apply and_then_ok in H as (x & q & H & [= _ <-]). apply number_lit_local in H as [E Hx].
    destruct (number_first x Hx) as (a' & t' & -> & _). injection E as _ ->.
    rewrite length_app in Hl. lia.
  - intros depth l vs r H. cbn [elements] in H. apply and_then_ok in H as (v & q & Hl%Hv & H).
    pose proof (skip_ws_length q) as Hq. destruct (skip_ws q) as [|b t]; [done|]. cbn in Hq.
    destruct (Ascii.eqb b "]"); [injection H as _ <-; lia|].
    destruct (Ascii.eqb b ","); [|done].
    apply and_then_ok in H as (ws & p & H%He & [= _ <-]). lia.
  - intros depth l ms r H. cbn [members] in H. pose proof (skip_ws_length l) as Hl.
    destruct (skip_ws l) as [|q t]; [done|]. cbn in Hl.
    destruct (negb _); [done|]. apply and_then_ok in H as (k & s & Hk%string_lit_length & H).
    pose proof (skip_ws_length s). destruct (skip_ws s) as [|c t1]; [done|]. cbn in *.
    destruct (negb _); [done|]. apply and_then_ok in H as (v & p & Hp%Hv & H).
    pose proof (skip_ws_length p). destruct (skip_ws p) as [|b t2]; [done|]. cbn in *.
    destruct (Ascii.eqb b "}"); [injection H as _ <-; lia|].
    destruct (Ascii.eqb b ","); [|done].
    apply and_then_ok in H as (ns & p2 & H%Hm & [= _ <-]). lia.
Qed.

Definition value_stable (fuel : nat) : Prop := forall fuel' depth l,
  (2 * length l < fuel)%nat -> (2 * length l < fuel')%nat ->
  value fuel depth l = value fuel' depth l.
Definition elements_stable (fuel : nat) : Prop := forall fuel' depth l,
  (S (2 * length l) < fuel)%nat -> (S (2 * length l) < fuel')%nat ->
  elements fuel depth l = elements fuel' depth l.
Definition members_stable (fuel : nat) : Prop := forall fuel' depth l,
  (S (2 * length l) < fuel)%nat -> (S (2 * length l) < fuel')%nat ->
  members fuel depth l = members fuel' depth l.

Lemma stable_all fuel : value_stable fuel /\ elements_stable fuel /\ members_stable fuel.
Proof.
  induction fuel as [|fuel (Hv & He & Hm)]; [split; [|split]; intros ????; lia|].
  split; [|split]; intros [|fuel'] depth l Hl Hl'; try lia.
  - cbn [value]. pose proof (skip_ws_length l). destruct (skip_ws l) as [|a t]; [done|].
    cbn in *. pose proof (skip_ws_length t).
    destruct (Ascii.eqb a "{"); [|destruct (Ascii.eqb a "["); [|done]].
    all: destruct (_ =? 0)%nat; [done|]; destruct (skip_ws t) as [|b t1]; [done|]; cbn in *.
    + destruct (Ascii.eqb b "}"); [done|]. by rewrite (Hm fuel') by (cbn; lia).
    + destruct (Ascii.eqb b "]"); [done|]. by rewrite (He fuel') by (cbn; lia).
  - cbn [elements]. rewrite (Hv fuel') by lia. apply and_then_eq. intros v r Hr%shrink_all.
    pose proof (skip_ws_length r). destruct (skip_ws r) as [|b t]; [done|]. cbn in *.
    destruct (Ascii.eqb b "]"); [done|]. destruct (Ascii.eqb b ","); [|done].
    by rewrite (He fuel') by lia.
  - cbn [members]. pose proof (skip_ws_length l). destruct (skip_ws l) as [|q t]; [done|].
    destruct (negb _); [done|]. cbn in *. apply and_then_eq. intros k r Hr%string_lit_length.
    pose proof (skip_ws_length r). destruct (skip_ws r) as [|c t1]; [done|]. cbn in *.
    destruct (negb _); [done|]. rewrite (Hv fuel') by lia. apply and_then_eq.
    intros v s Hs%shrink_all. pose proof (skip_ws_length s).
    destruct (skip_ws s) as [|b t2]; [done|]. cbn in *.
    destruct (Ascii.eqb b "}"); [done|]. destruct (Ascii.eqb b ","); [|done].
    by rewrite (Hm fuel') by lia.
Qed.

(** However much fuel the parser gets beyond twice the input, it answers the same. *)
Lemma fuel_is_enough fuel depth l :
  (2 * length l < fuel)%nat -> value fuel depth l = value (S (2 * length l)) depth l.
Proof. intros H. apply stable_all; lia. Qed.

(** ** Quoting *)

Lemma rune_error_bytes a b c t :
  take 3 (a :: b :: c :: t) = encode_rune RuneError <->
  byte_val a = 239 /\ byte_val b = 191 /\ byte_val c = 189.
Proof.
  assert (encode_rune RuneError = [byte_of 239; byte_of 191; byte_of 189]) as -> by done.
  cbn. split.
  - intros [= -> -> ->]. by rewrite !byte_val_of.
  - intros (<- & <- & <-). by rewrite !byte_of_val.
Qed.

Lemma rune_size_error l : take 3 l <> encode_rune RuneError -> rune_size l RuneError = 1%nat.
Proof. intros H. unfold rune_size. rewrite bool_decide_eq_false_2; [done|congruence]. Qed.

Lemma rune_size_other l r : r <> RuneError -> rune_size l r = length (encode_rune r).
Proof. intros H. unfold rune_size. by rewrite (proj2 (Z.eqb_neq _ _) H). Qed.

Lemma encode_rune_length r :
  length (encode_rune r) =
  if r <? 128 then 1%nat else if r <? 2048 then 2%nat else if r <? 65536 then 3%nat else 4%nat.
Proof. unfold encode_rune. by repeat case_match. Qed.

Lemma runes_step l r rs :
  runes l = r :: rs -> runes (drop (rune_size l r) l) = rs /\ (1 <= rune_size l r <= length l)%nat.
Proof.
  destruct l as [|a t]; [done|]. cbn [runes]. pose proof (byte_val_range a).
  destruct (byte_val a <? 128) eqn:Ha.
  { intros [= <- <-]. rewrite rune_size_other, encode_rune_length, Ha by (unfold RuneError; lia).
    cbn. split; [done|lia]. }
  destruct t as [|b t1].
  { intros [= <- <-]. rewrite rune_size_error; [cbn; split; [done|lia]|].
    intros E%(f_equal length). done. }
  destruct (in_range 194 _ 223 && _) eqn:H2.
  { intros [= <- <-]. rewrite rune_size_other, encode_rune_length by (unfold RuneError; range_lia).
    replace (_ <? 128) with false by range_lia. replace (_ <? 2048) with true by range_lia.
    cbn. split; [done|lia]. }
  destruct t1 as [|c t2].
  { intros [= <- <-]. rewrite rune_size_error; [cbn [drop length]; split; [done|lia]|].
    intros E%(f_equal length). done. }
  destruct (in_range 224 _ 239 && _ && _) eqn:H3.
  { intros [= <- <-]. set (r := _ + _).
    assert (rune_size (a :: b :: c :: t2) r = 3%nat) as ->; [|cbn; split; [done|lia]].
    assert (length (encode_rune r) = 3%nat) as Hr.
    { rewrite encode_rune_length. replace (r <? 128) with false by (subst r; range_lia).
      replace (r <? 2048) with false by (subst r; range_lia).
      by replace (r <? 65536) with true by (subst r; range_lia). }
    unfold rune_size. destruct (Z.eqb_spec r RuneError); [|done].
    rewrite bool_decide_eq_true_2; [done|]. apply rune_error_bytes. subst r.
    unfold RuneError in *. range_lia. }
  assert (take 3 (a :: b :: c :: t2) <> encode_rune RuneError) as H1.
  { rewrite rune_error_bytes. intros (Ea & Eb & Ec). by rewrite Ea, Eb, Ec in H3. }
  destruct t2 as [|d t3].
  { intros [= <- <-]. rewrite rune_size_error by done. cbn [drop length]. split; [done|lia]. }
  destruct (in_range 240 _ 244 && _ && _ && _) eqn:H4.
  { intros [= <- <-]. rewrite rune_size_other, encode_rune_length by (unfold RuneError; range_lia).
    replace (_ <? 128) with false by range_lia. replace (_ <? 2048) with false by range_lia.
    replace (_ <? 65536) with false by range_lia. cbn. split; [done|lia]. }
  intros [= <- <-]. rewrite rune_size_error by done. cbn [drop length]. split; [done|lia].
Qed.

Lemma unescape_plain r t : r <> 92 -> unescape (r :: t) = r :: unescape t.
Proof. intros H. destruct r as [|p|p]; [done| |done]. by do 7 (destruct p as [p|p|]; try done). Qed.

(** A byte a literal holds as it is. *)
Definition plain (a : ascii) : Prop := 32 <= byte_val a /\ byte_val a <> 34 /\ byte_val a <> 92.

Lemma string_lit_plain a l :
  plain a -> string_lit (a :: l) = and_then (string_lit l) (fun x r => Ok (a :: x, r)).
Proof.
  intros (H1 & H2 & H3). cbn [string_lit].
  destruct (Ascii.eqb_spec a dquote) as [->|_]; [done|].
  destruct (Ascii.eqb_spec a backslash) as [->|_]; [done|].
  by replace (byte_val a <? 32) with false by lia.
Qed.

Definition prefix_literal (p : bytes) : Prop := forall l,
  string_lit (p ++ l) = and_then (string_lit l) (fun x r => Ok (p ++ x, r)).

Lemma plain_prefix p : Forall plain p -> prefix_literal p.
Proof.
  induction 1 as [|a p Ha _ IH]; intros l; cbn [app].
  { by destruct (string_lit l) as [[]|]. }
  rewrite string_lit_plain by done. rewrite IH. by destruct (string_lit l) as [[]|].
Qed.

Lemma encode_rune_plain r :
  valid_rune r = true -> 32 <= r -> r <> 34 -> r <> 92 -> Forall plain (encode_rune r).
Proof.
  intros Hv H1 H2 H3. unfold encode_rune.
  destruct (r <? 128) eqn:?.
  { repeat constructor; rewrite byte_val_of, Z.mod_small by lia; lia. }
  assert (forall z, 128 <= z < 256 -> plain (byte_of z)) as Hb.
  { intros z Hz. unfold plain. rewrite byte_val_of, Z.mod_small by lia. lia. }
  assert (r / 4096 = r / 64 / 64) as Hd by (rewrite Z.div_div by lia; done).
  assert (r / 262144 = r / 64 / 64 / 64) as Hd' by (rewrite !Z.div_div by lia; done).
  pose proof (Z.div_mod r 64). pose proof (Z.mod_pos_bound r 64).
  pose proof (Z.div_mod (r / 64) 64). pose proof (Z.mod_pos_bound (r / 64) 64).
  pose proof (Z.div_mod (r / 64 / 64) 64). pose proof (Z.mod_pos_bound (r / 64 / 64) 64).
  rewrite Hd, Hd'. assert (r <= 1114111) by range_lia.
  destruct (r <? 2048) eqn:?; [|destruct (r <? 65536) eqn:?]; repeat constructor; apply Hb; lia.
Qed.

Lemma hex_lower_val d : 0 <= d < 16 -> hex_val (byte_val (hex_lower d)) = d.
Proof.
  intros H. unfold hex_lower. rewrite byte_val_of.
  unfold hex_val. destruct (d <? 10) eqn:?; rewrite Z.mod_small by lia; range_lia.
Qed.

Lemma hex_lower_ascii d : 0 <= d < 16 -> byte_val (hex_lower d) < 128 /\ is_hex (hex_lower d) = true.
Proof.
  intros H. unfold is_hex. unfold hex_lower. rewrite byte_val_of.
  destruct (d <? 10) eqn:?; rewrite Z.mod_small by lia; split; range_lia.
Qed.

Lemma hex_digits r :
  0 <= r < 65536 ->
  0 <= r / 4096 < 16 /\ 0 <= r / 256 mod 16 < 16 /\ 0 <= r / 16 mod 16 < 16 /\ 0 <= r mod 16 < 16 /\
  r / 4096 * 4096 + (r / 256 mod 16) * 256 + (r / 16 mod 16) * 16 + r mod 16 = r.
Proof.
  intros H. pose proof (Z.mod_pos_bound r 16). pose proof (Z.mod_pos_bound (r / 16) 16).
  pose proof (Z.mod_pos_bound (r / 256) 16).
  assert (r / 256 = r / 16 / 16) as E1 by (rewrite Z.div_div by lia; done).
  assert (r / 4096 = r / 256 / 16) as E2 by (rewrite Z.div_div by lia; done).
  pose proof (Z.div_mod r 16). pose proof (Z.div_mod (r / 16) 16). pose proof (Z.div_mod (r / 256) 16).
  lia.
Qed.

Lemma runes_ascii a l : byte_val a < 128 -> runes (a :: l) = byte_val a :: runes l.
Proof. intros H. cbn [runes]. by replace (byte_val a <? 128) with true by lia. Qed.

Lemma u_escape_spec r :
  0 <= r < 65536 ->
  prefix_literal (u_escape r) /\ forall l, unescape (runes (u_escape r ++ l)) = r :: unescape (runes l).
Proof.
  intros H. destruct (hex_digits r H) as (H1 & H2 & H3 & H4 & E).
  pose proof (hex_lower_ascii _ H1) as [A1 B1]. pose proof (hex_lower_ascii _ H2) as [A2 B2].
  pose proof (hex_lower_ascii _ H3) as [A3 B3]. pose proof (hex_lower_ascii _ H4) as [A4 B4].
  split; intros l; unfold u_escape; cbn [app].
  - cbn [string_lit]. change (Ascii.eqb backslash dquote) with false.
    change (Ascii.eqb backslash backslash) with true. change (is_escape "u") with false.
    change (Ascii.eqb "u" "u") with true. cbn beta iota.
    rewrite B1, B2, B3, B4. cbn [negb]. done.
  - rewrite !runes_ascii by done. change (byte_val backslash) with 92. change (byte_val "u") with 117.
    cbn [unescape]. rewrite !hex_lower_val by done. by rewrite E.
Qed.

Lemma quote_rune_spec r :
  valid_rune r = true ->
  prefix_literal (quote_rune r) /\
  forall l, unescape (runes (quote_rune r ++ l)) = r :: unescape (runes l).
Proof.
  intros Hv. unfold quote_rune.
  destruct ((r =? 34) || (r =? 92)) eqn:E0.
  { apply orb_prop in E0 as [->%Z.eqb_eq | ->%Z.eqb_eq]; by split. }
  destruct (Z.eqb_spec r 8) as [->|_]; [by split|].
  destruct (Z.eqb_spec r 12) as [->|_]; [by split|].
  destruct (Z.eqb_spec r 10) as [->|_]; [by split|].
  destruct (Z.eqb_spec r 13) as [->|_]; [by split|].
  destruct (Z.eqb_spec r 9) as [->|_]; [by split|].
  destruct ((r <? 32) || _ || _ || _ || _ || _) eqn:E1.
  { apply u_escape_spec. range_lia. }
  split.
  - apply plain_prefix, encode_rune_plain; [done|lia..].
  - intros l. rewrite runes_encode by done. apply unescape_plain. lia.
Qed.

Lemma join_surrogates_valid rs :
  Forall (fun r => valid_rune r = true) rs -> join_surrogates rs = rs.
Proof.
  induction 1 as [|r rs Hr _ IH]; [done|]. cbn.
  replace (is_surrogate r) with false by (unfold is_surrogate; range_lia). cbn. by rewrite IH.
Qed.

Lemma quote_bytes_spec fuel l :
  (length l <= fuel)%nat ->
  unescape (runes (quote_bytes fuel l)) = runes l /\ prefix_literal (quote_bytes fuel l).
Proof.
  revert l. induction fuel as [|fuel IH]; intros l Hl.
  { destruct l; [|cbn in Hl; lia]. split; [done|]. by apply plain_prefix. }
  cbn [quote_bytes]. pose proof (runes_valid l) as Hv.
  destruct (runes l) as [|r rs] eqn:E; [split; [done|by apply plain_prefix]|].
  destruct (runes_step l r rs E) as [Hd Hn]. apply Forall_cons in Hv as [Hr _].
  destruct (IH (drop (rune_size l r) l)) as [Hu Hp]; [rewrite length_drop; lia|].
  rewrite Hd in Hu.
  assert (forall p, prefix_literal p ->
    (forall l', unescape (runes (p ++ l')) = r :: unescape (runes l')) ->
    let q := p ++ quote_bytes fuel (drop (rune_size l r) l) in
    unescape (runes q) = r :: rs /\ prefix_literal q) as H.
  { intros p H1 H2. cbn zeta. split; [by rewrite H2, Hu|]. intros l'.
    rewrite <- app_assoc, H1, Hp. destruct (string_lit l') as [[]|]; [|done].
    cbn. by rewrite <- app_assoc. }
  destruct ((r =? RuneError) && _) eqn:Er.
  - apply andb_prop in Er as [->%Z.eqb_eq _].
    destruct (u_escape_spec RuneError) as [H1 H2]; [done|]. by apply H.
  - destruct (quote_rune_spec r Hr) as [H1 H2]. by apply H.
Qed.

Lemma to_bytes_length s : length (to_bytes s) = String.length s.
Proof. induction s as [|a s IH]; cbn; [done|by rewrite IH]. Qed.

(** A string written as a literal is a literal, and is read back as its runes:
    itself when it is well-formed UTF-8. *)
Lemma unquote_quote s : unquote (quote s) = of_bytes (encode_runes (runes (to_bytes s))).
Proof.
  unfold unquote, quote. destruct (quote_bytes_spec (String.length s) (to_bytes s)) as [H _].
  { by rewrite to_bytes_length. }
  rewrite H, join_surrogates_valid; [done|apply runes_valid].
Qed.

Lemma quote_lit_ok s : lit_ok (quote s).
Proof.
  intros r. unfold quote. destruct (quote_bytes_spec (String.length s) (to_bytes s)) as [_ H].
  { by rewrite to_bytes_length. }
  rewrite H. by cbn; rewrite app_nil_r.
Qed.

Definition valid_utf8 (s : string) : Prop :=
  of_bytes (encode_runes (runes (to_bytes s))) = s.
