(* ===== verification/GoJsonMap.v ===== *)
(** * Laws of encoding/json, continued: escaping and maps

    HTML escaping keeps a value well formed and is a projection; a decoded key
    is well-formed UTF-8; a map written by [json.Marshal] reads back as itself; a printed number is a
    number literal. *)
From stdpp Require Import pretty.
From S2P Require Import Prelude GoString GoUnicode GoJson GoJsonLaws.

Open Scope Z_scope.

(** ** HTML escaping keeps JSON well formed and is a projection *)

(** Bytes that [html_escape] copies. *)
Definition copied (a : ascii) : Prop :=
  byte_val a <> 60 /\ byte_val a <> 62 /\ byte_val a <> 38 /\ byte_val a <> 226.

Lemma html_copied a l : copied a -> html_escape (a :: l) = a :: html_escape l.
Proof.
  intros (H1 & H2 & H3 & H4). cbn [html_escape].
  apply Z.eqb_neq in H1, H2, H3, H4. rewrite H1, H2, H3, H4. by destruct l as [|b [|c l]].
Qed.

Lemma ascii_copied a : (byte_val a <= 37 \/ 39 <= byte_val a <= 59 \/ byte_val a = 61 \/ 63 <= byte_val a <= 225) -> copied a.
Proof. unfold copied. lia. Qed.

Lemma hex_copied a : is_hex a = true -> copied a.
Proof. intros H. apply ascii_copied. unfold is_hex in H. range_lia. Qed.

Lemma escape_copied a : is_escape a = true -> copied a.
Proof.
  unfold is_escape. rewrite bool_decide_eq_true. cbn -[elem_of].
  intros H. repeat (apply elem_of_cons in H as [->|H]; [by vm_compute|]). by apply elem_of_nil in H.
Qed.

Lemma u_escape_copied r l : 0 <= r < 65536 -> html_escape (u_escape r ++ l) = u_escape r ++ html_escape l.
Proof.
  intros H. destruct (hex_digits r H) as (H1 & H2 & H3 & H4 & _). unfold u_escape. cbn [app].
  rewrite !html_copied; try done; try (by vm_compute); by apply hex_copied, hex_lower_ascii.
Qed.

(** How one step of the escaping goes. *)
Inductive html_step : bytes -> Prop :=
| html_end : html_step []
| html_special a t : (byte_val a = 60 \/ byte_val a = 62 \/ byte_val a = 38) ->
    html_escape (a :: t) = u_escape (byte_val a) ++ html_escape t -> html_step (a :: t)
| html_line a b c t : byte_val a = 226 -> byte_val b = 128 -> (byte_val c = 168 \/ byte_val c = 169) ->
    html_escape (a :: b :: c :: t) = u_escape (8192 + (byte_val c - 128)) ++ html_escape t ->
    html_step (a :: b :: c :: t)
| html_copy a t : ~ (byte_val a = 60 \/ byte_val a = 62 \/ byte_val a = 38) ->
    ~ (byte_val a = 226 /\ exists b c u, t = b :: c :: u /\ byte_val b = 128 /\ (byte_val c = 168 \/ byte_val c = 169)) ->
    html_escape (a :: t) = a :: html_escape t -> html_step (a :: t).

Lemma html_step_of l : html_step l.
Proof.
  destruct l as [|a t]; [constructor|].
  destruct ((byte_val a =? 60) || (byte_val a =? 62) || (byte_val a =? 38)) eqn:E1.
  { apply html_special; [lia|]. cbn [html_escape]. by rewrite E1. }
  assert (~ (byte_val a = 60 \/ byte_val a = 62 \/ byte_val a = 38)) as Hs by lia.
  destruct t as [|b [|c t]].
  - apply html_copy; [done| |cbn [html_escape]; by rewrite E1]. by intros (_ & ? & ? & ? & ? & _).
  - apply html_copy; [done| |]; [by intros (_ & ? & ? & ? & ? & _)|]. cbn [html_escape]. by rewrite E1.
  - destruct ((byte_val a =? 226) && (byte_val b =? 128) && ((byte_val c =? 168) || (byte_val c =? 169))) eqn:E2.
    + apply html_line; [lia..|]. cbn [html_escape]. rewrite E1. by rewrite E2.
    + apply html_copy; [done| |].
      * intros (? & b' & c' & u & [= <- <- <-] & ? & ?). lia.
      * cbn [html_escape]. rewrite E1. by rewrite E2.
Qed.

(** The first bytes of the escaped text. *)
Lemma html_second c l b u :
  html_escape (c :: l) = b :: u -> b = c \/ b = backslash.
Proof.
  remember (c :: l) as k eqn:Ek. destruct (html_step_of k) as [|a t _ E|a b' c' t _ _ _ E|a t _ _ E];
    [done|..]; injection Ek as -> Et; rewrite E; unfold u_escape; cbn; intros [= <- _]; auto.
Qed.

Lemma html_escape_idem l : html_escape (html_escape l) = html_escape l.
Proof.
  induction l as [l IH] using runes_ind.
  destruct (html_step_of l) as [|a t Ha E|a b c t Ha Hb Hc E|a t Hn Hl E]; [done|..]; rewrite E.
  - rewrite u_escape_copied by lia. by rewrite IH by (cbn; lia).
  - rewrite u_escape_copied by lia. by rewrite IH by (cbn; lia).
  - assert (html_escape (a :: html_escape t) = a :: html_escape (html_escape t)) as ->;
      [|by rewrite IH by (cbn; lia)].
    remember (a :: html_escape t) as k eqn:Ek.
    destruct (html_step_of k) as [|a' t' Ha' _|a' b' c' t' Ha' Hb' Hc' _|a' t' _ _ E']; [done|..].
    + injection Ek as -> _. lia.
    + exfalso. injection Ek as -> Et. apply Hl. split; [done|].
      destruct t as [|b0 t0]; [done|]. destruct (html_second _ _ _ _ (eq_sym Et)) as [->| ->]; [|done].
      rewrite html_copied in Et by (apply ascii_copied; lia). injection Et as Et.
      destruct t0 as [|c0 t1]; [done|]. destruct (html_second _ _ _ _ (eq_sym Et)) as [->| ->].
      * by exists b0, c0, t1.
      * change (byte_val backslash) with 92 in Hc'. lia.
    + injection Ek as -> ->. done.
Qed.

Lemma prefix_lit_ok p x : prefix_literal p -> lit_ok x -> lit_ok (p ++ x).
Proof.
  intros Hp Hx r. rewrite <- app_assoc, Hp. rewrite Hx. done.
Qed.

(** A literal without its first byte, escape or escaped rune. *)
Inductive lit_step : bytes -> Prop :=
| lit_end : lit_step []
| lit_letter e x : is_escape e = true -> lit_ok x -> lit_step (backslash :: e :: x)
| lit_hex h1 h2 h3 h4 x : is_hex h1 = true -> is_hex h2 = true -> is_hex h3 = true -> is_hex h4 = true ->
    lit_ok x -> lit_step (backslash :: "u"%char :: h1 :: h2 :: h3 :: h4 :: x)
| lit_plain a x : plain a -> lit_ok x -> lit_step (a :: x).

Lemma lit_step_of x : lit_ok x -> lit_step x.
Proof.
  intros H. destruct x as [|a t]; [constructor|].
  assert (Ha := H []). cbn [app string_lit] in Ha.
  destruct (Ascii.eqb_spec a dquote) as [->|Hq]; [done|].
  destruct (Ascii.eqb_spec a backslash) as [->|Hb].
  - destruct t as [|b t]; [by vm_compute in Ha|]. cbn [app] in Ha.
    destruct (is_escape b) eqn:Eb.
    { apply and_then_ok in Ha as (y & q & Hy & [= -> _]). apply string_lit_local in Hy as [_ Hy]. by constructor. }
    destruct (Ascii.eqb_spec b "u") as [->|]; [|done].
    destruct t as [|h1 t]; [by vm_compute in Ha|]. cbn [app] in Ha. destruct (is_hex h1) eqn:E1; [|done].
    destruct t as [|h2 t]; [by vm_compute in Ha|]. cbn [app] in Ha. destruct (is_hex h2) eqn:E2; [|done].
    destruct t as [|h3 t]; [by vm_compute in Ha|]. cbn [app] in Ha. destruct (is_hex h3) eqn:E3; [|done].
    destruct t as [|h4 t]; [by vm_compute in Ha|]. cbn [app] in Ha. destruct (is_hex h4) eqn:E4; [|done].
    cbn [negb] in Ha. apply and_then_ok in Ha as (y & q & Hy & [= -> _]).
    apply string_lit_local in Hy as [_ Hy]. by constructor.
  - destruct (byte_val a <? 32) eqn:E; [done|].
    apply and_then_ok in Ha as (y & q & Hy & [= -> _]). apply string_lit_local in Hy as [_ Hy].
    constructor; [|done]. split; [lia|]. rewrite <- (byte_of_val a) in Hq, Hb.
    split; intros E'; rewrite E' in Hq, Hb; [by apply Hq|by apply Hb].
Qed.

Lemma lit_tail d u : 128 <= byte_val d -> lit_ok (d :: u) -> lit_ok u.
Proof.
  intros Hd Hu. remember (d :: u) as w eqn:Ew.
  destruct (lit_step_of w Hu) as [|e z _ _|h1 h2 h3 h4 z _ _ _ _ _|d' z _ Hz]; [done|..];
    injection Ew; [intros _ <-; by change (byte_val backslash) with 92 in Hd..|by intros -> ->].
Qed.

Lemma html_lit_ok x : lit_ok x -> lit_ok (html_escape x).
Proof.
  induction x as [x IH] using runes_ind. intros Hx.
  destruct (lit_step_of x Hx) as [|e y He Hy|h1 h2 h3 h4 y H1 H2 H3 H4 Hy|a y Ha Hy]; [done|..].
  - rewrite (html_copied backslash) by (by vm_compute). rewrite (html_copied e) by (by apply escape_copied).
    intros r. cbn [app string_lit]. change (Ascii.eqb backslash dquote) with false. change (Ascii.eqb backslash backslash) with true.
    cbn beta iota. rewrite He, (IH y); [done|cbn; lia|done].
  - rewrite (html_copied backslash), (html_copied "u") by (by vm_compute).
    rewrite (html_copied h1), (html_copied h2), (html_copied h3), (html_copied h4) by (by apply hex_copied).
    intros r. cbn [app string_lit]. change (Ascii.eqb backslash dquote) with false. change (Ascii.eqb backslash backslash) with true.
    change (is_escape "u") with false. change (Ascii.eqb "u" "u") with true. cbn beta iota.
    rewrite H1, H2, H3, H4. cbn [negb]. rewrite (IH y); [done|cbn; lia|done].
  - remember (a :: y) as k eqn:Ek.
    destruct (html_step_of k) as [|a' t Hs E|a' b c t Hs Hb Hc E|a' t _ _ E]; [done|..]; rewrite E;
      [injection Ek as -> ->|injection Ek as -> <-|injection Ek as -> ->].
    + apply prefix_lit_ok; [apply u_escape_spec; lia|]. apply IH; [cbn; lia|done].
    + apply prefix_lit_ok; [apply u_escape_spec; lia|]. apply IH; [cbn; lia|].
      apply (lit_tail c), (lit_tail b); lia || done.
    + apply (prefix_lit_ok [a]); [by apply plain_prefix, Forall_singleton|]. apply IH; [cbn; lia|done].
Qed.

(** Induction over the values of arrays and objects. *)
Lemma json_ind_all (P : json -> Prop) :
  P JNull -> (forall b, P (JBool b)) -> (forall x, P (JNum x)) -> (forall x, P (JStr x)) ->
  (forall vs, Forall P vs -> P (JArr vs)) ->
  (forall ms, Forall (fun m : bytes * json => P m.2) ms -> P (JObj ms)) -> forall v, P v.
Proof.
  intros Hnull Hbool Hnum Hstr Harr Hobj. fix IH 1. intros [|b|x|x|vs|ms]; [done|apply Hbool|apply Hnum|apply Hstr|..].
  - apply Harr. induction vs as [|v vs IHvs]; constructor; [apply IH|exact IHvs].
  - apply Hobj. induction ms as [|[k v] ms IHms]; constructor; [apply IH|exact IHms].
Qed.

Lemma escape_html_ok v : forall depth, json_ok depth v -> json_ok depth (escape_html v).
Proof.
  induction v as [|b|x|x|vs IH|ms IH] using json_ind_all; intros depth; cbn [escape_html json_ok]; try done.
  - apply html_lit_ok.
  - destruct depth as [|depth]; [done|]. rewrite !foldr_and, Forall_map. intros H.
    rewrite Forall_forall in *. intros w Hw. apply IH; [done|by apply H].
  - destruct depth as [|depth]; [done|]. rewrite !foldr_and, Forall_map. intros H.
    rewrite Forall_forall in *. intros [k w] Hw. cbn. destruct (H _ Hw) as [Hk Hv]. cbn in Hk, Hv.
    split; [by apply html_lit_ok|]. by apply (IH (k, w)).
Qed.

Lemma escape_html_idem v : escape_html (escape_html v) = escape_html v.
Proof.
  induction v as [|b|x|x|vs IH|ms IH] using json_ind_all; cbn [escape_html]; try done.
  - by rewrite html_escape_idem.
  - f_equal. rewrite map_map. apply map_ext_in. intros w Hw%list_elem_of_In.
    rewrite Forall_forall in IH. by apply IH.
  - f_equal. rewrite map_map. apply map_ext_in. intros [k w] Hw%list_elem_of_In. cbn.
    rewrite html_escape_idem. rewrite Forall_forall in IH. f_equal. by apply (IH (k, w)).
Qed.


(** ** Escaping does not change what a literal says *)
Definition is_cont (a : ascii) : bool := in_range 128 (byte_val a) 191.

(** The continuation bytes a text starts with. *)
Fixpoint conts (l : bytes) : bytes :=
  match l with a :: t => if is_cont a then a :: conts t else [] | [] => [] end.

(** The rune a byte above 127 starts, and how many continuation bytes it takes. *)
Definition rune_head (x : Z) (c : bytes) : option (Z * nat) :=
  match c with
  | [] => None
  | b :: c1 =>
      let y := byte_val b in
      if in_range 194 x 223 then Some ((x - 192) * 64 + (y - 128), 1%nat) else
      match c1 with
      | [] => None
      | c :: c2 =>
          let z := byte_val c in
          if in_range 224 x 239 && in_range (if x =? 224 then 160 else 128) y (if x =? 237 then 159 else 191)
          then Some ((x - 224) * 4096 + (y - 128) * 64 + (z - 128), 2%nat) else
          match c2 with
          | [] => None
          | d :: _ =>
              if in_range 240 x 244 && in_range (if x =? 240 then 144 else 128) y (if x =? 244 then 143 else 191)
              then Some ((x - 240) * 262144 + (y - 128) * 4096 + (z - 128) * 64 + (byte_val d - 128), 3%nat)
              else None
          end
      end
  end.

Lemma runes_conts a y : 128 <= byte_val a ->
  runes (a :: y) = match rune_head (byte_val a) (conts y) with
                   | Some (r, n) => r :: runes (drop n y)
                   | None => RuneError :: runes y
                   end.
Proof.
  intros Ha. cbn [runes]. replace (byte_val a <? 128) with false by lia.
  destruct y as [|b t1]; [done|]. cbn [conts]. unfold is_cont at 1.
  destruct (in_range 128 (byte_val b) 191) eqn:Eb.
  2: { rewrite andb_false_r. destruct t1 as [|c t2]; [done|].
       replace (in_range 224 _ 239 && _ && _) with false by (symmetry; range_lia).
       destruct t2 as [|d t3]; [done|].
       by replace (in_range 240 _ 244 && _ && _ && _) with false by (symmetry; range_lia). }
  rewrite andb_true_r. cbn [rune_head]. destruct (in_range 194 (byte_val a) 223) eqn:E1; [done|].
  destruct t1 as [|c t2]; [done|]. cbn [conts]. unfold is_cont at 1.
  destruct (in_range 128 (byte_val c) 191) eqn:Ec.
  2: { rewrite andb_false_r. destruct t2 as [|d t3]; [done|].
       replace (in_range 240 _ 244 && _ && _ && _) with false; [done|]. by rewrite andb_false_r. }
  rewrite andb_true_r. destruct (in_range 224 (byte_val a) 239 && _) eqn:E2; [done|].
  destruct t2 as [|d t3]; [done|]. cbn [conts]. unfold is_cont at 1.
  destruct (in_range 128 (byte_val d) 191) eqn:Ed; [|by rewrite andb_false_r].
  rewrite !andb_true_r. by destruct (in_range 240 (byte_val a) 244 && _).
Qed.

Lemma rune_head_spec x c r n : rune_head x c = Some (r, n) -> Forall (fun b => is_cont b = true) c ->
  128 <= r <= 1114111 /\ (n <= length c)%nat.
Proof.
  intros H Hc. destruct Hc as [|b c1 Hb [|c c2 Hc [|d c3 Hd _]]]; unfold is_cont in *; cbn [rune_head] in H; try done.
  - destruct (in_range 194 x 223) eqn:E; [|done]. injection H as <- <-. cbn. split; [range_lia|lia].
  - destruct (in_range 194 x 223) eqn:E; [|destruct (_ && _) eqn:E2; [|done]]; injection H as <- <-; cbn; (split; [range_lia|lia]).
  - destruct (in_range 194 x 223) eqn:E; [|destruct (_ && _) eqn:E2; [|destruct (in_range 240 x 244 && _) eqn:E3; [|done]]];
      injection H as <- <-; cbn; (split; [range_lia|lia]).
Qed.

Lemma conts_all l : Forall (fun b => is_cont b = true) (conts l).
Proof. induction l as [|a l IH]; cbn; [constructor|]. destruct (is_cont a) eqn:E; by constructor. Qed.

Lemma cont_copied a : is_cont a = true -> copied a.
Proof. intros H. apply ascii_copied. unfold is_cont in H. range_lia. Qed.

Lemma conts_html l : conts (html_escape l) = conts l.
Proof.
  induction l as [l IH] using runes_ind. destruct (html_step_of l) as [|a t Ha E|a b c t Ha Hb Hc E|a t _ _ E];
    [done|..]; rewrite E; cbn [conts].
  - replace (is_cont a) with false by (unfold is_cont; symmetry; range_lia). by vm_compute.
  - replace (is_cont a) with false by (unfold is_cont; symmetry; range_lia). by vm_compute.
  - destruct (is_cont a); [|done]. by rewrite IH by (cbn; lia).
Qed.

Lemma drop_html n l : (n <= length (conts l))%nat -> drop n (html_escape l) = html_escape (drop n l).
Proof.
  revert l. induction n as [|n IH]; intros l Hn; [done|]. destruct l as [|a l]; [done|]. cbn [conts] in Hn.
  destruct (is_cont a) eqn:E; [|cbn in Hn; lia]. rewrite html_copied by (by apply cont_copied).
  cbn in *. apply IH. lia.
Qed.

Lemma drop_lit n l : (n <= length (conts l))%nat -> lit_ok l -> lit_ok (drop n l).
Proof.
  revert l. induction n as [|n IH]; intros l Hn Hl; [done|]. destruct l as [|a l]; [done|]. cbn [conts] in Hn.
  destruct (is_cont a) eqn:E; [|cbn in Hn; lia]. cbn in *. apply IH; [lia|]. apply (lit_tail a); [|done].
  unfold is_cont in E. range_lia.
Qed.

(** ** A decoded key is well-formed UTF-8 *)
Definition point (r : Z) : Prop := 0 <= r <= 1114111.

Lemma hex_val_range a : is_hex a = true -> 0 <= hex_val (byte_val a) <= 15.
Proof. unfold is_hex, hex_val. range_lia. Qed.

Lemma unescape_points l : lit_ok l -> Forall point (unescape (runes l)).
Proof.
  induction l as [l IH] using runes_ind. intros Hl.
  destruct (lit_step_of l Hl) as [|e y He Hy|h1 h2 h3 h4 y H1 H2 H3 H4 Hy|a y Ha Hy]; [constructor|..].
  - assert (Forall point (unescape (runes y))) as Hp by (apply IH; [cbn; lia|done]).
    unfold is_escape in He. rewrite bool_decide_eq_true in He. cbn -[elem_of] in He.
    rewrite runes_ascii by (by vm_compute).
    repeat (apply elem_of_cons in He as [->|He];
      [rewrite runes_ascii by (by vm_compute); cbn; constructor; [by vm_compute|done]|]).
    by apply elem_of_nil in He.
  - assert (Forall point (unescape (runes y))) as Hp by (apply IH; [cbn; lia|done]).
    assert (forall h, is_hex h = true -> byte_val h < 128) as Hh by (unfold is_hex; intros h; range_lia).
    rewrite (runes_ascii backslash), (runes_ascii "u") by (by vm_compute).
    rewrite (runes_ascii h1), (runes_ascii h2), (runes_ascii h3), (runes_ascii h4) by (by apply Hh).
    change (byte_val backslash) with 92. change (byte_val "u") with 117. cbn [unescape].
    apply hex_val_range in H1, H2, H3, H4. constructor; [unfold point; lia|done].
  - destruct Ha as (Ha1 & Ha2 & Ha3). destruct (Z.ltb_spec (byte_val a) 128) as [Hs|Hs].
    { rewrite runes_ascii, unescape_plain by done. constructor; [unfold point; lia|].
      apply IH; [cbn; lia|done]. }
    rewrite runes_conts by done. destruct (rune_head _ _) as [[r n]|] eqn:E.
    + destruct (rune_head_spec _ _ _ _ E (conts_all y)) as [Hr Hn].
      rewrite unescape_plain by lia. constructor; [unfold point; lia|].
      apply IH; [cbn; rewrite length_drop; lia|]. by apply drop_lit.
    + rewrite unescape_plain by done. constructor; [by unfold point, RuneError; lia|]. apply IH; [cbn; lia|done].
Qed.

Lemma join_points rs : Forall point rs -> Forall (fun r => valid_rune r = true) (join_surrogates rs).
Proof.
  remember (length rs) as n eqn:Hn. revert rs Hn. induction n as [n IH] using lt_wf_ind. intros rs -> Hrs.
  destruct Hrs as [|r t Hr Ht]; [constructor|]. cbn [join_surrogates].
  unfold is_surrogate, point in *. destruct (in_range 55296 r 57343) eqn:E; cbn [negb].
  - destruct Ht as [|r2 t2 Hr2 Ht2]; [by repeat constructor|].
    destruct (in_range 55296 r 56319 && _) eqn:E2; (constructor; [|eapply IH; [|done|]; [cbn; lia|]]);
      [range_lia|done|done|by constructor].
  - constructor; [range_lia|]. eapply IH; [|done|done]. cbn. lia.
Qed.

Lemma unquote_utf8 l : lit_ok l -> valid_utf8 (unquote l).
Proof.
  intros H. unfold valid_utf8, unquote. rewrite list_ascii_of_string_of_list_ascii, runes_encode_runes; [done|].
  by apply join_points, unescape_points.
Qed.

(** ** What an escaped literal says *)
Lemma unescape_letter e : is_escape e = true ->
  exists r, forall l', unescape (runes (backslash :: e :: l')) = r :: unescape (runes l').
Proof.
  intros He. unfold is_escape in He. rewrite bool_decide_eq_true in He. cbn -[elem_of] in He.
  repeat (apply elem_of_cons in He as [->|He];
    [eexists; intros l'; rewrite (runes_ascii backslash) by (by vm_compute);
     rewrite runes_ascii by (by vm_compute); cbn; reflexivity|]).
  by apply elem_of_nil in He.
Qed.

Lemma unescape_hex h1 h2 h3 h4 l :
  is_hex h1 = true -> is_hex h2 = true -> is_hex h3 = true -> is_hex h4 = true ->
  unescape (runes (backslash :: "u"%char :: h1 :: h2 :: h3 :: h4 :: l)) =
  (hex_val (byte_val h1) * 4096 + hex_val (byte_val h2) * 256 + hex_val (byte_val h3) * 16 + hex_val (byte_val h4))
    :: unescape (runes l).
Proof.
  intros H1 H2 H3 H4.
  assert (forall h, is_hex h = true -> byte_val h < 128) as Hh by (unfold is_hex; intros h; range_lia).
  rewrite (runes_ascii backslash), (runes_ascii "u") by (by vm_compute).
  by rewrite (runes_ascii h1), (runes_ascii h2), (runes_ascii h3), (runes_ascii h4) by (by apply Hh).
Qed.

Lemma unescape_html l : lit_ok l -> unescape (runes (html_escape l)) = unescape (runes l).
Proof.
  induction l as [l IH] using runes_ind. intros Hl.
  destruct (lit_step_of l Hl) as [|e y He Hy|h1 h2 h3 h4 y H1 H2 H3 H4 Hy|a y Ha Hy]; [done|..].
  - rewrite (html_copied backslash) by (by vm_compute). rewrite (html_copied e) by (by apply escape_copied).
    destruct (unescape_letter e He) as [r Hr]. rewrite !Hr. by rewrite IH by (cbn; lia || done).
  - rewrite (html_copied backslash), (html_copied "u") by (by vm_compute).
    rewrite (html_copied h1), (html_copied h2), (html_copied h3), (html_copied h4) by (by apply hex_copied).
    rewrite !unescape_hex by done. by rewrite IH by (cbn; lia || done).
  - destruct Ha as (Ha1 & Ha2 & Ha3). remember (a :: y) as k eqn:Ek.
    destruct (html_step_of k) as [|a' t Hs E|a' b c t Hs Hb Hc E|a' t _ _ E]; [done|..]; rewrite E.
    + injection Ek as -> ->. rewrite (proj2 (u_escape_spec (byte_val a) ltac:(lia))).
      rewrite runes_ascii, unescape_plain by lia. by rewrite IH by (cbn; lia || done).
    + injection Ek as -> <-. rewrite (proj2 (u_escape_spec (8192 + (byte_val c - 128)) ltac:(lia))).
      rewrite runes_conts by lia. cbn [conts]. rewrite Hs.
      replace (is_cont b) with true by (unfold is_cont; symmetry; range_lia).
      replace (is_cont c) with true by (unfold is_cont; symmetry; range_lia). cbn [rune_head]. rewrite Hb.
      change (in_range 194 226 223) with false. change (in_range 224 226 239 && _) with true. cbn [drop].
      rewrite unescape_plain by lia. rewrite IH; [f_equal; lia|cbn; lia|].
      apply (lit_tail c), (lit_tail b); lia || done.
    + injection Ek as -> ->. destruct (Z.ltb_spec (byte_val a) 128) as [Hs|Hs].
      { rewrite !runes_ascii, !unescape_plain by done. by rewrite IH by (cbn; lia || done). }
      rewrite !runes_conts, conts_html by done. destruct (rune_head _ _) as [[r n]|] eqn:Er.
      * destruct (rune_head_spec _ _ _ _ Er (conts_all y)) as [Hr Hn].
        rewrite drop_html, !unescape_plain by lia.
        rewrite IH; [done|cbn; rewrite length_drop; lia|by apply drop_lit].
      * rewrite !unescape_plain by done. by rewrite IH by (cbn; lia || done).
Qed.

Lemma unquote_html l : lit_ok l -> unquote (html_escape l) = unquote l.
Proof. intros H. unfold unquote. by rewrite unescape_html. Qed.

(** ** Writing a map and reading it back *)
Lemma insert_members (f : string -> json) (ks : list string) (acc : gmap string json) x :
  Forall valid_utf8 ks ->
  foldl (fun acc (m : bytes * json) => <[unquote m.1 := m.2]> acc) acc (map (fun k => (quote k, f k)) ks) !! x =
  if bool_decide (x ∈ ks) then Some (f x) else acc !! x.
Proof.
  intros H. revert acc. induction H as [|k ks Hk _ IH]; intros acc; cbn [map foldl]; [done|].
  rewrite IH. cbn [fst snd]. rewrite unquote_quote, Hk. case_bool_decide as E1.
  { rewrite bool_decide_eq_true_2 by (by apply list_elem_of_further). done. }
  destruct (decide (x = k)) as [->|Hne].
  - rewrite lookup_insert_eq, bool_decide_eq_true_2 by (by apply list_elem_of_here). done.
  - rewrite lookup_insert_ne by done. rewrite bool_decide_eq_false_2; [done|]. by rewrite not_elem_of_cons.
Qed.

Definition utf8_keys (m : gmap string json) : Prop := forall k v, m !! k = Some v -> valid_utf8 k.

Lemma dec_marshal_map m : utf8_keys m -> dec_map (marshal_map m) = Ok m.
Proof.
  intros Hk. unfold marshal_map, dec_map. f_equal. apply map_eq. intros x.
  assert (forall k, k ∈ SortStrings (map fst (map_to_list m)) <-> is_Some (m !! k)) as Hin.
  { intros k. rewrite SortStrings_Permutation, list_elem_of_fmap. split.
    - intros ([k' v] & -> & H%elem_of_map_to_list). by exists v.
    - intros [v Hv]. exists (k, v). split; [done|]. by apply elem_of_map_to_list. }
  rewrite insert_members.
  - case_bool_decide as E.
    + apply Hin in E as [v ->]. done.
    + symmetry. rewrite lookup_empty. apply eq_None_not_Some. by rewrite <- Hin.
  - apply Forall_forall. intros k [v Hv]%Hin. by eapply Hk.
Qed.

Lemma marshal_map_ok depth m : (forall k v, m !! k = Some v -> json_ok depth v) -> json_ok (S depth) (marshal_map m).
Proof.
  intros H. cbn [json_ok marshal_map]. apply foldr_and. apply Forall_map, Forall_forall. intros k _. cbn.
  split; [apply quote_lit_ok|]. destruct (m !! k) as [v|] eqn:E; cbn; [by eapply H|by destruct depth].
Qed.

Lemma dec_map_sound depth v document : json_ok (S depth) v -> dec_map v = Ok document ->
  utf8_keys document /\ forall k w, document !! k = Some w -> json_ok depth w.
Proof.
  intros Hv. destruct v as [| | | | |ms]; cbn [dec_map]; try done.
  { intros [= <-]. by split; intros k w H; rewrite lookup_empty in H. }
  cbn [json_ok] in Hv. apply foldr_and in Hv.
  enough (forall acc : gmap string json,
    (utf8_keys acc /\ forall k w, acc !! k = Some w -> json_ok depth w) ->
    let m := foldl (fun acc m => <[unquote m.1 := m.2]> acc) acc ms in
    utf8_keys m /\ forall k w, m !! k = Some w -> json_ok depth w) as H.
  { intros [= <-]. apply H. by split; intros k w Hk; rewrite lookup_empty in Hk. }
  induction Hv as [|[l w] ms [Hl Hw] _ IH]; intros acc [Ha1 Ha2]; cbn [foldl]; [done|]. apply IH. cbn [fst snd] in *.
  split; intros k x [[<- <-]|[_ Hk]]%lookup_insert_Some; eauto using unquote_utf8.
Qed.

(** ** A positive number is a JSON number *)
Lemma pretty_char_digit x : (x < 10)%N -> is_digit (pretty_N_char x) = true.
Proof.
  intros H. destruct x as [|p]; [done|]. do 4 (destruct p as [p|p|]; try done); lia.
Qed.

Lemma pretty_char_nonzero x : (0 < x < 10)%N -> pretty_N_char x <> "0"%char.
Proof. intros H. destruct x as [|p]; [lia|]. do 4 (destruct p as [p|p|]; try done); lia. Qed.

Lemma pretty_digits x s : (0 < x)%N ->
  exists d ds, to_bytes (pretty_N_go x s) = d :: ds ++ to_bytes s /\ d <> "0"%char /\
    Forall (fun a => is_digit a = true) (d :: ds).
Proof.
  revert s. induction x as [x IH] using (well_founded_induction N.lt_wf_0). intros s Hx.
  rewrite pretty_N_go_step by done.
  pose proof (N.mod_upper_bound x 10 ltac:(done)) as Hm.
  destruct (N.eq_dec (x / 10)%N 0%N) as [E|E].
  - rewrite E, pretty_N_go_0. exists (pretty_N_char (x `mod` 10)%N), []. split; [done|].
    pose proof (N.div_mod x 10 ltac:(done)). split; [apply pretty_char_nonzero; lia|].
    repeat constructor. by apply pretty_char_digit.
  - assert (0 < x / 10)%N as Hq by (by apply N.neq_0_lt_0).
    destruct (IH (x / 10)%N (N.div_lt x 10 Hx eq_refl) (String (pretty_N_char (x `mod` 10)%N) s) Hq)
      as (d & ds & -> & Hd & Hds).
    exists d, (ds ++ [pretty_N_char (x `mod` 10)%N]). split; [cbn; by rewrite <- app_assoc|].
    split; [done|]. apply Forall_cons in Hds as [H1 H2]. constructor; [done|]. apply Forall_app.
    split; [done|]. repeat constructor. by apply pretty_char_digit.
Qed.

Lemma digits_run ds r : Forall (fun a => is_digit a = true) ds -> stops r -> digits (ds ++ r) = (ds, r).
Proof.
  intros H Hr. induction H as [|d ds Hd _ IH]; cbn [app digits].
  - destruct r as [|b r]; [done|]. cbn [digits]. by destruct Hr as [->|[->|[->| ->]]].
  - by rewrite Hd, IH.
Qed.

Lemma pretty_num_ok n : 0 < n -> num_ok (to_bytes (pretty n)).
Proof.
  intros Hn r Hr. destruct n as [|p|p]; [lia| |lia].
  change (pretty (Z.pos p)) with (pretty_N_go (N.pos p) "").
  destruct (pretty_digits (N.pos p) "" eq_refl) as (d & ds & -> & Hd & Hds).
  cbn [to_bytes]. rewrite app_nil_r. cbn [app number_lit].
  apply Forall_cons in Hds as [Hd1 Hds].
  assert (Ascii.eqb d "-" = false) as ->. { destruct (Ascii.eqb_spec d "-"); [by subst|done]. }
  unfold unsigned. destruct (Ascii.eqb_spec d "0"); [done|]. rewrite Hd1. cbn [digits]. rewrite Hd1.
  rewrite digits_run by done. unfold fraction.
  destruct r as [|b r]; [done|]. destruct Hr as [->|[->|[->| ->]]]; cbn; by rewrite ?app_nil_r.
Qed.

(** ** Nesting *)
Fixpoint json_depth (v : json) : nat :=
  match v with
  | JArr vs => S (list_max (map json_depth vs))
  | JObj ms => S (list_max (map (fun m => json_depth m.2) ms))
  | _ => 0
  end.

Lemma json_ok_depth v : forall d d', json_ok d v -> (json_depth v <= d')%nat -> json_ok d' v.
Proof.
  induction v as [|b|x|x|vs IH|ms IH] using json_ind_all; intros d d' Hv Hd; cbn [json_ok json_depth] in *; try done.
  - destruct d as [|d]; [done|]. destruct d' as [|d']; [lia|]. rewrite foldr_and in *.
    rewrite Forall_forall in *. intros v Hin. apply (IH _ Hin d); [by apply Hv|].
    assert (json_depth v <= list_max (map json_depth vs))%nat; [|lia].
    pose proof (proj1 (list_max_le _ _) (Nat.le_refl (list_max (map json_depth vs)))) as Hm.
    rewrite Forall_map, Forall_forall in Hm. by apply Hm.
  - destruct d as [|d]; [done|]. destruct d' as [|d']; [lia|]. rewrite foldr_and in *.
    rewrite Forall_forall in *. intros m Hin. destruct (Hv _ Hin) as [Hk Hm]. split; [done|].
    apply (IH _ Hin d); [done|].
    pose proof (proj1 (list_max_le _ _) (Nat.le_refl (list_max (map (fun m => json_depth m.2) ms)))) as Hl.
    rewrite Forall_map, Forall_forall in Hl. specialize (Hl _ Hin). cbn in Hl. lia.
Qed.
