(* ===== verification/GoTimeParse.v ===== *)
(** * Reading RFC 3339 times (package time)

    [time.Parse] on the layouts [RFC3339] and [RFC3339Nano] ([lenient]) and the
    strict reading of [Time.UnmarshalJSON], with the calendar both need.  What
    [Format] writes for a year of four digits is read back as the same time. *)
From stdpp Require Import pretty.
From S2P Require Import Prelude GoString GoTime GoUnicode GoJson GoJsonLaws GoJsonMap.

Open Scope Z_scope.

(** ** The calendar, backwards *)

(** The number of days from 1970-01-01 to a date. *)
Definition day_of_civil (y m d : Z) : Z :=
  let y := if m <=? 2 then y - 1 else y in
  let era := y / 400 in
  let yoe := y mod 400 in
  let mp := if m <=? 2 then m + 9 else m - 3 in
  let doy := (153 * mp + 2) / 5 + d - 1 in
  era * 146097 + (yoe * 365 + yoe / 4 - yoe / 100 + doy) - 719468.

Definition is_leap (y : Z) : bool := (y mod 4 =? 0) && (negb (y mod 100 =? 0) || (y mod 400 =? 0)).

Definition days_in (m y : Z) : Z :=
  if m =? 2 then (if is_leap y then 29 else 28)
  else if (m =? 4) || (m =? 6) || (m =? 9) || (m =? 11) then 30 else 31.

Lemma doe_spec doe : 0 <= doe < 146097 ->
  let yoe := (doe - doe / 1460 + doe / 36524 - doe / 146096) / 365 in
  let doy := doe - (365 * yoe + yoe / 4 - yoe / 100) in
  0 <= yoe <= 399 /\ 0 <= doy <= 365 /\ (doy = 365 -> (yoe + 1) mod 4 = 0 /\ ((yoe + 1) mod 100 <> 0 \/ yoe = 399)).
Proof. intros H. cbv zeta. Z.to_euclidean_division_equations. lia. Qed.

Lemma civil_of_day_back z :
  day_of_civil (civil_of_day z).1.1 (civil_of_day z).1.2 (civil_of_day z).2 = z.
Proof.
  unfold civil_of_day. set (doe := (z + 719468) mod 146097). set (era := (z + 719468) / 146097).
  assert (z + 719468 = era * 146097 + doe /\ 0 <= doe < 146097) as [Hz Hd].
  { pose proof (Z.div_mod (z + 719468) 146097 ltac:(lia)). pose proof (Z.mod_pos_bound (z + 719468) 146097 ltac:(lia)).
    subst doe era. lia. }
  clearbody doe era. destruct (doe_spec doe Hd) as (Hy & Hdoy & _). cbv zeta.
  set (yoe := (doe - doe / 1460 + doe / 36524 - doe / 146096) / 365) in *. clearbody yoe.
  set (doy := doe - (365 * yoe + yoe / 4 - yoe / 100)) in *.
  assert (doe = doy + (365 * yoe + yoe / 4 - yoe / 100)) as Hdoe by (subst doy; lia). clearbody doy.
  set (mp := (5 * doy + 2) / 153). assert (0 <= mp <= 11) as Hmp by (subst mp; Z.to_euclidean_division_equations; lia).
  clearbody mp. cbn [fst snd]. unfold day_of_civil.
  assert ((yoe + era * 400) / 400 = era /\ (yoe + era * 400) mod 400 = yoe) as [Hq Hr].
  { split; [rewrite Z.div_add, Z.div_small|rewrite Z.mod_add, Z.mod_small]; lia. }
  destruct (Z.ltb_spec mp 10).
  - replace (mp + 3 <=? 2) with false by lia. replace (mp + 3 - 3) with mp by lia.
    rewrite Z.add_0_r, Hq, Hr. lia.
  - replace (mp - 9 <=? 2) with true by lia. replace (mp - 9 + 9) with mp by lia.
    rewrite Z.add_simpl_r, Hq, Hr. lia.
Qed.

Lemma leap_of_era yoe era : 0 <= yoe <= 399 -> (yoe + 1) mod 4 = 0 -> ((yoe + 1) mod 100 <> 0 \/ yoe = 399) ->
  is_leap (yoe + era * 400 + 1) = true.
Proof.
  intros Hy H4 H. unfold is_leap.
  replace (yoe + era * 400 + 1) with (yoe + 1 + era * 100 * 4) by lia. rewrite Z.mod_add by lia.
  replace (yoe + 1 + era * 100 * 4) with (yoe + 1 + era * 4 * 100) by lia. rewrite Z.mod_add by lia.
  replace (yoe + 1 + era * 4 * 100) with (yoe + 1 + era * 400) by lia. rewrite Z.mod_add by lia.
  rewrite H4. destruct H as [H| ->]; [|done]. apply Z.eqb_neq in H as ->. done.
Qed.

Lemma civil_of_day_valid z y m d : civil_of_day z = (y, m, d) -> 1 <= m <= 12 /\ 1 <= d <= days_in m y.
Proof.
  unfold civil_of_day. set (doe := (z + 719468) mod 146097). set (era := (z + 719468) / 146097).
  assert (0 <= doe < 146097) as Hd by (apply Z.mod_pos_bound; lia).
  clearbody doe era. destruct (doe_spec doe Hd) as (Hy & Hdoy & Hleap). cbv zeta.
  set (yoe := (doe - doe / 1460 + doe / 36524 - doe / 146096) / 365) in *. clearbody yoe.
  set (doy := doe - (365 * yoe + yoe / 4 - yoe / 100)) in *. clearbody doy.
  set (mp := (5 * doy + 2) / 153). intros [= <- <- <-].
  assert (0 <= mp <= 11 /\ mp * 153 <= 5 * doy + 2 < mp * 153 + 153) as [Hmp Hdm]
    by (pose proof (Z.div_mod (5 * doy + 2) 153 ltac:(lia)); pose proof (Z.mod_pos_bound (5 * doy + 2) 153 ltac:(lia));
        subst mp; lia).
  clearbody mp. unfold days_in.
  assert (mp = 0 \/ mp = 1 \/ mp = 2 \/ mp = 3 \/ mp = 4 \/ mp = 5 \/ mp = 6 \/ mp = 7 \/ mp = 8 \/ mp = 9 \/
          mp = 10 \/ mp = 11) as Hcases by lia.
  destruct (Z.eq_dec doy 365) as [E|E].
  - destruct (Hleap E) as [H4 H100]. replace mp with 11 by lia. cbn.
    rewrite leap_of_era by done. rewrite E. done.
  - repeat destruct Hcases as [->|Hcases]; try subst mp;
      (split; [done|]); repeat case_match; clear Hd Hleap; Z.to_euclidean_division_equations; lia.
Qed.

(** ** Decimal digits *)

Definition digit_val (a : ascii) : Z := byte_val a - 48.

(** The number a run of digits stands for. *)
Definition num (l : bytes) : Z := foldl (fun x c => x * 10 + digit_val c) 0 l.

Definition digit_char (d : Z) : ascii := pretty_N_char (Z.to_N d).

(** The last [w] digits of a number. *)
Fixpoint digs (w : nat) (z : Z) : bytes :=
  match w with
  | O => []
  | S w => digs w (z / 10) ++ [digit_char (z mod 10)]
  end.

Lemma digit_char_val d : 0 <= d < 10 -> digit_val (digit_char d) = d /\ is_digit (digit_char d) = true.
Proof.
  intros H. assert (d = 0 \/ d = 1 \/ d = 2 \/ d = 3 \/ d = 4 \/ d = 5 \/ d = 6 \/ d = 7 \/ d = 8 \/ d = 9)
    as Hc by lia. repeat destruct Hc as [->|Hc]; by subst.
Qed.

Lemma num_snoc l a : num (l ++ [a]) = num l * 10 + digit_val a.
Proof. unfold num. by rewrite foldl_app. Qed.

Lemma digs_length w : forall z, length (digs w z) = w.
Proof. induction w as [|w IH]; intros z; cbn; [done|]. rewrite length_app, IH. cbn. lia. Qed.

Lemma digs_digits w : forall z, Forall (fun a => is_digit a = true) (digs w z).
Proof.
  induction w as [|w IH]; intros z; cbn [digs]; [done|]. apply Forall_app. split; [done|].
  repeat constructor. apply digit_char_val. apply Z.mod_pos_bound. lia.
Qed.

Lemma num_digs w : forall z, 0 <= z < 10 ^ Z.of_nat w -> num (digs w z) = z.
Proof.
  induction w as [|w IH]; intros z Hz; [cbn in *; lia|]. cbn [digs].
  replace (Z.of_nat (S w)) with (1 + Z.of_nat w) in Hz by lia. rewrite Z.pow_add_r in Hz by lia.
  rewrite num_snoc, IH.
  - rewrite (proj1 (digit_char_val (z mod 10) ltac:(apply Z.mod_pos_bound; lia))).
    pose proof (Z.div_mod z 10 ltac:(lia)). lia.
  - split; [apply Z.div_pos; lia|]. apply Z.div_lt_upper_bound; lia.
Qed.

(** [pretty] writes the digits of a number. *)
Lemma pretty_go_app x s : pretty_N_go x s = pretty_N_go x "" +:+ s.
Proof.
  revert s. induction x as [x IH] using (well_founded_induction N.lt_wf_0). intros s.
  destruct (N.eq_dec x 0%N) as [->|Hx]; [by rewrite !pretty_N_go_0|].
  assert (0 < x)%N as Hp by (by apply N.neq_0_lt_0). rewrite !(pretty_N_go_step x) by done.
  rewrite (IH _ (N.div_lt x 10 Hp eq_refl) (String _ s)), (IH _ (N.div_lt x 10 Hp eq_refl) (String _ "")).
  apply to_bytes_inj. by rewrite !to_bytes_app, <- app_assoc.
Qed.

Lemma pretty_step z : 10 <= z ->
  pretty z = pretty (z / 10) +:+ String (digit_char (z mod 10)) "".
Proof.
  intros Hz. assert (forall n, 0 < n -> pretty n = pretty_N_go (Z.to_N n) "") as Hp by (intros [|?|?] ?; try lia; done).
  rewrite (Hp z), pretty_N_go_step, pretty_go_app, (Hp (z / 10)) by (try apply Z.div_str_pos; lia).
  unfold digit_char. by rewrite Z2N.inj_div, Z2N.inj_mod by lia.
Qed.

Lemma pretty_digit z : 0 <= z < 10 -> pretty z = String (digit_char z) "".
Proof.
  intros H. assert (z = 0 \/ z = 1 \/ z = 2 \/ z = 3 \/ z = 4 \/ z = 5 \/ z = 6 \/ z = 7 \/ z = 8 \/ z = 9)
    as Hc by lia. repeat destruct Hc as [->|Hc]; by subst.
Qed.

Lemma pretty_digs w : forall z, 0 <= z < 10 ^ Z.of_nat (S w) ->
  exists ds, to_bytes (pretty z) = ds /\ (1 <= length ds <= S w)%nat /\
    digs (S w) z = repeat "0"%char (S w - length ds) ++ ds.
Proof.
  induction w as [|w IH]; intros z Hz.
  - rewrite pretty_digit by (cbn in Hz; lia). eexists. split; [done|]. split; [cbn; lia|]. cbn.
    by rewrite Z.mod_small by (cbn in Hz; lia).
  - replace (Z.of_nat (S (S w))) with (1 + Z.of_nat (S w)) in Hz by lia. rewrite Z.pow_add_r in Hz by lia.
    assert (0 <= z / 10 < 10 ^ Z.of_nat (S w)) as Hq
      by (split; [apply Z.div_pos; lia|apply Z.div_lt_upper_bound; lia]).
    destruct (IH (z / 10) Hq) as (ds & E & Hl & Hd).
    change (digs (S (S w)) z) with (digs (S w) (z / 10) ++ [digit_char (z mod 10)]). rewrite Hd.
    destruct (Z.lt_ge_cases z 10) as [Hlt|Hge].
    + rewrite pretty_digit by lia. eexists. split; [done|]. split; [cbn; lia|].
      rewrite (Z.div_small z 10) in E by lia. rewrite <- E, (Z.mod_small z 10) by lia. cbn [list_ascii_of_string length].
      replace (S (S w) - 1)%nat with (w + 1)%nat by lia.
      change (to_bytes (pretty 0)) with ["0"%char]. cbn [length].
      replace (S w - 1)%nat with w by lia. by rewrite repeat_app, <- !app_assoc.
    + rewrite pretty_step, to_bytes_app, E by done. eexists. split; [done|].
      rewrite length_app. cbn [length to_bytes]. split; [lia|]. rewrite app_assoc. do 3 f_equal. lia.
Qed.

Lemma zeros_run n : to_bytes (String.concat "" (repeat "0"%string n)) = repeat "0"%char n.
Proof.
  induction n as [|[|n] IH]; [done..|].
  change (String.concat "" (repeat "0"%string (S (S n))))
    with ("0" +:+ ("" +:+ String.concat "" (repeat "0"%string (S n)))).
  rewrite !to_bytes_app, IH. done.
Qed.

Lemma pad_digs w z : 0 <= z < 10 ^ Z.of_nat (S w) -> to_bytes (pad (S w) z) = digs (S w) z.
Proof.
  intros Hz. destruct (pretty_digs w z Hz) as (ds & E & _ & ->). unfold pad.
  replace (z <? 0) with false by lia. rewrite !to_bytes_app, Z.abs_eq, zeros_run by lia.
  by rewrite <- to_bytes_length, E.
Qed.

(** ** Parsing *)

(** One or two digits; [fixed] asks for two. *)
Definition getnum (fixed : bool) (l : bytes) : option (Z * bytes) :=
  match l with
  | a :: r =>
      if negb (is_digit a) then None
      else match r with
           | b :: r' =>
               if is_digit b then Some (digit_val a * 10 + digit_val b, r')
               else if fixed then None else Some (digit_val a, r)
           | [] => if fixed then None else Some (digit_val a, r)
           end
  | [] => None
  end.

(** A number of [getnum] within bounds. *)
Definition field (fixed : bool) (lo hi : Z) (l : bytes) : option (Z * bytes) :=
  '(x, r) ← getnum fixed l; if (x <? lo) || (hi <? x) then None else Some (x, r).

Definition literal (c : ascii) (l : bytes) : option bytes :=
  match l with a :: r => if Ascii.eqb a c then Some r else None | [] => None end.

(** Four digits. *)
Definition year_of (l : bytes) : option (Z * bytes) :=
  if (4 <=? length l)%nat && forallb is_digit (take 4 l) then Some (num (take 4 l), drop 4 l) else None.

(** The fraction of a second, when there is one: all its digits are taken and
    the first nine count. *)
Definition fraction_of (l : bytes) : Z * bytes :=
  match l with
  | p :: d :: r =>
      if (Ascii.eqb p "." || Ascii.eqb p ",") && is_digit d then
        let (ds, r) := digits (d :: r) in
        let ds := take 9 ds in
        (num ds * 10 ^ (9 - Z.of_nat (length ds)), r)
      else (0, l)
  | _ => (0, l)
  end.

(** [Z], or the offset of the zone in seconds: hours up to 24 and minutes up
    to 60. *)
Definition zone_of (l : bytes) : option (Z * bytes) :=
  match l with
  | c :: r =>
      if Ascii.eqb c "Z" then Some (0, r)
      else
        '(h, r) ← field true 0 24 r; r ← literal ":" r; '(m, r) ← field true 0 60 r;
        let off := (h * 60 + m) * 60 in
        if Ascii.eqb c "+" then Some (off, r) else if Ascii.eqb c "-" then Some (- off, r) else None
  | [] => None
  end.

Definition instant (y m d hh mm ss ns : Z) : time :=
  day_of_civil y m d * Day + (hh * 3600 + mm * 60 + ss) * Second + ns.

(** [time.Parse(time.RFC3339Nano, s)], which reads [time.RFC3339] alike. *)
Definition parse_rfc3339 (s : string) : option time :=
  '(y, l) ← year_of (to_bytes s); l ← literal "-" l;
  '(m, l) ← field true 1 12 l; l ← literal "-" l;
  '(d, l) ← getnum true l; l ← literal "T" l;
  '(hh, l) ← field false 0 23 l; l ← literal ":" l;
  '(mm, l) ← field true 0 59 l; l ← literal ":" l;
  '(ss, l) ← field true 0 59 l;
  let (ns, l) := fraction_of l in
  '(off, l) ← zone_of l;
  match l with
  | [] => if (d <? 1) || (days_in m y <? d) then None else Some (instant y m d hh mm ss ns - off * Second)
  | _ :: _ => None
  end.

Example parse_zone : parse_rfc3339 "2026-03-31T20:56:45.1+08:00" = Some (1774961805 * Second + 100000000).
Proof. vm_compute. reflexivity. Qed.
Example parse_no_day : parse_rfc3339 "2025-02-29T00:00:00Z" = None.
Proof. vm_compute. reflexivity. Qed.

Lemma field_digs fixed lo hi z r : 0 <= z < 100 -> lo <= z <= hi -> field fixed lo hi (digs 2 z ++ r) = Some (z, r).
Proof.
  intros Hz Hb. unfold field. cbn [digs app].
  destruct (digit_char_val (z mod 10) ltac:(apply Z.mod_pos_bound; lia)) as [E1 D1].
  destruct (digit_char_val (z / 10 mod 10) ltac:(apply Z.mod_pos_bound; lia)) as [E2 D2].
  cbn [getnum]. rewrite D1, D2. cbn. rewrite E1, E2.
  replace (z / 10 mod 10 * 10 + z mod 10) with z by (Z.to_euclidean_division_equations; lia).
  replace ((z <? lo) || (hi <? z)) with false by lia. done.
Qed.

Lemma getnum_digs z r : 0 <= z < 100 -> getnum true (digs 2 z ++ r) = Some (z, r).
Proof.
  intros Hz. pose proof (field_digs true 0 99 z r Hz ltac:(lia)) as H. unfold field in H.
  destruct (getnum true (digs 2 z ++ r)) as [[x r']|]; cbn in H; [|done]. by case_match.
Qed.

Lemma year_digs z r : 0 <= z < 10000 -> year_of (digs 4 z ++ r) = Some (z, r).
Proof.
  intros Hz. unfold year_of. pose proof (digs_length 4 z) as Hl.
  rewrite (take_app_length' (digs 4 z) r 4), (drop_app_length' (digs 4 z) r 4), num_digs by done.
  rewrite length_app, Hl. cbn [Nat.leb andb].
  replace (forallb is_digit (digs 4 z)) with true; [done|]. symmetry. apply forallb_forall.
  intros a Ha%list_elem_of_In. by eapply Forall_forall in Ha; [|apply digs_digits].
Qed.

Lemma literal_same c r : literal c (c :: r) = Some r.
Proof. cbn. by rewrite Ascii.eqb_refl. Qed.

(** ** The fraction [Format] writes *)

Lemma num_zeros l k : num (l ++ repeat "0"%char k) = num l * 10 ^ Z.of_nat k.
Proof.
  induction k as [|k IH]; [rewrite app_nil_r; cbn; lia|].
  replace (S k) with (k + 1)%nat by lia. rewrite repeat_app, app_assoc. change (repeat "0"%char 1) with ["0"%char].
  rewrite num_snoc, IH, Nat2Z.inj_add, Z.pow_add_r by lia.
  change (digit_val "0"%char) with 0. change (10 ^ Z.of_nat 1) with 10. lia.
Qed.

Lemma drop_zeros_spec l : exists k, l = repeat "0"%char k ++ drop_zeros l.
Proof.
  induction l as [|a l [k IH]]; [by exists 0%nat|]. destruct (Ascii.eqb_spec a "0") as [->|Hne].
  - exists (S k). cbn. by rewrite <- IH.
  - exists 0%nat. cbn. destruct a as [[] [] [] [] [] [] [] []]; try done.
Qed.

Lemma repeat_rev {A} (a : A) k : rev (repeat a k) = repeat a k.
Proof.
  induction k as [|k IH]; [done|]. cbn. rewrite IH. change [a] with (repeat a 1).
  rewrite <- repeat_app, Nat.add_comm. done.
Qed.

Lemma trailing_zeros l : exists k, l = rev (drop_zeros (rev l)) ++ repeat "0"%char k.
Proof.
  destruct (drop_zeros_spec (rev l)) as [k Hk]. exists k.
  by rewrite <- (repeat_rev _ k), <- rev_app_distr, <- Hk, rev_involutive.
Qed.

Lemma fraction_digits ds r : (1 <= length ds <= 9)%nat -> Forall (fun a => is_digit a = true) ds ->
  match r with a :: _ => is_digit a = false | [] => True end ->
  fraction_of ("."%char :: ds ++ r) = (num ds * 10 ^ (9 - Z.of_nat (length ds)), r).
Proof.
  intros Hl Hd Hr. destruct ds as [|d ds]; [cbn in Hl; lia|]. pose proof Hd as [Hd1 _]%Forall_cons.
  cbn [app fraction_of]. rewrite Hd1. cbn [Ascii.eqb andb orb]. change (Ascii.eqb "." ".") with true.
  cbn [orb andb].
  assert (digits ((d :: ds) ++ r) = (d :: ds, r)) as E.
  { clear Hl Hd1. induction Hd as [|x xs Hx _ IH]; cbn [app digits].
    - destruct r as [|b r]; cbn; [done|]. by rewrite Hr.
    - by rewrite Hx, IH. }
  cbn [app] in E. rewrite E, take_ge by lia. done.
Qed.

Lemma fraction_back ns : 0 <= ns < Second ->
  fraction_of (to_bytes (format_fraction ns) ++ ["Z"%char]) = (ns, ["Z"%char]).
Proof.
  intros Hns. unfold format_fraction. destruct (Z.eqb_spec ns 0) as [->|Hne]; [done|].
  rewrite to_bytes_app, list_ascii_of_string_of_list_ascii, pad_digs by exact Hns.
  set (l := digs 9 ns). assert (Forall (fun a => is_digit a = true) l) as Hl by apply digs_digits.
  assert (length l = 9%nat) as H9 by apply digs_length.
  assert (num l = ns) as Hn by (by apply num_digs). clearbody l.
  destruct (trailing_zeros l) as [k Hk]. set (l' := rev (drop_zeros (rev l))) in *. clearbody l'. subst l.
  apply Forall_app in Hl as [Hl' _]. rewrite length_app, repeat_length in H9. rewrite num_zeros in Hn.
  cbn [to_bytes app]. rewrite fraction_digits; [|destruct l'; [cbn in Hn; lia|cbn [length] in *; lia]|done|done].
  rewrite <- Hn. do 3 f_equal. lia.
Qed.

(** ** The bytes of a formatted time *)
Definition date_byte (a : ascii) : bool := is_digit a || Ascii.eqb a "-".

Lemma pretty_pos_bytes p : Forall (fun a => date_byte a = true) (to_bytes (pretty (Z.pos p))).
Proof.
  change (pretty (Z.pos p)) with (pretty_N_go (N.pos p) "").
  destruct (pretty_digits (N.pos p) "" eq_refl) as (d & ds & -> & _ & H). cbn [to_bytes]. rewrite app_nil_r.
  eapply Forall_impl; [exact H|]. intros a Ha. unfold date_byte. by rewrite Ha.
Qed.

Lemma zeros_bytes n : Forall (fun a => date_byte a = true) (to_bytes (String.concat "" (repeat "0"%string n))).
Proof.
  induction n as [|[|n] IH]; cbn -[to_bytes] in *; [constructor|by repeat constructor|].
  rewrite to_bytes_app. apply Forall_app. split; [by repeat constructor|]. exact IH.
Qed.

Lemma pad_bytes w z : Forall (fun a => date_byte a = true) (to_bytes (pad w z)).
Proof.
  unfold pad. rewrite !to_bytes_app, !Forall_app. split; [by destruct (z <? 0); repeat constructor|].
  split; [apply zeros_bytes|]. destruct (Z.abs z) as [|p|p] eqn:E; [by repeat constructor|apply pretty_pos_bytes|lia].
Qed.

Lemma format_date_bytes t : Forall (fun a => date_byte a = true) (to_bytes (format_date t)).
Proof.
  unfold format_date. destruct (civil_of_day (unix_day t)) as [[y m] d].
  rewrite !to_bytes_app, !Forall_app. repeat split; try apply pad_bytes; by repeat constructor.
Qed.

Definition time_byte (a : ascii) : bool := date_byte a || existsb (Ascii.eqb a) [":"; "."; "T"; "Z"]%char.

Lemma date_time_byte l : Forall (fun a => date_byte a = true) l -> Forall (fun a => time_byte a = true) l.
Proof. intros H. eapply Forall_impl; [exact H|]. intros a Ha. unfold time_byte. by rewrite Ha. Qed.

Lemma time_byte_plain a : time_byte a = true -> plain a /\ graphic a.
Proof.
  unfold time_byte, date_byte, is_digit, in_range, plain, graphic. rewrite !orb_true_iff. intros [[H|H]|H]; [lia| |].
  - by apply Ascii.eqb_eq in H as ->.
  - apply existsb_exists in H as (b & Hb & ->%Ascii.eqb_eq).
    repeat destruct Hb as [<-|Hb]; done.
Qed.

Lemma format_fraction_bytes ns : Forall (fun a => time_byte a = true) (to_bytes (format_fraction ns)).
Proof.
  unfold format_fraction. destruct (ns =? 0); [constructor|].
  rewrite to_bytes_app, list_ascii_of_string_of_list_ascii. apply Forall_app. split; [by repeat constructor|].
  destruct (trailing_zeros (to_bytes (pad 9 ns))) as [k Hk]. pose proof (date_time_byte _ (pad_bytes 9 ns)) as H.
  rewrite Hk in H. by apply Forall_app in H as [H _].
Qed.

Lemma format_bytes t : Forall (fun a => time_byte a = true) (to_bytes (format_rfc3339nano t)).
Proof.
  unfold format_rfc3339nano. rewrite !to_bytes_app, !Forall_app.
  repeat split; try apply format_fraction_bytes; try (apply date_time_byte; apply format_date_bytes || apply pad_bytes);
    by repeat constructor.
Qed.

(** ** Round trip *)

Lemma clock_bounds t : let s := t mod Day / Second in
  0 <= s / 3600 <= 23 /\ 0 <= s / 60 mod 60 <= 59 /\ 0 <= s mod 60 <= 59 /\
  t = unix_day t * Day + (s / 3600 * 3600 + s / 60 mod 60 * 60 + s mod 60) * Second + t mod Second.
Proof.
  cbv zeta. unfold unix_day. change Day with (86400 * Second).
  rewrite (Z.mul_comm 86400), Z.rem_mul_r by done.
  rewrite (Z.mul_comm Second (t / Second mod 86400)), Z.div_add, (Z.div_small (t mod Second)) by (try done; by apply Z.mod_pos_bound).
  rewrite Z.add_0_l, <- (Z.div_div t Second 86400) by done.
  pose proof (Z.div_mod t Second ltac:(done)). pose proof (Z.mod_pos_bound t Second ltac:(done)).
  set (q := t / Second) in *. set (r := t mod Second) in *. clearbody q r.
  assert (forall x, 0 <= x < 86400 -> 0 <= x / 3600 <= 23 /\ 0 <= x / 60 mod 60 <= 59 /\ 0 <= x mod 60 <= 59 /\
    x / 3600 * 3600 + x / 60 mod 60 * 60 + x mod 60 = x) as Hx
    by (intros; Z.to_euclidean_division_equations; lia).
  destruct (Hx (q mod 86400) (Z.mod_pos_bound q 86400 ltac:(done))) as (H1 & H2 & H3 & ->).
  repeat split; try lia. subst t. pose proof (Z.div_mod q 86400 ltac:(done)). lia.
Qed.

(** What [Format(time.RFC3339Nano)] writes for a year of four digits is read
    back as the same instant. *)
Lemma parse_format t : 0 <= (civil_of_day (unix_day t)).1.1 <= 9999 -> parse_rfc3339 (format_rfc3339nano t) = Some t.
Proof.
  intros Hy. pose proof (civil_of_day_back (unix_day t)) as Hback.
  destruct (civil_of_day (unix_day t)) as [[y m] d] eqn:E. cbn [fst snd] in *.
  destruct (civil_of_day_valid _ _ _ _ E) as [Hm Hd].
  destruct (clock_bounds t) as (Hh & Hmi & Hs & Ht).
  assert (days_in m y <= 31) as Hdi by (unfold days_in; repeat case_match; lia).
  unfold parse_rfc3339, format_rfc3339nano, format_date. rewrite E.
  set (s := t mod Day / Second) in *. clearbody s. rewrite !to_bytes_app, <- !app_assoc.
  rewrite (pad_digs 3 y), (pad_digs 1 m), (pad_digs 1 d), (pad_digs 1 (s / 3600)), (pad_digs 1 (s / 60 mod 60)),
    (pad_digs 1 (s mod 60)) by (cbn; lia).
  cbn [list_ascii_of_string]. rewrite year_digs by lia. cbn [mbind option_bind app].
  rewrite literal_same. cbn [mbind option_bind]. rewrite field_digs by lia. cbn [mbind option_bind app].
  rewrite literal_same. cbn [mbind option_bind]. rewrite getnum_digs by lia. cbn [mbind option_bind app].
  rewrite literal_same. cbn [mbind option_bind]. rewrite field_digs by lia. cbn [mbind option_bind app].
  rewrite literal_same. cbn [mbind option_bind]. rewrite field_digs by lia. cbn [mbind option_bind app].
  rewrite literal_same. cbn [mbind option_bind]. rewrite field_digs by lia. cbn [mbind option_bind app].
  rewrite fraction_back by (by apply Z.mod_pos_bound). cbn [mbind option_bind zone_of]. change (Ascii.eqb "Z" "Z") with true.
  cbn [mbind option_bind]. replace ((d <? 1) || (days_in m y <? d)) with false by lia.
  unfold instant. rewrite Hback. f_equal. lia.
Qed.
