(* ===== verification/BlockOrder.v ===== *)
(** * Stuck points first ([internal/reviewgen/block_order.go])

    The refine document of a review is reordered so that the phrase blocks that
    came from a stuck point lead.  The document is JSON text; its blocks travel
    as raw messages, which [encoding/json] compacts and HTML-escapes when it
    writes them back. *)
From S2P Require Import Prelude GoString GoUnicode GoJson GoJsonLaws GoJsonMap.

Open Scope Z_scope.

Definition anchorKey (anchor : string) : string := ToLower (TrimSpace anchor).

Definition anchorOf (block : json) : string :=
  match dec_struct ["anchor_user_said"%string] (fun _ => dec_string) "" block with
  | (anchor, None) => anchor
  | (_, Some _) => ""
  end.

(** The keys of the stuck anchors; an empty anchor matches nothing. *)
Definition wanted_keys (stuckAnchors : list string) : list string :=
  List.filter (fun k => negb (String.eqb k "")) (map anchorKey stuckAnchors).

Definition stuck_block (wanted : list string) (block : json) : bool :=
  bool_decide (anchorKey (anchorOf block) ∈ wanted).

Definition StuckFirstBlocks (refine : string) (stuckAnchors : list string) : string :=
  let wanted := wanted_keys stuckAnchors in
  if bool_decide (wanted = []) then refine else
  match parse refine with
  | Err _ => refine
  | Ok v =>
      match dec_map v with
      | Err _ => refine
      | Ok document =>
          match document !! "blocks"%string with
          | None => refine
          | Some rawBlocks =>
              match dec_list rawBlocks with
              | Err _ => refine
              | Ok blocks =>
                  if (length blocks <? 2)%nat then refine else
                  let stuck := List.filter (stuck_block wanted) blocks in
                  let rest := List.filter (fun b => negb (stuck_block wanted b)) blocks in
                  if bool_decide (stuck = []) || bool_decide (rest = []) then refine else
                  let encoded := escape_html (JArr (stuck ++ rest)) in
                  text (marshal_map (escape_html <$> <["blocks"%string := encoded]> document))
              end
          end
      end
  end.

(** ** The document the reviewer of a session receives *)
(** The blocks of a refine document, as its readers decode them. *)
Definition blocks_of (refine : string) : option (gmap string json * list json) :=
  match parse refine with
  | Ok v =>
      match dec_map v with
      | Ok document =>
          match document !! "blocks"%string with
          | Some raw => match dec_list raw with Ok bs => Some (document, bs) | Err _ => None end
          | None => None
          end
      | Err _ => None
      end
  | Err _ => None
  end.

Definition partitioned (wanted : list string) (blocks : list json) : list json :=
  List.filter (stuck_block wanted) blocks ++ List.filter (fun b => negb (stuck_block wanted b)) blocks.

Lemma partition_id (p : json -> bool) bs :
  List.filter p bs = [] \/ List.filter (fun b => negb (p b)) bs = [] \/ (length bs < 2)%nat ->
  List.filter p bs ++ List.filter (fun b => negb (p b)) bs = bs.
Proof.
  assert (forall q : json -> bool, List.filter (fun b => negb (q b)) bs = [] -> List.filter q bs = bs) as Hall.
  { intros q. induction bs as [|b bs IH]; cbn; [done|]. destruct (q b); cbn; [|done]. intros H. by rewrite IH. }
  intros [H|[H|H]].
  - rewrite H. apply Hall. rewrite <- H. apply filter_ext. intros b. apply negb_involutive.
  - by rewrite H, app_nil_r, Hall.
  - destruct bs as [|b [|c bs]]; cbn in *; [done| |lia]. by destruct (p b).
Qed.

Lemma blocks_of_Some refine document bs : blocks_of refine = Some (document, bs) ->
  exists v raw, parse refine = Ok v /\ dec_map v = Ok document /\
    document !! "blocks"%string = Some raw /\ dec_list raw = Ok bs.
Proof.
  unfold blocks_of. destruct (parse refine) as [v|]; [|done]. destruct (dec_map v) as [d|] eqn:Ed; [|done].
  destruct (d !! _) as [raw|] eqn:Er; [|done]. destruct (dec_list raw) as [l|] eqn:El; [|done].
  intros [= <- <-]. by exists v, raw.
Qed.

Lemma partitioned_ok depth wanted bs :
  json_ok depth (JArr bs) -> json_ok depth (JArr (partitioned wanted bs)).
Proof.
  destruct depth as [|depth]; [done|]. cbn [json_ok]. rewrite !foldr_and, !Forall_forall.
  intros H b [Hb|Hb]%elem_of_app; apply H; by apply list_elem_of_In, filter_In in Hb as [?%list_elem_of_In _].
Qed.

(** What the reordering writes for a document. *)
Definition written (document : gmap string json) (blocks : list json) : gmap string json :=
  escape_html <$> <["blocks"%string := escape_html (JArr blocks)]> document.

Lemma written_sound depth document bs :
  utf8_keys document -> (forall k w, document !! k = Some w -> json_ok depth w) -> json_ok depth (JArr bs) ->
  utf8_keys (written document bs) /\ json_ok (S depth) (marshal_map (written document bs)).
Proof.
  intros Hk Hw Hb. split.
  - intros k w Hl. unfold written in Hl. rewrite lookup_fmap, fmap_Some in Hl.
    destruct Hl as (w' & [[<- _]|[_ Hl]]%lookup_insert_Some & _); [by vm_compute|by eapply Hk].
  - apply marshal_map_ok. intros k w Hl. unfold written in Hl.
    rewrite lookup_fmap, fmap_Some in Hl. destruct Hl as (w' & [[_ <-]|[_ Hl]]%lookup_insert_Some & ->);
      repeat apply escape_html_ok; [done|by eapply Hw].
Qed.

Lemma written_blocks document bs : written document bs !! "blocks"%string = Some (JArr (map escape_html bs)).
Proof.
  unfold written. rewrite lookup_fmap, lookup_insert_eq. cbn [fmap option_fmap option_map].
  by rewrite escape_html_idem.
Qed.

(** The text written for a document is read back as that document. *)
Lemma blocks_of_written document bs :
  utf8_keys (written document bs) -> json_ok max_depth (marshal_map (written document bs)) ->
  blocks_of (text (marshal_map (written document bs))) = Some (written document bs, map escape_html bs).
Proof.
  intros Hk Hw. unfold blocks_of. rewrite parse_text by done. rewrite dec_marshal_map by done.
  by rewrite written_blocks.
Qed.

(** The two ways a reordering ends. *)
Lemma StuckFirstBlocks_cases refine anchors document bs :
  blocks_of refine = Some (document, bs) ->
  StuckFirstBlocks refine anchors = refine /\ partitioned (wanted_keys anchors) bs = bs \/
  StuckFirstBlocks refine anchors = text (marshal_map (written document (partitioned (wanted_keys anchors) bs))) /\
    document !! "blocks"%string = Some (JArr bs).
Proof.
  intros (v & raw & Hv & Hd & Hr & Hb)%blocks_of_Some.
  unfold StuckFirstBlocks. destruct (bool_decide (wanted_keys anchors = [])) eqn:E0.
  { left. split; [done|]. apply partition_id. left. apply bool_decide_eq_true in E0 as ->. clear. induction bs; [done|exact IHbs]. }
  rewrite Hv, Hd, Hr, Hb. destruct (length bs <? 2)%nat eqn:E1.
  { left. split; [done|]. apply partition_id. right; right. by apply Nat.ltb_lt. }
  destruct (bool_decide _ || bool_decide _) eqn:E2.
  { left. split; [done|]. apply partition_id.
    apply orb_prop in E2 as [E2%bool_decide_eq_true|E2%bool_decide_eq_true]; auto. }
  right. split; [done|]. destruct raw; cbn in Hb; try done; injection Hb as <-; done.
Qed.

Lemma written_document depth v document bs wanted :
  json_ok (S depth) v -> dec_map v = Ok document -> document !! "blocks"%string = Some (JArr bs) ->
  utf8_keys (written document (partitioned wanted bs)) /\
  json_ok (S depth) (marshal_map (written document (partitioned wanted bs))).
Proof.
  intros Hv Hd Hb. destruct (dec_map_sound _ _ _ Hv Hd) as [Hk Hw].
  apply written_sound; [done|done|]. by apply partitioned_ok, (Hw "blocks"%string).
Qed.

(** Reordering a refine document moves blocks and nothing else.  Whatever
    the anchors, the document that is stored reads back with the blocks whose
    anchor is a stuck point first and the others after them, each group in the
    order the model gave, and with every other field as it was; a rewritten
    document differs only in the escaping of string literals. *)
Theorem stuck_blocks_lead refine anchors document bs :
  blocks_of refine = Some (document, bs) ->
  exists esc document', (esc = id \/ esc = escape_html) /\
    blocks_of (StuckFirstBlocks refine anchors) = Some (document', map esc (partitioned (wanted_keys anchors) bs)) /\
    forall k, k <> "blocks"%string -> document' !! k = esc <$> document !! k.
Proof.
  intros H. destruct (StuckFirstBlocks_cases refine anchors _ _ H) as [[-> ->]|[-> Hb]].
  - exists id, document. split; [by left|]. rewrite map_id. split; [done|]. intros k _. by destruct (document !! k).
  - apply blocks_of_Some in H as (v & raw & Hv & Hd & _).
    destruct (written_document (pred max_depth) v document bs (wanted_keys anchors) (parse_ok _ _ Hv) Hd Hb) as [Hk Hj].
    eexists escape_html, _. split; [by right|]. split; [by apply blocks_of_written|].
    intros k Hne. unfold written. by rewrite lookup_fmap, lookup_insert_ne.
Qed.

Lemma stuck_blocks_lead_witness :
  let refine := of_bytes (map (fun a => if Ascii.eqb a "'" then dquote else a) (to_bytes
    "{'blocks':[{'id':1,'anchor_user_said':'a'},{'id':2,'anchor_user_said':' B '}],'n':[1]}")) in
  exists document bs, blocks_of refine = Some (document, bs) /\
    match blocks_of (StuckFirstBlocks refine ["b"%string]) with
    | Some (_, bs') => bs' = rev bs
    | None => False
    end /\
    exists esc document', (esc = id \/ esc = escape_html) /\
      blocks_of (StuckFirstBlocks refine ["b"%string]) =
        Some (document', map esc (partitioned (wanted_keys ["b"%string]) bs)) /\
      forall k, k <> "blocks"%string -> document' !! k = esc <$> document !! k.
Proof.
  intros refine. destruct (blocks_of refine) as [[document bs]|] eqn:E; [|by vm_compute in E].
  exists document, bs. split; [done|]. split.
  - assert (bs = match blocks_of refine with Some (_, l) => l | None => [] end) as -> by (by rewrite E).
    by vm_compute.
  - by apply (stuck_blocks_lead refine).
Defined.
