(* ===== verification/ApiErr.v ===== *)
(** * Errors (internal/apierr and Go error values)

    The services return three kinds of error: an [apierr.Error] that the HTTP
    layer turns into an envelope, a package-level sentinel compared with
    [errors.Is], or a formatted error.  Sentinels are identified by their text,
    which is unique in the repository. *)
From S2P Require Import Prelude GoString.

Open Scope Z_scope.

Record Error := mkApiError {
  Code : string;
  Message : string;
  HTTPStatus : Z;
}.

Definition InvalidArgument (m : string) : Error := mkApiError "INVALID_ARGUMENT" m 400.
Definition Unauthenticated (m : string) : Error := mkApiError "UNAUTHENTICATED" m 401.
Definition PermissionDenied (m : string) : Error := mkApiError "PERMISSION_DENIED" m 403.
Definition NotFound (m : string) : Error := mkApiError "NOT_FOUND" m 404.
Definition Conflict (m : string) : Error := mkApiError "CONFLICT" m 409.
Definition FailedPrecondition (m : string) : Error := mkApiError "FAILED_PRECONDITION" m 422.
Definition Unavailable (m : string) : Error := mkApiError "UNAVAILABLE" m 503.
Definition Internal (m : string) : Error := mkApiError "INTERNAL" m 500.

Inductive error :=
| Api (e : Error)
| Sentinel (text : string)
| Errorf (text : string).

#[export] Instance Error_eq_dec : EqDecision Error.
Proof. solve_decision. Defined.
#[export] Instance error_eq_dec : EqDecision error.
Proof. solve_decision. Defined.

(** [errors.Is(err, target)] for a sentinel returned unwrapped. *)
Definition Is (e target : error) : bool := bool_decide (e = target).

(** [err.Error()] *)
Definition error_text (e : error) : string :=
  match e with
  | Api e => Code e +:+ ": " +:+ Message e
  | Sentinel t | Errorf t => t
  end.
