(* ===== verification/Frames.v ===== *)
(** * Wire frames (internal/voiceproto/frames.go)

    The binary [ai.tts.audio] codec with its two header layouts, the abort
    outcomes, and the badge frame with its dedupe key.  A [uint32] is a [Z] in
    [0, 2^32); [*uint32] is an option. *)
From S2P Require Import Prelude GoString.

Open Scope Z_scope.

(** ** Big-endian words (encoding/binary) *)

Definition PutUint32 (v : Z) : bytes :=
  [byte_of (v / 16777216); byte_of (v / 65536); byte_of (v / 256); byte_of v].

Definition Uint32 (b : bytes) : Z :=
  match b with
  | b0 :: b1 :: b2 :: b3 :: _ =>
      byte_val b0 * 16777216 + byte_val b1 * 65536 + byte_val b2 * 256 + byte_val b3
  | _ => 0
  end.

Definition is_uint32 (v : Z) : Prop := 0 <= v < 2 ^ 32.

(** ** ai.tts.audio *)

Inductive AudioFrameLayout := AudioFrameLayoutH4 | AudioFrameLayoutH8.

Definition HeaderBytes (l : AudioFrameLayout) : nat :=
  match l with AudioFrameLayoutH8 => 8 | AudioFrameLayoutH4 => 4 end.

Definition AudioFrameLayoutFor (turnRef : option Z) : AudioFrameLayout :=
  match turnRef with None => AudioFrameLayoutH4 | Some _ => AudioFrameLayoutH8 end.

Record AITTSAudio := mkAudio {
  Seq : Z;
  TurnRef : option Z;
  Payload : bytes;
}.

Inductive FrameError :=
| EmptyPayload
| Truncated (len need : nat).

Definition Encode (f : AITTSAudio) : result FrameError bytes :=
  match Payload f with
  | [] => Err EmptyPayload
  | _ =>
      Ok (PutUint32 (Seq f)
          ++ match TurnRef f with None => [] | Some r => PutUint32 r end
          ++ Payload f)
  end.

Definition DecodeAITTSAudio (raw : bytes) (layout : AudioFrameLayout)
  : result FrameError AITTSAudio :=
  let header := HeaderBytes layout in
  if (length raw <? header + 1)%nat then Err (Truncated (length raw) (header + 1))
  else Ok (mkAudio (Uint32 (take 4 raw))
             match layout with
             | AudioFrameLayoutH8 => Some (Uint32 (take 4 (drop 4 raw)))
             | AudioFrameLayoutH4 => None
             end
             (drop header raw)).

Definition frame_ok (f : AITTSAudio) : Prop :=
  is_uint32 (Seq f) /\ Payload f <> []
  /\ match TurnRef f with None => True | Some r => is_uint32 r end.

(** ** client.turn.abort *)

Definition ClientTurnAbortTimeout := "timeout".
Definition ClientTurnAbortUserAbandoned := "user_abandoned".
Definition ClientTurnAbortError := "error".

Definition ValidClientTurnAbortOutcome (outcome : string) : bool :=
  let o := TrimSpace outcome in
  String.eqb o ClientTurnAbortTimeout || String.eqb o ClientTurnAbortUserAbandoned
  || String.eqb o ClientTurnAbortError.

(** ** feedback.badge *)

Definition ComposeBadgeDedupeKey (sessionID turnID phraseBlockID : string) : string :=
  let s := TrimSpace sessionID in
  let t := TrimSpace turnID in
  let p := TrimSpace phraseBlockID in
  if String.eqb s "" || String.eqb t "" || String.eqb p "" then ""
  else (s ++ "|" ++ t ++ "|" ++ p)%string.

Record FeedbackBadge := mkBadge {
  Badge : string;
  PhraseBlockID : string;
  Tier : string;
  SessionID : string;
  TurnID : string;
  DedupeKey : string;
}.

Definition NewFeedbackBadge (badge phraseBlockID tier sessionID turnID : string) : FeedbackBadge :=
  mkBadge badge phraseBlockID tier sessionID turnID
    (ComposeBadgeDedupeKey sessionID turnID phraseBlockID).

(** ** Lemmas *)

Lemma Uint32_Put v l : is_uint32 v -> Uint32 (PutUint32 v ++ l) = v.
Proof.
  unfold is_uint32, PutUint32. intros ?. cbn [app Uint32]. rewrite !byte_val_of.
  pose proof (Z.div_mod v 256). pose proof (Z.div_mod (v / 256) 256).
  pose proof (Z.div_mod (v / 65536) 256).
  assert (v / 65536 = v / 256 / 256) by (rewrite Z.div_div by lia; done).
  assert (v / 16777216 = v / 65536 / 256) by (rewrite Z.div_div by lia; done).
  assert (0 <= v / 16777216 < 256) by (split; [apply Z.div_pos; lia|apply Z.div_lt_upper_bound; lia]).
  rewrite (Z.mod_small (v / 16777216)) by done. lia.
Qed.

Lemma Put_Uint32 b0 b1 b2 b3 :
  PutUint32 (Uint32 [b0; b1; b2; b3]) = [b0; b1; b2; b3].
Proof.
  pose proof (byte_val_range b0). pose proof (byte_val_range b1).
  pose proof (byte_val_range b2). pose proof (byte_val_range b3).
  unfold PutUint32. simpl.
  set (v := byte_val b0 * 16777216 + byte_val b1 * 65536 + byte_val b2 * 256 + byte_val b3).
  assert (Hb : forall z a q, z = 256 * q + byte_val a -> byte_of z = a).
  { intros z a q ->. rewrite <-(byte_of_val a) at 2. unfold byte_of.
    rewrite Z.add_comm, Z.mul_comm. by rewrite Z.mod_add by lia. }
  f_equal; [|f_equal; [|f_equal; [|f_equal]]].
  - apply (Hb _ _ 0). symmetry. apply (Z.div_unique_pos _ _ _
      (byte_val b1 * 65536 + byte_val b2 * 256 + byte_val b3)); lia.
  - apply (Hb _ _ (byte_val b0)). symmetry.
    apply (Z.div_unique_pos _ _ _ (byte_val b2 * 256 + byte_val b3)); lia.
  - apply (Hb _ _ (byte_val b0 * 256 + byte_val b1)). symmetry.
    apply (Z.div_unique_pos _ _ _ (byte_val b3)); lia.
  - apply (Hb _ _ (byte_val b0 * 65536 + byte_val b1 * 256 + byte_val b2)). lia.
Qed.

Lemma length_PutUint32 v : length (PutUint32 v) = 4%nat.
Proof. done. Qed.

#[global] Arguments PutUint32 : simpl never.
#[global] Arguments Uint32 : simpl never.

Lemma take_Put v l : take 4 (PutUint32 v ++ l) = PutUint32 v.
Proof. done. Qed.

Lemma drop_Put v l : drop 4 (PutUint32 v ++ l) = l.
Proof. done. Qed.

Lemma Uint32_Put_nil v : is_uint32 v -> Uint32 (PutUint32 v) = v.
Proof. intros. pose proof (Uint32_Put v [] ltac:(done)). by rewrite app_nil_r in *. Qed.

Lemma length_encode f raw :
  Encode f = Ok raw ->
  length raw = (HeaderBytes (AudioFrameLayoutFor (TurnRef f)) + length (Payload f))%nat.
Proof.
  unfold Encode. destruct f as [s [r|] [|b p]]; simpl; intros; simplify_eq; done.
Qed.

Lemma encode_payload f raw :
  Encode f = Ok raw ->
  drop (HeaderBytes (AudioFrameLayoutFor (TurnRef f))) raw = Payload f.
Proof.
  unfold Encode. destruct f as [s [r|] [|b p]]; simpl; intros; simplify_eq; done.
Qed.

(** ** Properties *)

(** decoding an encoded audio frame with the layout its turn uses gives the
    frame back, for every sequence number and turn reference of 32 bits. *)
Theorem audio_frame_roundtrip f :
  frame_ok f ->
  exists raw, Encode f = Ok raw /\
    DecodeAITTSAudio raw (AudioFrameLayoutFor (TurnRef f)) = Ok f.
Proof.
  destruct f as [s r p]. intros (Hs & Hp & Hr). simpl in *.
  destruct p as [|b p]; [done|].
  exists (PutUint32 s ++ match r with None => [] | Some r => PutUint32 r end ++ b :: p).
  split; [done|].
  destruct r as [r|]; unfold DecodeAITTSAudio; cbn [AudioFrameLayoutFor HeaderBytes];
    rewrite (proj2 (Nat.ltb_ge _ _)) by (rewrite !length_app, !length_PutUint32; simpl; lia).
  - rewrite take_Put, drop_Put, take_Put, !Uint32_Put_nil by done. done.
  - rewrite take_Put, Uint32_Put_nil by done. done.
Qed.

Lemma audio_frame_roundtrip_witness :
  exists raw, Encode (mkAudio 258 (Some 7) [byte_of 1; byte_of 2]) = Ok raw /\
    DecodeAITTSAudio raw AudioFrameLayoutH8 = Ok (mkAudio 258 (Some 7) [byte_of 1; byte_of 2]).
Proof.
  apply (audio_frame_roundtrip (mkAudio 258 (Some 7) [byte_of 1; byte_of 2])).
  unfold frame_ok, is_uint32. simpl. repeat split; done || lia.
Defined.

(** decoding fails exactly on a message too short for its header and one
    payload byte, and what it accepts re-encodes to the same bytes: no two
    messages decode to the same frame under one layout. *)
Theorem audio_frame_decode_exact raw layout :
  match DecodeAITTSAudio raw layout with
  | Err _ => (length raw < HeaderBytes layout + 1)%nat
  | Ok f => frame_ok f /\ AudioFrameLayoutFor (TurnRef f) = layout /\ Encode f = Ok raw
  end.
Proof.
  unfold DecodeAITTSAudio.
  destruct (Nat.ltb_spec (length raw) (HeaderBytes layout + 1)) as [|Hlen]; [done|].
  assert (Hu : forall b0 b1 b2 b3, is_uint32 (Uint32 [b0; b1; b2; b3])).
  { intros. unfold is_uint32, Uint32. pose proof (byte_val_range b0).
    pose proof (byte_val_range b1). pose proof (byte_val_range b2).
    pose proof (byte_val_range b3). lia. }
  destruct raw as [|b0 [|b1 [|b2 [|b3 raw]]]]; try (destruct layout; simpl in Hlen; lia).
  destruct layout; simpl in Hlen.
  - destruct raw as [|b raw]; [simpl in Hlen; lia|].
    change (take 4 _) with [b0; b1; b2; b3]. change (drop _ _) with (b :: raw).
    unfold frame_ok, Encode. cbn [TurnRef Payload Seq AudioFrameLayoutFor].
    rewrite Put_Uint32. repeat split; done || apply Hu.
  - destruct raw as [|b4 [|b5 [|b6 [|b7 [|b raw]]]]]; try (simpl in Hlen; lia).
    change (take 4 (b0 :: _)) with [b0; b1; b2; b3].
    change (take 4 (drop 4 _)) with [b4; b5; b6; b7]. change (drop _ _) with (b :: raw).
    unfold frame_ok, Encode. cbn [TurnRef Payload Seq AudioFrameLayoutFor].
    rewrite !Put_Uint32. repeat split; done || apply Hu.
Qed.
