(* ===== verification/Audio.v ===== *)
(** * Outbound audio (internal/voicegateway: seq_allocator.go, voice_usage.go,
      utterance.go)

    The session-wide frame numbering, the usage meter, the framer that cuts PCM
    into numbered frames, and the writer that owns one stream of them.  A
    [*SeqAllocator] shared by two producers is the allocator's state threaded
    through both; [atomic.Uint32.Add] makes each draw one step. *)
From S2P Require Import Prelude GoString Frames.

Open Scope Z_scope.

(** ** Sequence numbers *)

(** The last number handed out. *)
Record SeqAllocator := mkSeq { next : Z }.

Definition NewSeqAllocator : SeqAllocator := mkSeq 0.

(** [a.next.Add(1)] on an [atomic.Uint32]; a nil allocator answers 0. *)
Definition Next (a : option SeqAllocator) : Z * option SeqAllocator :=
  match a with
  | None => (0, None)
  | Some a => let n := (next a + 1) mod 2 ^ 32 in (n, Some (mkSeq n))
  end.

Definition Peek (a : option SeqAllocator) : Z := from_option next 0 a.

(** The turn references of audio frames; [Next] is nil without an allocator. *)
Record TurnRefAllocator := mkTurnRef { ref_next : Z }.

Definition NextRef (a : option TurnRefAllocator) : option Z * option TurnRefAllocator :=
  match a with
  | None => (None, None)
  | Some a => let n := (ref_next a + 1) mod 2 ^ 32 in (Some n, Some (mkTurnRef n))
  end.

Definition PeekRef (a : option TurnRefAllocator) : Z := from_option ref_next 0 a.

(** ** Usage *)

Definition uplinkSampleRate : Z := 16000.
Definition duplexOutputRate : Z := 24000.
Definition clientPlaybackRate : Z := 16000.
Definition uplinkBytesPerMS : Z := uplinkSampleRate * 2 / 1000.
Definition downlinkBytesPerMS : Z := duplexOutputRate * 2 / 1000.

Record voiceUsage := mkUsage { uplinkBytes : Z; downlinkBytes : Z }.

Definition addUplink (n : Z) (u : voiceUsage) : voiceUsage :=
  if 0 <? n then mkUsage (uplinkBytes u + n) (downlinkBytes u) else u.

Definition addDownlink (n : Z) (u : voiceUsage) : voiceUsage :=
  if 0 <? n then mkUsage (uplinkBytes u) (downlinkBytes u + n) else u.

(** [(UplinkMS, DownlinkMS)] *)
Definition measure (u : voiceUsage) : Z * Z :=
  (Z.quot (uplinkBytes u) uplinkBytesPerMS, Z.quot (downlinkBytes u) downlinkBytesPerMS).

(** provider_volc_duplex.go *)
Definition audioDurationMs (n : Z) : option Z :=
  if n <=? 0 then None else Some (Z.quot n (2 * duplexOutputRate / 1000)).

(** ** Formats *)

Record AudioFormat := mkFormat { SampleRate : Z; Channels : Z; BitsPerSample : Z }.

Definition ClientAudioFormat : AudioFormat := mkFormat 16000 1 16.

Definition BytesPerMS (f : AudioFormat) : Z :=
  if (SampleRate f <=? 0) || (Channels f <=? 0) || (BitsPerSample f <=? 0) then 0
  else Z.quot (Z.quot (SampleRate f * Channels f * BitsPerSample f) 8) 1000.

Definition FrameBytes (f : AudioFormat) (ms : Z) : Z :=
  let perMS := BytesPerMS f in
  if (perMS <=? 0) || (ms <=? 0) then 0 else perMS * ms.

Definition ClientFrameMS : Z := 100.

(** uplink_constants.go *)
Definition UplinkChunkBytes : Z := 640.

Inductive UtteranceKind := UtteranceAI | UtteranceLadder.

Record Utterance := mkUtterance {
  UID : string;
  Kind : UtteranceKind;
  Format : AudioFormat;
  FrameMS : Z;
  VoiceID : string;
  Codec : string;
}.

Definition formatOrClient (u : Utterance) : AudioFormat :=
  if BytesPerMS (Format u) <=? 0 then ClientAudioFormat else Format u.

Definition frameMSOrDefault (u : Utterance) : Z :=
  if 0 <? FrameMS u then FrameMS u else ClientFrameMS.

Definition codecOrPCM (u : Utterance) : string :=
  let c := TrimSpace (Codec u) in if String.eqb c "" then "pcm" else c.

(** ** The framer

    The allocator is passed and returned by every operation that draws from it. *)
Record audioFramer := mkFramer {
  turnRef : option Z;
  format : AudioFormat;
  frameMS : Z;
  pending : bytes;
}.

Definition newAudioFramer (turnRef : option Z) (format : AudioFormat) (ms : Z) : audioFramer :=
  mkFramer turnRef format (if ms <=? 0 then ClientFrameMS else ms) [].

Definition headerBytes (f : audioFramer) : nat :=
  HeaderBytes (AudioFrameLayoutFor (turnRef f)).

Definition set_pending (p : bytes) (f : audioFramer) : audioFramer :=
  mkFramer (turnRef f) (format f) (frameMS f) p.

(** Draws a number first, then encodes; nil on an encoding error. *)
Definition encode (f : audioFramer) (payload : bytes) (a : option SeqAllocator)
  : bytes * option SeqAllocator :=
  let '(n, a') := Next a in
  match Encode (mkAudio n (turnRef f) payload) with
  | Ok raw => (raw, a')
  | Err _ => ([], a')
  end.

(** [for len(f.pending) >= frameBytes]; every round consumes at least one byte,
    so the length of [pending] bounds the number of rounds. *)
Fixpoint cut (fuel : nat) (size : nat) (f : audioFramer) (a : option SeqAllocator)
  : list bytes * audioFramer * option SeqAllocator :=
  match fuel with
  | O => ([], f, a)
  | S fuel =>
      if (size <=? length (pending f))%nat then
        let '(frame, a1) := encode f (take size (pending f)) a in
        let '(frames, f2, a2) := cut fuel size (set_pending (drop size (pending f)) f) a1 in
        (frame :: frames, f2, a2)
      else ([], f, a)
  end.

Definition frame_size (f : audioFramer) : Z := FrameBytes (format f) (frameMS f).

Definition Write (pcm : bytes) (f : audioFramer) (a : option SeqAllocator)
  : list bytes * audioFramer * option SeqAllocator :=
  let f1 := set_pending (pending f ++ pcm) f in
  if frame_size f1 <=? 0 then ([], f1, a)
  else cut (length (pending f1)) (Z.to_nat (frame_size f1)) f1 a.

Definition Flush (f : audioFramer) (a : option SeqAllocator)
  : list bytes * audioFramer * option SeqAllocator :=
  match pending f with
  | [] => ([], f, a)
  | _ => let '(frame, a1) := encode f (pending f) a in ([frame], set_pending [] f, a1)
  end.

Definition Reset (f : audioFramer) : audioFramer := set_pending [] f.

(** Several chunks in a row. *)
Fixpoint WriteAll (chunks : list bytes) (f : audioFramer) (a : option SeqAllocator)
  : list bytes * audioFramer * option SeqAllocator :=
  match chunks with
  | [] => ([], f, a)
  | c :: cs =>
      let '(fr1, f1, a1) := Write c f a in
      let '(fr2, f2, a2) := WriteAll cs f1 a1 in (fr1 ++ fr2, f2, a2)
  end.

(** ** The stream writer

    The sink is the environment: attempt [n] to send an item succeeds or fails
    as [send_ok n] says, and [live n] tells whether the utterance still owns the
    stream when [n] items have been attempted ([None] is the nil callback).  The
    pacing sleep has no effect on what is sent and is not modelled. *)
Inductive ProviderOutbound :=
| AITTSStart (TurnID VoiceID : string) (SampleRate : Z) (Codec : string) (TurnRef : option Z)
| AITTSEnd (TurnID CompletionStatus : string) (DurationMs : Z) (TurnRef : option Z)
| Binary (raw : bytes).

Record wire := mkWire { attempts : nat; sent : list ProviderOutbound }.

Inductive WriterError := NoSink | NoAllocator | NoId | SendFailed.

Record streamWriter := mkWriter {
  framer : audioFramer;
  turnID : string;
  voiceID : string;
  codec : string;
  live : option (nat -> bool);
  ended : bool;
  sentBytes : Z;
}.

(** A call on the writer acts on the writer, the shared allocator and the wire. *)
Record world := mkWorld { writer : streamWriter; alloc : option SeqAllocator; out : wire }.

Section sink.
Context (send_ok : nat -> ProviderOutbound -> bool).

Definition send (o : ProviderOutbound) (w : wire) : result WriterError unit * wire :=
  if send_ok (attempts w) o
  then (Ok tt, mkWire (S (attempts w)) (sent w ++ [o]))
  else (Err SendFailed, mkWire (S (attempts w)) (sent w)).

Definition beginUtterance (u : Utterance) (sink : bool) (a : option SeqAllocator)
  (ref : option Z) (live : option (nat -> bool)) (w : wire) : result WriterError world :=
  if negb sink then Err NoSink else
  match a with
  | None => Err NoAllocator
  | Some _ =>
      if String.eqb (TrimSpace (UID u)) "" then Err NoId else
      let fmt := formatOrClient u in
      let fr := newAudioFramer ref fmt (frameMSOrDefault u) in
      let wr := mkWriter fr (UID u) (VoiceID u) (codecOrPCM u) live false 0 in
      let '(r, w') := send (AITTSStart (UID u) (VoiceID u) (SampleRate fmt) (codecOrPCM u) ref) w in
      match r with Ok _ => Ok (mkWorld wr a w') | Err e => Err e end
  end.

Definition add_sent (n : Z) (wr : streamWriter) : streamWriter :=
  mkWriter (framer wr) (turnID wr) (voiceID wr) (codec wr) (live wr) (ended wr)
    (sentBytes wr + n).

Definition set_framer (f : audioFramer) (wr : streamWriter) : streamWriter :=
  mkWriter f (turnID wr) (voiceID wr) (codec wr) (live wr) (ended wr) (sentBytes wr).

Definition set_ended (wr : streamWriter) : streamWriter :=
  mkWriter (framer wr) (turnID wr) (voiceID wr) (codec wr) (live wr) true (sentBytes wr).

(** The bytes of audio in one binary frame. *)
Definition frame_audio (wr : streamWriter) (frame : bytes) : Z :=
  Z.of_nat (length frame) - Z.of_nat (headerBytes (framer wr)).

(** The body of the loops over the framer's frames; [check] is the liveness
    test [Audio] makes before each frame and [finish] does not. *)
Fixpoint send_frames (check : bool) (frames : list bytes) (x : world)
  : result WriterError unit * world :=
  match frames with
  | [] => (Ok tt, x)
  | frame :: frames =>
      if check && match live (writer x) with
                  | Some live => negb (live (attempts (out x)))
                  | None => false
                  end
      then (Ok tt, x)
      else
        let '(r, w') := send (Binary frame) (out x) in
        match r with
        | Err e => (Err e, mkWorld (writer x) (alloc x) w')
        | Ok _ =>
            send_frames check frames
              (mkWorld (add_sent (frame_audio (writer x) frame) (writer x)) (alloc x) w')
        end
  end.

Definition Audio (pcm : bytes) (x : world) : result WriterError unit * world :=
  match pcm with
  | [] => (Ok tt, x)
  | _ =>
      if FrameBytes (format (framer (writer x))) (frameMS (framer (writer x))) <=? 0
      then (Ok tt, x)
      else
        let '(frames, f, a) := Write pcm (framer (writer x)) (alloc x) in
        send_frames true frames (mkWorld (set_framer f (writer x)) a (out x))
  end.

Definition finish (status : string) (x : world) : result WriterError unit * world :=
  if ended (writer x) then (Ok tt, x) else
  let x := mkWorld (set_ended (writer x)) (alloc x) (out x) in
  let '(frames, f, a) := Flush (framer (writer x)) (alloc x) in
  let '(r, x) := send_frames false frames (mkWorld (set_framer f (writer x)) a (out x)) in
  match r with
  | Err e => (Err e, x)
  | Ok _ =>
      let perMS := BytesPerMS (format (framer (writer x))) in
      let durationMS := if 0 <? perMS then Z.quot (sentBytes (writer x)) perMS else 0 in
      let '(r, w') := send (AITTSEnd (turnID (writer x)) status durationMS
                              (turnRef (framer (writer x)))) (out x) in
      (r, mkWorld (writer x) (alloc x) w')
  end.

Definition End_ (x : world) : result WriterError unit * world := finish "ok" x.
Definition Interrupt (x : world) : result WriterError unit * world := finish "interrupted" x.

Inductive WriterCall := CAudio (pcm : bytes) | CEnd | CInterrupt.

Definition writer_call (c : WriterCall) (x : world) : world :=
  match c with
  | CAudio pcm => (Audio pcm x).2
  | CEnd => (End_ x).2
  | CInterrupt => (Interrupt x).2
  end.
End sink.

(** ** Numbering lemmas *)

Lemma Next_some n : Next (Some (mkSeq n)) = ((n + 1) mod 2 ^ 32, Some (mkSeq ((n + 1) mod 2 ^ 32))).
Proof. done. Qed.

(** The numbers of [k] successive draws. *)
Fixpoint draws (k : nat) (a : option SeqAllocator) : list Z :=
  match k with
  | O => []
  | S k => let '(n, a') := Next a in n :: draws k a'
  end.

Lemma draws_seq k n :
  0 <= n -> n + Z.of_nat k < 2 ^ 32 ->
  draws k (Some (mkSeq n)) = map (fun i => n + 1 + Z.of_nat i) (seq 0 k).
Proof.
  revert n. induction k as [|k IH]; intros n Hn Hk; [done|].
  cbn [draws Next next seq map]. rewrite Z.mod_small by lia. f_equal; [lia|].
  rewrite IH by lia. rewrite <-seq_shift, map_map. apply map_ext. intros; lia.
Qed.

(** [k] draws later. *)
Definition advance (k : nat) (n : Z) : Z := Nat.iter k (fun n => (n + 1) mod 2 ^ 32) n.

Lemma advance_S k n : advance (S k) n = advance k ((n + 1) mod 2 ^ 32).
Proof. unfold advance. by rewrite Nat.iter_succ_r. Qed.

(** The wire frames of a list of payloads numbered from [n + 1]. *)
Fixpoint numbered (ref : option Z) (n : Z) (ps : list bytes) : list bytes :=
  match ps with
  | [] => []
  | p :: ps =>
      let n' := (n + 1) mod 2 ^ 32 in
      (PutUint32 n' ++ match ref with None => [] | Some r => PutUint32 r end ++ p)
        :: numbered ref n' ps
  end.

Lemma numbered_app ref n ps qs :
  numbered ref n (ps ++ qs) = numbered ref n ps ++ numbered ref (advance (length ps) n) qs.
Proof.
  revert n. induction ps as [|p ps IH]; intros n; [done|].
  cbn [numbered app length]. by rewrite advance_S, IH.
Qed.

Lemma advance_add j k n : advance k (advance j n) = advance (j + k) n.
Proof. unfold advance. by rewrite Nat.add_comm, Nat.iter_add. Qed.

Lemma encode_some f p n :
  p <> [] ->
  encode f p (Some (mkSeq n)) =
    (PutUint32 ((n + 1) mod 2 ^ 32)
       ++ match turnRef f with None => [] | Some r => PutUint32 r end ++ p,
     Some (mkSeq ((n + 1) mod 2 ^ 32))).
Proof. intros. unfold encode, Encode. by destruct p. Qed.

(** What a run of the cutting loop produces. *)
Definition framed (size : nat) (ps : list bytes) (rest l : bytes) : Prop :=
  concat ps ++ rest = l /\ Forall (fun p => length p = size) ps /\ (length rest < size)%nat.

Lemma cut_spec fuel size f n :
  (0 < size)%nat -> (length (pending f) <= fuel)%nat ->
  exists ps rest,
    cut fuel size f (Some (mkSeq n)) =
      (numbered (turnRef f) n ps, set_pending rest f, Some (mkSeq (advance (length ps) n))) /\
    framed size ps rest (pending f).
Proof.
  intros Hs. revert f n. induction fuel as [|fuel IH]; intros f n Hf.
  { exists [], []. assert (pending f = []) as Hp by (apply nil_length_inv; lia).
    split; [|by rewrite Hp]. destruct f. simpl in *. by subst. }
  cbn [cut]. destruct (Nat.leb_spec size (length (pending f))) as [Hle|Hlt].
  - rewrite encode_some.
    2:{ intros Hn. apply (f_equal length) in Hn. rewrite length_take in Hn. simpl in Hn. lia. }
    destruct (IH (set_pending (drop size (pending f)) f) ((n + 1) mod 2 ^ 32))
      as (ps & rest & -> & Hc & Hps & Hr).
    { simpl. rewrite length_drop. lia. }
    exists (take size (pending f) :: ps), rest. split; [|split; [|split]]; try done.
    + cbn [numbered length]. by rewrite advance_S.
    + simpl in *. rewrite <-app_assoc, Hc. apply take_drop.
    + constructor; [rewrite length_take; lia|done].
  - exists [], (pending f). split; [by destruct f|]. done.
Qed.

Lemma framed_app size ps qs r r' l l' :
  framed size ps r l -> framed size qs r' (r ++ l') -> framed size (ps ++ qs) r' (l ++ l').
Proof.
  intros (<- & Hp & _) (H & Hq & Hr). split; [|split]; [|by apply Forall_app|done].
  by rewrite concat_app, <-!app_assoc, H.
Qed.

Lemma WriteAll_spec chunks f n :
  0 < frame_size f -> (length (pending f) < Z.to_nat (frame_size f))%nat ->
  exists ps rest,
    WriteAll chunks f (Some (mkSeq n)) =
      (numbered (turnRef f) n ps, set_pending rest f, Some (mkSeq (advance (length ps) n))) /\
    framed (Z.to_nat (frame_size f)) ps rest (pending f ++ concat chunks).
Proof.
  intros Hs. revert f n Hs. induction chunks as [|c cs IH]; intros f n Hs Hp.
  { exists [], (pending f). simpl. rewrite app_nil_r. split; [by destruct f|done]. }
  cbn [WriteAll]. unfold Write. change (frame_size (set_pending _ f)) with (frame_size f).
  rewrite (proj2 (Z.leb_gt _ _)) by done.
  destruct (cut_spec (length (pending f ++ c)) (Z.to_nat (frame_size f))
    (set_pending (pending f ++ c) f) n) as (ps & rest & Hcut & Hfr); [lia|done|].
  change (pending (set_pending _ f)) with (pending f ++ c) at 1.
  rewrite Hcut. change (set_pending rest (set_pending _ f)) with (set_pending rest f).
  destruct (IH (set_pending rest f) (advance (length ps) n)) as (qs & rest' & -> & Hfr').
  { done. } { by destruct Hfr as (_ & _ & ?). }
  exists (ps ++ qs), rest'. split.
  - rewrite numbered_app, advance_add, length_app. done.
  - simpl in *. rewrite app_assoc. by eapply framed_app.
Qed.

(** The cut of a stream into frames is determined by the stream. *)
Lemma framed_inj size ps qs r r' l :
  framed size ps r l -> framed size qs r' l -> ps = qs /\ r = r'.
Proof.
  revert qs l. induction ps as [|p ps IH]; intros [|q qs] l (H1 & Hp & Hr) (H2 & Hq & Hr').
  - simpl in *. by subst.
  - simpl in H1, H2. subst. inversion Hq; subst. rewrite !length_app in Hr. lia.
  - simpl in H1, H2. subst. inversion Hp; subst. rewrite !length_app in Hr'. lia.
  - inversion Hp as [|?? Hpl Hps]; inversion Hq as [|?? Hql Hqs]; subst.
    simpl in H2. rewrite <-!app_assoc in H2. apply app_inj_1 in H2 as [-> H2]; [|lia].
    destruct (IH qs (concat ps ++ r)) as [-> ->]; done.
Qed.

Lemma drop_header ref n p :
  drop (HeaderBytes (AudioFrameLayoutFor ref))
    (PutUint32 n ++ match ref with None => [] | Some r => PutUint32 r end ++ p) = p.
Proof. by destruct ref. Qed.

Lemma length_header ref n p :
  length (PutUint32 n ++ match ref with None => [] | Some r => PutUint32 r end ++ p)
    = (HeaderBytes (AudioFrameLayoutFor ref) + length p)%nat.
Proof. by destruct ref. Qed.

Lemma numbered_payloads ref n ps :
  map (drop (HeaderBytes (AudioFrameLayoutFor ref))) (numbered ref n ps) = ps.
Proof.
  revert n. induction ps as [|p ps IH]; intros n; [done|].
  cbn [numbered map]. by rewrite drop_header, IH.
Qed.

Lemma numbered_seqs ref n ps :
  map (fun raw => Uint32 (take 4 raw)) (numbered ref n ps) = draws (length ps) (Some (mkSeq n)).
Proof.
  revert n. induction ps as [|p ps IH]; intros n; [done|].
  cbn [numbered map length draws]. rewrite Next_some, take_Put, Uint32_Put_nil, IH; [done|].
  unfold is_uint32. pose proof (Z.mod_pos_bound (n + 1) (2 ^ 32)). lia.
Qed.

Lemma numbered_lengths ref n ps size :
  Forall (fun p => length p = size) ps ->
  Forall (fun raw => length raw = (HeaderBytes (AudioFrameLayoutFor ref) + size)%nat)
    (numbered ref n ps).
Proof.
  intros H. revert n. induction H as [|p ps <- _ IH]; intros n; constructor; [|apply IH].
  apply length_header.
Qed.

Lemma length_numbered ref n ps : length (numbered ref n ps) = length ps.
Proof. revert n. induction ps; simpl; auto. Qed.

Lemma Flush_spec f n :
  exists ps,
    Flush f (Some (mkSeq n)) =
      (numbered (turnRef f) n ps, set_pending [] f, Some (mkSeq (advance (length ps) n))) /\
    concat ps = pending f /\ (length ps <= 1)%nat.
Proof.
  unfold Flush. destruct (pending f) as [|b p] eqn:Hp.
  - exists []. split; [|by simpl; auto]. destruct f. simpl in *. by subst.
  - rewrite encode_some by done. exists [b :: p]. simpl. rewrite app_nil_r. auto.
Qed.

(** ** Stream lemmas *)

Definition audio_bytes (header : nat) (bs : list bytes) : Z :=
  Z.of_nat (list_sum (map (fun b => length b - header)%nat bs)).

(** What a writer has put on the wire since its start frame. *)
Definition stream_shape (x : world) (items : list ProviderOutbound) : Prop :=
  let f := framer (writer x) in
  exists bs1 e bs2,
    items = map Binary bs1 ++ e ++ map Binary bs2 /\
    Forall (fun b => (headerBytes f <= length b)%nat) (bs1 ++ bs2) /\
    sentBytes (writer x) = audio_bytes (headerBytes f) (bs1 ++ bs2) /\
    (ended (writer x) = false -> e = []) /\
    (e = [] \/ exists status, e =
       [AITTSEnd (turnID (writer x)) status
          (Z.quot (audio_bytes (headerBytes f) bs1) (BytesPerMS (format f))) (turnRef f)]).

Lemma audio_bytes_app h bs bs' :
  audio_bytes h (bs ++ bs') = audio_bytes h bs + audio_bytes h bs'.
Proof. unfold audio_bytes. rewrite map_app, list_sum_app. lia. Qed.

Lemma audio_bytes_one h b : audio_bytes h [b] = Z.of_nat (length b - h).
Proof. unfold audio_bytes. simpl. lia. Qed.

Lemma audio_bytes_numbered ref n ps :
  audio_bytes (HeaderBytes (AudioFrameLayoutFor ref)) (numbered ref n ps)
    = Z.of_nat (length (concat ps)).
Proof.
  revert n. induction ps as [|p ps IH]; intros n; [done|].
  cbn [numbered concat].
  change (audio_bytes ?h (?a :: ?l)) with (audio_bytes h ([a] ++ l)).
  rewrite audio_bytes_app, audio_bytes_one, IH, length_header, length_app. lia.
Qed.

Lemma add_sent_0 wr : add_sent 0 wr = wr.
Proof. destruct wr. unfold add_sent. simpl. by rewrite Z.add_0_r. Qed.

(** Sending frames appends binary items and meters them; it touches nothing
    else of the writer. *)
Lemma send_frames_spec ok check frames x :
  Forall (fun b => (headerBytes (framer (writer x)) <= length b)%nat) frames ->
  exists bs,
    prefix bs frames /\
    let y := (send_frames ok check frames x).2 in
    sent (out y) = sent (out x) ++ map Binary bs /\
    writer y = add_sent (audio_bytes (headerBytes (framer (writer x))) bs) (writer x) /\
    alloc y = alloc x /\
    (check = false -> (send_frames ok check frames x).1 = Ok tt -> bs = frames).
Proof.
  revert x. induction frames as [|b frames IH]; intros x Hf.
  { exists []. simpl. by rewrite app_nil_r, add_sent_0. }
  apply Forall_cons in Hf as [Hb Hf]. cbn [send_frames].
  destruct (check && _) eqn:Hc.
  { exists []. destruct check; [|done]. simpl. rewrite app_nil_r, add_sent_0.
    split; [apply prefix_nil|done]. }
  unfold send. destruct (ok _ _).
  2:{ exists []. simpl. rewrite app_nil_r, add_sent_0. split; [apply prefix_nil|done]. }
  set (x' := mkWorld _ (alloc x) _).
  destruct (IH x' Hf) as (bs & Hp & Hs & Hw & Ha & Hall).
  exists (b :: bs). split; [by apply prefix_cons|]. split; [|split; [|split]].
  - rewrite Hs. simpl. by rewrite <-app_assoc.
  - rewrite Hw. change (b :: bs) with ([b] ++ bs). rewrite audio_bytes_app, audio_bytes_one.
    unfold x', add_sent, frame_audio. simpl. f_equal.
    change (headerBytes (framer (writer x))) with (headerBytes (framer (writer x))). lia.
  - by rewrite Ha.
  - intros -> H. by rewrite Hall.
Qed.

(** The framer's configuration is fixed for the life of the writer. *)
Lemma Write_frames pcm f n :
  0 < frame_size f -> (length (pending f) < Z.to_nat (frame_size f))%nat ->
  exists ps rest,
    Write pcm f (Some (mkSeq n)) =
      (numbered (turnRef f) n ps, set_pending rest f, Some (mkSeq (advance (length ps) n))) /\
    framed (Z.to_nat (frame_size f)) ps rest (pending f ++ pcm).
Proof.
  intros Hs Hp. destruct (WriteAll_spec [pcm] f n Hs Hp) as (ps & rest & Hw & Hfr).
  cbn [WriteAll concat] in Hw, Hfr. rewrite app_nil_r in Hfr.
  destruct (Write pcm f _) as [[fr1 f1] a1]. rewrite app_nil_r in Hw. eauto.
Qed.

Lemma numbered_header ref n ps :
  Forall (fun b => (HeaderBytes (AudioFrameLayoutFor ref) <= length b)%nat) (numbered ref n ps).
Proof.
  revert n. induction ps as [|p ps IH]; intros n; constructor; [|apply IH].
  rewrite length_header. lia.
Qed.

(** The state of a writer and its wire after any calls. *)
Record writer_inv (x : world) (prefix : list ProviderOutbound) : Prop := mkInv {
  inv_size : 0 < frame_size (framer (writer x));
  inv_pending : (length (pending (framer (writer x))) < Z.to_nat (frame_size (framer (writer x))))%nat;
  inv_alloc : exists n, alloc x = Some (mkSeq n);
  inv_perms : 0 < BytesPerMS (format (framer (writer x)));
  inv_wire : exists items, sent (out x) = prefix ++ items /\ stream_shape x items;
}.

(** Adding audio to a stream keeps its shape. *)
Lemma stream_shape_audio x y items bs :
  stream_shape x items ->
  headerBytes (framer (writer y)) = headerBytes (framer (writer x)) ->
  format (framer (writer y)) = format (framer (writer x)) ->
  turnRef (framer (writer y)) = turnRef (framer (writer x)) ->
  turnID (writer y) = turnID (writer x) ->
  (ended (writer y) = false -> ended (writer x) = false) ->
  sentBytes (writer y) = sentBytes (writer x) + audio_bytes (headerBytes (framer (writer x))) bs ->
  Forall (fun b => (headerBytes (framer (writer x)) <= length b)%nat) bs ->
  stream_shape y (items ++ map Binary bs).
Proof.
  intros (bs1 & e & bs2 & -> & Hb & Hs & He & Hend) Hh Hf Hr Ht Hen Hsb Hbs.
  exists bs1, e, (bs2 ++ bs). rewrite Hh, Hf, Hr, Ht.
  rewrite map_app, <-!app_assoc. split; [done|]. split; [|split; [|split]].
  - rewrite app_assoc. by apply Forall_app.
  - rewrite Hsb, Hs, app_assoc. symmetry. apply audio_bytes_app.
  - auto.
  - done.
Qed.

Lemma stream_shape_plain y bs :
  Forall (fun b => (headerBytes (framer (writer y)) <= length b)%nat) bs ->
  sentBytes (writer y) = audio_bytes (headerBytes (framer (writer y))) bs ->
  stream_shape y (map Binary bs).
Proof.
  intros. exists bs, [], []. cbn [app map]. rewrite !app_nil_r.
  split; [done|]. split; [done|]. split; [done|]. auto.
Qed.

Lemma stream_shape_end y bs status :
  Forall (fun b => (headerBytes (framer (writer y)) <= length b)%nat) bs ->
  sentBytes (writer y) = audio_bytes (headerBytes (framer (writer y))) bs ->
  ended (writer y) = true ->
  stream_shape y (map Binary bs ++
    [AITTSEnd (turnID (writer y)) status
       (Z.quot (sentBytes (writer y)) (BytesPerMS (format (framer (writer y)))))
       (turnRef (framer (writer y)))]).
Proof.
  intros ? Hs He. eexists bs, [_], []. cbn [map]. rewrite !app_nil_r.
  split; [done|]. split; [done|]. split; [done|]. split; [by rewrite He|].
  right. exists status. by rewrite Hs.
Qed.

Section calls.
Context (ok : nat -> ProviderOutbound -> bool).

Lemma Audio_inv pcm x prefix : writer_inv x prefix -> writer_inv (Audio ok pcm x).2 prefix.
Proof.
  intros [Hsz Hp (n & Ha) Hms (items & Hsent & Hsh)]. unfold Audio.
  destruct pcm as [|b pcm]; [by constructor; eauto|].
  fold (frame_size (framer (writer x))). rewrite (proj2 (Z.leb_gt _ _)) by done.
  destruct (Write_frames (b :: pcm) (framer (writer x)) n Hsz Hp) as (ps & rest & Hw & _ & _ & Hr).
  rewrite Ha, Hw. set (x' := mkWorld _ _ (out x)).
  destruct (send_frames_spec ok true _ x' (numbered_header _ n ps)) as (bs & Hpre & Hs & Hwr & Hal & _).
  destruct (send_frames ok true _ x') as [r y]. simpl in *.
  assert (Hbs : Forall (fun b => (headerBytes (framer (writer x)) <= length b)%nat) bs).
  { destruct Hpre as [k Hk]. pose proof (numbered_header (turnRef (framer (writer x))) n ps) as H.
    rewrite Hk in H. by apply Forall_app in H as [? _]. }
  constructor; rewrite ?Hwr, ?Hal; simpl; try done.
  - eauto.
  - exists (items ++ map Binary bs). rewrite Hs, Hsent, app_assoc. split; [done|].
    by apply (stream_shape_audio x y); rewrite ?Hwr.
Qed.

Lemma finish_inv status x prefix :
  writer_inv x prefix -> writer_inv (finish ok status x).2 prefix.
Proof.
  intros Hinv. unfold finish. destruct (ended (writer x)) eqn:Hen; [done|].
  destruct Hinv as [Hsz Hp (n & Ha) Hms (items & Hsent & Hsh)].
  cbn [writer alloc out framer set_ended]. rewrite Ha.
  destruct (Flush_spec (framer (writer x)) n) as (ps & -> & Hps & _).
  set (x' := mkWorld _ _ (out x)).
  destruct (send_frames_spec ok false _ x' (numbered_header _ n ps)) as (bs & Hpre & Hs & Hwr & Hal & _).
  destruct (send_frames ok false _ x') as [r y]. simpl in Hpre, Hs, Hwr, Hal.
  assert (Hbs : Forall (fun b => (headerBytes (framer (writer x)) <= length b)%nat) bs).
  { destruct Hpre as [k Hk]. pose proof (numbered_header (turnRef (framer (writer x))) n ps) as H.
    rewrite Hk in H. by apply Forall_app in H as [? _]. }
  assert (Hy : forall y', writer y' = writer y -> alloc y' = alloc y ->
    (exists items', sent (out y') = prefix ++ items' /\ stream_shape y' items') ->
    writer_inv y' prefix).
  { intros y' Hwy Hay Hi. constructor; rewrite ?Hwy, ?Hay, ?Hwr, ?Hal; simpl; try done; [|eauto].
    eapply Nat.le_lt_trans; [|exact Hp]. simpl. lia. }
  destruct Hsh as (bs1 & e & bs2 & -> & Hb & Hsb & He & _). specialize (He Hen) as ->.
  cbn [app] in *. rewrite <-map_app in *.
  assert (Hall : Forall (fun b => (headerBytes (framer (writer x)) <= length b)%nat) ((bs1 ++ bs2) ++ bs))
    by by apply Forall_app.
  assert (Hsby : sentBytes (writer y) = audio_bytes (headerBytes (framer (writer x))) ((bs1 ++ bs2) ++ bs)).
  { rewrite Hwr. simpl. rewrite Hsb. symmetry. apply audio_bytes_app. }
  assert (Hfy : headerBytes (framer (writer y)) = headerBytes (framer (writer x)))
    by by rewrite Hwr.
  rewrite <-Hfy in Hall, Hsby.
  assert (Hplain : exists items', sent (out y) = prefix ++ items' /\ stream_shape y items').
  { exists (map Binary ((bs1 ++ bs2) ++ bs)). split; [|by apply stream_shape_plain].
    by rewrite Hs, Hsent, (map_app Binary (bs1 ++ bs2) bs), <-app_assoc. }
  destruct r as [[]|err]; [|by apply Hy].
  unfold send. destruct (ok _ _); [|by apply Hy].
  apply Hy; [done|done|]. simpl.
  assert (0 < BytesPerMS (format (framer (writer y)))) as Hms' by by rewrite Hwr.
  rewrite (proj2 (Z.ltb_lt _ _) Hms').
  eexists. split; [|apply (stream_shape_end y ((bs1 ++ bs2) ++ bs) status Hall Hsby); by rewrite Hwr].
  by rewrite Hs, Hsent, (map_app Binary (bs1 ++ bs2) bs), <-!app_assoc.
Qed.

Lemma calls_inv cs x prefix :
  writer_inv x prefix -> writer_inv (foldl (fun x c => writer_call ok c x) x cs) prefix.
Proof.
  apply (foldl_keeps _ (fun x => writer_inv x prefix)). intros y c _ Hy.
  destruct c; [by apply Audio_inv|by apply finish_inv|by apply finish_inv].
Qed.
End calls.

Lemma formatOrClient_pos u : 0 < BytesPerMS (formatOrClient u).
Proof.
  unfold formatOrClient. destruct (Z.leb_spec (BytesPerMS (Format u)) 0); [reflexivity|done].
Qed.

Lemma frameMSOrDefault_pos u : 0 < frameMSOrDefault u.
Proof. unfold frameMSOrDefault, ClientFrameMS. destruct (Z.ltb_spec 0 (FrameMS u)); lia. Qed.

Lemma FrameBytes_pos f ms : 0 < BytesPerMS f -> 0 < ms -> 0 < FrameBytes f ms.
Proof.
  intros. unfold FrameBytes. rewrite !(proj2 (Z.leb_gt _ _)) by done. simpl. lia.
Qed.

(** A stream that began is well-formed and owns exactly its start frame. *)
Lemma begin_inv ok u sink n ref live w x :
  beginUtterance ok u sink (Some (mkSeq n)) ref live w = Ok x ->
  writer_inv x (sent w ++ [AITTSStart (UID u) (VoiceID u) (SampleRate (formatOrClient u))
                             (codecOrPCM u) ref]) /\
  alloc x = Some (mkSeq n) /\ ended (writer x) = false /\
  framer (writer x) = newAudioFramer ref (formatOrClient u) (frameMSOrDefault u) /\
  turnID (writer x) = UID u /\ sentBytes (writer x) = 0 /\
  sent (out x) = sent w ++ [AITTSStart (UID u) (VoiceID u) (SampleRate (formatOrClient u))
                             (codecOrPCM u) ref].
Proof.
  unfold beginUtterance. destruct (negb sink); [done|].
  destruct (String.eqb (TrimSpace (UID u)) ""); [done|].
  unfold send. destruct (ok _ _); intros; simplify_eq/=.
  pose proof (formatOrClient_pos u) as Hf. pose proof (frameMSOrDefault_pos u) as Hm.
  assert (Hsz : 0 < frame_size (newAudioFramer ref (formatOrClient u) (frameMSOrDefault u))).
  { unfold frame_size, newAudioFramer. simpl. rewrite (proj2 (Z.leb_gt _ _)) by done.
    by apply FrameBytes_pos. }
  split; [|done]. constructor; simpl; try done; [lia|eauto|].
  exists []. rewrite app_nil_r. split; [done|]. by apply (stream_shape_plain _ []).
Qed.

Lemma newAudioFramer_ms ref fmt ms : 0 < ms -> newAudioFramer ref fmt ms = mkFramer ref fmt ms [].
Proof. intros. unfold newAudioFramer. by rewrite (proj2 (Z.leb_gt _ _)). Qed.

(** A sink that never fails, no liveness callback. *)
Definition always : nat -> ProviderOutbound -> bool := fun _ _ => true.

Lemma send_numbered_always check ps n x :
  live (writer x) = None ->
  let frames := numbered (turnRef (framer (writer x))) n ps in
  send_frames always check frames x =
    (Ok tt, mkWorld (add_sent (Z.of_nat (length (concat ps))) (writer x)) (alloc x)
              (mkWire (attempts (out x) + length ps) (sent (out x) ++ map Binary frames))).
Proof.
  revert n x. induction ps as [|p ps IH]; intros n x Hl.
  { simpl. rewrite add_sent_0, app_nil_r, Nat.add_0_r. by destruct x as [? ? []]. }
  cbn [numbered send_frames concat length map]. rewrite Hl, andb_false_r. unfold send. cbn [always].
  set (x' := mkWorld _ (alloc x) _).
  assert (Hl' : live (writer x') = None) by done.
  specialize (IH ((n + 1) mod 2 ^ 32) x' Hl').
  change (turnRef (framer (writer x))) with (turnRef (framer (writer x'))).
  cbv zeta in IH. rewrite IH. unfold x'. cbn [writer alloc out attempts sent]. f_equal. f_equal.
  - unfold add_sent, frame_audio, headerBytes. cbn [framer turnID voiceID codec live ended sentBytes].
    rewrite length_header, length_app. f_equal. lia.
  - f_equal; [lia|by rewrite <-app_assoc].
Qed.

(** Feeding chunks to a live writer with a working sink is framing them. *)
Lemma audio_all chunks x n :
  live (writer x) = None -> alloc x = Some (mkSeq n) ->
  0 < frame_size (framer (writer x)) ->
  (length (pending (framer (writer x))) < Z.to_nat (frame_size (framer (writer x))))%nat ->
  exists ps rest k,
    foldl (fun x c => writer_call always c x) x (map CAudio chunks) =
      mkWorld (add_sent (Z.of_nat (length (concat ps)))
                 (set_framer (set_pending rest (framer (writer x))) (writer x)))
        (Some (mkSeq (advance (length ps) n)))
        (mkWire k (sent (out x) ++ map Binary (numbered (turnRef (framer (writer x))) n ps))) /\
    framed (Z.to_nat (frame_size (framer (writer x)))) ps rest
      (pending (framer (writer x)) ++ concat chunks).
Proof.
  revert x n. induction chunks as [|c chunks IH]; intros x n Hl Ha Hs Hp.
  { exists [], (pending (framer (writer x))), (attempts (out x)). simpl.
    rewrite !app_nil_r, add_sent_0. split; [|done].
    destruct x as [[[] ? ? ? ? ? ?] ? []]. simpl in *. by subst. }
  destruct (Write_frames c (framer (writer x)) n Hs Hp) as (ps & rest & Hw & Hfr).
  assert (Hc : exists k, writer_call always (CAudio c) x =
    mkWorld (add_sent (Z.of_nat (length (concat ps)))
               (set_framer (set_pending rest (framer (writer x))) (writer x)))
      (Some (mkSeq (advance (length ps) n)))
      (mkWire k (sent (out x) ++ map Binary (numbered (turnRef (framer (writer x))) n ps)))).
  { unfold writer_call, Audio. destruct c as [|b c].
    - assert (ps = [] /\ rest = pending (framer (writer x))) as [-> ->].
      { apply (framed_inj _ _ _ _ _ _ Hfr). rewrite app_nil_r. done. }
      exists (attempts (out x)). simpl. rewrite add_sent_0, app_nil_r.
      destruct x as [[[] ? ? ? ? ? ?] ? []]. simpl in *. by subst.
    - fold (frame_size (framer (writer x))). rewrite (proj2 (Z.leb_gt _ _)) by done.
      rewrite Ha, Hw. set (x' := mkWorld _ _ (out x)).
      change (turnRef (framer (writer x))) with (turnRef (framer (writer x'))).
      rewrite (send_numbered_always true ps n x' Hl). simpl. by eexists. }
  destruct Hc as [k Hc]. cbn [map foldl]. rewrite Hc. set (x' := mkWorld _ _ _).
  destruct (IH x' (advance (length ps) n)) as (qs & rest' & k' & -> & Hfr').
  { done. } { done. } { done. } { by destruct Hfr as (_ & _ & ?). }
  exists (ps ++ qs), rest', k'. simpl in *. split.
  - rewrite numbered_app, map_app, advance_add, length_app, concat_app, length_app, <-app_assoc.
    unfold add_sent, set_framer, set_pending. simpl. f_equal. f_equal. lia.
  - rewrite app_assoc. eapply framed_app; [exact Hfr|exact Hfr'].
Qed.

Definition is_end (o : ProviderOutbound) : bool :=
  match o with AITTSEnd _ _ _ _ => true | _ => false end.

Lemma stream_shape_one_end x items :
  stream_shape x items -> (length (filter (fun o => is_end o = true) items) <= 1)%nat.
Proof.
  assert (Hb : forall bs, filter (fun o => is_end o = true) (map Binary bs) = []).
  { intros bs. induction bs as [|b bs IH]; [done|]. simpl. by rewrite filter_cons, decide_False. }
  intros (bs1 & e & bs2 & -> & _ & _ & _ & He). rewrite !filter_app, !Hb. simpl.
  rewrite app_nil_r. destruct He as [->|[st ->]]; simpl; lia.
Qed.

(** ** Properties *)

(** the frame numbers of a session.  Whoever draws them (the provider's
    stream and the ladder's writer share one allocator), the first [k] numbers
    of a session are 1, 2, ..., k for every [k] below 2^32: never repeated,
    never zero, never behind a number already on the wire. *)
Theorem session_frame_numbers k :
  Z.of_nat k < 2 ^ 32 ->
  draws k (Some NewSeqAllocator) = map (fun i => 1 + Z.of_nat i) (seq 0 k).
Proof. intros. unfold NewSeqAllocator. by rewrite draws_seq by lia. Qed.

Lemma session_frame_numbers_witness : draws 4 (Some NewSeqAllocator) = [1; 2; 3; 4].
Proof. apply (session_frame_numbers 4). reflexivity. Defined.

(** framing does not depend on how the provider chunks its audio.  Two
    sequences of chunks with the same bytes produce the same frames with the
    same numbers, and leave the same framer and allocator. *)
Theorem framing_ignores_chunking ref fmt ms n cs1 cs2 :
  0 < FrameBytes fmt ms -> concat cs1 = concat cs2 ->
  WriteAll cs1 (newAudioFramer ref fmt ms) (Some (mkSeq n)) =
  WriteAll cs2 (newAudioFramer ref fmt ms) (Some (mkSeq n)).
Proof.
  intros Hs Hc. set (f := newAudioFramer ref fmt ms).
  assert (Hf : 0 < frame_size f).
  { unfold f, frame_size, newAudioFramer. simpl. destruct (Z.leb_spec ms 0); [|done].
    unfold FrameBytes in Hs. rewrite (proj2 (Z.leb_le ms 0)), orb_true_r in Hs by done. lia. }
  assert (Hp : (length (pending f) < Z.to_nat (frame_size f))%nat) by (simpl; lia).
  destruct (WriteAll_spec cs1 f n Hf Hp) as (ps & r & -> & H1).
  destruct (WriteAll_spec cs2 f n Hf Hp) as (qs & r' & -> & H2).
  rewrite Hc in H1. by destruct (framed_inj _ _ _ _ _ _ H1 H2) as [-> ->].
Qed.

Lemma framing_ignores_chunking_witness :
  WriteAll [replicate 5 "a"%char; replicate 4 "b"%char]
    (newAudioFramer (Some 9) (mkFormat 1000 1 16) 2) (Some (mkSeq 41)) =
  WriteAll [replicate 5 "a"%char ++ ["b"%char]; replicate 3 "b"%char]
    (newAudioFramer (Some 9) (mkFormat 1000 1 16) 2) (Some (mkSeq 41)).
Proof. apply framing_ignores_chunking; reflexivity. Defined.

(** framing loses and reorders nothing.  The payloads of the frames of a
    stream and of its final flush are the bytes written, in order; every frame
    before the flush carries exactly one frame's worth of audio, the flush at
    most one frame, and the frames carry the allocator's successive numbers. *)
Theorem framing_lossless ref fmt ms n chunks :
  0 < FrameBytes fmt ms -> 0 < ms ->
  let '(frames, f1, a1) := WriteAll chunks (newAudioFramer ref fmt ms) (Some (mkSeq n)) in
  let '(tail, f2, _) := Flush f1 a1 in
  let header := HeaderBytes (AudioFrameLayoutFor ref) in
  concat (map (drop header) (frames ++ tail)) = concat chunks /\
  Forall (fun raw => length raw = (header + Z.to_nat (FrameBytes fmt ms))%nat) frames /\
  (length tail <= 1)%nat /\ pending f2 = [] /\
  map (fun raw => Uint32 (take 4 raw)) (frames ++ tail) =
    draws (length (frames ++ tail)) (Some (mkSeq n)).
Proof.
  intros Hs Hms. set (f := newAudioFramer ref fmt ms).
  assert (Hf : frame_size f = FrameBytes fmt ms)
    by (unfold f, frame_size; by rewrite newAudioFramer_ms).
  assert (Hp : (length (pending f) < Z.to_nat (frame_size f))%nat) by (rewrite Hf; simpl; lia).
  destruct (WriteAll_spec chunks f n ltac:(lia) Hp) as (ps & r & -> & Hc & Hl & _).
  destruct (Flush_spec (set_pending r f) (advance (length ps) n)) as (qs & -> & Hq & Hqn).
  change (turnRef (set_pending r f)) with ref. change (turnRef f) with ref.
  cbv zeta. rewrite <-numbered_app, numbered_payloads, numbered_seqs, concat_app, Hq.
  rewrite !length_numbered. rewrite <-Hf.
  repeat split; try done; by apply numbered_lengths.
Qed.

Lemma framing_lossless_witness :
  let '(frames, f1, a1) := WriteAll [replicate 5 "a"%char; replicate 4 "b"%char]
      (newAudioFramer None (mkFormat 1000 1 16) 2) (Some (mkSeq 0)) in
  let '(tail, f2, _) := Flush f1 a1 in
  concat (map (drop 4) (frames ++ tail)) = replicate 5 "a"%char ++ replicate 4 "b"%char.
Proof.
  pose proof (framing_lossless None (mkFormat 1000 1 16) 2 0
    [replicate 5 "a"%char; replicate 4 "b"%char] eq_refl eq_refl) as H.
  vm_compute in H |- *. apply H.
Defined.

(** a stream is announced once and ended at most once.  Whatever the sink
    does and however [Audio], [End] and [Interrupt] interleave, the wire carries
    the start frame, binary frames, and at most one end frame, whose duration is
    the audio that reached the client before it. *)
Theorem stream_ends_once ok u sink n ref live w x cs :
  beginUtterance ok u sink (Some (mkSeq n)) ref live w = Ok x ->
  exists items,
    sent (out (foldl (fun x c => writer_call ok c x) x cs)) =
      sent w ++ AITTSStart (UID u) (VoiceID u) (SampleRate (formatOrClient u)) (codecOrPCM u) ref
        :: items /\
    (length (filter (fun o => is_end o = true) items) <= 1)%nat /\
    stream_shape (foldl (fun x c => writer_call ok c x) x cs) items.
Proof.
  intros (Hinv & _)%begin_inv.
  destruct (inv_wire _ _ (calls_inv ok cs x _ Hinv)) as (items & Hs & Hsh).
  exists items. rewrite Hs, <-app_assoc. split; [done|].
  split; [by eapply stream_shape_one_end|done].
Qed.

Definition rung : Utterance :=
  mkUtterance "turn-1" UtteranceLadder (mkFormat 1000 1 16) 2 "rescue" "".

Definition rung_world : world :=
  mkWorld (mkWriter (mkFramer (Some 9) (mkFormat 1000 1 16) 2 []) "turn-1" "rescue" "pcm" None false 0)
    (Some (mkSeq 0)) (mkWire 1 [AITTSStart "turn-1" "rescue" 1000 "pcm" (Some 9)]).

Lemma stream_ends_once_witness :
  beginUtterance always rung true (Some (mkSeq 0)) (Some 9) None (mkWire 0 []) = Ok rung_world /\
  exists items, (length (filter (fun o => is_end o = true) items) <= 1)%nat /\
    sent (out (foldl (fun x c => writer_call always c x) rung_world
                 [CAudio (replicate 5 "a"%char); CInterrupt; CEnd])) =
      AITTSStart "turn-1" "rescue" 1000 "pcm" (Some 9) :: items.
Proof.
  split; [reflexivity|].
  destruct (stream_ends_once always rung true 0 (Some 9) None (mkWire 0 []) rung_world
    [CAudio (replicate 5 "a"%char); CInterrupt; CEnd] eq_refl) as (items & H1 & H2 & _).
  exists items. split; [exact H2|exact H1].
Defined.

(** a stream delivers what it was given.  With a working sink and nobody
    else ending it, feeding any chunks and then [End] puts on the wire the start
    frame, frames whose payloads are exactly the chunks' bytes in order, and an
    end frame with status ok and the duration of all the audio. *)
Theorem stream_delivers u n ref w x chunks :
  beginUtterance always u true (Some (mkSeq n)) ref None w = Ok x ->
  exists frames,
    sent (out (foldl (fun x c => writer_call always c x) x (map CAudio chunks ++ [CEnd]))) =
      sent w ++ AITTSStart (UID u) (VoiceID u) (SampleRate (formatOrClient u)) (codecOrPCM u) ref
        :: map Binary frames
        ++ [AITTSEnd (UID u) "ok"
              (Z.quot (Z.of_nat (length (concat chunks))) (BytesPerMS (formatOrClient u))) ref] /\
    concat (map (drop (HeaderBytes (AudioFrameLayoutFor ref))) frames) = concat chunks.
Proof.
  intros Hb. assert (Hl : live (writer x) = None).
  { revert Hb. unfold beginUtterance, send. simpl.
    destruct (String.eqb _ _); intros; simplify_eq/=; done. }
  apply begin_inv in Hb as ([Hsz Hp _ Hms _] & Ha & He & Hf & Ht & Hsb & Hs).
  destruct (audio_all chunks x n Hl Ha Hsz Hp) as (ps & rest & k & Hall & Hfr).
  rewrite foldl_app, Hall. cbn [foldl writer_call]. unfold End_, finish.
  cbn [writer ended set_framer add_sent]. rewrite He. cbn [alloc framer set_ended].
  set (f := set_pending rest (framer (writer x))).
  change (framer (add_sent ?z (set_framer f ?w))) with f.
  destruct (Flush_spec f (advance (length ps) n)) as (qs & -> & Hq & _).
  set (x' := mkWorld _ _ _).
  change (turnRef f) with (turnRef (framer (writer x'))).
  rewrite (send_numbered_always false qs (advance (length ps) n) x' Hl).
  cbn. unfold x', f. cbn. rewrite Hf in *. cbn in *.
  rewrite (proj2 (Z.ltb_lt _ _)) by done.
  exists (numbered ref n (ps ++ qs)). rewrite numbered_payloads, numbered_app, concat_app, Hq.
  destruct Hfr as (Hc & _ & _). rewrite Hc. split; [|done].
  rewrite Hs, Ht, map_app, <-!app_assoc. cbn [app]. do 5 f_equal.
  rewrite <-Hc, length_app, Hsb. do 2 f_equal. lia.
Qed.

Lemma stream_delivers_witness :
  exists frames,
    sent (out (foldl (fun x c => writer_call always c x) rung_world
                 (map CAudio [replicate 5 "a"%char; replicate 4 "b"%char] ++ [CEnd]))) =
      AITTSStart "turn-1" "rescue" 1000 "pcm" (Some 9) :: map Binary frames
        ++ [AITTSEnd "turn-1" "ok" 4 (Some 9)] /\
    concat (map (drop 8) frames) = replicate 5 "a"%char ++ replicate 4 "b"%char.
Proof.
  apply (stream_delivers rung 0 (Some 9) (mkWire 0 []) rung_world
    [replicate 5 "a"%char; replicate 4 "b"%char] eq_refl).
Defined.
