(* ===== verification/Resampler.v ===== *)
(** * The streaming 3:2 resampler (internal/voicegateway/pcm_resampler.go)

    Samples are signed 16-bit little endian.  The source interpolates in
    float64; the position's fraction is 0 or 1/2 and both samples are 16-bit, so
    every intermediate value is a half-integer float64 holds exactly, and the
    conversion to int16 truncates towards zero.  The model computes the same
    value in integers: [Z.quot (2a + (b - a) * odd) 2].  A slice out of range
    panics in Go, hence the option results. *)
From S2P Require Import Prelude GoString Audio.

Open Scope Z_scope.

Definition resampleInSamples : Z := duplexOutputRate / 8000.
Definition resampleOutSamples : Z := clientPlaybackRate / 8000.

Record pcmResampler := mkResampler {
  pending : bytes;
  base : Z;
  outIndex : Z;
}.

Definition NewResampler : pcmResampler := mkResampler [] 0 0.

(** [binary.LittleEndian.Uint16(b[off:])] as an int16; [None] out of range. *)
Definition int16_at (b : bytes) (off : Z) : option Z :=
  if off <? 0 then None else
  match drop (Z.to_nat off) b with
  | lo :: hi :: _ =>
      let u := byte_val lo + 256 * byte_val hi in
      Some (if u <? 32768 then u else u - 65536)
  | _ => None
  end.

(** [binary.LittleEndian.PutUint16(buf, uint16(sample))] *)
Definition put_int16 (v : Z) : bytes := [byte_of v; byte_of (v / 256)].

(** The sample between [a] and [b] at output index [i]. *)
Definition blend (i a b : Z) : Z := Z.quot (2 * a + (b - a) * (i mod 2)) 2.

Definition interpolate (r : pcmResampler) (lo hi : Z) : option bytes :=
  match int16_at (pending r) ((lo - base r) * 2), int16_at (pending r) ((hi - base r) * 2) with
  | Some a, Some b => Some (put_int16 (blend (outIndex r) a b))
  | _, _ => None
  end.

(** [r.outIndex * resampleInSamples / resampleOutSamples] *)
Definition source_index (i : Z) : Z := Z.quot (i * resampleInSamples) resampleOutSamples.

(** The loop of [Write].  Every round consumes at least one of the [totalIn]
    input samples, which bounds the rounds. *)
Fixpoint emit (fuel : nat) (totalIn : Z) (r : pcmResampler) (out : bytes)
  : option (bytes * pcmResampler) :=
  let lo := source_index (outIndex r) in
  let hi := lo + 1 in
  if totalIn - 1 <? hi then Some (out, r) else
  match fuel with
  | O => None
  | S fuel =>
      match interpolate r lo hi with
      | None => None
      | Some s =>
          emit fuel totalIn (mkResampler (pending r) (base r) (outIndex r + 1)) (out ++ s)
      end
  end.

Definition Write (chunk : bytes) (r : pcmResampler) : option (bytes * pcmResampler) :=
  let r := mkResampler (pending r ++ chunk) (base r) (outIndex r) in
  let totalIn := base r + Z.quot (Z.of_nat (length (pending r))) 2 in
  match emit (length (pending r)) totalIn r [] with
  | None => None
  | Some (out, r) =>
      let next := source_index (outIndex r) in
      if base r <? next then
        let cut := (next - base r) * 2 in
        if Z.of_nat (length (pending r)) <? cut then None
        else Some (out, mkResampler (drop (Z.to_nat cut) (pending r)) next (outIndex r))
      else Some (out, r)
  end.

Definition OutSamples (r : pcmResampler) : Z := outIndex r.

(** provider_volc_duplex.go: the batch form. *)
Definition resampleToPlaybackRate (pcm : bytes) : option bytes :=
  fst <$> Write pcm NewResampler.

(** A stream of chunks; the output is what the client receives. *)
Fixpoint WriteAll (chunks : list bytes) (r : pcmResampler) : option (bytes * pcmResampler) :=
  match chunks with
  | [] => Some ([], r)
  | c :: cs =>
      match Write c r with
      | None => None
      | Some (o1, r1) =>
          match WriteAll cs r1 with
          | None => None
          | Some (o2, r2) => Some (o1 ++ o2, r2)
          end
      end
  end.

(** ** Reference definition

    The batch resampling of a whole recording [x]: output [i] interpolates the
    input samples [3i/2] and [3i/2 + 1]. *)
Definition sample (x : bytes) (k : Z) : Z := default 0 (int16_at x (2 * k)).

Definition out_sample (x : bytes) (i : Z) : bytes :=
  put_int16 (blend i (sample x (source_index i)) (sample x (source_index i + 1))).

Definition samples_in (x : bytes) : Z := Z.of_nat (length x) / 2.

(** How many outputs [t] input samples complete. *)
Definition outputs (t : Z) : Z := 2 * t / 3.

Definition reference_from (x : bytes) (i : Z) (n : nat) : bytes :=
  concat (map (fun j => out_sample x (i + Z.of_nat j)) (seq 0 n)).

Definition reference (x : bytes) : bytes :=
  reference_from x 0 (Z.to_nat (outputs (samples_in x))).

(** ** Lemmas *)

Lemma source_index_eq i : 0 <= i -> source_index i = i * 3 / 2.
Proof.
  intros. unfold source_index. change resampleInSamples with 3. change resampleOutSamples with 2.
  by rewrite Z.quot_div_nonneg by lia.
Qed.

Lemma reference_from_S x i n :
  reference_from x i (S n) = out_sample x i ++ reference_from x (i + 1) n.
Proof.
  unfold reference_from. cbn [seq map concat]. rewrite Z.add_0_r. f_equal.
  rewrite <-seq_shift, map_map. f_equal. apply map_ext. intros j. f_equal. lia.
Qed.

Lemma reference_from_app x i n m :
  reference_from x i (n + m) = reference_from x i n ++ reference_from x (i + Z.of_nat n) m.
Proof.
  revert i. induction n as [|n IH]; intros i; [by rewrite Z.add_0_r|].
  cbn [Nat.add]. rewrite !reference_from_S, IH, <-app_assoc.
  by replace (i + 1 + Z.of_nat n) with (i + Z.of_nat (S n)) by lia.
Qed.

Lemma int16_at_app x y off v : int16_at x off = Some v -> int16_at (x ++ y) off = Some v.
Proof.
  unfold int16_at. destruct (Z.ltb_spec off 0); [done|]. rewrite drop_app.
  by destruct (drop _ x) as [|a [|b t]].
Qed.

Lemma int16_at_Some x off :
  0 <= off -> off + 1 < Z.of_nat (length x) -> is_Some (int16_at x off).
Proof.
  intros. unfold int16_at. destruct (Z.ltb_spec off 0); [lia|].
  destruct (drop _ x) as [|a [|b t]] eqn:Hd; [| |by eexists];
    apply (f_equal length) in Hd; rewrite length_drop in Hd; simpl in Hd; lia.
Qed.

Lemma int16_at_drop x n off :
  0 <= off -> int16_at (drop n x) off = int16_at x (Z.of_nat n + off).
Proof.
  intros. unfold int16_at. rewrite drop_drop.
  destruct (Z.ltb_spec off 0), (Z.ltb_spec (Z.of_nat n + off) 0); try lia.
  by replace (Z.to_nat (Z.of_nat n + off)) with (n + Z.to_nat off)%nat by lia.
Qed.

Lemma loop_guard i t : 0 <= i -> (t - 1 <? source_index i + 1) = (outputs t <=? i).
Proof.
  intros. rewrite source_index_eq by done. unfold outputs.
  pose proof (Z.div_mod (i * 3) 2). pose proof (Z.mod_pos_bound (i * 3) 2).
  pose proof (Z.div_mod (2 * t) 3). pose proof (Z.mod_pos_bound (2 * t) 3).
  destruct (Z.ltb_spec (t - 1) (i * 3 / 2 + 1)), (Z.leb_spec (2 * t / 3) i); lia.
Qed.

Lemma samples_in_bound x : 2 * samples_in x <= Z.of_nat (length x) < 2 * samples_in x + 2.
Proof.
  unfold samples_in. pose proof (Z.div_mod (Z.of_nat (length x)) 2).
  pose proof (Z.mod_pos_bound (Z.of_nat (length x)) 2). lia.
Qed.

Lemma outputs_bound t : 0 <= t -> 0 <= outputs t /\ 3 * outputs t <= 2 * t < 3 * outputs t + 3.
Proof.
  intros. unfold outputs. pose proof (Z.div_mod (2 * t) 3). pose proof (Z.mod_pos_bound (2 * t) 3).
  split; [apply Z.div_pos; lia|lia].
Qed.

(** One sample, read from the window of input that is kept. *)
Lemma interpolate_spec x b i :
  0 <= i -> 0 <= b <= source_index i -> source_index i + 1 < samples_in x ->
  interpolate (mkResampler (drop (Z.to_nat (2 * b)) x) b i) (source_index i) (source_index i + 1)
    = Some (out_sample x i).
Proof.
  intros Hi Hb Hs. unfold interpolate, out_sample, sample. cbn [pending base outIndex].
  pose proof (samples_in_bound x).
  rewrite !int16_at_drop by lia.
  replace (Z.of_nat (Z.to_nat (2 * b)) + (source_index i - b) * 2)
    with (2 * source_index i) by lia.
  replace (Z.of_nat (Z.to_nat (2 * b)) + (source_index i + 1 - b) * 2)
    with (2 * (source_index i + 1)) by lia.
  destruct (int16_at_Some x (2 * source_index i)) as [a ->]; [lia|lia|].
  destruct (int16_at_Some x (2 * (source_index i + 1))) as [c ->]; [lia|lia|]. done.
Qed.

Lemma emit_spec x b fuel i out :
  0 <= i <= outputs (samples_in x) -> 0 <= b <= source_index i ->
  outputs (samples_in x) - i <= Z.of_nat fuel ->
  emit fuel (samples_in x) (mkResampler (drop (Z.to_nat (2 * b)) x) b i) out =
    Some (out ++ reference_from x i (Z.to_nat (outputs (samples_in x) - i)),
          mkResampler (drop (Z.to_nat (2 * b)) x) b (outputs (samples_in x))).
Proof.
  revert i out. induction fuel as [|fuel IH]; intros i out Hi Hb Hf;
    cbn [emit outIndex pending base]; rewrite loop_guard by lia;
    destruct (Z.leb_spec (outputs (samples_in x)) i).
  - assert (i = outputs (samples_in x)) as -> by lia. rewrite Z.sub_diag. simpl.
    by rewrite app_nil_r.
  - lia.
  - assert (i = outputs (samples_in x)) as -> by lia. rewrite Z.sub_diag. simpl.
    by rewrite app_nil_r.
  - pose proof (loop_guard i (samples_in x) ltac:(lia)) as Hg.
    rewrite (proj2 (Z.leb_gt _ _)) in Hg by lia. apply Z.ltb_ge in Hg.
    rewrite interpolate_spec by lia.
    assert (source_index i <= source_index (i + 1))
      by (rewrite !source_index_eq by lia; apply Z.div_le_mono; lia).
    rewrite IH by lia. rewrite <-app_assoc, <-reference_from_S.
    by replace (S (Z.to_nat (outputs (samples_in x) - (i + 1))))
      with (Z.to_nat (outputs (samples_in x) - i)) by lia.
Qed.

(** The state after the input [x], however it was chunked. *)
Definition state_after (x : bytes) : pcmResampler :=
  let n := outputs (samples_in x) in
  mkResampler (drop (Z.to_nat (2 * source_index n)) x) (source_index n) n.

Lemma samples_nonneg x : 0 <= samples_in x.
Proof. unfold samples_in. apply Z.div_pos; lia. Qed.

Lemma samples_mono x c : samples_in x <= samples_in (x ++ c).
Proof. unfold samples_in. apply Z.div_le_mono; [lia|]. rewrite length_app. lia. Qed.

(** An output only reads input that was complete when it was produced. *)
Lemma out_sample_app x c i :
  0 <= i < outputs (samples_in x) -> out_sample (x ++ c) i = out_sample x i.
Proof.
  intros Hi. unfold out_sample, sample. pose proof (samples_in_bound x).
  pose proof (outputs_bound _ (samples_nonneg x)).
  pose proof (loop_guard i (samples_in x) ltac:(lia)) as Hg.
  rewrite (proj2 (Z.leb_gt _ _)) in Hg by lia. apply Z.ltb_ge in Hg.
  assert (0 <= source_index i) by (rewrite source_index_eq by lia; apply Z.div_pos; lia).
  destruct (int16_at_Some x (2 * source_index i)) as [a Ha]; [lia|lia|].
  destruct (int16_at_Some x (2 * (source_index i + 1))) as [b Hb]; [lia|lia|].
  by rewrite (int16_at_app _ _ _ _ Ha), (int16_at_app _ _ _ _ Hb), Ha, Hb.
Qed.

Lemma reference_from_prefix x c i n :
  0 <= i -> i + Z.of_nat n <= outputs (samples_in x) ->
  reference_from (x ++ c) i n = reference_from x i n.
Proof.
  revert i. induction n as [|n IH]; intros i Hi Hn; [done|].
  rewrite !reference_from_S, out_sample_app, IH by lia. done.
Qed.

Lemma Write_spec x c :
  exists o, Write c (state_after x) = Some (o, state_after (x ++ c)) /\
    reference (x ++ c) = reference x ++ o.
Proof.
  pose proof (samples_in_bound x). pose proof (samples_in_bound (x ++ c)) as Hb'.
  pose proof (outputs_bound _ (samples_nonneg x)) as Hq.
  pose proof (outputs_bound _ (samples_nonneg (x ++ c))) as Hq'.
  pose proof (samples_mono x c) as Hm.
  set (n := outputs (samples_in x)) in *. set (n' := outputs (samples_in (x ++ c))) in *.
  assert (Hn : n <= n') by lia.
  assert (Hs : 0 <= source_index n <= samples_in x).
  { rewrite source_index_eq by lia. split; [apply Z.div_pos; lia|].
    apply Z.div_le_upper_bound; lia. }
  assert (Hs' : source_index n <= source_index n' <= samples_in (x ++ c)).
  { rewrite !source_index_eq by lia. split; [apply Z.div_le_mono; lia|].
    apply Z.div_le_upper_bound; lia. }
  assert (H3 : 2 * source_index n <= 3 * n).
  { rewrite source_index_eq by lia. pose proof (Z.div_mod (n * 3) 2).
    pose proof (Z.mod_pos_bound (n * 3) 2). lia. }
  assert (Hp : drop (Z.to_nat (2 * source_index n)) x ++ c =
               drop (Z.to_nat (2 * source_index n)) (x ++ c)).
  { rewrite drop_app_le by lia. done. }
  unfold Write, state_after. fold n n'. cbn [pending base outIndex]. rewrite Hp.
  set (p := drop (Z.to_nat (2 * source_index n)) (x ++ c)).
  assert (Hlp : Z.of_nat (length p) = Z.of_nat (length (x ++ c)) - 2 * source_index n).
  { unfold p. rewrite length_drop. rewrite length_app in *. lia. }
  assert (Ht : source_index n + Z.quot (Z.of_nat (length p)) 2 = samples_in (x ++ c)).
  { rewrite Z.quot_div_nonneg, Hlp by lia. unfold samples_in.
    replace (Z.of_nat (length (x ++ c)) - 2 * source_index n)
      with (Z.of_nat (length (x ++ c)) + (- source_index n) * 2) by lia.
    rewrite Z.div_add by lia. lia. }
  rewrite Ht. unfold p. rewrite emit_spec by (fold p n'; lia). fold p n'. cbn [base outIndex pending].
  eexists. split.
  - destruct (Z.ltb_spec (source_index n) (source_index n')) as [Hlt|Hge].
    + destruct (Z.ltb_spec (Z.of_nat (length p)) ((source_index n' - source_index n) * 2)); [lia|].
      f_equal. f_equal. f_equal. unfold p. rewrite drop_drop. f_equal. lia.
    + assert (source_index n' = source_index n) as -> by lia. done.
  - unfold reference. fold n n'. cbn [app].
    replace (Z.to_nat n') with (Z.to_nat n + Z.to_nat (n' - n))%nat by lia.
    rewrite reference_from_app. f_equal; [|f_equal; lia].
    apply reference_from_prefix; unfold n in *; lia.
Qed.

Lemma resample_all_spec cs x :
  exists o, WriteAll cs (state_after x) = Some (o, state_after (x ++ concat cs)) /\
    reference (x ++ concat cs) = reference x ++ o.
Proof.
  revert x. induction cs as [|c cs IH]; intros x; cbn [WriteAll concat].
  { exists []. by rewrite !app_nil_r. }
  destruct (Write_spec x c) as (o1 & -> & H1). destruct (IH (x ++ c)) as (o2 & -> & H2).
  exists (o1 ++ o2). rewrite <-app_assoc in *. split; [done|]. by rewrite H2, H1, app_assoc.
Qed.

(** ** Properties *)

(** C38: streaming equals batch.  Feeding a recording to the resampler in any
    chunking never panics and produces, byte for byte, the batch resampling of
    the whole recording; the state left depends only on the recording. *)
Theorem resampler_streaming_is_batch chunks :
  WriteAll chunks NewResampler =
    Some (reference (concat chunks), state_after (concat chunks)).
Proof.
  destruct (resample_all_spec chunks []) as (o & H & Hr).
  change (state_after []) with NewResampler in H. rewrite H. cbn [app] in *. by rewrite Hr.
Qed.

(** the resampler neither drifts nor hoards.  After [t] complete input
    samples it has emitted exactly [2t/3] output samples (two bytes each), and it
    retains at most one whole sample and an odd byte of input. *)
Theorem resampler_rate_and_memory chunks out r :
  WriteAll chunks NewResampler = Some (out, r) ->
  OutSamples r = 2 * samples_in (concat chunks) / 3 /\
  Z.of_nat (length out) = 2 * OutSamples r /\
  Z.of_nat (length (pending r)) <= 3.
Proof.
  intros H. destruct (resample_all_spec chunks []) as (o & H' & Hr).
  change (state_after []) with NewResampler in H'. rewrite H' in H. simplify_eq.
  cbn [app] in *. set (x := concat chunks) in *. change (reference []) with (@nil ascii) in Hr.
  simpl in Hr. subst out. pose proof (samples_in_bound x).
  pose proof (outputs_bound _ (samples_nonneg x)) as Hq.
  split; [done|]. cbn [OutSamples state_after outIndex pending]. split.
  - unfold reference. set (n := outputs (samples_in x)) in *.
    assert (Hl : forall i k, length (reference_from x i k) = (2 * k)%nat).
    { intros i k. revert i. induction k as [|k IH]; intros i; [done|].
      rewrite reference_from_S, length_app, IH. simpl. lia. }
    rewrite Hl. lia.
  - rewrite length_drop. set (n := outputs (samples_in x)) in *.
    assert (3 * n < 2 * source_index n + 2).
    { rewrite source_index_eq by lia. pose proof (Z.div_mod (n * 3) 2).
      pose proof (Z.mod_pos_bound (n * 3) 2). lia. }
    lia.
Qed.

Lemma resampler_rate_and_memory_witness :
  exists out r,
    WriteAll [["000"; "001"; "002"]%char; ["003"; "004"; "005"; "006"]%char] NewResampler
      = Some (out, r) /\
    OutSamples r = 2 /\ Z.of_nat (length out) = 4.
Proof.
  eexists _, _. split; [reflexivity|].
  destruct (resampler_rate_and_memory
    [["000"; "001"; "002"]%char; ["003"; "004"; "005"; "006"]%char] _ _ eq_refl) as (H1 & H2 & _).
  split; [exact H1|exact H2].
Defined.
