(* ===== verification/Turn.v ===== *)
(** * The conversational turn state machine (internal/voicegateway/turn.go)

    [TurnState] and [TurnEvent] are the source's enumerations,
    [turnTransitions] its whitelist, [Turn] the struct without its mutex (each
    method is one atomic step) and every method a function on a possibly nil
    receiver, as in Go.  Counters in [rejected] are unbounded. *)
From S2P Require Import Prelude GoString.

Open Scope Z_scope.

(** ** Data *)
Inductive TurnState := TurnIdle | TurnListening | TurnFinalizing | TurnSpeaking | TurnClosed.

Inductive TurnEvent :=
| EvUserSpeechStart | EvUserSpeechEnd | EvTurnAbort | EvAIFirstOutput | EvAIEnd.

#[export] Instance TurnState_eq_dec : EqDecision TurnState.
Proof. solve_decision. Defined.

(** [a == b] on states. *)
Definition state_eqb (a b : TurnState) : bool :=
  match a, b with
  | TurnIdle, TurnIdle | TurnListening, TurnListening | TurnFinalizing, TurnFinalizing
  | TurnSpeaking, TurnSpeaking | TurnClosed, TurnClosed => true
  | _, _ => false
  end.

#[export] Instance TurnEvent_eq_dec : EqDecision TurnEvent.
Proof. solve_decision. Defined.
#[export] Instance TurnEvent_countable : Countable TurnEvent.
Proof.
  refine (inj_countable'
    (fun e => match e with EvUserSpeechStart => 0%nat | EvUserSpeechEnd => 1%nat
                      | EvTurnAbort => 2%nat | EvAIFirstOutput => 3%nat | EvAIEnd => 4%nat end)
    (fun n => match n with 0%nat => EvUserSpeechStart | 1%nat => EvUserSpeechEnd
                      | 2%nat => EvTurnAbort | 3%nat => EvAIFirstOutput | _ => EvAIEnd end) _).
  by intros [].
Defined.

(** The whitelist: [None] is a missing map entry. *)
Definition turnTransitions (s : TurnState) (ev : TurnEvent) : option TurnState :=
  match s, ev with
  | TurnIdle, EvUserSpeechStart => Some TurnListening
  | TurnIdle, EvUserSpeechEnd => Some TurnFinalizing
  | TurnListening, EvUserSpeechEnd => Some TurnFinalizing
  | TurnListening, EvTurnAbort => Some TurnClosed
  | TurnListening, EvUserSpeechStart => Some TurnListening
  | TurnFinalizing, EvAIFirstOutput => Some TurnSpeaking
  | TurnFinalizing, EvAIEnd => Some TurnClosed
  | TurnFinalizing, EvTurnAbort => Some TurnClosed
  | TurnFinalizing, EvUserSpeechStart => Some TurnListening
  | TurnSpeaking, EvAIEnd => Some TurnClosed
  | TurnSpeaking, EvUserSpeechStart => Some TurnListening
  | TurnClosed, EvUserSpeechStart => Some TurnListening
  | _, _ => None
  end.

Record Turn := mkTurn {
  state : TurnState;
  id : string;
  session : string;
  rejected : gmap TurnEvent Z;
}.

Definition NewTurn (sessionID : string) : Turn :=
  mkTurn TurnIdle "" (TrimSpace sessionID) ∅.

(** [t.rejected[ev]++] *)
Definition reject (ev : TurnEvent) (t : Turn) : Turn :=
  mkTurn (state t) (id t) (session t)
    (<[ev := default 0 (rejected t !! ev) + 1]> (rejected t)).

Definition set_state (s : TurnState) (t : Turn) : Turn :=
  mkTurn s (id t) (session t) (rejected t).

Definition set_id (i : string) (t : Turn) : Turn :=
  mkTurn (state t) i (session t) (rejected t).

(** ** Methods *)

Definition State (t : option Turn) : TurnState := from_option state TurnIdle t.

Definition ID (t : option Turn) : string := from_option id "" t.

(** [Apply] on a non-nil turn. *)
Definition apply (t : Turn) (ev : TurnEvent) : bool * Turn :=
  match turnTransitions (state t) ev with
  | None => (false, reject ev t)
  | Some next => (true, set_state next t)
  end.

Definition Apply (t : option Turn) (ev : TurnEvent) : bool * option Turn :=
  match t with
  | None => (false, None)
  | Some t => let '(ok, t') := apply t ev in (ok, Some t')
  end.

Definition ApplyStart (t : option Turn) : bool * option Turn := Apply t EvUserSpeechStart.

Definition ApplySpeechEnd (t : option Turn) (clientTurnID : string) : bool * option Turn :=
  match t with
  | None => (false, None)
  | Some t =>
      let '(ok, t1) :=
        match turnTransitions (state t) EvUserSpeechEnd with
        | Some next => (true, set_state next t)
        | None => (false, reject EvUserSpeechEnd t)
        end in
      let i := TrimSpace clientTurnID in
      let t2 :=
        if negb (String.eqb i "") then set_id i t1
        else if String.eqb (TrimSpace (id t1)) "" then set_id (session t1) t1
        else t1 in
      (ok, Some t2)
  end.

Definition NoteFirstOutput (t : option Turn) : bool * option Turn :=
  match t with
  | None => (false, None)
  | Some t =>
      if state_eqb (state t) TurnSpeaking then (true, Some t)
      else match turnTransitions (state t) EvAIFirstOutput with
           | None => (false, Some (reject EvAIFirstOutput t))
           | Some next => (true, Some (set_state next t))
           end
  end.

Definition NoteAIEnd (t : option Turn) : bool * option Turn :=
  match t with
  | None => (false, None)
  | Some t =>
      if state_eqb (state t) TurnClosed then (false, Some t)
      else
        let spoke := state_eqb (state t) TurnSpeaking in
        match turnTransitions (state t) EvAIEnd with
        | None => (false, Some (reject EvAIEnd t))
        | Some next => (spoke, Some (set_state next t))
        end
  end.

Definition Rejected (t : option Turn) : option (gmap TurnEvent Z) := rejected <$> t.

(** The AI took the floor unless the turn ended on a timeout or an error. *)
Definition turnOutcomeSpoke (outcome : string) : bool :=
  negb (String.eqb outcome "timeout" || String.eqb outcome "error").

(** ** Runs

    The calls the gateway makes on one session's turn. *)
Inductive Call :=
| CApply (ev : TurnEvent)
| CSpeechEnd (clientTurnID : string)
| CFirstOutput
| CAIEnd.

Definition call (c : Call) (t : option Turn) : bool * option Turn :=
  match c with
  | CApply ev => Apply t ev
  | CSpeechEnd cid => ApplySpeechEnd t cid
  | CFirstOutput => NoteFirstOutput t
  | CAIEnd => NoteAIEnd t
  end.

(** The results of a run, oldest first, and the turn it leaves. *)
Fixpoint run (cs : list Call) (t : option Turn) : list (Call * bool) * option Turn :=
  match cs with
  | [] => ([], t)
  | c :: cs =>
      let '(r, t') := call c t in
      let '(rs, t'') := run cs t' in
      ((c, r) :: rs, t'')
  end.

(** ** Lemmas on one call *)

Lemma call_nil c : call c None = (false, None).
Proof. by destruct c. Qed.

Lemma call_some c t : exists t', (call c (Some t)).2 = Some t' /\ session t' = session t.
Proof.
  destruct c as [ev|cid| |]; simpl; unfold apply;
    repeat (case_match; simplify_eq/=); eauto.
Qed.

Lemma run_app cs1 cs2 t :
  run (cs1 ++ cs2) t =
    let '(rs1, t1) := run cs1 t in
    let '(rs2, t2) := run cs2 t1 in (rs1 ++ rs2, t2).
Proof.
  revert t. induction cs1 as [|c cs1 IH]; intros t; simpl.
  - by destruct (run cs2 t).
  - destruct (call c t) as [r t']. rewrite IH.
    destruct (run cs1 t') as [rs1 t1]. by destruct (run cs2 t1).
Qed.

(** Induction on a run from a given turn, adding the last call. *)
Lemma run_ind (P : list (Call * bool) -> option Turn -> Prop) t0 :
  P [] t0 ->
  (forall rs t c, P rs t -> P (rs ++ [(c, (call c t).1)]) (call c t).2) ->
  forall cs, P (run cs t0).1 (run cs t0).2.
Proof.
  intros H0 HS cs. induction cs as [|c cs IH] using rev_ind; [done|].
  rewrite run_app. destruct (run cs t0) as [rs t]. simpl in *.
  pose proof (HS rs t c IH) as H. by destruct (call c t).
Qed.

(** A call that ended the user's utterance, and one that started the answer. *)
Definition user_ended (x : Call * bool) : bool :=
  match x with
  | (CSpeechEnd _, ok) | (CApply EvUserSpeechEnd, ok) => ok
  | _ => false
  end.

Definition ai_output (x : Call * bool) : bool :=
  match x with
  | (CFirstOutput, ok) | (CApply EvAIFirstOutput, ok) => ok
  | _ => false
  end.

(** A call that takes a turn out of [TurnFinalizing] or [TurnSpeaking]. *)
Definition interrupts (x : Call * bool) : bool :=
  match x with
  | (CAIEnd, _) => true
  | (CApply (EvUserSpeechStart | EvTurnAbort | EvAIEnd), ok) => ok
  | _ => false
  end.

Definition ai_spoke (x : Call * bool) : bool :=
  match x with (CAIEnd, ok) => ok | _ => false end.

(** The gateway owes the user an answer. *)
Definition owed (t : option Turn) : nat :=
  match State t with TurnFinalizing | TurnSpeaking => 1 | _ => 0 end.

Lemma call_owed c t :
  (Nat.b2n (ai_spoke (c, (call c t).1)) + owed (call c t).2 <=
   Nat.b2n (user_ended (c, (call c t).1)) + owed t)%nat.
Proof.
  destruct t as [[st i s rj]|]; [|rewrite call_nil; by destruct c as [[]| | |]].
  destruct c as [[]|cid| |], st; unfold owed, call, Apply, ApplySpeechEnd, apply; simpl;
    repeat (case_match; simplify_eq/=); lia.
Qed.

(** Calls that leave the state alone, or move it only along the arrows below. *)
Lemma call_speaking c t :
  State (call c t).2 = TurnSpeaking ->
  (State t = TurnSpeaking /\ interrupts (c, (call c t).1) = false) \/
  (State t = TurnFinalizing /\ ai_output (c, (call c t).1) = true).
Proof.
  destruct t as [[st i s rj]|]; [|by rewrite call_nil].
  destruct c as [[]|cid| |], st; unfold call, Apply, ApplySpeechEnd, apply; simpl;
    repeat (case_match; simplify_eq/=); intros; try discriminate; auto.
Qed.

Lemma call_finalizing c t :
  State (call c t).2 = TurnFinalizing ->
  (State t = TurnFinalizing /\ interrupts (c, (call c t).1) = false) \/
  user_ended (c, (call c t).1) = true.
Proof.
  destruct t as [[st i s rj]|]; [|by rewrite call_nil].
  destruct c as [[]|cid| |], st; unfold call, Apply, ApplySpeechEnd, apply; simpl;
    repeat (case_match; simplify_eq/=); intros; try discriminate; auto.
Qed.

Lemma NoteAIEnd_spoke t : (NoteAIEnd t).1 = true -> State t = TurnSpeaking.
Proof. destruct t as [[[] ? ? ?]|]; simpl; done. Qed.

(** What the past of a turn looks like in each of the two waiting states. *)
Definition waited (rs : list (Call * bool)) : Prop :=
  exists p e q, rs = p ++ e :: q /\ user_ended e = true /\ forallb (negb ∘ interrupts) q = true.

Definition answered (rs : list (Call * bool)) : Prop :=
  exists p o q, rs = p ++ o :: q /\ ai_output o = true
    /\ forallb (negb ∘ interrupts) q = true /\ waited p.

Lemma waited_snoc rs x : waited rs -> interrupts x = false -> waited (rs ++ [x]).
Proof.
  intros (p & e & q & -> & He & Hq) Hx. exists p, e, (q ++ [x]).
  rewrite forallb_app, Hq. simpl. rewrite Hx. by rewrite <-app_assoc.
Qed.

Lemma answered_snoc rs x : answered rs -> interrupts x = false -> answered (rs ++ [x]).
Proof.
  intros (p & o & q & -> & Ho & Hq & Hw) Hx. exists p, o, (q ++ [x]).
  rewrite forallb_app, Hq. simpl. rewrite Hx. by rewrite <-app_assoc.
Qed.

Lemma run_history t0 cs :
  State t0 = TurnIdle ->
  (State (run cs t0).2 = TurnFinalizing -> waited (run cs t0).1) /\
  (State (run cs t0).2 = TurnSpeaking -> answered (run cs t0).1).
Proof.
  intros H0. revert cs. apply (run_ind (fun rs t =>
    (State t = TurnFinalizing -> waited rs) /\ (State t = TurnSpeaking -> answered rs))).
  { by rewrite H0. }
  intros rs t c [IHf IHs]. split; intros H.
  - apply call_finalizing in H as [[? ?]|He]; [by apply waited_snoc; auto|].
    by exists rs, (c, (call c t).1), [].
  - apply call_speaking in H as [[? ?]|[? Ho]]; [by apply answered_snoc; auto|].
    exists rs, (c, (call c t).1), []. auto.
Qed.

(** ** Identity *)

Definition client_id (c : Call) : option string :=
  match c with
  | CSpeechEnd cid => let i := TrimSpace cid in if String.eqb i "" then None else Some i
  | _ => None
  end.

Definition is_speech_end (c : Call) : bool :=
  match c with CSpeechEnd _ => true | _ => false end.

(** The name a sequence of calls gives a turn of session [sid]: the last
    non-blank id the client sent with an end of speech, or the session's once
    one came without any. *)
Definition turn_name (sid : string) (cs : list Call) : string :=
  match last (omap client_id cs) with
  | Some i => i
  | None => if existsb is_speech_end cs then TrimSpace sid else ""
  end.

Lemma turn_name_snoc sid cs c :
  turn_name sid (cs ++ [c]) =
    match client_id c with
    | Some i => i
    | None =>
        if is_speech_end c && String.eqb (TrimSpace (turn_name sid cs)) ""
        then TrimSpace sid else turn_name sid cs
    end.
Proof.
  unfold turn_name at 1. rewrite omap_app, existsb_app. simpl.
  destruct (client_id c) as [i|] eqn:Hc; simpl.
  { by rewrite last_snoc. }
  rewrite app_nil_r, orb_false_r. unfold turn_name.
  destruct (last (omap client_id cs)) as [i|] eqn:Hl.
  - assert (TrimSpace i = i /\ i <> "") as [-> Hi].
    { apply last_Some_elem_of, list_elem_of_omap in Hl as (c' & _ & Hc').
      destruct c'; simpl in Hc'; try done.
      destruct (String.eqb_spec (TrimSpace clientTurnID) ""); simplify_eq.
      by rewrite TrimSpace_idem. }
    apply String.eqb_neq in Hi. rewrite Hi. by rewrite andb_false_r.
  - destruct (existsb is_speech_end cs), (is_speech_end c); simpl; try done.
    by destruct (String.eqb _ _).
Qed.

Lemma call_id c t :
  ID (call c (Some t)).2 =
    match client_id c with
    | Some i => i
    | None => if is_speech_end c && String.eqb (TrimSpace (id t)) ""
              then session t else id t
    end.
Proof.
  destruct c as [ev|cid| |]; simpl; unfold apply;
    repeat (case_match; simplify_eq/=); done.
Qed.

Lemma run_session cs sid :
  exists t, (run cs (Some (NewTurn sid))).2 = Some t /\ session t = TrimSpace sid.
Proof.
  apply (run_ind (fun _ t => exists t', t = Some t' /\ session t' = TrimSpace sid)).
  { by eexists. }
  intros rs t c (t' & -> & Hs). destruct (call_some c t') as (t'' & -> & Hs').
  exists t''. by rewrite Hs'.
Qed.

(** ** Rejections *)

(** The event a call applies. *)
Definition event_of (c : Call) : TurnEvent :=
  match c with
  | CApply ev => ev
  | CSpeechEnd _ => EvUserSpeechEnd
  | CFirstOutput => EvAIFirstOutput
  | CAIEnd => EvAIEnd
  end.

Definition refused (ev : TurnEvent) (x : Call * bool) : bool :=
  bool_decide (event_of x.1 = ev) && negb x.2.

Definition rejections (ev : TurnEvent) (t : option Turn) : Z :=
  from_option (fun t => default 0 (rejected t !! ev)) 0 t.

#[local] Arguments rejections : simpl never.
#[local] Arguments reject : simpl never.

Lemma rejections_reject ev ev' t :
  rejections ev (Some (reject ev' t)) =
    rejections ev (Some t) + Z.b2z (bool_decide (ev' = ev)).
Proof.
  unfold rejections, reject. simpl. rewrite lookup_insert.
  case_decide as Hd; [rewrite bool_decide_true by done; subst|rewrite bool_decide_false by done];
    simpl; lia.
Qed.

Lemma call_rejections ev c t :
  ev <> EvAIEnd ->
  rejections ev (call c (Some t)).2 =
    rejections ev (Some t) + Z.b2z (refused ev (c, (call c (Some t)).1)).
Proof.
  intros Hev. destruct c as [ev'|cid| |]; unfold refused; simpl; unfold apply.
  - destruct (turnTransitions (state t) ev'); simpl.
    + rewrite andb_false_r. simpl. by rewrite Z.add_0_r.
    + by rewrite rejections_reject, andb_true_r.
  - destruct (turnTransitions (state t) EvUserSpeechEnd); simpl;
      [rewrite andb_false_r|rewrite andb_true_r, <-rejections_reject];
      repeat case_match; simpl; try done; by rewrite Z.add_0_r.
  - destruct (state_eqb (state t) TurnSpeaking); simpl.
    { rewrite andb_false_r. simpl. by rewrite Z.add_0_r. }
    destruct (turnTransitions (state t) EvAIFirstOutput); simpl.
    + rewrite andb_false_r. simpl. by rewrite Z.add_0_r.
    + by rewrite rejections_reject, andb_true_r.
  - rewrite bool_decide_false by congruence. simpl. rewrite Z.add_0_r.
    repeat case_match; simplify_eq/=; try done.
    rewrite rejections_reject, bool_decide_false by congruence. simpl. lia.
Qed.

(** ** Properties *)

(** the gateway never reports that the assistant spoke before it did.  In
    every sequence of calls on a session's turn that ends with a [NoteAIEnd]
    returning true (the condition for arming the rescue ladder), an accepted end
    of user speech was followed by an accepted first output of the assistant,
    with no restart, abort or end in between. *)
Theorem turn_spoke_answered sid cs rs t :
  run (cs ++ [CAIEnd]) (Some (NewTurn sid)) = (rs ++ [(CAIEnd, true)], t) ->
  answered rs.
Proof.
  rewrite run_app.
  destruct (run cs (Some (NewTurn sid))) as [rs1 t1] eqn:Hr. simpl.
  destruct (NoteAIEnd t1) as [r t2] eqn:He. intros [=Happ Ht].
  apply app_inj_tail in Happ as [-> [=->]].
  pose proof (run_history (Some (NewTurn sid)) cs eq_refl) as [_ H].
  rewrite Hr in H. apply H, NoteAIEnd_spoke. simpl. by rewrite He.
Qed.

Lemma turn_spoke_answered_witness :
  answered [(CApply EvUserSpeechStart, true); (CSpeechEnd "turn-1", true); (CFirstOutput, true)].
Proof.
  eapply (turn_spoke_answered "s1"
    [CApply EvUserSpeechStart; CSpeechEnd "turn-1"; CFirstOutput]).
  reflexivity.
Defined.

(** the number of times the assistant is reported to have spoken never
    exceeds the number of accepted ends of user speech, so the session-opening
    announcement and repeated end markers never arm the ladder. *)
Theorem turn_spoke_at_most_once_per_utterance sid cs :
  (length (filter (fun x => ai_spoke x = true) (run cs (Some (NewTurn sid))).1)
     + owed (run cs (Some (NewTurn sid))).2
   <= length (filter (fun x => user_ended x = true) (run cs (Some (NewTurn sid))).1))%nat.
Proof.
  revert cs. apply (run_ind (fun rs t =>
    (length (filter (fun x => ai_spoke x = true) rs) + owed t
     <= length (filter (fun x => user_ended x = true) rs))%nat)); [done|].
  intros rs t c IH. pose proof (call_owed c t) as Hc.
  rewrite !filter_app, !length_app. cbn [filter list_filter].
  destruct (ai_spoke (c, _)) eqn:Hs, (user_ended (c, _)) eqn:He;
    repeat case_decide; simpl in *; try congruence; lia.
Qed.

(** at every point of a session the turn's identity is the last non-blank id
    the client sent with an end of speech (trimmed), and the session's id once
    an end of speech came before any client id; no other call renames it. *)
Theorem turn_id_is_last_client_id sid cs :
  ID (run cs (Some (NewTurn sid))).2 = turn_name sid cs.
Proof.
  induction cs as [|c cs IH] using rev_ind; [done|].
  destruct (run_session cs sid) as (t & Ht & Hs).
  rewrite turn_name_snoc, <-IH, run_app.
  destruct (run cs (Some (NewTurn sid))) as [rs t1]. simpl in Ht |- *. subst t1.
  transitivity (ID (call c (Some t)).2); [by destruct (call c (Some t))|].
  by rewrite call_id, Hs.
Qed.

(** the rejection counter of every event but the assistant's end counts
    exactly the calls whose event the state machine refused. *)
Theorem turn_rejections_counted sid cs ev :
  ev <> EvAIEnd ->
  rejections ev (run cs (Some (NewTurn sid))).2 =
    Z.of_nat (length (filter (fun x => refused ev x = true) (run cs (Some (NewTurn sid))).1)).
Proof.
  intros Hev. enough (exists t', (run cs (Some (NewTurn sid))).2 = Some t' /\
    rejections ev (run cs (Some (NewTurn sid))).2 =
      Z.of_nat (length (filter (fun x => refused ev x = true) (run cs (Some (NewTurn sid))).1)))
    by naive_solver.
  revert cs. apply (run_ind (fun rs t => exists t', t = Some t' /\ rejections ev t =
      Z.of_nat (length (filter (fun x => refused ev x = true) rs)))); [by eauto|].
  intros rs t c (t' & -> & IH). destruct (call_some c t') as (t'' & Ht'' & _).
  exists t''. split; [done|].
  rewrite call_rejections, IH, filter_app, length_app by done. cbn [filter list_filter].
  destruct (refused ev _) eqn:Hr; case_decide; simpl; try congruence; lia.
Qed.

Lemma turn_rejections_counted_witness :
  rejections EvAIFirstOutput (run [CFirstOutput; CFirstOutput] (Some (NewTurn "s"))).2 = 2.
Proof.
  rewrite (turn_rejections_counted "s" [CFirstOutput; CFirstOutput] EvAIFirstOutput);
    [reflexivity|discriminate].
Defined.
