(* ===== verification/Silence.v ===== *)
(** * The silence detector (internal/voicegateway/silence_detector.go)

    Decides when a silent user has earned the next rung of the rescue ladder.
    Each method holds the mutex for its whole body, so it is a pure function on
    the detector's state; instants are passed in, as in the source. *)
From S2P Require Import Prelude GoTime.

Open Scope Z_scope.

(** ** Thresholds *)

Definition DefaultRescueLevel1After : duration := 3 * Second.
Definition DefaultRescueLevel2After : duration := 6 * Second.
Definition DefaultRescueLevel3After : duration := 9 * Second.

(** voiceproto.RescueLevelComplete and voiceproto.ValidRescueLevel *)
Definition RescueLevelSkeleton : Z := 1.
Definition RescueLevelHint : Z := 2.
Definition RescueLevelComplete : Z := 3.

Definition ValidRescueLevel (level : Z) : bool :=
  (RescueLevelSkeleton <=? level) && (level <=? RescueLevelComplete).

Record RescueThresholds := mkThresholds {
  Level1 : duration;
  Level2 : duration;
  Level3 : duration;
}.

Definition withDefaults (t : RescueThresholds) : RescueThresholds :=
  let l1 := if Level1 t <=? 0 then DefaultRescueLevel1After else Level1 t in
  let l2 := if Level2 t <=? 0 then DefaultRescueLevel2After else Level2 t in
  let l3 := if Level3 t <=? 0 then DefaultRescueLevel3After else Level3 t in
  let l2 := if l2 <? l1 then l1 else l2 in
  let l3 := if l3 <? l2 then l2 else l3 in
  mkThresholds l1 l2 l3.

(** ** The detector *)

Record SilenceDetector := mkDetector {
  thresholds : RescueThresholds;
  windowStart : time;
  userSpeaking : bool;
  rescueLevel : Z;
  autoHoldUntil : time;
}.

Definition NewSilenceDetectorWithThresholds (t : RescueThresholds) : SilenceDetector :=
  mkDetector (withDefaults t) zero_time false 0 zero_time.

Definition NewSilenceDetector : SilenceDetector :=
  NewSilenceDetectorWithThresholds (mkThresholds 0 0 0).

Definition OnAISpeechEnd (now : time) (d : SilenceDetector) : SilenceDetector :=
  mkDetector (thresholds d) now false 0 zero_time.

Definition OnUserSpeechStart (d : SilenceDetector) : SilenceDetector :=
  mkDetector (thresholds d) (windowStart d) true 0 zero_time.

Definition OnUserSpeechEnd (complete : bool) (d : SilenceDetector) : SilenceDetector :=
  if complete then mkDetector (thresholds d) zero_time false 0 zero_time
  else mkDetector (thresholds d) (windowStart d) false (rescueLevel d) (autoHoldUntil d).

Definition set_level (l : Z) (d : SilenceDetector) : SilenceDetector :=
  mkDetector (thresholds d) (windowStart d) (userSpeaking d) l (autoHoldUntil d).

(** [(shouldRescue, level)] and the detector with the rung consumed. *)
Definition CheckSilence (now : time) (d : SilenceDetector) : (bool * Z) * SilenceDetector :=
  if IsZero (windowStart d) || userSpeaking d then ((false, 0), d) else
  if Before now (autoHoldUntil d) then ((false, 0), d) else
  let elapsed := Sub now (windowStart d) in
  if (rescueLevel d <? 1) && (Level1 (thresholds d) <=? elapsed) then ((true, 1), set_level 1 d)
  else if (rescueLevel d <? 2) && (Level2 (thresholds d) <=? elapsed)
  then ((true, 2), set_level 2 d)
  else if (rescueLevel d <? 3) && (Level3 (thresholds d) <=? elapsed)
  then ((true, 3), set_level 3 d)
  else ((false, 0), d).

Definition Reset (d : SilenceDetector) : SilenceDetector :=
  mkDetector (thresholds d) zero_time false 0 zero_time.

Definition RequestNext (now : time) (d : SilenceDetector) : (bool * Z) * SilenceDetector :=
  if IsZero (windowStart d) || userSpeaking d then ((false, 0), d) else
  let level := rescueLevel d + 1 in
  let level := if RescueLevelComplete <? level then RescueLevelComplete else level in
  ((true, level),
   mkDetector (thresholds d) (windowStart d) (userSpeaking d) level
     (Add now (Level1 (thresholds d)))).

(** [(windowStart, currentLevel, elapsed)] for logs. *)
Definition GetState (now : time) (d : SilenceDetector) : time * Z * duration :=
  (windowStart d, rescueLevel d,
   if IsZero (windowStart d) then 0 else Sub now (windowStart d)).

(** ** Runs *)
Inductive Call :=
| AISpeechEnd (now : time)
| UserSpeechStart (now : time)
| UserSpeechEnd (now : time) (complete : bool)
| Poll (now : time)
| Request (now : time)
| DoReset.

(** A rung issued by a call. *)
Definition call (c : Call) (d : SilenceDetector) : option Z * SilenceDetector :=
  let issue (x : (bool * Z) * SilenceDetector) :=
    (if x.1.1 then Some x.1.2 else None, x.2) in
  match c with
  | AISpeechEnd now => (None, OnAISpeechEnd now d)
  | UserSpeechStart _ => (None, OnUserSpeechStart d)
  | UserSpeechEnd _ complete => (None, OnUserSpeechEnd complete d)
  | Poll now => issue (CheckSilence now d)
  | Request now => issue (RequestNext now d)
  | DoReset => (None, Reset d)
  end.

Fixpoint run (cs : list Call) (d : SilenceDetector) : list (Call * option Z) * SilenceDetector :=
  match cs with
  | [] => ([], d)
  | c :: cs =>
      let '(r, d') := call c d in
      let '(rs, d'') := run cs d' in ((c, r) :: rs, d'')
  end.

(** The rungs issued, oldest first. *)
Definition rungs (rs : list (Call * option Z)) : list Z := omap snd rs.

Definition is_poll (c : Call) : bool := match c with Poll _ => true | _ => false end.

(** A call that leaves the ladder where it is: a poll, a request, or the end of
    an incomplete utterance. *)
Definition keeps_ladder (c : Call) : bool :=
  match c with Poll _ | Request _ | UserSpeechEnd _ false => true | _ => false end.

Definition opens_window (c : Call) : bool :=
  match c with AISpeechEnd _ => true | _ => false end.

(** ** Well-formedness *)

Definition ordered (t : RescueThresholds) : Prop :=
  0 < Level1 t <= Level2 t /\ Level2 t <= Level3 t <= max_int64.

Definition wf (d : SilenceDetector) : Prop :=
  ordered (thresholds d) /\ 0 <= rescueLevel d <= 3.

Definition fits (t : RescueThresholds) : Prop :=
  Level1 t <= max_int64 /\ Level2 t <= max_int64 /\ Level3 t <= max_int64.

Lemma withDefaults_ordered t : fits t -> ordered (withDefaults t).
Proof.
  intros (? & ? & ?). unfold ordered, withDefaults, DefaultRescueLevel1After,
    DefaultRescueLevel2After, DefaultRescueLevel3After, max_int64, Second, Millisecond in *.
  simpl. repeat case_match; lia.
Qed.

Lemma withDefaults_id t : ordered t -> withDefaults t = t.
Proof.
  destruct t as [a b c]. unfold ordered, withDefaults. simpl. intros ?.
  repeat case_match; f_equal; lia.
Qed.

Lemma CheckSilence_cases now d :
  let '((fired, level), d') := CheckSilence now d in
  if fired then
    windowStart d <> zero_time /\ userSpeaking d = false /\
    rescueLevel d < level <= 3 /\ 1 <= level /\ d' = set_level level d /\
    autoHoldUntil d <= now /\
    match level with 1 => Level1 | 2 => Level2 | _ => Level3 end (thresholds d)
      <= Sub now (windowStart d)
  else d' = d /\ level = 0.
Proof.
  unfold CheckSilence, IsZero, Before. destruct (Z.eqb_spec (windowStart d) zero_time); [done|].
  destruct (userSpeaking d); [done|]. destruct (Z.ltb_spec now (autoHoldUntil d)); [done|]. simpl.
  repeat match goal with |- context [if ?b then _ else _] => destruct b eqn:? end;
    rewrite ?andb_true_iff in *; repeat split; lia || done.
Qed.

Lemma RequestNext_cases now d :
  0 <= rescueLevel d <= 3 ->
  let '((fired, level), d') := RequestNext now d in
  if fired then
    windowStart d <> zero_time /\ userSpeaking d = false /\
    level = Z.min 3 (rescueLevel d + 1) /\ rescueLevel d' = level /\
    thresholds d' = thresholds d /\ windowStart d' = windowStart d /\ userSpeaking d' = false /\
    autoHoldUntil d' = now + Level1 (thresholds d)
  else d' = d.
Proof.
  intros ?. unfold RequestNext, IsZero, RescueLevelComplete, Add.
  destruct (Z.eqb_spec (windowStart d) zero_time); [done|].
  destruct (userSpeaking d) eqn:?; [done|]. simpl.
  destruct (Z.ltb_spec 3 (rescueLevel d + 1)); repeat split; lia || done.
Qed.

Lemma call_wf c d : wf d -> wf (call c d).2.
Proof.
  intros [Hord Hlvl]. destruct c; simpl; try (split; simpl; [done|lia]).
  - destruct complete; split; simpl; done || lia.
  - pose proof (CheckSilence_cases now d) as Hc.
    destruct (CheckSilence now d) as [[[] l] d']; simpl;
      [destruct Hc as (_ & _ & ? & ? & -> & _)|destruct Hc as [-> _]]; split; simpl; done || lia.
  - pose proof (RequestNext_cases now d Hlvl) as Hc.
    destruct (RequestNext now d) as [[[] l] d']; simpl; [|by subst].
    destruct Hc as (_ & _ & ? & ? & Ht & _). split; [by rewrite Ht|lia].
Qed.

Lemma run_wf cs d : wf d -> wf (run cs d).2.
Proof.
  revert d. induction cs as [|c cs IH]; intros d Hd; [done|]. simpl.
  pose proof (call_wf c d Hd) as Hc. destruct (call c d) as [r d'].
  specialize (IH d' Hc). by destruct (run cs d').
Qed.

Lemma silence_run_cons c cs d :
  (run (c :: cs) d).1 = (c, (call c d).1) :: (run cs (call c d).2).1 /\
  (run (c :: cs) d).2 = (run cs (call c d).2).2.
Proof. simpl. destruct (call c d) as [r d']. simpl. by destruct (run cs d'). Qed.

(** A ladder-preserving call never lowers the rung, and what it issues is the
    detector's new rung: above the old one for a poll, at least it for a
    request. *)
Lemma call_level c d :
  wf d -> keeps_ladder c = true ->
  let '(r, d') := call c d in
  rescueLevel d <= rescueLevel d' /\
  match r with
  | None => True
  | Some l => l = rescueLevel d' /\ 1 <= l <= 3 /\ (is_poll c = true -> rescueLevel d < l)
  end.
Proof.
  intros [_ Hl]. destruct c as [| |now []|now|now|]; simpl; try done.
  - intros _. pose proof (CheckSilence_cases now d) as H.
    destruct (CheckSilence now d) as [[[] l] d']; simpl in *.
    + destruct H as (_ & _ & ? & ? & -> & _). simpl. lia.
    + by destruct H as [-> _].
  - intros _. pose proof (RequestNext_cases now d Hl) as H.
    destruct (RequestNext now d) as [[[] l] d']; simpl in *; [|by subst].
    destruct H as (_ & _ & ? & ? & _). split; [lia|]. repeat split; lia || done.
Qed.

(** The window stays where it is, and so do the thresholds. *)
Lemma call_window c d :
  wf d -> keeps_ladder c = true ->
  windowStart (call c d).2 = windowStart d /\ thresholds (call c d).2 = thresholds d.
Proof.
  intros [_ Hl]. destruct c as [| |now []|now|now|]; simpl; try done.
  - intros _. pose proof (CheckSilence_cases now d) as H.
    destruct (CheckSilence now d) as [[[] l] d']; simpl in *;
      [by destruct H as (_ & _ & _ & _ & -> & _)|by destruct H as [-> _]].
  - intros _. pose proof (RequestNext_cases now d Hl) as H.
    destruct (RequestNext now d) as [[[] l] d']; simpl in *; [|by subst].
    by destruct H as (_ & _ & _ & _ & ? & ? & _).
Qed.

Lemma call_closed c d :
  windowStart d = zero_time -> opens_window c = false ->
  (call c d).1 = None /\ windowStart (call c d).2 = zero_time.
Proof.
  intros Hw. destruct c as [| |now []|now|now|]; simpl; try done; intros _;
    unfold CheckSilence, RequestNext, IsZero; by rewrite Hw, Z.eqb_refl.
Qed.

Lemma call_hold c d h :
  wf d -> keeps_ladder c = true -> match c with Request _ => False | _ => True end ->
  h <= autoHoldUntil d ->
  h <= autoHoldUntil (call c d).2 /\
  match c, (call c d).1 with Poll now, Some _ => h <= now | _, _ => True end.
Proof.
  intros [_ Hl]. destruct c as [| |now []|now|now|]; simpl; try done.
  intros _ _ Hh. pose proof (CheckSilence_cases now d) as H.
  destruct (CheckSilence now d) as [[[] l] d']; simpl in *;
    [destruct H as (_ & _ & _ & _ & -> & ? & _); simpl; lia|by destruct H as [-> _]].
Qed.

(** Rungs with the call that issued them. *)
Definition issued (rs : list (Call * option Z)) : list (bool * Z) :=
  omap (fun x => (fun l => (is_poll x.1, l)) <$> x.2) rs.

(** Later rungs are no lower, and an automatic one is strictly higher. *)
Definition climbs (x y : bool * Z) : Prop :=
  x.2 <= y.2 /\ (y.1 = true -> x.2 < y.2).

Lemma climbs_weaken b b' a a' y : climbs (b, a) y -> a' <= a -> climbs (b', a') y.
Proof. intros [? Hy] ?. split; simpl in *; [lia|]. intros Hb. specialize (Hy Hb). lia. Qed.

(** ** Properties *)

(** between two resets of the ladder the rungs only climb.  Whatever the
    interleaving of polls, user requests and incomplete utterances, every rung
    issued is between 1 and 3, none is lower than an earlier one, and a rung
    issued by the poller is strictly higher than all the rungs before it. *)
Theorem silence_ladder_climbs d cs :
  wf d -> forallb keeps_ladder cs = true ->
  StronglySorted climbs (issued (run cs d).1) /\
  Forall (fun x => 1 <= x.2 <= 3 /\ climbs (false, rescueLevel d) x) (issued (run cs d).1).
Proof.
  revert d. induction cs as [|c cs IH]; intros d Hd Hcs; [by repeat constructor|].
  apply andb_true_iff in Hcs as [Hc Hcs].
  pose proof (call_level c d Hd Hc) as Hl. pose proof (call_wf c d Hd) as Hd'.
  destruct (silence_run_cons c cs d) as [-> _].
  destruct (call c d) as [r d']. simpl in *. destruct Hl as [Hle Hr].
  specialize (IH d' Hd' Hcs) as [IH1 IH2].
  assert (Forall (fun x => 1 <= x.2 <= 3 /\ climbs (false, rescueLevel d) x)
            (issued (run cs d').1)).
  { eapply Forall_impl; [exact IH2|]. intros x [? ?].
    split; [done|by eapply climbs_weaken]. }
  destruct r as [l|]; [|done]. destruct Hr as (-> & ? & Hp).
  split; constructor; try done.
  eapply Forall_impl; [exact IH2|]. intros x [_ ?]. by eapply climbs_weaken.
Qed.

Definition quiet_day : SilenceDetector := OnAISpeechEnd 0 NewSilenceDetector.

Lemma quiet_day_wf : wf quiet_day.
Proof.
  split; [|simpl; lia]. apply withDefaults_ordered. unfold fits, max_int64. simpl. lia.
Qed.

Lemma silence_ladder_climbs_witness :
  issued (run [Poll (4 * Second); Request (5 * Second); Poll (9 * Second)] quiet_day).1
    = [(true, 1); (false, 2); (true, 3)] /\
  StronglySorted climbs
    (issued (run [Poll (4 * Second); Request (5 * Second); Poll (9 * Second)] quiet_day).1).
Proof.
  split; [reflexivity|].
  apply (silence_ladder_climbs quiet_day
    [Poll (4 * Second); Request (5 * Second); Poll (9 * Second)] quiet_day_wf eq_refl).
Defined.

(** a rung is never early.  In a window opened at [w], rung [k] is issued by
    the poller only once [Level k] has elapsed since [w]. *)
Theorem silence_rung_not_early d w cs now l :
  wf d -> forallb keeps_ladder cs = true ->
  (Poll now, Some l) ∈ (run cs (OnAISpeechEnd w d)).1 ->
  w + match l with 1 => Level1 | 2 => Level2 | _ => Level3 end (thresholds d) <= now.
Proof.
  intros Hd Hcs.
  assert (Hw : windowStart (OnAISpeechEnd w d) = w) by done.
  assert (Ht : thresholds (OnAISpeechEnd w d) = thresholds d) by done.
  assert (Hd' : wf (OnAISpeechEnd w d)) by (destruct Hd; split; simpl; done || lia).
  revert Hw Ht Hd'. generalize (OnAISpeechEnd w d). revert Hcs.
  induction cs as [|c cs IH]; intros Hcs e Hw Ht He; [by intros ?%elem_of_nil|].
  apply andb_true_iff in Hcs as [Hc Hcs].
  destruct (silence_run_cons c cs e) as [-> _].
  destruct (call_window c e He Hc) as [Hw' Ht'].
  intros [Heq|Hin]%elem_of_cons.
  - injection Heq as <- Hl. simpl in Hl. pose proof (CheckSilence_cases now e) as H.
    destruct (CheckSilence now e) as [[[] l'] d']; simplify_eq/=.
    destruct H as (_ & _ & ? & ? & _ & _ & H). destruct Hd as [Ho _]. unfold ordered in Ho.
    rewrite Ht in H. apply Sub_ge in H; [done|].
    assert (l' = 1 \/ l' = 2 \/ l' = 3) as [->|[->| ->]] by (destruct He; lia); lia.
  - eapply IH; [done| | | |exact Hin]; [by rewrite Hw'|by rewrite Ht'|by apply call_wf].
Qed.

Lemma silence_rung_not_early_witness : 0 + 6 * Second <= 7 * Second.
Proof.
  apply (silence_rung_not_early quiet_day 0 [Poll (4 * Second); Poll (7 * Second)]
    (7 * Second) 2 quiet_day_wf eq_refl).
  vm_compute. apply list_elem_of_In. right. by left.
Defined.

(** a rung the user asked for holds the automatic ladder off for one rung
    spacing: after a request answered at [t], and until the ladder is reset or
    another request is made, no poll before [t + Level1] issues a rung. *)
Theorem silence_request_holds_ladder d t l cs now r :
  wf d -> (call (Request t) d).1 = Some l ->
  forallb (fun c => keeps_ladder c && match c with Request _ => false | _ => true end) cs = true ->
  (Poll now, Some r) ∈ (run cs (call (Request t) d).2).1 ->
  t + Level1 (thresholds d) <= now.
Proof.
  intros Hd Hl. pose proof (call_wf (Request t) d Hd) as Hd'.
  assert (Hh : t + Level1 (thresholds d) <= autoHoldUntil (call (Request t) d).2).
  { pose proof (RequestNext_cases t d (proj2 Hd)) as H. simpl in *.
    destruct (RequestNext t d) as [[[] l'] d']; simplify_eq/=.
    destruct H as (_ & _ & _ & _ & _ & _ & _ & ->). lia. }
  revert Hd' Hh. generalize ((call (Request t) d).2). clear Hl.
  induction cs as [|c cs IH]; intros e He Hh Hcs; [by intros ?%elem_of_nil|].
  apply andb_true_iff in Hcs as [[Hc Hr]%andb_true_iff Hcs].
  assert (Hn : match c with Request _ => False | _ => True end) by by destruct c.
  destruct (call_hold c e _ He Hc Hn Hh) as [Hh' Hp].
  destruct (silence_run_cons c cs e) as [-> _].
  intros [Heq|Hin]%elem_of_cons.
  - injection Heq as <- Heq. rewrite <-Heq in Hp. done.
  - eapply IH; [|exact Hh'|done|exact Hin]. by apply call_wf.
Qed.

Lemma silence_request_holds_ladder_witness : 2 * Second + 3 * Second <= 6 * Second.
Proof.
  apply (silence_request_holds_ladder quiet_day (2 * Second) 1
    [Poll (4 * Second); Poll (6 * Second)] (6 * Second) 2 quiet_day_wf eq_refl eq_refl).
  vm_compute. apply list_elem_of_In. right. by left.
Defined.

(** no ladder without a question.  From a closed window (a new detector, a
    reset one, or one whose user completed an utterance) no sequence of calls
    issues a rung until the assistant finishes speaking. *)
Theorem silence_no_rung_without_window d cs :
  windowStart d = zero_time -> forallb (negb ∘ opens_window) cs = true ->
  issued (run cs d).1 = [].
Proof.
  revert d. induction cs as [|c cs IH]; intros d Hd Hcs; [done|].
  apply andb_true_iff in Hcs as [Hc%negb_true_iff Hcs].
  destruct (call_closed c d Hd Hc) as [Hn Hw]. destruct (silence_run_cons c cs d) as [-> _].
  rewrite Hn. simpl. by apply IH.
Qed.

Lemma silence_no_rung_without_window_witness :
  issued (run [Poll (9 * Second); UserSpeechStart 0; UserSpeechEnd 0 true; Request 5]
            NewSilenceDetector).1 = [].
Proof. apply silence_no_rung_without_window; reflexivity. Defined.

(** the ladder is walked in order and reaches its end.  A user who stays
    silent past the last threshold and is polled [n] times gets exactly the first
    [n] rungs of 1, 2, 3, however late the polls are, and then nothing more. *)
Theorem silence_late_polls_walk_ladder d w ts :
  wf d -> w <> zero_time ->
  Forall (fun t => zero_time <= t /\ w + Level3 (thresholds d) <= t) ts ->
  rungs (run (map Poll ts) (OnAISpeechEnd w d)).1 = take (length ts) [1; 2; 3].
Proof.
  intros [Ho _] Hw Hts.
  assert (Hgen : forall k e, thresholds e = thresholds d -> windowStart e = w ->
    userSpeaking e = false -> autoHoldUntil e = zero_time -> (k <= 3)%nat ->
    rescueLevel e = Z.of_nat k ->
    rungs (run (map Poll ts) e).1 = take (length ts) (drop k [1; 2; 3])).
  { induction Hts as [|t ts [Hz Ht] Hts IH]; intros k e Hth Hwe Hu Ha Hk Hr; [by rewrite take_0|].
    cbn [map]. destruct (silence_run_cons (Poll t) (map Poll ts) e) as [-> _].
    assert (Hs : Level3 (thresholds d) <= Sub t w)
      by (apply Sub_ge; [unfold ordered in Ho; lia|done]).
    assert (HP : CheckSilence t e =
      if decide (k = 3%nat) then ((false, 0), e)
      else ((true, Z.of_nat k + 1), set_level (Z.of_nat k + 1) e)).
    { unfold CheckSilence, IsZero, Before. rewrite Hwe, Hu, Ha, Hth, Hr.
      rewrite (proj2 (Z.eqb_neq _ _)), (proj2 (Z.ltb_ge _ _)) by done. simpl.
      unfold ordered in Ho.
      destruct k as [|[|[|[|k]]]]; [| | | |lia]; simpl;
        repeat match goal with |- context [?a <=? ?b] =>
          rewrite (proj2 (Z.leb_le a b)) by lia end; done. }
    unfold rungs. simpl. rewrite HP. destruct (decide (k = 3%nat)) as [->|Hk3]; simpl.
    - fold (rungs (run (map Poll ts) e).1). rewrite (IH 3%nat) by done. by destruct ts.
    - fold (rungs (run (map Poll ts) (set_level (Z.of_nat k + 1) e)).1).
      rewrite (IH (S k)) by (done || simpl; lia).
      destruct k as [|[|[|k]]]; simpl; done || lia. }
  apply (Hgen 0%nat); done || lia.
Qed.

Lemma silence_late_polls_walk_ladder_witness :
  rungs (run (map Poll [20 * Second; 21 * Second; 30 * Second; 40 * Second])
           (OnAISpeechEnd 0 NewSilenceDetector)).1 = [1; 2; 3].
Proof.
  apply (silence_late_polls_walk_ladder NewSilenceDetector 0
    [20 * Second; 21 * Second; 30 * Second; 40 * Second]).
  - split; [|simpl; lia]. apply withDefaults_ordered. unfold fits, max_int64. simpl. lia.
  - discriminate.
  - repeat constructor; vm_compute; discriminate.
Defined.
