(* ===== verification/RescueLog.v ===== *)
(** * The rescue log (internal/voicegateway/rescue_log.go)

    Accumulates a session's stuck points for the end report.  Every method
    runs under the log's own mutex, so each is one atomic step on the state.
    Go's [int] sequence is a [Z]: it counts episodes of one call. *)
From S2P Require Import Prelude GoString.

Open Scope Z_scope.

Definition rescuePathIncomplete : string := "incomplete".
Definition rescuePathSilent : string := "silent".

Record rescueEpisode := mkEpisode {
  seq : Z;
  turnID : string;
  path : string;
  level : Z;
  ladder : string;
  anchor : string;
  opened : bool;
}.

Record rescueLog := mkLog {
  episodes : list rescueEpisode;
  open : option rescueEpisode;
  pendingIncomplete : string;
  lastSeq : Z;
}.

(** The zero value [var log rescueLog]. *)
Definition emptyLog : rescueLog := mkLog [] None "" 0.

Definition is_empty (s : string) : bool := String.eqb s "".
Arguments is_empty : simpl never.

Definition noteIncompleteUtterance (text : string) (l : rescueLog) : rescueLog :=
  let text := TrimSpace text in
  if is_empty text then l else
  if is_empty (pendingIncomplete l)
  then mkLog (episodes l) (open l) text (lastSeq l)
  else l.

(** The episode a first rung opens, and the log with its half-sentence taken. *)
Definition open_episode (turn : string) (l : rescueLog) : rescueEpisode * rescueLog :=
  let n := lastSeq l + 1 in
  let pend := pendingIncomplete l in
  if is_empty pend
  then (mkEpisode n (TrimSpace turn) rescuePathSilent 0 "" "" false,
        mkLog (episodes l) (open l) pend n)
  else (mkEpisode n (TrimSpace turn) rescuePathIncomplete 0 "" pend true,
        mkLog (episodes l) (open l) "" n).

(** The part of [noteLadder] that updates [*l.open]. *)
Definition deepen (lev : Z) (text : string) (e : rescueEpisode) : rescueEpisode :=
  mkEpisode (seq e) (turnID e) (path e)
    (if level e <? lev then lev else level e)
    (if is_empty text then ladder e else text)
    (anchor e) (opened e).

Definition noteLadder (turn : string) (lev : Z) (text : string) (l : rescueLog)
  : rescueLog :=
  let text := TrimSpace text in
  let '(e, l') := match open l with
                  | Some e => (e, l)
                  | None => open_episode turn l
                  end in
  mkLog (episodes l') (Some (deepen lev text e)) (pendingIncomplete l') (lastSeq l').

Definition answer (text : string) (e : rescueEpisode) : rescueEpisode :=
  mkEpisode (seq e) (turnID e) (path e) (level e) (ladder e)
    (if is_empty (anchor e) then text else anchor e) true.

Definition noteUserText (text : string) (l : rescueLog) : rescueLog :=
  let text := TrimSpace text in
  if is_empty text then l else
  match open l with
  | None => l
  | Some e => mkLog (episodes l) (Some (answer text e)) (pendingIncomplete l) (lastSeq l)
  end.

Definition sealLocked (l : rescueLog) : rescueLog :=
  match open l with
  | None => l
  | Some e =>
      let e := if level e <? 1
               then mkEpisode (seq e) (turnID e) (path e) 1 (ladder e) (anchor e) (opened e)
               else e in
      mkLog (episodes l ++ [e]) None (pendingIncomplete l) (lastSeq l)
  end.

Definition closeEpisode (l : rescueLog) : rescueLog :=
  let l := sealLocked l in
  mkLog (episodes l) (open l) "" (lastSeq l).

Definition snapshot (l : rescueLog) : list rescueEpisode * rescueLog :=
  let l := sealLocked l in (episodes l, l).

(** ** Traces *)

Inductive log_event :=
| NoteIncomplete (text : string)
| NoteLadder (turn : string) (lev : Z) (text : string)
| NoteUser (text : string)
| Close
| Snapshot.

Definition log_step (l : rescueLog) (ev : log_event) : rescueLog :=
  match ev with
  | NoteIncomplete t => noteIncompleteUtterance t l
  | NoteLadder t n x => noteLadder t n x l
  | NoteUser t => noteUserText t l
  | Close => closeEpisode l
  | Snapshot => (snapshot l).2
  end.

Definition run (evs : list log_event) (l : rescueLog) : rescueLog :=
  foldl log_step l evs.

Lemma log_run_app evs evs' l : run (evs ++ evs') l = run evs' (run evs l).
Proof. apply foldl_app. Qed.

Lemma log_run_cons ev evs l : run (ev :: evs) l = run evs (log_step l ev).
Proof. done. Qed.

(** ** Well-formed episodes *)

(** What refine may rely on: an episode has an anchor exactly when the learner
    opened their mouth, and the incomplete path always has one. *)
Definition sane (e : rescueEpisode) : Prop :=
  (opened e = true <-> anchor e <> ""%string) /\
  (path e = rescuePathSilent \/ path e = rescuePathIncomplete /\ anchor e <> ""%string).

Definition numbered (n : Z) (es : list rescueEpisode) : Prop :=
  map seq es = map (fun k => Z.of_nat k) (List.seq 1 (length es)) /\
  n = Z.of_nat (length es).

Definition log_ok (l : rescueLog) : Prop :=
  Forall (fun e => sane e /\ 1 <= level e) (episodes l) /\
  match open l with
  | None => numbered (lastSeq l) (episodes l)
  | Some e => sane e /\ numbered (lastSeq l - 1) (episodes l) /\ seq e = lastSeq l
  end.

Lemma is_empty_true s : is_empty s = true <-> s = ""%string.
Proof. apply String.eqb_eq. Qed.

Lemma is_empty_false s : is_empty s = false <-> s <> ""%string.
Proof. apply String.eqb_neq. Qed.

Lemma numbered_snoc n es e :
  numbered (n - 1) es -> seq e = n -> numbered n (es ++ [e]).
Proof.
  intros [Hm Hn] He. split.
  - rewrite map_app, Hm, length_app, seq_app, map_app. cbn. f_equal. f_equal. lia.
  - rewrite length_app. cbn. lia.
Qed.

Lemma sealLocked_ok l : log_ok l -> log_ok (sealLocked l) /\ open (sealLocked l) = None.
Proof.
  unfold log_ok, sealLocked. destruct (open l) as [e|] eqn:Ho; cbn.
  - intros (Hes & Hs & Hn & Hq). split; [split|done].
    + apply Forall_app. split; [done|]. constructor; [|constructor].
      destruct (level e <? 1) eqn:?; cbn; split; try done; lia.
    + apply numbered_snoc; [done|]. by destruct (level e <? 1).
  - rewrite Ho. auto.
Qed.

Lemma deepen_sane n x e : sane (deepen n x e) <-> sane e.
Proof. done. Qed.

Lemma noteLadder_ok t n x l : log_ok l -> log_ok (noteLadder t n x l).
Proof.
  unfold log_ok, noteLadder. intros [Hes Ho]. destruct (open l) as [e|] eqn:E.
  - done.
  - unfold open_episode. destruct (is_empty (pendingIncomplete l)) eqn:Hp; cbn.
    + split; [done|]. rewrite Z.add_simpl_r. split; [|done].
      split; [by split|by left].
    + apply is_empty_false in Hp.
      split; [done|]. rewrite Z.add_simpl_r. split; [|done].
      split; [by split|by right].
Qed.

Lemma log_step_ok l ev : log_ok l -> log_ok (log_step l ev).
Proof.
  intros H. destruct ev as [t|t n x|t| |]; cbn.
  - unfold noteIncompleteUtterance. by repeat case_match.
  - by apply noteLadder_ok.
  - unfold noteUserText. destruct (is_empty (TrimSpace t)) eqn:Ht; [done|].
    unfold log_ok in *. destruct (open l) as [e|] eqn:E; [|by rewrite E].
    destruct H as (Hes & [Ha Hp] & Hn). cbn. split; [done|]. split; [|done].
    apply is_empty_false in Ht. unfold sane; cbn.
    destruct (is_empty (anchor e)) eqn:He.
    + apply is_empty_true in He. split; [by split|]. destruct Hp as [?|[??]]; auto.
    + apply is_empty_false in He. split; [by split|]. destruct Hp as [?|[??]]; auto.
  - apply sealLocked_ok in H as [[H1 H2] Ho]. unfold closeEpisode, log_ok in *. cbn.
    by rewrite Ho in *.
  - apply sealLocked_ok in H as [H _]. done.
Qed.

Lemma run_ok evs l : log_ok l -> log_ok (run evs l).
Proof.
  revert l. induction evs as [|ev evs IH]; intros l H; cbn; [done|].
  apply IH, log_step_ok, H.
Qed.

Lemma emptyLog_ok : log_ok emptyLog.
Proof. split; [constructor|by split]. Qed.

(** Whatever the three goroutines call and in whatever order, the snapshot
    numbers its episodes 1, 2, 3, …; every episode has a level of at least 1,
    carries an anchor exactly when it is marked as answered by the learner, and
    carries one whenever it came from a half-sentence. *)
Theorem rescue_log_well_formed evs :
  let es := (snapshot (run evs emptyLog)).1 in
  map seq es = map Z.of_nat (List.seq 1 (length es)) /\
  Forall (fun e => 1 <= level e /\ (opened e = true <-> anchor e <> ""%string) /\
            (path e = rescuePathSilent \/
             path e = rescuePathIncomplete /\ anchor e <> ""%string)) es.
Proof.
  cbn. destruct (sealLocked_ok _ (run_ok evs _ emptyLog_ok)) as [[Hf Hn] Ho].
  rewrite Ho in Hn. destruct Hn as [Hn _]. split; [done|].
  eapply Forall_impl; [exact Hf|]. intros e [[??] ?]. auto.
Qed.

(** ** What the log reports, without the log *)

(** The first non-blank text, trimmed. *)
Fixpoint first_text (ts : list string) : string :=
  match ts with
  | [] => ""%string
  | t :: ts => if is_empty (TrimSpace t) then first_text ts else TrimSpace t
  end.

Definition incomplete_texts (evs : list log_event) : list string :=
  omap (fun ev => match ev with NoteIncomplete t => Some t | _ => None end) evs.
Definition user_texts (evs : list log_event) : list string :=
  omap (fun ev => match ev with NoteUser t => Some t | _ => None end) evs.
Definition rungs (evs : list log_event) : list (Z * string) :=
  omap (fun ev => match ev with NoteLadder _ n x => Some (n, x) | _ => None end) evs.

Definition deepest (rs : list (Z * string)) : Z := foldr (fun r m => Z.max r.1 m) 1 rs.
(** The last non-blank ladder text. *)
Definition last_text (rs : list (Z * string)) : string := first_text (rev (map snd rs)).

Arguments deepest : simpl never.
Arguments last_text : simpl never.

(** The events of one AI turn up to its first rung, that rung, and the rest. *)
Fixpoint at_first_rung (evs : list log_event)
  : option (list log_event * (string * Z * string) * list log_event) :=
  match evs with
  | [] => None
  | NoteLadder t n x :: rest => Some ([], (t, n, x), rest)
  | ev :: rest =>
      match at_first_rung rest with
      | Some (pre, r, post) => Some (ev :: pre, r, post)
      | None => None
      end
  end.

(** The stuck point of one AI turn: none without a rung; otherwise the
    half-sentence before the first rung (incomplete path) or the first thing
    said after it (silent path) is the anchor. *)
Definition stuck_point (n : Z) (evs : list log_event) : option rescueEpisode :=
  match at_first_rung evs with
  | None => None
  | Some (pre, (t, lev, x), post) =>
      let half := first_text (incomplete_texts pre) in
      let said := first_text (user_texts post) in
      let rs := (lev, x) :: rungs post in
      Some (mkEpisode n (TrimSpace t)
              (if is_empty half then rescuePathSilent else rescuePathIncomplete)
              (deepest rs) (last_text rs)
              (if is_empty half then said else half)
              (negb (is_empty half && is_empty said)))
  end.

(** One turn's events: no boundary inside. *)
Definition inside_turn (ev : log_event) : Prop :=
  match ev with Close | Snapshot => False | _ => True end.

Fixpoint stuck_points (n : Z) (turns : list (list log_event)) : list rescueEpisode :=
  match turns with
  | [] => []
  | evs :: rest =>
      match stuck_point n evs with
      | None => stuck_points n rest
      | Some e => e :: stuck_points (n + 1) rest
      end
  end.

Lemma first_text_app ts us :
  first_text (ts ++ us) =
  if is_empty (first_text ts) then first_text us else first_text ts.
Proof.
  induction ts as [|t ts IH]; cbn; [done|].
  destruct (is_empty (TrimSpace t)) eqn:E; [done|]. by rewrite E.
Qed.

Lemma last_text_cons n x rs :
  last_text ((n, x) :: rs) =
  if is_empty (last_text rs) then TrimSpace x else last_text rs.
Proof.
  unfold last_text. cbn. rewrite first_text_app. cbn.
  destruct (is_empty (TrimSpace x)) eqn:E; [|done].
  apply is_empty_true in E. by rewrite E.
Qed.

(** After the first rung, events only change the open episode (and the
    half-sentence kept for the next one). *)
Lemma run_open evs l e :
  Forall inside_turn evs -> open l = Some e ->
  let l' := run evs l in
  episodes l' = episodes l /\ lastSeq l' = lastSeq l /\
  open l' = Some (mkEpisode (seq e) (turnID e) (path e)
    (foldl Z.max (level e) (map fst (rungs evs)))
    (if is_empty (last_text (rungs evs)) then ladder e else last_text (rungs evs))
    (if is_empty (anchor e) then first_text (user_texts evs) else anchor e)
    (opened e || negb (is_empty (first_text (user_texts evs))))).
Proof.
  revert l e. induction evs as [|ev evs IH]; intros l e Hf Ho.
  - cbn. destruct e as [? ? ? ? ? a o]. cbn. repeat split.
    rewrite Ho. cbn. f_equal. f_equal; [|by destruct o].
    destruct (is_empty a) eqn:E; [by apply is_empty_true in E|done].
  - inversion Hf as [|? ? Hev Hf']; subst. rewrite log_run_cons.
    destruct ev as [t|t n x|t| |]; try done; cbn [log_step].
    + assert (open (noteIncompleteUtterance t l) = Some e /\
              episodes (noteIncompleteUtterance t l) = episodes l /\
              lastSeq (noteIncompleteUtterance t l) = lastSeq l) as (H1 & H2 & H3).
      { unfold noteIncompleteUtterance. by repeat case_match. }
      destruct (IH _ _ Hf' H1) as (-> & -> & ->). auto.
    + assert (open (noteLadder t n x l) = Some (deepen n (TrimSpace x) e) /\
              episodes (noteLadder t n x l) = episodes l /\
              lastSeq (noteLadder t n x l) = lastSeq l) as (H1 & H2 & H3).
      { unfold noteLadder. rewrite Ho. auto. }
      destruct (IH _ _ Hf' H1) as (-> & -> & ->). split; [done|]. split; [done|].
      change (rungs (NoteLadder t n x :: evs)) with ((n, x) :: rungs evs).
      change (user_texts (NoteLadder t n x :: evs)) with (user_texts evs).
      rewrite last_text_cons. cbn. f_equal. f_equal.
      * f_equal. destruct (Z.ltb_spec (level e) n); lia.
      * destruct (is_empty (last_text (rungs evs))) eqn:E; [done|]. by rewrite E.
    + change (user_texts (NoteUser t :: evs)) with (t :: user_texts evs).
      change (rungs (NoteUser t :: evs)) with (rungs evs). cbn [first_text].
      destruct (is_empty (TrimSpace t)) eqn:Et.
      * assert (noteUserText t l = l) as -> by (unfold noteUserText; by rewrite Et).
        by apply IH.
      * assert (open (noteUserText t l) = Some (answer (TrimSpace t) e) /\
              episodes (noteUserText t l) = episodes l /\
              lastSeq (noteUserText t l) = lastSeq l) as (H1 & H2 & H3).
        { unfold noteUserText. rewrite Et, Ho. auto. }
        destruct (IH _ _ Hf' H1) as (-> & -> & ->). split; [done|]. split; [done|].
        cbn. f_equal. f_equal.
        -- destruct (is_empty (anchor e)) eqn:Ea; [by rewrite Et|by rewrite Ea].
        -- rewrite Et. cbn. by destruct (opened e).
Qed.

(** Before any rung, events only collect the half-sentence. *)
Lemma run_before_rung evs l :
  Forall inside_turn evs -> at_first_rung evs = None -> open l = None ->
  run evs l = mkLog (episodes l) None
    (if is_empty (pendingIncomplete l) then first_text (incomplete_texts evs)
     else pendingIncomplete l) (lastSeq l).
Proof.
  revert l. induction evs as [|ev evs IH]; intros [es o p n] Hf Hr Ho; cbn in Ho; subst o.
  - cbn. destruct (is_empty p) eqn:E; [|done]. apply is_empty_true in E. by subst.
  - inversion Hf as [|? ? Hev Hf']; subst. rewrite log_run_cons.
    destruct ev as [t|t m x|t| |]; try done; cbn [log_step];
      cbn in Hr; destruct (at_first_rung evs) as [[[??]?]|] eqn:E; try done.
    + change (incomplete_texts (NoteIncomplete t :: evs)) with (t :: incomplete_texts evs).
      cbn [first_text].
      unfold noteIncompleteUtterance; cbn.
      destruct (is_empty (TrimSpace t)) eqn:Et.
      * rewrite (IH _ Hf' eq_refl); [done|done].
      * destruct (is_empty p) eqn:Ep.
        -- rewrite (IH _ Hf' eq_refl); cbn; [by rewrite Et|done].
        -- rewrite (IH _ Hf' eq_refl); cbn; [by rewrite Ep|done].
    + replace (noteUserText t _) with (mkLog es None p n)
        by (unfold noteUserText; cbn; by destruct (is_empty _)).
      by rewrite (IH _ Hf' eq_refl).
Qed.

Lemma at_first_rung_split evs pre r post :
  at_first_rung evs = Some (pre, r, post) ->
  evs = pre ++ (let '(t, n, x) := r in NoteLadder t n x) :: post /\
  at_first_rung pre = None.
Proof.
  revert pre. induction evs as [|ev evs IH]; intros pre H; [done|].
  destruct ev as [t|t m x|t| |]; cbn in H;
    [|by simplify_eq| | |];
    (destruct (at_first_rung evs) as [[[p' r'] q']|] eqn:E; [|done]; simplify_eq;
     destruct (IH _ eq_refl) as [-> Hn]; split; [done|cbn; by rewrite Hn]).
Qed.

Lemma foldl_max_deepest rs m : Z.max 1 (foldl Z.max m (map fst rs)) = Z.max m (deepest rs).
Proof.
  revert m. unfold deepest. induction rs as [|[k x] rs IH]; intros m; cbn; [lia|].
  rewrite IH. lia.
Qed.

(** One turn, sealed. *)
Lemma seal_turn evs es n :
  Forall inside_turn evs ->
  let l' := sealLocked (run evs (mkLog es None "" n)) in
  open l' = None /\
  match stuck_point (n + 1) evs with
  | None => episodes l' = es /\ lastSeq l' = n
  | Some e => episodes l' = es ++ [e] /\ lastSeq l' = n + 1
  end.
Proof.
  intros Hf. unfold stuck_point.
  destruct (at_first_rung evs) as [[[pre [[t lev] x]] post]|] eqn:E; cbn zeta.
  - apply at_first_rung_split in E as [-> Hpre].
    apply Forall_app in Hf as [Hfp Hf]. inversion Hf as [|? ? _ Hf']; subst.
    rewrite log_run_app, (run_before_rung pre) by done. cbn [is_empty pendingIncomplete].
    rewrite log_run_cons. cbn [log_step].
    set (half := first_text (incomplete_texts pre)).
    change (is_empty "") with true. cbn iota.
    set (l1 := mkLog _ _ _ _).
    assert (open (noteLadder t lev x l1) = Some (deepen lev (TrimSpace x)
        (mkEpisode (n + 1) (TrimSpace t)
          (if is_empty half then rescuePathSilent else rescuePathIncomplete) 0 ""
          half (negb (is_empty half)))) /\
      episodes (noteLadder t lev x l1) = es /\ lastSeq (noteLadder t lev x l1) = n + 1)
      as (Ho & He & Hn).
    { unfold noteLadder, open_episode, l1; cbn. destruct (is_empty half) eqn:Eh; cbn; [|done].
      apply is_empty_true in Eh. by rewrite Eh. }
    destruct (run_open post _ _ Hf' Ho) as (He' & Hn' & Ho').
    rewrite He in He'. rewrite Hn in Hn'.
    unfold sealLocked. rewrite Ho'. cbn. rewrite He', Hn'. split; [done|]. split; [|done].
    f_equal. f_equal. rewrite last_text_cons.
    set (lv := foldl Z.max _ _).
    assert (Z.max 1 lv = deepest ((lev, x) :: rungs post)) as Hlv.
    { unfold lv. rewrite foldl_max_deepest. unfold deepest; cbn.
      destruct (Z.ltb_spec 0 lev); [done|].
      enough (1 <= foldr (fun r m => Z.max r.1 m) 1 (rungs post)) by lia.
      clear. induction (rungs post); cbn; lia. }
    rewrite <- Hlv.
    replace (negb (is_empty half && is_empty (first_text (user_texts post))))
      with (negb (is_empty half) || negb (is_empty (first_text (user_texts post))))
      by (by destruct (is_empty half)).
    replace (if is_empty (TrimSpace x) then "" else TrimSpace x)%string with (TrimSpace x)
      by (destruct (is_empty (TrimSpace x)) eqn:Ex; [by apply is_empty_true in Ex|done]).
    destruct (Z.ltb_spec lv 1); f_equal; lia.
  - rewrite (run_before_rung evs) by done. done.
Qed.

Definition trace_of (turns : list (list log_event)) : list log_event :=
  concat (map (fun evs => evs ++ [Close]) turns).

Lemma run_turns turns es n :
  Forall (Forall inside_turn) turns ->
  exists m, run (trace_of turns) (mkLog es None "" n) =
    mkLog (es ++ stuck_points (n + 1) turns) None "" m /\
    forall last, stuck_points (n + 1) (turns ++ [last]) =
      stuck_points (n + 1) turns ++
      match stuck_point (m + 1) last with None => [] | Some e => [e] end.
Proof.
  revert es n. induction turns as [|evs turns IH]; intros es n Hf.
  - exists n. cbn. rewrite app_nil_r. split; [done|]. intros last.
    by destruct (stuck_point (n + 1) last).
  - inversion Hf as [|? ? Hev Hf']; subst.
    change (trace_of (evs :: turns)) with ((evs ++ [Close]) ++ trace_of turns).
    rewrite !log_run_app. change (run [Close] ?x) with (closeEpisode x).
    destruct (seal_turn evs es n Hev) as [Ho Hs].
    unfold closeEpisode. rewrite Ho.
    cbn [stuck_points app].
    destruct (stuck_point (n + 1) evs) as [e|]; destruct Hs as [-> ->].
    + destruct (IH (es ++ [e]) (n + 1) Hf') as (m & Hr & Hl).
      exists m. rewrite Hr, <- app_assoc. split; [done|].
      intros last. by rewrite Hl.
    + destruct (IH es n Hf') as (m & Hr & Hl). exists m. by rewrite Hr.
Qed.

(** For every call — AI turns of arbitrary notes, each closed by the turn's
    end, and the notes since the last one — the end report holds, in order,
    exactly the stuck points read off each turn's notes: one per turn that
    delivered a rung, at its deepest level, with its last ladder text, anchored
    on the half-sentence before the first rung or else on the first thing the
    learner said after it. *)
Theorem rescue_log_reports_stuck_points turns last :
  Forall (Forall inside_turn) turns -> Forall inside_turn last ->
  (snapshot (run (trace_of turns ++ last) emptyLog)).1 = stuck_points 1 (turns ++ [last]).
Proof.
  intros Ht Hl. unfold emptyLog, snapshot. cbn [fst]. rewrite log_run_app.
  destruct (run_turns turns [] 0 Ht) as (m & -> & ->).
  destruct (seal_turn last (stuck_points 1 turns) m Hl) as [_ Hs].
  cbn [app Z.add].
  destruct (stuck_point (m + 1) last); destruct Hs as [Hs _];
    (etransitivity; [exact Hs|]); [done|by rewrite app_nil_r].
Qed.

Definition demo_turn : list log_event :=
  [NoteIncomplete " half"; NoteLadder "t1" 1 "one"; NoteLadder "t1" 3 "three"; NoteUser "ok"].

Lemma rescue_log_reports_stuck_points_witness :
  (snapshot (run (trace_of [demo_turn] ++ [NoteLadder "t2" 2 "x"; NoteUser "hi "]) emptyLog)).1
  = [mkEpisode 1 "t1" rescuePathIncomplete 3 "three" "half" true;
     mkEpisode 2 "t2" rescuePathSilent 2 "x" "hi" true].
Proof.
  rewrite (rescue_log_reports_stuck_points [demo_turn] [NoteLadder "t2" 2 "x"; NoteUser "hi "]).
  - reflexivity.
  - repeat constructor.
  - repeat constructor.
Defined.
