(* ===== verification/AICost.v ===== *)
(** * The cost ledger (internal/aicost)

    [MemoryStore] keeps the rows in insertion order; every method holds the
    store's lock.  [Service] validates, stamps and reads.  Rows carry their own
    columns per unit, and sums are Go [int]/[int64] sums. *)
From S2P Require Import Prelude GoString GoTime ApiErr.

Open Scope Z_scope.

Record Log := mkLog {
  ID : string;
  UserID : option string;
  UserIDAnonymized : option string;
  TaskType : string;
  Model : string;
  TokensIn : Z;
  TokensOut : Z;
  AudioSec : Z;
  Chars : Z;
  CostMicroYuan : Z;
  CreatedAt : time;
}.

#[export] Instance Log_eq_dec : EqDecision Log.
Proof. solve_decision. Defined.

Record RecordRequest := mkRecordRequest {
  req_UserID : string;
  req_TaskType : string;
  req_Model : string;
  req_TokensIn : Z;
  req_TokensOut : Z;
  req_AudioSec : Z;
  req_Chars : Z;
  req_CostMicroYuan : Z;
}.

Record SummaryFilter := mkFilter {
  f_UserID : string;
  Since : time;
  Until : time;
  GroupBy : string;
}.

Record SummaryRow := mkRow {
  Key : string;
  Rows : Z;
  row_TokensIn : Z;
  row_TokensOut : Z;
  row_AudioSec : Z;
  row_Chars : Z;
  row_CostMicroYuan : Z;
}.

Definition GroupByTaskType : string := "task_type".
Definition GroupByModel : string := "model".
Definition GroupByDay : string := "day".

Definition DefaultSummaryWindow : duration := 7 * Day.
Definition MaxSummaryWindow : duration := 180 * Day.
Definition maxSummaryRows : nat := 500.

(** ** MemoryStore *)

Definition store : Type := list Log.

Definition CreateLog (log : Log) (s : store) : store := s ++ [log].

Definition summaryKey (log : Log) (groupBy : string) : string :=
  if String.eqb groupBy GroupByModel then Model log
  else if String.eqb groupBy GroupByDay then format_date (CreatedAt log)
  else TaskType log.

(** The [continue] guards of the summing loop. *)
Definition in_window (f : SummaryFilter) (log : Log) : bool :=
  (String.eqb (f_UserID f) "" || bool_decide (UserID log = Some (f_UserID f))) &&
  negb (Before (CreatedAt log) (Since f)) && Before (CreatedAt log) (Until f).

Definition zero_row (key : string) : SummaryRow := mkRow key 0 0 0 0 0 0.

Definition add_log (row : SummaryRow) (log : Log) : SummaryRow :=
  mkRow (Key row) (int64 (Rows row + 1))
    (int64 (row_TokensIn row + TokensIn log)) (int64 (row_TokensOut row + TokensOut log))
    (int64 (row_AudioSec row + AudioSec log)) (int64 (row_Chars row + Chars log))
    (int64 (row_CostMicroYuan row + CostMicroYuan log)).

(** One iteration on [(buckets, order)]. *)
Definition summarize_step (f : SummaryFilter)
    (acc : gmap string SummaryRow * list string) (log : Log) :=
  if in_window f log then
    let key := summaryKey log (GroupBy f) in
    match acc.1 !! key with
    | Some row => (<[key := add_log row log]> acc.1, acc.2)
    | None => (<[key := add_log (zero_row key) log]> acc.1, acc.2 ++ [key])
    end
  else acc.

Definition SummarizeCosts (f : SummaryFilter) (s : store) : list SummaryRow :=
  let '(buckets, order) := foldl (summarize_step f) (∅, []) s in
  omap (fun key => buckets !! key) (SortStrings order).

(** The backward loop of [ListRecent] over the reversed rows. *)
Fixpoint recent (wantUser : string) (limit : Z) (filtered : list Log) (rows : list Log)
  : list Log :=
  match rows with
  | [] => filtered
  | log :: rows =>
      if negb (String.eqb wantUser "") && negb (bool_decide (UserID log = Some wantUser))
      then recent wantUser limit filtered rows
      else
        let filtered := filtered ++ [log] in
        if (0 <? limit) && (limit <=? Z.of_nat (length filtered)) then filtered
        else recent wantUser limit filtered rows
  end.

Definition ListRecent (userID : string) (limit : Z) (s : store) : list Log :=
  rev (recent (TrimSpace userID) limit [] (rev s)).

Definition with_user (u a : option string) (log : Log) : Log :=
  mkLog (ID log) u a (TaskType log) (Model log) (TokensIn log) (TokensOut log)
    (AudioSec log) (Chars log) (CostMicroYuan log) (CreatedAt log).

Definition owned_by (userID : string) (log : Log) : bool := bool_decide (UserID log = Some userID).
Definition hidden_from (userID : string) (log : Log) : bool :=
  bool_decide (UserIDAnonymized log = Some userID).

Definition anonymize_row (userID : string) (log : Log) : Log :=
  if owned_by userID log then with_user None (Some userID) log else log.
Definition restore_row (userID : string) (log : Log) : Log :=
  if hidden_from userID log then with_user (Some userID) None log else log.

Definition AnonymizeUser (userID : string) (s : store) : Z * store :=
  (Z.of_nat (length (List.filter (owned_by userID) s)),
   map (anonymize_row userID) s).

Definition RestoreUser (userID : string) (s : store) : Z * store :=
  (Z.of_nat (length (List.filter (hidden_from userID) s)),
   map (restore_row userID) s).

(** ** Service

    [None] is a service without a store; [now] and [newID] are this call's
    clock reading and fresh identifier. *)
Definition Record_ (now : time) (newID : string) (req : RecordRequest) (s : option store)
  : result error Log * option store :=
  match s with
  | None => (Err (Api (Internal "aicost store is not configured")), s)
  | Some logs =>
      let taskType := TrimSpace (req_TaskType req) in
      if String.eqb taskType "" then (Err (Api (InvalidArgument "task_type is required")), s) else
      let model := TrimSpace (req_Model req) in
      if String.eqb model "" then (Err (Api (InvalidArgument "model is required")), s) else
      if (req_TokensIn req <? 0) || (req_TokensOut req <? 0) || (req_AudioSec req <? 0)
         || (req_Chars req <? 0) || (req_CostMicroYuan req <? 0)
      then (Err (Api (InvalidArgument
              "tokens/audio_sec/chars/cost_micro_yuan must be non-negative")), s)
      else
        let userID := TrimSpace (req_UserID req) in
        let log := mkLog newID (if String.eqb userID "" then None else Some userID) None
                     taskType model (req_TokensIn req) (req_TokensOut req) (req_AudioSec req)
                     (req_Chars req) (req_CostMicroYuan req) now in
        (Ok log, Some (CreateLog log logs))
  end.

(** The checked window and grouping of [Summary]. *)
Definition summary_filter (now : time) (f : SummaryFilter) : result error SummaryFilter :=
  let groupBy := TrimSpace (GroupBy f) in
  let known := String.eqb groupBy GroupByTaskType || String.eqb groupBy GroupByModel
               || String.eqb groupBy GroupByDay in
  if negb known && negb (String.eqb groupBy "")
  then Err (Api (InvalidArgument "group_by must be task_type, model or day"))
  else
    let groupBy := if known then groupBy else GroupByTaskType in
    let until := if IsZero (Until f) then now else Until f in
    let since := if IsZero (Since f) then Add until (- DefaultSummaryWindow) else Since f in
    if negb (Before since until) then Err (Api (InvalidArgument "since must be before until"))
    else if MaxSummaryWindow <? Sub until since
    then Err (Api (InvalidArgument "window is too wide"))
    else Ok (mkFilter (TrimSpace (f_UserID f)) since until groupBy).

(** [(GroupBy, Since, Until, Rows)] of the response; the caveat is a constant. *)
Definition Summary (now : time) (f : SummaryFilter) (s : option store)
  : result error (string * string * string * list SummaryRow) :=
  match s with
  | None => Err (Api (Internal "aicost store is not configured"))
  | Some logs =>
      match summary_filter now f with
      | Err e => Err e
      | Ok g => Ok (GroupBy g, format_rfc3339 (Since g), format_rfc3339 (Until g),
                    take maxSummaryRows (SummarizeCosts g logs))
      end
  end.

Definition TaskTypeVoiceDuplex : string := "voice.duplex".
Definition TaskTypeVoiceTTS : string := "voice.tts".

(** [TTSRecorder.RecordTTSUsage]; [None] is a recorder without a service. *)
Definition RecordTTSUsage (now : time) (newID voiceID : string) (chars : Z)
    (svc : option (option store)) : result error unit * option (option store) :=
  match svc with
  | None => (Ok tt, svc)
  | Some s =>
      let chars := Z.max chars 0 in
      let voiceID := TrimSpace voiceID in
      let voiceID := if String.eqb voiceID "" then "default"%string else voiceID in
      match Record_ now newID (mkRecordRequest "" TaskTypeVoiceTTS voiceID 0 0 0 chars 0) s with
      | (Ok _, s') => (Ok tt, Some s')
      | (Err e, s') => (Err e, Some s')
      end
  end.

(** ** The roll-up *)

Definition sum_of (f : Log -> Z) (ls : list Log) : Z := foldr (fun l a => f l + a) 0 ls.

(** The bucket of [key] written down directly. *)
Definition bucket (key : string) (ls : list Log) : SummaryRow :=
  mkRow key (int64 (Z.of_nat (length ls)))
    (int64 (sum_of TokensIn ls)) (int64 (sum_of TokensOut ls))
    (int64 (sum_of AudioSec ls)) (int64 (sum_of Chars ls)) (int64 (sum_of CostMicroYuan ls)).

Definition matching (f : SummaryFilter) (key : string) (s : store) : list Log :=
  List.filter (fun l => in_window f l && String.eqb (summaryKey l (GroupBy f)) key) s.

Lemma sum_of_snoc g ls l : sum_of g (ls ++ [l]) = sum_of g ls + g l.
Proof. unfold sum_of. induction ls; cbn in *; lia. Qed.

Lemma bucket_snoc key ls l : bucket key (ls ++ [l]) = add_log (bucket key ls) l.
Proof.
  unfold bucket, add_log. cbn. rewrite !int64_idem_l, !sum_of_snoc, length_app.
  cbn [length]. by replace (Z.of_nat (length ls + 1)) with (Z.of_nat (length ls) + 1) by lia.
Qed.

Lemma bucket_nil key : bucket key [] = zero_row key.
Proof. done. Qed.

Lemma matching_snoc f key s l :
  matching f key (s ++ [l]) =
  matching f key s ++
  if in_window f l && String.eqb (summaryKey l (GroupBy f)) key then [l] else [].
Proof. unfold matching. rewrite List.filter_app. cbn. by destruct (_ && _). Qed.

(** Loop invariant of the summing pass. *)
Definition summed (f : SummaryFilter) (s : store) (acc : gmap string SummaryRow * list string)
  : Prop :=
  NoDup acc.2 /\
  forall key,
    (key ∈ acc.2 <-> matching f key s <> []) /\
    acc.1 !! key = if decide (matching f key s = []) then None
                   else Some (bucket key (matching f key s)).

Lemma summarize_loop f s : summed f s (foldl (summarize_step f) (∅, []) s).
Proof.
  induction s as [|l s [Hnd IH]] using rev_ind.
  { split; [constructor|]. intros key. cbn. rewrite lookup_empty. split; [|done].
    split; [by inversion 1|done]. }
  rewrite foldl_app. cbn [foldl]. set (acc := foldl _ _ s) in *.
  unfold summarize_step. destruct (in_window f l) eqn:Hw.
  2: { split; [done|]. intros key. rewrite matching_snoc, Hw. cbn. by rewrite app_nil_r. }
  set (k := summaryKey l (GroupBy f)).
  assert (forall key, matching f key (s ++ [l]) =
            matching f key s ++ if decide (key = k) then [l] else []) as Hm.
  { intros key. rewrite matching_snoc, Hw. fold k. cbn.
    destruct (String.eqb_spec k key), (decide (key = k)); by subst. }
  destruct (IH k) as [Hin Hk]. rewrite Hk.
  destruct (decide (matching f k s = [])) as [Hn|Hn]; split; cbn.
  - apply NoDup_app. split; [done|]. split; [|apply NoDup_singleton].
    intros x Hx ->%list_elem_of_singleton. by apply Hin in Hx.
  - intros key. rewrite Hm, elem_of_app, list_elem_of_singleton.
    destruct (decide (key = k)) as [->|Hne].
    + rewrite Hn, lookup_insert_eq. split; [by split; auto|]. cbn.
      by rewrite <- (bucket_nil k), <- bucket_snoc.
    + rewrite app_nil_r, lookup_insert_ne by done. destruct (IH key) as [-> ->].
      split; [|done]. split; [by intros [?|?]|auto].
  - done.
  - intros key. rewrite Hm. destruct (decide (key = k)) as [->|Hne].
    + rewrite lookup_insert_eq. split.
      * split; [intros _; by destruct (matching f k s)|tauto].
      * rewrite decide_False by (by destruct (matching f k s)). by rewrite bucket_snoc.
    + rewrite app_nil_r, lookup_insert_ne by done. apply IH.
Qed.

Lemma omap_total {A B} (g : A -> option B) (h : A -> B) l :
  (forall x, x ∈ l -> g x = Some (h x)) -> omap g l = map h l.
Proof.
  induction l as [|x l IH]; intros H; [done|]. cbn.
  rewrite H by left. f_equal. apply IH. intros y Hy. apply H. by right.
Qed.

(** The cost report is exactly the ledger regrouped: there is one row per key
    that some entry in the window has, the rows are in strictly increasing key
    order, and each column is the (64-bit) total of that column over exactly
    the entries of the window with that key. *)
Theorem summary_is_ledger f s :
  exists keys,
    SummarizeCosts f s = map (fun key => bucket key (matching f key s)) keys /\
    StronglySorted (fun a b => str_lt a b = true) keys /\
    forall key, key ∈ keys <-> matching f key s <> [].
Proof.
  unfold SummarizeCosts. pose proof (summarize_loop f s) as [Hnd Hs].
  destruct (foldl (summarize_step f) (∅, []) s) as [buckets order]. cbn in *.
  pose proof (SortStrings_Permutation order) as Hp.
  exists (SortStrings order). split; [|split].
  - apply omap_total. intros key Hk. rewrite Hp in Hk.
    destruct (Hs key) as [Hin ->]. rewrite decide_False; [done|]. by apply Hin.
  - by apply SortStrings_strict.
  - intros key. rewrite Hp. apply Hs.
Qed.

(** ** Privacy: hide and restore *)

Lemma anonymize_row_spec u l :
  UserIDAnonymized l = None ->
  UserID (anonymize_row u l) <> Some u /\
  hidden_from u (anonymize_row u l) = owned_by u l /\
  restore_row u (anonymize_row u l) = l.
Proof.
  destruct l as [i usr an t m a b c d e at_]. cbn. intros ->.
  unfold restore_row, anonymize_row, hidden_from, owned_by. cbn.
  case_bool_decide; cbn; [|done]. rewrite bool_decide_true by done. by subst.
Qed.

(** Anonymising a learner and restoring them gives back every row they own,
    provided none was hidden before; in between no row names them, and both
    calls report the same count. *)
Theorem anonymize_then_restore u s :
  Forall (fun l => UserIDAnonymized l = None) s ->
  let (n, s1) := AnonymizeUser u s in
  Forall (fun l => UserID l <> Some u) s1 /\ RestoreUser u s1 = (n, s).
Proof.
  intros Hs. unfold AnonymizeUser, RestoreUser. induction Hs as [|l s Hl _ [IH1 IH2]]; [done|].
  destruct (anonymize_row_spec u l Hl) as (Hu & Hh & Hr). split; [by constructor|].
  cbn [map List.filter]. rewrite Hh, Hr. injection IH2 as Hn Hm. rewrite Hm.
  f_equal. destruct (owned_by u l); cbn [length]; lia.
Qed.

Definition demo_log (u : string) : Log :=
  mkLog "l1" (Some u) None "voice.duplex" "m" 0 0 12 0 0 0.

Lemma anonymize_then_restore_witness :
  RestoreUser "u" (AnonymizeUser "u" [demo_log "u"; demo_log "v"]).2
  = (1, [demo_log "u"; demo_log "v"]).
Proof.
  destruct (anonymize_then_restore "u" [demo_log "u"; demo_log "v"]) as [_ H].
  - repeat constructor.
  - exact H.
Defined.

(** ** Validation *)

(** A ledger write either appends exactly one row — non-negative columns,
    trimmed non-empty task type and model, the user only when named — or
    refuses and leaves the ledger as it was. *)
Theorem record_appends_or_refuses now id req s :
  match Record_ now id req (Some s) with
  | (Ok log, s') =>
      s' = Some (s ++ [log]) /\
      TaskType log <> ""%string /\ Model log <> ""%string /\ UserID log <> Some ""%string /\
      Forall (fun z => 0 <= z)
        [TokensIn log; TokensOut log; AudioSec log; Chars log; CostMicroYuan log]
  | (Err (Api e), s') => s' = Some s /\ HTTPStatus e = 400
  | (Err _, _) => False
  end.
Proof.
  unfold Record_.
  destruct (String.eqb_spec (TrimSpace (req_TaskType req)) ""); [done|].
  destruct (String.eqb_spec (TrimSpace (req_Model req)) ""); [done|].
  destruct (_ || _) eqn:H; [done|].
  split; [done|]. split; [done|]. split; [done|]. split.
  - cbn. by destruct (String.eqb_spec (TrimSpace (req_UserID req)) ""); [|injection 1].
  - repeat constructor; cbn; lia.
Qed.
