(* ===== verification/Pricing.v ===== *)
(** * LLM call pricing (internal/orchestrator/pricing.go)

    The price table is a map from cleaned model names to rates in 10^-6 CNY per
    million tokens.  Go ranges over the configured map in an arbitrary order, so
    [ConfigurePricing] takes its entries as a list: that order. *)
From S2P Require Import Prelude GoString GoUnicode GoTime ApiErr.

Open Scope Z_scope.

Record ModelPricing := mkPricing {
  InputMicroYuanPerMillion : Z;
  OutputMicroYuanPerMillion : Z;
}.

Abbreviation table := (gmap string ModelPricing).

Definition defaultArkPricing : table :=
  {[ "doubao-mini-32k"%string := mkPricing 300000 600000 ]}.

Inductive PricingSource := PricingExact | PricingHeuristic | PricingUnknown.

#[export] Instance PricingSource_eq_dec : EqDecision PricingSource.
Proof. solve_decision. Defined.

Definition clean (model : string) : string := ToLower (TrimSpace model).

(** The validation loop: the cleaned table, or the first refusal met. *)
Fixpoint clean_table (cleaned : table) (entries : list (string * ModelPricing))
  : result error table :=
  match entries with
  | [] => Ok cleaned
  | (model, price) :: rest =>
      let name := clean model in
      if String.eqb name "" then Err (Errorf "pricing table has an empty model name") else
      if (InputMicroYuanPerMillion price <=? 0) || (OutputMicroYuanPerMillion price <=? 0)
      then Err (Errorf ("pricing for " +:+ model
                 +:+ " must be positive; omit the model instead of pricing it at 0"))
      else clean_table (<[name := price]> cleaned) rest
  end.

(** The new active table. *)
Definition ConfigurePricing (entries : list (string * ModelPricing)) (arkPricing : table)
  : result error unit * table :=
  match entries with
  | [] => (Err (Errorf "pricing table is empty"), arkPricing)
  | _ => match clean_table ∅ entries with
         | Err e => (Err e, arkPricing)
         | Ok cleaned => (Ok tt, cleaned)
         end
  end.

Definition endpointToModel : gmap string string := list_to_map
  [("ep-20260830204651-pffhf", "doubao-seed-2-1-pro-260628");
   ("ep-20260830204818-8kdfr", "doubao-seed-2-1-pro-260628");
   ("ep-20260830204912-wtjw9", "doubao-seed-2-1-pro-260628");
   ("ep-20260830205333-prddb", "doubao-seed-2-1-turbo-260628");
   ("ep-20260830205423-xg4pd", "doubao-seed-2-1-turbo-260628");
   ("ep-20260830205520-d9d8n", "doubao-seed-2-1-turbo-260628");
   ("ep-20260830211617-26d79", "doubao-seed-2-1-pro-260628");
   ("ep-20260830211650-vkdj2", "doubao-seed-2-1-pro-260628");
   ("ep-20260830211715-q79x9", "doubao-seed-2-1-pro-260628");
   ("ep-20260830211747-vwtrb", "doubao-seed-2-1-turbo-260628");
   ("ep-20260830211815-pmkg6", "doubao-seed-2-1-turbo-260628");
   ("ep-20260830211850-pf2ts", "doubao-seed-2-1-turbo-260628")]%string.

Definition guessModelFamily (model : string) : option string :=
  let model := TrimSpace (ToLower model) in
  if Contains model "mini" then Some "doubao-mini-32k"%string else
  if Contains model "lite" then Some "doubao-lite-32k"%string else
  if Contains model "character" then Some "doubao-character-32k"%string else
  if Contains model "pro" then
    if Contains model "4k" then Some "doubao-pro-4k"%string else
    if Contains model "128k" then Some "doubao-pro-128k"%string else
    if Contains model "256k" then Some "doubao-pro-256k"%string else
    if Contains model "search" then Some "doubao-pro-search"%string else
    Some "doubao-pro-32k"%string
  else None.

Definition normalizeModelName (model : string) : string :=
  let model := TrimSpace (ToLower model) in
  match endpointToModel !! model with
  | Some mapped => mapped
  | None => match guessModelFamily model with
            | Some guessed => guessed
            | None => model
            end
  end.

Definition no_price : ModelPricing := mkPricing 0 0.

Definition ResolvePricing (model : string) (arkPricing : table) : ModelPricing * PricingSource :=
  let raw := clean model in
  match endpointToModel !! raw with
  | Some _ =>
      match arkPricing !! normalizeModelName raw with
      | Some price => (price, PricingExact)
      | None => (no_price, PricingUnknown)
      end
  | None =>
      match arkPricing !! raw with
      | Some price => (price, PricingExact)
      | None =>
          match guessModelFamily raw with
          | None => (no_price, PricingUnknown)
          | Some guessed =>
              match arkPricing !! guessed with
              | None => (no_price, PricingUnknown)
              | Some price => (price, PricingHeuristic)
              end
          end
      end
  end.

(** 64-bit products and sum, truncated quotient, and the floor of one. *)
Definition CalculateCostMicroYuan (model : string) (promptTokens outputTokens : Z)
    (arkPricing : table) : Z :=
  if (promptTokens <=? 0) && (outputTokens <=? 0) then 0 else
  match ResolvePricing model arkPricing with
  | (_, PricingUnknown) => 0
  | (pricing, _) =>
      let total := Z.quot (int64 (int64 (promptTokens * InputMicroYuanPerMillion pricing) +
                                  int64 (outputTokens * OutputMicroYuanPerMillion pricing)))
                          1000000 in
      if total =? 0 then 1 else total
  end.

(** ** The table *)

Lemma clean_table_spec entries cleaned t :
  clean_table cleaned entries = Ok t ->
  Forall (fun e => clean e.1 <> ""%string /\
            0 < InputMicroYuanPerMillion e.2 /\ 0 < OutputMicroYuanPerMillion e.2) entries /\
  t = (list_to_map (rev (map (fun e => (clean e.1, e.2)) entries)) : gmap string ModelPricing)
      ∪ cleaned.
Proof.
  revert cleaned. induction entries as [|[m p] rest IH]; intros cleaned H; cbn in H.
  { simplify_eq. split; [constructor|]. cbn. by rewrite (left_id_L ∅ (∪)). }
  destruct (String.eqb_spec (clean m) ""); [done|].
  destruct (_ || _) eqn:Hp; [done|].
  destruct (IH _ H) as [Hf ->]. split; [constructor; [cbn; repeat split; [done|lia..]|done]|].
  cbn [rev map fst snd]. rewrite (list_to_map_app (M := gmap string)), <- (assoc_L (∪)). f_equal.
  cbn. by rewrite insert_union_singleton_l, insert_empty.
Qed.

(** Configuring prices is all or nothing: a refused table leaves the active one
    as it was, and an accepted one replaces it entirely — every rate in it is
    positive, and nothing of the old table survives. *)
Theorem configure_is_all_or_nothing entries old :
  match ConfigurePricing entries old with
  | (Err _, t) => t = old
  | (Ok _, t) =>
      Forall (fun e => clean e.1 <> ""%string /\
                0 < InputMicroYuanPerMillion e.2 /\ 0 < OutputMicroYuanPerMillion e.2) entries /\
      forall name, t !! name =
        (list_to_map (rev (map (fun e => (clean e.1, e.2)) entries)) : table) !! name
  end.
Proof.
  unfold ConfigurePricing. destruct entries as [|e es]; [done|].
  destruct (clean_table ∅ (e :: es)) as [t|err] eqn:H; [|done].
  apply clean_table_spec in H as [Hf ->]. split; [done|]. intros name.
  by rewrite (right_id_L ∅ (∪)).
Qed.

(** The order in which the map is ranged over does not matter when no two
    configured names clean to the same one. *)
Lemma configured_lookup entries m p :
  NoDup (map (fun e => clean e.1) entries) -> (m, p) ∈ entries ->
  (list_to_map (rev (map (fun e => (clean e.1, e.2)) entries)) : table) !! clean m = Some p.
Proof.
  intros Hnd Hin. apply elem_of_list_to_map.
  - change (NoDup (map fst (rev (map (fun e => (clean e.1, e.2)) entries)))).
    rewrite map_rev, map_map. cbn. by rewrite <- Permutation_rev.
  - rewrite list_elem_of_In, <- in_rev, in_map_iff.
    exists (m, p). split; [done|]. by apply list_elem_of_In.
Qed.

(** A configured model — under any capitalisation and surrounding space — is
    priced exactly at its configured rate, unless it names a mapped endpoint. *)
Theorem configured_model_priced_exactly entries old t m p m' :
  NoDup (map (fun e => clean e.1) entries) -> (m, p) ∈ entries ->
  ConfigurePricing entries old = (Ok tt, t) ->
  clean m' = clean m -> endpointToModel !! clean m = None ->
  ResolvePricing m' t = (p, PricingExact).
Proof.
  intros Hnd Hin Hc Hm He. pose proof (configure_is_all_or_nothing entries old) as H.
  rewrite Hc in H. destruct H as [_ H].
  unfold ResolvePricing. rewrite Hm, He, H. by rewrite (configured_lookup _ m p).
Qed.

Definition demo_entries : list (string * ModelPricing) :=
  [(" Doubao-X ", mkPricing 800000 2000000)]%string.

Lemma configured_model_priced_exactly_witness :
  ResolvePricing "DOUBAO-x" (ConfigurePricing demo_entries ∅).2
  = (mkPricing 800000 2000000, PricingExact).
Proof.
  apply (configured_model_priced_exactly demo_entries ∅ _ " Doubao-X ");
    [apply NoDup_singleton|left|vm_compute; reflexivity|vm_compute; reflexivity
    |vm_compute; reflexivity].
Defined.

(** ** Cost *)

(** The cost of a call, as long as the products fit 64 bits: nothing for a call
    without tokens or a model no rule prices, and otherwise the exact
    micro-yuan amount rounded down, but never free. *)
Theorem cost_is_exact model prompt output t :
  0 <= prompt -> 0 <= output ->
  let '(price, source) := ResolvePricing model t in
  0 <= InputMicroYuanPerMillion price -> 0 <= OutputMicroYuanPerMillion price ->
  prompt * InputMicroYuanPerMillion price + output * OutputMicroYuanPerMillion price
    <= max_int64 ->
  CalculateCostMicroYuan model prompt output t =
  if (prompt + output =? 0) || bool_decide (source = PricingUnknown) then 0
  else Z.max 1 ((prompt * InputMicroYuanPerMillion price +
                 output * OutputMicroYuanPerMillion price) / 1000000).
Proof.
  intros Hp Ho. unfold CalculateCostMicroYuan.
  destruct (ResolvePricing model t) as [[i o] src]. cbn. intros Hi Hoo Hb.
  destruct ((prompt <=? 0) && (output <=? 0)) eqn:Hz.
  { by replace (prompt + output =? 0) with true by lia. }
  replace (prompt + output =? 0) with false by lia. cbn.
  assert (in_int64 (prompt * i) /\ in_int64 (output * o) /\
          in_int64 (prompt * i + output * o)) as (H1 & H2 & H3)
    by (unfold in_int64, min_int64, max_int64 in *; nia).
  rewrite (int64_id _ H1), (int64_id _ H2), (int64_id _ H3).
  set (x := prompt * i + output * o) in *. assert (0 <= x) by nia.
  rewrite Z.quot_div_nonneg by lia.
  pose proof (Z.div_pos x 1000000).
  destruct src; cbn;
    [rewrite bool_decide_false by done|rewrite bool_decide_false by done
    |by rewrite bool_decide_true by done];
    destruct (Z.eqb_spec (x / 1000000) 0); lia.
Qed.

Lemma cost_is_exact_witness :
  CalculateCostMicroYuan "doubao-mini-32k" 1000 500 defaultArkPricing = 600.
Proof.
  pose proof (cost_is_exact "doubao-mini-32k" 1000 500 defaultArkPricing
                ltac:(lia) ltac:(lia)) as H.
  vm_compute in H. apply H; discriminate.
Defined.
