(* ===== verification/Session.v ===== *)
(** * The session store (internal/session: types.go, store.go, memory_store.go)

    Practice sessions, their one-time tickets, transcripts, rescue ladders, the
    review outbox and the cost rows written with them.  Every method holds the
    store's lock, so it is one atomic step [MemoryStore -> result * MemoryStore].
    The clone functions of the source keep callers from sharing memory with the
    store; on the values of the model they are the identity.  A [nil] and an
    empty byte slice are one value here, as they are after a clone. *)
From S2P Require Import Prelude GoString GoTime GoSort ApiErr AICost.

Open Scope Z_scope.

Definition StatusCreated : string := "created".
Definition StatusActive : string := "active".
Definition StatusEnded : string := "ended".
Definition StatusAbandoned : string := "abandoned".
Definition StatusReviewed : string := "reviewed".

Definition isTerminalStatus (status : string) : bool :=
  String.eqb status StatusEnded || String.eqb status StatusAbandoned.

Definition JobTypeSessionFinished : string := "session.finished".
Definition JobTypeSessionEval : string := "session.eval".
Definition JobStatusPending : string := "pending".
Definition JobStatusProcessing : string := "processing".
Definition JobStatusDone : string := "done".
Definition JobStatusFailed : string := "failed".

Definition MaxJobAttempts : Z := 2.
Definition DefaultJobLease : duration := 2 * Minute.

Definition RescuePathIncomplete : string := "incomplete".
Definition RescuePathSilent : string := "silent".

Definition SpeakerUser : string := "user".
Definition SpeakerAI : string := "ai".

Definition ErrNotFound : error := Sentinel "session: not found".
Definition ErrTicketUsed : error := Sentinel "session: ticket already used".
Definition ErrTicketExpired : error := Sentinel "session: ticket expired".
Definition ErrConflict : error := Sentinel "session: conflict".

Record Session := mkSession {
  s_ID : string;
  s_UserID : string;
  s_MaterialID : option string;
  s_SceneType : string;
  s_SessionLength : string;
  s_Status : string;
  s_DurationSec : Z;
  s_ReviewJSON : string;
  s_CreatedAt : time;
  s_UpdatedAt : time;
  s_DeletedAt : option time;
}.

Record Job := mkJob {
  j_ID : string;
  j_SessionID : string;
  j_JobType : string;
  j_Status : string;
  j_Attempts : Z;
  j_AvailableAt : time;
  j_LockedAt : option time;
  j_LockedBy : option string;
  j_LastError : option string;
  j_CreatedAt : time;
  j_UpdatedAt : time;
}.

Record Ticket := mkTicket {
  t_ID : string;
  t_SessionID : string;
  t_UserID : string;
  t_Hash : string;
  t_ExpiresAt : time;
  t_UsedAt : option time;
  t_CreatedAt : time;
}.

(** [ASRConfidence], a pointer to a float the package never computes with, is
    carried as its 64 bits. *)
Record Utterance := mkUtterance {
  u_ID : string;
  u_SessionID : string;
  u_Seq : Z;
  u_Speaker : string;
  u_Text : string;
  u_ASRConfidence : option Z;
  u_AudioURL : option string;
  u_LLMEvalJSON : string;
  u_CreatedAt : time;
  u_Interrupted : bool;
}.

Record RescueEvent := mkRescueEvent {
  r_ID : string;
  r_SessionID : string;
  r_UserID : string;
  r_Seq : Z;
  r_TurnID : string;
  r_Level : Z;
  r_Path : string;
  r_Ladder : string;
  r_UserOpened : bool;
  r_Anchor : string;
  r_CreatedAt : time;
}.

Record MemoryStore := mkStore {
  sessions : gmap string Session;
  tickets : gmap string Ticket;
  utterances : gmap string (list Utterance);
  jobs : gmap string Job;
  costLogs : gmap string Log;
  rescueEvents : gmap string (list RescueEvent);
}.

Definition NewMemoryStore : MemoryStore := mkStore ∅ ∅ ∅ ∅ ∅ ∅.

(** ** Field updates *)

Definition set_sessions (m : gmap string Session) (s : MemoryStore) : MemoryStore :=
  mkStore m (tickets s) (utterances s) (jobs s) (costLogs s) (rescueEvents s).
Definition set_tickets (m : gmap string Ticket) (s : MemoryStore) : MemoryStore :=
  mkStore (sessions s) m (utterances s) (jobs s) (costLogs s) (rescueEvents s).
Definition set_utterances (m : gmap string (list Utterance)) (s : MemoryStore) : MemoryStore :=
  mkStore (sessions s) (tickets s) m (jobs s) (costLogs s) (rescueEvents s).
Definition set_jobs (m : gmap string Job) (s : MemoryStore) : MemoryStore :=
  mkStore (sessions s) (tickets s) (utterances s) m (costLogs s) (rescueEvents s).
Definition set_costLogs (m : gmap string Log) (s : MemoryStore) : MemoryStore :=
  mkStore (sessions s) (tickets s) (utterances s) (jobs s) m (rescueEvents s).
Definition set_rescueEvents (m : gmap string (list RescueEvent)) (s : MemoryStore)
  : MemoryStore :=
  mkStore (sessions s) (tickets s) (utterances s) (jobs s) (costLogs s) m.

(** A session with new status, duration, review and timestamps. *)
Definition with_status (st : string) (dur : Z) (review : string) (at_ : time) (x : Session)
  : Session :=
  mkSession (s_ID x) (s_UserID x) (s_MaterialID x) (s_SceneType x) (s_SessionLength x)
    st dur review (s_CreatedAt x) at_ (s_DeletedAt x).
Definition with_owner (user : string) (at_ : time) (x : Session) : Session :=
  mkSession (s_ID x) user (s_MaterialID x) (s_SceneType x) (s_SessionLength x)
    (s_Status x) (s_DurationSec x) (s_ReviewJSON x) (s_CreatedAt x) at_ (s_DeletedAt x).
Definition with_deleted (d : option time) (at_ : time) (x : Session) : Session :=
  mkSession (s_ID x) (s_UserID x) (s_MaterialID x) (s_SceneType x) (s_SessionLength x)
    (s_Status x) (s_DurationSec x) (s_ReviewJSON x) (s_CreatedAt x) at_ d.
Definition with_used (u : option time) (t : Ticket) : Ticket :=
  mkTicket (t_ID t) (t_SessionID t) (t_UserID t) (t_Hash t) (t_ExpiresAt t) u (t_CreatedAt t).
Definition with_ticket_owner (user : string) (t : Ticket) : Ticket :=
  mkTicket (t_ID t) (t_SessionID t) user (t_Hash t) (t_ExpiresAt t) (t_UsedAt t) (t_CreatedAt t).
Definition with_session_id (sid : string) (e : RescueEvent) : RescueEvent :=
  mkRescueEvent (r_ID e) sid (r_UserID e) (r_Seq e) (r_TurnID e) (r_Level e) (r_Path e)
    (r_Ladder e) (r_UserOpened e) (r_Anchor e) (r_CreatedAt e).
Definition with_eval (ev : string) (u : Utterance) : Utterance :=
  mkUtterance (u_ID u) (u_SessionID u) (u_Seq u) (u_Speaker u) (u_Text u) (u_ASRConfidence u)
    (u_AudioURL u) ev (u_CreatedAt u) (u_Interrupted u).

(** ** Sessions *)

Definition dup (what : string) : error := Errorf ("session: duplicate " +:+ what).

Definition CreateSession (x : Session) (s : MemoryStore) : result error unit * MemoryStore :=
  match sessions s !! s_ID x with
  | Some _ => (Err (dup "session id"), s)
  | None => (Ok tt, set_sessions (<[s_ID x := x]> (sessions s)) s)
  end.

Definition GetSession (id : string) (s : MemoryStore) : result error Session :=
  match sessions s !! id with
  | None => Err ErrNotFound
  | Some x => Ok x
  end.

(** The [less] of [ListSessions]: newest first, then the larger id. *)
Definition newer (a b : Session) : bool :=
  if negb (s_CreatedAt a =? s_CreatedAt b) then After (s_CreatedAt a) (s_CreatedAt b)
  else str_lt (s_ID b) (s_ID a).

(** Whether the listing keeps a session: the loop's [continue] guards. *)
Definition listed (userID : string) (lastStartedAt : option time) (lastID : string)
    (x : Session) : bool :=
  String.eqb (s_UserID x) userID && negb (bool_decide (is_Some (s_DeletedAt x))) &&
  match lastStartedAt with
  | None => true
  | Some cursorAt =>
      negb (After (s_CreatedAt x) cursorAt ||
            ((s_CreatedAt x =? cursorAt) && negb (str_lt (s_ID x) lastID)))
  end.

Definition all_sessions (s : MemoryStore) : list Session := (map_to_list (sessions s)).*2.

Definition ListSessions (userID : string) (lastStartedAt : option time) (lastID : string)
    (limit : Z) (s : MemoryStore) : list Session :=
  if limit <? 1 then [] else
  let items := sort_Slice newer (List.filter (listed userID lastStartedAt lastID)
                                   (all_sessions s)) in
  if limit <? Z.of_nat (length items) then take (Z.to_nat limit) items else items.

Definition ListActiveUserIDs (since : time) (s : MemoryStore) : list string :=
  let seen : gset string :=
    foldr (fun x seen =>
             if bool_decide (is_Some (s_DeletedAt x)) || String.eqb (s_UserID x) "" then seen
             else if Before (s_CreatedAt x) since then seen
             else {[ s_UserID x ]} ∪ seen) ∅ (all_sessions s) in
  SortStrings (elements seen).

(** ** Tickets *)

Definition CreateTicket (t : Ticket) (s : MemoryStore) : result error unit * MemoryStore :=
  match tickets s !! t_Hash t with
  | Some _ => (Err (dup "ticket hash"), s)
  | None => (Ok tt, set_tickets (<[t_Hash t := t]> (tickets s)) s)
  end.

Definition CreateSessionWithTicket (x : Session) (t : Ticket) (s : MemoryStore)
  : result error unit * MemoryStore :=
  match sessions s !! s_ID x with
  | Some _ => (Err (dup "session id"), s)
  | None =>
      match tickets s !! t_Hash t with
      | Some _ => (Err (dup "ticket hash"), s)
      | None =>
          (Ok tt, set_tickets (<[t_Hash t := t]> (tickets s))
                    (set_sessions (<[s_ID x := x]> (sessions s)) s))
      end
  end.

Definition GetTicketByHash (hash : string) (s : MemoryStore) : result error Ticket :=
  match tickets s !! hash with
  | None => Err ErrNotFound
  | Some t => Ok t
  end.

Definition ConsumeTicket (hash : string) (at_ : time) (s : MemoryStore)
  : result error Ticket * MemoryStore :=
  match tickets s !! hash with
  | None => (Err ErrNotFound, s)
  | Some t =>
      match t_UsedAt t with
      | Some _ => (Err ErrTicketUsed, s)
      | None =>
          if negb (After (t_ExpiresAt t) at_) then (Err ErrTicketExpired, s)
          else
            let t := with_used (Some at_) t in
            (Ok t, set_tickets (<[hash := t]> (tickets s)) s)
      end
  end.

(** ** Lifecycle *)

Definition MarkSessionActive (sessionID : string) (at_ : time) (s : MemoryStore)
  : result error Session * MemoryStore :=
  match sessions s !! sessionID with
  | None => (Err ErrNotFound, s)
  | Some x =>
      if String.eqb (s_Status x) StatusActive then (Ok x, s)
      else if String.eqb (s_Status x) StatusCreated then
        let x := with_status StatusActive (s_DurationSec x) (s_ReviewJSON x) at_ x in
        (Ok x, set_sessions (<[sessionID := x]> (sessions s)) s)
      else (Err ErrConflict, s)
  end.

(** The rows a session keeps; a missing key reads as an empty slice. *)
Definition rows_of {A} (id : string) (m : gmap string (list A)) : list A :=
  default [] (m !! id).

(** [(session, utterances, alreadyEnded)] *)
Definition EndSession (sessionID terminalStatus : string) (durationSec : Z)
    (us : list Utterance) (evs : list RescueEvent) (at_ : time) (costLog : option Log)
    (s : MemoryStore) : result error (Session * list Utterance * bool) * MemoryStore :=
  match sessions s !! sessionID with
  | None => (Err ErrNotFound, s)
  | Some x =>
      if isTerminalStatus (s_Status x)
      then (Ok (x, rows_of sessionID (utterances s), true), s)
      else if negb (String.eqb (s_Status x) StatusCreated) &&
              negb (String.eqb (s_Status x) StatusActive)
      then (Err ErrConflict, s)
      else
        let durationSec := if durationSec <? 0 then 0 else durationSec in
        let x := with_status terminalStatus durationSec (s_ReviewJSON x) at_ x in
        let s := set_sessions (<[sessionID := x]> (sessions s)) s in
        let s := set_utterances (<[sessionID := us]> (utterances s)) s in
        let s := set_rescueEvents
                   (<[sessionID := map (with_session_id sessionID) evs]> (rescueEvents s)) s in
        let s := match costLog with
                 | Some c => set_costLogs (<[ID c := c]> (costLogs s)) s
                 | None => s
                 end in
        (Ok (x, us, false), s)
  end.

(** Only the paths that occur appear as keys. *)
Definition CountRescuesByPath (userID : string) (since : time) (s : MemoryStore)
  : gmap string Z :=
  foldr (fun e out =>
           if negb (String.eqb (r_UserID e) userID) || Before (r_CreatedAt e) since then out
           else
             let path := if String.eqb (r_Path e) "" then RescuePathSilent else r_Path e in
             <[path := default 0 (out !! path) + 1]> out)
    ∅ (concat ((map_to_list (rescueEvents s)).*2)).

Definition ListRescueEvents (sessionID : string) (s : MemoryStore)
  : result error (list RescueEvent) :=
  match sessions s !! sessionID with
  | None => Err ErrNotFound
  | Some _ => Ok (sort_Slice (less_by r_Seq) (rows_of sessionID (rescueEvents s)))
  end.

Definition ListUtterances (sessionID : string) (s : MemoryStore)
  : result error (list Utterance) :=
  match sessions s !! sessionID with
  | None => Err ErrNotFound
  | Some _ => Ok (sort_Slice (less_by u_Seq) (rows_of sessionID (utterances s)))
  end.

(** ** The review outbox *)

Definition EnqueueJob (j : Job) (s : MemoryStore) : result error unit * MemoryStore :=
  match jobs s !! j_ID j with
  | Some _ => (Err (dup "job id"), s)
  | None => (Ok tt, set_jobs (<[j_ID j := j]> (jobs s)) s)
  end.

Definition HasSessionJob (sessionID jobType : string) (statuses : list string)
    (s : MemoryStore) : bool :=
  existsb (fun j => String.eqb (j_SessionID j) sessionID && String.eqb (j_JobType j) jobType &&
                    bool_decide (j_Status j ∈ statuses))
    ((map_to_list (jobs s)).*2).

(** The [switch] of the claim loop: an available pending job, or a processing
    one whose lease has run out. *)
Definition claimable (at_ : time) (j : Job) : bool :=
  if String.eqb (j_Status j) JobStatusPending then negb (After (j_AvailableAt j) at_)
  else if String.eqb (j_Status j) JobStatusProcessing then
    match j_LockedAt j with
    | None => false
    | Some l => negb (After l (Add at_ (- DefaultJobLease)))
    end
  else false.

Definition zero_job : Job :=
  mkJob "" "" "" "" 0 zero_time None None None zero_time zero_time.

(** One iteration on [(selectedID, selected)]. *)
Definition claim_step (at_ : time) (acc : string * Job) (entry : string * Job) : string * Job :=
  let '(selectedID, selected) := acc in
  let '(id, j) := entry in
  if negb (claimable at_ j) then acc
  else if String.eqb selectedID "" || Before (j_CreatedAt j) (j_CreatedAt selected) ||
          ((j_CreatedAt j =? j_CreatedAt selected) && str_lt (j_ID j) (j_ID selected))
  then (id, j) else acc.

(** The selection loop over the jobs in the order the map yields them. *)
Definition claim_select (at_ : time) (order : list (string * Job)) : string * Job :=
  foldl (claim_step at_) (""%string, zero_job) order.

Definition ClaimNextJob (workerID : string) (at_ : time) (s : MemoryStore)
  : result error Job * MemoryStore :=
  let '(selectedID, j) := claim_select at_ (map_to_list (jobs s)) in
  if String.eqb selectedID "" then (Err ErrNotFound, s)
  else
    let j := mkJob (j_ID j) (j_SessionID j) (j_JobType j) JobStatusProcessing
               (int64 (j_Attempts j + 1)) (j_AvailableAt j) (Some at_) (Some workerID)
               (j_LastError j) (j_CreatedAt j) at_ in
    (Ok j, set_jobs (<[selectedID := j]> (jobs s)) s).

Definition CompleteJob (jobID : string) (at_ : time) (s : MemoryStore)
  : result error unit * MemoryStore :=
  match jobs s !! jobID with
  | None => (Err ErrNotFound, s)
  | Some j =>
      if negb (String.eqb (j_Status j) JobStatusProcessing) then (Err ErrConflict, s)
      else
        let j := mkJob (j_ID j) (j_SessionID j) (j_JobType j) JobStatusDone (j_Attempts j)
                   (j_AvailableAt j) None None (j_LastError j) (j_CreatedAt j) at_ in
        (Ok tt, set_jobs (<[jobID := j]> (jobs s)) s)
  end.

Definition FailJob (jobID : string) (at_ : time) (errMsg : string) (retryDelay : duration)
    (s : MemoryStore) : result error unit * MemoryStore :=
  match jobs s !! jobID with
  | None => (Err ErrNotFound, s)
  | Some j =>
      if negb (String.eqb (j_Status j) JobStatusProcessing) then (Err ErrConflict, s)
      else
        let retry := j_Attempts j <? MaxJobAttempts in
        let j := mkJob (j_ID j) (j_SessionID j) (j_JobType j)
                   (if retry then JobStatusPending else JobStatusFailed) (j_Attempts j)
                   (if retry then Add at_ retryDelay else j_AvailableAt j)
                   None None (Some errMsg) (j_CreatedAt j) at_ in
        (Ok tt, set_jobs (<[jobID := j]> (jobs s)) s)
  end.

(** ** Reviews *)

Definition MarkSessionReviewed (sessionID reviewJSON : string) (at_ : time) (s : MemoryStore)
  : result error Session * MemoryStore :=
  match sessions s !! sessionID with
  | None => (Err ErrNotFound, s)
  | Some x =>
      if String.eqb (s_Status x) StatusReviewed then (Ok x, s)
      else if String.eqb (s_Status x) StatusEnded then
        let x := with_status StatusReviewed (s_DurationSec x) reviewJSON at_ x in
        (Ok x, set_sessions (<[sessionID := x]> (sessions s)) s)
      else (Err ErrConflict, s)
  end.

Definition MarkSessionReviewedWithCost (sessionID reviewJSON : string) (at_ : time)
    (costLog : Log) (s : MemoryStore) : result error Session * MemoryStore :=
  match sessions s !! sessionID with
  | None => (Err ErrNotFound, s)
  | Some x =>
      if String.eqb (s_Status x) StatusReviewed then (Ok x, s)
      else if String.eqb (s_Status x) StatusEnded then
        let x := with_status StatusReviewed (s_DurationSec x) reviewJSON at_ x in
        let s := set_sessions (<[sessionID := x]> (sessions s)) s in
        match costLogs s !! ID costLog with
        | Some _ => (Ok x, s)
        | None => (Ok x, set_costLogs (<[ID costLog := costLog]> (costLogs s)) s)
        end
      else (Err ErrConflict, s)
  end.

(** ** Ownership and privacy *)

Definition ReassignUser (now : time) (fromUserID toUserID : string) (s : MemoryStore)
  : MemoryStore :=
  let s := set_sessions
             ((fun x => if String.eqb (s_UserID x) fromUserID
                        then with_owner toUserID now x else x) <$> sessions s) s in
  set_tickets
    ((fun t => if String.eqb (t_UserID t) fromUserID
               then with_ticket_owner toUserID t else t) <$> tickets s) s.

Definition deletable (userID : string) (x : Session) : bool :=
  String.eqb (s_UserID x) userID && negb (bool_decide (is_Some (s_DeletedAt x))).
Definition restorable (userID : string) (x : Session) : bool :=
  String.eqb (s_UserID x) userID && bool_decide (is_Some (s_DeletedAt x)).

Definition SoftDeleteForUser (userID : string) (at_ : time) (s : MemoryStore)
  : Z * MemoryStore :=
  (Z.of_nat (length (List.filter (deletable userID) (all_sessions s))),
   set_sessions ((fun x => if deletable userID x then with_deleted (Some at_) at_ x else x)
                   <$> sessions s) s).

Definition RestoreDeletedForUser (userID : string) (s : MemoryStore) : Z * MemoryStore :=
  (Z.of_nat (length (List.filter (restorable userID) (all_sessions s))),
   set_sessions ((fun x => if restorable userID x then with_deleted None (s_UpdatedAt x) x else x)
                   <$> sessions s) s).

(** The inner loop: the first row with that id gets the evaluation. *)
Fixpoint save_eval (utteranceID ev : string) (rows : list Utterance) : option (list Utterance) :=
  match rows with
  | [] => None
  | u :: rows =>
      if String.eqb (u_ID u) utteranceID then Some (with_eval ev u :: rows)
      else match save_eval utteranceID ev rows with
           | Some rows => Some (u :: rows)
           | None => None
           end
  end.

(** The outer loop over the sessions' rows in the order the map yields them. *)
Fixpoint save_eval_in (utteranceID ev : string) (entries : list (string * list Utterance))
  : option (string * list Utterance) :=
  match entries with
  | [] => None
  | (sessionID, rows) :: entries =>
      match save_eval utteranceID ev rows with
      | Some rows => Some (sessionID, rows)
      | None => save_eval_in utteranceID ev entries
      end
  end.

Definition SaveUtteranceEval (utteranceID ev : string) (s : MemoryStore)
  : result error unit * MemoryStore :=
  match save_eval_in utteranceID ev (map_to_list (utterances s)) with
  | None => (Err ErrNotFound, s)
  | Some (sessionID, rows) =>
      (Ok tt, set_utterances (<[sessionID := rows]> (utterances s)) s)
  end.
