(* ===== verification/ReviewPayload.v ===== *)
(** * The combined review document ([internal/session/review.go])

    [buildReviewPayload] decodes the review and refine documents into [any] and
    writes one JSON object with the generator and the session's length.  A
    JSON number passes through a [float64]: how [strconv] reads the literal and
    prints the float back is the parameter [number_text] ([None] when the
    literal is out of range). *)
From stdpp Require Import pretty.
From S2P Require Import Prelude Prog GoString GoUnicode GoTime GoJson GoJsonLaws GoJsonMap ApiErr AICost Session.

Open Scope Z_scope.

Definition stubReviewGenerator : string := "stub-v1".
Definition json_string (s : string) : json := JStr (quote s).
Definition json_int (n : Z) : json := JNum (to_bytes (pretty n)).

(** A value as [json.Unmarshal] decodes a document into an [any] and
    [json.Marshal] writes it: an object becomes a map, written with its keys in
    order. *)
Section payload.
Variable number_text : bytes -> option bytes.

Fixpoint reencode (v : json) : option json :=
  match v with
  | JNull | JBool _ => Some v
  | JNum lit => JNum <$> number_text lit
  | JStr lit => Some (JStr (quote (unquote lit)))
  | JArr vs => JArr <$> mapM reencode vs
  | JObj ms =>
      (fun ms => marshal_map (foldl (fun acc m => <[m.1 := m.2]> acc) ∅ ms)) <$>
        mapM (fun m => pair (unquote m.1) <$> reencode m.2) ms
  end.

Definition rawJSONOrDefault (raw : string) (fallback : json) : json :=
  match parse raw with
  | Ok v => default fallback (reencode v)
  | Err _ => fallback
  end.

Definition rawJSONOrEmptyObject (raw : string) : json := rawJSONOrDefault raw (JObj []).

Definition empty_refine : json := JObj [(quote "blocks", JArr [])].

Definition payload_map (review refine : string) (session : Session) (generator : string) : gmap string json :=
  let payload : gmap string json :=
    {[ "review" := rawJSONOrEmptyObject review;
       "refine" := rawJSONOrDefault refine empty_refine;
       "generator" := json_string (TrimSpace generator);
       "status" := json_string "ready" ]} in
  if 0 <? s_DurationSec session
  then <["duration_sec"%string := json_int (s_DurationSec session)]> payload
  else payload.

Definition buildReviewPayload (review refine : string) (session : Session) (generator : string) : string :=
  text (marshal_map (payload_map review refine session generator)).

(** The document of a session whose review could not be generated. *)
Definition stub_doc (utterances : nat) : json :=
  marshal_map
    {[ "goal_achievement" := marshal_map
         {[ "met" := JBool false;
            "note" := json_string "Practice session completed. Full model review is unavailable; transcript and session status are still available." ]};
       "issues" := JArr [];
       "suggestions" := JArr [marshal_map
         {[ "text" := json_string "Review generation is unavailable right now. You can still replay the transcript and retry later." ]}];
       "comparisons" := JArr [];
       "utterance_count" := json_int (Z.of_nat utterances) ]}.

(** ** Entries of the payload *)
Lemma payload_map_Some review refine x gen k w :
  payload_map review refine x gen !! k = Some w ->
  (k, w) ∈ [("review", rawJSONOrEmptyObject review); ("refine", rawJSONOrDefault refine empty_refine);
    ("generator", json_string (TrimSpace gen)); ("status", json_string "ready")]%string \/
  k = "duration_sec"%string /\ w = json_int (s_DurationSec x) /\ 0 < s_DurationSec x.
Proof.
  assert (forall k w, ({[ "review" := rawJSONOrEmptyObject review;
       "refine" := rawJSONOrDefault refine empty_refine;
       "generator" := json_string (TrimSpace gen);
       "status" := json_string "ready" ]} : gmap string json) !! k = Some w ->
    (k, w) ∈ [("review", rawJSONOrEmptyObject review); ("refine", rawJSONOrDefault refine empty_refine);
      ("generator", json_string (TrimSpace gen)); ("status", json_string "ready")]%string) as Hin.
  { intros k' w' H. repeat (apply lookup_insert_Some in H as [[<- <-]|[_ H]]; [by set_solver|]).
    apply lookup_singleton_Some in H as [<- <-]. set_solver. }
  unfold payload_map. destruct (Z.ltb_spec 0 (s_DurationSec x)); [|auto].
  intros [[<- <-]|[_ H1]]%lookup_insert_Some; auto.
Qed.

Lemma payload_utf8 review refine x gen : utf8_keys (payload_map review refine x gen).
Proof.
  intros k w [H|(-> & _)]%payload_map_Some; [|by vm_compute].
  repeat (apply elem_of_cons in H as [[= -> ->]|H]; [by vm_compute|]). by apply elem_of_nil in H.
Qed.

(** ** The payload is a document its readers can take apart *)
Hypothesis number_text_ok : forall lit t, number_text lit = Some t -> num_ok t.

Lemma reencode_ok v : forall depth w, json_ok depth v -> reencode v = Some w -> json_ok depth w.
Proof.
  induction v as [|b|x|x|vs IH|ms IH] using json_ind_all; intros depth w Hv Hw; cbn [reencode] in Hw.
  - by injection Hw as <-.
  - by injection Hw as <-.
  - apply fmap_Some in Hw as (t & Ht & ->). by apply (number_text_ok x).
  - injection Hw as <-. apply quote_lit_ok.
  - destruct depth as [|depth]; [done|]. apply fmap_Some in Hw as (ws & Hws%mapM_Some & ->).
    cbn [json_ok] in *. rewrite foldr_and in *. revert IH Hv. induction Hws as [|v w vs ws Hvw _ IHw]; [constructor|].
    intros [IH1 IH2]%Forall_cons [Hv1 Hv2]%Forall_cons. constructor; [by eapply IH1|by apply IHw].
  - destruct depth as [|depth]; [done|]. apply fmap_Some in Hw as (ws & Hws%mapM_Some & ->).
    cbn [json_ok] in Hv. rewrite foldr_and in Hv. apply marshal_map_ok.
    enough (forall acc : gmap string json, (forall k w, acc !! k = Some w -> json_ok depth w) ->
      forall k w, foldl (fun acc m => <[m.1 := m.2]> acc) acc ws !! k = Some w -> json_ok depth w) as H.
    { apply H. intros k w. by rewrite lookup_empty. }
    revert IH Hv. induction Hws as [|[l v] w ms ws Hvw _ IHw]; intros IH Hv acc Hacc; cbn [foldl]; [done|].
    apply Forall_cons in IH as [IH1 IH2], Hv as [[_ Hv1] Hv2]. apply IHw; [done..|].
    cbn in Hvw. apply fmap_Some in Hvw as (w' & Hw' & ->). intros k x [[_ <-]|[_ Hk]]%lookup_insert_Some;
      [by eapply IH1|by eapply Hacc].
Qed.

Lemma json_string_ok depth s : json_ok depth (json_string s).
Proof. apply quote_lit_ok. Qed.

Lemma json_int_ok depth n : 0 < n -> json_ok depth (json_int n).
Proof. apply pretty_num_ok. Qed.

(** A model's document that nests at most 9,999 deep. *)
Definition shallow (raw : string) : Prop := forall v, parse raw = Ok v -> json_ok (pred max_depth) v.

Lemma shallow_of raw :
  match parse raw with Ok v => (json_depth v <? max_depth)%nat | Err _ => true end = true -> shallow raw.
Proof.
  intros H v Hv. pose proof (parse_ok _ _ Hv) as Hok. rewrite Hv in H. apply Nat.ltb_lt in H.
  eapply json_ok_depth; [done|]. lia.
Qed.

Lemma rawJSON_ok raw fallback : shallow raw -> json_ok (pred max_depth) fallback ->
  json_ok (pred max_depth) (rawJSONOrDefault raw fallback).
Proof.
  intros Hs Hf. unfold rawJSONOrDefault. destruct (parse raw) as [v|] eqn:E; [|done].
  destruct (reencode v) as [w|] eqn:Ew; [|done]. eapply reencode_ok; [|done]. by apply Hs.
Qed.

Lemma payload_json_ok review refine x gen : shallow review -> shallow refine ->
  json_ok max_depth (marshal_map (payload_map review refine x gen)).
Proof.
  intros Hr Hf. change max_depth with (S (pred max_depth)). apply marshal_map_ok.
  intros k w [H|(_ & -> & H)]%payload_map_Some; [|by apply json_int_ok].
  repeat (apply elem_of_cons in H as [[= -> ->]|H]; [first
    [by apply json_string_ok|by apply rawJSON_ok; [done|vm_compute; repeat split; by apply quote_lit_ok]]|]).
  by apply elem_of_nil in H.
Qed.

(** The stored review is always a document: whatever bytes the model
    answered for the review and the refine parts — unparseable, of the wrong
    shape, or with numbers out of range — the payload parses to exactly the map
    of a review, a refine part, a generator, the status "ready" and, for a
    session with a length, its duration; a part the reader cannot decode is the
    empty review or the empty list of blocks. *)
Theorem review_payload_reads_back review refine x gen :
  shallow review -> shallow refine ->
  exists v, parse (buildReviewPayload review refine x gen) = Ok v /\
    dec_map v = Ok (payload_map review refine x gen).
Proof.
  intros Hr Hf. exists (marshal_map (payload_map review refine x gen)). split.
  - by apply parse_text, payload_json_ok.
  - by apply dec_marshal_map, payload_utf8.
Qed.
End payload.

(** A reading of numbers that keeps the literal. *)
Definition same_number (lit : bytes) : option bytes :=
  match number_lit (lit ++ [byte_of 32]) with Ok (t, _) => Some t | Err _ => None end.

Lemma same_number_ok lit t : same_number lit = Some t -> num_ok t.
Proof.
  unfold same_number. destruct (number_lit _) as [[u r]|] eqn:E; [|done]. intros [= <-].
  by apply number_lit_local in E as [_ ?].
Qed.

Lemma same_number_num t : num_ok t -> same_number t = Some t.
Proof. intros H. unfold same_number. rewrite H; [done|]. by right; right; right. Qed.

Definition ended_session : Session :=
  mkSession "s1" "u1" None "free_talk" "" StatusEnded 95 "" 0 0 None.

Lemma review_payload_reads_back_witness :
  exists v, parse (buildReviewPayload same_number "[1, 2.50" "{}" ended_session " moat ") = Ok v /\
    dec_map v = Ok (payload_map same_number "[1, 2.50" "{}" ended_session " moat ").
Proof.
  apply (review_payload_reads_back same_number same_number_ok).
  - by apply shallow_of; vm_compute.
  - by apply shallow_of; vm_compute.
Defined.
