(* ===== verification/EvalRules.v ===== *)
(** * The B15 checks of review and refine documents ([internal/eval/validate.go])

    The structural rules every generated document has to pass: counts, closed
    tag sets, and quotes that are substrings of the transcript.  The readable
    detail of a finding is left out; its rule and sample are kept.  A value
    decoded into an [any] is a re-encoded one ([ReviewPayload.reencode]). *)
From S2P Require Import Prelude Prog GoString GoUnicode GoTime GoJson GoJsonLaws GoJsonMap ApiErr AICost Session ReviewPayload.

Open Scope Z_scope.

Definition SceneTags : list string := ["standup"; "review"; "1on1"; "interview"; "casual"]%string.
Definition FunctionTags : list string :=
  ["object"; "clarify"; "report"; "propose"; "agree"; "disagree"; "ask"; "summarize"; "defer"; "commit"]%string.
Definition IssueTypes : list string := ["grammar"; "idiomatic"; "missing_info"]%string.

Record Sample := mkSample {
  sm_ID : string;
  sm_Transcript : string;
  sm_Review : json;
  sm_Refine : json;
}.

Record Finding := mkFinding { fd_SampleID : string; fd_Rule : string }.

(** The result of a dataset. *)
Record Result := mkResult {
  rs_Samples : Z;
  rs_Passed : Z;
  rs_Failed : Z;
  rs_Findings : list Finding;
}.

Record reviewIssue := mkIssue { is_Type : string; is_OriginalQuote : string }.

Record reviewDoc := mkReviewDoc {
  rv_GoalAchievement : option json;
  rv_Issues : slice reviewIssue;
  rv_Suggestions : slice json;
  rv_Comparisons : slice json;
}.

Record refineBlock := mkBlock {
  bl_IntentZH : string;
  bl_ExpressionEN : string;
  bl_AnchorUserSaid : string;
  bl_SceneTag : string;
  bl_FunctionTag : string;
}.

Definition refineDoc : Type := slice refineBlock.

(** ** Decoding *)
Definition set_issue (name : string) (x : reviewIssue) (v : json) : result json_error reviewIssue :=
  let '(mkIssue t q) := x in
  if String.eqb name "type" then on_string t v (fun t => mkIssue t q)
  else on_string q v (fun q => mkIssue t q).

Definition set_block (name : string) (x : refineBlock) (v : json) : result json_error refineBlock :=
  let '(mkBlock i e a s f) := x in
  if String.eqb name "intent_zh" then on_string i v (fun i => mkBlock i e a s f)
  else if String.eqb name "expression_en" then on_string e v (fun e => mkBlock i e a s f)
  else if String.eqb name "anchor_user_said" then on_string a v (fun a => mkBlock i e a s f)
  else if String.eqb name "scene_tag" then on_string s v (fun s => mkBlock i e a s f)
  else on_string f v (fun f => mkBlock i e a s f).

Section checks.
Variable number_text : bytes -> option bytes.

Definition dec_any (old v : json) : result json_error json :=
  match reencode number_text v with Some w => Ok w | None => Err TypeMismatch end.

Definition set_review (name : string) (d : reviewDoc) (v : json) : result json_error reviewDoc :=
  let '(mkReviewDoc g i s c) := d in
  if String.eqb name "goal_achievement" then Ok (mkReviewDoc (Some v) i s c)
  else if String.eqb name "issues" then
    match dec_slice (mkIssue "" "") (dec_object ["type"; "original_quote"]%string set_issue) i v with
    | Ok i => Ok (mkReviewDoc g i s c)
    | Err e => Err e
    end
  else if String.eqb name "suggestions" then
    match dec_slice JNull dec_any s v with
    | Ok s => Ok (mkReviewDoc g i s c)
    | Err e => Err e
    end
  else
    match dec_slice JNull dec_any c v with
    | Ok c => Ok (mkReviewDoc g i s c)
    | Err e => Err e
    end.

Definition decode_review (v : json) : result json_error reviewDoc :=
  dec_object ["goal_achievement"; "issues"; "suggestions"; "comparisons"]%string set_review
    (mkReviewDoc None nil_slice nil_slice nil_slice) v.

Definition decode_refine (v : json) : result json_error refineDoc :=
  dec_object ["blocks"%string]
    (fun _ old v => dec_slice (mkBlock "" "" "" "" "")
       (dec_object ["intent_zh"; "expression_en"; "anchor_user_said"; "scene_tag"; "function_tag"]%string set_block)
       old v)
    nil_slice v.

(** ** The rules *)
Definition flag (id rule : string) (bad : bool) : list Finding :=
  if bad then [mkFinding id rule] else [].

Definition issue_findings (id transcript : string) (issue : reviewIssue) : list Finding :=
  flag id "review.issue.type" (negb (bool_decide (is_Type issue ∈ IssueTypes))) ++
  let quote := TrimSpace (is_OriginalQuote issue) in
  if String.eqb quote "" then [mkFinding id "review.issue.quote"]
  else flag id "review.issue.quote_in_transcript" (negb (Contains transcript quote)).

Definition validateReview (id transcript : string) (doc : reviewDoc) : list Finding :=
  flag id "review.issues.max" (5 <? length (elems (rv_Issues doc)))%nat ++
  flag id "review.suggestions.max" (3 <? length (elems (rv_Suggestions doc)))%nat ++
  (let n := length (elems (rv_Comparisons doc)) in
   flag id "review.comparisons.range" ((n <? 3)%nat || (8 <? n)%nat)) ++
  concat (map (issue_findings id transcript) (elems (rv_Issues doc))).

Definition block_findings (id transcript : string) (b : refineBlock) : list Finding :=
  flag id "refine.triple"
    (String.eqb (TrimSpace (bl_IntentZH b)) "" || String.eqb (TrimSpace (bl_ExpressionEN b)) "" ||
     String.eqb (TrimSpace (bl_AnchorUserSaid b)) "") ++
  flag id "refine.anchor_in_transcript" (negb (Contains transcript (TrimSpace (bl_AnchorUserSaid b)))) ++
  flag id "refine.scene_tag" (negb (bool_decide (bl_SceneTag b ∈ SceneTags))) ++
  flag id "refine.function_tag" (negb (bool_decide (bl_FunctionTag b ∈ FunctionTags))).

Definition validateRefine (id transcript : string) (doc : refineDoc) : list Finding :=
  match elems doc with
  | [] => [mkFinding id "refine.blocks"]
  | bs => concat (map (block_findings id transcript) bs)
  end.

Definition ValidateSample (s : Sample) : list Finding :=
  if String.eqb (TrimSpace (sm_ID s)) "" then [mkFinding "" "sample.id"] else
  flag (sm_ID s) "sample.transcript" (String.eqb (TrimSpace (sm_Transcript s)) "") ++
  match decode_review (sm_Review s) with
  | Err _ => [mkFinding (sm_ID s) "review.schema"]
  | Ok d => validateReview (sm_ID s) (sm_Transcript s) d
  end ++
  match decode_refine (sm_Refine s) with
  | Err _ => [mkFinding (sm_ID s) "refine.schema"]
  | Ok d => validateRefine (sm_ID s) (sm_Transcript s) d
  end.

(** One sample added to the aggregate. *)
Definition tally (res : Result) (s : Sample) : Result :=
  match ValidateSample s with
  | [] => mkResult (rs_Samples res) (rs_Passed res + 1) (rs_Failed res) (rs_Findings res)
  | fs => mkResult (rs_Samples res) (rs_Passed res) (rs_Failed res + 1) (rs_Findings res ++ fs)
  end.

Definition RunDataset (samples : list Sample) : Result :=
  foldl tally (mkResult (Z.of_nat (length samples)) 0 0 []) samples.
End checks.

(** * What the B15 checks guarantee

    A sample has no findings exactly when its documents decode and satisfy the
    rules, stated here without the checker; a dataset's counts add up. *)


(** [sub] occurs in [s]. *)
Definition occurs (sub s : string) : Prop := exists p q, s = p +:+ sub +:+ q.

Lemma prefix_spec p s : String.prefix p s = true <-> exists q, s = p +:+ q.
Proof.
  revert p. induction s as [|b s IH]; intros [|a p]; cbn [String.prefix].
  - split; [intros _; by exists ""%string|done].
  - split; [done|by intros [? ?]].
  - split; [intros _; by exists (String b s)|done].
  - destruct (ascii_dec a b) as [<-|Hne].
    + rewrite IH. split; intros [q Hq]; exists q; [by rewrite Hq|by injection Hq].
    + split; [done|]. intros [q [= -> _]]. done.
Qed.

Lemma Contains_spec s sub : Contains s sub = true <-> occurs sub s.
Proof.
  unfold occurs. induction s as [|a s IH]; cbn [Contains]; rewrite orb_true_iff, prefix_spec.
  - split; [intros [[q H]|H]; [by exists ""%string, q|done]|intros ([|a p] & q & H); [by left; exists q|done]].
  - rewrite IH. split.
    + intros [[q H]|(p & q & H)]; [by exists ""%string, q|exists (String a p), q; by rewrite H].
    + intros ([|b p] & q & H); [by left; exists q|]. right. injection H as <- H. by exists p, q.
Qed.

(** ** The rules, for people *)
Record issue_rules (transcript : string) (x : reviewIssue) : Prop := {
  issue_type : is_Type x ∈ IssueTypes;
  issue_quoted : TrimSpace (is_OriginalQuote x) <> ""%string;
  issue_said : occurs (TrimSpace (is_OriginalQuote x)) transcript;
}.

Record review_rules (transcript : string) (d : reviewDoc) : Prop := {
  few_issues : (length (elems (rv_Issues d)) <= 5)%nat;
  few_suggestions : (length (elems (rv_Suggestions d)) <= 3)%nat;
  some_comparisons : (3 <= length (elems (rv_Comparisons d)) <= 8)%nat;
  issues_ok : Forall (issue_rules transcript) (elems (rv_Issues d));
}.

Record block_rules (transcript : string) (b : refineBlock) : Prop := {
  block_intent : TrimSpace (bl_IntentZH b) <> ""%string;
  block_expression : TrimSpace (bl_ExpressionEN b) <> ""%string;
  block_anchor : TrimSpace (bl_AnchorUserSaid b) <> ""%string;
  block_said : occurs (TrimSpace (bl_AnchorUserSaid b)) transcript;
  block_scene : bl_SceneTag b ∈ SceneTags;
  block_function : bl_FunctionTag b ∈ FunctionTags;
}.

Definition refine_rules (transcript : string) (d : refineDoc) : Prop :=
  elems d <> [] /\ Forall (block_rules transcript) (elems d).

Record sample_rules (number_text : bytes -> option bytes) (s : Sample) : Prop := {
  sample_named : TrimSpace (sm_ID s) <> ""%string;
  sample_spoken : TrimSpace (sm_Transcript s) <> ""%string;
  sample_review : exists d, decode_review number_text (sm_Review s) = Ok d /\ review_rules (sm_Transcript s) d;
  sample_refine : exists d, decode_refine (sm_Refine s) = Ok d /\ refine_rules (sm_Transcript s) d;
}.

Lemma flag_nil id rule bad : flag id rule bad = [] <-> bad = false.
Proof. by destruct bad. Qed.

Lemma app_nil_iff {A} (l m : list A) : l ++ m = [] <-> l = [] /\ m = [].
Proof. destruct l; cbn; naive_solver. Qed.

Lemma concat_map_nil {A B} (f : A -> list B) l : concat (map f l) = [] <-> Forall (fun x => f x = []) l.
Proof. induction l as [|x l IH]; cbn; [done|]. by rewrite app_nil_iff, Forall_cons, IH. Qed.

Lemma issue_findings_nil id t x : issue_findings id t x = [] <-> issue_rules t x.
Proof.
  unfold issue_findings. rewrite app_nil_iff, flag_nil, negb_false_iff, bool_decide_eq_true.
  destruct (String.eqb_spec (TrimSpace (is_OriginalQuote x)) "") as [E|E].
  - split; [by intros [_ ?]|by intros [_ ? _]].
  - rewrite flag_nil, negb_false_iff, Contains_spec. split; [by intros []|by intros []].
Qed.

Lemma validateReview_nil id t d : validateReview id t d = [] <-> review_rules t d.
Proof.
  unfold validateReview. rewrite !app_nil_iff, !flag_nil, concat_map_nil, orb_false_iff, !Nat.ltb_ge.
  rewrite (Forall_iff _ _ _ (issue_findings_nil id t)).
  split; [intros (? & ? & ? & ?); by split|intros []; tauto].
Qed.

Lemma block_findings_nil id t b : block_findings id t b = [] <-> block_rules t b.
Proof.
  unfold block_findings. rewrite !app_nil_iff, !flag_nil, !orb_false_iff, !negb_false_iff, !bool_decide_eq_true,
    Contains_spec, !String.eqb_neq. split; [intros ([[? ?] ?] & ? & ? & ?); by split|intros []; tauto].
Qed.

Lemma validateRefine_nil id t d : validateRefine id t d = [] <-> refine_rules t d.
Proof.
  unfold validateRefine, refine_rules. destruct (elems d) as [|b bs] eqn:E; [split; [done|by intros [? _]]|].
  rewrite concat_map_nil, (Forall_iff _ _ _ (block_findings_nil id t)). by split; [|intros [_ ?]].
Qed.

Lemma ValidateSample_nil number_text s : ValidateSample number_text s = [] <-> sample_rules number_text s.
Proof.
  unfold ValidateSample. destruct (String.eqb_spec (TrimSpace (sm_ID s)) "") as [E|E].
  { split; [done|by intros []]. }
  rewrite !app_nil_iff, flag_nil, String.eqb_neq. split.
  - intros (H1 & H2 & H3). split; [done|done|..].
    + destruct (decode_review _ _) as [d|]; [|done]. exists d. by apply validateReview_nil in H2.
    + destruct (decode_refine _) as [d|]; [|done]. exists d. by apply validateRefine_nil in H3.
  - intros [_ H1 (d & H2 & H3) (d' & H4 & H5)]. rewrite H2, H4.
    by rewrite validateReview_nil, validateRefine_nil.
Qed.

(** Every sample is counted once, as passed exactly when the rules hold
    for it, and the findings of a dataset are those of its failed samples. *)
Theorem dataset_counts_samples number_text samples :
  let res := RunDataset number_text samples in
  let bad := List.filter (fun s => negb (bool_decide (ValidateSample number_text s = []))) samples in
  rs_Samples res = Z.of_nat (length samples) /\
  rs_Failed res = Z.of_nat (length bad) /\
  rs_Passed res + rs_Failed res = rs_Samples res /\
  rs_Findings res = concat (map (ValidateSample number_text) samples).
Proof.
  assert (forall samples n p f fs,
    let res := foldl (tally number_text) (mkResult n p f fs) samples in
    let bad := List.filter (fun s => negb (bool_decide (ValidateSample number_text s = []))) samples in
    rs_Samples res = n /\ rs_Failed res = f + Z.of_nat (length bad) /\
    rs_Passed res + rs_Failed res = p + f + Z.of_nat (length samples) /\
    rs_Findings res = fs ++ concat (map (ValidateSample number_text) samples)) as H.
  2: { cbn zeta. destruct (H samples (Z.of_nat (length samples)) 0 0 []) as (H1 & H2 & H3 & H4).
       unfold RunDataset. rewrite H1, H3, H4, H2. split_and!; [done|lia..|done]. }
  clear samples. induction samples as [|s samples IH]; intros n p f fs; cbn [foldl List.filter map concat length].
  { rewrite app_nil_r. cbn. split_and!; [done|lia|lia|done]. }
  unfold tally at 2 4 6 8 10. destruct (ValidateSample number_text s) as [|x l] eqn:E.
  - destruct (IH n (p + 1) f fs) as (H1 & H2 & H3 & H4). cbn. split_and!; [done|done|lia|done].
  - destruct (IH n p (f + 1) (fs ++ x :: l)) as (H1 & H2 & H3 & H4). cbn. split_and!; [done|lia|lia|].
    etransitivity; [exact H4|]. by rewrite <- app_assoc.
Qed.
