(* ===== verification/ReviewView.v ===== *)
(** * The review as the client sees it ([internal/session/service.go])

    [canonicalizeReviewPayload] decodes the stored document into a map, brings a
    document of the old layout into the new one, adds the views of the screens
    and writes it back.  A [map[string]any] is a [gmap] of re-encoded values
    ([ReviewPayload.reencode]); a nil map is [None].  [number_int] is Go's
    conversion of a decoded number to an [int]. *)
From stdpp Require Import pretty.
From S2P Require Import Prelude Prog GoString GoUnicode GoTime GoJson GoJsonLaws GoJsonMap ApiErr AICost Session ReviewPayload BlockOrder.

Open Scope Z_scope.

Definition legacyReviewGenerator : string := "legacy-review-v0".
Definition ReviewPollReady : string := "ready".

Abbreviation gomap := (option (gmap string json)).

(** [m[k]], absent in a nil map. *)
Definition field (m : gomap) (k : string) : option json := m ≫= (.!! k).

(** [x.(map[string]any)], [x.([]any)] and [x.(string)]; the zero value when the
    assertion does not hold. *)
Definition as_object (x : option json) : gomap :=
  match x with
  | Some (JObj _ as v) => match dec_map v with Ok m => Some m | Err _ => None end
  | _ => None
  end.
Definition as_array (x : option json) : option (list json) :=
  match x with Some (JArr vs) => Some vs | _ => None end.
Definition as_text (x : option json) : string :=
  match x with Some (JStr lit) => unquote lit | _ => "" end.

(** How [json.Marshal] writes a map, a slice and a field of a map. *)
Definition map_json (m : gomap) : json := match m with Some m => marshal_map m | None => JNull end.
Definition array_json (x : option (list json)) : json := match x with Some vs => JArr vs | None => JNull end.
Definition field_json (m : gomap) (k : string) : json := default JNull (field m k).
Definition len {A} (x : option (list A)) : Z := Z.of_nat (length (default [] x)).

(** ** The views *)
Definition buildTranscriptView (utterances : list Utterance) : list (gmap string json) :=
  map (fun u => {[ "seq" := json_int (u_Seq u); "speaker" := json_string (u_Speaker u);
                   "text" := json_string (u_Text u) ]}) utterances.

Definition buildOverviewView (review : gomap) : gmap string json :=
  let goal := as_object (field review "goal_achievement") in
  let issues := as_array (field review "issues") in
  let suggestions := as_array (field review "suggestions") in
  let comparisons := as_array (field review "comparisons") in
  {[ "goal_achievement" := map_json goal;
     "issue_count" := json_int (len issues);
     "suggestion_count" := json_int (len suggestions);
     "comparison_count" := json_int (len comparisons) ]}.

Definition buildEvaluationView (review : gomap) : list (gmap string json) :=
  let goal := as_object (field review "goal_achievement") in
  let issues := as_array (field review "issues") in
  let suggestions := as_array (field review "suggestions") in
  [{[ "layer" := json_string "goal"; "title" := json_string "Goal Achievement";
      "content" := map_json goal ]};
   {[ "layer" := json_string "issues"; "title" := json_string "Issues";
      "content" := array_json issues ]};
   {[ "layer" := json_string "suggestions"; "title" := json_string "Suggestions";
      "content" := array_json suggestions ]}].

(** The rows of a list that are objects. *)
Definition objects (x : option (list json)) : list (gmap string json) :=
  omap (fun v => as_object (Some v)) (default [] x).

Definition buildDualColumnView (review : gomap) : list (gmap string json) :=
  map (fun row => {[ "user" := field_json (Some row) "user";
                     "better" := field_json (Some row) "better" ]})
    (objects (as_array (field review "comparisons"))).

Definition refine_card (block : gmap string json) : gmap string json :=
  {[ "intent_zh" := field_json (Some block) "intent_zh";
     "expression_en" := field_json (Some block) "expression_en";
     "anchor_user_said" := field_json (Some block) "anchor_user_said";
     "scene_tag" := field_json (Some block) "scene_tag";
     "function_tag" := field_json (Some block) "function_tag" ]}.

Definition buildRefineCardsView (refine : gomap) : list (gmap string json) :=
  map refine_card (objects (as_array (field refine "blocks"))).

Definition maps_json (ms : list (gmap string json)) : json := JArr (map marshal_map ms).

Definition enrichReviewPayload (payload : gmap string json) (utterances : list Utterance) : gmap string json :=
  let payload := <["transcript"%string := maps_json (buildTranscriptView utterances)]> payload in
  let reviewSection := as_object (payload !! "review"%string) in
  let refineSection := as_object (payload !! "refine"%string) in
  let payload := <["overview"%string := marshal_map (buildOverviewView reviewSection)]> payload in
  let payload := <["evaluation"%string := maps_json (buildEvaluationView reviewSection)]> payload in
  let payload := <["dual_column"%string := maps_json (buildDualColumnView reviewSection)]> payload in
  <["refine_cards"%string := maps_json (buildRefineCardsView refineSection)]> payload.

(** ** The stored document, decoded *)
Section view.
Variable number_text : bytes -> option bytes.
Variable number_int : bytes -> Z.

(** [json.Unmarshal(stored, &doc)] into a nil [map[string]any]. *)
Definition decode_doc (stored : string) : option gomap :=
  match parse stored with
  | Ok JNull => Some None
  | Ok (JObj _ as v) =>
      match reencode number_text v with
      | Some w => match dec_map w with Ok m => Some (Some m) | Err _ => None end
      | None => None
      end
  | _ => None
  end.

Definition empty_blocks : json := marshal_map {[ "blocks" := JArr [] ]}.

(** A document that has a review section. *)
Definition complete_doc (doc : gmap string json) (session : Session) : gmap string json :=
  let doc := match doc !! "refine"%string with
             | Some _ => doc | None => <["refine"%string := empty_blocks]> doc end in
  let doc := match doc !! "status"%string with
             | Some _ => doc | None => <["status"%string := json_string ReviewPollReady]> doc end in
  match doc !! "duration_sec"%string with
  | Some _ => doc
  | None => if 0 <? s_DurationSec session
            then <["duration_sec"%string := json_int (s_DurationSec session)]> doc else doc
  end.

(** A document of the old layout: the review itself, with the bookkeeping fields
    among its own. *)
Definition legacy_doc (doc : gomap) (session : Session) : gmap string json :=
  let generator := as_text (field doc "generator") in
  let doc := delete "generator"%string <$> doc in
  let status := as_text (field doc "status") in
  let doc := delete "status"%string <$> doc in
  let durationSec := match field doc "duration_sec" with
                     | Some (JNum lit) => number_int lit | _ => s_DurationSec session end in
  let doc := delete "duration_sec"%string <$> doc in
  let payload : gmap string json :=
    {[ "review" := map_json doc; "refine" := empty_blocks; "status" := json_string ReviewPollReady ]} in
  let generator := TrimSpace generator in
  let generator := if String.eqb generator "" then legacyReviewGenerator else generator in
  let payload := <["generator"%string := json_string generator]> payload in
  let payload := if String.eqb (TrimSpace status) "" then payload
                 else <["status"%string := json_string (TrimSpace status)]> payload in
  if 0 <? durationSec then <["duration_sec"%string := json_int durationSec]> payload else payload.

Definition canonicalizeReviewPayload (stored : string) (session : Session) (utterances : list Utterance) : string :=
  if String.eqb stored "" then "" else
  match decode_doc stored with
  | None => stored
  | Some doc =>
      let payload :=
        match doc, field doc "review" with
        | Some d, Some _ => complete_doc d session
        | _, _ => legacy_doc doc session
        end in
      text (marshal_map (enrichReviewPayload payload utterances))
  end.
End view.

(** * What the client sees of a stored review

    Decoding and writing a document is a projection; the client sees the payload
    the worker stored with the views added; and the cards of the refine screen
    come stuck points first. *)


(** ** Maps written from the same entries *)
Lemma foldl_insert_lookup (f : string -> json) ks (acc : gmap string json) x :
  foldl (fun acc (m : string * json) => <[m.1 := m.2]> acc) acc (map (fun k => (k, f k)) ks) !! x =
  if bool_decide (x ∈ ks) then Some (f x) else acc !! x.
Proof.
  revert acc. induction ks as [|k ks IH]; intros acc; cbn [map foldl]; [done|]. rewrite IH. cbn [fst snd].
  case_bool_decide as E1; [by rewrite bool_decide_eq_true_2 by (by apply list_elem_of_further)|].
  destruct (decide (x = k)) as [->|Hne].
  - by rewrite lookup_insert_eq, bool_decide_eq_true_2 by (by apply list_elem_of_here).
  - rewrite lookup_insert_ne by done. rewrite bool_decide_eq_false_2; [done|]. by rewrite not_elem_of_cons.
Qed.

Lemma elem_sorted_keys (m : gmap string json) k :
  k ∈ SortStrings (map fst (map_to_list m)) <-> is_Some (m !! k).
Proof.
  rewrite SortStrings_Permutation, list_elem_of_fmap. split.
  - intros ([k' v] & -> & H%elem_of_map_to_list). by exists v.
  - intros [v Hv]. exists (k, v). split; [done|]. by apply elem_of_map_to_list.
Qed.

Section laws.
Variable number_text : bytes -> option bytes.
Hypothesis number_text_ok : forall lit t, number_text lit = Some t -> num_ok t.
(** A printed number is printed as itself, and so is a positive integer a
    [float64] holds exactly. *)
Hypothesis number_text_idem : forall lit t, number_text lit = Some t -> number_text t = Some t.
Hypothesis number_text_int : forall n, 0 < n < 2 ^ 53 ->
  number_text (to_bytes (pretty n)) = Some (to_bytes (pretty n)).
Notation reencode := (reencode number_text).

(** A value [reencode] leaves alone. *)
Definition canonical (v : json) : Prop := reencode v = Some v.

(** Re-encoding a written map re-encodes its entries. *)
Lemma reencode_entries (m m' : gmap string json) :
  utf8_keys m -> (forall k, m' !! k = m !! k ≫= reencode) -> (forall k v, m !! k = Some v -> is_Some (reencode v)) ->
  reencode (marshal_map m) = Some (marshal_map m').
Proof.
  intros Hk Hm Hs. unfold marshal_map at 1. cbn [ReviewPayload.reencode].
  set (ks := SortStrings (map fst (map_to_list m))).
  rewrite (proj2 (mapM_Some _ _ (map (fun k => (k, default JNull (m' !! k))) ks))).
  - cbn [fmap option_fmap option_map]. do 2 f_equal. apply map_eq. intros x. rewrite foldl_insert_lookup, Hm.
    case_bool_decide as E.
    + apply elem_sorted_keys in E as [v E]. rewrite E. by destruct (Hs _ _ E) as [w Hw]; cbn; rewrite Hw.
    + assert (m !! x = None) as -> by (apply eq_None_not_Some; by rewrite <- elem_sorted_keys). done.
  - apply Forall2_fmap, Forall_Forall2_diag, Forall_forall. intros k [v Hv]%elem_sorted_keys.
    cbn [fst snd]. rewrite Hm, Hv, unquote_quote, (Hk _ _ Hv). cbn [from_option id mbind option_bind].
    destruct (Hs _ _ Hv) as [w ->]. done.
Qed.

Lemma reencode_marshal m :
  utf8_keys m -> (forall k v, m !! k = Some v -> canonical v) -> canonical (marshal_map m).
Proof.
  intros Hk Hc. apply reencode_entries; [done| |].
  - intros k. destruct (m !! k) as [v|] eqn:E; [|done]. cbn. symmetry. by eapply Hc.
  - intros k v Hv. exists v. by eapply Hc.
Qed.

Lemma foldl_inserts_keep (P : string -> json -> Prop) (ws : list (string * json)) (acc : gmap string json) :
  Forall (fun w => P w.1 w.2) ws -> (forall k v, acc !! k = Some v -> P k v) ->
  forall k v, foldl (fun acc m => <[m.1 := m.2]> acc) acc ws !! k = Some v -> P k v.
Proof.
  intros H. revert acc. induction H as [|[l w] ws Hw _ IH]; intros acc Hacc; cbn [foldl]; [done|].
  apply IH. intros k v [[<- <-]|[_ Hk]]%lookup_insert_Some; [done|by eapply Hacc].
Qed.

(** Encoding what was decoded is a projection. *)
Lemma reencode_canonical v : forall depth w, json_ok depth v -> reencode v = Some w -> canonical w.
Proof.
  induction v as [|b|x|x|vs IH|ms IH] using json_ind_all; intros depth w Hv Hw; cbn [ReviewPayload.reencode] in Hw.
  - by injection Hw as <-.
  - by injection Hw as <-.
  - apply fmap_Some in Hw as (t & Ht & ->). unfold canonical. cbn. by rewrite (number_text_idem _ _ Ht).
  - injection Hw as <-. unfold canonical. cbn [ReviewPayload.reencode]. rewrite unquote_quote.
    by rewrite (unquote_utf8 _ Hv).
  - destruct depth as [|depth]; [done|]. apply fmap_Some in Hw as (ws & Hws%mapM_Some & ->).
    cbn [json_ok] in Hv. rewrite foldr_and in Hv. unfold canonical. cbn [ReviewPayload.reencode].
    rewrite (proj2 (mapM_Some _ _ ws)); [done|]. apply Forall_Forall2_diag.
    revert IH Hv. induction Hws as [|v w vs ws Hvw _ IHw]; [constructor|].
    intros [IH1 IH2]%Forall_cons [Hv1 Hv2]%Forall_cons. constructor; [by eapply IH1|by apply IHw].
  - destruct depth as [|depth]; [done|]. apply fmap_Some in Hw as (ws & Hws%mapM_Some & ->).
    cbn [json_ok] in Hv. rewrite foldr_and in Hv.
    assert (Forall (fun m => valid_utf8 m.1 /\ canonical m.2) ws) as H.
    { revert IH Hv. induction Hws as [|[l v] w ms ws Hvw _ IHw]; intros IH Hv; [constructor|].
      apply Forall_cons in IH as [IH1 IH2], Hv as [[Hl Hv1] Hv2]. cbn in Hvw.
      apply fmap_Some in Hvw as (w' & Hw' & ->). constructor; [|by apply IHw].
      split; [by apply unquote_utf8|by eapply IH1]. }
    pose proof (foldl_inserts_keep (fun k v => valid_utf8 k /\ canonical v) ws ∅ H) as Hm.
    apply reencode_marshal; intros k v Hk; apply Hm in Hk as [??]; try done; by rewrite lookup_empty.
Qed.

(** ** The payload is read back as it was stored *)
Notation payload_map := (payload_map number_text).
Notation buildReviewPayload := (buildReviewPayload number_text).

Lemma rawJSON_canonical raw fallback :
  canonical fallback -> canonical (rawJSONOrDefault number_text raw fallback).
Proof.
  intros Hf. unfold rawJSONOrDefault. destruct (parse raw) as [v|] eqn:E; [|done].
  destruct (reencode v) as [w|] eqn:Ew; [|done]. eapply reencode_canonical; [|done]. by eapply parse_ok.
Qed.

Lemma json_string_canonical s : valid_utf8 s -> canonical (json_string s).
Proof. intros Hs. unfold canonical, json_string. cbn [ReviewPayload.reencode]. rewrite unquote_quote. by rewrite Hs. Qed.

Definition exact_length (x : Session) : Prop := s_DurationSec x < 2 ^ 53.

Lemma payload_canonical review refine x gen k v :
  valid_utf8 (TrimSpace gen) -> exact_length x ->
  payload_map review refine x gen !! k = Some v -> canonical v.
Proof.
  intros Hg Hx [H|(_ & -> & H)]%payload_map_Some.
  - repeat (apply elem_of_cons in H as [[= -> ->]|H]; [first
      [apply rawJSON_canonical; by vm_compute|by apply json_string_canonical]|]).
    by apply elem_of_nil in H.
  - unfold canonical, json_int. cbn [ReviewPayload.reencode]. by rewrite number_text_int.
Qed.

Lemma payload_keys review refine x gen :
  is_Some (payload_map review refine x gen !! "review"%string) /\
  is_Some (payload_map review refine x gen !! "refine"%string) /\
  is_Some (payload_map review refine x gen !! "status"%string) /\
  (payload_map review refine x gen !! "duration_sec"%string = None -> s_DurationSec x <= 0).
Proof.
  unfold ReviewPayload.payload_map. destruct (Z.ltb_spec 0 (s_DurationSec x)); split_and!; done.
Qed.

Lemma payload_decoded review refine x gen :
  shallow review -> shallow refine -> valid_utf8 (TrimSpace gen) -> exact_length x ->
  decode_doc number_text (buildReviewPayload review refine x gen) = Some (Some (payload_map review refine x gen)).
Proof.
  intros Hr Hf Hg Hx. unfold decode_doc.
  assert (utf8_keys (payload_map review refine x gen)) as Hk by apply payload_utf8.
  pose proof (payload_json_ok number_text number_text_ok review refine x gen Hr Hf) as Hj.
  unfold ReviewPayload.buildReviewPayload. rewrite parse_text by done. unfold marshal_map at 1.
  change (JObj _) with (marshal_map (payload_map review refine x gen)).
  rewrite reencode_marshal by (done || intros k v; by apply payload_canonical).
  by rewrite dec_marshal_map.
Qed.

Lemma complete_payload review refine x gen y :
  s_DurationSec y = s_DurationSec x ->
  complete_doc (payload_map review refine x gen) y = payload_map review refine x gen.
Proof.
  intros Hy. destruct (payload_keys review refine x gen) as (_ & [r Hr] & [s Hs] & Hd).
  unfold complete_doc. rewrite Hr, Hs. destruct (payload_map _ _ _ _ !! "duration_sec"%string); [done|].
  rewrite Hy. specialize (Hd eq_refl). by destruct (Z.ltb_spec 0 (s_DurationSec x)); [lia|].
Qed.

Lemma client_sees_payload number_int review refine x gen y us :
  shallow review -> shallow refine -> valid_utf8 (TrimSpace gen) -> exact_length x ->
  s_DurationSec y = s_DurationSec x ->
  canonicalizeReviewPayload number_text number_int (buildReviewPayload review refine x gen) y us =
  text (marshal_map (enrichReviewPayload (payload_map review refine x gen) us)).
Proof.
  intros Hr Hf Hg Hx Hy. unfold canonicalizeReviewPayload.
  rewrite payload_decoded by done. destruct (payload_keys review refine x gen) as ([v Hv] & _).
  unfold field. cbn [mbind option_bind]. rewrite Hv, complete_payload by done. by unfold ReviewPayload.buildReviewPayload.
Qed.

Lemma payload_refine review refine x gen :
  payload_map review refine x gen !! "refine"%string = Some (rawJSONOrDefault number_text refine empty_refine).
Proof. unfold ReviewPayload.payload_map. by destruct (0 <? s_DurationSec x). Qed.

(** ** The cards of the refine screen *)
Lemma reencode_escape v : forall depth, json_ok depth v -> reencode (escape_html v) = reencode v.
Proof.
  induction v as [|b|x|x|vs IH|ms IH] using json_ind_all; intros depth Hv; cbn [escape_html ReviewPayload.reencode]; try done.
  - by rewrite unquote_html.
  - destruct depth as [|depth]; [done|]. cbn [json_ok] in Hv. rewrite foldr_and in Hv. f_equal.
    induction IH as [|v vs IH1 _ IHv]; [done|]. apply Forall_cons in Hv as [Hv1 Hv2].
    cbn [map mapM]. by rewrite (IH1 _ Hv1), IHv.
  - destruct depth as [|depth]; [done|]. cbn [json_ok] in Hv. rewrite foldr_and in Hv. f_equal.
    induction IH as [|[k v] ms IH1 _ IHm]; [done|]. apply Forall_cons in Hv as [[Hk Hv1] Hv2].
    cbn [map mapM fst snd] in *. by rewrite (IH1 _ Hv1), IHm, unquote_html.
Qed.

(** The entries of a decoded document are those of the raw one, re-encoded. *)
Lemma reencode_document depth v w document : json_ok (S depth) v -> dec_map v = Ok document -> reencode v = Some w ->
  (forall k x, document !! k = Some x -> is_Some (reencode x)) /\
  forall k, field (as_object (Some w)) k = document !! k ≫= reencode.
Proof.
  intros Hv Hd Hw. destruct v as [| | | | |ms]; cbn in Hd; try done; injection Hd as <-.
  { injection Hw as <-. by split; intros k; [intros x|]; rewrite lookup_empty. }
  cbn [ReviewPayload.reencode] in Hw. apply fmap_Some in Hw as (ws & Hws%mapM_Some & ->).
  cbn [json_ok] in Hv. rewrite foldr_and in Hv.
  set (d' := foldl _ ∅ ws).
  assert (utf8_keys d') as Hu.
  { refine (foldl_inserts_keep (fun k _ => valid_utf8 k) ws ∅ _ _); [|intros k x Hk; by rewrite lookup_empty in Hk].
    clear -Hws Hv. induction Hws as [|[l v] w ms ws Hvw _ IH]; [constructor|].
    apply Forall_cons in Hv as [[Hl _] Hv]. cbn in Hvw. apply fmap_Some in Hvw as (w' & _ & ->).
    constructor; [by apply unquote_utf8|by apply IH]. }
  unfold as_object. unfold marshal_map at 1. change (JObj _) with (marshal_map d'). rewrite dec_marshal_map by done.
  unfold field. cbn [mbind option_bind]. subst d'.
  enough (forall acc acc' : gmap string json,
    (forall k x, acc !! k = Some x -> is_Some (reencode x)) -> (forall k, acc' !! k = acc !! k ≫= reencode) ->
    let d := foldl (fun acc m => <[unquote m.1 := m.2]> acc) acc ms in
    (forall k x, d !! k = Some x -> is_Some (reencode x)) /\
    forall k, foldl (fun acc m => <[m.1 := m.2]> acc) acc' ws !! k = d !! k ≫= reencode) as H.
  { apply H; intros k; [intros x|]; by rewrite lookup_empty. }
  clear -Hws. induction Hws as [|[l v] w ms ws Hvw _ IH]; intros acc acc' Ha Ha'; cbn [foldl]; [done|].
  cbn [fst snd] in *. apply fmap_Some in Hvw as (w' & Hw' & ->). apply IH; cbn [fst snd].
  - intros k x [[_ <-]|[_ Hk]]%lookup_insert_Some; [by exists w'|by eapply Ha].
  - intros k. destruct (decide (unquote l = k)) as [->|Hne]; [by rewrite !lookup_insert_eq|].
    by rewrite !lookup_insert_ne.
Qed.

Lemma cards_of_refine refine document bs v w :
  blocks_of refine = Some (document, bs) -> parse refine = Ok v -> reencode v = Some w ->
  exists l, mapM reencode bs = Some l /\
    objects (as_array (field (as_object (Some w)) "blocks")) = objects (Some l).
Proof.
  intros (v' & raw & Hv' & Hd & Hr & Hb)%blocks_of_Some Hv Hw. rewrite Hv in Hv'. injection Hv' as <-.
  destruct (reencode_document (pred max_depth) _ _ _ (parse_ok _ _ Hv) Hd Hw) as [Hs Hf].
  destruct (Hs _ _ Hr) as [x Hx]. rewrite Hf, Hr. cbn [mbind option_bind]. rewrite Hx.
  destruct raw as [| | | |vs|]; cbn in Hb; try done; injection Hb as <-.
  - injection Hx as <-. by exists [].
  - cbn [ReviewPayload.reencode] in Hx. apply fmap_Some in Hx as (l & Hl & ->). by exists l.
Qed.

Lemma mapM_reencode_escape depth bs :
  json_ok (S depth) (JArr bs) -> mapM reencode (map escape_html bs) = mapM reencode bs.
Proof.
  cbn [json_ok]. rewrite foldr_and. induction 1 as [|b bs Hb _ IH]; [done|].
  cbn [map mapM]. by rewrite (reencode_escape _ _ Hb), IH.
Qed.

Lemma written_reencoded depth v w document bs wanted :
  json_ok (S (S depth)) v -> dec_map v = Ok document -> reencode v = Some w ->
  document !! "blocks"%string = Some (JArr bs) ->
  is_Some (reencode (marshal_map (written document (partitioned wanted bs)))).
Proof.
  intros Hv Hd Hw Hb. destruct (reencode_document _ _ _ _ Hv Hd Hw) as [Hs _].
  destruct (dec_map_sound _ _ _ Hv Hd) as [_ Hok].
  destruct (written_document _ _ _ _ wanted Hv Hd Hb) as [Hk _].
  eexists. apply (reencode_entries _ (omap reencode (written document (partitioned wanted bs)))); [done| |].
  - intros k. by rewrite lookup_omap.
  - intros k x Hx. unfold written in Hx. rewrite lookup_fmap, fmap_Some in Hx.
    destruct Hx as (y & [[_ <-]|[_ Hy]]%lookup_insert_Some & ->).
    + pose proof (partitioned_ok _ wanted _ (Hok _ _ Hb)) as Hp.
      rewrite escape_html_idem, (reencode_escape _ _ Hp). cbn [ReviewPayload.reencode]. apply fmap_is_Some.
      pose proof (Hs _ _ Hb) as Hm. cbn [ReviewPayload.reencode] in Hm. apply fmap_is_Some in Hm.
      apply mapM_is_Some in Hm. apply mapM_is_Some. rewrite Forall_forall in *.
      intros b [H|H]%elem_of_app; apply Hm; by apply list_elem_of_In, filter_In in H as [?%list_elem_of_In _].
    + rewrite (reencode_escape _ _ (Hok _ _ Hy)). by eapply Hs.
Qed.

(** The blocks the client can render: an entry that is not a JSON object has no card. *)
Definition is_object (b : json) : bool := match b with JObj _ => true | _ => false end.

Lemma objects_of_blocks bs l : mapM reencode bs = Some l ->
  length (objects (Some l)) = length (List.filter is_object bs).
Proof.
  unfold objects, default, id. intros H%mapM_Some. induction H as [|b w bs l Hw _ IH]; [done|].
  assert (if is_object b then is_Some (as_object (Some w)) else as_object (Some w) = None) as Hb.
  { destruct b; cbn in Hw |- *; rewrite ?fmap_Some in Hw; [..|destruct Hw as (? & _ & ->); by eexists];
      try (destruct Hw as (? & _ & ->)); by simplify_eq. }
  cbn [List.filter]. unfold omap in *. cbn [list_omap] in *.
  destruct (is_object b); [destruct Hb as [m Hb]|]; rewrite Hb; cbn; [f_equal|]; exact IH.
Qed.

Lemma partitioned_objects wanted bs :
  length (List.filter is_object (partitioned wanted bs)) = length (List.filter is_object bs).
Proof.
  unfold partitioned. induction bs as [|b bs IH]; [done|]. rewrite List.filter_app, length_app in IH |- *. cbn.
  destruct (stuck_block wanted b); cbn; destruct (is_object b); cbn; lia.
Qed.

(** C2: The learner's cards lead with the phrases they were stuck on.  Whatever
    refine document the model wrote, as long as it decodes, the refine screen
    shows one card for every block that is a JSON object (an entry of any other
    kind is skipped), the blocks whose anchor is one of the session's
    stuck points first and the others after them, each group in the model's
    order: through the reordering, the stored payload and the rendering for the
    client. *)
Theorem cards_lead_with_stuck_points number_int review refine anchors x gen y us document bs v w :
  shallow review -> shallow refine -> valid_utf8 (TrimSpace gen) -> exact_length x ->
  s_DurationSec y = s_DurationSec x ->
  blocks_of refine = Some (document, bs) -> parse refine = Ok v -> reencode v = Some w ->
  exists view l,
    canonicalizeReviewPayload number_text number_int
      (buildReviewPayload review (StuckFirstBlocks refine anchors) x gen) y us = text (marshal_map view) /\
    mapM reencode (partitioned (wanted_keys anchors) bs) = Some l /\
    view !! "refine_cards"%string = Some (maps_json (map refine_card (objects (Some l)))) /\
    length (objects (Some l)) = length (List.filter is_object bs).
Proof.
  intros Hr Hf Hg Hx Hy Hbs Hv Hw.
  assert (exists v' w' l, shallow (StuckFirstBlocks refine anchors) /\
    parse (StuckFirstBlocks refine anchors) = Ok v' /\ reencode v' = Some w' /\
    mapM reencode (partitioned (wanted_keys anchors) bs) = Some l /\
    objects (as_array (field (as_object (Some w')) "blocks")) = objects (Some l)) as (v' & w' & l & Hsh & Hv' & Hw' & Hl & Ho).
  { destruct (StuckFirstBlocks_cases refine anchors _ _ Hbs) as [[-> ->]|[-> Hb]].
    - destruct (cards_of_refine _ _ _ _ _ Hbs Hv Hw) as (l & Hl & Ho). by exists v, w, l.
    - pose proof Hbs as (v0 & raw & Hv0 & Hd & _)%blocks_of_Some. rewrite Hv in Hv0. injection Hv0 as <-.
      pose proof (Hf v Hv) as Hok. change (pred max_depth) with (S (S (pred (pred (pred max_depth))))) in Hok.
      destruct (written_document _ _ _ _ (wanted_keys anchors) Hok Hd Hb) as [Hk Hj].
      destruct (written_reencoded _ _ _ _ _ (wanted_keys anchors) Hok Hd Hw Hb) as [w' Hw'].
      destruct (written_document (pred max_depth) _ _ _ (wanted_keys anchors) (parse_ok _ _ Hv) Hd Hb) as [_ Hj'].
      destruct (cards_of_refine _ _ _ _ _ (blocks_of_written _ _ Hk Hj') (parse_text _ Hj') Hw') as (l & Hl & Ho).
      destruct (dec_map_sound _ _ _ Hok Hd) as [_ Hw2].
      rewrite (mapM_reencode_escape _ _ (partitioned_ok _ _ _ (Hw2 _ _ Hb))) in Hl.
      exists (marshal_map (written document (partitioned (wanted_keys anchors) bs))), w', l.
      split; [|split; [by apply parse_text|done]]. intros u Hu. rewrite (parse_text _ Hj') in Hu.
      injection Hu as <-. exact Hj. }
  exists (enrichReviewPayload (payload_map review (StuckFirstBlocks refine anchors) x gen) us), l.
  split; [|split; [done|split]].
  - apply client_sees_payload; done.
  - unfold enrichReviewPayload. rewrite lookup_insert_eq. do 2 f_equal. unfold buildRefineCardsView.
    rewrite <- Ho. do 4 f_equal. rewrite lookup_insert_ne by done. rewrite payload_refine.
    unfold rawJSONOrDefault. rewrite Hv'. cbn. by rewrite Hw'.
  - by rewrite (objects_of_blocks _ _ Hl), partitioned_objects.
Qed.
End laws.

Definition demo_refine : string := of_bytes (map (fun a => if Ascii.eqb a "'" then dquote else a) (to_bytes
  "{'blocks':[{'intent_zh':'1','anchor_user_said':'a'},{'intent_zh':'2','anchor_user_said':' B '}],'n':[1]}")).

Definition said (us : list (string * string)) : list Utterance :=
  imap (fun i u => mkUtterance "" "s1" (Z.of_nat i) u.1 u.2 None None "" 0 false) us.

Lemma cards_lead_with_stuck_points_witness :
  exists document bs v w view l,
    blocks_of demo_refine = Some (document, bs) /\ parse demo_refine = Ok v /\ reencode same_number v = Some w /\
    canonicalizeReviewPayload same_number (fun _ => 0)
      (buildReviewPayload same_number "{}" (StuckFirstBlocks demo_refine ["b"%string]) ended_session "moat")
      ended_session (said [("user", "a")]%string) = text (marshal_map view) /\
    mapM (reencode same_number) (partitioned (wanted_keys ["b"%string]) bs) = Some l /\
    view !! "refine_cards"%string = Some (maps_json (map refine_card (objects (Some l)))) /\
    length (objects (Some l)) = 2%nat.
Proof.
  destruct (blocks_of demo_refine) as [[document bs]|] eqn:Eb; [|by vm_compute in Eb].
  destruct (parse demo_refine) as [v|] eqn:Ev; [|by vm_compute in Ev].
  destruct (reencode same_number v) as [w|] eqn:Ew.
  2: { assert (match parse demo_refine with Ok u => reencode same_number u | _ => None end <> None) as H
         by (by vm_compute). by rewrite Ev in H. }
  exists document, bs, v, w.
  destruct (cards_lead_with_stuck_points same_number same_number_ok
    (fun lit t H => same_number_num t (same_number_ok lit t H))
    (fun n H => same_number_num _ (pretty_num_ok n (proj1 H)))
    (fun _ => 0) "{}" demo_refine ["b"%string] ended_session "moat" ended_session (said [("user", "a")]%string)
    document bs v w) as (view & l & H1 & H2 & H3 & H4).
  - by apply shallow_of; vm_compute.
  - by apply shallow_of; vm_compute.
  - by vm_compute.
  - by vm_compute.
  - done.
  - done.
  - done.
  - done.
  - exists view, l. split; [done|]. split; [done|]. split; [exact Ew|]. split; [exact H1|].
    split; [exact H2|]. split; [exact H3|]. rewrite H4. clear -Eb.
    assert (match blocks_of demo_refine with Some (_, bs) => length (List.filter is_object bs) | None => 0%nat end = 2%nat)
      as H by (by vm_compute).
    by rewrite Eb in H.
Defined.
