(* ===== verification/SessionLaws.v ===== *)
(** * What the session store guarantees

    [storeE] lists every call of the [Store] interface; [handle] runs one on the
    memory store.  A history is a list of calls with arbitrary arguments — the
    store's lock makes any concurrent use one — and the theorems hold for every
    history. *)
From S2P Require Import Prelude GoString GoTime GoSort ApiErr AICost Session.

Open Scope Z_scope.

Inductive storeE : Type -> Type :=
| ECreateSession (x : Session) : storeE (result error unit)
| EGetSession (id : string) : storeE (result error Session)
| EListSessions (u : string) (t : option time) (id : string) (n : Z) : storeE (list Session)
| EListActiveUserIDs (since : time) : storeE (list string)
| ECreateTicket (t : Ticket) : storeE (result error unit)
| ECreateSessionWithTicket (x : Session) (t : Ticket) : storeE (result error unit)
| EGetTicketByHash (h : string) : storeE (result error Ticket)
| EConsumeTicket (h : string) (at_ : time) : storeE (result error Ticket)
| EMarkSessionActive (id : string) (at_ : time) : storeE (result error Session)
| EEndSession (id st : string) (dur : Z) (us : list Utterance) (evs : list RescueEvent)
    (at_ : time) (c : option Log) : storeE (result error (Session * list Utterance * bool))
| EListUtterances (id : string) : storeE (result error (list Utterance))
| EListRescueEvents (id : string) : storeE (result error (list RescueEvent))
| ECountRescuesByPath (u : string) (since : time) : storeE (gmap string Z)
| EEnqueueJob (j : Job) : storeE (result error unit)
| EHasSessionJob (id ty : string) (sts : list string) : storeE bool
| EClaimNextJob (w : string) (at_ : time) : storeE (result error Job)
| ECompleteJob (id : string) (at_ : time) : storeE (result error unit)
| EFailJob (id : string) (at_ : time) (msg : string) (d : duration) : storeE (result error unit)
| EMarkSessionReviewed (id rev : string) (at_ : time) : storeE (result error Session)
| EMarkSessionReviewedWithCost (id rev : string) (at_ : time) (c : Log)
    : storeE (result error Session)
| EReassignUser (now : time) (f t : string) : storeE unit
| ESoftDelete (u : string) (at_ : time) : storeE Z
| ERestoreDeleted (u : string) : storeE Z
| ESaveUtteranceEval (id ev : string) : storeE (result error unit).

Definition handle {R} (c : storeE R) (s : MemoryStore) : R * MemoryStore :=
  match c in storeE R return R * MemoryStore with
  | ECreateSession x => CreateSession x s
  | EGetSession id => (GetSession id s, s)
  | EListSessions u t id n => (ListSessions u t id n s, s)
  | EListActiveUserIDs since => (ListActiveUserIDs since s, s)
  | ECreateTicket t => CreateTicket t s
  | ECreateSessionWithTicket x t => CreateSessionWithTicket x t s
  | EGetTicketByHash h => (GetTicketByHash h s, s)
  | EConsumeTicket h at_ => ConsumeTicket h at_ s
  | EMarkSessionActive id at_ => MarkSessionActive id at_ s
  | EEndSession id st dur us evs at_ c => EndSession id st dur us evs at_ c s
  | EListUtterances id => (ListUtterances id s, s)
  | EListRescueEvents id => (ListRescueEvents id s, s)
  | ECountRescuesByPath u since => (CountRescuesByPath u since s, s)
  | EEnqueueJob j => EnqueueJob j s
  | EHasSessionJob id ty sts => (HasSessionJob id ty sts s, s)
  | EClaimNextJob w at_ => ClaimNextJob w at_ s
  | ECompleteJob id at_ => CompleteJob id at_ s
  | EFailJob id at_ msg d => FailJob id at_ msg d s
  | EMarkSessionReviewed id rev at_ => MarkSessionReviewed id rev at_ s
  | EMarkSessionReviewedWithCost id rev at_ c => MarkSessionReviewedWithCost id rev at_ c s
  | EReassignUser now f t => (tt, ReassignUser now f t s)
  | ESoftDelete u at_ => SoftDeleteForUser u at_ s
  | ERestoreDeleted u => RestoreDeletedForUser u s
  | ESaveUtteranceEval id ev => SaveUtteranceEval id ev s
  end.

(** A call of some result type. *)
Definition event : Type := { R : Type & storeE R }.
Definition ev {R} (c : storeE R) : event := existT R c.
Definition after (e : event) (s : MemoryStore) : MemoryStore := (handle (projT2 e) s).2.
Definition run (tr : list event) (s : MemoryStore) : MemoryStore :=
  foldl (fun s e => after e s) s tr.

(** Case analysis of one call: unfold it and split its branches. *)
Ltac store_cases c :=
  destruct c; cbn [after projT2 handle snd fst];
  unfold CreateSession, CreateTicket, CreateSessionWithTicket, ConsumeTicket,
    MarkSessionActive, EndSession, EnqueueJob, ClaimNextJob, CompleteJob, FailJob,
    MarkSessionReviewed, MarkSessionReviewedWithCost, ReassignUser, SoftDeleteForUser,
    RestoreDeletedForUser, SaveUtteranceEval in *;
  repeat (case_match; simplify_eq/=); cbn in *.

Lemma run_inv (P : MemoryStore -> Prop) tr s :
  (forall R (c : storeE R) s, P s -> P (handle c s).2) -> P s -> P (run tr s).
Proof. intros Hstep. apply foldl_keeps. intros t [R c] _. apply Hstep. Qed.

(** ** Tickets *)

Definition used (h : string) (s : MemoryStore) : Prop :=
  exists t, tickets s !! h = Some t /\ is_Some (t_UsedAt t).

Lemma used_stays h R (c : storeE R) s : used h s -> used h (handle c s).2.
Proof.
  intros (t & Ht & Hu). unfold used.
  store_cases c; eauto;
    try (destruct (decide (h = t_Hash t0)) as [->|?];
         [congruence|rewrite lookup_insert_ne by done; eauto]).
  - destruct (decide (h0 = h)) as [->|?]; [|rewrite lookup_insert_ne by done; eauto].
    rewrite lookup_insert_eq. eauto.
  - rewrite lookup_fmap, Ht. cbn. eexists. split; [done|]. by case_match.
Qed.

(** Whether a call is a successful redemption of the ticket [h], and when. *)
Definition redeems (h : string) (e : event) (s : MemoryStore) : bool :=
  match projT2 e in storeE R return R -> bool with
  | EConsumeTicket h' _ => fun r => String.eqb h' h && is_ok r
  | _ => fun _ => false
  end (handle (projT2 e) s).1.

Fixpoint redemptions (h : string) (tr : list event) (s : MemoryStore) : nat :=
  match tr with
  | [] => 0
  | e :: tr => (if redeems h e s then 1 else 0) + redemptions h tr (after e s)
  end.

Lemma redeems_used h e s : redeems h e s = true -> ~ used h s /\ used h (after e s).
Proof.
  destruct e as [R c]. unfold redeems, after. destruct c; cbn; try done.
  intros [->%String.eqb_eq H]%andb_true_iff. unfold used, ConsumeTicket in *.
  destruct (tickets s !! h) as [t|] eqn:Ht; [|done].
  destruct (t_UsedAt t) eqn:Hu; [done|]. destruct (negb _); [done|]. split.
  - intros (t' & Ht' & [? ?]). congruence.
  - cbn. rewrite lookup_insert_eq. eauto.
Qed.

Lemma used_no_redemption h tr s : used h s -> redemptions h tr s = 0%nat.
Proof.
  revert s. induction tr as [|e tr IH]; intros s Hu; [done|]. cbn.
  destruct (redeems h e s) eqn:E; [by apply redeems_used in E as [? _]|].
  apply IH. destruct e as [R c]. by apply used_stays.
Qed.

(** C16: A connection ticket admits at most one connection: in every history of
    store calls, whatever is created, reassigned, ended or deleted around it,
    [ConsumeTicket] succeeds at most once for a given hash. *)
Theorem ticket_redeemed_at_most_once h tr s : (redemptions h tr s <= 1)%nat.
Proof.
  revert s. induction tr as [|e tr IH]; intros s; cbn; [lia|].
  destruct (redeems h e s) eqn:E; [|apply IH].
  apply redeems_used in E as [_ Hu]. rewrite used_no_redemption; [lia|done].
Qed.

(** ** Closed sessions *)

Definition closed (st : string) : bool :=
  isTerminalStatus st || String.eqb st StatusReviewed.

(** Everything of a transcript row but its evaluation. *)
Definition row_text (u : Utterance) := with_eval "" u.
Definition transcript (id : string) (s : MemoryStore) : list Utterance :=
  map row_text (rows_of id (utterances s)).

(** What remains of a closed session [x] in a later store. *)
Definition kept (id : string) (x : Session) (tx : list Utterance) (evs : list RescueEvent)
    (s : MemoryStore) : Prop :=
  transcript id s = tx /\ rows_of id (rescueEvents s) = evs /\
  exists x', sessions s !! id = Some x' /\ closed (s_Status x') = true /\
    s_DurationSec x' = s_DurationSec x /\ s_CreatedAt x' = s_CreatedAt x /\
    (s_Status x' = s_Status x /\ s_ReviewJSON x' = s_ReviewJSON x \/
     s_Status x = StatusEnded /\ s_Status x' = StatusReviewed).

Lemma save_eval_text id e rows rows' :
  save_eval id e rows = Some rows' -> map row_text rows' = map row_text rows.
Proof.
  revert rows'. induction rows as [|u rows IH]; intros rows' H; cbn in H; [done|].
  repeat case_match; simplify_eq/=; [done|]. f_equal. by apply IH.
Qed.

Lemma save_eval_in_text uid e entries id rows' :
  save_eval_in uid e entries = Some (id, rows') ->
  exists rows, (id, rows) ∈ entries /\ map row_text rows' = map row_text rows.
Proof.
  induction entries as [|[sid rows] entries IH]; cbn; [done|].
  destruct (save_eval uid e rows) eqn:E; intros H.
  - simplify_eq. exists rows. split; [left|]. by eapply save_eval_text.
  - destruct (IH H) as (r & ? & ?). exists r. split; [by right|done].
Qed.

Lemma transcript_save_eval uid e s id :
  transcript id (SaveUtteranceEval uid e s).2 = transcript id s.
Proof.
  unfold SaveUtteranceEval, transcript.
  destruct (save_eval_in _ _ _) as [[sid rows]|] eqn:E; [|done]. cbn.
  apply save_eval_in_text in E as (r & Hin & Hm). apply elem_of_map_to_list in Hin.
  unfold rows_of. destruct (decide (sid = id)) as [->|?].
  - by rewrite lookup_insert_eq, Hin.
  - by rewrite lookup_insert_ne.
Qed.

Lemma closed_cases st :
  closed st = true -> st = StatusEnded \/ st = StatusAbandoned \/ st = StatusReviewed.
Proof.
  unfold closed, isTerminalStatus. intros H.
  destruct (String.eqb_spec st StatusEnded); [auto|].
  destruct (String.eqb_spec st StatusAbandoned); [auto|].
  destruct (String.eqb_spec st StatusReviewed); [auto|done].
Qed.

(** A session change that keeps what a closed session must keep. *)
Definition harmless (f : Session -> Session) : Prop :=
  forall x, s_Status (f x) = s_Status x /\ s_DurationSec (f x) = s_DurationSec x /\
    s_CreatedAt (f x) = s_CreatedAt x /\ s_ReviewJSON (f x) = s_ReviewJSON x.

Lemma kept_fmap id x tx evs f s :
  harmless f -> kept id x tx evs s -> kept id x tx evs (set_sessions (f <$> sessions s) s).
Proof.
  intros Hf (Ht & Hr & x' & Hx & Hc & Hd & Ha & Hs). split; [done|]. split; [done|].
  destruct (Hf x') as (E1 & E2 & E3 & E4). exists (f x'). cbn.
  rewrite lookup_fmap, Hx, E1, E2, E3, E4. done.
Qed.

(** Replacing another session's row, or this one by a reviewed copy. *)
Lemma kept_insert id x tx evs id' y s :
  kept id x tx evs s ->
  (id' = id -> exists x', sessions s !! id = Some x' /\ s_Status x' = StatusEnded /\
     s_Status y = StatusReviewed /\ s_DurationSec y = s_DurationSec x' /\
     s_CreatedAt y = s_CreatedAt x') ->
  kept id x tx evs (set_sessions (<[id' := y]> (sessions s)) s).
Proof.
  intros (Ht & Hr & x' & Hx & Hc & Hd & Ha & Hs) Hy. split; [done|]. split; [done|]. cbn.
  destruct (decide (id' = id)) as [->|Hne].
  - destruct (Hy eq_refl) as (x'' & Hx'' & He & Hrv & Hd' & Ha'). simplify_eq.
    exists y. rewrite lookup_insert_eq. split; [done|]. rewrite Hrv, Hd', Ha'.
    split; [done|]. split; [done|]. split; [done|]. right.
    destruct Hs as [[Hs _]|[_ Hs]]; [by rewrite <- Hs|by rewrite Hs in He].
  - exists x'. by rewrite lookup_insert_ne.
Qed.

Lemma kept_other_rows id x tx evs id' us es m s :
  id' <> id -> kept id x tx evs s ->
  kept id x tx evs (mkStore (<[id' := m]> (sessions s)) (tickets s)
    (<[id' := us]> (utterances s)) (jobs s) (costLogs s) (<[id' := es]> (rescueEvents s))).
Proof.
  intros Hne (Ht & Hr & x' & Hx & H). unfold kept, transcript, rows_of in *. cbn.
  rewrite !lookup_insert_ne by done. eauto.
Qed.

Lemma kept_end id x tx evs id' st dur us es at_ c s :
  kept id x tx evs s -> kept id x tx evs (EndSession id' st dur us es at_ c s).2.
Proof.
  intros Hk. unfold EndSession.
  destruct (sessions s !! id') as [y|] eqn:Hy; [|done].
  destruct (isTerminalStatus (s_Status y)) eqn:Hterm; [done|].
  destruct (negb _ && _) eqn:Hopen; [done|].
  assert (id' <> id) as Hne.
  { intros ->. destruct Hk as (_ & _ & x' & Hx & Hc & _). simplify_eq.
    apply closed_cases in Hc as [H|[H|H]]; by rewrite H in *. }
  apply (kept_other_rows _ _ _ _ id' us (map (with_session_id id') es)
           (with_status st (if dur <? 0 then 0 else dur) (s_ReviewJSON y) at_ y)) in Hk; [|done].
  by destruct c.
Qed.

Lemma kept_step id x tx evs R (c : storeE R) s :
  kept id x tx evs s -> kept id x tx evs (handle c s).2.
Proof.
  intros Hk. pose proof Hk as (Ht & Hr & x' & Hx & Hc & _).
  destruct c; cbn [handle snd]; try done.
  - unfold CreateSession. case_match; [done|]. apply kept_insert; [done|congruence].
  - unfold CreateTicket. by case_match.
  - unfold CreateSessionWithTicket. case_match; [done|]. case_match; [done|].
    apply (kept_insert _ _ _ _ (s_ID x0) x0) in Hk; [exact Hk|congruence].
  - unfold ConsumeTicket. by repeat case_match.
  - unfold MarkSessionActive. case_match; [|done].
    destruct (String.eqb_spec (s_Status s0) StatusActive); [done|].
    destruct (String.eqb_spec (s_Status s0) StatusCreated) as [Hcr|]; [|done].
    apply kept_insert; [done|]. intros ->. simplify_eq.
    rewrite Hcr in Hc. by apply closed_cases in Hc as [?|[?|?]].
  - by apply kept_end.
  - unfold EnqueueJob. by case_match.
  - unfold ClaimNextJob. by repeat case_match.
  - unfold CompleteJob. by repeat case_match.
  - unfold FailJob. by repeat case_match.
  - unfold MarkSessionReviewed. case_match; [|done].
    destruct (String.eqb_spec (s_Status s0) StatusReviewed); [done|].
    destruct (String.eqb_spec (s_Status s0) StatusEnded); [|done].
    apply kept_insert; [done|]. intros ->. eauto 10.
  - unfold MarkSessionReviewedWithCost. case_match; [|done].
    destruct (String.eqb_spec (s_Status s0) StatusReviewed); [done|].
    destruct (String.eqb_spec (s_Status s0) StatusEnded); [|done].
    apply (kept_insert _ _ _ _ id0 (with_status StatusReviewed (s_DurationSec s0) rev at_ s0))
      in Hk; [|intros ->; eauto 10].
    by case_match.
  - unfold ReassignUser.
    apply (kept_fmap _ _ _ _ (fun x => if String.eqb (s_UserID x) f then with_owner t now x
                                       else x)) in Hk; [exact Hk|]. intros y. by case_match.
  - apply kept_fmap; [|done]. intros y. by case_match.
  - apply kept_fmap; [|done]. intros y. by case_match.
  - destruct Hk as (_ & _ & Hk). unfold kept. rewrite transcript_save_eval.
    unfold SaveUtteranceEval. case_match; [|done]. by case_match.
Qed.

(** Once a session is closed — ended, abandoned or reviewed — no history of
    store calls changes its duration, its transcript or its rescue ladders, and
    its status stays what it was except that an ended session may become
    reviewed; in particular an abandoned session is never reviewed and a
    review, once written, is never rewritten. *)
Theorem closed_session_is_final tr id x s :
  sessions s !! id = Some x -> closed (s_Status x) = true ->
  transcript id (run tr s) = transcript id s /\
  rows_of id (rescueEvents (run tr s)) = rows_of id (rescueEvents s) /\
  exists x', sessions (run tr s) !! id = Some x' /\
    s_DurationSec x' = s_DurationSec x /\ s_CreatedAt x' = s_CreatedAt x /\
    (s_Status x' = s_Status x /\ s_ReviewJSON x' = s_ReviewJSON x \/
     s_Status x = StatusEnded /\ s_Status x' = StatusReviewed).
Proof.
  intros Hx Hc.
  assert (kept id x (transcript id s) (rows_of id (rescueEvents s)) s) as Hk
    by (split; [done|]; split; [done|]; exists x; auto 8).
  apply (run_inv _ tr) in Hk; [|intros R c s'; apply kept_step].
  destruct Hk as (? & ? & x' & ? & _ & ? & ? & ?). eauto 10.
Qed.

Definition demo_session (st : string) : Session :=
  mkSession "s1" "u1" None "demo" "standard" st 60 "" 0 0 None.
Definition demo_store : MemoryStore :=
  (CreateSession (demo_session StatusAbandoned) NewMemoryStore).2.

Lemma closed_session_is_final_witness :
  rows_of "s1" (rescueEvents (run
    [ev (EMarkSessionReviewed "s1" "{}" 5); ev (EEndSession "s1" StatusEnded 9 [] [] 6 None)]
    demo_store)) = [].
Proof.
  destruct (closed_session_is_final
    [ev (EMarkSessionReviewed "s1" "{}" 5); ev (EEndSession "s1" StatusEnded 9 [] [] 6 None)]
    "s1" (demo_session StatusAbandoned) demo_store) as (_ & H & _).
  - vm_compute. reflexivity.
  - vm_compute. reflexivity.
  - exact H.
Defined.

(** A session ends once: after a first successful end, whatever happens in
    between, another [EndSession] — with any transcript, status and cost row —
    changes nothing in the store, so a replayed end can neither rewrite the
    transcript nor charge the session again. *)
Theorem session_ends_once id st dur us evs at_ c s x us' s1 tr st2 dur2 us2 evs2 at2 c2 :
  isTerminalStatus st = true ->
  EndSession id st dur us evs at_ c s = (Ok (x, us', false), s1) ->
  after (ev (EEndSession id st2 dur2 us2 evs2 at2 c2)) (run tr s1) = run tr s1.
Proof.
  intros Hst Hend.
  assert (exists y, sessions s1 !! id = Some y /\ closed (s_Status y) = true) as (y & Hy & Hc).
  { unfold EndSession in Hend. destruct (sessions s !! id) as [z|]; [|done].
    destruct (isTerminalStatus (s_Status z)); [done|]. destruct (negb _ && _); [done|].
    simplify_eq. exists (with_status st (if dur <? 0 then 0 else dur) (s_ReviewJSON z) at_ z).
    split; [destruct c; cbn; by rewrite lookup_insert_eq|].
    unfold closed. cbn. by rewrite Hst. }
  assert (kept id y (transcript id s1) (rows_of id (rescueEvents s1)) s1) as Hk
    by (split; [done|]; split; [done|]; exists y; auto 8).
  apply (run_inv _ tr) in Hk; [|intros R c' s'; apply kept_step].
  destruct Hk as (_ & _ & z & Hz & Hcz & _). unfold after. cbn. unfold EndSession. rewrite Hz.
  destruct (closed_cases _ Hcz) as [->|[->| ->]]; done.
Qed.

Lemma session_ends_once_witness :
  let s1 := (EndSession "s1" StatusEnded 5 [] [] 3 None
               (CreateSession (demo_session StatusActive) NewMemoryStore).2).2 in
  after (ev (EEndSession "s1" StatusAbandoned 7 [] [] 9 None))
    (run [ev (EMarkSessionReviewed "s1" "{}" 5)] s1) = run [ev (EMarkSessionReviewed "s1" "{}" 5)] s1.
Proof.
  cbn zeta. apply (session_ends_once "s1" StatusEnded 5 [] [] 3 None
    (CreateSession (demo_session StatusActive) NewMemoryStore).2
    (with_status StatusEnded 5 "" 3 (demo_session StatusActive)) []).
  - reflexivity.
  - vm_compute. reflexivity.
Defined.
