(* ===== verification/SessionQueue.v ===== *)
(** * The review outbox

    Which job a worker gets, how long it is theirs, and how often a job can be
    tried ([ClaimNextJob], [CompleteJob], [FailJob]). *)
From S2P Require Import Prelude GoString GoTime GoSort ApiErr AICost Session SessionLaws.

Open Scope Z_scope.

(** Jobs are stored under their own identifier, which is never empty: the
    service draws it from [uuid.NewString]. *)
Definition jobs_keyed (m : gmap string Job) : Prop :=
  map_Forall (fun id j => j_ID j = id /\ id <> ""%string) m.

(** Claim order: the older job first, then the smaller identifier. *)
Definition claims_before (a b : Job) : bool :=
  Before (j_CreatedAt a) (j_CreatedAt b) ||
  ((j_CreatedAt a =? j_CreatedAt b) && str_lt (j_ID a) (j_ID b)).

Lemma claims_before_total a b : j_ID a <> j_ID b -> claims_before a b = true \/ claims_before b a = true.
Proof.
  intros Hne. unfold claims_before, Before.
  destruct (Z.lt_trichotomy (j_CreatedAt a) (j_CreatedAt b)) as [?|[E|?]]; [left|..|right]; [lia| |lia].
  rewrite E, Z.eqb_refl. destruct (str_lt_trichotomy (j_ID a) (j_ID b)) as [?|[->| ->]]; [done|left|right]; lia.
Qed.

Lemma claims_before_trans a b c :
  claims_before a b = true -> claims_before b c = true -> claims_before a c = true.
Proof.
  unfold claims_before, Before. intros H1 H2.
  destruct (Z.ltb_spec (j_CreatedAt a) (j_CreatedAt c)); [done|]. cbn.
  destruct (Z.ltb_spec (j_CreatedAt a) (j_CreatedAt b)); cbn in H1.
  { destruct (Z.ltb_spec (j_CreatedAt b) (j_CreatedAt c)); cbn in H2; [lia|].
    apply andb_true_iff in H2 as [H2 _]. lia. }
  destruct (Z.ltb_spec (j_CreatedAt b) (j_CreatedAt c)); cbn in H2.
  { apply andb_true_iff in H1 as [H1 _]. lia. }
  apply andb_true_iff in H1 as [? H1]. apply andb_true_iff in H2 as [? H2].
  rewrite (str_lt_trans _ _ _ H1 H2). lia.
Qed.

Lemma claims_before_irrefl a : claims_before a a = false.
Proof. unfold claims_before, Before. rewrite str_lt_irrefl. lia. Qed.

(** What the selection loop holds after some entries: nothing claimable yet, or
    the first in claim order of those seen. *)
Definition best_of (at_ : time) (seen : list (string * Job)) (acc : string * Job) : Prop :=
  (acc.1 = ""%string /\ Forall (fun e => claimable at_ e.2 = false) seen) \/
  (acc.1 <> ""%string /\ acc ∈ seen /\ claimable at_ acc.2 = true /\
   Forall (fun e => claimable at_ e.2 = true -> e = acc \/ claims_before acc.2 e.2 = true) seen).

Definition entries_keyed (l : list (string * Job)) : Prop :=
  NoDup l.*1 /\ Forall (fun e => j_ID e.2 = e.1 /\ e.1 <> ""%string) l.

Lemma claim_step_cond at_ acc e :
  claim_step at_ acc e =
  if negb (claimable at_ e.2) then acc
  else if String.eqb acc.1 "" || claims_before e.2 acc.2 then e else acc.
Proof.
  destruct acc, e. unfold claim_step, claims_before. cbn. by rewrite orb_assoc.
Qed.

Lemma claim_select_best at_ l : entries_keyed l -> best_of at_ l (claim_select at_ l).
Proof.
  unfold claim_select. induction l as [|e l IH] using rev_ind; intros [Hnd Hk].
  { left. split; [done|constructor]. }
  rewrite fmap_app in Hnd. apply NoDup_app in Hnd as (Hnd & Hdis & _).
  apply Forall_app in Hk as [Hk He]. inversion He as [|? ? [Hid Hne] _]; subst.
  specialize (IH (conj Hnd Hk)). rewrite foldl_app. cbn [foldl].
  set (acc := foldl _ _ l) in *. rewrite claim_step_cond.
  destruct (claimable at_ e.2) eqn:Hc; cbn [negb].
  2: { destruct IH as [[H1 H2]|(H1 & H2 & H3 & H4)]; [left|right].
       - split; [done|]. apply Forall_app; split; [done|]. by repeat constructor.
       - split; [done|]. split; [apply elem_of_app; auto|]. split; [done|].
         apply Forall_app; split; [done|]. constructor; [congruence|constructor]. }
  right. destruct IH as [[H1 H2]|(H1 & H2 & H3 & H4)].
  - rewrite H1. cbn. split; [done|]. split; [apply elem_of_app; right; left|].
    split; [done|]. apply Forall_app; split; [|repeat constructor; auto].
    eapply Forall_impl; [exact H2|]. intros k Hk1 Hk2. congruence.
  - destruct (String.eqb_spec acc.1 ""); [done|]. cbn [orb].
    destruct (claims_before e.2 acc.2) eqn:Hb.
    + split; [done|]. split; [apply elem_of_app; right; left|]. split; [done|].
      apply Forall_app; split; [|repeat constructor; auto].
      eapply Forall_impl; [exact H4|]. intros k Hk1 Hk2. right.
      destruct (Hk1 Hk2) as [->|?]; [done|]. by eapply claims_before_trans.
    + split; [done|]. split; [apply elem_of_app; auto|]. split; [done|].
      apply Forall_app; split; [done|]. constructor; [|constructor]. intros _. right.
      destruct (claims_before_total acc.2 e.2) as [?|?]; [|done|congruence].
      intros E. rewrite Forall_forall in Hk. destruct (Hk _ H2) as [Hkid _].
      apply (Hdis acc.1); [by apply list_elem_of_fmap_2|]. rewrite <- Hkid, E, Hid. left.
Qed.

Lemma best_of_unique at_ l l' a b :
  l ≡ₚ l' -> best_of at_ l a -> best_of at_ l' b ->
  a.1 = b.1 /\ (a.1 <> ""%string -> a = b).
Proof.
  intros Hp [[Ha1 Ha2]|(Ha1 & Ha2 & Ha3 & Ha4)] [[Hb1 Hb2]|(Hb1 & Hb2 & Hb3 & Hb4)].
  - split; congruence.
  - rewrite Hp in Ha2. rewrite Forall_forall in Ha2. by rewrite (Ha2 _ Hb2) in Hb3.
  - rewrite Hp in Ha2. rewrite Forall_forall in Hb2. by rewrite (Hb2 _ Ha2) in Ha3.
  - rewrite Hp in Ha2, Ha4. rewrite Forall_forall in Ha4, Hb4.
    enough (a = b) as -> by done.
    destruct (Ha4 _ Hb2 Hb3) as [?|H1]; [done|]. destruct (Hb4 _ Ha2 Ha3) as [?|H2]; [done|].
    pose proof (claims_before_trans _ _ _ H1 H2) as H. by rewrite claims_before_irrefl in H.
Qed.

Lemma map_entries_keyed m : jobs_keyed m -> entries_keyed (map_to_list m).
Proof.
  intros Hm. split; [apply NoDup_fst_map_to_list|]. apply Forall_forall. intros [id j] Hin.
  apply elem_of_map_to_list in Hin. by apply Hm in Hin.
Qed.

(** The claimed copy of a job. *)
Definition claimed (w : string) (at_ : time) (j : Job) : Job :=
  mkJob (j_ID j) (j_SessionID j) (j_JobType j) JobStatusProcessing
    (int64 (j_Attempts j + 1)) (j_AvailableAt j) (Some at_) (Some w)
    (j_LastError j) (j_CreatedAt j) at_.

(** A worker gets the job that comes first by creation time and identifier
    among those that are pending and due or whose lease has run out; when there
    is none it gets [ErrNotFound] and nothing changes.  The answer does not
    depend on the order in which Go ranges over the job map. *)
Theorem claim_takes_oldest w at_ s order :
  jobs_keyed (jobs s) -> order ≡ₚ map_to_list (jobs s) ->
  (claim_select at_ order).1 = (claim_select at_ (map_to_list (jobs s))).1 /\
  match ClaimNextJob w at_ s with
  | (Ok j', s') =>
      exists j, jobs s !! j_ID j = Some j /\ claimable at_ j = true /\
        (forall id k, jobs s !! id = Some k -> claimable at_ k = true ->
           k = j \/ claims_before j k = true) /\
        claim_select at_ order = (j_ID j, j) /\
        j' = claimed w at_ j /\ s' = set_jobs (<[j_ID j := j']> (jobs s)) s
  | (Err e, s') =>
      e = ErrNotFound /\ s' = s /\
      forall id k, jobs s !! id = Some k -> claimable at_ k = false
  end.
Proof.
  intros Hk Hp. pose proof (map_entries_keyed _ Hk) as Hm.
  assert (entries_keyed order) as Ho by (unfold entries_keyed; by rewrite Hp).
  pose proof (claim_select_best at_ _ Hm) as Hb.
  pose proof (claim_select_best at_ _ Ho) as Hb'.
  destruct (best_of_unique at_ _ _ _ _ Hp Hb' Hb) as [H1 H2]. split; [done|].
  unfold ClaimNextJob. destruct (claim_select at_ (map_to_list (jobs s))) as [id j] eqn:E.
  cbn in H1, H2. destruct (String.eqb_spec id "") as [->|Hid].
  - destruct Hb as [[_ Hb]|[Hb _]]; [|done]. split; [done|]. split; [done|].
    intros id' k Hk'. rewrite Forall_forall in Hb.
    by apply elem_of_map_to_list, Hb in Hk'.
  - destruct Hb as [[Hb _]|(_ & Hin & Hc & Hb)]; [done|].
    cbn in Hc. apply elem_of_map_to_list in Hin. destruct (Hk _ _ Hin) as [Hjid _].
    exists j. rewrite <- Hjid in Hin |- *. split; [done|]. split; [done|]. split; [|split; [|done]].
    + intros id' k Hk' Hck. rewrite Forall_forall in Hb.
      apply elem_of_map_to_list in Hk'. destruct (Hb _ Hk' Hck) as [[= -> ->]|?]; auto.
    + rewrite H2, Hjid; [done|congruence].
Qed.

Definition demo_job (id : string) (created : time) : Job :=
  mkJob id "s1" JobTypeSessionFinished JobStatusPending 0 created None None None created created.
Definition demo_queue : MemoryStore :=
  set_jobs (<["j1" := demo_job "j1" 7]> {[ "j2" := demo_job "j2" 5 ]}) NewMemoryStore.

Lemma demo_queue_keyed : jobs_keyed (jobs demo_queue).
Proof. apply map_Forall_insert_2; [done|]. by apply map_Forall_singleton. Qed.

Lemma claim_takes_oldest_witness :
  exists j', (ClaimNextJob "w" 10 demo_queue).1 = Ok j' /\ j_ID j' = "j2"%string.
Proof.
  destruct (claim_takes_oldest "w" 10 demo_queue (map_to_list (jobs demo_queue))) as [_ H].
  - exact demo_queue_keyed.
  - reflexivity.
  - destruct (ClaimNextJob "w" 10 demo_queue) as [[j'|e] s'] eqn:E.
    + exists j'. split; [done|]. vm_compute in E. by injection E as <- _.
    + vm_compute in E. discriminate.
Defined.

(** ** Leases and attempts *)

(** Jobs are enqueued with an identifier. *)
Definition named (e : event) : Prop :=
  match projT2 e with EEnqueueJob j => j_ID j <> ""%string | _ => True end.

Lemma claim_select_in at_ l id j :
  claim_select at_ l = (id, j) -> id <> ""%string -> (id, j) ∈ l /\ claimable at_ j = true.
Proof.
  unfold claim_select. revert id j.
  induction l as [|e l IH] using rev_ind; cbn; intros id j H Hne; [by simplify_eq|].
  rewrite foldl_app in H. cbn [foldl] in H. rewrite claim_step_cond in H.
  destruct (foldl (claim_step at_) _ l) as [id0 j0].
  destruct (claimable at_ e.2) eqn:Hc; cbn in H.
  - destruct (_ || _); [subst e; split; [apply elem_of_app; right; left|done]|].
    simplify_eq. destruct (IH _ _ eq_refl Hne). split; [apply elem_of_app; auto|done].
  - simplify_eq. destruct (IH _ _ eq_refl Hne). split; [apply elem_of_app; auto|done].
Qed.

Lemma claim_inv w at_ s j' s' :
  ClaimNextJob w at_ s = (Ok j', s') ->
  exists id j, jobs s !! id = Some j /\ id <> ""%string /\ claimable at_ j = true /\
    j' = claimed w at_ j /\ s' = set_jobs (<[id := j']> (jobs s)) s.
Proof.
  unfold ClaimNextJob. destruct (claim_select _ _) as [id j] eqn:E.
  destruct (String.eqb_spec id ""); [done|]. intros H. simplify_eq.
  apply claim_select_in in E as [Hin Hc]; [|done]. apply elem_of_map_to_list in Hin.
  exists id, j. done.
Qed.

Lemma claim_err w at_ s e s' : ClaimNextJob w at_ s = (Err e, s') -> s' = s.
Proof. unfold ClaimNextJob. repeat case_match; intros; by simplify_eq. Qed.

(** How one call changes the job [id]. *)
Inductive job_step (id : string) (e : event) (o o' : option Job) : Prop :=
| js_same (E : o' = o)
| js_new j (Ee : e = ev (EEnqueueJob j)) (Hid : j_ID j = id) (E : o = None) (E' : o' = Some j)
| js_claim w at_ j (Ee : e = ev (EClaimNextJob w at_)) (E : o = Some j)
    (E' : o' = Some (claimed w at_ j)) (Hc : claimable at_ j = true) (Hne : id <> ""%string)
| js_complete at_ j j' (Ee : e = ev (ECompleteJob id at_)) (E : o = Some j) (E' : o' = Some j')
    (Hp : j_Status j = JobStatusProcessing) (Hid : j_ID j' = j_ID j)
    (Hst : j_Status j' = JobStatusDone) (Hat : j_Attempts j' = j_Attempts j)
    (Hof : j_SessionID j' = j_SessionID j /\ j_JobType j' = j_JobType j)
| js_fail at_ msg d j j' (Ee : e = ev (EFailJob id at_ msg d)) (E : o = Some j)
    (E' : o' = Some j') (Hp : j_Status j = JobStatusProcessing) (Hid : j_ID j' = j_ID j)
    (Hst : j_Status j' =
       (if j_Attempts j <? MaxJobAttempts then JobStatusPending else JobStatusFailed))
    (Hat : j_Attempts j' = j_Attempts j)
    (Hof : j_SessionID j' = j_SessionID j /\ j_JobType j' = j_JobType j).

Lemma after_job_step id e s : job_step id e (jobs s !! id) (jobs (after e s) !! id).
Proof.
  destruct e as [R c]. unfold after. destruct c; cbn [projT2 handle snd]; try by apply js_same.
  - unfold CreateSession. case_match; by apply js_same.
  - unfold CreateTicket. case_match; by apply js_same.
  - unfold CreateSessionWithTicket. repeat case_match; by apply js_same.
  - unfold ConsumeTicket. repeat case_match; by apply js_same.
  - unfold MarkSessionActive. repeat case_match; by apply js_same.
  - unfold EndSession. repeat case_match; cbn; by apply js_same.
  - unfold EnqueueJob. case_match eqn:E; [by apply js_same|]. cbn.
    destruct (decide (j_ID j = id)) as [<-|?].
    + rewrite lookup_insert_eq, E. by eapply js_new.
    + rewrite lookup_insert_ne by done. by apply js_same.
  - destruct (ClaimNextJob w at_ s) as [[j'|err] s'] eqn:E.
    + apply claim_inv in E as (id' & j & Hj & Hne & Hc & -> & ->). cbn.
      destruct (decide (id' = id)) as [->|?].
      * rewrite lookup_insert_eq, Hj. by eapply js_claim.
      * rewrite lookup_insert_ne by done. by apply js_same.
    + apply claim_err in E as ->. by apply js_same.
  - unfold CompleteJob. destruct (jobs s !! id0) as [j|] eqn:E; [|by apply js_same].
    destruct (String.eqb_spec (j_Status j) JobStatusProcessing); [|by apply js_same]. cbn.
    destruct (decide (id0 = id)) as [->|?].
    + rewrite lookup_insert_eq, E. by eapply js_complete.
    + rewrite lookup_insert_ne by done. by apply js_same.
  - unfold FailJob. destruct (jobs s !! id0) as [j|] eqn:E; [|by apply js_same].
    destruct (String.eqb_spec (j_Status j) JobStatusProcessing); [|by apply js_same]. cbn.
    destruct (decide (id0 = id)) as [->|?].
    + rewrite lookup_insert_eq, E. by eapply js_fail.
    + rewrite lookup_insert_ne by done. by apply js_same.
  - unfold MarkSessionReviewed. repeat case_match; by apply js_same.
  - unfold MarkSessionReviewedWithCost. repeat case_match; by apply js_same.
  - unfold SaveUtteranceEval. repeat case_match; by apply js_same.
Qed.

Lemma jobs_keyed_step e s : named e -> jobs_keyed (jobs s) -> jobs_keyed (jobs (after e s)).
Proof.
  intros Hn Hk id j Hj. pose proof (after_job_step id e s) as Hs. rewrite Hj in Hs.
  destruct Hs; simplify_eq; try (by apply (Hk id));
    (destruct (Hk _ _ E) || idtac); cbn; split; congruence.
Qed.

(** Whether a call hands out the job [id]. *)
Definition claims (id : string) (e : event) (s : MemoryStore) : bool :=
  match projT2 e in storeE R return R -> bool with
  | EClaimNextJob _ _ => fun r => match r with Ok j => String.eqb (j_ID j) id | _ => false end
  | _ => fun _ => false
  end (handle (projT2 e) s).1.

Lemma claims_inv id e s :
  jobs_keyed (jobs s) -> claims id e s = true ->
  exists w at_ j, e = ev (EClaimNextJob w at_) /\ jobs s !! id = Some j /\
    claimable at_ j = true /\ jobs (after e s) !! id = Some (claimed w at_ j).
Proof.
  intros Hk. destruct e as [R c]. unfold claims, after. destruct c; cbn; try done.
  destruct (ClaimNextJob w at_ s) as [[j'|]?] eqn:E; cbn; [|done].
  intros <-%String.eqb_eq. apply claim_inv in E as (id & j & Hj & _ & Hc & -> & ->).
  destruct (Hk _ _ Hj) as [Hid _]. exists w, at_, j. cbn. rewrite Hid, lookup_insert_eq. done.
Qed.

(** While the lease [t, t + DefaultJobLease) of a claim runs: nobody reports the
    job complete or failed, and the other workers' clocks have not reached the
    end of the lease. *)
Definition within_lease (id : string) (t : time) (e : event) : Prop :=
  match projT2 e with
  | ECompleteJob id' _ | EFailJob id' _ _ _ => id' <> id
  | EClaimNextJob _ at_ => at_ < t + DefaultJobLease
  | _ => True
  end.

Fixpoint claim_count (id : string) (tr : list event) (s : MemoryStore) : nat :=
  match tr with
  | [] => 0
  | e :: tr => (if claims id e s then 1 else 0) + claim_count id tr (after e s)
  end.

Definition held (id : string) (t : time) (s : MemoryStore) : Prop :=
  exists j, jobs s !! id = Some j /\ j_Status j = JobStatusProcessing /\ j_LockedAt j = Some t.

Lemma held_not_claimable t at_ j :
  j_Status j = JobStatusProcessing -> j_LockedAt j = Some t -> at_ < t + DefaultJobLease ->
  claimable at_ j = false.
Proof.
  intros Hs Hl Ht. unfold claimable. rewrite Hs, Hl. cbn. unfold After, Add. lia.
Qed.

Lemma held_step id t e s :
  within_lease id t e -> held id t s -> held id t (after e s).
Proof.
  intros Hw (j & Hj & Hs & Hl). pose proof (after_job_step id e s) as H. rewrite Hj in H.
  unfold held.
  destruct H; simplify_eq; try done.
  - exists j. done.
  - cbn in Hw. by rewrite (held_not_claimable t) in Hc.
Qed.

(** C32: A claimed job is its worker's alone: until someone reports it complete or
    failed, or the two-minute lease has run out on a worker's clock, no claim of
    any worker hands it out again, whatever else the store is asked to do. *)
Theorem claimed_job_is_exclusive id w t s j' s' tr :
  jobs_keyed (jobs s) -> ClaimNextJob w t s = (Ok j', s') -> j_ID j' = id ->
  Forall named tr -> Forall (within_lease id t) tr ->
  claim_count id tr s' = 0%nat.
Proof.
  intros Hk Hcl Hid Hn Hw.
  assert (held id t s' /\ jobs_keyed (jobs s')) as [Hh Hk'].
  { apply claim_inv in Hcl as (id' & j & Hj & Hne & _ & -> & ->).
    destruct (Hk _ _ Hj) as [Hjid _]. cbn in Hid. rewrite Hjid in Hid. subst id'. split.
    - exists (claimed w t j). cbn. by rewrite lookup_insert_eq.
    - apply map_Forall_insert_2; [|done]. cbn. by rewrite Hjid. }
  clear Hcl. revert s' Hh Hk'.
  induction tr as [|e tr IH]; intros s' Hh Hk'; [done|]. cbn [claim_count].
  inversion Hn; inversion Hw; subst.
  destruct (claims _ e s') eqn:E.
  - exfalso. apply claims_inv in E as (w' & at_ & j & -> & Hj & Hc & _); [|done].
    destruct Hh as (j0 & Hj0 & Hs & Hl). simplify_eq.
    by rewrite (held_not_claimable t) in Hc.
  - apply IH; [done..|by apply held_step|by apply jobs_keyed_step].
Qed.

Lemma claimed_job_is_exclusive_witness :
  claim_count "j2" [ev (EClaimNextJob "w2" 11); ev (EClaimNextJob "w3" 12)]
    (ClaimNextJob "w" 10 demo_queue).2 = 0%nat.
Proof.
  apply (claimed_job_is_exclusive "j2" "w" 10 demo_queue (claimed "w" 10 (demo_job "j2" 5))).
  - exact demo_queue_keyed.
  - vm_compute. reflexivity.
  - reflexivity.
  - repeat constructor.
  - repeat constructor.
Defined.

(** Claims that take the job from the pending state: first tries and retries,
    as opposed to the recovery of a lapsed lease. *)
Definition is_pending (id : string) (s : MemoryStore) : bool :=
  match jobs s !! id with
  | Some j => String.eqb (j_Status j) JobStatusPending
  | None => false
  end.

Fixpoint tries (id : string) (tr : list event) (s : MemoryStore) : nat :=
  match tr with
  | [] => 0
  | e :: tr => (if claims id e s && is_pending id s then 1 else 0) + tries id tr (after e s)
  end.

(** Tries a job has left. *)
Definition tries_left (j : Job) : nat := Z.to_nat (MaxJobAttempts - j_Attempts j).

Definition job_fresh (j : Job) : Prop :=
  0 <= j_Attempts j /\ (j_Status j = JobStatusPending -> j_Attempts j < MaxJobAttempts).

Lemma job_fresh_step id e j s :
  jobs s !! id = Some j -> job_fresh j -> j_Attempts j < max_int64 ->
  exists j', jobs (after e s) !! id = Some j' /\ job_fresh j' /\
    j_Attempts j <= j_Attempts j' <= j_Attempts j + 1.
Proof.
  intros Hj [H0 Hp] Hb. pose proof (after_job_step id e s) as H. rewrite Hj in H.
  unfold job_fresh.
  destruct H; simplify_eq.
  - exists j. split; [done|]. split; [done|]. lia.
  - eexists. split; [done|]. cbn.
    rewrite int64_id by (unfold in_int64, min_int64, max_int64 in *; lia).
    split; [|lia]. split; [lia|done].
  - eexists. split; [done|]. rewrite Hat, Hst. split; [|lia]. split; [lia|done].
  - eexists. split; [done|]. rewrite Hat, Hst. split; [|lia]. split; [lia|].
    by destruct (Z.ltb_spec (j_Attempts j0) MaxJobAttempts).
Qed.

(** A job that is reported back each time is tried at most [MaxJobAttempts]
    times in all: in every history, the number of claims that take it from the
    pending state is at most the tries it has left, one retry after the first
    for a new job.  (The recovery of a lapsed lease is a separate count.) *)
Theorem job_tries_are_bounded id j tr s :
  jobs_keyed (jobs s) -> Forall named tr ->
  jobs s !! id = Some j -> job_fresh j ->
  j_Attempts j + Z.of_nat (length tr) <= max_int64 ->
  (tries id tr s <= tries_left j)%nat.
Proof.
  intros Hk Hn Hj Hf Hb. revert s j Hk Hj Hf Hb.
  induction tr as [|e tr IH]; intros s j Hk Hj Hf Hb; cbn [tries]; [lia|].
  inversion Hn as [|? ? Hne Hn']; subst. cbn [length] in Hb.
  destruct (job_fresh_step id e j s Hj Hf ltac:(lia)) as (j' & Hj' & Hf' & Ha).
  specialize (IH Hn' _ j' (jobs_keyed_step _ _ Hne Hk) Hj' Hf' ltac:(lia)).
  unfold tries_left in *. destruct (claims id e s && is_pending id s) eqn:E; [|lia].
  apply andb_true_iff in E as [Hc Hp].
  apply claims_inv in Hc as (w & at_ & j0 & -> & Hj0 & _ & Hj1); [|done].
  simplify_eq. unfold is_pending in Hp. rewrite Hj in Hp. apply String.eqb_eq in Hp.
  destruct Hf as [H0 Hf]. specialize (Hf Hp). cbn in *.
  rewrite int64_id in IH, Ha by (unfold in_int64, min_int64, max_int64 in *; lia).
  unfold MaxJobAttempts in *. lia.
Qed.

Lemma job_tries_are_bounded_witness :
  (tries "j2" [ev (EClaimNextJob "w" 10); ev (EFailJob "j2" 11 "x" 0);
               ev (EClaimNextJob "w" 12)] demo_queue <= 2)%nat.
Proof.
  apply (job_tries_are_bounded "j2" (demo_job "j2" 5)).
  - exact demo_queue_keyed.
  - repeat constructor.
  - reflexivity.
  - split; [done|]. intros _. reflexivity.
  - vm_compute. discriminate.
Defined.

(** The attempts limit is enforced by [FailJob] only: a job whose workers die
    is claimed again at the end of every lease, without limit. *)
Definition lone_job (n : Z) : MemoryStore :=
  set_jobs {[ "j" := if n =? 0 then demo_job "j" 0
                     else claimed "w" (n * DefaultJobLease)
                            (mkJob "j" "s1" JobTypeSessionFinished JobStatusPending (n - 1)
                               0 None None None 0 0) ]} NewMemoryStore.

Lemma claim_single w at_ j :
  claimable at_ j = true ->
  after (ev (EClaimNextJob w at_)) (set_jobs {[ "j"%string := j ]} NewMemoryStore) =
  set_jobs {[ "j"%string := claimed w at_ j ]} NewMemoryStore.
Proof.
  intros Hc. unfold after. cbn [projT2 ev handle]. unfold ClaimNextJob, claim_select.
  cbn [set_jobs jobs]. rewrite map_to_list_singleton. cbn [foldl].
  rewrite claim_step_cond. cbn [fst snd]. rewrite Hc. cbn -[insert].
  unfold set_jobs at 1. cbn [tickets sessions utterances jobs costLogs rescueEvents set_jobs].
  by rewrite insert_singleton_eq.
Qed.

Lemma lone_job_claim n :
  0 <= n < max_int64 ->
  after (ev (EClaimNextJob "w" ((n + 1) * DefaultJobLease))) (lone_job n) = lone_job (n + 1).
Proof.
  intros Hn. unfold lone_job. rewrite claim_single.
  - replace (n + 1 =? 0) with false by lia. replace (n + 1 - 1) with n by lia.
    destruct (Z.eqb_spec n 0) as [->|Hn0]; [done|]. unfold claimed. cbn.
    by rewrite (int64_id (n - 1 + 1)), Z.sub_add
      by (unfold in_int64, min_int64, max_int64 in *; lia).
  - destruct (Z.eqb_spec n 0) as [->|Hn0]; [done|]. unfold claimable. cbn.
    unfold After, Add, DefaultJobLease, Minute, Second, Millisecond. lia.
Qed.

Definition lapsed_leases (n : nat) : list event :=
  map (fun k => ev (EClaimNextJob "w" (Z.of_nat (k + 1) * DefaultJobLease))) (seq 0 n).

(** However small [MaxJobAttempts] is, a job whose claims are never reported
    back is claimed again after every lease: after [n] lapsed leases it counts
    [n] attempts and is still handed out. *)
Theorem lapsed_leases_ignore_attempt_limit n :
  Z.of_nat n < max_int64 ->
  run (lapsed_leases n) (lone_job 0) = lone_job (Z.of_nat n).
Proof.
  unfold lapsed_leases. induction n as [|n IH]; intros Hn; [done|].
  rewrite seq_S, map_app. unfold run in *. rewrite foldl_app, IH by lia. cbn [map foldl].
  replace (Z.of_nat (0 + n + 1)) with (Z.of_nat n + 1) by lia.
  rewrite lone_job_claim by lia. f_equal. lia.
Qed.

Lemma lapsed_leases_ignore_attempt_limit_witness :
  exists j, jobs (run (lapsed_leases 3) (lone_job 0)) !! "j"%string = Some j /\
    j_Attempts j = 3 /\ MaxJobAttempts = 2.
Proof.
  rewrite (lapsed_leases_ignore_attempt_limit 3).
  - eexists. split; [reflexivity|]. split; reflexivity.
  - reflexivity.
Defined.
