(* ===== verification/SessionListing.v ===== *)
(** * Listing, hiding and moving sessions

    Cursor pagination of [ListSessions], soft delete and restore, and the merge
    of a guest's data into an account. *)
From S2P Require Import Prelude GoString GoTime GoSort ApiErr AICost Session SessionLaws.

Open Scope Z_scope.

(** Sessions are stored under their own identifier. *)
Definition sessions_keyed (s : MemoryStore) : Prop :=
  map_Forall (fun id x => s_ID x = id) (sessions s).

Lemma sessions_keyed_step R (c : storeE R) s :
  sessions_keyed s -> sessions_keyed (handle c s).2.
Proof.
  intros Hk. unfold sessions_keyed in *.
  assert (forall f, (forall x, s_ID (f x) = s_ID x) ->
            map_Forall (fun id x => s_ID x = id) (f <$> sessions s)) as Hmap.
  { intros f Hf id x. rewrite lookup_fmap. intros (y & Hy & ->)%fmap_Some.
    rewrite Hf. by apply Hk. }
  assert (forall id x y, sessions s !! id = Some x -> s_ID y = s_ID x ->
            map_Forall (fun id x => s_ID x = id) (<[id := y]> (sessions s))) as Hins.
  { intros id x y Hx Hy. apply map_Forall_insert_2; [|done]. rewrite Hy. by apply Hk. }
  store_cases c; try done; try (by eapply Hins); try (by apply map_Forall_insert_2);
    try (apply Hmap; intros ?; by case_match).
Qed.

(** [newer] is the order of the listing. *)
#[export] Instance newer_weak : StrictWeak newer.
Proof.
  unfold newer, After. split.
  - intros a b. rewrite (Z.eqb_sym (s_CreatedAt b)).
    destruct (Z.eqb_spec (s_CreatedAt a) (s_CreatedAt b)); cbn; [|lia].
    apply str_lt_asymm.
  - intros a b c. rewrite (Z.eqb_sym (s_CreatedAt c) (s_CreatedAt b)),
      (Z.eqb_sym (s_CreatedAt b) (s_CreatedAt a)), (Z.eqb_sym (s_CreatedAt c) (s_CreatedAt a)).
    destruct (Z.eqb_spec (s_CreatedAt a) (s_CreatedAt b)),
      (Z.eqb_spec (s_CreatedAt b) (s_CreatedAt c)),
      (Z.eqb_spec (s_CreatedAt a) (s_CreatedAt c)); cbn; try lia.
    intros H1 H2. by apply (str_lt_negtrans _ (s_ID b)).
Qed.

Lemma newer_separates a b :
  newer a b = false -> newer b a = false -> s_ID a = s_ID b.
Proof.
  unfold newer, After. rewrite (Z.eqb_sym (s_CreatedAt b)).
  destruct (Z.eqb_spec (s_CreatedAt a) (s_CreatedAt b)); cbn; [|lia].
  intros. by apply str_lt_antisymm.
Qed.

Lemma all_sessions_elem s x :
  sessions_keyed s -> x ∈ all_sessions s <-> sessions s !! s_ID x = Some x.
Proof.
  intros Hk. unfold all_sessions. rewrite list_elem_of_fmap. split.
  - intros ([id y] & -> & Hin). apply elem_of_map_to_list in Hin. cbn. by rewrite (Hk _ _ Hin).
  - intros H. exists (s_ID x, x). by rewrite elem_of_map_to_list.
Qed.

Lemma all_sessions_separated s : sessions_keyed s -> separated newer (all_sessions s).
Proof.
  intros Hk a b Ha Hb H1 H2. apply all_sessions_elem in Ha, Hb; [|done..].
  rewrite (newer_separates a b) in Ha by done. congruence.
Qed.

Lemma all_sessions_NoDup s : sessions_keyed s -> NoDup (all_sessions s).
Proof.
  intros Hk. unfold all_sessions. apply (NoDup_fmap_1 s_ID).
  replace (s_ID <$> (map_to_list (sessions s)).*2) with ((map_to_list (sessions s)).*1);
    [apply NoDup_fst_map_to_list|].
  rewrite <- list_fmap_compose. apply list_fmap_ext. intros i [id y] Hi. cbn.
  apply list_elem_of_lookup_2, elem_of_map_to_list in Hi. symmetry. by apply Hk.
Qed.

(** ** Cursor pagination *)

(** A user's listing in full. *)
Definition listing (u : string) (s : MemoryStore) : list Session :=
  sort_Slice newer (List.filter (listed u None "") (all_sessions s)).

(** A client that follows the cursor of each page's last session. *)
Definition walk (u : string) (limit : Z) (s : MemoryStore) (fuel : nat) : list Session :=
  walk_pages
    (fun c => match c with
              | None => ListSessions u None "" limit s
              | Some (at_, id) => ListSessions u (Some at_) id limit s
              end)
    (fun x => (s_CreatedAt x, s_ID x)) fuel None.

Lemma listed_after u at_ id x :
  listed u (Some at_) id x =
  listed u None "" x &&
  (if negb (at_ =? s_CreatedAt x) then After at_ (s_CreatedAt x) else str_lt (s_ID x) id).
Proof.
  unfold listed, After. rewrite andb_true_r. f_equal.
  destruct (Z.eqb_spec at_ (s_CreatedAt x)); cbn.
  - destruct (Z.eqb_spec (s_CreatedAt x) at_); [|lia]. cbn. by destruct (str_lt _ _); lia.
  - destruct (Z.eqb_spec (s_CreatedAt x) at_); [lia|]. cbn. lia.
Qed.

Lemma listing_shape u s :
  sessions_keyed s ->
  listing u s ≡ₚ List.filter (listed u None "") (all_sessions s) /\
  StronglySorted (not_after newer) (listing u s) /\ NoDup (listing u s).
Proof.
  intros Hk. assert (listing u s ≡ₚ List.filter (listed u None "") (all_sessions s)) as Hp
    by apply sort_Slice_Permutation.
  split; [done|]. split; [apply sort_Slice_sorted; apply _|].
  rewrite Hp. by apply NoDup_ListNoDup, List.NoDup_filter, NoDup_ListNoDup, all_sessions_NoDup.
Qed.

(** One page: the first [limit] of the sorted listing. *)
Lemma ListSessions_take u c id limit s :
  1 <= limit ->
  ListSessions u c id limit s =
  take (Z.to_nat limit) (sort_Slice newer (List.filter (listed u c id) (all_sessions s))).
Proof.
  intros Hl. unfold ListSessions. replace (limit <? 1) with false by lia.
  case_match; [done|]. rewrite take_ge; [done|lia].
Qed.

(** Following the cursor visits every session of the user that is not deleted
    exactly once, newest first, whatever the page size. *)
Theorem pagination_visits_everything u limit s fuel :
  sessions_keyed s -> 1 <= limit -> (size (sessions s) < fuel)%nat ->
  walk u limit s fuel = listing u s /\
  NoDup (listing u s) /\ StronglySorted (not_after newer) (listing u s) /\
  forall x, x ∈ listing u s <->
    sessions s !! s_ID x = Some x /\ s_UserID x = u /\ s_DeletedAt x = None.
Proof.
  intros Hk Hl Hf. destruct (listing_shape u s Hk) as (Hp & Hss & Hnd).
  split; [|split; [done|split; [done|]]].
  - apply (walk_pages_all _ _ (Z.to_nat limit)); [lia|..].
    + rewrite Hp. eapply Nat.le_lt_trans; [apply filter_length_le|].
      unfold all_sessions. by rewrite length_fmap, length_map_to_list.
    + by apply ListSessions_take.
    + intros pre x post HL. rewrite ListSessions_take by done. f_equal.
      eapply (sorted_after _); [by apply all_sessions_separated|by apply all_sessions_NoDup| |exact HL].
      apply listed_after.
  - intros x. rewrite Hp, list_elem_of_In, filter_In, <- list_elem_of_In, all_sessions_elem by done.
    unfold listed. rewrite andb_true_r, andb_true_iff, String.eqb_eq, negb_true_iff.
    rewrite bool_decide_eq_false, <- eq_None_not_Some. done.
Qed.

Definition two_sessions : MemoryStore :=
  set_sessions (<["a" := mkSession "a" "u" None "demo" "standard" "ended" 0 "" 7 7 None]>
                {[ "b" := mkSession "b" "u" None "demo" "standard" "ended" 0 "" 7 7 None ]})%string
    NewMemoryStore.

Lemma pagination_visits_everything_witness :
  map s_ID (walk "u" 1 two_sessions 3) = ["b"; "a"]%string.
Proof.
  destruct (pagination_visits_everything "u" 1 two_sessions 3) as [H _].
  - apply map_Forall_insert_2; [done|]. by apply map_Forall_singleton.
  - lia.
  - vm_compute. lia.
  - rewrite H. vm_compute. reflexivity.
Defined.

(** ** Soft delete, restore, and guest merge *)

Lemma all_sessions_fmap f s :
  all_sessions (set_sessions (f <$> sessions s) s) ≡ₚ map f (all_sessions s).
Proof.
  unfold all_sessions. cbn. rewrite map_to_list_fmap, <- list_fmap_compose.
  change (map f) with (fmap (M := list) f). rewrite <- list_fmap_compose.
  by apply Permutation_refl'.
Qed.

Lemma filter_nothing {A} (p : A -> bool) l : Forall (fun x => p x = false) l -> List.filter p l = [].
Proof. induction 1 as [|x l Hx _ IH]; cbn; [done|]. by rewrite Hx. Qed.

Lemma ListSessions_none u c id limit s :
  Forall (fun x => listed u c id x = false) (all_sessions s) -> ListSessions u c id limit s = [].
Proof.
  intros H. unfold ListSessions. case_match; [done|].
  rewrite filter_nothing by done. change (sort_Slice newer []) with (@nil Session).
  rewrite take_nil. by case_match.
Qed.

Lemma active_ids_spec since s u :
  u ∈ ListActiveUserIDs since s <->
  exists x, x ∈ all_sessions s /\ s_DeletedAt x = None /\ s_UserID x = u /\ u <> ""%string /\
    since <= s_CreatedAt x.
Proof.
  unfold ListActiveUserIDs. rewrite (SortStrings_Permutation _), elem_of_elements.
  induction (all_sessions s) as [|y l IH]; cbn [foldr].
  - split; [set_solver|]. intros (x & Hx & _). by inversion Hx.
  - unfold Before. destruct (bool_decide (is_Some (s_DeletedAt y))) eqn:Ed; cbn [orb].
    { rewrite IH. apply bool_decide_eq_true in Ed as [d Ed]. split.
      - intros (x & ? & ?). exists x. split; [by right|done].
      - intros (x & Hx & Hn & ?). apply elem_of_cons in Hx as [->|Hx]; [congruence|eauto]. }
    apply bool_decide_eq_false, eq_None_not_Some in Ed.
    destruct (String.eqb_spec (s_UserID y) "") as [Eu|Eu].
    { rewrite IH. split.
      - intros (x & ? & ?). exists x. split; [by right|done].
      - intros (x & Hx & ? & Hu & ? & ?). apply elem_of_cons in Hx as [->|Hx]; [congruence|eauto 8]. }
    destruct (Z.ltb_spec (s_CreatedAt y) since).
    { rewrite IH. split.
      - intros (x & ? & ?). exists x. split; [by right|done].
      - intros (x & Hx & ? & ? & ? & ?). apply elem_of_cons in Hx as [->|Hx]; [lia|eauto 8]. }
    rewrite elem_of_union, elem_of_singleton, IH. split.
    + intros [->|(x & ? & ?)]; [exists y; split; [left|done]|exists x; split; [by right|done]].
    + intros (x & Hx & ? & <- & ? & ?). apply elem_of_cons in Hx as [->|Hx]; [by left|right; eauto 8].
Qed.

Definition soft_deleted (u : string) (at_ : time) (x : Session) : Session :=
  if deletable u x then with_deleted (Some at_) at_ x else x.
Definition restored (u : string) (x : Session) : Session :=
  if restorable u x then with_deleted None (s_UpdatedAt x) x else x.

Lemma soft_deleted_spec u at_ x :
  let y := soft_deleted u at_ x in
  (s_UserID y = s_UserID x) /\ (s_UserID y = u -> is_Some (s_DeletedAt y)) /\
  (s_DeletedAt x = None -> restorable u y = deletable u x /\
     restored u y = if String.eqb (s_UserID x) u then with_deleted None at_ x else x).
Proof.
  destruct x as [i usr m sc sl st d r c up del]. unfold soft_deleted, restored, restorable, deletable.
  cbn. destruct (String.eqb_spec usr u) as [->|]; cbn.
  - destruct (bool_decide (is_Some del)) eqn:E; cbn.
    + apply bool_decide_eq_true in E. split; [done|]. split; [done|].
      intros ->. by destruct E.
    + split; [done|]. split; [done|]. intros ->. rewrite String.eqb_refl. done.
  - split; [done|]. split; [done|]. intros ->. destruct (String.eqb_spec usr u); done.
Qed.

(** A soft delete hides every session of the learner from listings and from the
    scheduler, touches nobody else's, and is undone by a restore: the sessions
    come back as they were but for the update stamp, and both calls report the
    same number of sessions. *)
Theorem soft_delete_hides_and_restores u at_ s :
  map_Forall (fun _ x => s_UserID x = u -> s_DeletedAt x = None) (sessions s) ->
  let (n, s1) := SoftDeleteForUser u at_ s in
  let (m, s2) := RestoreDeletedForUser u s1 in
  (forall c id limit, ListSessions u c id limit s1 = []) /\
  (forall since, u ∉ ListActiveUserIDs since s1) /\
  (forall v id x, v <> u -> sessions s !! id = Some x -> s_UserID x = v ->
     sessions s1 !! id = Some x) /\
  m = n /\
  sessions s2 = (fun x => if String.eqb (s_UserID x) u then with_deleted None at_ x else x)
                  <$> sessions s.
Proof.
  intros Hnone. unfold SoftDeleteForUser, RestoreDeletedForUser.
  fold (soft_deleted u at_). fold (restored u).
  set (s1 := set_sessions _ s).
  assert (forall x, x ∈ all_sessions s1 -> exists y, x = soft_deleted u at_ y) as H1.
  { intros x. unfold s1. rewrite all_sessions_fmap. intros (y & -> & _)%list_elem_of_fmap. eauto. }
  split; [|split; [|split; [|split]]].
  - intros c id limit. apply ListSessions_none, Forall_forall. intros x Hx.
    destruct (H1 x Hx) as [y ->]. destruct (soft_deleted_spec u at_ y) as (_ & H2 & _).
    unfold listed. destruct (String.eqb_spec (s_UserID (soft_deleted u at_ y)) u); [|done].
    by rewrite bool_decide_true by auto.
  - intros since (x & Hx & Hd & Hu & _)%active_ids_spec.
    destruct (H1 x Hx) as [y ->]. destruct (soft_deleted_spec u at_ y) as (_ & H2 & _).
    apply H2 in Hu. rewrite Hd in Hu. by destruct Hu.
  - intros v id x Hv Hx Hu. unfold s1. cbn. rewrite lookup_fmap, Hx. cbn. f_equal.
    unfold soft_deleted, deletable. rewrite Hu. by destruct (String.eqb_spec v u).
  - f_equal. unfold s1.
    rewrite (Permutation_length (filter_Permutation _ _ _ (all_sessions_fmap _ _))).
    assert (Forall (fun x => s_UserID x = u -> s_DeletedAt x = None) (all_sessions s)) as HF.
    { apply Forall_forall. intros x ([id y] & -> & Hin)%list_elem_of_fmap.
      by apply elem_of_map_to_list, Hnone in Hin. }
    induction HF as [|x l Hx _ IH]; [done|]. cbn [map List.filter].
    destruct (soft_deleted_spec u at_ x) as (Huid & _ & H2).
    assert (restorable u (soft_deleted u at_ x) = deletable u x) as ->.
    { destruct (decide (s_UserID x = u)) as [E|E]; [by apply H2, Hx|].
      unfold restorable, deletable. rewrite Huid. by destruct (String.eqb_spec (s_UserID x) u). }
    destruct (deletable u x); cbn [length]; lia.
  - unfold s1. cbn. rewrite <- map_fmap_compose. apply map_fmap_ext. intros id x Hx. cbn.
    destruct (decide (s_UserID x = u)) as [E|E].
    + destruct (soft_deleted_spec u at_ x) as (_ & _ & H2). apply H2. by eapply Hnone.
    + unfold restored, soft_deleted, restorable, deletable.
      destruct (String.eqb_spec (s_UserID x) u); [done|]. cbn.
      by destruct (String.eqb_spec (s_UserID x) u).
Qed.

Lemma soft_delete_hides_and_restores_witness :
  ListSessions "u" None "" 10 (SoftDeleteForUser "u" 9 two_sessions).2 = [].
Proof.
  pose proof (soft_delete_hides_and_restores "u" 9 two_sessions) as H.
  destruct (SoftDeleteForUser "u" 9 two_sessions) as [n s1].
  destruct (RestoreDeletedForUser "u" s1) as [m s2]. apply H.
  apply map_Forall_insert_2; [done|]. by apply map_Forall_singleton.
Defined.

(** Merging a guest into an account moves every session and every ticket, and
    nothing of the guest's is left behind among them — but the rescue ladders
    keep the guest's identifier: the account's count of rescues, which the
    stuck map reads, gains nothing and the guest keeps theirs. *)
Theorem guest_merge_leaves_rescues now f t s :
  f <> t ->
  let s' := ReassignUser now f t s in
  (forall id x, sessions s !! id = Some x -> exists x', sessions s' !! id = Some x' /\
     s_UserID x' = (if String.eqb (s_UserID x) f then t else s_UserID x)) /\
  map_Forall (fun _ x => s_UserID x <> f) (sessions s') /\
  map_Forall (fun _ k => t_UserID k <> f) (tickets s') /\
  forall u since, CountRescuesByPath u since s' = CountRescuesByPath u since s.
Proof.
  intros Hne. cbn. split; [|split; [|split]].
  - intros id x Hx. rewrite lookup_fmap, Hx. cbn. eexists. split; [done|]. by case_match.
  - intros id x. rewrite lookup_fmap. intros (y & Hy & ->)%fmap_Some.
    destruct (String.eqb_spec (s_UserID y) f); [|done]. cbn. congruence.
  - intros id x. rewrite lookup_fmap. intros (y & Hy & ->)%fmap_Some.
    destruct (String.eqb_spec (t_UserID y) f); [|done]. cbn. congruence.
  - done.
Qed.

Definition guest_store : MemoryStore :=
  set_rescueEvents {[ "s1" := [mkRescueEvent "e" "s1" "guest" 1 "" 2 "silent" "" true "hi" 5] ]}
    (set_sessions {[ "s1" := with_owner "guest" 0 (demo_session "ended") ]} NewMemoryStore).

Lemma guest_merge_leaves_rescues_witness :
  CountRescuesByPath "account" 0 (ReassignUser 9 "guest" "account" guest_store) = ∅ /\
  CountRescuesByPath "guest" 0 guest_store = {[ "silent"%string := 1 ]}.
Proof.
  split; [|vm_compute; reflexivity].
  destruct (guest_merge_leaves_rescues 9 "guest" "account" guest_store) as (_ & _ & _ & H);
    [discriminate|]. rewrite H. vm_compute. reflexivity.
Defined.
