(* ===== verification/SessionHistory.v ===== *)
(** * Session history ([internal/sessionhistory])

    [GET /sessions] pages through the caller's sessions with an opaque cursor,
    the URL-safe base64 of a JSON document; [GET /sessions/:id] shows one
    session with its transcript and the summary of its evaluation. *)
From S2P Require Import Prelude Prog GoString GoUnicode GoTime GoTimeParse GoSort GoFloat GoCrypto GoBase64 GoJson GoJsonLaws GoJsonMap ApiErr AICost Session SessionLaws ReviewView Paging SessionListing.
From Stdlib Require Import SpecFloat.

Open Scope Z_scope.
Open Scope prog_scope.

(** ** model.go *)
Definition DefaultPageSize : Z := 20.
Definition MaxPageSize : Z := 100.

Record SessionListItem := mkListItem {
  li_SessionID : string;
  li_SceneType : string;
  li_Status : string;
  li_StartedAt : time;
  li_DurationSec : Z;
  li_MaterialID : option string;
}.

Record SessionListPage := mkListPage {
  lp_Items : list SessionListItem;
  lp_NextCursor : option string;
  lp_Size : Z;
}.

Record UtteranceView := mkUtteranceView {
  uv_Seq : Z;
  uv_Speaker : string;
  uv_Text : string;
}.

Record Dims := mkDims { Grammar : spec_float; Fluency : spec_float; Vocabulary : spec_float }.

Record DetailReview := mkDetailReview {
  vw_Status : string;
  vw_Score : spec_float;
  vw_Dims : option Dims;
  vw_Suggestions : list string;
}.

Record SessionDetail := mkDetail {
  sd_SessionID : string;
  sd_SceneType : string;
  sd_Status : string;
  sd_StartedAt : time;
  sd_DurationSec : Z;
  sd_MaterialID : option string;
  sd_Materials : list string;
  sd_Utterances : list UtteranceView;
  sd_Review : option DetailReview;
}.

Record Cursor := mkCursor { c_StartedAt : time; c_ID : string }.

Definition ReviewPollFailed : string := "failed".

(** session.EvalSummary *)
Record EvalSummary := mkEvalSummary {
  es_Score : spec_float;
  es_Dims : Dims;
  es_Suggestions : list string;
  es_UtteranceN : Z;
  es_Complete : bool;
}.

(** ** cursor.go *)

(** [Time.MarshalJSON]: a year of more than four digits is an error. *)
Definition marshal_time (t : time) : option json :=
  let y := (civil_of_day (unix_day t)).1.1 in
  if (0 <=? y) && (y <=? 9999) then Some (JStr (to_bytes (format_rfc3339nano t))) else None.

(** [Time.UnmarshalJSON] reads the literal as it stands, without unquoting it. *)
Definition dec_time (old : time) (v : json) : result json_error time :=
  match v with
  | JNull => Ok old
  | JStr lit => match parse_rfc3339 (of_bytes lit) with Some t => Ok t | None => Err TypeMismatch end
  | _ => Err TypeMismatch
  end.

Definition cursor_fields : list string := ["started_at"; "id"]%string.

Definition set_cursor (f : string) (c : Cursor) (v : json) : result json_error Cursor :=
  if String.eqb f "started_at" then
    match dec_time (c_StartedAt c) v with Ok t => Ok (mkCursor t (c_ID c)) | Err e => Err e end
  else on_string (c_ID c) v (fun id => mkCursor (c_StartedAt c) id).

Definition marshal_error : error := Errorf "json: error calling MarshalJSON for type time.Time".

Definition encodeCursor (c : Cursor) : result error string :=
  match marshal_time (c_StartedAt c) with
  | None => Err marshal_error
  | Some started =>
      let raw := text (JObj [(to_bytes "started_at", started); (to_bytes "id", JStr (quote (c_ID c)))]) in
      Ok (EncodeToString b64url (byte_values raw))
  end.

Definition decodeCursor (s : string) : result error Cursor :=
  let s := TrimSpace s in
  if String.eqb s "" then Err (Errorf "empty cursor") else
  match DecodeString b64url s with
  | None => Err (Errorf "invalid cursor")
  | Some raw =>
      match Unmarshal cursor_fields set_cursor (mkCursor zero_time "") (of_bytes (map byte_of raw)) with
      | (_, Some _) => Err (Errorf "invalid cursor")
      | (c, None) =>
          if String.eqb (c_ID c) "" || IsZero (c_StartedAt c) then Err (Errorf "invalid cursor") else Ok c
      end
  end.

(** ** service.go *)

(** The calls of the service: the session store, and the summary of an
    evaluation, which may be absent. *)
Inductive historyE : Type -> Type :=
| HDb {R : Type} (c : storeE R) : historyE R
| HSummary (sessionID : string) : historyE (result error (option EvalSummary)).

Abbreviation hprog := (program historyE).
Definition hdb {R} (c : storeE R) : hprog R := call (HDb c).

(** What the summarizer answers at each step, and what other goroutines do to
    the store before it. *)
Record HOracle := mkHOracle {
  ho_summary : nat -> string -> result error (option EvalSummary);
  ho_env : nat -> list event;
}.

Definition perform_history {R} (o : HOracle) (e : historyE R) (n : nat) (s : MemoryStore) : R * MemoryStore :=
  match e in historyE R return R * MemoryStore with
  | HDb c => handle c (run (ho_env o n) s)
  | HSummary id => (ho_summary o n id, s)
  end.

#[export] Instance runs_history : Runs HOracle historyE MemoryStore := @perform_history.

Definition toListItem (x : Session) : SessionListItem :=
  mkListItem (s_ID x) (s_SceneType x) (s_Status x) (s_CreatedAt x) (s_DurationSec x) (s_MaterialID x).

Definition toUtteranceViews (us : list Utterance) : list UtteranceView :=
  map (fun u => mkUtteranceView (u_Seq u) (u_Speaker u) (u_Text u)) us.

(** The loop over one row more than the page: row [size] only shows that there
    is a next page. *)
Definition page_of (size : Z) (rows : list Session) : result error SessionListPage :=
  let items := map toListItem (take (Z.to_nat size) rows) in
  match drop (Z.to_nat size) rows, last (take (Z.to_nat size) rows) with
  | _ :: _, Some x =>
      match encodeCursor (mkCursor (s_CreatedAt x) (s_ID x)) with
      | Err e => Err e
      | Ok token => Ok (mkListPage items (Some token) size)
      end
  | _, _ => Ok (mkListPage items None size)
  end.

Definition page_size (size : Z) : Z := if (size <? 1) || (MaxPageSize <? size) then DefaultPageSize else size.

Definition List_ (userID cursor : string) (size : Z) : hprog (result error SessionListPage) :=
  let userID := TrimSpace userID in
  if String.eqb userID "" then Ret (Err (Api (Unauthenticated "missing authenticated user"))) else
  let size := page_size size in
  let last :=
    if String.eqb (TrimSpace cursor) "" then Ok (None, ""%string)
    else match decodeCursor cursor with
         | Err _ => Err (Api (InvalidArgument "invalid cursor"))
         | Ok c => Ok (Some (c_StartedAt c), c_ID c)
         end in
  match last with
  | Err e => Ret (Err e)
  | Ok (lastStarted, lastID) =>
      rows <- hdb (EListSessions userID lastStarted lastID (size + 1));
      Ret (page_of size rows)
  end.

(** [has_eval]: whether the service was given a summarizer. *)
Definition detailReview (has_eval : bool) (sess : Session) : hprog (result error (option DetailReview)) :=
  failed <- hdb (EHasSessionJob (s_ID sess) JobTypeSessionFinished [JobStatusFailed]);
  if failed : bool then Ret (Ok (Some (mkDetailReview ReviewPollFailed (S754_zero false) None []))) else
  if negb (String.eqb (s_Status sess) StatusReviewed) || negb has_eval then Ret (Ok None) else
  summary <-! call (HSummary (s_ID sess));
  match summary with
  | Some x =>
      if es_Complete x
      then Ret (Ok (Some (mkDetailReview ReviewPollReady (es_Score x) (Some (es_Dims x)) (es_Suggestions x))))
      else Ret (Ok None)
  | None => Ret (Ok None)
  end.

Definition GetDetail (has_eval : bool) (userID sessionID : string) : hprog (result error SessionDetail) :=
  let userID := TrimSpace userID in
  let sessionID := TrimSpace sessionID in
  if String.eqb userID "" then Ret (Err (Api (Unauthenticated "missing authenticated user"))) else
  if String.eqb sessionID "" then Ret (Err (Api (InvalidArgument "session_id is required"))) else
  got <- hdb (EGetSession sessionID);
  match got with
  | Err e =>
      if Is e ErrNotFound then Ret (Err (Api (NotFound "session not found"))) else Ret (Err e)
  | Ok sess =>
      if negb (String.eqb (s_UserID sess) userID)
      then Ret (Err (Api (PermissionDenied "session not owned by caller")))
      else if bool_decide (is_Some (s_DeletedAt sess)) then Ret (Err (Api (NotFound "session not found")))
      else
        utts <- hdb (EListUtterances sessionID);
        match (match utts with Ok us => Ok us | Err e => if Is e ErrNotFound then Ok [] else Err e end) with
        | Err e => Ret (Err e)
        | Ok us =>
            review <- detailReview has_eval sess;
            Ret (Ok (mkDetail (s_ID sess) (s_SceneType sess) (s_Status sess) (s_CreatedAt sess)
                       (s_DurationSec sess) (s_MaterialID sess) [] (toUtteranceViews us)
                       (match review with Ok r => r | Err _ => None end)))
        end
  end.

(** * What the session history guarantees

    A cursor is read back as what it was made from.  Following the cursors
    shows every session of the learner exactly once, newest first; and while
    other requests change the store between the pages, a session that stays is
    still shown exactly once. *)


(** ** Cursors *)

(** What a cursor can hold: an identifier that is text, and a time of a year of
    at most four digits that is not the zero time. *)
Definition cursor_ok (c : Cursor) : Prop :=
  c_ID c <> ""%string /\ valid_utf8 (c_ID c) /\ c_StartedAt c <> zero_time /\
  0 <= (civil_of_day (unix_day (c_StartedAt c))).1.1 <= 9999.

Lemma plain_lit_ok x : Forall plain x -> lit_ok x.
Proof. intros H r. rewrite (plain_prefix x H). cbn. by rewrite app_nil_r. Qed.

Lemma EncodeToString_graphic l : Forall is_byte l -> Forall graphic (to_bytes (EncodeToString b64url l)).
Proof.
  intros Hl. unfold EncodeToString. rewrite list_ascii_of_string_of_list_ascii, <- b64_url_encode.
  apply Forall_app. split; [by apply b64_bytes_graphic|]. unfold b64_padding. repeat case_match; by repeat constructor.
Qed.

Lemma EncodeToString_nonempty l : l <> [] -> EncodeToString b64url l <> ""%string.
Proof. destruct l as [|a [|b [|c l]]]; done. Qed.

Definition cursor_json (c : Cursor) : json :=
  JObj [(to_bytes "started_at", JStr (to_bytes (format_rfc3339nano (c_StartedAt c))));
        (to_bytes "id", JStr (quote (c_ID c)))].

Lemma cursor_json_ok c : json_ok max_depth (cursor_json c).
Proof.
  cbn -[quote format_rfc3339nano list_ascii_of_string]. repeat split.
  - apply plain_lit_ok. eapply Forall_impl; [apply format_bytes|]. apply time_byte_plain.
  - apply quote_lit_ok.
Qed.

Lemma cursor_unmarshal c : cursor_ok c ->
  Unmarshal cursor_fields set_cursor (mkCursor zero_time "") (text (cursor_json c)) = (c, None).
Proof.
  intros (_ & Hu & _ & Hy). unfold Unmarshal. rewrite parse_text by apply cursor_json_ok.
  unfold cursor_json, dec_struct. cbn [foldl fst snd].
  change (resolve cursor_fields (unquote (to_bytes "started_at"))) with (Some "started_at"%string).
  change (resolve cursor_fields (unquote (to_bytes "id"))) with (Some "id"%string).
  unfold set_cursor. cbn [String.eqb Ascii.eqb Bool.eqb dec_time on_string dec_string c_StartedAt].
  rewrite string_of_list_ascii_of_string, parse_format by done. cbn [fst snd c_StartedAt c_ID].
  unfold on_string. cbn [dec_string]. rewrite unquote_quote, Hu. by destruct c.
Qed.

Lemma cursor_roundtrip c : cursor_ok c ->
  exists token, encodeCursor c = Ok token /\ TrimSpace token = token /\ token <> ""%string /\
    decodeCursor token = Ok c.
Proof.
  intros Hc. pose proof Hc as (Hid & Hu & Hz & Hy). unfold encodeCursor, marshal_time.
  replace ((0 <=? _) && _) with true by lia. fold (cursor_json c).
  set (raw := byte_values (text (cursor_json c))). assert (Forall is_byte raw) as Hr by apply byte_values_ok.
  assert (raw <> []) as Hne by done.
  eexists. split; [done|].
  assert (TrimSpace (EncodeToString b64url raw) = EncodeToString b64url raw) as Ht
    by (by apply TrimSpace_graphic, EncodeToString_graphic).
  split; [done|]. split; [by apply EncodeToString_nonempty|]. unfold decodeCursor. rewrite Ht.
  pose proof (EncodeToString_nonempty raw Hne) as Hne'. apply String.eqb_neq in Hne' as ->.
  rewrite (DecodeString_EncodeToString b64url b64url_alphabet eq_refl raw Hr). subst raw.
  rewrite of_byte_values, cursor_unmarshal by done.
  apply String.eqb_neq in Hid as ->. unfold IsZero. by apply Z.eqb_neq in Hz as ->.
Qed.

(** ** One page *)

(** The sessions a page starts from: all of them, or those after a cursor. *)
Definition rows_after (u : string) (c : option Cursor) (s : MemoryStore) : list Session :=
  sort_Slice newer (List.filter
    (listed u (c_StartedAt <$> c) (match c with Some c => c_ID c | None => "" end)) (all_sessions s)).

(** The query string stands for no cursor, or for one. *)
Definition reads (token : string) (c : option Cursor) : Prop :=
  match c with
  | None => TrimSpace token = ""%string
  | Some c => TrimSpace token <> ""%string /\ decodeCursor token = Ok c
  end.

(** Every stored session can be a cursor. *)
Definition cursors_ok (s : MemoryStore) : Prop :=
  map_Forall (fun _ x => cursor_ok (mkCursor (s_CreatedAt x) (s_ID x))) (sessions s).

Lemma rows_after_elem u c s x : sessions_keyed s ->
  x ∈ rows_after u c s <-> sessions s !! s_ID x = Some x /\
    listed u (c_StartedAt <$> c) (match c with Some c => c_ID c | None => "" end) x = true.
Proof.
  intros Hk. unfold rows_after. rewrite sort_Slice_Permutation, list_elem_of_In, filter_In, <- list_elem_of_In.
  by rewrite all_sessions_elem.
Qed.

Lemma page_size_bounds size : 1 <= page_size size <= MaxPageSize.
Proof. unfold page_size, MaxPageSize, DefaultPageSize. destruct ((size <? 1) || (100 <? size)) eqn:E; lia. Qed.

Definition cursor_of (x : Session) : Cursor := mkCursor (s_CreatedAt x) (s_ID x).

(** There is a next page when rows are left. *)
Definition rows_left (k : nat) (rows : list Session) : bool :=
  match drop k rows with [] => false | _ => true end.

(** What the page that starts with [rows] holds. *)
Definition page_shows (k : nat) (rows : list Session) (page : SessionListPage) : Prop :=
  lp_Items page = map toListItem (take k rows) /\
  match next_of cursor_of k (rows_left k) rows with
  | None => lp_NextCursor page = None
  | Some c => exists token, lp_NextCursor page = Some token /\ reads token (Some c)
  end.

Lemma page_of_rows size rows : 1 <= size -> Forall (fun x => cursor_ok (cursor_of x)) rows ->
  exists page, page_of size (take (Z.to_nat (size + 1)) rows) = Ok page /\ page_shows (Z.to_nat size) rows page.
Proof.
  intros Hs Hr. replace (Z.to_nat (size + 1)) with (S (Z.to_nat size)) by lia. unfold page_of, page_shows.
  set (k := Z.to_nat size). assert (0 < k)%nat as Hk by lia. clearbody k.
  rewrite take_take, Nat.min_l, skipn_firstn_comm by lia. replace (S k - k)%nat with 1%nat by lia.
  unfold next_of, rows_left. destruct (drop k rows) as [|y rest] eqn:Hd.
  - rewrite take_nil. by eexists.
  - cbn [take]. destruct (last (take k rows)) as [x|] eqn:Hx; [|by eexists].
    assert (cursor_ok (cursor_of x)) as Hc.
    { rewrite Forall_forall in Hr. apply Hr. apply last_Some in Hx as [l Hl].
      rewrite <- (take_drop k rows), Hl. rewrite !elem_of_app, list_elem_of_singleton. auto. }
    destruct (cursor_roundtrip _ Hc) as (token & E & Ht & Hne & Hdec). fold (cursor_of x). rewrite E.
    eexists. split; [done|]. split; [done|]. exists token. split; [done|]. split; [congruence|done].
Qed.

Lemma page_run o u token c size n s :
  TrimSpace u <> ""%string -> reads token c -> sessions_keyed (run (ho_env o n) s) ->
  cursors_ok (run (ho_env o n) s) ->
  exists page, run_prog o (List_ u token size) n s = (Ok page, S n, run (ho_env o n) s) /\
    page_shows (Z.to_nat (page_size size)) (rows_after (TrimSpace u) c (run (ho_env o n) s)) page.
Proof.
  intros Hu Hc Hk Hw. set (s' := run (ho_env o n) s) in *.
  destruct (page_of_rows (page_size size) (rows_after (TrimSpace u) c s')) as (page & E & Hpage).
  - apply page_size_bounds.
  - apply Forall_forall. intros x [Hx _]%rows_after_elem; [|done]. by apply (Hw _ _ Hx).
  - exists page. split; [|done]. pose proof (page_size_bounds size) as Hs.
    unfold List_. apply String.eqb_neq in Hu as ->. rewrite <- E. unfold rows_after in E |- *.
    destruct c as [c|]; cbn [reads] in Hc.
    + destruct Hc as [Hne ->]. apply String.eqb_neq in Hne as ->. cbn. fold s'.
      by rewrite <- ListSessions_take by lia.
    + rewrite Hc. cbn. fold s'. by rewrite <- ListSessions_take by lia.
Qed.

(** ** A client that follows the cursors *)

(** The items of the pages from [token] on; [n] numbers the calls. *)
Fixpoint follow (o : HOracle) (u : string) (size : Z) (fuel n : nat) (token : string) (s : MemoryStore)
  : option (list SessionListItem) :=
  match fuel with
  | O => None
  | S fuel =>
      let '(r, n, s) := run_prog o (List_ u token size) n s in
      match r with
      | Err _ => None
      | Ok page =>
          match lp_NextCursor page with
          | None => Some (lp_Items page)
          | Some token => app (lp_Items page) <$> follow o u size fuel n token s
          end
      end
  end.

(** What other requests do to the store before call [n]. *)
Definition others (o : HOracle) (n : nat) (s : MemoryStore) : MemoryStore := run (ho_env o n) s.

Lemma run_keyed tr s : sessions_keyed s -> sessions_keyed (run tr s).
Proof. apply run_inv. intros R c t. apply sessions_keyed_step. Qed.

(** A session beyond a cursor: older, or as old with a smaller identifier. *)
Definition beyond (c : option Cursor) (x : Session) : bool :=
  match c with
  | None => true
  | Some c =>
      if negb (c_StartedAt c =? s_CreatedAt x) then After (c_StartedAt c) (s_CreatedAt x)
      else str_lt (s_ID x) (c_ID c)
  end.

Lemma listed_beyond u c x :
  listed u (c_StartedAt <$> c) (match c with Some c => c_ID c | None => "" end) x =
  listed u None "" x && beyond c x.
Proof. destruct c as [c|]; cbn [fmap option_fmap option_map]; [apply listed_after|]. by rewrite andb_true_r. Qed.

Lemma beyond_trans c x y : beyond c x = true -> newer x y = true -> beyond c y = true.
Proof.
  destruct c as [c|]; [|done]. unfold beyond, newer, After.
  destruct (Z.eqb_spec (c_StartedAt c) (s_CreatedAt x)), (Z.eqb_spec (s_CreatedAt x) (s_CreatedAt y)),
    (Z.eqb_spec (c_StartedAt c) (s_CreatedAt y)); cbn; try lia.
  intros H1 H2. by eapply str_lt_trans.
Qed.

Lemma rows_elem u c s x : sessions_keyed s ->
  x ∈ rows_after u c s <-> sessions s !! s_ID x = Some x /\ listed u None "" x = true /\ beyond c x = true.
Proof. intros Hk. rewrite rows_after_elem, listed_beyond, andb_true_iff by done. done. Qed.

Lemma rows_next u c s pre x post : sessions_keyed s ->
  rows_after u c s = pre ++ x :: post -> rows_after u (Some (cursor_of x)) s = post.
Proof.
  intros Hk HL. assert (beyond c x = true) as Hx.
  { apply (rows_elem u c s x Hk). rewrite HL, elem_of_app. right. left. }
  eapply (sorted_after _); [by apply all_sessions_separated|by apply all_sessions_NoDup| |exact HL].
  intros y. rewrite !listed_beyond, <- andb_assoc. f_equal. change (beyond (Some (cursor_of x)) y) with (newer x y).
  destruct (newer x y) eqn:E; [|by rewrite andb_false_r]. by rewrite (beyond_trans c x y).
Qed.

Lemma rows_left_no k R : rows_left k R = false -> drop k R = [].
Proof. unfold rows_left. by destruct (drop k R). Qed.

Lemma rows_left_yes k R : (0 < k)%nat -> rows_left k R = true -> take k R <> [].
Proof. unfold rows_left. intros Hk H. destruct k, R; done || lia. Qed.

(** The client is shown the walk along the rows. *)
Lemma follow_walk o u size st : TrimSpace u <> ""%string ->
  (forall m, sessions_keyed (st m)) -> (forall m, cursors_ok (st m)) ->
  forall fuel m n token c s, (forall i, read_state (others o) n s i = st (m + i)%nat) -> reads token c ->
  let k := Z.to_nat (page_size size) in
  follow o u size fuel n token s =
  map toListItem <$> Paging.walk (rows_after (TrimSpace u)) cursor_of k (rows_left k) st fuel m c.
Proof.
  intros Hu Hk Hw. induction fuel as [|fuel IH]; intros m n token c s Hst Hc k; [done|].
  pose proof (Hst 0%nat) as H0. cbn [read_state] in H0. unfold others in H0. rewrite Nat.add_0_r in H0.
  pose proof (page_run o u token c size n s Hu Hc) as Hp. rewrite H0 in Hp.
  destruct (Hp (Hk m) (Hw m)) as (page & E & Hi & Hn). fold k in Hi, Hn. cbn [follow Paging.walk]. rewrite E. cbn [fst snd].
  destruct (next_of cursor_of k (rows_left k) (rows_after (TrimSpace u) c (st m))) as [c'|].
  - destruct Hn as (token' & -> & Hr). rewrite (IH (S m) (S n) token' (Some c') (st m)), Hi; [|intros i|done].
    + fold k. destruct (Paging.walk _ _ _ _ _ _ _ _); cbn; by rewrite ?map_app.
    + rewrite <- H0. replace (S m + i)%nat with (m + S i)%nat by lia. apply (Hst (S i)).
  - rewrite Hn, Hi. done.
Qed.

(** ** While the store changes *)

(** How often a session is among the items. *)
Definition shown_times (id : string) (items : list SessionListItem) : nat :=
  occ (fun i => String.eqb (li_SessionID i) id) items.

(** [x0] is stored under its identifier, with its time, and listed for [u]. *)
Definition stays (u : string) (x0 : Session) (s : MemoryStore) : Prop :=
  exists x, sessions s !! s_ID x0 = Some x /\ listed u None "" x = true /\ s_CreatedAt x = s_CreatedAt x0.

Lemma shown_rows u c s x0 : sessions_keyed s -> stays u x0 s ->
  occ (fun x => String.eqb (s_ID x) (s_ID x0)) (rows_after u c s) = if beyond c x0 then 1%nat else 0%nat.
Proof.
  intros Hk (x & Hx & Hl & Ht). pose proof (Hk _ _ Hx) as Hid. cbn in Hid.
  assert (beyond c x0 = beyond c x) as -> by (unfold beyond; by rewrite Hid, Ht).
  assert (NoDup (rows_after u c s)) as Hnd.
  { unfold rows_after. rewrite sort_Slice_Permutation.
    by apply NoDup_ListNoDup, List.NoDup_filter, NoDup_ListNoDup, all_sessions_NoDup. }
  rewrite <- Hid. destruct (occ_key s_ID (rows_after u c s) x Hnd) as [H1 H0].
  { intros y [Hy _]%rows_elem E; [|done]. rewrite E, Hid in Hy. congruence. }
  destruct (beyond c x) eqn:Hb; [apply H1|apply H0]; rewrite rows_elem, Hid by done; [done|].
  rewrite Hb. naive_solver.
Qed.

Lemma shown_occ id l : shown_times id (map toListItem l) = occ (fun x => String.eqb (s_ID x) id) l.
Proof.
  unfold shown_times, occ. induction l as [|x l IH]; [done|]. cbn. case_match; cbn; by rewrite IH.
Qed.

(** C30: A client that follows the cursors of [GET /sessions] reaches the last
    page once the other requests come to rest, whatever page size it asks for,
    and has then been shown every session that was listed throughout exactly
    once, although others were created, hidden or moved between its pages; with
    nobody else at work it has been shown exactly the learner's undeleted
    sessions, newest first. *)
Theorem history_shows_each_session_once o u size rest s :
  TrimSpace u <> ""%string -> sessions_keyed s ->
  (forall m, cursors_ok (read_state (others o) 0 s m)) ->
  (forall m, (rest <= m)%nat -> ho_env o m = []) ->
  (exists fuel items, follow o u size fuel 0 "" s = Some items /\
     forall x0, (forall m, stays (TrimSpace u) x0 (read_state (others o) 0 s m)) -> shown_times (s_ID x0) items = 1%nat) /\
  ((forall m, ho_env o m = []) ->
     follow o u size (S (base.size (sessions s))) 0 "" s = Some (map toListItem (listing (TrimSpace u) s)) /\
     StronglySorted (not_after newer) (listing (TrimSpace u) s) /\
     forall x, x ∈ listing (TrimSpace u) s <->
       sessions s !! s_ID x = Some x /\ s_UserID x = TrimSpace u /\ s_DeletedAt x = None).
Proof.
  intros Hu Hk Hw Hq. set (st := read_state (others o) 0 s).
  assert (forall m, sessions_keyed (st m)) as Hkeyed by (intros m; apply read_state_keeps; [|done]; intros n t; apply run_keyed).
  set (k := Z.to_nat (page_size size)).
  assert (0 < k)%nat as Hpos by (pose proof (page_size_bounds size); lia).
  assert (forall fuel, follow o u size fuel 0 "" s =
            map toListItem <$> Paging.walk (rows_after (TrimSpace u)) cursor_of k (rows_left k) st fuel 0 None) as Hfollow
    by (intros fuel; by apply follow_walk).
  pose proof (rows_left_no k) as Hno. assert (forall R, rows_left k R = true -> take k R <> []) as Hyes
    by (intros R; by apply rows_left_yes).
  assert (forall m c pre x post, rows_after (TrimSpace u) c (st m) = pre ++ x :: post ->
            rows_after (TrimSpace u) (Some (cursor_of x)) (st m) = post) as Hnext
    by (intros m c pre x post; by apply rows_next).
  split.
  - destruct (walk_ends _ cursor_of k _ st Hno Hyes Hnext rest 0 None) as (fuel & items & Hf).
    { intros i Hi. apply read_state_quiet; [|lia]. intros j t Hj. unfold others. by rewrite Hq. }
    exists fuel, (map toListItem items). rewrite Hfollow, Hf. split; [done|]. intros x0 Hx. rewrite shown_occ.
    eapply (walk_once _ _ _ _ st Hno Hyes Hnext _ (fun c => if beyond c x0 then 1%nat else 0%nat)) in Hf; [done|].
    intros m c. apply shown_rows; [done|apply Hx].
  - intros Halone. destruct (listing_shape (TrimSpace u) s Hk) as (Hp & Hss & _).
    assert (st 0%nat = s) as H0 by (unfold st; cbn; unfold others; by rewrite Halone). split; [|split; [done|]].
    + rewrite Hfollow, (walk_quiet _ cursor_of k _ st Hno Hyes Hnext), H0; [done| |].
      * intros i _. unfold st. apply read_state_quiet; [|lia]. intros j t Hj. unfold others. by rewrite Halone.
      * rewrite H0. change (rows_after (TrimSpace u) None s) with (listing (TrimSpace u) s). rewrite Hp.
        apply Nat.lt_succ_r. etransitivity; [apply List.filter_length_le|].
        unfold all_sessions. by rewrite length_fmap, length_map_to_list.
    + intros x. change (listing (TrimSpace u) s) with (rows_after (TrimSpace u) None s).
      rewrite rows_elem by done. unfold listed. cbn [beyond].
      rewrite andb_true_r, andb_true_iff, String.eqb_eq, negb_true_iff, bool_decide_eq_false, <- eq_None_not_Some.
      naive_solver.
Qed.

(** Two sessions are listed one to a page while a third request adds one. *)
Definition listed_session (id : string) (t : time) : Session :=
  mkSession id "u1" None "demo" "short" StatusCreated 0 "" t t None.

Definition adds_one : HOracle :=
  mkHOracle (fun _ _ => Ok None)
    (fun n => if (n =? 1)%nat then [ev (ECreateSession (listed_session "s9" (1774961807 * Second)))] else []).

Definition two_listed : MemoryStore :=
  set_sessions (<["s2" := listed_session "s2" (1774961806 * Second)]>
                {[ "s1" := listed_session "s1" (1774961805 * Second) ]})%string NewMemoryStore.

Definition three_listed : MemoryStore := run (ho_env adds_one 1) two_listed.

Lemma adds_one_states m : read_state (others adds_one) 0 two_listed m = match m with O => two_listed | S _ => three_listed end.
Proof.
  assert (forall m n s, (2 <= n)%nat -> read_state (others adds_one) n s m = s) as Hrest.
  { assert (forall n s, (2 <= n)%nat -> others adds_one n s = s) as Hid.
    { intros n s Hn. unfold others. cbn [ho_env adds_one].
      replace (n =? 1)%nat with false by (symmetry; by apply Nat.eqb_neq; lia). done. }
    induction m0 as [|m0 IH]; intros n s Hn; cbn [read_state]; rewrite Hid by done; [done|]. apply IH. lia. }
  destruct m as [|[|m]]; [done..|]. change (read_state (others adds_one) 2 three_listed m = three_listed). by apply Hrest.
Qed.

(** A concrete session can be a cursor. *)
Ltac listed_ok :=
  split; [done|split; [vm_compute; reflexivity|split; [vm_compute; discriminate|vm_compute; split; discriminate]]].

Lemma history_shows_each_session_once_witness :
  exists fuel items, follow adds_one " u1 " 1 fuel 0 "" two_listed = Some items /\ shown_times "s1" items = 1%nat.
Proof.
  destruct (history_shows_each_session_once adds_one " u1 " 1 2 two_listed) as [(fuel & items & Hf & Hx) _].
  - done.
  - apply map_Forall_insert_2; [done|]. by apply map_Forall_singleton.
  - assert (cursors_ok two_listed) as H2.
    { apply map_Forall_insert_2; [listed_ok|]. apply map_Forall_singleton. listed_ok. }
    intros m. rewrite adds_one_states. destruct m; [done|].
    change (map_Forall (fun _ x => cursor_ok (mkCursor (s_CreatedAt x) (s_ID x)))
              (<["s9"%string := listed_session "s9" (1774961807 * Second)]> (sessions two_listed))).
    apply map_Forall_insert_2; [listed_ok|done].
  - intros m Hm. cbn. replace (m =? 1)%nat with false; [done|]. symmetry. apply Nat.eqb_neq. lia.
  - exists fuel, items. split; [done|]. apply (Hx (listed_session "s1" (1774961805 * Second))).
    intros m. rewrite adds_one_states. exists (listed_session "s1" (1774961805 * Second)). by destruct m.
Defined.
