(* ===== verification/Effects.v ===== *)
(** * Service methods as programs

    A service method interleaves calls of the session store with readings of
    the clock, fresh identifiers, random bytes and calls of the components the
    service was wired with.  [prog] is the tree of those calls; [run_prog] runs
    it against the memory store, an oracle for everything outside, and an
    environment: before every store call, other goroutines may make any finite
    number of store calls of their own.  With [alone] nobody interferes. *)
From S2P Require Import Prelude Prog GoString GoTime GoSort ApiErr AICost Session SessionLaws.

Open Scope Z_scope.

(** reviewgen.StuckEvent *)
Record StuckEvent := mkStuckEvent {
  se_Seq : Z;
  se_TurnID : string;
  se_Level : Z;
  se_Path : string;
  se_Ladder : string;
  se_UserOpened : bool;
  se_Anchor : string;
}.

(** reviewgen.Request *)
Record GenRequest := mkGenRequest {
  g_SessionID : string;
  g_UserID : string;
  g_SceneType : string;
  g_Transcript : string;
  g_StuckEvents : list StuckEvent;
}.

(** reviewgen.Result without the accounting fields the session ignores. *)
Record GenResult := mkGenResult {
  g_Review : string;
  g_Refine : string;
  g_Generator : string;
}.

(** A generator error: its failure kind ([KindOf], empty when unclassified). *)
Record GenError := mkGenError { ge_kind : string; ge_text : string }.

Inductive svcE : Type -> Type :=
| Db {R : Type} (c : storeE R) : svcE R
| Now : svcE time
| NewID : svcE string
| RandRead : svcE (result error (list Z))
| MaterialText (userID materialID : string) : svcE (result error string)
| ProvisionStarterCorpus (userID : string) : svcE (result error Z)
| Generate (req : GenRequest) : svcE (result GenError GenResult)
| Evaluate (u : Utterance) : svcE string.

Abbreviation prog := (program svcE).
Definition db {R} (c : storeE R) : prog R := call (Db c).

(** Everything outside the service, at each step of the run. *)
Record Oracle := mkOracle {
  o_now : nat -> time;
  o_id : nat -> string;
  o_rand : nat -> result error (list Z);
  o_material : nat -> string -> string -> result error string;
  o_provision : nat -> string -> result error Z;
  o_generate : nat -> GenRequest -> result GenError GenResult;
  o_evaluate : nat -> Utterance -> string;
  o_env : nat -> list event;
}.

Definition alone (o : Oracle) : Prop := forall n, o_env o n = [].

(** One effect at step [n]. *)
Definition perform_svc {R} (o : Oracle) (e : svcE R) (n : nat) (s : MemoryStore)
  : R * MemoryStore :=
  match e in svcE R return R * MemoryStore with
  | Db c => handle c (run (o_env o n) s)
  | Now => (o_now o n, s)
  | NewID => (o_id o n, s)
  | RandRead => (o_rand o n, s)
  | MaterialText u m => (o_material o n u m, s)
  | ProvisionStarterCorpus u => (o_provision o n u, s)
  | Generate req => (o_generate o n req, s)
  | Evaluate u => (o_evaluate o n u, s)
  end.

#[export] Instance runs_svc : Runs Oracle svcE MemoryStore := @perform_svc.

(** A store property every call keeps is kept by every program, whatever the
    environment does. *)
Lemma run_prog_inv (P : MemoryStore -> Prop) {A} (o : Oracle) (p : prog A) n s :
  (forall R (c : storeE R) s, P s -> P (handle c s).2) -> P s ->
  P (run_prog o p n s).2.
Proof.
  intros Hstep. apply run_prog_keeps. intros R e m t HP. destruct e; cbn; try done.
  by apply Hstep, run_inv.
Qed.
