(* ===== verification/ReviewGen.v ===== *)
(** * The review generator ([internal/reviewgen])

    One call of the model for a finished session: the prompt, the decoding of
    its reply, the classification of failures and the B15 checks.  A
    [json.RawMessage] is kept as its value, whose text is the compact one.  The
    model's client is the argument [Complete]; a context deadline is not
    modelled. *)
From stdpp Require Import pretty.
From S2P Require Import Prelude Prog GoString GoUnicode GoTime GoSort GoJson GoJsonLaws GoJsonMap ApiErr AICost Session SessionLaws ReviewPayload EvalRules Effects.

Open Scope Z_scope.

(** ** Failures ([failure.go]) *)
Definition FailureInvalidRequest : string := "invalid_request".
Definition FailureEmptySession : string := "empty_session".
Definition FailureTransport : string := "transport".
Definition FailureEmptyContent : string := "empty_content".
Definition FailureTruncatedJSON : string := "truncated_json".
Definition FailureInvalidJSON : string := "invalid_json".
Definition FailureMissingFields : string := "missing_fields".
Definition FailureSchemaViolation : string := "schema_violation".

(** The error a failure wraps. *)
Inductive cause :=
| Message (text : string)
| DecodeError (e : json_error)
| ClientError (text : string).

Record GenerateError := mkGenerateError {
  gr_Kind : string;
  gr_Err : cause;
  gr_SessionID : string;
  gr_FinishReason : string;
  gr_RawContent : string;
  gr_RawBody : string;
  gr_ValidationRules : list string;
}.

Definition Raw (e : GenerateError) : string :=
  if String.eqb (gr_RawContent e) "" then gr_RawBody e else gr_RawContent e.

(** The key and value pairs a caller logs. *)
Definition LogAttrs (e : GenerateError) : list (string * string) :=
  (if String.eqb (Raw e) "" then [] else [("raw_response"%string, Raw e)]) ++
  (if String.eqb (gr_FinishReason e) "" then [] else [("finish_reason"%string, gr_FinishReason e)]) ++
  match gr_ValidationRules e with
  | [] => []
  | rules => [("validation_rules"%string, String.concat "," rules)]
  end.

(** ** The client of the model ([internal/orchestrator/client.go]) *)
Record CompletionRequest := mkCompletionRequest {
  cq_Prompt : string;
  cq_MaxTokens : Z;
  cq_Temperature : Z;
  cq_SystemPrompt : string;
  cq_ResponseFormat : string;
  cq_Operation : string;
  cq_UserID : string;
}.

Record CompletionResponse := mkCompletionResponse {
  cp_Content : string;
  cp_FinishReason : string;
  cp_PromptTokens : Z;
  cp_OutputTokens : Z;
  cp_TotalTokens : Z;
  cp_Model : string;
  cp_LatencyMS : Z;
}.

(** ** The reply ([reviewgen.go]) *)
Record generatedDocument := mkDocument { gd_Review : option json; gd_Refine : option json }.

Record GenerateResult := mkGenerateResult {
  gt_Review : json;
  gt_Refine : json;
  gt_Generator : string;
  gt_Model : string;
  gt_TokensIn : Z;
  gt_TokensOut : Z;
}.

Definition fence : string := of_bytes (repeat (byte_of 96) 3).

Definition unfenced (raw : string) : string :=
  let trimmed := TrimSpace raw in
  let trimmed := TrimPrefix trimmed (fence +:+ "json") in
  let trimmed := TrimPrefix trimmed fence in
  let trimmed := TrimSuffix trimmed fence in
  TrimSpace trimmed.

Definition set_document (name : string) (d : generatedDocument) (v : json) : result json_error generatedDocument :=
  if String.eqb name "review" then Ok (mkDocument (Some v) (gd_Refine d))
  else Ok (mkDocument (gd_Review d) (Some v)).

Definition classifyJSONError (finishReason : string) (e : json_error) : string :=
  if EqualFold (TrimSpace finishReason) "length" then FailureTruncatedJSON else
  match e with
  | UnexpectedEnd => FailureTruncatedJSON
  | _ => FailureInvalidJSON
  end.

(** The decoded document: both parts are there. *)
Definition parseGeneratedDocument (raw finishReason : string) : result GenerateError (json * json) :=
  match Unmarshal ["review"; "refine"]%string set_document (mkDocument None None) (unfenced raw) with
  | (_, Some e) =>
      Err (mkGenerateError (classifyJSONError finishReason e) (DecodeError e) "" finishReason raw "" [])
  | (mkDocument (Some review) (Some refine), None) => Ok (review, refine)
  | (_, None) =>
      Err (mkGenerateError FailureMissingFields (Message "generated json must include review and refine")
             "" finishReason raw "" [])
  end.

Definition withSession (e : GenerateError) (sessionID : string) : GenerateError :=
  mkGenerateError (gr_Kind e) (gr_Err e) sessionID (gr_FinishReason e) (gr_RawContent e) (gr_RawBody e)
    (gr_ValidationRules e).

Definition schemaViolation (sessionID content finishReason : string) (findings : list Finding) : GenerateError :=
  let rules := map fd_Rule findings in
  mkGenerateError FailureSchemaViolation
    (Message ("generated document failed B15 validation: " +:+ String.concat "," rules))
    sessionID finishReason content "" rules.

(** ** The prompt *)
Definition line_feed : string := String (byte_of 10) EmptyString.

(** The prompt's text, double quotes written as tildes. *)
Definition systemPrompt : string :=
  TrimSpace (of_bytes (map (fun a => if Ascii.eqb a "~" then dquote else a) (to_bytes
"
You are FluentWork review-refine generator.
Return one JSON object only with exactly two top-level keys: review and refine.
Do not add any other keys.

Required output shape:
{
  ~review~: {
    ~goal_achievement~: {~met~: boolean, ~note~: string},
    ~issues~: [{~type~:~grammar|idiomatic|missing_info~,~original_quote~: string, ~hint~: string}],
    ~suggestions~: [{~text~: string}],
    ~comparisons~: [object, object, object]
  },
  ~refine~: {
    ~blocks~: [{
      ~intent_zh~: string,
      ~expression_en~: string,
      ~anchor_user_said~: string,
      ~scene_tag~: string,
      ~function_tag~: string
    }]
  }
}
Rules:
- output valid JSON only
- review must be an object, never a string
- refine must be an object, never a string
- review must contain exactly: goal_achievement, issues, suggestions, comparisons
- refine must contain exactly: blocks
- issues <= 5
- suggestions <= 3
- comparisons length 3-8
- every original_quote and anchor_user_said must be exact substrings from the transcript
- rescue_events lists the B8 ladders that fired, in order; they are the stuck points worth refining
- path=incomplete: anchor_user_said is the user's half-sentence, and expression_en is the complete expression the ladder gave (or a better one)
- path=silent with an anchor: anchor_user_said is that anchor (the user's first sentence after the ladder), and expression_en is the level-3 complete expression
- path=silent with no anchor (the user never spoke): emit no block for it, and never invent an anchor
- do not emit a block whose anchor is not in the transcript
- refine blocks: aim for 3-5 blocks (the product target); a near miss is fine, an invented anchor is not
- order refine blocks so those derived from rescue_events first, then the rest
- scene_tag must be one of: standup, review, 1on1, interview, casual; prefer the provided scene_type when it is one of these
- function_tag must be one of: object, clarify, report, propose, agree, disagree, ask, summarize, defer, commit
- keep every string concise
- when there is no issue, use [] rather than prose
- comparisons items must use keys user and better only

Example:
{
  ~review~: {
    ~goal_achievement~: {~met~: true, ~note~: ~Clear blocker and next step.~},
    ~issues~: [{~type~: ~idiomatic~, ~original_quote~: ~sync up with the team~, ~hint~: ~Prefer touch base with the team.~}],
    ~suggestions~: [{~text~: ~Use touch base with the team.~}],
    ~comparisons~: [
      {~user~: ~sync up with the team~, ~better~: ~touch base with the team~},
      {~user~: ~I am blocked on the API review~, ~better~: ~I'm blocked waiting on the API review~},
      {~user~: ~tomorrow~, ~better~: ~tomorrow morning~}
    ]
  },
  ~refine~: {
    ~blocks~: [
      {~intent_zh~: ~同步进度~, ~expression_en~: ~I'll touch base with the team tomorrow.~, ~anchor_user_said~: ~sync up with the team~, ~scene_tag~: ~standup~, ~function_tag~: ~report~},
      {~intent_zh~: ~报告阻塞~, ~expression_en~: ~I'm blocked waiting on the API review.~, ~anchor_user_said~: ~I am blocked on the API review~, ~scene_tag~: ~standup~, ~function_tag~: ~report~},
      {~intent_zh~: ~约定时间~, ~expression_en~: ~I'll touch base tomorrow morning.~, ~anchor_user_said~: ~tomorrow~, ~scene_tag~: ~standup~, ~function_tag~: ~commit~}
    ]
  }
}
"))).

Definition event_lines (event : StuckEvent) : string :=
  let path := TrimSpace (se_Path event) in
  let path := if String.eqb path "" then "silent"%string else path in
  "- seq=" +:+ pretty (se_Seq event) +:+ " level=" +:+ pretty (se_Level event) +:+ " path=" +:+ path +:+
    " user_opened=" +:+ (if se_UserOpened event then "true" else "false") +:+ line_feed +:+
  (let anchor := TrimSpace (se_Anchor event) in
   if String.eqb anchor "" then "" else "  anchor: " +:+ anchor +:+ line_feed) +:+
  (let ladder := TrimSpace (se_Ladder event) in
   if String.eqb ladder "" then "" else "  ladder: " +:+ ladder +:+ line_feed).

Definition userPrompt (req : GenRequest) : string :=
  "scene_type: " +:+ g_SceneType req +:+ line_feed +:+ "session_id: " +:+ g_SessionID req +:+ line_feed +:+
  match g_StuckEvents req with
  | [] => ""
  | events => "rescue_events:" +:+ line_feed +:+ String.concat "" (map event_lines events)
  end +:+
  "transcript:" +:+ line_feed +:+ g_Transcript req.

(** ** One generation ([orchestrator_adapter.go]) *)
Section generate.
Variable number_text : bytes -> option bytes.

Definition invalid_request (text : string) : GenerateError :=
  mkGenerateError FailureInvalidRequest (Message text) "" "" "" "" [].

(** The request as the prompt and the checks see it. *)
Definition normalized (req : GenRequest) : GenRequest :=
  let scene := TrimSpace (g_SceneType req) in
  mkGenRequest (TrimSpace (g_SessionID req)) (g_UserID req)
    (if bool_decide (scene ∈ SceneTags) then scene else "standup")
    (TrimSpace (g_Transcript req)) (g_StuckEvents req).

Definition Generate_ (Complete : CompletionRequest -> result string CompletionResponse) (req : GenRequest)
  : result GenerateError GenerateResult :=
  if String.eqb (TrimSpace (g_SessionID req)) "" then Err (invalid_request "session_id is required") else
  if String.eqb (TrimSpace (g_SceneType req)) "" then Err (invalid_request "scene_type is required") else
  let req := normalized req in
  if String.eqb (g_Transcript req) "" then
    Err (mkGenerateError FailureEmptySession (Message "transcript is required") (g_SessionID req) "" "" "" [])
  else
  match Complete (mkCompletionRequest (userPrompt req) 800 0 systemPrompt "json_object" "reviewgen.generate"
                    (g_UserID req)) with
  | Err e => Err (mkGenerateError FailureTransport (ClientError e) (g_SessionID req) "" "" "" [])
  | Ok resp =>
      let content := TrimSpace (cp_Content resp) in
      if String.eqb content "" then
        Err (mkGenerateError FailureEmptyContent (Message "orchestrator response missing content")
               (g_SessionID req) (cp_FinishReason resp) "" "" [])
      else
      match parseGeneratedDocument content (cp_FinishReason resp) with
      | Err e => Err (withSession e (g_SessionID req))
      | Ok (review, refine) =>
          match ValidateSample number_text (mkSample (g_SessionID req) (g_Transcript req) review refine) with
          | [] => Ok (mkGenerateResult review refine "orchestrator-review-refine-v1" (cp_Model resp)
                        (cp_PromptTokens resp) (cp_OutputTokens resp))
          | findings => Err (schemaViolation (g_SessionID req) content (cp_FinishReason resp) findings)
          end
      end
  end.

(** What the session service sees of it. *)
Definition session_result (r : result GenerateError GenerateResult) : result GenError GenResult :=
  match r with
  | Ok r => Ok (mkGenResult (text (gt_Review r)) (text (gt_Refine r)) (gt_Generator r))
  | Err e => Err (mkGenError (gr_Kind e) (Raw e))
  end.
End generate.
