(* ===== verification/SessionService.v ===== *)
(** * The session service (internal/session/service.go, voice_cost.go)

    Creating sessions and tickets, the gateway's handshake, activation and end
    report, continuation context, review polling and the text fallback, as
    programs over the store.  Logging is left out, and so is the summary of the
    turn evaluations a ready review carries. *)
From S2P Require Import Prelude Prog GoString GoUnicode GoTime GoSort GoCrypto ApiErr AICost Session ReviewPayload ReviewView SessionLaws Effects.

Open Scope Z_scope.
Open Scope prog_scope.

Definition ReasonAbandoned : string := "abandoned".
Definition DefaultSceneType : string := "demo".
Definition SessionLengthStandard : string := "standard".
Definition SessionLengthMini : string := "mini".
Definition DefaultMiniSessionTurnLimit : Z := 5.
Definition MessageChannelText : string := "text".
Definition ReviewPollPending : string := "pending".
Definition ReviewPollFailed : string := "failed".
Definition ReviewPollEmpty : string := "empty".

Definition materialContextMaxRunes : nat := 2000.
Definition continuationDefaultLimit : Z := 6.
Definition continuationMaxLimit : Z := 20.

(** The configuration values and attachments the methods read. *)
Record Service := mkService {
  SessionTicketTTL : duration;
  VoiceGatewayWSSURL : string;
  MiniSessionTurnLimit : Z;
  has_eval : bool;
  has_reviewGen : bool;
  has_provisioner : bool;
  has_materials : bool;
}.

Record CreateRequest := mkCreateRequest {
  cr_MaterialID : option string;
  cr_SceneType : string;
  cr_SessionLength : string;
}.

Record CreateResponse := mkCreateResponse {
  cres_SessionID : string;
  cres_WSSURL : string;
  cres_Ticket : string;
  cres_TicketExpiresIn : Z;
  cres_TicketExpiresAt : time;
  cres_SceneType : string;
  cres_Status : string;
}.

Record ActivateResponse := mkActivateResponse {
  act_SessionID : string;
  act_Status : string;
  act_MaterialContext : string;
  act_TurnLimit : Z;
}.

Record ContinuationUtterance := mkContinuation {
  cu_Seq : Z;
  cu_Speaker : string;
  cu_Text : string;
}.

Record EndUtteranceItem := mkEndUtterance {
  eu_Seq : Z;
  eu_Speaker : string;
  eu_Text : string;
  eu_Interrupted : bool;
}.

Record RescueEventItem := mkRescueItem {
  ri_Seq : Z;
  ri_TurnID : string;
  ri_Level : Z;
  ri_Path : string;
  ri_Ladder : string;
  ri_UserOpened : bool;
  ri_Anchor : string;
}.

Record VoiceUsageItem := mkVoiceUsage {
  vu_UplinkMS : Z;
  vu_DownlinkMS : Z;
  vu_Model : string;
}.

Record EndRequest := mkEndRequest {
  er_SessionID : string;
  er_DurationSec : Z;
  er_Reason : string;
  er_Utterances : list EndUtteranceItem;
  er_RescueEvents : list RescueEventItem;
  er_VoiceUsage : option VoiceUsageItem;
}.

Record EndResponse := mkEndResponse {
  end_SessionID : string;
  end_Status : string;
  end_DurationSec : Z;
  end_UtteranceCount : Z;
  end_AlreadyEnded : bool;
  end_ReviewSkipped : bool;
}.

Record ReviewPollResponse := mkReviewPoll {
  rp_SessionID : string;
  rp_Status : string;
  rp_Review : string;
}.

Record PostMessageRequest := mkPostMessage { pm_Text : string; pm_Channel : string }.
Record PostMessageResponse := mkPostMessageResponse {
  pmr_SessionID : string;
  pmr_Reply : string;
  pmr_Channel : string;
  pmr_Generator : string;
}.

(** ** Validation *)

Definition id_byte (a : ascii) : bool := is_alnum a || (byte_val a =? 45).
Definition scene_byte (a : ascii) : bool :=
  is_alnum a || (byte_val a =? 46) || (byte_val a =? 95) || (byte_val a =? 45).

Definition normalizeOptionalMaterialID (raw : option string) : result error (option string) :=
  match raw with
  | None => Ok None
  | Some raw =>
      let id := TrimSpace raw in
      if String.eqb id "" then Ok None
      else if negb (match_class id_byte 1 36 id)
      then Err (Api (InvalidArgument "material_id is invalid"))
      else Ok (Some id)
  end.

Definition normalizeSceneType (raw : string) : result error string :=
  let scene := TrimSpace raw in
  if String.eqb scene "" then Ok DefaultSceneType
  else if negb (match_class scene_byte 1 64 scene)
  then Err (Api (InvalidArgument "scene_type is invalid"))
  else Ok scene.

Definition normalizeSessionLength (raw : string) : result error string :=
  let length := TrimSpace raw in
  if String.eqb length "" then Ok SessionLengthStandard
  else if String.eqb length SessionLengthStandard || String.eqb length SessionLengthMini
  then Ok length
  else Err (Api (InvalidArgument "session_length must be standard or mini")).

Definition hashTicket (raw : string) : string := hex_EncodeToString (Sum256 (byte_values raw)).

Arguments hashTicket : simpl never.

Definition randomTicket : prog (result error string) :=
  r <- call RandRead;
  match r with
  | Err err => Ret (Err (Errorf ("generate ticket: " +:+ error_text err)))
  | Ok buf => Ret (Ok (RawURLEncode buf))
  end.

(** ** Create *)

Definition Create (svc : Service) (userID : string) (req : CreateRequest)
  : prog (result error CreateResponse) :=
  if String.eqb (TrimSpace userID) ""
  then Ret (Err (Api (Unauthenticated "missing authenticated user"))) else
  materialID <-! Ret (normalizeOptionalMaterialID (cr_MaterialID req));
  sceneType <-! Ret (normalizeSceneType (cr_SceneType req));
  sessionLength <-! Ret (normalizeSessionLength (cr_SessionLength req));
  now <- call Now;
  id <- call NewID;
  let x := mkSession id userID materialID sceneType sessionLength StatusCreated 0 "" now now
             None in
  rawTicket <-! randomTicket;
  let expiresAt := Add now (SessionTicketTTL svc) in
  tid <- call NewID;
  let ticket := mkTicket tid id userID (hashTicket rawTicket) expiresAt None now in
  _u <-! db (ECreateSessionWithTicket x ticket);
  _p <- (if has_provisioner svc then call (ProvisionStarterCorpus userID) else Ret (Ok 0));
  Ret (Ok (mkCreateResponse id (VoiceGatewayWSSURL svc) rawTicket
             (Z.quot (SessionTicketTTL svc) Second) expiresAt sceneType StatusCreated)).

(** ** Handshake *)

Definition Svc_ConsumeTicket (rawTicket : string) : prog (result error Ticket) :=
  let rawTicket := TrimSpace rawTicket in
  if String.eqb rawTicket "" then Ret (Err (Api (Unauthenticated "ticket is required"))) else
  now <- call Now;
  r <- db (EConsumeTicket (hashTicket rawTicket) now);
  match r with
  | Ok t => Ret (Ok t)
  | Err err =>
      if Is err ErrNotFound then Ret (Err (Api (Unauthenticated "invalid ticket")))
      else if Is err ErrTicketUsed then Ret (Err (Api (Unauthenticated "ticket already used")))
      else if Is err ErrTicketExpired then Ret (Err (Api (Unauthenticated "ticket expired")))
      else Ret (Err err)
  end.

Definition LookupTicket (rawTicket : string) : prog (result error Ticket) :=
  Svc_ConsumeTicket rawTicket.

(** ** Activation *)

Definition turnLimit (svc : Service) (x : Session) : Z :=
  if negb (String.eqb (s_SessionLength x) SessionLengthMini) then 0
  else if MiniSessionTurnLimit svc <=? 0 then DefaultMiniSessionTurnLimit
  else MiniSessionTurnLimit svc.

Definition materialContext (svc : Service) (x : Session) : prog string :=
  if negb (has_materials svc) then Ret ""%string else
  let materialID := match s_MaterialID x with Some m => TrimSpace m | None => ""%string end in
  if String.eqb materialID "" then Ret ""%string else
  r <- call (MaterialText (s_UserID x) materialID);
  match r with
  | Err _ => Ret ""%string
  | Ok text => Ret (capRunes (TrimSpace text) materialContextMaxRunes)
  end.

Definition Activate (svc : Service) (sessionID : string)
  : prog (result error ActivateResponse) :=
  let sessionID := TrimSpace sessionID in
  if String.eqb sessionID "" then Ret (Err (Api (InvalidArgument "session_id is required"))) else
  now <- call Now;
  r <- db (EMarkSessionActive sessionID now);
  match r with
  | Err err =>
      if Is err ErrNotFound then Ret (Err (Api (NotFound "session not found")))
      else if Is err ErrConflict then Ret (Err (Api (Conflict "session cannot be activated")))
      else Ret (Err err)
  | Ok x =>
      material <- materialContext svc x;
      Ret (Ok (mkActivateResponse (s_ID x) (s_Status x) material (turnLimit svc x)))
  end.

(** ** Continuation *)

(** [GetSession] with a miss turned into the client's error. *)
Definition get_or_not_found (id : string) : prog (result error Session) :=
  r <- db (EGetSession id);
  match r with
  | Ok x => Ret (Ok x)
  | Err err => if Is err ErrNotFound then Ret (Err (Api (NotFound "session not found")))
               else Ret (Err err)
  end.

Definition clamp_limit (limit : Z) : Z :=
  let limit := if limit <=? 0 then continuationDefaultLimit else limit in
  if continuationMaxLimit <? limit then continuationMaxLimit else limit.

Definition ContinuationContext (currentSessionID previousSessionID : string) (limit : Z)
  : prog (result error (list ContinuationUtterance)) :=
  let currentSessionID := TrimSpace currentSessionID in
  let previousSessionID := TrimSpace previousSessionID in
  if String.eqb currentSessionID "" || String.eqb previousSessionID ""
  then Ret (Err (Api (InvalidArgument
         "current_session_id and previous_session_id are required"))) else
  let limit := clamp_limit limit in
  current <-! get_or_not_found currentSessionID;
  previous <-! get_or_not_found previousSessionID;
  if negb (String.eqb (s_UserID previous) (s_UserID current))
  then Ret (Err (Api (NotFound "session not found"))) else
  all <-! db (EListUtterances previousSessionID);
  let n := Z.of_nat (length all) in
  let all := if limit <? n then drop (Z.to_nat (n - limit)) all else all in
  Ret (Ok (map (fun u => mkContinuation (u_Seq u) (u_Speaker u) (u_Text u)) all)).

(** ** The end report *)

Definition hasUserSpeech (us : list Utterance) : bool :=
  existsb (fun u => String.eqb (u_Speaker u) SpeakerUser &&
                    negb (String.eqb (TrimSpace (u_Text u)) "")) us.

Definition maxUtterances : Z := 500.
Definition maxRescueEvents : Z := 200.
Definition maxTextField : nat := 512.

(** The loop of [normalizeEndUtterances]; [seen] is the set of sequence numbers
    met so far. *)
Fixpoint normalize_utterances (sessionID : string) (now : time) (seen : list Z)
    (out : list Utterance) (items : list EndUtteranceItem)
  : prog (result error (list Utterance)) :=
  match items with
  | [] => Ret (Ok out)
  | item :: items =>
      if (eu_Seq item <? 1) || (maxUtterances <? eu_Seq item)
      then Ret (Err (Api (InvalidArgument "utterance seq is out of range"))) else
      if bool_decide (eu_Seq item ∈ seen)
      then Ret (Err (Api (InvalidArgument "utterance seq must be unique"))) else
      let speaker := TrimSpace (eu_Speaker item) in
      if negb (String.eqb speaker SpeakerUser || String.eqb speaker SpeakerAI)
      then Ret (Err (Api (InvalidArgument "utterance speaker must be user or ai"))) else
      let text := TrimSpace (eu_Text item) in
      if String.eqb text ""
      then Ret (Err (Api (InvalidArgument "utterance text is required"))) else
      if 32 * 1024 <? go_len text
      then Ret (Err (Api (InvalidArgument "utterance text is too long"))) else
      id <- call NewID;
      let u := mkUtterance id sessionID (eu_Seq item) speaker text None None "" now
                 (eu_Interrupted item) in
      normalize_utterances sessionID now (eu_Seq item :: seen) (out ++ [u]) items
  end.

Definition normalizeEndUtterances (sessionID : string) (items : list EndUtteranceItem)
    (now : time) : prog (result error (list Utterance)) :=
  if (maxUtterances <? Z.of_nat (length items))
  then Ret (Err (Api (InvalidArgument "too many utterances")))
  else normalize_utterances sessionID now [] [] items.

(** The path a ladder is filed under; [None] drops it. *)
Definition rescue_path (raw : string) : option string :=
  let path := TrimSpace raw in
  if String.eqb path RescuePathIncomplete || String.eqb path RescuePathSilent then Some path
  else if String.eqb path "" then Some RescuePathSilent
  else None.

Fixpoint normalize_rescues (x : Session) (now : time) (seen : list Z)
    (out : list RescueEvent) (items : list RescueEventItem) : prog (list RescueEvent) :=
  match items with
  | [] => Ret out
  | item :: items =>
      if (ri_Seq item <? 1) || (maxRescueEvents <? ri_Seq item)
      then normalize_rescues x now seen out items else
      if bool_decide (ri_Seq item ∈ seen) then normalize_rescues x now seen out items else
      let seen := ri_Seq item :: seen in
      if (ri_Level item <? 1) || (3 <? ri_Level item)
      then normalize_rescues x now seen out items else
      match rescue_path (ri_Path item) with
      | None => normalize_rescues x now seen out items
      | Some path =>
          let anchor := TrimSpace (ri_Anchor item) in
          let anchor := if negb (ri_UserOpened item) && negb (String.eqb anchor "")
                        then ""%string else anchor in
          id <- call NewID;
          let e := mkRescueEvent id (s_ID x) (s_UserID x) (ri_Seq item)
                     (capRunes (TrimSpace (ri_TurnID item)) 64) (ri_Level item) path
                     (capRunes (TrimSpace (ri_Ladder item)) maxTextField) (ri_UserOpened item)
                     (capRunes anchor maxTextField) now in
          normalize_rescues x now seen (out ++ [e]) items
      end
  end.

Definition normalizeEndRescueEvents (x : Session) (items : list RescueEventItem) (now : time)
  : prog (list RescueEvent) :=
  if (maxRescueEvents <? Z.of_nat (length items)) then Ret []
  else normalize_rescues x now [] [] items.

Definition nullableUserID (id : string) : option string :=
  if String.eqb (TrimSpace id) "" then None else Some id.

Definition buildVoiceCostLog (x : Session) (usage : option VoiceUsageItem) (at_ : time)
  : prog (option Log) :=
  match usage with
  | None => Ret None
  | Some u =>
      let uplinkMS := Z.max (vu_UplinkMS u) 0 in
      let downlinkMS := Z.max (vu_DownlinkMS u) 0 in
      id <- call NewID;
      Ret (Some (mkLog id (nullableUserID (s_UserID x)) None TaskTypeVoiceDuplex
                   (TrimSpace (vu_Model u)) 0 0
                   (Z.quot (int64 (uplinkMS + downlinkMS)) 1000) 0 0 at_))
  end.

Definition new_job (id sessionID jobType : string) (now : time) : Job :=
  mkJob id sessionID jobType JobStatusPending 0 now None None None now now.

Definition enqueueSessionFinished (sessionID : string) (now : time) : prog (result error unit) :=
  id <- call NewID;
  db (EEnqueueJob (new_job id sessionID JobTypeSessionFinished now)).

Definition ensureSessionFinishedEnqueued (sessionID : string) (now : time)
  : prog (result error unit) :=
  exists_ <- db (EHasSessionJob sessionID JobTypeSessionFinished
                   [JobStatusPending; JobStatusProcessing; JobStatusDone]);
  if exists_ then Ret (Ok tt) else enqueueSessionFinished sessionID now.

(** internal/review/service.go *)
Definition EnqueueEval (sessionID : string) : prog (result error unit) :=
  let sessionID := TrimSpace sessionID in
  if String.eqb sessionID "" then Ret (Ok tt) else
  exists_ <- db (EHasSessionJob sessionID JobTypeSessionEval
                   [JobStatusPending; JobStatusProcessing; JobStatusDone]);
  if exists_ then Ret (Ok tt) else
  now <- call Now;
  id <- call NewID;
  db (EEnqueueJob (new_job id sessionID JobTypeSessionEval now)).

(** The optional hook, whose failure is only logged. *)
Definition enqueue_eval_hook (svc : Service) (sessionID : string) : prog unit :=
  if has_eval svc then _e <- EnqueueEval sessionID; Ret tt else Ret tt.

(** The response for a session as stored, with its transcript's size. *)
Definition end_response (x : Session) (saved : list Utterance) (already skipped : bool)
  : EndResponse :=
  mkEndResponse (s_ID x) (s_Status x) (s_DurationSec x) (Z.of_nat (length saved)) already skipped.

Definition End_ (svc : Service) (req : EndRequest) : prog (result error EndResponse) :=
  let sessionID := TrimSpace (er_SessionID req) in
  if String.eqb sessionID "" then Ret (Err (Api (InvalidArgument "session_id is required"))) else
  existing <-! get_or_not_found sessionID;
  now <- call Now;
  let terminalStatus := if String.eqb (TrimSpace (er_Reason req)) ReasonAbandoned
                        then StatusAbandoned else StatusEnded in
  if String.eqb (s_Status existing) StatusAbandoned then
    saved <-! db (EListUtterances sessionID);
    Ret (Ok (end_response existing saved true true)) else
  if String.eqb (s_Status existing) StatusReviewed then
    saved <-! db (EListUtterances sessionID);
    Ret (Ok (end_response existing saved true false)) else
  if String.eqb (s_Status existing) StatusEnded then
    saved <-! db (EListUtterances sessionID);
    if negb (hasUserSpeech saved) then Ret (Ok (end_response existing saved true true)) else
    _e <-! ensureSessionFinishedEnqueued sessionID now;
    _h <- enqueue_eval_hook svc sessionID;
    Ret (Ok (end_response existing saved true false)) else
  utterances <-! normalizeEndUtterances sessionID (er_Utterances req) now;
  rescueEvents <- normalizeEndRescueEvents existing (er_RescueEvents req) now;
  costLog <- buildVoiceCostLog existing (er_VoiceUsage req) now;
  r <- db (EEndSession sessionID terminalStatus (er_DurationSec req) utterances rescueEvents
             now costLog);
  match r with
  | Err err =>
      if Is err ErrNotFound then Ret (Err (Api (NotFound "session not found")))
      else if Is err ErrConflict then Ret (Err (Api (Conflict "session cannot be ended")))
      else Ret (Err err)
  | Ok (x, saved, alreadyEnded) =>
      if String.eqb terminalStatus StatusAbandoned
      then Ret (Ok (end_response x saved alreadyEnded true)) else
      if negb (hasUserSpeech saved)
      then Ret (Ok (end_response x saved alreadyEnded true)) else
      _e <-! ensureSessionFinishedEnqueued (s_ID x) now;
      _h <- enqueue_eval_hook svc (s_ID x);
      Ret (Ok (end_response x saved alreadyEnded false))
  end.

(** ** Review polling and the text fallback *)

Section polling.
(** How [strconv] prints a decoded number, and its value as an [int]. *)
Variable number_text : bytes -> option bytes.
Variable number_int : bytes -> Z.

Definition GetReview (userID sessionID : string) : prog (result error ReviewPollResponse) :=
  let userID := TrimSpace userID in
  let sessionID := TrimSpace sessionID in
  if String.eqb userID "" then Ret (Err (Api (Unauthenticated "missing authenticated user"))) else
  if String.eqb sessionID "" then Ret (Err (Api (InvalidArgument "session_id is required"))) else
  x <-! get_or_not_found sessionID;
  if negb (String.eqb (s_UserID x) userID)
  then Ret (Err (Api (NotFound "session not found"))) else
  if String.eqb (s_Status x) StatusAbandoned
  then Ret (Err (Api (NotFound "session not found"))) else
  empty <-! (if String.eqb (s_Status x) StatusEnded && String.eqb (s_ReviewJSON x) "" then
               us <-! db (EListUtterances sessionID);
               Ret (Ok (negb (hasUserSpeech us)))
             else Ret (Ok false));
  if (empty : bool) then Ret (Ok (mkReviewPoll (s_ID x) ReviewPollEmpty "")) else
  if String.eqb (s_Status x) StatusReviewed then
    us <-! db (EListUtterances sessionID);
    let review := canonicalizeReviewPayload number_text number_int (s_ReviewJSON x) x us in
    let review := if String.eqb review "" then "{}"%string else review in
    Ret (Ok (mkReviewPoll (s_ID x) ReviewPollReady review)) else
  failed <- db (EHasSessionJob sessionID JobTypeSessionFinished [JobStatusFailed]);
  if (failed : bool) then Ret (Ok (mkReviewPoll (s_ID x) ReviewPollFailed "")) else
  Ret (Ok (mkReviewPoll (s_ID x) ReviewPollPending "")).
End polling.

Definition PostMessage (userID sessionID : string) (req : PostMessageRequest)
  : prog (result error PostMessageResponse) :=
  let userID := TrimSpace userID in
  let sessionID := TrimSpace sessionID in
  if String.eqb userID "" then Ret (Err (Api (Unauthenticated "missing authenticated user"))) else
  if String.eqb sessionID "" then Ret (Err (Api (InvalidArgument "session_id is required"))) else
  let text := TrimSpace (pm_Text req) in
  if String.eqb text "" then Ret (Err (Api (InvalidArgument "text is required"))) else
  if 4 * 1024 <? go_len text then Ret (Err (Api (InvalidArgument "text is too long"))) else
  let channel := TrimSpace (ToLower (pm_Channel req)) in
  if negb (String.eqb channel MessageChannelText)
  then Ret (Err (Api (Conflict "voice channel is available"))) else
  x <-! get_or_not_found sessionID;
  if negb (String.eqb (s_UserID x) userID)
  then Ret (Err (Api (NotFound "session not found"))) else
  if String.eqb (s_Status x) StatusCreated || String.eqb (s_Status x) StatusActive then
    Ret (Ok (mkPostMessageResponse (s_ID x)
      "Text fallback is active. Full model replies land with the production degrade path."
      MessageChannelText "stub-text-v1"))
  else Ret (Err (Api (Conflict "session is not open for messages"))).
