(* ===== verification/SessionServiceLaws.v ===== *)
(** * What the session service guarantees

    The handshake round trip, the owner check of continuation context, what an
    end report may contain, and what an end of session leaves behind — alone and
    under interference. *)
From S2P Require Import Prelude Prog GoString GoUnicode GoTime GoSort GoCrypto ApiErr AICost Session SessionLaws Effects SessionService.

Open Scope Z_scope.
Open Scope prog_scope.

(** ** Running programs without interference *)

Section alone.
Context (o : Oracle) (Halone : alone o).

Lemma run_db {R A} (c : storeE R) (k : R -> prog A) n s :
  run_prog o (bind (db c) k) n s =
  run_prog o (k (handle c s).1) (S n) (handle c s).2.
Proof. cbn. rewrite Halone. cbn. by destruct (handle c s). Qed.

Lemma run_get id n s :
  run_prog o (get_or_not_found id) n s =
  (match sessions s !! id with
   | Some x => Ok x
   | None => Err (Api (NotFound "session not found"))
   end, S n, s).
Proof.
  unfold get_or_not_found. rewrite run_db. cbn. unfold GetSession.
  by destruct (sessions s !! id).
Qed.
End alone.

(** A program that only draws identifiers leaves the store alone. *)
Lemma run_newid {A} o (k : string -> prog A) n s :
  run_prog o (bind (call NewID) k) n s = run_prog o (k (o_id o n)) (S n) s.
Proof. done. Qed.

Lemma run_now {A} o (k : time -> prog A) n s :
  run_prog o (bind (call Now) k) n s = run_prog o (k (o_now o n)) (S n) s.
Proof. done. Qed.

Lemma run_ret_bind {A B} o (a : A) (k : A -> prog B) n s :
  run_prog o (bind (Ret a) k) n s = run_prog o (k a) n s.
Proof. done. Qed.

Lemma run_randomTicket {A} o (k : result error string -> prog A) n s :
  run_prog o (bind randomTicket k) n s =
  run_prog o (k (match o_rand o n with
                 | Ok buf => Ok (RawURLEncode buf)
                 | Err err => Err (Errorf ("generate ticket: " +:+ error_text err))
                 end)) (S n) s.
Proof. unfold randomTicket. cbn. by destruct (o_rand o n). Qed.

(** ** The ticket round trip *)

(** A fresh, unused ticket for the session [sid] until [exp]. *)
Definition waiting (h sid : string) (exp : time) (s : MemoryStore) : Prop :=
  exists t, tickets s !! h = Some t /\ t_SessionID t = sid /\ t_ExpiresAt t = exp /\
    t_UsedAt t = None.

(** Any call but the redemption of this ticket. *)
Definition not_redeeming (h : string) (e : event) : Prop :=
  match projT2 e with EConsumeTicket h' _ => h' <> h | _ => True end.

Lemma waiting_step h sid exp e s :
  not_redeeming h e -> waiting h sid exp s -> waiting h sid exp (after e s).
Proof.
  destruct e as [R c]. intros Hn (t & Ht & Hrest). unfold waiting, not_redeeming, after in *.
  cbn [projT2] in *. store_cases c; eauto;
    try (rewrite lookup_insert_ne by congruence; eauto).
  - rewrite lookup_fmap, Ht. cbn. eexists. split; [done|]. by case_match.
Qed.

Lemma waiting_run h sid exp tr s :
  Forall (not_redeeming h) tr -> waiting h sid exp s -> waiting h sid exp (run tr s).
Proof.
  intros Hn. apply foldl_keeps. intros t e He. apply waiting_step. by eapply Forall_forall.
Qed.

(** The documented contract of [crypto/rand]: on success the 32-byte buffer is
    full. *)
Definition good_rand (o : Oracle) : Prop :=
  forall n buf, o_rand o n = Ok buf -> length buf = 32%nat /\ Forall is_byte buf.

Lemma create_ok svc u req o n s resp m s1 :
  alone o -> good_rand o ->
  run_prog o (Create svc u req) n s = (Ok resp, m, s1) ->
  waiting (hashTicket (cres_Ticket resp)) (cres_SessionID resp) (cres_TicketExpiresAt resp) s1 /\
  TrimSpace (cres_Ticket resp) = cres_Ticket resp /\ cres_Ticket resp <> ""%string /\
  cres_TicketExpiresAt resp = Add (o_now o n) (SessionTicketTTL svc) /\
  exists x, sessions s1 !! cres_SessionID resp = Some x /\ s_UserID x = u /\
    s_Status x = StatusCreated /\ sessions s !! cres_SessionID resp = None.
Proof.
  intros Ha Hr. unfold Create. destruct (String.eqb_spec (TrimSpace u) ""); [done|].
  rewrite run_ret_bind. destruct (normalizeOptionalMaterialID _) as [mid|]; [|done].
  rewrite run_ret_bind. destruct (normalizeSceneType _) as [sc|]; [|done].
  rewrite run_ret_bind. destruct (normalizeSessionLength _) as [sl|]; [|done].
  rewrite run_now, run_newid, run_randomTicket.
  destruct (o_rand o (S (S n))) as [buf|] eqn:Hbuf; [|done].
  apply Hr in Hbuf as [Hlen Hbytes]. rewrite run_newid, (run_db o Ha). cbn [handle fst snd].
  set (raw := RawURLEncode buf). set (x := mkSession _ _ _ _ _ _ _ _ _ _ _).
  set (t := mkTicket _ _ _ _ _ _ _). unfold CreateSessionWithTicket.
  destruct (sessions s !! s_ID x) eqn:Hx; [done|].
  destruct (tickets s !! t_Hash t) eqn:Ht; [done|]. cbn [fst snd].
  intros Hrun.
  assert (resp = mkCreateResponse (o_id o (S n)) (VoiceGatewayWSSURL svc) raw
            (Z.quot (SessionTicketTTL svc) Second) (Add (o_now o n) (SessionTicketTTL svc)) sc
            StatusCreated /\
          s1 = set_tickets (<[t_Hash t := t]> (tickets s))
                 (set_sessions (<[s_ID x := x]> (sessions s)) s)) as [-> ->]
    by (destruct (has_provisioner svc); cbn in Hrun; injection Hrun as <- _ <-; by split).
  split; [exists t; split; [apply lookup_insert_eq|done]|].
  split; [by apply RawURLEncode_trim|].
  split; [apply RawURLEncode_nonempty; by destruct buf|]. split; [done|].
  exists x. split; [apply lookup_insert_eq|done].
Qed.

(** The ticket of a created session opens it: presented to the handshake as it
    was returned, before its expiry, and after any other activity on the store
    that does not redeem it, it is accepted and names the session — and is then
    spent.  The creation and the handshake each run alone. *)
Theorem created_ticket_opens_session svc u req o n s resp m s1 tr o' k :
  alone o -> good_rand o -> alone o' ->
  run_prog o (Create svc u req) n s = (Ok resp, m, s1) ->
  Forall (not_redeeming (hashTicket (cres_Ticket resp))) tr ->
  o_now o' k < Add (o_now o n) (SessionTicketTTL svc) ->
  exists t k' s2,
    run_prog o' (Svc_ConsumeTicket (cres_Ticket resp)) k (run tr s1) = (Ok t, k', s2) /\
    t_SessionID t = cres_SessionID resp /\
    used (hashTicket (cres_Ticket resp)) s2.
Proof.
  intros Ha Hr Ha' Hc Htr Hnow.
  destruct (create_ok _ _ _ _ _ _ _ _ _ Ha Hr Hc) as (Hw & Htrim & Hne & Hexp & _).
  apply (waiting_run _ _ _ tr) in Hw; [|done]. destruct Hw as (t & Ht & Hs & He & Hu).
  unfold Svc_ConsumeTicket. rewrite Htrim.
  destruct (String.eqb_spec (cres_Ticket resp) ""); [done|].
  rewrite run_now, (run_db o' Ha'). cbn [handle].
  unfold ConsumeTicket. rewrite Ht, Hu, He, Hexp.
  replace (negb (After _ _)) with false by (unfold After; lia). cbn.
  do 3 eexists. split; [done|]. split; [done|]. unfold used. cbn.
  rewrite lookup_insert_eq. eauto.
Qed.

Definition demo_service : Service := mkService (60 * Second) "wss://gw" 0 false false false false.
Definition demo_oracle (t : time) : Oracle :=
  mkOracle (fun _ => t) (fun n => String (byte_of (65 + Z.of_nat n)) EmptyString)
    (fun _ => Ok (repeat 7 32)) (fun _ _ _ => Ok ""%string) (fun _ _ => Ok 0)
    (fun _ _ => Err (mkGenError "transport" "x")) (fun _ _ => ""%string) (fun _ => []).

Lemma created_ticket_opens_session_witness :
  exists t k' s2,
    run_prog (demo_oracle 5) (Svc_ConsumeTicket (RawURLEncode (repeat 7 32))) 0
      (run_prog (demo_oracle 0) (Create demo_service "u1" (mkCreateRequest None "" "mini")) 0
         NewMemoryStore).2 = (Ok t, k', s2) /\ t_SessionID t = "B"%string.
Proof.
  destruct (created_ticket_opens_session demo_service "u1" (mkCreateRequest None "" "mini")
    (demo_oracle 0) 0 NewMemoryStore
    (mkCreateResponse "B" "wss://gw" (RawURLEncode (repeat 7 32)) 60 (60 * Second) "demo"
       StatusCreated) 5
    (run_prog (demo_oracle 0) (Create demo_service "u1" (mkCreateRequest None "" "mini")) 0
         NewMemoryStore).2 [] (demo_oracle 5) 0) as (t & k' & s2 & H1 & H2 & _).
  - by intros ?.
  - intros ? ? [= <-]. split; [done|]. repeat constructor; unfold is_byte; lia.
  - by intros ?.
  - vm_compute. reflexivity.
  - constructor.
  - vm_compute. reflexivity.
  - exists t, k', s2. split; [exact H1|exact H2].
Defined.

(** ** Continuation context *)

(** The last [n] elements. *)
Definition tail_of {A} (n : nat) (l : list A) : list A := drop (length l - n) l.

Lemma clamp_limit_range limit : 1 <= clamp_limit limit <= 20.
Proof.
  unfold clamp_limit, continuationDefaultLimit, continuationMaxLimit.
  destruct (limit <=? 0) eqn:?; destruct (20 <? _) eqn:?; lia.
Qed.

(** Continuation context is the tail — never more than twenty turns — of the
    previous session's transcript in speaking order, and only when the same
    user owns both sessions: a session that does not exist and a session of
    somebody else get the same answer.  The request runs alone. *)
Theorem continuation_is_owner_only cur prev limit o n s :
  alone o ->
  let '(r, _, s') := run_prog o (ContinuationContext cur prev limit) n s in
  s' = s /\
  match r with
  | Ok us =>
      exists x y, sessions s !! TrimSpace cur = Some x /\ sessions s !! TrimSpace prev = Some y /\
        s_UserID y = s_UserID x /\ (length us <= 20)%nat /\
        us = map (fun u => mkContinuation (u_Seq u) (u_Speaker u) (u_Text u))
               (tail_of (Z.to_nat (clamp_limit limit))
                  (sort_Slice (less_by u_Seq) (rows_of (TrimSpace prev) (utterances s))))
  | Err e =>
      e = Api (InvalidArgument "current_session_id and previous_session_id are required") \/
      e = Api (NotFound "session not found") /\
      forall x y, sessions s !! TrimSpace cur = Some x -> sessions s !! TrimSpace prev = Some y ->
        s_UserID y <> s_UserID x
  end.
Proof.
  intros Ha. unfold ContinuationContext. destruct (_ || _); [cbn; auto|].
  rewrite run_bind, (run_get o Ha). destruct (sessions s !! TrimSpace cur) as [x|] eqn:Hx;
    [|cbn; split; [done|right; split; [done|congruence]]].
  rewrite run_bind, (run_get o Ha). destruct (sessions s !! TrimSpace prev) as [y|] eqn:Hy;
    [|cbn; split; [done|right; split; [done|congruence]]].
  destruct (String.eqb_spec (s_UserID y) (s_UserID x)) as [Hu|Hu]; cbn [negb];
    [|cbn; split; [done|right; split; [done|congruence]]].
  rewrite (run_db o Ha). cbn [handle fst snd]. unfold ListUtterances. rewrite Hy. cbn.
  split; [done|]. exists x, y. split; [done|]. split; [done|]. split; [done|].
  pose proof (clamp_limit_range limit).
  set (l := sort_Slice _ _). set (k := clamp_limit limit) in *.
  assert ((if k <? Z.of_nat (length l) then drop (Z.to_nat (Z.of_nat (length l) - k)) l else l)
            = tail_of (Z.to_nat k) l) as ->.
  { unfold tail_of. destruct (Z.ltb_spec k (Z.of_nat (length l))).
    - f_equal. lia.
    - replace (length l - Z.to_nat k)%nat with 0%nat by lia. done. }
  split; [|done]. rewrite length_map. unfold tail_of. rewrite length_drop. lia.
Qed.

Definition demo_row (seq : Z) (speaker text : string) : Utterance :=
  mkUtterance "u" "s1" seq speaker text None None "" 0 false.
Definition told_store : MemoryStore :=
  set_utterances {[ "s1" := [demo_row 2 "ai" "yes"; demo_row 1 "user" "hi"] ]}
    (set_sessions {[ "s1" := demo_session StatusEnded ]} NewMemoryStore).

Lemma continuation_is_owner_only_witness :
  exists us, (run_prog (demo_oracle 0) (ContinuationContext "s1" "s1" 1) 0 told_store).1.1 = Ok us /\
    us = [mkContinuation 2 "ai" "yes"].
Proof.
  pose proof (continuation_is_owner_only "s1" "s1" 1 (demo_oracle 0) 0 told_store
                ltac:(by intros ?)) as H.
  destruct (run_prog _ _ _ _) as [[r m] s'] eqn:E. destruct H as [_ H].
  vm_compute in E. injection E as <- _ _.
  eexists. split; [reflexivity|]. destruct H as (x & y & _ & _ & _ & _ & H). exact H.
Defined.

(** ** What an end report may contain *)

(** An acceptable transcript row. *)
Definition good_item (item : EndUtteranceItem) : bool :=
  (1 <=? eu_Seq item) && (eu_Seq item <=? 500) &&
  bool_decide (TrimSpace (eu_Speaker item) ∈ [SpeakerUser; SpeakerAI]) &&
  negb (blank (eu_Text item)) && (go_len (TrimSpace (eu_Text item)) <=? 32 * 1024).

Definition good_report (items : list EndUtteranceItem) : Prop :=
  (length items <= 500)%nat /\ Forall (fun i => good_item i = true) items /\
  NoDup (map eu_Seq items).

(** The stored rows: the report's, trimmed, with fresh identifiers. *)
Definition row_matches (sessionID : string) (now : time) (item : EndUtteranceItem)
    (u : Utterance) : Prop :=
  u = mkUtterance (u_ID u) sessionID (eu_Seq item) (TrimSpace (eu_Speaker item))
        (TrimSpace (eu_Text item)) None None "" now (eu_Interrupted item).

Lemma normalize_utterances_run sessionID now o items seen out n s :
  exists r m, run_prog o (normalize_utterances sessionID now seen out items) n s = (r, m, s) /\
  ((exists rows, r = Ok (out ++ rows) /\ Forall2 (row_matches sessionID now) items rows /\
      Forall (fun i => good_item i = true) items /\ NoDup (map eu_Seq items) /\
      Forall (fun i => eu_Seq i ∉ seen) items) \/
   (exists msg, r = Err (Api (InvalidArgument msg)) /\
      ~ (Forall (fun i => good_item i = true) items /\ NoDup (map eu_Seq items) /\
         Forall (fun i => eu_Seq i ∉ seen) items))).
Proof.
  revert seen out n. induction items as [|i items IH]; intros seen out n; cbn [normalize_utterances].
  { eexists _, _. split; [done|]. left. exists []. rewrite app_nil_r.
    repeat split; constructor. }
  assert (forall msg, good_item i = false \/ eu_Seq i ∈ seen ->
    exists r m, run_prog o (Ret (Err (Api (InvalidArgument msg)))) n s = (r, m, s) /\
     ((exists rows, r = Ok (out ++ rows) /\ Forall2 (row_matches sessionID now) (i :: items) rows /\
      Forall (fun i => good_item i = true) (i :: items) /\ NoDup (map eu_Seq (i :: items)) /\
      Forall (fun i => eu_Seq i ∉ seen) (i :: items)) \/
      (exists msg, r = Err (Api (InvalidArgument msg)) /\
      ~ (Forall (fun i => good_item i = true) (i :: items) /\ NoDup (map eu_Seq (i :: items)) /\
         Forall (fun i => eu_Seq i ∉ seen) (i :: items))))) as Hbad.
  { intros msg Hb. eexists _, _. split; [done|]. right. exists msg. split; [done|].
    intros (H1 & _ & H3). inversion H1; inversion H3; subst. destruct Hb; congruence. }
  destruct (_ || _) eqn:Hr; [apply Hbad; left; unfold good_item, maxUtterances in *; lia|].
  destruct (bool_decide (eu_Seq i ∈ seen)) eqn:Hs;
    [apply Hbad; right; by apply bool_decide_eq_true in Hs|].
  apply bool_decide_eq_false in Hs.
  destruct (String.eqb (TrimSpace (eu_Speaker i)) SpeakerUser || _) eqn:Hsp; cbn [negb].
  2: { apply Hbad. left. unfold good_item. rewrite (bool_decide_false (_ ∈ _)); [lia|].
       apply orb_false_iff in Hsp as [H1%String.eqb_neq H2%String.eqb_neq]. set_solver. }
  destruct (String.eqb (TrimSpace (eu_Text i)) "") eqn:Ht.
  { apply Hbad. left. unfold good_item, blank. rewrite Ht. lia. }
  destruct (32 * 1024 <? go_len (TrimSpace (eu_Text i))) eqn:Hlen.
  { apply Hbad. left. unfold good_item. lia. }
  assert (good_item i = true) as Hgood.
  { unfold good_item, blank, maxUtterances in *. rewrite Ht, bool_decide_true; [lia|].
    apply orb_true_iff in Hsp as [->%String.eqb_eq| ->%String.eqb_eq]; set_solver. }
  rewrite run_newid.
  destruct (IH (eu_Seq i :: seen) (out ++ [mkUtterance (o_id o n) sessionID (eu_Seq i)
     (TrimSpace (eu_Speaker i)) (TrimSpace (eu_Text i)) None None "" now (eu_Interrupted i)]) (S n))
    as (r & m & Hrun & [(rows & -> & H2 & Hg & Hnd & Hns)|(msg & -> & Hno)]).
  - eexists _, _. split; [exact Hrun|]. left. eexists. rewrite <- app_assoc. split; [done|].
    split; [by constructor|]. split; [by constructor|]. split.
    + constructor; [|done]. intros (i' & Hi' & Hin)%list_elem_of_fmap.
      rewrite Forall_forall in Hns. apply (Hns _ Hin). rewrite <- Hi'. left.
    + constructor; [done|]. eapply Forall_impl; [exact Hns|]. set_solver.
  - eexists _, _. split; [exact Hrun|]. right. exists msg. split; [done|].
    intros (H1 & H2 & H3). apply Hno. inversion H1; inversion H2; inversion H3; subst.
    split; [done|]. split; [done|]. apply Forall_forall. intros i' Hi'.
    rewrite not_elem_of_cons. split.
    + intros E. match goal with H : eu_Seq i ∉ map _ _ |- _ => apply H end.
      rewrite <- E. apply list_elem_of_fmap_2, Hi'.
    + match goal with H : Forall (fun i => eu_Seq i ∉ seen) items |- _ =>
        rewrite Forall_forall in H; by apply H end.
Qed.

(** An end report's transcript is accepted exactly when it has at most 500
    rows with distinct sequence numbers in range, a known speaker and a
    non-blank text of at most 32 KiB each; what is stored is the report row for
    row, trimmed; anything else is refused with a 400 and stores nothing. *)
Theorem end_transcript_accepted_iff_good sessionID items now o n s :
  let '(r, _, s') := run_prog o (normalizeEndUtterances sessionID items now) n s in
  s' = s /\
  match r with
  | Ok rows => good_report items /\ Forall2 (row_matches sessionID now) items rows
  | Err (Api e) => HTTPStatus e = 400 /\ ~ good_report items
  | Err _ => False
  end.
Proof.
  unfold normalizeEndUtterances, good_report, maxUtterances.
  destruct (Z.ltb_spec 500 (Z.of_nat (length items))).
  { cbn. split; [done|]. split; [done|]. intros [? _]. lia. }
  destruct (normalize_utterances_run sessionID now o items [] [] n s)
    as (r & m & -> & [(rows & -> & H2 & Hg & Hnd & _)|(msg & -> & Hno)]).
  - split; [done|]. split; [|done]. split; [lia|done].
  - split; [done|]. split; [done|]. intros (_ & Hg & Hnd). apply Hno.
    split; [done|]. split; [done|]. apply Forall_forall. intros ? _. apply not_elem_of_nil.
Qed.
