(* ===== verification/SessionEnd.v ===== *)
(** * Ending a session

    What an accepted end report leaves in the store, its replays, and what can
    happen when another end of the same session slips in between. *)
From S2P Require Import Prelude Prog GoString GoUnicode GoTime GoSort ApiErr AICost Session SessionLaws SessionQueue SessionListing Effects SessionService SessionServiceLaws.

Open Scope Z_scope.
Open Scope prog_scope.

(** ** Rescue ladders of the report *)

(** What refine may rely on for a stored ladder of session [x]. *)
Definition good_rescue (x : Session) (e : RescueEvent) : Prop :=
  r_SessionID e = s_ID x /\ r_UserID e = s_UserID x /\
  1 <= r_Seq e <= 200 /\ 1 <= r_Level e <= 3 /\
  (r_Path e = RescuePathIncomplete \/ r_Path e = RescuePathSilent) /\
  (r_Anchor e <> ""%string -> r_UserOpened e = true) /\
  rune_count (r_Ladder e) <= 512 /\ rune_count (r_Anchor e) <= 512 /\
  rune_count (r_TurnID e) <= 64.

Lemma rescue_path_known raw p :
  rescue_path raw = Some p -> p = RescuePathIncomplete \/ p = RescuePathSilent.
Proof.
  unfold rescue_path. destruct (_ || _) eqn:E.
  - intros [= <-]. apply orb_true_iff in E as [->%String.eqb_eq| ->%String.eqb_eq]; auto.
  - destruct (String.eqb _ ""); [|done]. intros [= <-]. auto.
Qed.

Lemma normalize_rescues_run x now o items seen out n s :
  exists es m,
    run_prog o (normalize_rescues x now seen out items) n s = (out ++ es, m, s) /\
    Forall (good_rescue x) es /\ NoDup (map r_Seq es) /\
    Forall (fun e => r_Seq e ∉ seen) es /\ (length es <= length items)%nat.
Proof.
  revert seen out n. induction items as [|i items IH]; intros seen out n; cbn [normalize_rescues].
  { exists [], n. rewrite app_nil_r. repeat split; try constructor. }
  assert (forall seen', (forall z, z ∈ seen -> z ∈ seen') ->
    exists es m,
    run_prog o (normalize_rescues x now seen' out items) n s = (out ++ es, m, s) /\
    Forall (good_rescue x) es /\ NoDup (map r_Seq es) /\
    Forall (fun e => r_Seq e ∉ seen) es /\ (length es <= length (i :: items))%nat) as Hskip.
  { intros seen' Hsub. destruct (IH seen' out n) as (es & m & H1 & H2 & H3 & H4 & H5).
    exists es, m. split; [done|]. split; [done|]. split; [done|]. split; [|cbn; lia].
    eapply Forall_impl; [exact H4|]. auto. }
  destruct ((ri_Seq i <? 1) || _) eqn:Hr; [by apply Hskip|].
  destruct (bool_decide (ri_Seq i ∈ seen)) eqn:Hs; [by apply Hskip|].
  destruct ((ri_Level i <? 1) || _) eqn:Hl; [apply Hskip; set_solver|].
  destruct (rescue_path (ri_Path i)) as [p|] eqn:Hp; [|apply Hskip; set_solver].
  apply rescue_path_known in Hp. apply bool_decide_eq_false in Hs. rewrite run_newid.
  match goal with |- context [out ++ [?e0]] => set (e := e0) end.
  destruct (IH (ri_Seq i :: seen) (out ++ [e]) (S n)) as (es & m & H1 & H2 & H3 & H4 & H5).
  exists (e :: es), m. rewrite H1, <- app_assoc. split; [done|].
  split; [constructor; [|done]|split; [|split; [|cbn; lia]]].
  - unfold e, good_rescue, maxRescueEvents in *. cbn. repeat split; try lia; try done.
    + destruct (ri_UserOpened i); [done|]. cbn. destruct (String.eqb (TrimSpace (ri_Anchor i)) "") eqn:Ea.
      * apply String.eqb_eq in Ea. rewrite Ea. by rewrite capRunes_empty.
      * by rewrite capRunes_empty.
    + apply (capRunes_count _ maxTextField).
    + apply (capRunes_count _ maxTextField).
    + apply (capRunes_count _ 64).
  - constructor; [|done]. intros (e' & He' & Hin)%list_elem_of_fmap.
    rewrite Forall_forall in H4. apply (H4 _ Hin). rewrite <- He'. left.
  - constructor; [done|]. eapply Forall_impl; [exact H4|]. set_solver.
Qed.

(** Whatever ladders the gateway reports, none costs the learner the review:
    normalisation never fails, and what it keeps is sound — at most 200 ladders
    with distinct numbers, a rung between 1 and 3, a known path, bounded texts,
    and an anchor only if the learner spoke. *)
Theorem end_rescues_are_sound x items now o n s :
  let '(es, _, s') := run_prog o (normalizeEndRescueEvents x items now) n s in
  s' = s /\ Forall (good_rescue x) es /\ NoDup (map r_Seq es) /\ (length es <= 200)%nat.
Proof.
  unfold normalizeEndRescueEvents, maxRescueEvents.
  destruct (Z.ltb_spec 200 (Z.of_nat (length items))).
  - cbn. split; [done|]. repeat split; try constructor. lia.
  - destruct (normalize_rescues_run x now o items [] [] n s) as (es & m & -> & H1 & H2 & _ & H3).
    cbn. split; [done|]. repeat split; try done. lia.
Qed.

(** ** Queueing *)

(** A review job of the session in one of the given states. *)
Definition review_job (id : string) (sts : list string) (s : MemoryStore) : Prop :=
  exists jid j, jobs s !! jid = Some j /\ j_SessionID j = id /\
    j_JobType j = JobTypeSessionFinished /\ j_Status j ∈ sts.

(** Live or finished; and in any state, failed ones included. *)
Definition queued (id : string) : MemoryStore -> Prop :=
  review_job id [JobStatusPending; JobStatusProcessing; JobStatusDone].
Definition filed (id : string) : MemoryStore -> Prop :=
  review_job id [JobStatusPending; JobStatusProcessing; JobStatusDone; JobStatusFailed].

(** No call removes a job. *)
Lemma filed_step id R (c : storeE R) s : filed id s -> filed id (handle c s).2.
Proof.
  intros (jid & j & Hj & Hid & Hty & Hst). pose proof (after_job_step jid (ev c) s) as H.
  change (after (ev c) s) with (handle c s).2 in H. rewrite Hj in H.
  destruct H as [E|? ? ? E|w at_ j0 ? E E' ? ?|? j0 j' ? E E' ? ? Hst' ? [Ho Ht]|? ? ? j0 j' ? E E' ? ? Hst' ? [Ho Ht]];
    [|done|..]; simplify_eq; [exists jid, j; by rewrite E|..]; eexists jid, _; (split; [exact E'|]).
  - cbn. split; [done|]. split; [done|]. right. left.
  - rewrite Hst'. split; [congruence|]. split; [congruence|]. right. right. left.
  - rewrite Hst'. split; [congruence|]. split; [congruence|]. case_match; [left|right; right; right; left].
Qed.

Lemma queued_filed id s : queued id s -> filed id s.
Proof.
  intros (jid & j & Hj & Hid & Hty & Hst). exists jid, j. split; [done|]. split; [done|]. split; [done|].
  by apply (elem_of_app [_; _; _] [JobStatusFailed]); left.
Qed.

(** A filed job that is not live or finished has failed. *)
Lemma filed_failed id s : filed id s -> ~ queued id s -> review_job id [JobStatusFailed] s.
Proof.
  intros (jid & j & Hj & Hid & Hty & Hst) Hn.
  apply (elem_of_app [_; _; _] [JobStatusFailed]) in Hst as [H|H%list_elem_of_singleton].
  - destruct Hn. by exists jid, j.
  - exists jid, j. rewrite H. split; [done|]. split; [done|]. split; [done|]. left.
Qed.

Lemma HasSessionJob_true id ty sts s :
  HasSessionJob id ty sts s = true <->
  exists jid j, jobs s !! jid = Some j /\ j_SessionID j = id /\ j_JobType j = ty /\ j_Status j ∈ sts.
Proof.
  unfold HasSessionJob. rewrite existsb_exists. split.
  - intros (j & Hin & H). apply list_elem_of_In in Hin.
    apply list_elem_of_fmap in Hin as ([jid j'] & -> & Hin). apply elem_of_map_to_list in Hin.
    rewrite !andb_true_iff, !String.eqb_eq, bool_decide_eq_true in H. exists jid, j'. naive_solver.
  - intros (jid & j & Hj & H1 & H2 & H3). exists j. split.
    + apply list_elem_of_In, list_elem_of_fmap. exists (jid, j). by rewrite elem_of_map_to_list.
    + rewrite !andb_true_iff, !String.eqb_eq, bool_decide_eq_true. done.
Qed.

(** The stores a call of the review queue may leave: at most one new job. *)
Definition one_more_job (P : Job -> Prop) (s s' : MemoryStore) : Prop :=
  s' = s \/ exists j, P j /\ jobs s !! j_ID j = None /\
              s' = set_jobs (<[j_ID j := j]> (jobs s)) s.

Lemma run_ensure o id now n s :
  alone o ->
  exists r m s', run_prog o (ensureSessionFinishedEnqueued id now) n s = (r, m, s') /\
    one_more_job (fun j => j_SessionID j = id /\ j_JobType j = JobTypeSessionFinished /\
                            ~ queued id s) s s' /\
    (r = Ok tt -> queued id s') /\ (queued id s -> s' = s /\ r = Ok tt).
Proof.
  intros Ha. unfold ensureSessionFinishedEnqueued. rewrite (run_db o Ha). cbn [handle fst snd].
  destruct (HasSessionJob _ _ _ s) eqn:E.
  - eexists _, _, _. split; [done|]. apply HasSessionJob_true in E. split; [by left|]. done.
  - unfold enqueueSessionFinished. rewrite run_newid. cbn. rewrite Ha. cbn.
    assert (~ queued id s) as Hq by (intros H; apply HasSessionJob_true in H; congruence).
    unfold EnqueueJob. destruct (jobs s !! _) eqn:Hj; eexists _, _, _;
      (split; [done|]); (split; [|split; [|done]]).
    + by left.
    + done.
    + right. eexists. split; [|split; [exact Hj|done]]. done.
    + intros _. eexists _, _. cbn. rewrite lookup_insert_eq. split; [done|].
      repeat split; try done. left.
Qed.

Lemma run_hook svc o id n s :
  alone o ->
  exists m s', run_prog o (enqueue_eval_hook svc id) n s = (tt, m, s') /\
    one_more_job (fun j => j_JobType j = JobTypeSessionEval) s s'.
Proof.
  intros Ha. unfold enqueue_eval_hook, EnqueueEval.
  destruct (has_eval svc); [|eexists _, _; split; [done|by left]].
  destruct (String.eqb _ ""); [eexists _, _; split; [done|by left]|].
  rewrite run_bind, (run_db o Ha). cbn [handle fst snd].
  destruct (HasSessionJob _ _ _ s); [eexists _, _; split; [done|by left]|].
  rewrite run_now, run_newid. cbn. rewrite Ha. cbn. unfold EnqueueJob.
  destruct (jobs s !! _) eqn:Hj; eexists _, _; (split; [done|]).
  - by left.
  - right. eexists. split; [|split; [exact Hj|done]]. done.
Qed.

(** What a queue call keeps. *)
Lemma one_more_job_frame P s s' :
  one_more_job P s s' ->
  sessions s' = sessions s /\ utterances s' = utterances s /\ costLogs s' = costLogs s /\
  rescueEvents s' = rescueEvents s /\ tickets s' = tickets s /\
  (forall id j, jobs s !! id = Some j -> jobs s' !! id = Some j) /\
  (forall id j, jobs s' !! id = Some j -> jobs s !! id = Some j \/ P j).
Proof.
  intros [->|(j & HP & Hj & ->)]; [by repeat split; auto|]. cbn.
  repeat split; try done.
  - intros id k Hk. destruct (decide (j_ID j = id)) as [<-|?]; [congruence|].
    by rewrite lookup_insert_ne.
  - intros id k. destruct (decide (j_ID j = id)) as [<-|?].
    + rewrite lookup_insert_eq. intros [= <-]. auto.
    + rewrite lookup_insert_ne by done. auto.
Qed.

Lemma queued_mono P s s' id : one_more_job P s s' -> queued id s -> queued id s'.
Proof.
  intros H (jid & j & Hj & ?). apply one_more_job_frame in H as (_ & _ & _ & _ & _ & H & _).
  exists jid, j. auto.
Qed.

(** Decide comparisons of literal strings. *)
Ltac literal_eqb :=
  repeat match goal with
  | |- context [String.eqb ?a ?b] =>
      let v := eval vm_compute in (String.eqb a b) in
      lazymatch v with
      | true => change (String.eqb a b) with true
      | false => change (String.eqb a b) with false
      end
  end; cbn [orb andb negb]; cbn iota.

(** ** The end report *)

(** [s'] differs from [s] by review-queue rows only, and a new row of the
    session's own review is the only kind of [session.finished] row added. *)
Definition queue_only (id : string) (s s' : MemoryStore) : Prop :=
  sessions s' = sessions s /\ utterances s' = utterances s /\ costLogs s' = costLogs s /\
  rescueEvents s' = rescueEvents s /\ tickets s' = tickets s /\
  (forall jid j, jobs s !! jid = Some j -> jobs s' !! jid = Some j) /\
  (forall jid j, jobs s' !! jid = Some j -> jobs s !! jid = Some j \/
     j_JobType j = JobTypeSessionEval \/
     j_SessionID j = id /\ j_JobType j = JobTypeSessionFinished /\ ~ queued id s).

Lemma run_finish svc o id now (resp : EndResponse) n s :
  alone o ->
  exists r m s', run_prog o (_e <-! ensureSessionFinishedEnqueued id now;
                             _h <- enqueue_eval_hook svc id; Ret (Ok resp)) n s = (r, m, s') /\
    queue_only id s s' /\ (r = Ok resp /\ queued id s' \/ exists e, r = Err e) /\
    (queued id s -> r = Ok resp).
Proof.
  intros Ha. rewrite run_bind.
  destruct (run_ensure o id now n s Ha) as (r & m & s1 & -> & H1 & Hq & Hn).
  destruct r as [[]|e].
  - rewrite run_bind. destruct (run_hook svc o id m s1 Ha) as (m2 & s2 & -> & H2).
    eexists _, _, _. split; [done|]. split; [|split; [|done]].
    + pose proof (one_more_job_frame _ _ _ H1) as (?&?&?&?&?&Hk1&Hb1).
      pose proof (one_more_job_frame _ _ _ H2) as (?&?&?&?&?&Hk2&Hb2).
      unfold queue_only. repeat split; try congruence; [by auto|].
      intros jid j Hj. destruct (Hb2 _ _ Hj) as [Hj1|?]; [|by auto].
      destruct (Hb1 _ _ Hj1) as [?|?]; by auto.
    + left. split; [done|]. eapply queued_mono; [exact H2|auto].
  - eexists _, _, _. split; [done|].
    pose proof (one_more_job_frame _ _ _ H1) as (?&?&?&?&?&Hk1&Hb1).
    split; [|split; [by right; exists e|intros Hqs; by apply Hn in Hqs as [_ ?]]].
    unfold queue_only. repeat split; try done. intros jid j Hj.
    destruct (Hb1 _ _ Hj) as [?|?]; by auto.
Qed.

Lemma queue_only_refl id s : queue_only id s s.
Proof. unfold queue_only. repeat split; auto. Qed.

(** [ListUtterances] of an existing session. *)
Definition saved_rows (id : string) (s : MemoryStore) : list Utterance :=
  sort_Slice (less_by u_Seq) (rows_of id (utterances s)).

Lemma saved_rows_length id s : length (saved_rows id s) = length (rows_of id (utterances s)).
Proof. unfold saved_rows. by rewrite (sort_Slice_Permutation (less_by u_Seq)). Qed.

Lemma hasUserSpeech_perm us us' : us ≡ₚ us' -> hasUserSpeech us = hasUserSpeech us'.
Proof.
  unfold hasUserSpeech. induction 1; cbn; [done|congruence|by rewrite !orb_assoc, (orb_comm (_ && _))|congruence].
Qed.

Lemma saved_rows_speech id s : hasUserSpeech (saved_rows id s) = hasUserSpeech (rows_of id (utterances s)).
Proof. apply hasUserSpeech_perm, (sort_Slice_Permutation (less_by u_Seq)). Qed.

(** How an answer describes the store it was given from. *)
Definition describes (id : string) (resp : EndResponse) (s : MemoryStore) : Prop :=
  exists x, sessions s !! id = Some x /\ end_Status resp = s_Status x /\
    end_DurationSec resp = s_DurationSec x /\ closed (s_Status x) = true /\
    end_UtteranceCount resp = Z.of_nat (length (rows_of id (utterances s))) /\
    end_ReviewSkipped resp =
      String.eqb (s_Status x) StatusAbandoned ||
      String.eqb (s_Status x) StatusEnded && negb (hasUserSpeech (rows_of id (utterances s))) /\
    (end_ReviewSkipped resp = false -> s_Status x = StatusEnded -> queued id s).

(** An end of a session that is already closed. *)
Lemma run_end_closed svc req o n s x :
  alone o -> sessions_keyed s ->
  TrimSpace (er_SessionID req) <> ""%string ->
  sessions s !! TrimSpace (er_SessionID req) = Some x -> closed (s_Status x) = true ->
  exists r m s', run_prog o (End_ svc req) n s = (r, m, s') /\
    queue_only (TrimSpace (er_SessionID req)) s s' /\
    ((exists resp, r = Ok resp /\ end_AlreadyEnded resp = true /\
       describes (TrimSpace (er_SessionID req)) resp s' /\
       (end_ReviewSkipped resp = true \/ s_Status x = StatusReviewed -> s' = s)) \/
     (exists e, r = Err e /\ ~ queued (TrimSpace (er_SessionID req)) s /\
       s_Status x = StatusEnded /\
       hasUserSpeech (rows_of (TrimSpace (er_SessionID req)) (utterances s)) = true)).
Proof.
  set (id := TrimSpace _). intros Ha Hk Hne Hx Hc. unfold End_. fold id.
  destruct (String.eqb_spec id ""); [done|].
  rewrite run_bind, (run_get o Ha), Hx, run_now. destruct (closed_cases _ Hc) as [E|[E|E]];
    rewrite E; literal_eqb; rewrite (run_db o Ha);
    cbn [handle fst snd]; unfold ListUtterances; rewrite Hx; fold (saved_rows id s);
    cbn [bind].
  - rewrite saved_rows_speech. destruct (hasUserSpeech _) eqn:Hsp; cbn [negb].
    + destruct (run_finish svc o id (o_now o (S n)) (end_response x (saved_rows id s) true false)
        (S (S (S n))) s Ha) as (r & m & s' & -> & Hq & Hr & Hnq).
      eexists _, _, _. split; [done|]. split; [done|].
      pose proof Hq as (E1 & E2 & _).
      destruct Hr as [[-> Hqd]|[e ->]]; [left|right].
      * eexists. split; [done|]. split; [done|].
        split; [|intros [?|Hrv]; done]. exists x. rewrite E1, E2. cbn.
        rewrite saved_rows_length, Hsp, E. repeat split; auto.
      * exists e. split; [done|]. split; [|done]. intros H. by apply Hnq in H.
    + eexists _, _, _. split; [done|]. split; [apply queue_only_refl|]. left.
      eexists. split; [done|]. split; [done|]. split; [|done]. exists x. cbn.
      rewrite saved_rows_length, Hsp, E. repeat split; try done; auto.
  - eexists _, _, _. split; [done|]. split; [apply queue_only_refl|]. left.
    eexists. split; [done|]. split; [done|]. split; [|done]. exists x. cbn.
    rewrite saved_rows_length, E. repeat split; try done; auto.
  - eexists _, _, _. split; [done|]. split; [apply queue_only_refl|]. left.
    eexists. split; [done|]. split; [done|]. split; [|done]. exists x. cbn.
    rewrite saved_rows_length, E. repeat split; try done; auto.
Qed.

Lemma run_normalize_utterances id items now o n s :
  exists r m, run_prog o (normalizeEndUtterances id items now) n s = (r, m, s).
Proof.
  unfold normalizeEndUtterances. destruct (_ <? _); [by eexists _, _|].
  destruct (normalize_utterances_run id now o items [] [] n s) as (r & m & H & _). eauto.
Qed.

Lemma run_normalize_rescues x items now o n s :
  exists es m, run_prog o (normalizeEndRescueEvents x items now) n s = (es, m, s).
Proof.
  unfold normalizeEndRescueEvents. destruct (_ <? _); [by eexists _, _|].
  destruct (normalize_rescues_run x now o items [] [] n s) as (es & m & H & _). eauto.
Qed.

Lemma run_voice_cost x u at_ o n s :
  exists c m, run_prog o (buildVoiceCostLog x u at_) n s = (c, m, s).
Proof. unfold buildVoiceCostLog. destruct u; cbn; eauto. Qed.

Definition terminal_for (reason : string) : string :=
  if String.eqb (TrimSpace reason) ReasonAbandoned then StatusAbandoned else StatusEnded.

Lemma terminal_for_cases reason :
  terminal_for reason = StatusAbandoned \/ terminal_for reason = StatusEnded.
Proof. unfold terminal_for. case_match; auto. Qed.

Lemma closed_false st :
  closed st = false -> String.eqb st StatusAbandoned = false /\
  String.eqb st StatusReviewed = false /\ String.eqb st StatusEnded = false /\
  isTerminalStatus st = false.
Proof.
  unfold closed, isTerminalStatus. rewrite !orb_false_iff. by intros [[-> ->] ->].
Qed.

(** An end of a session that is still open. *)
Lemma run_end_open svc req o n s x :
  alone o -> sessions_keyed s ->
  sessions s !! TrimSpace (er_SessionID req) = Some x -> closed (s_Status x) = false ->
  exists r m s', run_prog o (End_ svc req) n s = (r, m, s') /\
    ((exists resp, r = Ok resp /\ end_AlreadyEnded resp = false /\
       end_Status resp = terminal_for (er_Reason req) /\
       describes (TrimSpace (er_SessionID req)) resp s' /\
       (end_ReviewSkipped resp = true -> jobs s' = jobs s)) \/
     (exists e, r = Err e /\
        (s' = s \/ exists x', sessions s' !! TrimSpace (er_SessionID req) = Some x' /\
           s_Status x' = StatusEnded))).
Proof.
  set (id := TrimSpace _). intros Ha Hk Hx Hc. unfold End_. fold id.
  destruct (closed_false _ Hc) as (Ec1 & Ec2 & Ec3 & Ec4).
  destruct (String.eqb_spec id ""); [eexists _, _, _; split; [done|]; right; eauto|].
  rewrite run_bind, (run_get o Ha), Hx, run_now, Ec1, Ec2, Ec3, run_bind.
  destruct (run_normalize_utterances id (er_Utterances req) (o_now o (S n)) o (S (S n)) s)
    as (ru & m1 & ->).
  destruct ru as [us|e]; [|eexists _, _, _; split; [done|]; right; eauto].
  rewrite run_bind.
  destruct (run_normalize_rescues x (er_RescueEvents req) (o_now o (S n)) o m1 s)
    as (es & m2 & ->).
  rewrite run_bind.
  destruct (run_voice_cost x (er_VoiceUsage req) (o_now o (S n)) o m2 s) as (c & m3 & ->).
  rewrite (run_db o Ha). cbn [handle]. fold (terminal_for (er_Reason req)).
  set (st := terminal_for _). unfold EndSession. rewrite Hx, Ec4.
  destruct (negb _ && _); [eexists _, _, _; split; [done|]; right; eauto|].
  set (y := with_status _ _ _ _ x).
  set (s1 := match c with Some _ => _ | None => _ end). cbn [fst snd].
  assert (sessions s1 !! id = Some y /\ rows_of id (utterances s1) = us /\ jobs s1 = jobs s)
    as (Hy & Hus & Hj).
  { unfold s1, rows_of. destruct c; cbn; by rewrite !lookup_insert_eq. }
  assert (s_ID y = id) as Hid by (cbn; by apply Hk).
  destruct (terminal_for_cases (er_Reason req)) as [E|E]; fold st in E.
  - rewrite E. literal_eqb. eexists _, _, _. split; [done|]. left. eexists. split; [done|].
    split; [done|]. split; [by cbn|]. split; [|done]. exists y. rewrite Hus. cbn. rewrite E.
    repeat split; try done.
  - rewrite E. literal_eqb. destruct (hasUserSpeech us) eqn:Hsp; cbn [negb].
    + rewrite Hid. destruct (run_finish svc o id (o_now o (S n)) (end_response y us false false)
        (S m3) s1 Ha) as (r & m & s' & -> & Hq & Hr & _).
      eexists _, _, _. split; [done|]. pose proof Hq as (E1 & E2 & _).
      destruct Hr as [[-> Hqd]|[e ->]]; [left|right].
      * eexists. split; [done|]. split; [done|]. split; [by cbn|]. split; [|done].
        exists y. rewrite E1, E2, Hus. cbn. rewrite E, Hsp. repeat split; auto.
      * exists e. split; [done|]. right. exists y. rewrite E1. cbn. auto.
    + eexists _, _, _. split; [done|]. left. eexists. split; [done|]. split; [done|].
      split; [by cbn|]. split; [|done]. exists y. rewrite Hus. cbn. rewrite E, Hsp.
      repeat split; try done.
Qed.

Lemma end_describes svc req o n s resp m s' :
  alone o -> sessions_keyed s ->
  run_prog o (End_ svc req) n s = (Ok resp, m, s') ->
  describes (TrimSpace (er_SessionID req)) resp s' /\
  (end_AlreadyEnded resp = false ->
     end_Status resp = terminal_for (er_Reason req) /\
     (end_ReviewSkipped resp = true -> jobs s' = jobs s)).
Proof.
  set (id := TrimSpace _). intros Ha Hk Hrun.
  destruct (String.eqb_spec id "") as [E|E].
  { unfold End_ in Hrun. fold id in Hrun. by rewrite E in Hrun. }
  destruct (sessions s !! id) as [x|] eqn:Hx.
  2: { unfold End_ in Hrun. fold id in Hrun. rewrite (proj2 (String.eqb_neq _ _) E) in Hrun.
       by rewrite run_bind, (run_get o Ha), Hx in Hrun. }
  destruct (closed (s_Status x)) eqn:Hc.
  - destruct (run_end_closed svc req o n s x Ha Hk E Hx Hc) as (r & m' & s2 & Hr & _ & Hd).
    fold id in Hd. rewrite Hrun in Hr.
    destruct Hd as [(resp' & -> & Hal & Hd & _)|(e & -> & _)]; [|done].
    injection Hr as <- <- <-. split; [done|congruence].
  - destruct (run_end_open svc req o n s x Ha Hk Hx Hc) as (r & m' & s2 & Hr & Hd).
    fold id in Hd. rewrite Hrun in Hr.
    destruct Hd as [(resp' & -> & Hal & Hst & Hd & Hj)|(e & -> & _)]; [|done].
    by injection Hr as <- <- <-.
Qed.

(** ** Under interference

    What an accepted answer says of the store whatever other requests do between
    the calls of the report. *)

Lemma run_kept {A} o (p : prog A) n s r m s' id x tx evs :
  kept id x tx evs s -> run_prog o p n s = (r, m, s') -> kept id x tx evs s'.
Proof.
  intros Hk Hrun. pose proof (run_prog_inv (kept id x tx evs) o p n s (kept_step id x tx evs) Hk) as H.
  by rewrite Hrun in H.
Qed.

Lemma kept_run tr s id x tx evs : kept id x tx evs s -> kept id x tx evs (run tr s).
Proof. apply (run_inv (kept id x tx evs)). intros R c t. apply kept_step. Qed.

Lemma kept_now s id x : sessions s !! id = Some x -> closed (s_Status x) = true ->
  kept id x (transcript id s) (rows_of id (rescueEvents s)) s.
Proof. intros Hx Hc. split; [done|]. split; [done|]. exists x. auto 8. Qed.

Lemma run_db_env {R A} o (c : storeE R) (k : R -> prog A) n s :
  run_prog o (bind (db c) k) n s =
  run_prog o (k (handle c (run (o_env o n) s)).1) (S n) (handle c (run (o_env o n) s)).2.
Proof. cbn. by destruct (handle c _). Qed.

Lemma run_get_env o id n s :
  run_prog o (get_or_not_found id) n s =
  (match sessions (run (o_env o n) s) !! id with
   | Some x => Ok x
   | None => Err (Api (NotFound "session not found"))
   end, S n, run (o_env o n) s).
Proof.
  unfold get_or_not_found. rewrite run_db_env. cbn [handle fst snd]. unfold GetSession.
  by destruct (sessions _ !! id).
Qed.

(** The answer agrees with the session as it is stored, which may have been
    reviewed since. *)
Definition told (id : string) (resp : EndResponse) (s : MemoryStore) : Prop :=
  exists x, sessions s !! id = Some x /\ closed (s_Status x) = true /\
    end_DurationSec resp = s_DurationSec x /\
    end_UtteranceCount resp = Z.of_nat (length (rows_of id (utterances s))) /\
    (end_Status resp = s_Status x \/ end_Status resp = StatusEnded /\ s_Status x = StatusReviewed).

(** What the answer says about the review: promised, one was filed or is there
    already; denied, the learner said nothing, or someone abandoned the session,
    if only in this very report. *)
Definition review_told (id : string) (reason : string) (resp : EndResponse) (s : MemoryStore) : Prop :=
  if end_ReviewSkipped resp
  then hasUserSpeech (rows_of id (utterances s)) = false \/ end_Status resp = StatusAbandoned \/
       terminal_for reason = StatusAbandoned
  else filed id s \/ exists x, sessions s !! id = Some x /\ s_Status x = StatusReviewed.

Lemma kept_told id x tx evs resp s : kept id x tx evs s ->
  end_Status resp = s_Status x -> end_DurationSec resp = s_DurationSec x ->
  end_UtteranceCount resp = Z.of_nat (length tx) -> told id resp s.
Proof.
  intros (Ht & _ & y & Hy & Hc & Hd & _ & Hs) E1 E2 E3. exists y. split; [done|]. split; [done|].
  split; [congruence|]. split; [by rewrite E3, <- Ht; unfold transcript; rewrite length_map|].
  destruct Hs as [[Hs _]|[Hs Hr]]; [left|right]; [congruence|by rewrite E1].
Qed.

Lemma speech_transcript us us' : map row_text us = map row_text us' -> hasUserSpeech us = hasUserSpeech us'.
Proof.
  revert us'. induction us as [|u us IH]; intros [|u' us'] H; try done. cbn in H. injection H as H1 H2 H3 H4 H5.
  unfold hasUserSpeech in *. cbn. f_equal; [by rewrite H4, H5|by apply IH].
Qed.

Lemma run_ensure_env o id now n s m s' :
  run_prog o (ensureSessionFinishedEnqueued id now) n s = (Ok tt, m, s') -> filed id s'.
Proof.
  unfold ensureSessionFinishedEnqueued. rewrite run_db_env. cbn [handle fst snd].
  destruct (HasSessionJob _ _ _ _) eqn:E; [intros [= <- <-]|].
  - by apply HasSessionJob_true, queued_filed in E.
  - unfold enqueueSessionFinished. rewrite run_newid. cbn. unfold EnqueueJob.
    destruct (jobs _ !! _); [done|]. intros [= <- <-]. eexists _, _. cbn. rewrite lookup_insert_eq.
    repeat split. left.
Qed.

Lemma run_finish_env svc o id now (resp0 resp : EndResponse) n s m s' :
  run_prog o (_e <-! ensureSessionFinishedEnqueued id now; _h <- enqueue_eval_hook svc id; Ret (Ok resp0)) n s
    = (Ok resp, m, s') -> resp = resp0 /\ filed id s'.
Proof.
  rewrite run_bind. destruct (run_prog o (ensureSessionFinishedEnqueued id now) n s) as [[[[]|e] m1] s1] eqn:E; [|done].
  apply run_ensure_env in E. rewrite run_bind.
  pose proof (run_prog_inv (filed id) o (enqueue_eval_hook svc id) m1 s1 (filed_step id) E) as H.
  destruct (run_prog o (enqueue_eval_hook svc id) m1 s1) as [[u m2] s2]. by intros [= <- <- <-].
Qed.

Lemma EndSession_ok id st dur us evs at_ c s y saved already s1 : isTerminalStatus st = true ->
  EndSession id st dur us evs at_ c s = (Ok (y, saved, already), s1) ->
  sessions s1 !! id = Some y /\ closed (s_Status y) = true /\ saved = rows_of id (utterances s1).
Proof.
  intros Hst. unfold EndSession. destruct (sessions s !! id) as [x|] eqn:Hx; [|done].
  destruct (isTerminalStatus (s_Status x)) eqn:Et.
  - intros [= <- <- <- <-]. split; [done|]. split; [|done]. unfold closed. by rewrite Et.
  - destruct (negb _ && _); [done|]. intros [= <- <- <- <-]. unfold closed, rows_of.
    by destruct c; cbn; rewrite !lookup_insert_eq, Hst.
Qed.

(** What is answered once the session is closed and [saved] is its transcript. *)
Lemma answer_told svc o id reason now x tx evs saved already n s resp m s' :
  kept id x tx evs s -> length saved = length tx ->
  hasUserSpeech saved = hasUserSpeech (rows_of id (utterances s)) ->
  run_prog (A := result error EndResponse) o
    (if negb (hasUserSpeech saved) then Ret (Ok (end_response x saved already true))
     else _e <-! ensureSessionFinishedEnqueued id now; _h <- enqueue_eval_hook svc id;
          Ret (Ok (end_response x saved already false))) n s = (Ok resp, m, s') ->
  told id resp s' /\ review_told id reason resp s'.
Proof.
  intros Hk Hl Hsp Hrun. pose proof (run_kept _ _ _ _ _ _ _ _ _ _ _ Hk Hrun) as Hk'.
  unfold review_told. destruct (hasUserSpeech saved) eqn:E; cbn [negb] in Hrun.
  - apply run_finish_env in Hrun as [-> Hf]. split; [|by left].
    eapply kept_told; [exact Hk'|done|done|]. cbn. by rewrite Hl.
  - injection Hrun as <- <- <-. split; [|by left].
    eapply kept_told; [exact Hk'|done|done|]. cbn. by rewrite Hl.
Qed.

Lemma closed_told id reason x tx evs saved already (skipped : bool) s :
  kept id x tx evs s -> length saved = length tx ->
  (if skipped then s_Status x = StatusAbandoned \/ terminal_for reason = StatusAbandoned
   else s_Status x = StatusReviewed) ->
  told id (end_response x saved already skipped) s /\ review_told id reason (end_response x saved already skipped) s.
Proof.
  intros Hk Hl Hr. split.
  - eapply kept_told; [exact Hk|done|done|]. cbn. by rewrite Hl.
  - unfold review_told. cbn. destruct skipped; [by right|right].
    destruct Hk as (_ & _ & y & Hy & _ & _ & _ & [[Hs _]|[Hs _]]); exists y; [|by rewrite Hs in Hr].
    split; [done|congruence].
Qed.

Lemma end_told svc req o n s resp m s' :
  sessions_keyed s -> run_prog o (End_ svc req) n s = (Ok resp, m, s') ->
  told (TrimSpace (er_SessionID req)) resp s' /\
  review_told (TrimSpace (er_SessionID req)) (er_Reason req) resp s'.
Proof.
  set (id := TrimSpace _). intros Hk. unfold End_. fold id.
  destruct (String.eqb_spec id ""); [done|]. rewrite run_bind, run_get_env. set (s0 := run _ s).
  assert (sessions_keyed s0) as Hk0 by (apply run_inv; [apply sessions_keyed_step|done]).
  destruct (sessions s0 !! id) as [x|] eqn:Hx; [|done]. rewrite run_now.
  destruct (closed (s_Status x)) eqn:Hc.
  - set (s1 := run (o_env o (S (S n))) s0).
    assert (kept id x (transcript id s0) (rows_of id (rescueEvents s0)) s1) as Hk1.
    { by apply kept_run, kept_now. }
    assert (ListUtterances id s1 = Ok (saved_rows id s1)) as Hl.
    { destruct Hk1 as (_ & _ & y & Hy & _). unfold ListUtterances. by rewrite Hy. }
    assert (length (saved_rows id s1) = length (transcript id s0)) as Hn.
    { destruct Hk1 as (Ht & _). rewrite saved_rows_length, <- Ht. unfold transcript. by rewrite length_map. }
    destruct (closed_cases _ Hc) as [E|[E|E]]; rewrite E; literal_eqb; rewrite run_db_env;
      fold s1; cbn [handle fst snd]; rewrite Hl; intros Hrun.
    + eapply answer_told; [exact Hk1|exact Hn|apply saved_rows_speech|exact Hrun].
    + injection Hrun as <- <- <-. eapply closed_told; [exact Hk1|exact Hn|by left].
    + injection Hrun as <- <- <-. eapply closed_told; [exact Hk1|exact Hn|done].
  - destruct (closed_false _ Hc) as (-> & -> & -> & _). rewrite run_bind.
    destruct (run_normalize_utterances id (er_Utterances req) (o_now o (S n)) o (S (S n)) s0) as (ru & m1 & ->).
    destruct ru as [us|e]; [|done]. rewrite run_bind.
    destruct (run_normalize_rescues x (er_RescueEvents req) (o_now o (S n)) o m1 s0) as (es & m2 & ->).
    rewrite run_bind.
    destruct (run_voice_cost x (er_VoiceUsage req) (o_now o (S n)) o m2 s0) as (c & m3 & ->).
    rewrite run_db_env. cbn [handle fst snd]. fold (terminal_for (er_Reason req)).
    set (s4 := run (o_env o m3) s0).
    assert (sessions_keyed s4) as Hk4 by (apply run_inv; [apply sessions_keyed_step|done]).
    pose proof (sessions_keyed_step _ (EEndSession id (terminal_for (er_Reason req)) (er_DurationSec req) us es
      (o_now o (S n)) c) _ Hk4) as Hk5. cbn [handle snd] in Hk5.
    destruct (EndSession id _ _ us es _ c s4) as [[[[y saved] already]|e] s5] eqn:Eend; cbn [fst snd] in *.
    2:{ destruct (Is e ErrNotFound); [done|]. by destruct (Is e ErrConflict). }
    apply EndSession_ok in Eend as (Hy & Hcy & ->); [|by destruct (terminal_for_cases (er_Reason req)) as [-> | ->]].
    assert (s_ID y = id) as -> by (by apply (Hk5 _ _ Hy)).
    assert (length (rows_of id (utterances s5)) = length (transcript id s5)) as Hn
      by (unfold transcript; by rewrite length_map).
    destruct (String.eqb_spec (terminal_for (er_Reason req)) StatusAbandoned) as [Ha|_]; intros Hrun.
    + injection Hrun as <- <- <-. eapply closed_told; [by apply kept_now|exact Hn|by right].
    + eapply answer_told; [by apply kept_now|exact Hn|done|exact Hrun].
Qed.

(** C25: An accepted end report tells the truth about what it left.  Whatever
    other requests do between its calls, the session is closed with the duration
    and transcript size of the answer, and with its status unless it was reviewed
    since; if the answer promises a review, one is there or its job was filed; if
    not, nobody spoke, or the session was abandoned, if only by this report.
    When the report runs alone the answer describes the store it leaves exactly:
    its status is the stored one, no review is promised exactly when the session
    was abandoned or nobody spoke, and otherwise an ended session has its job
    queued; a session ended now has the status its reason asks for, and ending
    it without a review queues nothing. *)
Theorem end_answer_is_true svc req o n s resp m s' :
  sessions_keyed s ->
  run_prog o (End_ svc req) n s = (Ok resp, m, s') ->
  told (TrimSpace (er_SessionID req)) resp s' /\
  review_told (TrimSpace (er_SessionID req)) (er_Reason req) resp s' /\
  (alone o ->
     describes (TrimSpace (er_SessionID req)) resp s' /\
     (end_AlreadyEnded resp = false ->
        end_Status resp = terminal_for (er_Reason req) /\
        (end_ReviewSkipped resp = true -> jobs s' = jobs s))).
Proof.
  intros Hk Hrun. destruct (end_told _ _ _ _ _ _ _ _ Hk Hrun) as [Ht Hr].
  split; [exact Ht|]. split; [exact Hr|]. intros Ha. by eapply end_describes.
Qed.

(** C17: Replaying an end report is harmless.  Two end reports of one session each
    run alone; anything may happen to the store between them.  After the first
    was accepted, the second — with any transcript, reason or cost — changes no
    session, transcript, ladder, ticket or cost row it finds, and queues a
    second review only when the first job has failed since.  It is accepted as
    already ended with the same duration and transcript size, and the same status
    and word on the review unless the session was reviewed since; only when that
    second job cannot be queued is it refused. *)
Theorem end_replay_changes_nothing svc req req2 o o2 n k s resp m s' tr :
  alone o -> alone o2 -> sessions_keyed s ->
  TrimSpace (er_SessionID req2) = TrimSpace (er_SessionID req) ->
  run_prog o (End_ svc req) n s = (Ok resp, m, s') ->
  let id := TrimSpace (er_SessionID req) in
  let s1 := run tr s' in
  exists answer m2 s2, run_prog o2 (End_ svc req2) k s1 = (answer, m2, s2) /\
    sessions s2 = sessions s1 /\ utterances s2 = utterances s1 /\
    rescueEvents s2 = rescueEvents s1 /\ tickets s2 = tickets s1 /\ costLogs s2 = costLogs s1 /\
    (forall jid j, jobs s1 !! jid = Some j -> jobs s2 !! jid = Some j) /\
    (forall jid j, jobs s2 !! jid = Some j -> j_JobType j = JobTypeSessionFinished ->
       jobs s1 !! jid = Some j \/ j_SessionID j = id /\ ~ queued id s1 /\ review_job id [JobStatusFailed] s1) /\
    match answer with
    | Ok resp2 =>
        end_AlreadyEnded resp2 = true /\ end_DurationSec resp2 = end_DurationSec resp /\
        end_UtteranceCount resp2 = end_UtteranceCount resp /\
        (end_Status resp2 = end_Status resp /\ end_ReviewSkipped resp2 = end_ReviewSkipped resp \/
         end_Status resp = StatusEnded /\ end_Status resp2 = StatusReviewed /\ end_ReviewSkipped resp2 = false)
    | Err _ => ~ queued id s1 /\ review_job id [JobStatusFailed] s1
    end.
Proof.
  intros Ha Ha2 Hk Heq Hrun id s1.
  assert (sessions_keyed s1) as Hk1.
  { apply run_inv; [apply sessions_keyed_step|].
    pose proof (run_prog_inv sessions_keyed o (End_ svc req) n s sessions_keyed_step Hk) as H.
    by rewrite Hrun in H. }
  assert (id <> ""%string) as Hne.
  { intros E. unfold End_ in Hrun. fold id in Hrun. by rewrite E in Hrun. }
  destruct (end_describes svc req o n s resp m s' Ha Hk Hrun)
    as [(x & Hx & D1 & D2 & D3 & D4 & D5 & D6) _]. fold id in Hx, D4, D5, D6.
  destruct (kept_run tr _ _ _ _ _ (kept_now _ _ _ Hx D3)) as (K1 & _ & y & Hy & Hcy & Hdy & _ & Hsy).
  fold s1 in K1, Hy.
  assert (hasUserSpeech (rows_of id (utterances s1)) = hasUserSpeech (rows_of id (utterances s'))) as Hsp
    by (by apply speech_transcript).
  assert (length (rows_of id (utterances s1)) = length (rows_of id (utterances s'))) as Hln.
  { apply (f_equal length) in K1. unfold transcript in K1. by rewrite !length_map in K1. }
  assert (forall E : s_Status y = StatusEnded, hasUserSpeech (rows_of id (utterances s1)) = true -> filed id s1) as Hfiled.
  { intros E Hspoke. apply run_inv; [apply filed_step|]. apply queued_filed, D6.
    - rewrite D5. destruct Hsy as [[Hs _]|[_ Hs]]; [|by rewrite E in Hs]. by rewrite <- Hs, E, <- Hsp, Hspoke.
    - destruct Hsy as [[Hs _]|[Hs _]]; congruence. }
  pose proof (run_end_closed svc req2 o2 k s1 y Ha2 Hk1) as Hend. rewrite Heq in Hend. fold id in Hend.
  destruct (Hend Hne Hy Hcy) as (r & m2 & s2 & Hr & (F1 & F2 & F3 & F4 & F5 & F6 & F7) & Hd).
  exists r, m2, s2. do 7 (split; [done|]).
  destruct Hd as [(resp2 & -> & Hal & (x2 & Hx2 & G1 & G2 & _ & G4 & G5 & G6) & Hsame)
                 |(e & -> & Hnq & E & Hspoke)].
  - rewrite F1, Hy in Hx2. injection Hx2 as <-. rewrite F2 in G4, G5. split.
    + intros jid j Hj Hty. destruct (end_ReviewSkipped resp2) eqn:Es; [left; by rewrite Hsame in Hj by auto|].
      destruct (F7 _ _ Hj) as [?|[He|(Hid & _ & Hnq)]]; [by left|by rewrite Hty in He|].
      destruct (closed_cases _ Hcy) as [E|[E|E]].
      * right. split; [done|]. split; [done|]. apply filed_failed; [|done]. apply Hfiled; [done|].
        rewrite E in G5. destruct (hasUserSpeech (rows_of id (utterances s1))); [done|by vm_compute in G5].
      * by rewrite E in G5.
      * left. by rewrite Hsame in Hj by auto.
    + split; [done|]. split; [congruence|]. split; [by rewrite G4, D4, Hln|].
      destruct Hsy as [[Hs _]|[Hs Hs']]; [left|right].
      * split; [congruence|]. by rewrite G5, D5, Hs, Hsp.
      * split; [congruence|]. split; [congruence|]. by rewrite G5, Hs'.
  - pose proof (filed_failed _ _ (Hfiled E Hspoke) Hnq) as Hf. split; [|done].
    intros jid j Hj Hty. destruct (F7 _ _ Hj) as [?|[He|(Hid & _ & _)]]; [by left|by rewrite Hty in He|by right].
Qed.

Definition demo_report (reason : string) : EndRequest :=
  mkEndRequest "s1" 42 reason [mkEndUtterance 1 "user" " hello " false] [] None.
Definition live_store : MemoryStore :=
  set_sessions {[ "s1" := demo_session StatusActive ]} NewMemoryStore.

Lemma live_store_keyed : sessions_keyed live_store.
Proof. by apply map_Forall_singleton. Qed.

Definition first_end : result error EndResponse * nat * MemoryStore :=
  run_prog (demo_oracle 5) (End_ demo_service (demo_report "")) 0 live_store.

Lemma end_answer_is_true_witness :
  let resp := mkEndResponse "s1" StatusEnded 42 1 false false in
  told "s1" resp first_end.2 /\ review_told "s1" "" resp first_end.2 /\ describes "s1" resp first_end.2.
Proof.
  destruct (end_answer_is_true demo_service (demo_report "") (demo_oracle 5) 0 live_store
              (mkEndResponse "s1" StatusEnded 42 1 false false) 7 first_end.2) as (Ht & Hr & Hd).
  - exact live_store_keyed.
  - vm_compute. reflexivity.
  - split; [exact Ht|]. split; [exact Hr|]. apply Hd. by intros ?.
Defined.

(** Between the two reports the worker takes the job and reviews the session. *)
Definition reviewed_meanwhile : list event :=
  [ev (EClaimNextJob "w" 10); ev (EMarkSessionReviewed "s1" "{}" 11)].

Lemma end_replay_changes_nothing_witness :
  exists answer m2 s2,
    run_prog (demo_oracle 19) (End_ demo_service (demo_report "abandoned")) 0 (run reviewed_meanwhile first_end.2)
      = (answer, m2, s2) /\
    sessions s2 = sessions (run reviewed_meanwhile first_end.2) /\
    match answer with Ok resp2 => end_AlreadyEnded resp2 = true /\ end_DurationSec resp2 = 42 | Err _ => False end.
Proof.
  destruct (end_replay_changes_nothing demo_service (demo_report "") (demo_report "abandoned")
    (demo_oracle 5) (demo_oracle 19) 0 0 live_store
    (mkEndResponse "s1" StatusEnded 42 1 false false) 7 first_end.2 reviewed_meanwhile)
    as (answer & m2 & s2 & H1 & H2 & _ & _ & _ & _ & _ & _ & H3).
  - by intros ?.
  - by intros ?.
  - exact live_store_keyed.
  - reflexivity.
  - vm_compute. reflexivity.
  - exists answer, m2, s2. split; [exact H1|]. split; [exact H2|]. destruct answer as [resp2|e].
    + destruct H3 as (Hal & Hdur & _). split; [exact Hal|exact Hdur].
    + destruct H3 as [Hnq _]. apply Hnq. apply HasSessionJob_true. vm_compute. reflexivity.
Defined.

(** ** Interference

    [End] reads the session and later ends it in a separate store call.  When
    the learner's client abandons the session in between, the gateway's end
    report finds it already closed — and still queues a review for it and
    promises one. *)
Definition abandoning_env : Oracle :=
  mkOracle (fun _ => 5) (fun n => String (byte_of (65 + Z.of_nat n)) EmptyString)
    (fun _ => Ok []) (fun _ _ _ => Ok ""%string) (fun _ _ => Ok 0)
    (fun _ _ => Err (mkGenError "transport" "x")) (fun _ _ => ""%string)
    (fun n => if bool_decide (n = 3%nat)
              then [ev (EEndSession "s1" StatusAbandoned 42
                          [mkUtterance "u" "s1" 1 "user" "hello" None None "" 4 false] [] 4 None)]
              else []).

(** With an abandoning end between the two store calls of an ordinary end
    report, the report is answered with status "abandoned" and a review still
    promised, and a review job is queued for the abandoned session. *)
Theorem racing_end_queues_abandoned_review :
  exists m s',
    run_prog abandoning_env (End_ demo_service (demo_report "")) 0 live_store =
      (Ok (mkEndResponse "s1" StatusAbandoned 42 1 true false), m, s') /\
    queued "s1" s' /\
    exists x, sessions s' !! "s1"%string = Some x /\ s_Status x = StatusAbandoned.
Proof.
  eexists _, _. split; [vm_compute; reflexivity|]. split.
  - apply HasSessionJob_true. vm_compute. reflexivity.
  - eexists. split; [vm_compute; reflexivity|reflexivity].
Qed.

(** Dually, an abandon report that loses the race to an ordinary end answers that
    no review will ever exist, while the session is ended and its review is
    queued by the other report. *)
Definition ending_env : Oracle :=
  mkOracle (fun _ => 5) (fun n => String (byte_of (65 + Z.of_nat n)) EmptyString)
    (fun _ => Ok []) (fun _ _ _ => Ok ""%string) (fun _ _ => Ok 0)
    (fun _ _ => Err (mkGenError "transport" "x")) (fun _ _ => ""%string)
    (fun n => if bool_decide (n = 3%nat)
              then [ev (EEndSession "s1" StatusEnded 42
                          [mkUtterance "u" "s1" 1 "user" "hello" None None "" 4 false] [] 4 None);
                    ev (EEnqueueJob (new_job "j" "s1" JobTypeSessionFinished 4))]
              else []).

Theorem racing_abandon_denies_the_review :
  exists m s',
    run_prog ending_env (End_ demo_service (demo_report ReasonAbandoned)) 0 live_store =
      (Ok (mkEndResponse "s1" StatusEnded 42 1 true true), m, s') /\ queued "s1" s' /\
    exists x, sessions s' !! "s1"%string = Some x /\ s_Status x = StatusEnded.
Proof.
  eexists _, _. split; [vm_compute; reflexivity|]. split.
  - apply HasSessionJob_true. vm_compute. reflexivity.
  - eexists. split; [vm_compute; reflexivity|reflexivity].
Qed.
