(* ===== verification/SessionWorker.v ===== *)
(** * The review worker (internal/session/review.go, internal/review/service.go)

    One pass of the worker claims a job, runs it and reports it back.  Context
    deadlines are not modelled: a job runs to its end.  The generator's answers
    are parameters; the documents built from them or from the stub, the
    retries, the fallback, the status checks and who marks what are the source's. *)
From S2P Require Import Prelude Prog GoString GoTime GoSort GoJson BlockOrder ReviewPayload ApiErr AICost Session SessionLaws SessionQueue SessionListing Effects ReviewGen SessionService SessionServiceLaws SessionEnd.

Open Scope Z_scope.
Open Scope prog_scope.

Definition defaultJobRetryDelay : duration := 2 * Second.
Definition reviewRetryAttempts : nat := 2.

(** [fmt]'s %q on a printable string without quotes or backslashes. *)
Definition quoted (s : string) : string :=
  String (byte_of 34) (s +:+ String (byte_of 34) EmptyString).

Record reviewArtifacts := mkArtifacts {
  ReviewJSON : string;
  RefineJSON : string;
  ArtifactGenerator : string;
}.

Definition stuckEventsFor (sessionID : string) : prog (list StuckEvent) :=
  r <- db (EListRescueEvents sessionID);
  match r with
  | Err _ => Ret []
  | Ok events =>
      Ret (map (fun e => mkStuckEvent (r_Seq e) (r_TurnID e) (r_Level e) (r_Path e)
                           (r_Ladder e) (r_UserOpened e) (r_Anchor e)) events)
  end.

Definition stuckAnchors (events : list StuckEvent) : list string :=
  omap (fun e => if String.eqb (TrimSpace (se_Anchor e)) "" then None else Some (se_Anchor e))
    events.

(** The lines of the transcript, joined with newlines. *)
Definition transcript_lines (us : list Utterance) : list string :=
  omap (fun u =>
          let text := TrimSpace (u_Text u) in
          if String.eqb text "" then None else
          let speaker := TrimSpace (u_Speaker u) in
          let speaker := if String.eqb speaker "" then SpeakerUser else speaker in
          Some (speaker +:+ ": " +:+ text)) us.

Definition newline : string := String (byte_of 10) EmptyString.

Definition renderTranscript (us : list Utterance) : string :=
  String.concat newline (transcript_lines us).

(** The retry loop with [attempts] tries left, the last error in hand. *)
Fixpoint generate_loop (attempts : nat) (req : GenRequest) (last : GenError)
  : prog (result GenError GenResult) :=
  match attempts with
  | O => Ret (Err last)
  | S attempts =>
      r <- call (Generate req);
      match r with
      | Ok res => Ret (Ok res)
      | Err e => if String.eqb (ge_kind e) FailureEmptySession then Ret (Err e)
                 else generate_loop attempts req e
      end
  end.

Section worker.
Variable svc : Service.
(** How [strconv] reads a number and prints it back ([ReviewPayload]). *)
Variable number_text : bytes -> option bytes.

Definition buildStubReviewArtifacts (x : Session) (us : list Utterance) : reviewArtifacts :=
  let refine := text empty_refine in
  mkArtifacts (buildReviewPayload number_text (text (stub_doc (length us))) refine x stubReviewGenerator)
    refine stubReviewGenerator.

Definition buildReviewArtifacts (x : Session) (us : list Utterance) : prog reviewArtifacts :=
  if negb (has_reviewGen svc) then Ret (buildStubReviewArtifacts x us) else
  stuck <- stuckEventsFor (s_ID x);
  r <- generate_loop reviewRetryAttempts
         (mkGenRequest (s_ID x) (s_UserID x) (s_SceneType x) (renderTranscript us) stuck)
         (mkGenError "" "");
  match r with
  | Err _ => Ret (buildStubReviewArtifacts x us)
  | Ok res =>
      let refine := StuckFirstBlocks (g_Refine res) (stuckAnchors stuck) in
      Ret (mkArtifacts (buildReviewPayload number_text (g_Review res) refine x (g_Generator res)) refine
             (g_Generator res))
  end.

Definition processSessionFinished (sessionID : string) : prog (result error unit) :=
  x <-! db (EGetSession sessionID);
  if String.eqb (s_Status x) StatusReviewed then Ret (Ok tt) else
  if negb (String.eqb (s_Status x) StatusEnded)
  then Ret (Err (Errorf ("session status " +:+ quoted (s_Status x) +:+ " is not ended"))) else
  us <-! db (EListUtterances sessionID);
  artifacts <- buildReviewArtifacts x us;
  now <- call Now;
  _x <-! db (EMarkSessionReviewed sessionID (ReviewJSON artifacts) now);
  Ret (Ok tt).

(** internal/review/service.go: every user row without an evaluation gets one. *)
Fixpoint eval_rows (us : list Utterance) : prog (result error unit) :=
  match us with
  | [] => Ret (Ok tt)
  | u :: us =>
      if negb (String.eqb (u_Speaker u) SpeakerUser) || negb (String.eqb (u_LLMEvalJSON u) "")
      then eval_rows us else
      raw <- call (Evaluate u);
      r <- db (ESaveUtteranceEval (u_ID u) raw);
      match r with
      | Err e => Ret (Err e)
      | Ok _ => eval_rows us
      end
  end.

Definition RunEvalJob (sessionID : string) : prog (result error unit) :=
  us <-! db (EListUtterances sessionID);
  eval_rows us.

Definition runJob (j : Job) : prog (result error unit) :=
  if String.eqb (j_JobType j) JobTypeSessionFinished
  then processSessionFinished (j_SessionID j)
  else if String.eqb (j_JobType j) JobTypeSessionEval
  then (if has_eval svc then RunEvalJob (j_SessionID j) else Ret (Ok tt))
  else Ret (Err (Errorf ("unsupported job type " +:+ quoted (j_JobType j)))).

(** [(ok, err)] *)
Definition ProcessNextJob (workerID : string) : prog (bool * option error) :=
  let workerID := TrimSpace workerID in
  if String.eqb workerID "" then Ret (false, Some (Errorf "worker id is required")) else
  now <- call Now;
  c <- db (EClaimNextJob workerID now);
  match c with
  | Err e => if Is e ErrNotFound then Ret (false, None) else Ret (false, Some e)
  | Ok j =>
      r <- runJob j;
      match r with
      | Err e =>
          f <- db (EFailJob (j_ID j) now (error_text e) defaultJobRetryDelay);
          match f with
          | Err fe => Ret (true, Some (Errorf ("fail job: " +:+ error_text fe +:+
                        " (original: " +:+ error_text e +:+ ")")))
          | Ok _ => Ret (true, Some e)
          end
      | Ok _ =>
          d <- db (ECompleteJob (j_ID j) now);
          match d with
          | Ok _ => Ret (true, None)
          | Err e =>
              f <- db (EFailJob (j_ID j) now (error_text e) defaultJobRetryDelay);
              match f with
              | Err fe => Ret (true, Some (Errorf ("fail job after complete error: " +:+
                            error_text fe +:+ " (original: " +:+ error_text e +:+ ")")))
              | Ok _ => Ret (true, Some e)
              end
          end
      end
  end.

(** ** Running a job does not touch the queue *)

Lemma run_stuck o id n s :
  alone o -> exists es, run_prog o (stuckEventsFor id) n s = (es, S n, s).
Proof.
  intros Ha. unfold stuckEventsFor. rewrite (run_db o Ha). cbn.
  destruct (ListRescueEvents id s); eauto.
Qed.

Lemma run_generate o k req last n s :
  exists r m, run_prog o (generate_loop k req last) n s = (r, m, s).
Proof.
  revert last n. induction k as [|k IH]; intros last n; cbn; [by eexists _, _|].
  destruct (o_generate o n req); [by eexists _, _|].
  case_match; [by eexists _, _|]. apply IH.
Qed.

Lemma run_artifacts o x us n s :
  alone o -> exists a m, run_prog o (buildReviewArtifacts x us) n s = (a, m, s).
Proof.
  intros Ha. unfold buildReviewArtifacts. destruct (negb _); [by eexists _, _|].
  rewrite run_bind. destruct (run_stuck o (s_ID x) n s Ha) as [es ->].
  rewrite run_bind.
  destruct (run_generate o reviewRetryAttempts (mkGenRequest (s_ID x) (s_UserID x)
    (s_SceneType x) (renderTranscript us) es) (mkGenError "" "") (S n) s) as (r & m & ->).
  destruct r; by eexists _, _.
Qed.

Lemma run_eval_rows o us n s :
  alone o ->
  exists r m s', run_prog o (eval_rows us) n s = (r, m, s') /\ jobs s' = jobs s.
Proof.
  intros Ha. revert n s. induction us as [|u us IH]; intros n s; cbn [eval_rows].
  { by eexists _, _, _. }
  destruct (_ || _); [apply IH|]. rewrite run_bind. cbn [call run_prog perform runs_svc perform_svc bind].
  rewrite (run_db o Ha). cbn [handle].
  assert (jobs (SaveUtteranceEval (u_ID u) (o_evaluate o n u) s).2 = jobs s) as Hj
    by (unfold SaveUtteranceEval; repeat case_match; done).
  destruct (SaveUtteranceEval _ _ s) as [[[]|e] s']; cbn in *.
  - destruct (IH (S (S n)) s') as (r & m & s2 & -> & E). eexists _, _, _. split; [done|congruence].
  - by eexists _, _, _.
Qed.

Lemma run_process o id n s :
  alone o ->
  exists r m s', run_prog o (processSessionFinished id) n s = (r, m, s') /\ jobs s' = jobs s /\
  forall x, sessions s !! id = Some x ->
    (s_Status x = StatusEnded ->
       r = Ok tt /\ exists x', sessions s' !! id = Some x' /\ s_Status x' = StatusReviewed) /\
    (s_Status x = StatusReviewed -> r = Ok tt /\ s' = s) /\
    (s_Status x <> StatusEnded -> s_Status x <> StatusReviewed -> exists e, r = Err e).
Proof.
  intros Ha. unfold processSessionFinished. rewrite (run_db o Ha). cbn [handle fst snd].
  unfold GetSession. destruct (sessions s !! id) as [x|] eqn:Hx.
  2: { eexists _, _, _. split; [done|]. split; [done|]. congruence. }
  destruct (String.eqb_spec (s_Status x) StatusReviewed) as [E|E].
  { eexists _, _, _. split; [done|]. split; [done|]. intros ? [= <-]. rewrite E.
    split; [done|]. split; [done|]. done. }
  destruct (String.eqb_spec (s_Status x) StatusEnded) as [E2|E2]; cbn [negb].
  2: { eexists _, _, _. split; [done|]. split; [done|]. intros ? [= <-].
       split; [done|]. split; [done|]. eauto. }
  rewrite (run_db o Ha). cbn [handle fst snd]. unfold ListUtterances. rewrite Hx.
  rewrite run_bind. destruct (run_artifacts o x (sort_Slice (less_by u_Seq)
    (rows_of id (utterances s))) (S (S n)) s Ha) as (a & m & ->).
  rewrite run_now, (run_db o Ha). cbn [handle]. unfold MarkSessionReviewed. rewrite Hx.
  rewrite (proj2 (String.eqb_neq _ _) E), (proj2 (String.eqb_eq _ _) E2). cbn.
  eexists _, _, _. split; [done|]. split; [done|]. intros ? [= <-].
  split; [|done]. intros _. split; [done|].
  eexists. split; [apply lookup_insert_eq|done].
Qed.

Lemma run_job_queue o j n s :
  alone o -> exists r m s', run_prog o (runJob j) n s = (r, m, s') /\ jobs s' = jobs s.
Proof.
  intros Ha. unfold runJob, RunEvalJob. destruct (String.eqb (j_JobType j) _).
  { destruct (run_process o (j_SessionID j) n s Ha) as (r & m & s' & -> & E & _).
    by eexists _, _, _. }
  destruct (String.eqb (j_JobType j) _); [|by eexists _, _, _].
  destruct (has_eval svc); [|by eexists _, _, _].
  rewrite (run_db o Ha). cbn [handle fst snd].
  destruct (ListUtterances _ s); [|by eexists _, _, _]. by apply run_eval_rows.
Qed.

(** A pass of the worker that runs alone never strands the job it takes: when it returns, the
    job is done, or back in the queue two seconds later with a try left, or
    failed with none left — and the pass reports exactly that.  When it finds
    nothing it changes nothing. *)
Theorem worker_pass_settles_job o w n s :
  alone o -> jobs_keyed (jobs s) -> TrimSpace w <> ""%string ->
  let '(res, _, s') := run_prog o (ProcessNextJob w) n s in
  match res with
  | (false, e) => e = None /\ s' = s /\
      forall id j, jobs s !! id = Some j -> claimable (o_now o n) j = false
  | (true, e) =>
      exists id j j', jobs s !! id = Some j /\ claimable (o_now o n) j = true /\
        jobs s' !! id = Some j' /\ j_Attempts j' = int64 (j_Attempts j + 1) /\
        (j_Status j' = JobStatusDone <-> e = None) /\
        (e <> None ->
           if j_Attempts j' <? MaxJobAttempts
           then j_Status j' = JobStatusPending /\
                j_AvailableAt j' = Add (o_now o n) defaultJobRetryDelay
           else j_Status j' = JobStatusFailed)
  end.
Proof.
  intros Ha Hk Hw. unfold ProcessNextJob. rewrite (proj2 (String.eqb_neq _ _) Hw).
  rewrite run_now, (run_db o Ha). cbn [handle].
  destruct (ClaimNextJob (TrimSpace w) (o_now o n) s) as [[j|e] s1] eqn:Hc; cbn [fst snd].
  - destruct (claim_inv _ _ _ _ _ Hc) as (id & j0 & Hj & Hne & Hcl & -> & ->).
    destruct (Hk _ _ Hj) as [Hid _]. rewrite run_bind.
    set (s2 := set_jobs _ s). set (j1 := claimed _ _ j0).
    destruct (run_job_queue o j1 (S (S n)) s2 Ha) as (r & m & s3 & -> & Hjobs).
    assert (j_ID j1 = id) as Hid1 by exact Hid.
    assert (jobs s3 !! id = Some j1) as Hj1 by (rewrite Hjobs; apply lookup_insert_eq).
    destruct r as [[]|e]; rewrite (run_db o Ha); cbn [handle].
    + unfold CompleteJob. rewrite Hid1, Hj1. cbn.
      exists id, j0. eexists. rewrite lookup_insert_eq. repeat split; try done.
    + unfold FailJob. rewrite Hid1, Hj1. cbn.
      exists id, j0. eexists. rewrite lookup_insert_eq. cbn. repeat split; try done.
      * by destruct (_ <? _).
      * intros _. by destruct (_ <? _).
  - assert (e = ErrNotFound /\ s1 = s /\
            forall id j, jobs s !! id = Some j -> claimable (o_now o n) j = false) as (-> & -> & H).
    { pose proof (map_entries_keyed _ Hk) as Hm.
      pose proof (claim_select_best (o_now o n) _ Hm) as Hb. unfold ClaimNextJob in Hc.
      destruct (claim_select _ _) as [id j]. destruct (String.eqb_spec id ""); [|done].
      injection Hc as <- <-. split; [done|]. split; [done|].
      destruct Hb as [[_ Hb]|[Hb _]]; [|done]. intros id' k Hk'.
      rewrite Forall_forall in Hb. by apply elem_of_map_to_list, Hb in Hk'. }
    done.
Qed.

(** C24: A finished session is reviewed whatever the generator does: when the job a
    worker claims is the review of an ended session and the pass runs alone, it reports success,
    the job is done and the session is reviewed — a failing, refusing or
    missing generator costs the learner the model's text, never the review. *)
Theorem review_always_arrives o w n s j s1 x :
  alone o -> jobs_keyed (jobs s) -> TrimSpace w <> ""%string ->
  ClaimNextJob (TrimSpace w) (o_now o n) s = (Ok j, s1) ->
  j_JobType j = JobTypeSessionFinished ->
  sessions s !! j_SessionID j = Some x -> s_Status x = StatusEnded ->
  exists m s2 x2 j2,
    run_prog o (ProcessNextJob w) n s = ((true, None), m, s2) /\
    sessions s2 !! j_SessionID j = Some x2 /\ s_Status x2 = StatusReviewed /\
    jobs s2 !! j_ID j = Some j2 /\ j_Status j2 = JobStatusDone.
Proof.
  intros Ha Hk Hw Hc Hty Hx Hst. unfold ProcessNextJob.
  rewrite (proj2 (String.eqb_neq _ _) Hw), run_now, (run_db o Ha). cbn [handle].
  rewrite Hc. cbn [fst snd]. destruct (claim_inv _ _ _ _ _ Hc) as (id & j0 & Hj & _ & _ & Ej & ->).
  destruct (Hk _ _ Hj) as [Hid _]. rewrite run_bind. unfold runJob.
  rewrite (proj2 (String.eqb_eq _ _) Hty).
  destruct (run_process o (j_SessionID j) (S (S n)) (set_jobs (<[id:=j]> (jobs s)) s) Ha)
    as (r & m & s3 & -> & Hjobs & Hspec).
  destruct (Hspec x Hx) as [H _]. destruct (H Hst) as (-> & x2 & Hx2 & Hr).
  rewrite (run_db o Ha). cbn [handle].
  assert (jobs s3 !! j_ID j = Some j) as Hj3.
  { rewrite Hjobs. replace (j_ID j) with id by (by rewrite Ej, <- Hid). apply lookup_insert_eq. }
  unfold CompleteJob. rewrite Hj3. replace (j_Status j) with JobStatusProcessing by (by rewrite Ej).
  cbn. do 4 eexists. split; [done|]. split; [exact Hx2|]. split; [done|].
  split; [apply lookup_insert_eq|done].
Qed.
End worker.

Definition busy_store : MemoryStore :=
  set_jobs {[ "j1" := demo_job "j1" 3 ]}
    (set_sessions {[ "s1" := demo_session StatusEnded ]} NewMemoryStore).

Lemma busy_store_keyed : jobs_keyed (jobs busy_store).
Proof. by apply map_Forall_singleton. Qed.

Definition with_generator : Service := mkService 0 "" 0 false true false false.

Lemma worker_pass_settles_job_witness :
  exists j', jobs (run_prog (demo_oracle 9)
      (ProcessNextJob with_generator same_number "w") 0 busy_store).2 !! "j1"%string = Some j' /\
    j_Status j' = JobStatusDone.
Proof.
  pose proof (worker_pass_settles_job with_generator same_number (demo_oracle 9) "w" 0 busy_store) as H.
  destruct (run_prog _ _ _ _) as [[res m] s'] eqn:E.
  vm_compute in E. injection E as <- _ <-.
  destruct H as (id & j & j' & Hj & _ & Hj' & _ & Hd & _).
  - by intros ?.
  - exact busy_store_keyed.
  - discriminate.
  - eexists. split; [reflexivity|]. reflexivity.
Defined.

Lemma review_always_arrives_witness :
  exists m s2 x2 j2,
    run_prog (demo_oracle 9)
      (ProcessNextJob with_generator same_number "w") 0 busy_store = ((true, None), m, s2) /\
    sessions s2 !! "s1"%string = Some x2 /\ s_Status x2 = StatusReviewed /\
    jobs s2 !! "j1"%string = Some j2 /\ j_Status j2 = JobStatusDone.
Proof.
  apply (review_always_arrives with_generator same_number (demo_oracle 9) "w" 0 busy_store (claimed "w" 9 (demo_job "j1" 3))
    (set_jobs (<["j1" := claimed "w" 9 (demo_job "j1" 3)]> (jobs busy_store)) busy_store)
    (demo_session StatusEnded)).
  - by intros ?.
  - exact busy_store_keyed.
  - discriminate.
  - vm_compute. reflexivity.
  - reflexivity.
  - reflexivity.
  - reflexivity.
Defined.
