(* ===== verification/ReviewGrounded.v ===== *)
(** * Reviews are grounded in what was said

    The worker of [SessionWorker] with the generator of [ReviewGen]: the review a
    session ends up with is the stub, or was built from documents that pass every
    rule of [EvalRules] against the transcript of that session. *)
From S2P Require Import Prelude Prog GoString GoUnicode GoTime GoSort GoJson GoJsonLaws GoJsonMap BlockOrder ApiErr AICost Session ReviewPayload EvalRules SessionLaws SessionQueue SessionListing Effects ReviewGen SessionService SessionServiceLaws SessionEnd SessionWorker.

Open Scope Z_scope.
Open Scope prog_scope.

Section grounded.
Variable number_text : bytes -> option bytes.
Variable client : nat -> CompletionRequest -> result string CompletionResponse.

(** The checks behind an accepted generation. *)
Lemma Generate_grounded Complete req r :
  Generate_ number_text Complete req = Ok r ->
  sample_rules number_text (mkSample (TrimSpace (g_SessionID req)) (TrimSpace (g_Transcript req)) (gt_Review r) (gt_Refine r)).
Proof.
  unfold Generate_. destruct (String.eqb _ _); [done|]. destruct (String.eqb _ _); [done|].
  destruct (String.eqb _ _); [done|]. destruct (Complete _) as [resp|]; [|done].
  destruct (String.eqb _ _); [done|]. destruct (parseGeneratedDocument _ _) as [[v f]|]; [|done].
  destruct (ValidateSample _ _) eqn:E; [|done]. intros [= <-]. by apply ValidateSample_nil in E.
Qed.

(** The oracle answers generation requests through the adapter. *)
Definition adapted (o : Oracle) : Prop :=
  forall n req, o_generate o n req = session_result (Generate_ number_text (client n) req).

(** A review payload built from a generation that passed the checks. *)
Definition grounded_review (x : Session) (us : list Utterance) (stored : string) : Prop :=
  exists review refine gen anchors,
    sample_rules number_text
      (mkSample (TrimSpace (s_ID x)) (TrimSpace (renderTranscript us)) review refine) /\
    stored = buildReviewPayload number_text (text review) (StuckFirstBlocks (text refine) anchors) x gen.

Definition stub_review (x : Session) (us : list Utterance) : string :=
  ReviewJSON (buildStubReviewArtifacts number_text x us).

Lemma run_generate_ok o k req last n s :
  adapted o ->
  match (run_prog o (generate_loop k req last) n s).1.1 with
  | Ok res => exists c r, Generate_ number_text c req = Ok r /\
      res = mkGenResult (text (gt_Review r)) (text (gt_Refine r)) (gt_Generator r)
  | Err _ => True
  end.
Proof.
  intros Ha. revert last n. induction k as [|k IH]; intros last n; cbn; [done|].
  rewrite Ha. destruct (Generate_ number_text (client n) req) as [r|e] eqn:E; cbn.
  - by exists (client n), r.
  - destruct (String.eqb _ _); [done|]. apply IH.
Qed.

Lemma artifacts_grounded svc o x us n s :
  alone o -> adapted o ->
  let a := (run_prog o (buildReviewArtifacts svc number_text x us) n s).1.1 in
  ReviewJSON a = stub_review x us \/ grounded_review x us (ReviewJSON a).
Proof.
  intros Hal Ha. unfold buildReviewArtifacts. destruct (negb _); [by left|].
  rewrite run_bind. destruct (run_stuck o (s_ID x) n s Hal) as [es ->]. rewrite run_bind.
  pose proof (run_generate_ok o reviewRetryAttempts
    (mkGenRequest (s_ID x) (s_UserID x) (s_SceneType x) (renderTranscript us) es) (mkGenError "" "") (S n) s Ha) as H.
  destruct (run_prog o (generate_loop _ _ _) (S n) s) as [[[res|e] m] s'] eqn:E; cbn in *; [|by left].
  right. destruct H as (c & r & Hr & ->). apply Generate_grounded in Hr. cbn in Hr.
  by exists (gt_Review r), (gt_Refine r), (gt_Generator r), (stuckAnchors es).
Qed.

(** C1: No review quotes words nobody said.  When the worker reviews an ended
    session, the review it stores is the stub, or is built from documents whose
    every quote and anchor occurs in the transcript of that session, with at
    most five issues, three suggestions, three to eight comparisons, at least
    one phrase block, every block complete and every tag one of the closed
    sets — whatever the model answered. *)
Theorem stored_review_is_grounded svc o x n s :
  alone o -> adapted o ->
  sessions s !! s_ID x = Some x -> s_Status x = StatusEnded ->
  exists m s' x' us, run_prog o (processSessionFinished svc number_text (s_ID x)) n s = (Ok tt, m, s') /\
    ListUtterances (s_ID x) s = Ok us /\
    sessions s' !! s_ID x = Some x' /\ s_Status x' = StatusReviewed /\
    (s_ReviewJSON x' = stub_review x us \/ grounded_review x us (s_ReviewJSON x')).
Proof.
  intros Hal Ha Hx Hst. unfold processSessionFinished. rewrite (run_db o Hal). cbn [handle fst snd].
  unfold GetSession. rewrite Hx. rewrite Hst. change (String.eqb StatusEnded StatusReviewed) with false.
  change (negb (String.eqb StatusEnded StatusEnded)) with false. cbn iota.
  rewrite (run_db o Hal). cbn [handle fst snd]. unfold ListUtterances. rewrite Hx.
  set (us := sort_Slice _ _). rewrite run_bind.
  pose proof (artifacts_grounded svc o x us (S (S n)) s Hal Ha) as Hg.
  destruct (run_artifacts svc number_text o x us (S (S n)) s Hal) as (a & m & Hrun). rewrite Hrun in *. cbn [fst snd] in Hg.
  rewrite run_now, (run_db o Hal). cbn [handle]. unfold MarkSessionReviewed. rewrite Hx, Hst. cbn.
  do 4 eexists. split; [done|]. split; [done|]. split; [apply lookup_insert_eq|]. by split.
Qed.
End grounded.

(** ** A model that answers *)
Definition quoting (s : string) : string :=
  of_bytes (map (fun a => if Ascii.eqb a "'" then dquote else a) (to_bytes s)).

(** No goal, three comparisons that compare nothing, and one block. *)
Definition thin_reply : string := quoting
  "{'review':{'comparisons':[1,2,3]},'refine':{'blocks':[{'intent_zh':'x','expression_en':'y','anchor_user_said':'hi','scene_tag':'standup','function_tag':'ask'}]}}".

Definition thin_client (n : nat) (req : CompletionRequest) : result string CompletionResponse :=
  Ok (mkCompletionResponse thin_reply "stop" 1 1 2 "m" 3).

Definition thin_oracle : Oracle :=
  mkOracle (fun _ => 9) (fun n => "id"%string) (fun _ => Ok []) (fun _ _ _ => Ok ""%string) (fun _ _ => Ok 0)
    (fun n req => session_result (Generate_ same_number (thin_client n) req)) (fun _ _ => ""%string) (fun _ => []).

(** The checks accept a review without a goal whose comparisons are numbers. *)
Lemma comparisons_are_not_checked :
  match Generate_ same_number (thin_client 0) (mkGenRequest "s1" "u1" "demo" "user: hi" []) with
  | Ok r => text (gt_Review r) = quoting "{'comparisons':[1,2,3]}"
  | Err _ => False
  end.
Proof. by vm_compute. Qed.

Lemma stored_review_is_grounded_witness :
  exists m s' x' us,
    run_prog thin_oracle (processSessionFinished with_generator same_number "s1") 0 told_store = (Ok tt, m, s') /\
    ListUtterances "s1" told_store = Ok us /\
    sessions s' !! "s1"%string = Some x' /\ s_Status x' = StatusReviewed /\
    (s_ReviewJSON x' = stub_review same_number (demo_session StatusEnded) us \/
     grounded_review same_number (demo_session StatusEnded) us (s_ReviewJSON x')) /\
    String.eqb (s_ReviewJSON x') (stub_review same_number (demo_session StatusEnded) us) = false.
Proof.
  destruct (stored_review_is_grounded same_number thin_client with_generator thin_oracle
    (demo_session StatusEnded) 0 told_store) as (m & s' & x' & us & Hrun & Hus & Hx & Hst & Hg).
  - by intros ?.
  - by intros ?.
  - done.
  - done.
  - exists m, s', x', us. split; [exact Hrun|]. split; [exact Hus|]. split; [exact Hx|]. split; [exact Hst|].
    split; [exact Hg|]. vm_compute in Hus. injection Hus as <-. vm_compute in Hrun. injection Hrun as _ <-.
    vm_compute in Hx. injection Hx as <-. by vm_compute.
Defined.
