(* ===== verification/Corpus.v ===== *)
(** * The phrase-block corpus: data and schedule

    [internal/corpus/types.go], [schedule.go] and the data of
    [memory_store.go].  [EaseFactor] is a [float64] nobody computes with: it is
    kept as its IEEE-754 bits.  Pointers to times and strings are options, and
    the [clone*] functions are identities on such values. *)
From S2P Require Import Prelude GoString GoUnicode GoTime GoSort.

Open Scope Z_scope.

Definition StateNew : string := "new".
Definition StateTraining : string := "training".
Definition StateAutomated : string := "automated".

Definition validStates : list string := [StateNew; StateTraining; StateAutomated].
Definition validSceneTags : list string :=
  ["standup"; "review"; "1on1"; "interview"; "casual"]%string.
Definition validFunctionTags : list string :=
  ["object"; "clarify"; "report"; "propose"; "agree"; "disagree"; "ask"; "summarize"; "defer";
   "commit"]%string.

Record PhraseBlock := mkBlock {
  b_ID : string;
  b_UserID : string;
  b_IntentZH : string;
  b_ExpressionEN : string;
  b_ExpressionVersion : Z;
  b_AnchorUserSaid : string;
  b_SceneTag : string;
  b_FunctionTag : string;
  b_State : string;
  b_SuccessStreak : Z;
  b_NextDueAt : time;
  b_EaseFactor : Z;
  b_RealUseCount : Z;
  b_TotalUses : Z;
  b_LastUsedAt : option time;
  b_IsFavorite : bool;
  b_PinnedAt : option time;
  b_SourceSessionID : option string;
  b_DeletedAt : option time;
  b_CreatedAt : time;
  b_UpdatedAt : time;
}.

Definition RealUseSourceHit : string := "hit".
Definition RealUseSourceCheckin : string := "checkin".

Definition FeedbackNotIdiomatic : string := "not_idiomatic".
Definition FeedbackNotUseful : string := "not_useful".
Definition FeedbackWrongMeaning : string := "wrong_meaning".

Definition ValidFeedbackReason (reason : string) : bool :=
  String.eqb reason FeedbackNotIdiomatic || String.eqb reason FeedbackNotUseful ||
  String.eqb reason FeedbackWrongMeaning.

Record BlockEdit := mkBlockEdit {
  e_ID : string;
  e_UserID : string;
  e_BlockID : string;
  e_Version : Z;
  e_OldExpression : string;
  e_NewExpression : string;
  e_CreatedAt : time;
}.

Record RealUse := mkRealUse {
  ru_ID : string;
  ru_UserID : string;
  ru_BlockID : string;
  ru_Source : string;
  ru_RefID : string;
  ru_UsedAt : time;
}.

(** [AlreadyRecorded] is never written by the store or the service. *)
Record Feedback := mkFeedback {
  f_ID : string;
  f_UserID : string;
  f_BlockID : string;
  f_Reason : string;
  f_DeletedAt : option time;
  f_CreatedAt : time;
  f_AlreadyRecorded : bool;
}.

(** ** Field updates *)

Definition with_schedule (state : string) (streak : Z) (due updated : time) (b : PhraseBlock)
  : PhraseBlock :=
  mkBlock (b_ID b) (b_UserID b) (b_IntentZH b) (b_ExpressionEN b) (b_ExpressionVersion b)
    (b_AnchorUserSaid b) (b_SceneTag b) (b_FunctionTag b) state streak due (b_EaseFactor b)
    (b_RealUseCount b) (b_TotalUses b) (b_LastUsedAt b) (b_IsFavorite b) (b_PinnedAt b)
    (b_SourceSessionID b) (b_DeletedAt b) (b_CreatedAt b) updated.

(** [RealUseCount++; TotalUses++; LastUsedAt = &usedAt] *)
Definition with_use (usedAt : time) (b : PhraseBlock) : PhraseBlock :=
  mkBlock (b_ID b) (b_UserID b) (b_IntentZH b) (b_ExpressionEN b) (b_ExpressionVersion b)
    (b_AnchorUserSaid b) (b_SceneTag b) (b_FunctionTag b) (b_State b) (b_SuccessStreak b)
    (b_NextDueAt b) (b_EaseFactor b) (int64 (b_RealUseCount b + 1)) (int64 (b_TotalUses b + 1))
    (Some usedAt) (b_IsFavorite b) (b_PinnedAt b) (b_SourceSessionID b) (b_DeletedAt b)
    (b_CreatedAt b) (b_UpdatedAt b).

Definition with_marks (favorite : bool) (pinned : option time) (updated : time) (b : PhraseBlock)
  : PhraseBlock :=
  mkBlock (b_ID b) (b_UserID b) (b_IntentZH b) (b_ExpressionEN b) (b_ExpressionVersion b)
    (b_AnchorUserSaid b) (b_SceneTag b) (b_FunctionTag b) (b_State b) (b_SuccessStreak b)
    (b_NextDueAt b) (b_EaseFactor b) (b_RealUseCount b) (b_TotalUses b) (b_LastUsedAt b) favorite
    pinned (b_SourceSessionID b) (b_DeletedAt b) (b_CreatedAt b) updated.

Definition with_deletion (deleted : option time) (updated : time) (b : PhraseBlock)
  : PhraseBlock :=
  mkBlock (b_ID b) (b_UserID b) (b_IntentZH b) (b_ExpressionEN b) (b_ExpressionVersion b)
    (b_AnchorUserSaid b) (b_SceneTag b) (b_FunctionTag b) (b_State b) (b_SuccessStreak b)
    (b_NextDueAt b) (b_EaseFactor b) (b_RealUseCount b) (b_TotalUses b) (b_LastUsedAt b)
    (b_IsFavorite b) (b_PinnedAt b) (b_SourceSessionID b) deleted (b_CreatedAt b) updated.

Definition with_user (user : string) (b : PhraseBlock) : PhraseBlock :=
  mkBlock (b_ID b) user (b_IntentZH b) (b_ExpressionEN b) (b_ExpressionVersion b)
    (b_AnchorUserSaid b) (b_SceneTag b) (b_FunctionTag b) (b_State b) (b_SuccessStreak b)
    (b_NextDueAt b) (b_EaseFactor b) (b_RealUseCount b) (b_TotalUses b) (b_LastUsedAt b)
    (b_IsFavorite b) (b_PinnedAt b) (b_SourceSessionID b) (b_DeletedAt b) (b_CreatedAt b)
    (b_UpdatedAt b).

Definition with_version (version : Z) (updated : time) (b : PhraseBlock) : PhraseBlock :=
  mkBlock (b_ID b) (b_UserID b) (b_IntentZH b) (b_ExpressionEN b) version
    (b_AnchorUserSaid b) (b_SceneTag b) (b_FunctionTag b) (b_State b) (b_SuccessStreak b)
    (b_NextDueAt b) (b_EaseFactor b) (b_RealUseCount b) (b_TotalUses b) (b_LastUsedAt b)
    (b_IsFavorite b) (b_PinnedAt b) (b_SourceSessionID b) (b_DeletedAt b) (b_CreatedAt b) updated.

(** ** The repetition ladder (schedule.go) *)

Record Schedule := mkSchedule {
  PromoteStreak : Z;
  TrainingInterval : duration;
  AutomatedInterval : duration;
  AutomatedReviewInterval : duration;
  FailInterval : duration;
}.

Definition DefaultSchedule : Schedule :=
  mkSchedule 3 (24 * Hour) (7 * 24 * Hour) (30 * 24 * Hour) Hour.

Definition Normalize (s : Schedule) : Schedule :=
  let d := DefaultSchedule in
  mkSchedule
    (if PromoteStreak s <? 1 then PromoteStreak d else PromoteStreak s)
    (if TrainingInterval s <=? 0 then TrainingInterval d else TrainingInterval s)
    (if AutomatedInterval s <=? 0 then AutomatedInterval d else AutomatedInterval s)
    (if AutomatedReviewInterval s <=? 0 then AutomatedReviewInterval d
     else AutomatedReviewInterval s)
    (if FailInterval s <=? 0 then FailInterval d else FailInterval s).

Definition ApplyJudge (s : Schedule) (block : PhraseBlock) (pass : bool) (now : time)
  : PhraseBlock :=
  let s := Normalize s in
  if negb pass then with_schedule StateTraining 0 (Add now (FailInterval s)) now block
  else if String.eqb (b_State block) StateAutomated then
    with_schedule (b_State block) (b_SuccessStreak block) (Add now (AutomatedReviewInterval s)) now
      block
  else
    let streak := int64 (b_SuccessStreak block + 1) in
    if PromoteStreak s <=? streak
    then with_schedule StateAutomated streak (Add now (AutomatedInterval s)) now block
    else with_schedule StateTraining streak (Add now (TrainingInterval s)) now block.

Arguments Normalize : simpl never.
Arguments ApplyJudge : simpl never.

(** ** The store's data *)

Record phraseBlockUse := mkUse {
  u_UserID : string;
  u_SessionID : string;
  u_TurnID : string;
  u_BlockID : string;
  u_UsedAtMs : Z;
}.

Record Hit := mkHit { h_BlockID : string; h_TurnID : string; h_DetectedAtMs : Z }.

Record RecentHit := mkRecentHit {
  rh_BlockID : string;
  rh_TurnID : string;
  rh_UsedAtMs : Z;
  rh_IntentZH : string;
  rh_ChunkEN : string;
}.

Definition CursorModeBrowse : string := "browse".
Definition CursorModeDelta : string := "delta".

Record ListCursor := mkCursor {
  c_Mode : string;
  c_PinnedAt : option time;
  c_CreatedAt : time;
  c_UpdatedAt : time;
  c_IsPinned : bool;
  c_IsFavorite : bool;
  c_ID : string;
}.

Record ListFilter := mkFilter {
  lf_UserID : string;
  lf_SceneTag : string;
  lf_FunctionTag : string;
  lf_Keyword : string;
  lf_FavoriteOnly : bool;
  lf_PinnedOnly : bool;
  lf_Incremental : bool;
  lf_UpdatedAfter : option time;
  lf_After : option ListCursor;
  lf_Limit : Z;
}.

Record MemoryStore := mkStore {
  schedule : Schedule;
  blocks : gmap string PhraseBlock;
  uses : gmap string phraseBlockUse;
  feedback : list Feedback;
  realUses : list RealUse;
  edits : list BlockEdit;
}.

Definition NewMemoryStore : MemoryStore := mkStore (mkSchedule 0 0 0 0 0) ∅ ∅ [] [] [].

Definition set_schedule (x : Schedule) (s : MemoryStore) : MemoryStore :=
  mkStore x (blocks s) (uses s) (feedback s) (realUses s) (edits s).
Definition set_blocks (x : gmap string PhraseBlock) (s : MemoryStore) : MemoryStore :=
  mkStore (schedule s) x (uses s) (feedback s) (realUses s) (edits s).
Definition set_uses (x : gmap string phraseBlockUse) (s : MemoryStore) : MemoryStore :=
  mkStore (schedule s) (blocks s) x (feedback s) (realUses s) (edits s).
Definition set_feedback (x : list Feedback) (s : MemoryStore) : MemoryStore :=
  mkStore (schedule s) (blocks s) (uses s) x (realUses s) (edits s).
Definition set_realUses (x : list RealUse) (s : MemoryStore) : MemoryStore :=
  mkStore (schedule s) (blocks s) (uses s) (feedback s) x (edits s).
Definition set_edits (x : list BlockEdit) (s : MemoryStore) : MemoryStore :=
  mkStore (schedule s) (blocks s) (uses s) (feedback s) (realUses s) x.

(** * The repetition ladder

    What a block's schedule is after any sequence of judgements: drill answers
    and real-world uses go through the same [ApplyJudge]. *)


(** Judgements in order: passed or not, and when. *)
Definition judge_all (sc : Schedule) (b : PhraseBlock) (js : list (bool * time)) : PhraseBlock :=
  foldl (fun b (j : bool * time) => ApplyJudge sc b j.1 j.2) b js.

(** The passes since the last failure. *)
Definition passes_in_a_row (js : list (bool * time)) : Z :=
  foldl (fun n (j : bool * time) => if j.1 then n + 1 else 0) 0 js.

(** How long a block rests after [n] passes in a row. *)
Definition rest_after (sc : Schedule) (n : Z) : duration :=
  if n =? 0 then FailInterval sc
  else if n <? PromoteStreak sc then TrainingInterval sc
  else if n =? PromoteStreak sc then AutomatedInterval sc
  else AutomatedReviewInterval sc.

(** The schedule of a block that passed [n] times in a row. *)
Definition on_rung (sc : Schedule) (n : Z) (b : PhraseBlock) : Prop :=
  b_SuccessStreak b = Z.min n (PromoteStreak sc) /\
  (b_State b = StateAutomated <-> PromoteStreak sc <= n).

Lemma Normalize_pos sc :
  1 <= PromoteStreak (Normalize sc) /\ 0 < TrainingInterval (Normalize sc) /\
  0 < AutomatedInterval (Normalize sc) /\ 0 < AutomatedReviewInterval (Normalize sc) /\
  0 < FailInterval (Normalize sc).
Proof. unfold Normalize, DefaultSchedule, Hour, Minute, Second, Millisecond. cbn. repeat case_match; lia. Qed.

Lemma Normalize_streak_range sc :
  PromoteStreak sc <= max_int64 -> PromoteStreak (Normalize sc) <= max_int64.
Proof. unfold Normalize, max_int64. cbn. case_match; lia. Qed.

Lemma passes_snoc js (j : bool * time) : passes_in_a_row (js ++ [j]) = if j.1 then passes_in_a_row js + 1 else 0.
Proof. unfold passes_in_a_row. by rewrite foldl_app. Qed.

Lemma passes_nonneg js : 0 <= passes_in_a_row js.
Proof.
  induction js as [|j js IH] using rev_ind; [done|]. rewrite passes_snoc. case_match; lia.
Qed.

Lemma StateTraining_automated : StateTraining <> StateAutomated.
Proof. discriminate. Qed.

Lemma judge_on_rung sc b n (p : bool) (t : time) :
  PromoteStreak sc <= max_int64 -> 0 <= n -> on_rung (Normalize sc) n b ->
  let m := if p then n + 1 else 0 in
  on_rung (Normalize sc) m (ApplyJudge sc b p t) /\
  (b_State (ApplyJudge sc b p t) = StateTraining <-> m < PromoteStreak (Normalize sc)) /\
  b_NextDueAt (ApplyJudge sc b p t) = Add t (rest_after (Normalize sc) m) /\
  b_UpdatedAt (ApplyJudge sc b p t) = t.
Proof.
  intros HP%Normalize_streak_range Hn [Hs Ha]. destruct (Normalize_pos sc) as [Hpos _].
  pose proof StateTraining_automated. unfold ApplyJudge, on_rung, rest_after.
  set (N := PromoteStreak (Normalize sc)) in *. destruct p; cbn.
  2: { split; [|split; [|done]]; [split; [lia|]|]; split; intros; try done; lia. }
  destruct (Z.eqb_spec (n + 1) 0); [lia|].
  destruct (String.eqb_spec (b_State b) StateAutomated) as [E|E]; cbn.
  - assert (N <= n) by tauto. destruct (Z.ltb_spec (n + 1) N); [lia|].
    destruct (Z.eqb_spec (n + 1) N); [lia|].
    split; [split; [lia|]|split; [|done]]; split; intros; try lia; try done; congruence.
  - assert (n < N) by (apply Z.nle_gt; tauto). rewrite Hs, Z.min_l, int64_id by (unfold in_int64, min_int64; lia).
    destruct (Z.leb_spec N (n + 1)); cbn.
    + destruct (Z.ltb_spec (n + 1) N); [lia|]. destruct (Z.eqb_spec (n + 1) N); [|lia].
      split; [split; [lia|]|split; [|done]]; split; intros; try lia; try done; congruence.
    + destruct (Z.ltb_spec (n + 1) N); [|lia].
      split; [split; [lia|]|split; [|done]]; split; intros; try lia; try done; congruence.
Qed.

(** C39: A green light is earned: after any sequence of judgements of a new block,
    the block is automated exactly when its last [PromoteStreak] judgements were
    passes (and in training otherwise), its streak counts the passes in a row up
    to that number, and it is next due, strictly later, after the interval of
    its rung — one failure sends it back to the bottom. *)
Theorem green_is_earned sc b js (p : bool) (t : time) :
  PromoteStreak sc <= max_int64 -> b_State b = StateNew -> b_SuccessStreak b = 0 ->
  let n := passes_in_a_row (js ++ [(p, t)]) in
  let sc' := Normalize sc in
  let b' := judge_all sc b (js ++ [(p, t)]) in
  (b_State b' = StateAutomated <-> PromoteStreak sc' <= n) /\
  (b_State b' = StateTraining <-> n < PromoteStreak sc') /\
  b_SuccessStreak b' = Z.min n (PromoteStreak sc') /\
  b_NextDueAt b' = Add t (rest_after sc' n) /\ t < b_NextDueAt b'.
Proof.
  intros HP Hst Hstreak n sc' b'. destruct (Normalize_pos sc) as (H1 & H2 & H3 & H4 & H5).
  assert (on_rung sc' (passes_in_a_row js) (judge_all sc b js)) as Hr.
  { induction js as [|[q u] js IH] using rev_ind.
    - split; cbn; [subst sc'; lia|]. rewrite Hst. unfold sc'. split; [discriminate|lia].
    - unfold judge_all. rewrite foldl_app, passes_snoc. cbn.
      apply (judge_on_rung sc _ (passes_in_a_row js) q u HP (passes_nonneg js)); apply IH. }
  subst n b'. unfold judge_all. rewrite foldl_app, passes_snoc. cbn [foldl fst snd].
  destruct (judge_on_rung sc _ _ p t HP (passes_nonneg js) Hr) as ((E1 & E2) & E3 & E4 & _).
  split; [done|]. split; [done|]. split; [done|]. fold sc' in E4.
  unfold judge_all in E4. rewrite E4. split; [done|]. unfold Add, rest_after.
  subst sc'. repeat case_match; lia.
Qed.

Definition fresh_block : PhraseBlock :=
  mkBlock "b" "u" "i" "Let's wrap up." 1 "a" "review" "summarize" StateNew 0 0 0 0 0 None false None
    None None 0 0.

Lemma green_is_earned_witness :
  b_State (judge_all DefaultSchedule fresh_block
    ([(true, 1); (false, 2); (true, 3); (true, 4)] ++ [(true, 5)])) = StateAutomated.
Proof.
  apply (green_is_earned DefaultSchedule fresh_block [(true, 1); (false, 2); (true, 3); (true, 4)] true 5).
  - vm_compute. discriminate.
  - reflexivity.
  - reflexivity.
  - vm_compute. discriminate.
Defined.
