(* ===== verification/CorpusStore.v ===== *)
(** * The corpus store's operations ([internal/corpus/memory_store.go])

    Each method holds the store's lock: one atomic step.  Methods whose answer
    depends on the order in which Go ranges over a map take it from the
    [MapRange] interface. *)
From S2P Require Import Prelude GoString GoUnicode GoTime GoSort ApiErr Corpus.

Open Scope Z_scope.

Definition ErrNotFound : error := Sentinel "corpus: not found".

Definition SetSchedule (x : Schedule) (s : MemoryStore) : MemoryStore :=
  set_schedule (Normalize x) s.

(** ** Order of the listings *)

Definition pinRank (pinned : bool) : Z := if pinned then 0 else 1.
Definition favRank (favorite : bool) : Z := if favorite then 0 else 1.

Definition pinned (b : PhraseBlock) : bool := bool_decide (is_Some (b_PinnedAt b)).

(** [strings.Compare] *)
Definition str_compare (a b : string) : Z :=
  if String.eqb a b then 0 else if str_lt a b then -1 else 1.

Definition compareBlocks (left right : PhraseBlock) : Z :=
  let pr := pinRank (pinned left) - pinRank (pinned right) in
  if negb (pr =? 0) then pr else
  let fr := favRank (b_IsFavorite left) - favRank (b_IsFavorite right) in
  if negb (fr =? 0) then fr else
  if After (b_UpdatedAt left) (b_UpdatedAt right) then -1 else
  if Before (b_UpdatedAt left) (b_UpdatedAt right) then 1 else
  if str_lt (b_ID right) (b_ID left) then -1 else
  if str_lt (b_ID left) (b_ID right) then 1 else
  str_compare (b_ExpressionEN left) (b_ExpressionEN right).

Definition compareBlocksByUpdated (left right : PhraseBlock) : Z :=
  if Before (b_UpdatedAt left) (b_UpdatedAt right) then -1 else
  if After (b_UpdatedAt left) (b_UpdatedAt right) then 1 else
  if str_lt (b_ID left) (b_ID right) then -1 else
  if str_lt (b_ID right) (b_ID left) then 1 else 0.

(** A block of which only the identifier, marks and update stamp are set: the
    other fields are zero values. *)
Definition cursor_block (id : string) (favorite : bool) (pinnedAt : option time)
    (updatedAt : time) : PhraseBlock :=
  mkBlock id "" "" "" 0 "" "" "" "" 0 zero_time 0 0 0 None favorite pinnedAt None None zero_time
    updatedAt.

Definition isAfterCursor (block : PhraseBlock) (cursor : ListCursor) : bool :=
  let pinnedAt :=
    if c_IsPinned cursor then
      match c_PinnedAt cursor with Some t => Some t | None => Some 0 end
    else None in
  compareBlocks (cursor_block (c_ID cursor) (c_IsFavorite cursor) pinnedAt (c_UpdatedAt cursor))
    block <? 0.

Definition isAfterDeltaCursor (block : PhraseBlock) (cursor : ListCursor) : bool :=
  if After (b_UpdatedAt block) (c_UpdatedAt cursor) then true
  else if Before (b_UpdatedAt block) (c_UpdatedAt cursor) then false
  else str_lt (c_ID cursor) (b_ID block).

Definition browse_match (f : ListFilter) (b : PhraseBlock) : bool :=
  negb (bool_decide (is_Some (b_DeletedAt b))) &&
  (String.eqb (lf_SceneTag f) "" || String.eqb (b_SceneTag b) (lf_SceneTag f)) &&
  (String.eqb (lf_FunctionTag f) "" || String.eqb (b_FunctionTag b) (lf_FunctionTag f)) &&
  (negb (lf_FavoriteOnly f) || b_IsFavorite b) &&
  (negb (lf_PinnedOnly f) || pinned b) &&
  (let kw := ToLower (TrimSpace (lf_Keyword f)) in
   String.eqb kw "" ||
   Contains (ToLower (b_ExpressionEN b +:+ " " +:+ b_IntentZH b +:+ " " +:+ b_AnchorUserSaid b))
     kw) &&
  match lf_After f with None => true | Some c => isAfterCursor b c end.

Definition delta_match (f : ListFilter) (b : PhraseBlock) : bool :=
  match lf_UpdatedAfter f with None => true | Some t => After (b_UpdatedAt b) t end &&
  match lf_After f with None => true | Some c => isAfterDeltaCursor b c end.

Definition list_match (f : ListFilter) (b : PhraseBlock) : bool :=
  String.eqb (b_UserID b) (lf_UserID f) &&
  (if lf_Incremental f then delta_match f b else browse_match f b).

Definition list_less (f : ListFilter) (a b : PhraseBlock) : bool :=
  if lf_Incremental f then compareBlocksByUpdated a b <? 0 else compareBlocks a b <? 0.

Definition all_blocks (s : MemoryStore) : list PhraseBlock := (map_to_list (blocks s)).*2.

(** [items[:n]] when [len(items) > n]; the callers' limits are positive. *)
Definition cut_to {A} (n : Z) (l : list A) : list A :=
  if n <? Z.of_nat (length l) then take (Z.to_nat n) l else l.

Definition ListBlocks (f : ListFilter) (s : MemoryStore) : list PhraseBlock :=
  cut_to (lf_Limit f) (sort_Slice (list_less f) (List.filter (list_match f) (all_blocks s))).

(** ** Blocks *)

(** The block of that identifier if the user owns it and it is not deleted. *)
Definition owned (userID blockID : string) (s : MemoryStore) : option PhraseBlock :=
  match blocks s !! blockID with
  | Some b =>
      if negb (String.eqb (b_UserID b) userID) || bool_decide (is_Some (b_DeletedAt b))
      then None else Some b
  | None => None
  end.

Definition GetBlock (userID blockID : string) (s : MemoryStore) : result error PhraseBlock :=
  match owned userID blockID s with Some b => Ok b | None => Err ErrNotFound end.

Definition PeekBlock (blockID : string) (s : MemoryStore) : result error PhraseBlock :=
  match blocks s !! blockID with Some b => Ok b | None => Err ErrNotFound end.

Definition put (blockID : string) (b : PhraseBlock) (s : MemoryStore) : MemoryStore :=
  set_blocks (<[blockID := b]> (blocks s)) s.

Definition UpdateBlock (b : PhraseBlock) (s : MemoryStore)
  : result error PhraseBlock * MemoryStore :=
  match owned (b_UserID b) (b_ID b) s with
  | None => (Err ErrNotFound, s)
  | Some x =>
      let b := mkBlock (b_ID b) (b_UserID b) (b_IntentZH b) (b_ExpressionEN b)
                 (b_ExpressionVersion b) (b_AnchorUserSaid b) (b_SceneTag b) (b_FunctionTag b)
                 (b_State x) (b_SuccessStreak x) (b_NextDueAt x) (b_EaseFactor x)
                 (b_RealUseCount x) (b_TotalUses x) (b_LastUsedAt x) (b_IsFavorite x)
                 (b_PinnedAt x) (b_SourceSessionID x) None (b_CreatedAt x) (b_UpdatedAt b) in
      (Ok b, put (b_ID b) b s)
  end.

Definition SetFavorite (userID blockID : string) (isFavorite : bool) (pinnedAt : option time)
    (updatedAt : time) (s : MemoryStore) : result error PhraseBlock * MemoryStore :=
  match owned userID blockID s with
  | None => (Err ErrNotFound, s)
  | Some b => let b := with_marks isFavorite pinnedAt updatedAt b in (Ok b, put blockID b s)
  end.

Definition SoftDeleteBlock (userID blockID : string) (deletedAt : time) (s : MemoryStore)
  : result error unit * MemoryStore :=
  match owned userID blockID s with
  | None => (Err ErrNotFound, s)
  | Some b => (Ok tt, put blockID (with_deletion (Some deletedAt) deletedAt b) s)
  end.

Definition ReassignUser (fromUserID toUserID : string) (s : MemoryStore) : MemoryStore :=
  set_blocks ((fun b => if String.eqb (b_UserID b) fromUserID then with_user toUserID b else b)
                <$> blocks s) s.

Definition derefString (v : option string) : string :=
  match v with Some x => x | None => "" end.

Definition sameNaturalKey (left right : PhraseBlock) : bool :=
  String.eqb (b_UserID left) (b_UserID right) &&
  String.eqb (derefString (b_SourceSessionID left)) (derefString (b_SourceSessionID right)) &&
  String.eqb (b_ExpressionEN left) (b_ExpressionEN right) &&
  String.eqb (b_AnchorUserSaid left) (b_AnchorUserSaid right) &&
  String.eqb (b_SceneTag left) (b_SceneTag right) &&
  String.eqb (b_FunctionTag left) (b_FunctionTag right).

(** A deleted block accepted again: live, with the new texts and source. *)
Definition revived (x b : PhraseBlock) : PhraseBlock :=
  mkBlock (b_ID x) (b_UserID x) (b_IntentZH b) (b_ExpressionEN b) (b_ExpressionVersion x)
    (b_AnchorUserSaid b) (b_SceneTag b) (b_FunctionTag b) (b_State x) (b_SuccessStreak x)
    (b_NextDueAt x) (b_EaseFactor x) (b_RealUseCount x) (b_TotalUses x) (b_LastUsedAt x)
    (b_IsFavorite x) (b_PinnedAt x) (b_SourceSessionID b) None (b_CreatedAt x) (b_UpdatedAt b).

Section ranging.
Context {mr : MapRange}.

Definition save_one (b : PhraseBlock) (s : MemoryStore) : PhraseBlock * MemoryStore :=
  let b := if b_ExpressionVersion b <? 1 then with_version 1 (b_UpdatedAt b) b else b in
  match find (fun p => sameNaturalKey p.2 b) (map_range (blocks s)) with
  | Some (existingID, current) =>
      match b_DeletedAt current with
      | Some _ => let x := revived current b in (x, put existingID x s)
      | None => (current, s)
      end
  | None => (b, put (b_ID b) b s)
  end.

Fixpoint save_blocks (bs : list PhraseBlock) (s : MemoryStore) : list PhraseBlock * MemoryStore :=
  match bs with
  | [] => ([], s)
  | b :: bs =>
      let (x, s) := save_one b s in
      let (xs, s) := save_blocks bs s in
      (x :: xs, s)
  end.

Definition SaveAcceptedBlocks (bs : list PhraseBlock) (s : MemoryStore)
  : list PhraseBlock * MemoryStore :=
  let (saved, s) := save_blocks bs s in
  (sort_Slice (fun a b => compareBlocks a b <? 0) saved, s).

(** ** Hits *)

Definition hit_newer (a b : RecentHit) : bool :=
  if rh_UsedAtMs a =? rh_UsedAtMs b then str_lt (rh_BlockID a) (rh_BlockID b)
  else rh_UsedAtMs b <? rh_UsedAtMs a.

Definition session_hit (sessionID : string) (s : MemoryStore) (use : phraseBlockUse)
  : option RecentHit :=
  if negb (String.eqb (u_SessionID use) sessionID) then None else
  match blocks s !! u_BlockID use with
  | None => None
  | Some b =>
      match b_DeletedAt b with
      | Some _ => None
      | None => Some (mkRecentHit (u_BlockID use) (u_TurnID use) (u_UsedAtMs use) (b_IntentZH b)
                        (b_ExpressionEN b))
      end
  end.

Definition ListSessionHits (sessionID : string) (s : MemoryStore) : list RecentHit :=
  sort_Slice hit_newer (omap (session_hit sessionID s) (map_range (uses s)).*2).
End ranging.

Definition useKey (sessionID turnID blockID : string) : string :=
  sessionID +:+ String "000" "" +:+ turnID +:+ String "000" "" +:+ blockID.

Definition sortedHits (hits : list Hit) : list Hit :=
  sort_Slice (fun a b => str_lt (h_BlockID a) (h_BlockID b)) hits.

(** What a first insert of a use does to the user's block. *)
Definition credit (userID blockID : string) (usedAt : time) (b : PhraseBlock) (use : RealUse)
    (s : MemoryStore) : MemoryStore :=
  let s := put blockID (ApplyJudge (Normalize (schedule s)) (with_use usedAt b) true usedAt) s in
  set_realUses (realUses s ++ [use]) s.

Definition record_hit (userID sessionID turnID : string) (hit : Hit) (s : MemoryStore)
  : MemoryStore :=
  let key := useKey sessionID turnID (h_BlockID hit) in
  let seen := bool_decide (is_Some (uses s !! key)) in
  let s := set_uses (<[key := mkUse userID sessionID turnID (h_BlockID hit) (h_DetectedAtMs hit)]>
                       (uses s)) s in
  if seen then s else
  match owned userID (h_BlockID hit) s with
  | None => s
  | Some b =>
      let usedAt := of_UnixMilli (h_DetectedAtMs hit) in
      credit userID (h_BlockID hit) usedAt b
        (mkRealUse ("hit-" +:+ turnID +:+ "-" +:+ h_BlockID hit) userID (h_BlockID hit)
           RealUseSourceHit turnID usedAt) s
  end.

Definition Store_RecordHits (userID sessionID turnID : string) (hits : list Hit) (s : MemoryStore)
  : Z * MemoryStore :=
  let hits := sortedHits hits in
  (Z.of_nat (length hits), foldl (fun s hit => record_hit userID sessionID turnID hit s) s hits).

(** ** The schedule *)

Definition due_before (a b : PhraseBlock) : bool :=
  if b_NextDueAt a =? b_NextDueAt b then str_lt (b_ID a) (b_ID b)
  else Before (b_NextDueAt a) (b_NextDueAt b).

Definition due (userID : string) (now : time) (states : list string) (b : PhraseBlock) : bool :=
  String.eqb (b_UserID b) userID && negb (bool_decide (is_Some (b_DeletedAt b))) &&
  bool_decide (b_State b ∈ states) && negb (After (b_NextDueAt b) now).

Definition ListDueBlocks (userID : string) (now : time) (states : list string) (limit : Z)
    (s : MemoryStore) : list PhraseBlock :=
  let items := sort_Slice due_before (List.filter (due userID now states) (all_blocks s)) in
  if 0 <? limit then cut_to limit items else items.

Definition UpdateSchedule (userID blockID state : string) (successStreak : Z)
    (nextDueAt updatedAt : time) (s : MemoryStore) : result error PhraseBlock * MemoryStore :=
  match owned userID blockID s with
  | None => (Err ErrNotFound, s)
  | Some b =>
      let b := with_schedule state successStreak nextDueAt updatedAt b in (Ok b, put blockID b s)
  end.

Definition ResetSchedule (userID blockID : string) (at_ : time) (s : MemoryStore)
  : result error PhraseBlock * MemoryStore :=
  match owned userID blockID s with
  | None => (Err ErrNotFound, s)
  | Some b =>
      let b := with_schedule StateNew 0 (Add at_ (TrainingInterval (Normalize (schedule s)))) at_ b
      in (Ok b, put blockID b s)
  end.

Definition overdue (userID : string) (dueBefore : time) (b : PhraseBlock) : bool :=
  String.eqb (b_UserID b) userID && negb (bool_decide (is_Some (b_DeletedAt b))) &&
  Before (b_NextDueAt b) dueBefore.

(** Update in place the blocks that [p] selects, and count them. *)
Definition update_where (p : PhraseBlock -> bool) (f : PhraseBlock -> PhraseBlock)
    (s : MemoryStore) : Z * MemoryStore :=
  (Z.of_nat (length (List.filter p (all_blocks s))),
   set_blocks ((fun b => if p b then f b else b) <$> blocks s) s).

Definition SweepOverdue (userID : string) (dueBefore at_ : time) (s : MemoryStore)
  : Z * MemoryStore :=
  update_where (overdue userID dueBefore)
    (fun b => with_schedule (b_State b) (b_SuccessStreak b) at_ at_ b) s.

Definition SoftDeleteAllForUser (userID : string) (deletedAt : time) (s : MemoryStore)
  : Z * MemoryStore :=
  update_where
    (fun b => String.eqb (b_UserID b) userID && negb (bool_decide (is_Some (b_DeletedAt b))))
    (with_deletion (Some deletedAt) deletedAt) s.

Definition RestoreDeletedForUser (userID : string) (s : MemoryStore) : Z * MemoryStore :=
  update_where
    (fun b => String.eqb (b_UserID b) userID && bool_decide (is_Some (b_DeletedAt b)))
    (fun b => with_deletion None (b_UpdatedAt b) b) s.

(** ** Real uses and edits *)

Definition same_use (x y : RealUse) : bool :=
  String.eqb (ru_UserID x) (ru_UserID y) && String.eqb (ru_BlockID x) (ru_BlockID y) &&
  String.eqb (ru_Source x) (ru_Source y) && String.eqb (ru_RefID x) (ru_RefID y).

(** One block of a credit request, and whether it was credited. *)
Definition record_real_use (userID source refID : string) (at_ : time) (blockID : string)
    (s : MemoryStore) : bool * MemoryStore :=
  match owned userID blockID s with
  | None => (false, s)
  | Some b =>
      let use := mkRealUse (refID +:+ "-" +:+ blockID) userID blockID source refID at_ in
      if existsb (fun x => same_use x use) (realUses s) then (false, s)
      else (true, credit userID blockID at_ b use s)
  end.

Fixpoint RecordRealUses (userID : string) (blockIDs : list string) (source refID : string)
    (at_ : time) (s : MemoryStore) : Z * MemoryStore :=
  match blockIDs with
  | [] => (0, s)
  | blockID :: blockIDs =>
      let (credited, s) := record_real_use userID source refID at_ blockID s in
      let (n, s) := RecordRealUses userID blockIDs source refID at_ s in
      ((if credited then 1 else 0) + n, s)
  end.

Definition count_key (k : string) (m : gmap string Z) : gmap string Z :=
  <[k := default 0 (m !! k) + 1]> m.

Definition CountRealUsesBySource (userID : string) (since : time) (s : MemoryStore)
  : gmap string Z :=
  foldl (fun m use =>
    if negb (String.eqb (ru_UserID use) userID) || Before (ru_UsedAt use) since then m
    else count_key (ru_Source use) m) ∅ (realUses s).

Definition SaveBlockEdit (edit : BlockEdit) (s : MemoryStore) : result error unit * MemoryStore :=
  match owned (e_UserID edit) (e_BlockID edit) s with
  | None => (Err ErrNotFound, s)
  | Some b =>
      let s := set_edits (edits s ++ [edit]) s in
      (Ok tt, put (e_BlockID edit) (with_version (e_Version edit) (e_CreatedAt edit) b) s)
  end.

(** ** Feedback *)

Definition with_feedback_deleted (deleted : option time) (f : Feedback) : Feedback :=
  mkFeedback (f_ID f) (f_UserID f) (f_BlockID f) (f_Reason f) deleted (f_CreatedAt f)
    (f_AlreadyRecorded f).

Definition same_feedback (x y : Feedback) : bool :=
  String.eqb (f_UserID x) (f_UserID y) && String.eqb (f_BlockID x) (f_BlockID y) &&
  String.eqb (f_Reason x) (f_Reason y) && negb (bool_decide (is_Some (f_DeletedAt x))).

Definition SaveFeedback (f : Feedback) (s : MemoryStore) : bool * MemoryStore :=
  if existsb (fun x => same_feedback x f) (feedback s) then (false, s)
  else (true, set_feedback (feedback s ++ [with_feedback_deleted None f]) s).

Definition CountFeedback (userID : string) (s : MemoryStore) : gmap string Z :=
  foldl (fun m f =>
    if negb (String.eqb (f_UserID f) userID) || bool_decide (is_Some (f_DeletedAt f)) then m
    else count_key (f_Reason f) m) ∅ (feedback s).

Definition feedback_of (userID : string) (deleted : bool) (f : Feedback) : bool :=
  String.eqb (f_UserID f) userID && Bool.eqb (bool_decide (is_Some (f_DeletedAt f))) deleted.

Definition SoftDeleteFeedbackForUser (userID : string) (deletedAt : time) (s : MemoryStore)
  : Z * MemoryStore :=
  (Z.of_nat (length (List.filter (feedback_of userID false) (feedback s))),
   set_feedback (map (fun f => if feedback_of userID false f
                               then with_feedback_deleted (Some deletedAt) f else f)
                   (feedback s)) s).

Definition RestoreFeedbackForUser (userID : string) (s : MemoryStore) : Z * MemoryStore :=
  (Z.of_nat (length (List.filter (feedback_of userID true) (feedback s))),
   set_feedback (map (fun f => if feedback_of userID true f
                               then with_feedback_deleted None f else f) (feedback s)) s).
