(* ===== verification/CorpusLaws.v ===== *)
(** * What the corpus store guarantees

    [corpusE] lists the calls of the [Store] interface of [internal/corpus] and
    [handle] runs one on the memory store; a history is a list of calls with
    arbitrary arguments.  The use counters of a block agree with the ledger of
    real uses, a use is counted once, and what a guest merge leaves behind. *)
From S2P Require Import Prelude Prog GoString GoUnicode GoTime GoSort ApiErr Corpus CorpusStore.

Open Scope Z_scope.

Inductive corpusE : Type -> Type :=
| EListBlocks (f : ListFilter) : corpusE (list PhraseBlock)
| EGetBlock (u id : string) : corpusE (result error PhraseBlock)
| EPeekBlock (id : string) : corpusE (result error PhraseBlock)
| ESaveAcceptedBlocks (bs : list PhraseBlock) : corpusE (list PhraseBlock)
| EUpdateBlock (b : PhraseBlock) : corpusE (result error PhraseBlock)
| ESetFavorite (u id : string) (fav : bool) (pin : option time) (at_ : time)
    : corpusE (result error PhraseBlock)
| ESoftDeleteBlock (u id : string) (at_ : time) : corpusE (result error unit)
| EReassignUser (f t : string) : corpusE unit
| ERecordHits (u session turn : string) (hits : list Hit) : corpusE Z
| EListSessionHits (session : string) : corpusE (list RecentHit)
| EListDueBlocks (u : string) (now : time) (states : list string) (limit : Z)
    : corpusE (list PhraseBlock)
| ESweepOverdue (u : string) (before at_ : time) : corpusE Z
| EUpdateSchedule (u id state : string) (streak : Z) (due updated : time)
    : corpusE (result error PhraseBlock)
| ESoftDeleteAll (u : string) (at_ : time) : corpusE Z
| ERestoreDeleted (u : string) : corpusE Z
| ESaveBlockEdit (e : BlockEdit) : corpusE (result error unit)
| EResetSchedule (u id : string) (at_ : time) : corpusE (result error PhraseBlock)
| ERecordRealUses (u : string) (ids : list string) (source ref : string) (at_ : time) : corpusE Z
| ECountRealUses (u : string) (since : time) : corpusE (gmap string Z)
| ESaveFeedback (f : Feedback) : corpusE bool
| ECountFeedback (u : string) : corpusE (gmap string Z)
| ESoftDeleteFeedback (u : string) (at_ : time) : corpusE Z
| ERestoreFeedback (u : string) : corpusE Z.

Section corpus_store.
Context {mr : MapRange}.

Definition handle {R} (c : corpusE R) (s : MemoryStore) : R * MemoryStore :=
  match c in corpusE R return R * MemoryStore with
  | EListBlocks f => (ListBlocks f s, s)
  | EGetBlock u id => (GetBlock u id s, s)
  | EPeekBlock id => (PeekBlock id s, s)
  | ESaveAcceptedBlocks bs => SaveAcceptedBlocks bs s
  | EUpdateBlock b => UpdateBlock b s
  | ESetFavorite u id fav pin at_ => SetFavorite u id fav pin at_ s
  | ESoftDeleteBlock u id at_ => SoftDeleteBlock u id at_ s
  | EReassignUser f t => (tt, ReassignUser f t s)
  | ERecordHits u session turn hits => Store_RecordHits u session turn hits s
  | EListSessionHits session => (ListSessionHits session s, s)
  | EListDueBlocks u now states limit => (ListDueBlocks u now states limit s, s)
  | ESweepOverdue u before at_ => SweepOverdue u before at_ s
  | EUpdateSchedule u id state streak due updated => UpdateSchedule u id state streak due updated s
  | ESoftDeleteAll u at_ => SoftDeleteAllForUser u at_ s
  | ERestoreDeleted u => RestoreDeletedForUser u s
  | ESaveBlockEdit e => SaveBlockEdit e s
  | EResetSchedule u id at_ => ResetSchedule u id at_ s
  | ERecordRealUses u ids source ref at_ => RecordRealUses u ids source ref at_ s
  | ECountRealUses u since => (CountRealUsesBySource u since s, s)
  | ESaveFeedback f => SaveFeedback f s
  | ECountFeedback u => (CountFeedback u s, s)
  | ESoftDeleteFeedback u at_ => SoftDeleteFeedbackForUser u at_ s
  | ERestoreFeedback u => RestoreFeedbackForUser u s
  end.

Definition event : Type := { R : Type & corpusE R }.
Definition ev {R} (c : corpusE R) : event := existT R c.
Definition after (e : event) (s : MemoryStore) : MemoryStore := (handle (projT2 e) s).2.
Definition run (tr : list event) (s : MemoryStore) : MemoryStore :=
  foldl (fun s e => after e s) s tr.

(** ** Induction on the blocks a call touches

    Every call changes the store through finitely many primitive writes: a
    block replaced by [put], all blocks mapped, a credited use, or a change of
    the other tables.  A property these keep is kept by every call. *)
Lemma owned_lookup u id s b :
  owned u id s = Some b -> blocks s !! id = Some b /\ b_UserID b = u /\ b_DeletedAt b = None.
Proof.
  unfold owned. destruct (blocks s !! id) as [x|]; [|done].
  destruct (String.eqb_spec (b_UserID x) u); [|done]. cbn.
  destruct (b_DeletedAt x) eqn:E; cbn; [done|]. by intros [= ->].
Qed.

Lemma save_blocks_inv (P : MemoryStore -> Prop) bs s :
  (forall b s, b ∈ bs -> P s -> P (save_one b s).2) -> P s -> P (save_blocks bs s).2.
Proof.
  revert s. induction bs as [|b bs IH]; intros s H Hs; [done|]. cbn.
  pose proof (H b s ltac:(left) Hs) as H1. destruct (save_one b s) as [x s1].
  assert (P (save_blocks bs s1).2) as H2.
  { apply IH; [|done]. intros b' s' Hb'. apply H. by right. }
  by destruct (save_blocks bs s1).
Qed.

Lemma SaveAccepted_inv (P : MemoryStore -> Prop) bs s :
  (forall b s, b ∈ bs -> P s -> P (save_one b s).2) -> P s -> P (SaveAcceptedBlocks bs s).2.
Proof.
  intros H Hs. unfold SaveAcceptedBlocks. pose proof (save_blocks_inv P bs s H Hs).
  by destruct (save_blocks bs s).
Qed.

Lemma RecordHits_inv (P : MemoryStore -> Prop) u session turn hits s :
  (forall hit s, P s -> P (record_hit u session turn hit s)) -> P s ->
  P (Store_RecordHits u session turn hits s).2.
Proof.
  intros H. cbn. revert s. induction (sortedHits hits) as [|h hs IH]; intros s Hs; [done|].
  by apply IH, H.
Qed.

Lemma RecordRealUses_inv (P : MemoryStore -> Prop) u ids source ref at_ s :
  (forall id s, P s -> P (record_real_use u source ref at_ id s).2) -> P s ->
  P (RecordRealUses u ids source ref at_ s).2.
Proof.
  intros H. revert s. induction ids as [|id ids IH]; intros s Hs; [done|]. cbn.
  specialize (H id s Hs). destruct (record_real_use u source ref at_ id s) as [c s1].
  specialize (IH s1 H). by destruct (RecordRealUses u ids source ref at_ s1).
Qed.

(** ** Counters and the ledger *)

(** How many real uses of the block the ledger holds. *)
Definition uses_of (id : string) (rows : list RealUse) : Z :=
  Z.of_nat (length (List.filter (fun r => String.eqb (ru_BlockID r) id) rows)).

Definition counts (rows : list RealUse) (id : string) (b : PhraseBlock) : Prop :=
  b_ID b = id /\ b_TotalUses b = b_RealUseCount b /\ b_RealUseCount b = int64 (uses_of id rows).

(** Every block counts its rows of the ledger, and every row has its block. *)
Definition ledgered (s : MemoryStore) : Prop :=
  map_Forall (counts (realUses s)) (blocks s) /\
  Forall (fun r => is_Some (blocks s !! ru_BlockID r)) (realUses s).

(** The same block as far as the ledger is concerned. *)
Definition same_counts (x b : PhraseBlock) : Prop :=
  b_ID b = b_ID x /\ b_RealUseCount b = b_RealUseCount x /\ b_TotalUses b = b_TotalUses x.

Lemma counts_same rows id x b : same_counts x b -> counts rows id x -> counts rows id b.
Proof. intros (E1 & E2 & E3). unfold counts. by rewrite E1, E2, E3. Qed.

Lemma ledgered_put id x b s :
  blocks s !! id = Some x -> same_counts x b -> ledgered s -> ledgered (put id b s).
Proof.
  intros Hx Hsame [Hb Hr]. split; cbn.
  - apply map_Forall_insert_2; [|done]. eapply counts_same; [done|]. by apply Hb.
  - eapply Forall_impl; [exact Hr|]. intros r [y Hy]. cbn.
    destruct (decide (id = ru_BlockID r)) as [<-|?]; [rewrite lookup_insert_eq|
      rewrite lookup_insert_ne by done]; eauto.
Qed.

Lemma ledgered_new id b s :
  blocks s !! id = None -> b_ID b = id -> b_RealUseCount b = 0 -> b_TotalUses b = 0 ->
  ledgered s -> ledgered (put id b s).
Proof.
  intros Hx Hid H1 H2 [Hb Hr]. split; cbn.
  - apply map_Forall_insert_2; [|done]. split; [done|]. rewrite H1, H2. split; [done|].
    unfold uses_of. enough (List.filter (fun r => String.eqb (ru_BlockID r) id) (realUses s) = []) as ->
      by reflexivity.
    clear Hb. induction Hr as [|r l [y Hy] _ IH]; [done|]. cbn.
    destruct (String.eqb_spec (ru_BlockID r) id) as [E|]; [congruence|done].
  - eapply Forall_impl; [exact Hr|]. intros r [y Hy]. cbn.
    rewrite lookup_insert_ne by (intros ->; congruence). eauto.
Qed.

Lemma ledgered_fmap f s :
  (forall b, same_counts b (f b)) -> ledgered s -> ledgered (set_blocks (f <$> blocks s) s).
Proof.
  intros Hf [Hb Hr]. split; cbn.
  - intros id b. rewrite lookup_fmap. intros (x & Hx & ->)%fmap_Some.
    eapply counts_same; [apply Hf|]. by apply Hb.
  - eapply Forall_impl; [exact Hr|]. intros r [y Hy]. cbn. rewrite lookup_fmap, Hy. eauto.
Qed.

Lemma ledgered_tables s s' :
  blocks s' = blocks s -> realUses s' = realUses s -> ledgered s -> ledgered s'.
Proof. unfold ledgered. by intros -> ->. Qed.

Lemma uses_of_snoc id rows r :
  uses_of id (rows ++ [r]) = uses_of id rows + (if String.eqb (ru_BlockID r) id then 1 else 0).
Proof.
  unfold uses_of. rewrite List.filter_app, length_app. cbn.
  destruct (String.eqb (ru_BlockID r) id); cbn; lia.
Qed.

Lemma ApplyJudge_counts x b p now : same_counts b (ApplyJudge x b p now).
Proof. unfold ApplyJudge. by repeat case_match. Qed.

Lemma ledgered_credit u id t b use s :
  owned u id s = Some b -> ru_BlockID use = id -> ledgered s -> ledgered (credit u id t b use s).
Proof.
  intros (Hb & _ & _)%owned_lookup Huse [HB HR].
  assert (is_Some (blocks s !! id)) as Hid by eauto.
  destruct (ApplyJudge_counts (Normalize (schedule s)) (with_use t b) true t) as (J1 & J2 & J3).
  unfold credit. set (b1 := ApplyJudge _ _ _ _) in *. split; cbn.
  - intros id' b' Hb'. destruct (decide (id = id')) as [<-|Hne].
    + rewrite lookup_insert_eq in Hb'. injection Hb' as <-.
      destruct (HB _ _ Hb) as (E1 & E2 & E3).
      split; [by rewrite J1|]. rewrite J2, J3. cbn. rewrite E2. split; [done|].
      rewrite E3, uses_of_snoc, Huse, String.eqb_refl. apply int64_idem_l.
    + rewrite lookup_insert_ne in Hb' by done. destruct (HB _ _ Hb') as (E1 & E2 & E3).
      split; [done|]. split; [done|]. rewrite uses_of_snoc, Huse.
      destruct (String.eqb_spec id id'); [done|]. by rewrite Z.add_0_r.
  - apply Forall_app. split.
    + eapply Forall_impl; [exact HR|]. intros r [y Hy]. cbn.
      destruct (decide (id = ru_BlockID r)) as [<-|?]; [rewrite lookup_insert_eq|
        rewrite lookup_insert_ne by done]; eauto.
    + constructor; [|done]. rewrite Huse, lookup_insert_eq. eauto.
Qed.

(** The blocks of an accept are new: their identifiers are fresh and distinct,
    and they have not been used. *)
Definition new_blocks (bs : list PhraseBlock) (s : MemoryStore) : Prop :=
  NoDup (map b_ID bs) /\
  Forall (fun b => blocks s !! b_ID b = None /\ b_RealUseCount b = 0 /\ b_TotalUses b = 0) bs.

Definition accepts_new (e : event) (s : MemoryStore) : Prop :=
  match projT2 e with ESaveAcceptedBlocks bs => new_blocks bs s | _ => True end.

Fixpoint all_accepts_new (tr : list event) (s : MemoryStore) : Prop :=
  match tr with
  | [] => True
  | e :: tr => accepts_new e s /\ all_accepts_new tr (after e s)
  end.

(** What [save_one] does to the store: nothing, a revival, or a new block. *)
Lemma save_one_cases b s :
  (save_one b s).2 = s \/
  (exists id x b', blocks s !! id = Some x /\ same_counts x b' /\ is_Some (b_DeletedAt x) /\
     (save_one b s).2 = put id b' s) \/
  (save_one b s).2 = put (b_ID b) (save_one b s).1 s /\ same_counts b (save_one b s).1.
Proof.
  unfold save_one. set (b0 := if b_ExpressionVersion b <? 1 then _ else b).
  assert (same_counts b b0) as Hb0 by (subst b0; by case_match).
  destruct (find _ _) as [[id x]|] eqn:E.
  - apply find_some in E as [Hin _]. apply list_elem_of_In in Hin.
    rewrite map_range_perm in Hin. apply elem_of_map_to_list in Hin.
    destruct (b_DeletedAt x) eqn:Ed; [|by left]. right. left.
    exists id, x, (revived x b0). by rewrite Ed.
  - right. right. destruct Hb0 as (E1 & E2 & E3). cbn. by rewrite E1.
Qed.

Lemma ledgered_save bs s : new_blocks bs s -> ledgered s -> ledgered (save_blocks bs s).2.
Proof.
  revert s. induction bs as [|b bs IH]; intros s [Hnd Hnew] Hl; [done|].
  cbn [map] in Hnd. apply NoDup_cons in Hnd as [Hb Hnd].
  apply Forall_cons in Hnew as [(Hn & Hr & Ht) Hnew'].
  cbn [save_blocks].
  assert (ledgered (save_one b s).2 /\
          forall b', b' ∈ bs -> blocks s !! b_ID b' = None ->
            blocks (save_one b s).2 !! b_ID b' = None) as [Hl1 Hf].
  { destruct (save_one_cases b s) as [->|[(id & x & b' & Hx & Hs & _ & ->)|[-> (E1 & E2 & E3)]]].
    - done.
    - split; [by eapply ledgered_put|]. intros c _ Hc. cbn.
      rewrite lookup_insert_ne; [done|]. intros ->. congruence.
    - split.
      + by apply ledgered_new; congruence.
      + intros c Hin Hc. cbn. rewrite lookup_insert_ne; [done|]. intros E. apply Hb.
        rewrite E. apply list_elem_of_fmap. eauto. }
  destruct (save_one b s) as [x s1]. cbn [snd] in Hl1, Hf.
  assert (ledgered (save_blocks bs s1).2) as H2.
  { apply IH; [|done]. split; [done|]. rewrite Forall_forall in *. intros c Hc.
    destruct (Hnew' c Hc) as (? & ? & ?). eauto. }
  by destruct (save_blocks bs s1).
Qed.

Lemma ledgered_update p f s :
  (forall b, same_counts b (f b)) -> ledgered s -> ledgered (update_where p f s).2.
Proof. intros Hf. apply ledgered_fmap. intros b. case_match; [apply Hf|done]. Qed.

Lemma ledgered_hit u session turn hit s :
  ledgered s -> ledgered (record_hit u session turn hit s).
Proof.
  intros Hl. unfold record_hit. set (s1 := set_uses _ s).
  assert (ledgered s1) as H1 by (by eapply ledgered_tables; [| |exact Hl]).
  case_match; [done|]. destruct (owned u (h_BlockID hit) s1) as [b|] eqn:E; [|done].
  by apply ledgered_credit.
Qed.

Lemma ledgered_step e s : accepts_new e s -> ledgered s -> ledgered (after e s).
Proof.
  destruct e as [R c]. unfold accepts_new, after. cbn [projT2]. intros Hnew Hl.
  destruct c; cbn [handle snd]; try done;
    try (by eapply ledgered_tables; [| |exact Hl]);
    try (by apply ledgered_update).
  - cbn in Hnew. unfold SaveAcceptedBlocks. pose proof (ledgered_save bs s Hnew Hl).
    by destruct (save_blocks bs s).
  - unfold UpdateBlock. destruct (owned _ _ s) as [x|] eqn:E; [|done].
    apply owned_lookup in E as (Hx & _ & _). eapply ledgered_put; [exact Hx| |done].
    split; [|done]. destruct Hl as [Hb _]. by destruct (Hb _ _ Hx) as [-> _].
  - unfold SetFavorite. destruct (owned _ _ s) as [x|] eqn:E; [|done].
    apply owned_lookup in E as (Hx & _ & _). by eapply ledgered_put.
  - unfold SoftDeleteBlock. destruct (owned _ _ s) as [x|] eqn:E; [|done].
    apply owned_lookup in E as (Hx & _ & _). by eapply ledgered_put.
  - apply RecordHits_inv; [|done]. intros. by apply ledgered_hit.
  - unfold UpdateSchedule. destruct (owned _ _ s) as [x|] eqn:E; [|done].
    apply owned_lookup in E as (Hx & _ & _). by eapply ledgered_put.
  - unfold SaveBlockEdit. destruct (owned _ _ s) as [x|] eqn:E; [|done].
    apply owned_lookup in E as (Hx & _ & _).
    eapply ledgered_put; [exact Hx|done|]. by eapply ledgered_tables; [| |exact Hl].
  - unfold ResetSchedule. destruct (owned _ _ s) as [x|] eqn:E; [|done].
    apply owned_lookup in E as (Hx & _ & _). by eapply ledgered_put.
  - apply RecordRealUses_inv; [|done]. intros id s1 H1. unfold record_real_use.
    destruct (owned _ _ s1) as [x|] eqn:E; [|done]. case_match; [done|].
    by apply ledgered_credit.
  - unfold SaveFeedback. case_match; [done|]. by eapply ledgered_tables; [| |exact Hl].
Qed.

(** A block's use counters are its rows of the ledger: in every history from an
    empty store in which accepted blocks are new, each block's [RealUseCount]
    and [TotalUses] are the number of recorded real uses of it — hits and
    check-ins, each counted once — and no row of the ledger is orphaned. *)
Theorem use_counters_are_ledger tr :
  all_accepts_new tr NewMemoryStore ->
  let s := run tr NewMemoryStore in
  map_Forall (fun id b => b_RealUseCount b = int64 (uses_of id (realUses s)) /\
                          b_TotalUses b = b_RealUseCount b) (blocks s) /\
  Forall (fun r => is_Some (blocks s !! ru_BlockID r)) (realUses s).
Proof.
  intros Htr. cbn. enough (ledgered (run tr NewMemoryStore)) as [Hb Hr].
  { split; [|done]. eapply map_Forall_impl; [exact Hb|]. intros id b (_ & E2 & E3). by split. }
  assert (ledgered NewMemoryStore) as H0 by (split; [apply map_Forall_empty|constructor]).
  revert Htr H0. generalize NewMemoryStore. induction tr as [|e tr IH]; intros s Htr H0; [done|].
  destruct Htr as [He Htr]. apply IH; [done|]. by apply ledgered_step.
Qed.

(** ** A use is counted once *)

(** The tables of uses only grow. *)
Definition grows (s s' : MemoryStore) : Prop :=
  (forall k, is_Some (uses s !! k) -> is_Some (uses s' !! k)) /\
  (forall r, r ∈ realUses s -> r ∈ realUses s').

#[local] Instance grows_preorder : PreOrder grows.
Proof.
  split; [by split|]. intros x y z [A B] [C D]. split; eauto.
Qed.

Lemma grows_tables s s' : uses s' = uses s -> realUses s' = realUses s -> grows s s'.
Proof. unfold grows. by intros -> ->. Qed.

Lemma grows_credit u id t b use s : grows s (credit u id t b use s).
Proof. split; cbn; [done|]. intros r Hr. apply elem_of_app. by left. Qed.

Lemma grows_hit u session turn hit s : grows s (record_hit u session turn hit s).
Proof.
  unfold record_hit. set (s1 := set_uses _ s). assert (grows s s1) as H.
  { split; [|done]. intros k Hk. cbn. destruct (decide (k = useKey session turn (h_BlockID hit))) as [->|?].
    - rewrite lookup_insert_eq. eauto.
    - by rewrite lookup_insert_ne. }
  case_match; [done|]. destruct (owned _ _ s1); [|done].
  etransitivity; [exact H|]. apply grows_credit.
Qed.

Lemma grows_use u source ref at_ id s : grows s (record_real_use u source ref at_ id s).2.
Proof.
  unfold record_real_use. destruct (owned u id s); [|done]. case_match; [done|]. apply grows_credit.
Qed.

Lemma grows_step e s : grows s (after e s).
Proof.
  destruct e as [R c]. unfold after. cbn [projT2].
  destruct c; cbn [handle snd]; try done; try (by apply grows_tables).
  - apply (SaveAccepted_inv (grows s)); [|done]. intros b s' _ Hs. etransitivity; [exact Hs|].
    destruct (save_one_cases b s') as [->|[(id & x & b' & _ & _ & _ & ->)|[-> _]]];
      [done|by apply grows_tables..].
  - unfold UpdateBlock. case_match; [by apply grows_tables|done].
  - unfold SetFavorite. case_match; [by apply grows_tables|done].
  - unfold SoftDeleteBlock. case_match; [by apply grows_tables|done].
  - apply (RecordHits_inv (grows s)); [|done]. intros hit s' H. etransitivity; [exact H|].
    apply grows_hit.
  - unfold UpdateSchedule. case_match; [by apply grows_tables|done].
  - unfold SaveBlockEdit. case_match; [by apply grows_tables|done].
  - unfold ResetSchedule. case_match; [by apply grows_tables|done].
  - apply (RecordRealUses_inv (grows s)); [|done]. intros id s' H. etransitivity; [exact H|].
    apply grows_use.
  - unfold SaveFeedback. case_match; [done|by apply grows_tables].
Qed.

Lemma grows_run tr s : grows s (run tr s).
Proof. apply (foldl_moves _ grows). intros x e _. apply grows_step. Qed.

Definition hit_seen (session turn blockID : string) (s : MemoryStore) : Prop :=
  is_Some (uses s !! useKey session turn blockID).

Lemma record_hit_seen u session turn hit s :
  hit_seen session turn (h_BlockID hit) (record_hit u session turn hit s).
Proof.
  unfold hit_seen, record_hit. set (s1 := set_uses _ s).
  assert (is_Some (uses s1 !! useKey session turn (h_BlockID hit))) as H
    by (cbn; rewrite lookup_insert_eq; eauto).
  case_match; [done|]. destruct (owned _ _ s1); [|done]. by apply (grows_credit u).
Qed.

Lemma hits_seen u session turn hits s hit :
  hit ∈ hits -> hit_seen session turn (h_BlockID hit) (Store_RecordHits u session turn hits s).2.
Proof.
  intros Hin. cbn. assert (hit ∈ sortedHits hits) as Hs.
  { unfold sortedHits, sort_Slice. by rewrite merge_sort_Permutation. }
  clear Hin. revert s. induction (sortedHits hits) as [|h hs IH]; intros s; [by inversion Hs|].
  apply elem_of_cons in Hs as [<-|Hs]; [|by apply IH]. cbn.
  clear IH. assert (grows (record_hit u session turn hit s)
    (foldl (fun s hit => record_hit u session turn hit s) (record_hit u session turn hit s) hs)) as [H _].
  { generalize (record_hit u session turn hit s). induction hs as [|h' hs IH]; intros s'; [done|]. cbn.
    etransitivity; [apply grows_hit|apply IH]. }
  apply H, record_hit_seen.
Qed.

(** A use of a block in a turn is counted once.  After a turn's hits were
    recorded, and whatever happened since, recording hits of the same blocks in
    the same turn again — by any user, in any order, with other times — changes
    no block and adds nothing to the ledger of real uses. *)
Theorem hit_is_counted_once u session turn hits s tr u' hits' :
  (forall hit', hit' ∈ hits' -> exists hit, hit ∈ hits /\ h_BlockID hit = h_BlockID hit') ->
  let s1 := run tr (Store_RecordHits u session turn hits s).2 in
  let s2 := (Store_RecordHits u' session turn hits' s1).2 in
  blocks s2 = blocks s1 /\ realUses s2 = realUses s1.
Proof.
  intros Hsub s1. cbn.
  assert (forall hit, hit ∈ sortedHits hits' -> hit_seen session turn (h_BlockID hit) s1) as Hseen.
  { intros hit Hin. unfold sortedHits, sort_Slice in Hin. rewrite merge_sort_Permutation in Hin.
    destruct (Hsub hit Hin) as (h & Hh & <-). subst s1. destruct (grows_run tr
      (Store_RecordHits u session turn hits s).2) as [H _]. by apply H, hits_seen. }
  generalize dependent s1. induction (sortedHits hits') as [|h hs IH]; intros s1 Hseen; [done|].
  cbn. assert (blocks (record_hit u' session turn h s1) = blocks s1 /\
    realUses (record_hit u' session turn h s1) = realUses s1) as [E1 E2].
  { unfold record_hit. rewrite bool_decide_true; [done|]. apply (Hseen h). left. }
  rewrite <- E1, <- E2. apply IH. intros hit Hin. destruct (grows_hit u' session turn h s1) as [H _].
  apply H, Hseen. by right.
Qed.

(** ** Check-ins *)

Definition use_known (u source ref id : string) (s : MemoryStore) : Prop :=
  exists r, r ∈ realUses s /\ ru_UserID r = u /\ ru_BlockID r = id /\ ru_Source r = source /\
    ru_RefID r = ref.

Lemma same_use_spec x y :
  same_use x y = true <->
  ru_UserID x = ru_UserID y /\ ru_BlockID x = ru_BlockID y /\ ru_Source x = ru_Source y /\
  ru_RefID x = ru_RefID y.
Proof. unfold same_use. rewrite !andb_true_iff, !String.eqb_eq. tauto. Qed.

Lemma use_known_existsb u source ref id at_ s :
  existsb (fun x => same_use x (mkRealUse (ref +:+ "-" +:+ id) u id source ref at_)) (realUses s) = true
  <-> use_known u source ref id s.
Proof.
  rewrite existsb_exists. split.
  - intros (x & Hin & (?&?&?&?)%same_use_spec). exists x. rewrite list_elem_of_In. done.
  - intros (x & Hin & ?&?&?&?). exists x. rewrite <- list_elem_of_In, same_use_spec. done.
Qed.

Lemma use_known_grows u source ref id s s' :
  grows s s' -> use_known u source ref id s -> use_known u source ref id s'.
Proof. intros [_ H] (r & Hr & ?). exists r. auto. Qed.

Lemma owned_same u id id' b s s' :
  owned u id s = Some b ->
  blocks s' = blocks s \/
  (exists x b', blocks s !! id' = Some x /\ b_UserID b' = b_UserID x /\ b_DeletedAt b' = b_DeletedAt x /\
     blocks s' = <[id' := b']> (blocks s)) ->
  exists b', owned u id s' = Some b'.
Proof.
  intros Ho [E|(x & b' & Hx & Hu & Hd & E)]; unfold owned; rewrite E; [by eexists|].
  destruct (decide (id' = id)) as [->|Hne].
  - apply owned_lookup in Ho as (Hb & Hub & Hdb). rewrite lookup_insert_eq.
    assert (x = b) as -> by congruence. rewrite Hu, Hub, String.eqb_refl, Hd, Hdb. by eexists.
  - rewrite lookup_insert_ne by done. unfold owned in Ho. destruct (blocks s !! id); [|done].
    case_match; [done|by eexists].
Qed.

Lemma ApplyJudge_owner x b p now :
  b_UserID (ApplyJudge x b p now) = b_UserID b /\ b_DeletedAt (ApplyJudge x b p now) = b_DeletedAt b.
Proof. unfold ApplyJudge. by repeat case_match. Qed.

(** Crediting a block never takes another one away from its owner. *)
Lemma record_real_use_owned u source ref at_ id' u' id s b :
  owned u id s = Some b ->
  exists b', owned u id (record_real_use u' source ref at_ id' s).2 = Some b'.
Proof.
  intros Ho. unfold record_real_use. destruct (owned u' id' s) as [x|] eqn:E; [|by eexists].
  case_match; [by eexists|]. eapply (owned_same _ _ id'); [exact Ho|]. right.
  apply owned_lookup in E as (Hx & _ & _). unfold credit.
  destruct (ApplyJudge_owner (Normalize (schedule s)) (with_use at_ x) true at_) as [E1 E2].
  exists x, (ApplyJudge (Normalize (schedule s)) (with_use at_ x) true at_). done.
Qed.

Lemma record_real_use_known u source ref at_ id s b :
  owned u id s = Some b -> use_known u source ref id (record_real_use u source ref at_ id s).2.
Proof.
  intros Ho. unfold record_real_use. rewrite Ho.
  destruct (existsb _ _) eqn:E; [by apply use_known_existsb in E|]. cbn.
  eexists. cbn. split; [apply elem_of_app; right; left|]. done.
Qed.

Lemma RecordRealUses_known u ids source ref at_ id s b :
  id ∈ ids -> owned u id s = Some b ->
  use_known u source ref id (RecordRealUses u ids source ref at_ s).2.
Proof.
  revert s b. induction ids as [|id' ids IH]; intros s b Hin Ho; [by inversion Hin|]. cbn.
  destruct (record_real_use_owned u source ref at_ id' u id s b Ho) as [b' Ho'].
  apply elem_of_cons in Hin as [<-|Hin].
  - pose proof (record_real_use_known u source ref at_ id s b Ho) as Hk.
    destruct (record_real_use u source ref at_ id s) as [c s1]. cbn in Hk.
    pose proof (RecordRealUses_inv (use_known u source ref id) u ids source ref at_ s1) as H.
    destruct (RecordRealUses u ids source ref at_ s1). apply H; [|done].
    intros. eapply use_known_grows; [apply grows_use|done].
  - destruct (record_real_use u source ref at_ id' s) as [c s1].
    specialize (IH s1 b' Hin Ho'). by destruct (RecordRealUses u ids source ref at_ s1).
Qed.

Lemma RecordRealUses_replay u ids source ref at_ s :
  (forall id, id ∈ ids -> use_known u source ref id s) ->
  RecordRealUses u ids source ref at_ s = (0, s).
Proof.
  induction ids as [|id ids IH]; intros H; [done|]. cbn.
  assert (record_real_use u source ref at_ id s = (false, s)) as ->.
  { unfold record_real_use. destruct (owned u id s); [|done].
    by rewrite (proj2 (use_known_existsb u source ref id at_ s)) by (apply H; left). }
  rewrite IH; [done|]. intros id' Hin. apply H. by right.
Qed.

(** A check-in is credited once: after a credit request for blocks the user
    owned, and whatever happened since, repeating it for any of those blocks —
    at any time — credits nothing and changes nothing. *)
Theorem checkin_is_credited_once u ids source ref at_ s tr ids' at' :
  (forall id, id ∈ ids' -> id ∈ ids /\ exists b, owned u id s = Some b) ->
  let s1 := run tr (RecordRealUses u ids source ref at_ s).2 in
  RecordRealUses u ids' source ref at' s1 = (0, s1).
Proof.
  intros H s1. apply RecordRealUses_replay. intros id Hin.
  destruct (H id Hin) as (Hid & b & Hb). subst s1.
  eapply use_known_grows; [apply grows_run|]. by eapply RecordRealUses_known.
Qed.
End corpus_store.

#[local] Existing Instance key_order.

Definition demo_block (id user : string) : PhraseBlock :=
  mkBlock id user "intent" "Let's wrap up." 1 "wrap up" "review" "summarize" StateNew 0 0
    4612811918334230528 0 0 None false None (Some "s1"%string) None 0 0.

Definition demo_hits : list Hit := [mkHit "b1" "t1" 5].

Definition demo_history : list event :=
  [ev (ESaveAcceptedBlocks [demo_block "b1" "guest"]); ev (ERecordHits "guest" "s1" "t1" demo_hits);
   ev (ERecordRealUses "guest" ["b1"%string] RealUseSourceCheckin "card" 7)].

Definition demo_corpus : MemoryStore := run (take 1 demo_history) NewMemoryStore.

Lemma use_counters_are_ledger_witness :
  exists b, blocks (run demo_history NewMemoryStore) !! "b1"%string = Some b /\
    b_RealUseCount b = 2.
Proof.
  destruct (use_counters_are_ledger demo_history) as [H _].
  - split; [|done]. split; [apply NoDup_singleton|]. by repeat constructor.
  - destruct (blocks (run demo_history NewMemoryStore) !! "b1"%string) as [b|] eqn:E.
    + exists b. split; [done|]. destruct (H _ _ E) as [-> _]. vm_compute. reflexivity.
    + vm_compute in E. discriminate E.
Defined.

Lemma hit_is_counted_once_witness :
  realUses (Store_RecordHits "other" "s1" "t1" [mkHit "b1" "t1" 99]
    (run demo_history NewMemoryStore)).2 = realUses (run demo_history NewMemoryStore).
Proof.
  pose proof (hit_is_counted_once "guest" "s1" "t1" demo_hits demo_corpus (drop 2 demo_history)
    "other" [mkHit "b1" "t1" 99]) as [_ H].
  - intros h Hh. apply list_elem_of_singleton in Hh as ->. exists (mkHit "b1" "t1" 5).
    split; [left|done].
  - exact H.
Defined.

Lemma checkin_is_credited_once_witness :
  RecordRealUses "guest" ["b1"%string] RealUseSourceCheckin "card" 8
    (run demo_history NewMemoryStore) = (0, run demo_history NewMemoryStore).
Proof.
  apply (checkin_is_credited_once "guest" ["b1"%string] RealUseSourceCheckin "card" 7
    (run (take 2 demo_history) NewMemoryStore) [] ["b1"%string] 8).
  intros id ->%list_elem_of_singleton. split; [left|]. eexists. vm_compute. reflexivity.
Defined.

(** ** Guest merge *)

(** Merging a guest into an account moves the guest's blocks but not the ledger
    and feedback rows about them: no count of real uses or feedback of any user
    changes, and a check-in the guest was already credited for is credited to
    the same block a second time when the account repeats it. *)
Theorem guest_merge_forgets_ledger f t id source ref at_ at' s b :
  owned f id s = Some b ->
  ~ use_known t source ref id (RecordRealUses f [id] source ref at_ s).2 ->
  let s1 := (RecordRealUses f [id] source ref at_ s).2 in
  let s2 := ReassignUser f t s1 in
  map_Forall (fun _ x => b_UserID x = f -> f = t) (blocks s2) /\
  (forall u since, CountRealUsesBySource u since s2 = CountRealUsesBySource u since s1) /\
  (forall u, CountFeedback u s2 = CountFeedback u s1) /\
  (RecordRealUses t [id] source ref at' s2).1 = 1.
Proof.
  intros Ho Hnew s1 s2. split; [|split; [done|split; [done|]]].
  - intros i x. subst s2. cbn. rewrite lookup_fmap. intros (y & _ & ->)%fmap_Some.
    destruct (String.eqb_spec (b_UserID y) f); cbn; congruence.
  - assert (exists b1, owned f id s1 = Some b1) as [b1 Ho1].
    { destruct (record_real_use_owned f source ref at_ id f id s b Ho) as [b1 Hb1].
      subst s1. cbn. destruct (record_real_use f source ref at_ id s) as [c s']. eauto. }
    apply owned_lookup in Ho1 as (Hb1 & Hu & Hd).
    assert (owned t id s2 = Some (with_user t b1)) as Ho2.
    { subst s2. unfold owned. cbn. rewrite lookup_fmap, Hb1. cbn.
      rewrite Hu, String.eqb_refl. cbn. by rewrite String.eqb_refl, Hd. }
    cbn. unfold record_real_use. rewrite Ho2.
    destruct (existsb _ _) eqn:E; [|done]. by apply use_known_existsb in E.
Qed.

Lemma guest_merge_forgets_ledger_witness :
  (RecordRealUses "account" ["b1"%string] RealUseSourceCheckin "card" 9
     (ReassignUser "guest" "account"
        (RecordRealUses "guest" ["b1"%string] RealUseSourceCheckin "card" 7 demo_corpus).2)).1 = 1.
Proof.
  pose proof (guest_merge_forgets_ledger "guest" "account" "b1" RealUseSourceCheckin "card" 7 9
    demo_corpus (demo_block "b1" "guest")) as (_ & _ & _ & H).
  - vm_compute. reflexivity.
  - intros (r & Hr & Hu & _). vm_compute in Hr. apply list_elem_of_singleton in Hr as ->.
    discriminate Hu.
  - exact H.
Defined.
