(* ===== verification/CorpusListing.v ===== *)
(** * Listing, synchronising and scheduling the corpus

    The order of the listings, incremental synchronisation by cursor, the
    browse cursor, the due queue and the privacy wipe. *)
From S2P Require Import Prelude Prog GoString GoUnicode GoTime GoSort ApiErr Corpus CorpusStore CorpusLaws.

Open Scope Z_scope.

(** ** The two orders *)

(** The browse order, key by key: pinned first, favourites first, latest update
    first, then identifiers downwards and expressions upwards. *)
Definition browse_less : PhraseBlock -> PhraseBlock -> bool :=
  lex (less_by (fun b => pinRank (pinned b)))
    (lex (less_by (fun b => favRank (b_IsFavorite b)))
       (lex (fun a b => less_by b_UpdatedAt b a)
          (lex (fun a b => str_by b_ID b a) (str_by b_ExpressionEN)))).

Definition delta_less : PhraseBlock -> PhraseBlock -> bool :=
  lex (less_by b_UpdatedAt) (str_by b_ID).

Lemma compareBlocks_less a b : (compareBlocks a b <? 0) = browse_less a b.
Proof.
  unfold compareBlocks, browse_less, lex, less_by, str_by, After, Before.
  assert (forall x, pinRank x = 0 \/ pinRank x = 1) as Hp by (intros []; auto).
  assert (forall x, favRank x = 0 \/ favRank x = 1) as Hf by (intros []; auto).
  destruct (Hp (pinned a)) as [-> | ->], (Hp (pinned b)) as [-> | ->]; try done;
  destruct (Hf (b_IsFavorite a)) as [-> | ->], (Hf (b_IsFavorite b)) as [-> | ->]; try done;
    rewrite ?Z.sub_diag; cbn.
  all: destruct (Z.ltb_spec (b_UpdatedAt b) (b_UpdatedAt a)); [done|].
  all: destruct (Z.ltb_spec (b_UpdatedAt a) (b_UpdatedAt b)); [done|]; cbn.
  all: destruct (str_lt (b_ID b) (b_ID a)); [done|].
  all: destruct (str_lt (b_ID a) (b_ID b)); [done|]; cbn; unfold str_compare.
  all: destruct (String.eqb_spec (b_ExpressionEN a) (b_ExpressionEN b)) as [E|];
    [by rewrite E, str_lt_irrefl|by case_match].
Qed.

Lemma compareBlocksByUpdated_less a b : (compareBlocksByUpdated a b <? 0) = delta_less a b.
Proof.
  unfold compareBlocksByUpdated, delta_less, lex, less_by, str_by, After, Before.
  destruct (Z.ltb_spec (b_UpdatedAt a) (b_UpdatedAt b)); [done|].
  destruct (Z.ltb_spec (b_UpdatedAt b) (b_UpdatedAt a)); [done|]. cbn.
  destruct (str_lt (b_ID a) (b_ID b)); [done|]. by case_match.
Qed.

#[export] Instance browse_weak : StrictWeak browse_less.
Proof. unfold browse_less. repeat apply lex_weak; try apply _; by apply flip_weak; apply _. Qed.

#[export] Instance delta_weak : StrictWeak delta_less.
Proof. unfold delta_less. apply _. Qed.

Lemma list_less_eq f a b :
  list_less f a b = if lf_Incremental f then delta_less a b else browse_less a b.
Proof.
  unfold list_less. by rewrite compareBlocks_less, compareBlocksByUpdated_less.
Qed.

#[export] Instance list_less_weak f : StrictWeak (list_less f).
Proof.
  split; intros *; rewrite !list_less_eq; case_match;
    first [apply less_asymm|apply less_negtrans].
Qed.

Lemma list_less_ID f a b : list_less f a b = false -> list_less f b a = false -> b_ID a = b_ID b.
Proof.
  rewrite !list_less_eq. case_match; intros H1 H2.
  - destruct (lex_equal _ _ _ _ H1 H2) as [_ [H3 H4]]. by apply str_lt_antisymm.
  - destruct (lex_equal _ _ _ _ H1 H2) as [_ [H3 H4]].
    destruct (lex_equal _ _ _ _ H3 H4) as [_ [H5 H6]].
    destruct (lex_equal _ _ _ _ H5 H6) as [_ [H7 H8]].
    destruct (lex_equal _ _ _ _ H7 H8) as [[H9 H10] _]. symmetry. by apply str_lt_antisymm.
Qed.

(** ** The blocks of a store *)

Definition blocks_keyed (s : MemoryStore) : Prop :=
  map_Forall (fun id b => b_ID b = id) (blocks s).

Lemma all_blocks_elem s b :
  blocks_keyed s -> b ∈ all_blocks s <-> blocks s !! b_ID b = Some b.
Proof.
  intros Hk. unfold all_blocks. rewrite list_elem_of_fmap. split.
  - intros ([id y] & -> & Hin). apply elem_of_map_to_list in Hin. cbn. by rewrite (Hk _ _ Hin).
  - intros H. exists (b_ID b, b). by rewrite elem_of_map_to_list.
Qed.

Lemma all_blocks_separated f s : blocks_keyed s -> separated (list_less f) (all_blocks s).
Proof.
  intros Hk a b Ha Hb H1 H2. apply all_blocks_elem in Ha, Hb; [|done..].
  rewrite (list_less_ID f a b) in Ha by done. congruence.
Qed.

Lemma all_blocks_NoDup s : blocks_keyed s -> NoDup (all_blocks s).
Proof.
  intros Hk. unfold all_blocks. apply (NoDup_fmap_1 b_ID).
  replace (b_ID <$> (map_to_list (blocks s)).*2) with ((map_to_list (blocks s)).*1);
    [apply NoDup_fst_map_to_list|].
  rewrite <- list_fmap_compose. apply list_fmap_ext. intros i [id y] Hi. cbn.
  apply list_elem_of_lookup_2, elem_of_map_to_list in Hi. symmetry. by apply Hk.
Qed.

Lemma cut_to_take {A} n (l : list A) : 0 <= n -> cut_to n l = take (Z.to_nat n) l.
Proof. intros Hn. unfold cut_to. destruct (Z.ltb_spec n (Z.of_nat (length l))); [done|]. rewrite take_ge; [done|lia]. Qed.

(** A listing in full: what [ListBlocks] cuts to the page size. *)
Definition listing (f : ListFilter) (s : MemoryStore) : list PhraseBlock :=
  sort_Slice (list_less f) (List.filter (list_match f) (all_blocks s)).

Lemma ListBlocks_take f s :
  0 <= lf_Limit f -> ListBlocks f s = take (Z.to_nat (lf_Limit f)) (listing f s).
Proof. intros H. by apply cut_to_take. Qed.

Lemma listing_elem f s b :
  blocks_keyed s ->
  b ∈ listing f s <-> blocks s !! b_ID b = Some b /\ list_match f b = true.
Proof.
  intros Hk. unfold listing. rewrite (sort_Slice_Permutation _), list_elem_of_In, filter_In,
    <- list_elem_of_In, all_blocks_elem by done. done.
Qed.

Lemma listing_NoDup f s : blocks_keyed s -> NoDup (listing f s).
Proof.
  intros Hk. unfold listing. rewrite (sort_Slice_Permutation _).
  by apply NoDup_ListNoDup, List.NoDup_filter, NoDup_ListNoDup, all_blocks_NoDup.
Qed.

(** [service.go], ListBlocks: the cursor of the last row of a page. *)
Definition next_cursor (incremental : bool) (last : PhraseBlock) : ListCursor :=
  if incremental then
    mkCursor CursorModeDelta None zero_time (b_UpdatedAt last) false false (b_ID last)
  else
    mkCursor CursorModeBrowse (b_PinnedAt last) (b_CreatedAt last) (b_UpdatedAt last) (pinned last)
      (b_IsFavorite last) (b_ID last).

(** ** Incremental synchronisation *)

Definition delta_filter (u : string) (since : option time) (limit : Z) (c : option ListCursor)
  : ListFilter := mkFilter u "" "" "" false false true since c limit.

(** A client that synchronises page by page. *)
Definition sync (u : string) (since : option time) (limit : Z) (s : MemoryStore) (fuel : nat)
  : list PhraseBlock :=
  walk_pages (fun c => ListBlocks (delta_filter u since limit c) s) (next_cursor true) fuel None.

Lemma delta_cursor_less x b : isAfterDeltaCursor b (next_cursor true x) = delta_less x b.
Proof.
  unfold isAfterDeltaCursor, delta_less, lex, less_by, str_by, After, Before. cbn.
  destruct (Z.ltb_spec (b_UpdatedAt x) (b_UpdatedAt b)); [done|].
  by destruct (Z.ltb_spec (b_UpdatedAt b) (b_UpdatedAt x)).
Qed.

(** Incremental synchronisation misses nothing and repeats nothing: a client
    that follows the cursors receives, oldest change first, every block of the
    user — deleted ones included — that changed after its last synchronisation,
    each exactly once, whatever the page size. *)
Theorem sync_delivers_every_change u since limit s fuel :
  blocks_keyed s -> 1 <= limit -> (size (blocks s) < fuel)%nat ->
  let changed b := String.eqb (b_UserID b) u &&
                   match since with Some t => After (b_UpdatedAt b) t | None => true end in
  NoDup (sync u since limit s fuel) /\
  StronglySorted (not_after delta_less) (sync u since limit s fuel) /\
  forall b, b ∈ sync u since limit s fuel <->
    blocks s !! b_ID b = Some b /\ changed b = true.
Proof.
  intros Hk Hl Hf changed. set (L := listing (delta_filter u since limit None) s).
  assert (sync u since limit s fuel = L) as ->.
  { apply (walk_pages_all _ _ (Z.to_nat limit)); [lia|..].
    - unfold L, listing. rewrite (sort_Slice_Permutation _).
      eapply Nat.le_lt_trans; [apply filter_length_le|].
      unfold all_blocks. by rewrite length_fmap, length_map_to_list.
    - by rewrite ListBlocks_take by (cbn; lia).
    - intros pre x post HL. rewrite ListBlocks_take by (cbn; lia). f_equal.
      eapply (sorted_after _); [by apply all_blocks_separated|by apply all_blocks_NoDup| |exact HL].
      intros y. unfold list_match. cbn [lf_Incremental delta_filter lf_UserID].
      rewrite list_less_eq. cbn [lf_Incremental delta_filter]. unfold delta_match.
      cbn [lf_UpdatedAfter lf_After delta_filter]. rewrite delta_cursor_less.
      by rewrite !andb_true_r, andb_assoc. }
  split; [by apply listing_NoDup|]. split.
  - pose proof (sort_Slice_sorted (list_less (delta_filter u since limit None))
      (List.filter (list_match (delta_filter u since limit None)) (all_blocks s))) as H.
    fold (listing (delta_filter u since limit None) s) in H. fold L in H.
    eapply StronglySorted_mono; [|exact H]. intros a b. unfold not_after. by rewrite list_less_eq.
  - intros b. unfold L. rewrite listing_elem by done. unfold list_match, changed. cbn.
    unfold delta_match. cbn. by rewrite andb_true_r.
Qed.

(** ** Browsing by cursor *)

Definition with_cursor (c : ListCursor) (f : ListFilter) : ListFilter :=
  mkFilter (lf_UserID f) (lf_SceneTag f) (lf_FunctionTag f) (lf_Keyword f) (lf_FavoriteOnly f)
    (lf_PinnedOnly f) (lf_Incremental f) (lf_UpdatedAfter f) (Some c) (lf_Limit f).

(** The browse cursor stands just before its own row: its block has no
    expression. *)
Lemma browse_cursor_less x b :
  b_ID x <> b_ID b -> isAfterCursor b (next_cursor false x) = browse_less x b.
Proof.
  intros Hne. rewrite <- compareBlocks_less. unfold isAfterCursor, compareBlocks. cbn.
  assert (pinned (cursor_block (b_ID x) (b_IsFavorite x)
    (if pinned x then match b_PinnedAt x with Some t => Some t | None => Some 0 end else None)
    (b_UpdatedAt x)) = pinned x) as ->.
  { unfold pinned. cbn. destruct (b_PinnedAt x); done. }
  destruct (str_lt_trichotomy (b_ID x) (b_ID b)) as [|[H|H]]; [done|..]; rewrite H; [|done].
  by rewrite (str_lt_asymm _ _ H).
Qed.

Lemma browse_cursor_self x :
  b_ExpressionEN x <> ""%string -> isAfterCursor x (next_cursor false x) = true.
Proof.
  intros Hx. unfold isAfterCursor, compareBlocks. cbn.
  assert (pinned (cursor_block (b_ID x) (b_IsFavorite x)
    (if pinned x then match b_PinnedAt x with Some t => Some t | None => Some 0 end else None)
    (b_UpdatedAt x)) = pinned x) as ->.
  { unfold pinned. cbn. destruct (b_PinnedAt x); done. }
  rewrite !Z.sub_diag. cbn. unfold After, Before. rewrite !Z.ltb_irrefl, !str_lt_irrefl.
  unfold str_compare. by destruct (b_ExpressionEN x).
Qed.

(** The browse cursor of the memory store repeats the row it names: the page
    after a row begins with that row again, so a client that pages one by one
    never gets past the first. *)
Theorem browse_cursor_repeats_row f s x :
  blocks_keyed s -> lf_Incremental f = false -> lf_After f = None -> 1 <= lf_Limit f ->
  last (ListBlocks f s) = Some x -> b_ExpressionEN x <> ""%string ->
  let next := ListBlocks (with_cursor (next_cursor false x) f) s in
  head next = Some x /\ (lf_Limit f = 1 -> next = ListBlocks f s).
Proof.
  intros Hk Hi Ha Hl Hlast Hx next. set (f' := with_cursor (next_cursor false x) f).
  assert (x ∈ listing f s) as Hin.
  { rewrite ListBlocks_take in Hlast by lia. apply last_Some in Hlast as [l Hlast].
    rewrite <- (take_drop (Z.to_nat (lf_Limit f)) (listing f s)), Hlast.
    apply elem_of_app. left. apply elem_of_app. right. left. }
  apply listing_elem in Hin as [Hxs Hm]; [|done].
  assert (forall b, list_match f' b = list_match f b && isAfterCursor b (next_cursor false x)) as Hf'.
  { intros b. unfold list_match, f', browse_match. cbn. rewrite Hi, Ha.
    by rewrite !andb_true_r, !andb_assoc. }
  assert (x ∈ listing f' s) as Hin'.
  { apply listing_elem; [done|]. by rewrite Hf', Hm, browse_cursor_self. }
  assert (head (listing f' s) = Some x) as Hhd.
  { pose proof (sort_Slice_sorted (list_less f') (List.filter (list_match f') (all_blocks s))) as Hs.
    fold (listing f' s) in Hs. destruct (listing f' s) as [|h l] eqn:E; [by inversion Hin'|].
    apply elem_of_cons in Hin' as [->|Hin']; [done|]. exfalso.
    inversion_clear Hs as [|? ? _ Hh]. rewrite Forall_forall in Hh. specialize (Hh x Hin').
    assert (h ∈ listing f' s) as Hh' by (rewrite E; left).
    pose proof (listing_NoDup f' s Hk) as Hnd. rewrite E in Hnd. apply NoDup_cons in Hnd as [Hnd _].
    apply listing_elem in Hh' as [Hhs Hhm]; [|done]. rewrite Hf' in Hhm.
    apply andb_true_iff in Hhm as [_ Hhm]. destruct (decide (b_ID x = b_ID h)) as [Eid|Hne].
    - rewrite <- Eid in Hhs. assert (h = x) as -> by congruence. done.
    - rewrite browse_cursor_less in Hhm by done. unfold not_after in Hh.
      rewrite list_less_eq in Hh. unfold f' in Hh. cbn in Hh. rewrite Hi in Hh. congruence. }
  subst next. fold f'. rewrite (ListBlocks_take f') by (subst f'; cbn; lia).
  change (lf_Limit f') with (lf_Limit f). destruct (listing f' s) as [|h l]; [done|].
  injection Hhd as ->. split.
  - by destruct (Z.to_nat (lf_Limit f)) eqn:E; [lia|].
  - intros E1. rewrite E1. rewrite ListBlocks_take, E1 in Hlast |- * by lia.
    destruct (listing f s) as [|y l']; [done|]. cbn in *. by injection Hlast as ->.
Qed.

(** ** What synchronisation does not see *)

Lemma listing_nothing f s :
  blocks_keyed s -> (forall b, blocks s !! b_ID b = Some b -> list_match f b = false) ->
  ListBlocks f s = [].
Proof.
  intros Hk H. unfold ListBlocks, cut_to. fold (listing f s).
  assert (listing f s = []) as ->.
  { destruct (listing f s) as [|b l] eqn:E; [done|].
    assert (b ∈ listing f s) as Hin by (rewrite E; left).
    apply listing_elem in Hin as [Hb Hm]; [|done].
    by rewrite (H b Hb) in Hm. }
  rewrite take_nil. by case_match.
Qed.

Lemma blocks_keyed_fmap f s :
  (forall b, b_ID (f b) = b_ID b) -> blocks_keyed s -> blocks_keyed (set_blocks (f <$> blocks s) s).
Proof.
  intros Hf Hk id b. cbn. rewrite lookup_fmap. intros (x & Hx & ->)%fmap_Some.
  rewrite Hf. by apply Hk.
Qed.

(** A client that is up to date is never told of a restore or of a merge: when
    it has seen every change of the user's blocks, and of the guest's, no
    restore of the user's deleted blocks and no merge of the guest's blocks
    appears in its next synchronisation, because neither stamps the blocks it
    changes — though a deletion does. *)
Theorem restore_and_merge_bypass_sync u guest t limit c s :
  blocks_keyed s ->
  map_Forall (fun _ b => b_UserID b = u \/ b_UserID b = guest -> b_UpdatedAt b <= t) (blocks s) ->
  ListBlocks (delta_filter u (Some t) limit c) (RestoreDeletedForUser u s).2 = [] /\
  ListBlocks (delta_filter u (Some t) limit c) (ReassignUser guest u s) = [] /\
  forall id b at_, owned u id s = Some b -> t < at_ ->
    list_match (delta_filter u (Some t) limit None) (with_deletion (Some at_) at_ b) = true.
Proof.
  intros Hk Ht.
  assert (forall f, (forall b, b_ID (f b) = b_ID b) ->
    (forall b, b_UserID (f b) = u -> b_UserID b = u \/ b_UserID b = guest) ->
    (forall b, b_UpdatedAt (f b) = b_UpdatedAt b) ->
    ListBlocks (delta_filter u (Some t) limit c) (set_blocks (f <$> blocks s) s) = []) as H.
  { intros f H1 H2 H3. apply listing_nothing; [by apply blocks_keyed_fmap|].
    intros b. cbn. rewrite lookup_fmap. intros (x & Hx & E)%fmap_Some.
    unfold list_match. cbn. destruct (String.eqb_spec (b_UserID b) u) as [Eu|]; [|done].
    subst u. unfold delta_match, After. cbn. rewrite E, H3.
    specialize (Ht _ _ Hx (H2 x ltac:(by rewrite <- E))).
    destruct (Z.ltb_spec t (b_UpdatedAt x)); [lia|done]. }
  split; [|split].
  - apply H; intros b; case_match; cbn; auto.
  - apply H; intros b; destruct (String.eqb_spec (b_UserID b) guest); cbn; auto.
  - intros id b at_ (Hb & Hu & _)%owned_lookup Hat. unfold list_match, delta_match, After. cbn.
    rewrite Hu, String.eqb_refl. cbn. lia.
Qed.

Definition listed_corpus : MemoryStore :=
  set_blocks (<["b1" := demo_block "b1" "user"]>
    (<["b2" := with_deletion (Some 3) 3 (demo_block "b2" "user")]>
       {[ "b3" := demo_block "b3" "guest" ]}))%string NewMemoryStore.

Lemma listed_corpus_keyed : blocks_keyed listed_corpus.
Proof. by repeat (apply map_Forall_insert_2; [done|]); apply map_Forall_empty. Qed.

Lemma sync_delivers_every_change_witness :
  map b_ID (sync "user" None 1 listed_corpus 4) = ["b1"; "b2"]%string /\
  NoDup (sync "user" None 1 listed_corpus 4).
Proof.
  split; [vm_compute; reflexivity|].
  apply (sync_delivers_every_change "user" None 1 listed_corpus 4).
  - exact listed_corpus_keyed.
  - lia.
  - vm_compute. lia.
Defined.

Definition browse_one : ListFilter := mkFilter "user" "" "" "" false false false None None 1.

Lemma browse_cursor_repeats_row_witness :
  ListBlocks (with_cursor (next_cursor false (demo_block "b1" "user")) browse_one) listed_corpus
  = ListBlocks browse_one listed_corpus.
Proof.
  destruct (browse_cursor_repeats_row browse_one listed_corpus (demo_block "b1" "user")) as [_ H].
  - exact listed_corpus_keyed.
  - reflexivity.
  - reflexivity.
  - vm_compute. discriminate.
  - vm_compute. reflexivity.
  - discriminate.
  - apply H. reflexivity.
Defined.

Lemma restore_and_merge_bypass_sync_witness :
  ListBlocks (delta_filter "user" (Some 3) 10 None) (RestoreDeletedForUser "user" listed_corpus).2
  = [] /\ (RestoreDeletedForUser "user" listed_corpus).1 = 1.
Proof.
  split; [|vm_compute; reflexivity].
  apply (restore_and_merge_bypass_sync "user" "guest" 3 10 None listed_corpus).
  - exact listed_corpus_keyed.
  - apply map_Forall_insert_2; [intros _; vm_compute; discriminate|].
    apply map_Forall_insert_2; [intros _; vm_compute; discriminate|].
    apply map_Forall_singleton. intros _. vm_compute. discriminate.
Defined.
