(* ===== verification/CorpusService.v ===== *)
(** * The corpus service ([service.go], [recommend.go], [hits_service.go])

    Service methods as programs over the store, the clock and an identifier
    source.  The list endpoint and its cursor tokens are in [CorpusApi].  The
    service and its store are configured: the branches for a nil receiver are
    left out, and so are the metrics. *)
From S2P Require Import Prelude Prog GoString GoUnicode GoTime GoSort ApiErr Corpus CorpusStore CorpusLaws.

Open Scope Z_scope.
Open Scope prog_scope.

Inductive corpusSvcE : Type -> Type :=
| CDb {R : Type} (c : corpusE R) : corpusSvcE R
| CNow : corpusSvcE time
| CNewID : corpusSvcE string.

Abbreviation cprog := (program corpusSvcE).
Definition cdb {R} (c : corpusE R) : cprog R := call (CDb c).

(** The clock, the identifiers, and the calls other goroutines make before each
    store call. *)
Record COracle := mkCOracle {
  co_now : nat -> time;
  co_id : nat -> string;
  co_env : nat -> list event;
}.

Definition calone (o : COracle) : Prop := forall n, co_env o n = [].

Definition perform_corpus {mr : MapRange} {R} (o : COracle) (e : corpusSvcE R) (n : nat)
    (s : MemoryStore) : R * MemoryStore :=
  match e in corpusSvcE R return R * MemoryStore with
  | CDb c => handle c (run (co_env o n) s)
  | CNow => (co_now o n, s)
  | CNewID => (co_id o n, s)
  end.

#[export] Instance runs_corpus {mr : MapRange} : Runs COracle corpusSvcE MemoryStore :=
  @perform_corpus mr.

(** ** Views and validation *)

Record PhraseBlockView := mkView {
  v_ID : string;
  v_IntentZH : string;
  v_ExpressionEN : string;
  v_ExpressionVersion : Z;
  v_AnchorUserSaid : string;
  v_SceneTag : string;
  v_FunctionTag : string;
  v_State : string;
  v_SuccessStreak : Z;
  v_NextDueAt : time;
  v_EaseFactor : Z;
  v_RealUseCount : Z;
  v_IsFavorite : bool;
  v_PinnedAt : option time;
  v_SourceSessionID : option string;
  v_DeletedAt : option time;
  v_CreatedAt : time;
  v_UpdatedAt : time;
}.

Definition toView (b : PhraseBlock) : PhraseBlockView :=
  mkView (b_ID b) (b_IntentZH b) (b_ExpressionEN b) (b_ExpressionVersion b) (b_AnchorUserSaid b)
    (b_SceneTag b) (b_FunctionTag b) (b_State b) (b_SuccessStreak b) (b_NextDueAt b)
    (b_EaseFactor b) (b_RealUseCount b) (b_IsFavorite b) (b_PinnedAt b) (b_SourceSessionID b)
    (b_DeletedAt b) (b_CreatedAt b) (b_UpdatedAt b).

(** [UpdateBlockRequest] and [BatchAcceptBlock] carry the same fields. *)
Record BlockFields := mkFields {
  bf_IntentZH : string;
  bf_ExpressionEN : string;
  bf_AnchorUserSaid : string;
  bf_SceneTag : string;
  bf_FunctionTag : string;
}.

(** 2.5 *)
Definition defaultEase : Z := 0x4004000000000000.

Definition normalizeOptionalEnum (value : string) : string := ToLower (TrimSpace value).

Definition nextDueForNew (now : time) : time := Add (Truncate now Day) Day.

Definition stringPtr (value : string) : option string :=
  if blank value then None else Some value.

Definition memb (x : string) (l : list string) : bool := existsb (String.eqb x) l.

Definition validateAcceptedBlock (b : PhraseBlock) : option error :=
  if blank (b_IntentZH b) then Some (Api (InvalidArgument "intent_zh is required")) else
  if blank (b_ExpressionEN b) then Some (Api (InvalidArgument "expression_en is required")) else
  if blank (b_AnchorUserSaid b)
  then Some (Api (InvalidArgument "anchor_user_said is required")) else
  if negb (memb (b_SceneTag b) validSceneTags)
  then Some (Api (InvalidArgument "scene_tag is invalid")) else
  if negb (memb (b_FunctionTag b) validFunctionTags)
  then Some (Api (InvalidArgument "function_tag is invalid")) else
  if negb (memb (b_State b) validStates) then Some (Api (InvalidArgument "state is invalid"))
  else None.

Definition newAcceptedBlock (userID sourceSessionID : string) (now : time) (id : string)
    (item : BlockFields) : result error PhraseBlock :=
  let b := mkBlock id userID (TrimSpace (bf_IntentZH item)) (TrimSpace (bf_ExpressionEN item)) 0
             (TrimSpace (bf_AnchorUserSaid item)) (normalizeOptionalEnum (bf_SceneTag item))
             (normalizeOptionalEnum (bf_FunctionTag item)) StateNew 0 (nextDueForNew now)
             defaultEase 0 0 None false None (stringPtr sourceSessionID) None now now in
  match validateAcceptedBlock b with Some e => Err e | None => Ok b end.

Definition applyEditableFields (b : PhraseBlock) (req : BlockFields) : result error PhraseBlock :=
  let b := mkBlock (b_ID b) (b_UserID b) (TrimSpace (bf_IntentZH req))
             (TrimSpace (bf_ExpressionEN req)) (b_ExpressionVersion b)
             (TrimSpace (bf_AnchorUserSaid req)) (normalizeOptionalEnum (bf_SceneTag req))
             (normalizeOptionalEnum (bf_FunctionTag req)) (b_State b) (b_SuccessStreak b)
             (b_NextDueAt b) (b_EaseFactor b) (b_RealUseCount b) (b_TotalUses b) (b_LastUsedAt b)
             (b_IsFavorite b) (b_PinnedAt b) (b_SourceSessionID b) (b_DeletedAt b) (b_CreatedAt b)
             (b_UpdatedAt b) in
  match validateAcceptedBlock b with Some e => Err e | None => Ok b end.

(** [if err == ErrNotFound { return apierr.NotFound("block not found") }] *)
Definition block_error (e : error) : error :=
  if bool_decide (e = ErrNotFound) then Api (NotFound "block not found") else e.

Definition or_block_error {A} (r : result error A) : result error A :=
  match r with Ok a => Ok a | Err e => Err (block_error e) end.

Definition missing_user : error := Api (Unauthenticated "missing authenticated user").

(** A store call whose not-found error is rewritten. *)
Definition block_call {A} (c : corpusE (result error A)) : cprog (result error A) :=
  r <- cdb c; Ret (or_block_error r).

(** ** Editing *)

Definition Svc_UpdateBlock (userID blockID : string) (req : BlockFields)
  : cprog (result error PhraseBlockView) :=
  let userID := TrimSpace userID in
  if String.eqb userID "" then Ret (Err missing_user) else
  block <-! block_call (EGetBlock userID (TrimSpace blockID));
  let previousExpression := b_ExpressionEN block in
  match applyEditableFields block req with
  | Err e => Ret (Err e)
  | Ok block =>
      now <- call CNow;
      let block := with_version (b_ExpressionVersion block) now block in
      saved <-! block_call (EUpdateBlock block);
      if String.eqb (b_ExpressionEN saved) previousExpression then Ret (Ok (toView saved)) else
      id <- call CNewID;
      let edit := mkBlockEdit id userID (b_ID saved) (int64 (b_ExpressionVersion saved + 1))
                    previousExpression (b_ExpressionEN saved) now in
      _logged <- cdb (ESaveBlockEdit edit);
      reset <- cdb (EResetSchedule userID (b_ID saved) now);
      match reset with
      | Err _ => Ret (Ok (toView saved))
      | Ok b => Ret (Ok (toView b))
      end
  end.

Definition Svc_SetFavorite (userID blockID : string) (isFavorite pinned : bool)
  : cprog (result error PhraseBlockView) :=
  let userID := TrimSpace userID in
  if String.eqb userID "" then Ret (Err missing_user) else
  now <- call CNow;
  let pinnedAt := if pinned then Some now else None in
  let pinnedAt := if negb isFavorite then None else pinnedAt in
  saved <-! block_call (ESetFavorite userID (TrimSpace blockID) isFavorite pinnedAt now);
  Ret (Ok (toView saved)).

Definition authorizeBlock (userID blockID : string) : cprog (result error PhraseBlock) :=
  block <-! block_call (EPeekBlock (TrimSpace blockID));
  match b_DeletedAt block with
  | Some _ => Ret (Err (Api (NotFound "block not found")))
  | None =>
      if negb (String.eqb (b_UserID block) userID)
      then Ret (Err (Api (PermissionDenied "block belongs to another user")))
      else Ret (Ok block)
  end.

Definition UpdatePin (userID blockID : string) (pinned : bool)
  : cprog (result error PhraseBlockView) :=
  let userID := TrimSpace userID in
  if String.eqb userID "" then Ret (Err missing_user) else
  block <-! authorizeBlock userID blockID;
  now <- call CNow;
  let pinnedAt := if pinned then Some now else None in
  saved <-! block_call (ESetFavorite userID (b_ID block) (b_IsFavorite block) pinnedAt now);
  Ret (Ok (toView saved)).

Definition UpdateFavorite (userID blockID : string) (favorite : bool)
  : cprog (result error PhraseBlockView) :=
  let userID := TrimSpace userID in
  if String.eqb userID "" then Ret (Err missing_user) else
  block <-! authorizeBlock userID blockID;
  now <- call CNow;
  saved <-! block_call (ESetFavorite userID (b_ID block) favorite (b_PinnedAt block) now);
  Ret (Ok (toView saved)).

Definition DeleteBlock (userID blockID : string) : cprog (result error unit) :=
  let userID := TrimSpace userID in
  if String.eqb userID "" then Ret (Err missing_user) else
  now <- call CNow;
  block_call (ESoftDeleteBlock userID (TrimSpace blockID) now).

(** ** Accepting *)

Definition dedupeScanLimit : Z := 500.

Definition is_phrase_rune (r : Z) : bool :=
  ((97 <=? r) && (r <=? 122)) || ((48 <=? r) && (r <=? 57)) || ((0x4e00 <=? r) && (r <=? 0x9fff)).

Definition NormalizeExpression (expression : string) : string :=
  of_bytes (encode_runes (join_runes [32]
    (rune_fields (fun r => negb (is_phrase_rune r)) []
       (runes (to_bytes (ToLower (TrimSpace expression))))))).

Definition plain_filter (userID : string) (limit : Z) : ListFilter :=
  mkFilter userID "" "" "" false false false None None limit.

(** The learner's live phrases by normalised expression. *)
Definition by_expression (existing : list PhraseBlock) : gmap string PhraseBlock :=
  foldl (fun m b => if bool_decide (is_Some (b_DeletedAt b)) then m
                    else <[NormalizeExpression (b_ExpressionEN b) := b]> m) ∅ existing.

(** The loop over the requested blocks: what to insert and what was merged. *)
Fixpoint accept_items (userID sourceSessionID : string) (now : time) (items : list BlockFields)
    (byExpression : gmap string PhraseBlock) (blocks merged : list PhraseBlock)
  : cprog (result error (list PhraseBlock * list PhraseBlock)) :=
  match items with
  | [] => Ret (Ok (blocks, merged))
  | item :: items =>
      id <- call CNewID;
      match newAcceptedBlock userID sourceSessionID now id item with
      | Err e => Ret (Err e)
      | Ok block =>
          let key := NormalizeExpression (b_ExpressionEN block) in
          match byExpression !! key with
          | Some prev =>
              accept_items userID sourceSessionID now items byExpression blocks (merged ++ [prev])
          | None =>
              accept_items userID sourceSessionID now items (<[key := block]> byExpression)
                (blocks ++ [block]) merged
          end
      end
  end.

Record BatchAcceptResponse := mkAcceptResponse {
  ba_AcceptedCount : Z;
  ba_MergedCount : Z;
  ba_Items : list PhraseBlockView;
}.

Definition BatchAccept (userID sourceSessionID : string) (items : list BlockFields)
  : cprog (result error BatchAcceptResponse) :=
  let userID := TrimSpace userID in
  if String.eqb userID "" then Ret (Err missing_user) else
  let sourceSessionID := TrimSpace sourceSessionID in
  if String.eqb sourceSessionID ""
  then Ret (Err (Api (InvalidArgument "source_session_id is required"))) else
  match items with
  | [] => Ret (Err (Api (InvalidArgument "blocks is required")))
  | _ =>
      now <- call CNow;
      existing <- cdb (EListBlocks (plain_filter userID dedupeScanLimit));
      r <-! accept_items userID sourceSessionID now items (by_expression existing) [] [];
      saved <- cdb (ESaveAcceptedBlocks r.1);
      Ret (Ok (mkAcceptResponse (Z.of_nat (length saved)) (Z.of_nat (length r.2))
                 (map toView saved ++ map toView r.2)))
  end.

(** ** Real uses and feedback *)

Definition realUseMaxBlocks : Z := 50.

Definition RecordRealUse (userID : string) (blockIDs : list string) (source refID : string)
  : cprog (result error Z) :=
  let userID := TrimSpace userID in
  if String.eqb userID "" then Ret (Err missing_user) else
  if negb (String.eqb source RealUseSourceHit || String.eqb source RealUseSourceCheckin)
  then Ret (Err (Api (InvalidArgument "source must be hit or checkin"))) else
  let refID := TrimSpace refID in
  if String.eqb refID "" then Ret (Err (Api (InvalidArgument "ref_id is required"))) else
  let cleaned := List.filter (fun id => negb (String.eqb id "")) (map TrimSpace blockIDs) in
  if Z.of_nat (length cleaned) =? 0 then Ret (Ok 0) else
  if realUseMaxBlocks <? Z.of_nat (length cleaned)
  then Ret (Err (Api (InvalidArgument "too many blocks in one credit request"))) else
  now <- call CNow;
  n <- cdb (ERecordRealUses userID cleaned source refID now);
  Ret (Ok n).

Record FeedbackResponse := mkFeedbackResponse {
  fr_BlockID : string;
  fr_Reason : string;
  fr_Recorded : bool;
}.

Definition RecordFeedback (userID blockID reason : string)
  : cprog (result error FeedbackResponse) :=
  let userID := TrimSpace userID in
  if String.eqb userID "" then Ret (Err missing_user) else
  let blockID := TrimSpace blockID in
  if String.eqb blockID "" then Ret (Err (Api (InvalidArgument "block_id is required"))) else
  let reason := TrimSpace reason in
  if negb (ValidFeedbackReason reason)
  then Ret (Err (Api (InvalidArgument
         "reason must be not_idiomatic, not_useful or wrong_meaning"))) else
  block <-! block_call (EPeekBlock blockID);
  if negb (String.eqb (b_UserID block) userID) || bool_decide (is_Some (b_DeletedAt block))
  then Ret (Err (Api (NotFound "block not found"))) else
  id <- call CNewID;
  now <- call CNow;
  first <- cdb (ESaveFeedback (mkFeedback id userID blockID reason None now false));
  Ret (Ok (mkFeedbackResponse blockID reason first)).

Definition FeedbackSummary (userID : string) : cprog (result error (list (string * Z))) :=
  let userID := TrimSpace userID in
  if String.eqb userID "" then Ret (Err missing_user) else
  counts <- cdb (ECountFeedback userID);
  Ret (Ok (map (fun reason => (reason, default 0 (counts !! reason)))
             [FeedbackNotIdiomatic; FeedbackNotUseful; FeedbackWrongMeaning])).

(** ** Recommendations ([recommend.go]) *)

Definition ReasonSceneMatch : string := "scene_match".
Definition ReasonMostUsed : string := "most_used".
Definition ReasonStaleGreen : string := "stale_green".

Definition DefaultRecommendLimit : Z := 3.
Definition MaxRecommendLimit : Z := 10.
Definition StaleAfter : duration := 30 * 24 * Hour.
Definition recommendScanLimit : Z := 200.

Record Recommendation := mkRecommendation {
  rc_View : PhraseBlockView;
  rc_Reason : string;
  rc_Stale : bool;
}.

Definition referenceTime (b : PhraseBlock) : time :=
  match b_LastUsedAt b with Some t => t | None => b_UpdatedAt b end.

Definition recommendation (b : PhraseBlock) (scene : string) (now : time) : Recommendation :=
  let stale := String.eqb (b_State b) StateAutomated &&
               Before (referenceTime b) (Add now (- StaleAfter)) in
  if stale then mkRecommendation (toView b) ReasonStaleGreen true
  else if negb (String.eqb scene "") && EqualFold (b_SceneTag b) scene
  then mkRecommendation (toView b) ReasonSceneMatch false
  else mkRecommendation (toView b) ReasonMostUsed false.

Definition green (b : PhraseBlock) : bool := String.eqb (b_State b) StateAutomated.

(** The [less] of [sortByUsefulness]. *)
Definition more_useful (a b : PhraseBlock) : bool :=
  if negb (b_RealUseCount a =? b_RealUseCount b) then b_RealUseCount b <? b_RealUseCount a
  else if negb (Bool.eqb (green a) (green b)) then green a
  else if negb (b_UpdatedAt a =? b_UpdatedAt b) then After (b_UpdatedAt a) (b_UpdatedAt b)
  else str_lt (b_ID a) (b_ID b).

Definition sortByUsefulness (bs : list PhraseBlock) : list PhraseBlock :=
  sort_Slice more_useful bs.

(** The split into the session's scene and the rest: the blocks considered, and
    whether each is in the scene. *)
Definition considered (function : string) (b : PhraseBlock) : bool :=
  negb (bool_decide (is_Some (b_DeletedAt b))) &&
  (String.eqb function "" || EqualFold (b_FunctionTag b) function).

Definition in_scene (scene : string) (b : PhraseBlock) : bool :=
  negb (String.eqb scene "") && EqualFold (b_SceneTag b) scene.

(** [for ... { if len(items) == limit { break }; items = append(...) }] *)
Fixpoint fill (limit : nat) (f : PhraseBlock -> Recommendation) (bs : list PhraseBlock)
    (items : list Recommendation) : list Recommendation :=
  match bs with
  | [] => items
  | b :: bs => if Nat.eqb (length items) limit then items else fill limit f bs (items ++ [f b])
  end.

Definition clampRecommendLimit (limit : Z) : Z :=
  let limit := if limit <=? 0 then DefaultRecommendLimit else limit in
  if MaxRecommendLimit <? limit then MaxRecommendLimit else limit.

Definition Recommend (userID sceneTag functionTag : string) (limit : Z)
  : cprog (result error (string * list Recommendation)) :=
  let userID := TrimSpace userID in
  if String.eqb userID "" then Ret (Err missing_user) else
  let limit := clampRecommendLimit limit in
  let scene := TrimSpace sceneTag in
  let function := TrimSpace functionTag in
  blocks <- cdb (EListBlocks (plain_filter userID recommendScanLimit));
  now <- call CNow;
  let blocks := List.filter (considered function) blocks in
  let inScene := sortByUsefulness (List.filter (in_scene scene) blocks) in
  let rest := sortByUsefulness (List.filter (fun b => negb (in_scene scene b)) blocks) in
  let item b := recommendation b scene now in
  let items := fill (Z.to_nat limit) item inScene [] in
  let items := fill (Z.to_nat limit) item rest items in
  Ret (Ok (scene, items)).

(** ** Hits ([hits_service.go]) *)

Definition RecentHitTTLMs : Z := 60000.

(** The loop of [dedupeHits]: the kept hit and first position of each block. *)
Definition dedupe_step (turnID : string) (st : gmap string (Hit * nat) * nat) (hit : Hit)
  : gmap string (Hit * nat) * nat :=
  let (seen, order) := st in
  let id := TrimSpace (h_BlockID hit) in
  if String.eqb id "" then st else
  let hit := mkHit id (if blank (h_TurnID hit) then turnID else h_TurnID hit) (h_DetectedAtMs hit) in
  match seen !! id with
  | Some (existing, position) =>
      if h_DetectedAtMs existing <=? h_DetectedAtMs hit
      then (<[id := (hit, position)]> seen, order) else st
  | None => (<[id := (hit, order)]> seen, S order)
  end.

Section hits.
Context {mr : MapRange}.

Definition dedupeHits (turnID : string) (hits : list Hit) : list Hit :=
  let '(seen, _) := foldl (dedupe_step turnID) (∅, 0%nat) hits in
  foldl (fun (out : list Hit) item => <[item.2 := item.1]> out)
    (replicate (size seen) (mkHit "" "" 0)) (map_range seen).*2.

Definition Svc_RecordHits (userID sessionID turnID : string) (hits : list Hit)
  : cprog (result error Z) :=
  let userID := TrimSpace userID in
  let sessionID := TrimSpace sessionID in
  let turnID := TrimSpace turnID in
  if String.eqb userID "" then Ret (Err (Api (InvalidArgument "user_id is required"))) else
  if String.eqb sessionID "" then Ret (Err (Api (InvalidArgument "session_id is required"))) else
  if String.eqb turnID "" then Ret (Err (Api (InvalidArgument "turn_id is required"))) else
  let deduped := dedupeHits turnID hits in
  if Nat.eqb (length deduped) 0 then Ret (Ok 0) else
  n <- cdb (ERecordHits userID sessionID turnID deduped);
  Ret (Ok n).
End hits.

(** The turns of the lookback window: the first [k] distinct ones. *)
Definition allow_turn (k : nat) (allowed : gset string) (hit : RecentHit) : gset string :=
  if bool_decide (rh_TurnID hit ∈ allowed) then allowed
  else if Nat.leb k (size allowed) then allowed
  else {[ rh_TurnID hit ]} ∪ allowed.

Definition applyLookback (hits : list RecentHit) (lookbackTurns : Z) : list RecentHit :=
  if (lookbackTurns <=? 0) || Nat.eqb (length hits) 0 then [] else
  let allowed := foldl (allow_turn (Z.to_nat lookbackTurns)) ∅ hits in
  List.filter (fun hit => bool_decide (rh_TurnID hit ∈ allowed)) hits.

Definition RecentHits (sessionID : string) (lookbackTurns : Z)
  : cprog (result error (list RecentHit * Z)) :=
  let sessionID := TrimSpace sessionID in
  if String.eqb sessionID "" then Ret (Err (Api (InvalidArgument "session_id is required"))) else
  let lookbackTurns := if lookbackTurns <? 0 then 0 else lookbackTurns in
  hits <- cdb (EListSessionHits sessionID);
  let filtered := applyLookback hits lookbackTurns in
  let ttl := match filtered with
             | [] => 0
             | h :: _ => int64 (rh_UsedAtMs h + RecentHitTTLMs)
             end in
  Ret (Ok (filtered, ttl)).
