(* ===== verification/CorpusApi.v ===== *)
(** * Listing phrase blocks through the API ([internal/corpus/service.go])

    [GET /corpus/blocks]: the filters of a request, its cursor — the unpadded
    URL-safe base64 of a JSON object of strings — and the page it answers. *)
From S2P Require Import Prelude Prog GoString GoUnicode GoTime GoTimeParse GoSort GoCrypto GoBase64 GoJson GoJsonLaws GoJsonMap ApiErr Corpus CorpusStore CorpusLaws CorpusListing CorpusService Paging.

Open Scope Z_scope.
Open Scope prog_scope.

Definition defaultListLimit : Z := 20.
Definition maxListLimit : Z := 100.

Record ListBlocksRequest := mkListBlocksRequest {
  lb_UserID : string;
  lb_SceneTag : string;
  lb_FunctionTag : string;
  lb_Keyword : string;
  lb_Cursor : string;
  lb_UpdatedAfter : string;
  lb_Limit : Z;
  lb_FavoriteOnly : bool;
  lb_PinnedOnly : bool;
}.

(** [NextCursor] is empty on the last page. *)
Record ListBlocksResponse := mkListBlocksResponse {
  br_Items : list PhraseBlockView;
  br_NextCursor : string;
  br_CursorReset : bool;
}.

(** ** Cursor tokens *)

Definition boolCursorFlag (value : bool) : string := if value then "1" else "0".

(** The [map[string]string] a cursor is written as. *)
Definition cursor_payload (c : ListCursor) : gmap string string :=
  let mode := if String.eqb (c_Mode c) "" then CursorModeBrowse else c_Mode c in
  let base : gmap string string := {[ "id" := c_ID c; "mode" := mode ]} in
  if String.eqb mode CursorModeDelta then <["updated_at" := format_rfc3339nano (c_UpdatedAt c)]> base
  else
    let createdAt := if IsZero (c_CreatedAt c) then c_UpdatedAt c else c_CreatedAt c in
    let p :=
      <["created_at" := format_rfc3339nano createdAt]>
      (<["updated_at" := format_rfc3339nano (c_UpdatedAt c)]>
      (<["is_pinned" := boolCursorFlag (c_IsPinned c)]>
      (<["is_favorite" := boolCursorFlag (c_IsFavorite c)]> base))) in
    match c_PinnedAt c with Some t => <["pinned_at" := format_rfc3339nano t]> p | None => p end.

(** Marshalling a map of strings does not fail. *)
Definition encodeCursor (c : ListCursor) : string :=
  RawURLEncode (byte_values (text (marshal_map ((fun s => JStr (quote s)) <$> cursor_payload c)))).

(** [json.Unmarshal] into a [map[string]string]: a value of another type is an
    error, [null] the empty string. *)
Definition dec_payload (v : json) : result json_error (gmap string string) :=
  match dec_map v with
  | Err e => Err e
  | Ok m =>
      match v with
      | JObj ms =>
          if forallb (fun m => is_ok (dec_string "" m.2)) ms
          then Ok ((fun x => match dec_string "" x with Ok s => s | Err _ => ""%string end) <$> m)
          else Err TypeMismatch
      | _ => Ok ∅
      end
  end.

Definition field_of (p : gmap string string) (k : string) : string := default ""%string (p !! k).

Definition cursor_error (t : string) : error := Errorf t.

(** A time of the payload that may be missing. *)
Definition optional_time (p : gmap string string) (k : string) : result error (option time) :=
  let value := TrimSpace (field_of p k) in
  if String.eqb value "" then Ok None
  else match parse_rfc3339 value with
       | Some t => Ok (Some t)
       | None => Err (cursor_error "parsing time")
       end.

Definition flag_of (p : gmap string string) (k : string) (old : bool) : bool :=
  let value := TrimSpace (field_of p k) in
  if String.eqb value "" then old else String.eqb value "1" || String.eqb value "true".

Definition browse_cursor (p : gmap string string) (id : string) : result error ListCursor :=
  match optional_time p "created_at" with
  | Err e => Err e
  | Ok created =>
      let createdAt := default zero_time created in
      match optional_time p "updated_at" with
      | Err e => Err e
      | Ok updated =>
          let updatedAt := default createdAt updated in
          match optional_time p "pinned_at" with
          | Err e => Err e
          | Ok pinnedAt =>
              Ok (mkCursor CursorModeBrowse pinnedAt createdAt updatedAt
                    (flag_of p "is_pinned" (bool_decide (is_Some pinnedAt)))
                    (flag_of p "is_favorite" false) id)
          end
      end
  end.

(** The cursor a payload stands for. *)
Definition cursor_of_payload (p : gmap string string) : result error ListCursor :=
  let id := TrimSpace (field_of p "id") in
  let mode := TrimSpace (field_of p "mode") in
  if String.eqb id "" then Err (cursor_error "missing id") else
  let mode :=
    if String.eqb mode "" then
      if String.eqb (TrimSpace (field_of p "updated_at")) "" then CursorModeBrowse else CursorModeDelta
    else mode in
  if String.eqb mode CursorModeDelta then
    match parse_rfc3339 (field_of p "updated_at") with
    | Some t => Ok (mkCursor CursorModeDelta None zero_time t false false id)
    | None => Err (cursor_error "parsing time")
    end
  else if String.eqb mode CursorModeBrowse then browse_cursor p id
  else Err (cursor_error "invalid cursor mode").

Definition decodeCursor (token : string) : result error ListCursor :=
  match b64_decode b64url token with
  | None => Err (cursor_error "illegal base64 data")
  | Some raw =>
      match (match parse (of_bytes (map byte_of raw)) with Ok v => dec_payload v | Err e => Err e end) with
      | Err _ => Err (cursor_error "json")
      | Ok p => cursor_of_payload p
      end
  end.

(** ** ListBlocks *)

Definition normalizeLimit (limit : Z) : Z :=
  if limit <=? 0 then defaultListLimit else if maxListLimit <? limit then maxListLimit else limit.

Definition invalid (m : string) : error := Api (InvalidArgument m).

(** The store's filter a request stands for: its checks in the code's order. *)
Definition list_filter (userID : string) (req : ListBlocksRequest) : result error ListFilter :=
  match (if String.eqb (TrimSpace (lb_Cursor req)) "" then Ok None
         else match decodeCursor (lb_Cursor req) with Ok c => Ok (Some c) | Err e => Err e end) with
  | Err _ => Err (invalid "cursor is invalid")
  | Ok decoded =>
      let after := TrimSpace (lb_UpdatedAfter req) in
      let delta := match decoded with Some c => String.eqb (c_Mode c) CursorModeDelta | None => false end in
      let incremental := negb (String.eqb after "") || delta in
      if incremental &&
         (negb (String.eqb (TrimSpace (lb_SceneTag req)) "") || negb (String.eqb (TrimSpace (lb_FunctionTag req)) "")
          || negb (String.eqb (TrimSpace (lb_Keyword req)) "") || lb_FavoriteOnly req || lb_PinnedOnly req)
      then Err (invalid "updated_after cannot be combined with scene, func, kw, favorite_only, or pinned_only") else
      let scene := normalizeOptionalEnum (lb_SceneTag req) in
      let func := normalizeOptionalEnum (lb_FunctionTag req) in
      if negb (String.eqb scene "") && negb (memb scene validSceneTags) then Err (invalid "scene is invalid") else
      if negb (String.eqb func "") && negb (memb func validFunctionTags) then Err (invalid "func is invalid") else
      match (if String.eqb after "" then Ok None
             else match parse_rfc3339 after with Some t => Ok (Some t) | None => Err tt end) with
      | Err _ => Err (invalid "updated_after is invalid")
      | Ok updatedAfter =>
          let filter := mkFilter userID scene func (TrimSpace (lb_Keyword req)) (lb_FavoriteOnly req)
            (lb_PinnedOnly req) incremental updatedAfter decoded (normalizeLimit (lb_Limit req)) in
          match decoded with
          | Some c =>
              if incremental && String.eqb (c_Mode c) CursorModeBrowse
              then Err (invalid "cursor mode is invalid for updated_after")
              else if negb incremental && delta then Err (invalid "delta cursor requires updated_after")
              else Ok filter
          | None => Ok filter
          end
      end
  end.

Definition blocks_page (f : ListFilter) (bs : list PhraseBlock) : ListBlocksResponse :=
  mkListBlocksResponse (map toView bs)
    (if Z.of_nat (length bs) =? lf_Limit f then
       match last bs with Some x => encodeCursor (next_cursor (lf_Incremental f) x) | None => "" end
     else "")
    false.

Definition Svc_ListBlocks (req : ListBlocksRequest) : cprog (result error ListBlocksResponse) :=
  let userID := TrimSpace (lb_UserID req) in
  if String.eqb userID "" then Ret (Err (Api (Unauthenticated "missing authenticated user"))) else
  match list_filter userID req with
  | Err e => Ret (Err e)
  | Ok f => bs <- cdb (EListBlocks f); Ret (Ok (blocks_page f bs))
  end.

(** * What listing through the API guarantees

    Cursor tokens are read back; a client that synchronises through the API
    receives every change. *)


(** ** Payloads *)

Lemma ascii_utf8 s : Forall (fun a => byte_val a < 128) (to_bytes s) -> valid_utf8 s.
Proof.
  intros H. unfold valid_utf8. apply to_bytes_inj. rewrite list_ascii_of_string_of_list_ascii.
  induction H as [|a l Ha _ IH]; [done|]. rewrite runes_ascii by done. unfold encode_runes in *. cbn.
  rewrite IH. unfold encode_rune. replace (byte_val a <? 128) with true by lia. cbn. by rewrite byte_of_val.
Qed.

Lemma format_utf8 t : valid_utf8 (format_rfc3339nano t).
Proof.
  apply ascii_utf8. eapply Forall_impl; [apply format_bytes|]. intros a Ha.
  destruct (time_byte_plain a Ha) as [_ [_ H]]. done.
Qed.

Lemma format_trim t : TrimSpace (format_rfc3339nano t) = format_rfc3339nano t.
Proof.
  apply TrimSpace_graphic. eapply Forall_impl; [apply format_bytes|]. intros a Ha. by apply time_byte_plain.
Qed.

Definition utf8_payload (p : gmap string string) : Prop := map_Forall (fun k v => valid_utf8 k /\ valid_utf8 v) p.

Lemma payload_decodes p : utf8_payload p -> dec_payload (marshal_map ((fun s => JStr (quote s)) <$> p)) = Ok p.
Proof.
  intros Hp. unfold dec_payload. rewrite dec_marshal_map.
  2: { intros k v. rewrite lookup_fmap. intros (s & Hs & _)%fmap_Some. by apply (Hp _ _ Hs). }
  unfold marshal_map. set (m := (fun s => JStr (quote s)) <$> p).
  assert (forall k, exists s, default JNull (m !! k) = JStr (quote s) \/ default JNull (m !! k) = JNull) as Hm.
  { intros k. unfold m. rewrite lookup_fmap. destruct (p !! k) as [s|]; [exists s; by left|exists ""%string; by right]. }
  replace (forallb _ _) with true.
  2: { symmetry. apply forallb_forall. intros [x v] (k & [= <- <-] & _)%in_map_iff. cbn.
       by destruct (Hm k) as [s [-> | ->]]. }
  f_equal. apply map_eq. intros k. unfold m. rewrite !lookup_fmap. destruct (p !! k) as [s|] eqn:Hs; [|done].
  cbn. destruct (Hp _ _ Hs) as [_ Hv]. by rewrite unquote_quote, Hv.
Qed.

Lemma payload_ok p : json_ok max_depth (marshal_map ((fun s => JStr (quote s)) <$> p)).
Proof.
  apply marshal_map_ok. intros k v. rewrite lookup_fmap. intros (s & _ & ->)%fmap_Some. apply quote_lit_ok.
Qed.

(** ** Cursors *)

(** A time that a cursor can hold. *)
Definition year_ok (t : time) : Prop := 0 <= (civil_of_day (unix_day t)).1.1 <= 9999.

Definition block_cursor_ok (b : PhraseBlock) : Prop :=
  b_ID b <> ""%string /\ valid_utf8 (b_ID b) /\ TrimSpace (b_ID b) = b_ID b /\ year_ok (b_UpdatedAt b) /\
  year_ok (b_CreatedAt b) /\ b_CreatedAt b <> zero_time /\ match b_PinnedAt b with Some t => year_ok t | None => True end.

Lemma field_insert p k v k' : field_of (<[k := v]> p) k' = if String.eqb k k' then v else field_of p k'.
Proof.
  unfold field_of. destruct (String.eqb_spec k k') as [->|Hne]; [by rewrite lookup_insert_eq|by rewrite lookup_insert_ne].
Qed.

Lemma field_single k v k' : field_of {[ k := v ]} k' = if String.eqb k k' then v else ""%string.
Proof. rewrite <- insert_empty, field_insert. done. Qed.

Lemma cursor_payload_utf8 c : valid_utf8 (c_ID c) -> valid_utf8 (c_Mode c) -> utf8_payload (cursor_payload c).
Proof.
  intros Hid Hm. unfold cursor_payload, utf8_payload. rewrite <- insert_empty.
  assert (forall k : string, Forall (fun a => byte_val a < 128) (to_bytes k) -> valid_utf8 k) as Hk by apply ascii_utf8.
  assert (forall b, valid_utf8 (boolCursorFlag b)) as Hb by (by intros []).
  repeat case_match; repeat (apply map_Forall_insert_2; [split; [done|try done; apply format_utf8]|]);
    apply map_Forall_empty.
Qed.

Lemma format_not_empty t : year_ok t -> format_rfc3339nano t <> ""%string.
Proof. intros Ht E. apply (f_equal parse_rfc3339) in E. by rewrite parse_format in E. Qed.

Lemma optional_time_format p k t : year_ok t -> field_of p k = format_rfc3339nano t -> optional_time p k = Ok (Some t).
Proof.
  intros Ht E. unfold optional_time. rewrite E, format_trim, parse_format by done.
  apply format_not_empty, String.eqb_neq in Ht as ->. done.
Qed.

Lemma optional_time_missing p k : field_of p k = ""%string -> optional_time p k = Ok None.
Proof. intros E. unfold optional_time. by rewrite E. Qed.

Lemma flag_of_flag p k b old : field_of p k = boolCursorFlag b -> flag_of p k old = b.
Proof. intros E. unfold flag_of. rewrite E. by destruct b. Qed.

Lemma decode_encode c : valid_utf8 (c_ID c) -> valid_utf8 (c_Mode c) ->
  decodeCursor (encodeCursor c) = cursor_of_payload (cursor_payload c).
Proof.
  intros Hid Hm. unfold decodeCursor, encodeCursor, RawURLEncode.
  rewrite b64_url_encode, (b64_roundtrip b64url b64url_alphabet) by apply byte_values_ok.
  rewrite of_byte_values, parse_text by apply payload_ok.
  by rewrite payload_decodes by by apply cursor_payload_utf8.
Qed.

(** The fields of the two kinds of payload. *)
Lemma delta_fields b : let p := cursor_payload (next_cursor true b) in
  field_of p "id" = b_ID b /\ field_of p "mode" = CursorModeDelta /\
  field_of p "updated_at" = format_rfc3339nano (b_UpdatedAt b).
Proof.
  cbv zeta. change (cursor_payload (next_cursor true b)) with
    (<["updated_at"%string := format_rfc3339nano (b_UpdatedAt b)]> (<["id"%string := b_ID b]> (<["mode"%string := CursorModeDelta]> ∅))
       : gmap string string).
  by rewrite !field_insert.
Qed.

Lemma browse_fields b : b_CreatedAt b <> zero_time -> let p := cursor_payload (next_cursor false b) in
  field_of p "id" = b_ID b /\ field_of p "mode" = CursorModeBrowse /\
  field_of p "updated_at" = format_rfc3339nano (b_UpdatedAt b) /\
  field_of p "created_at" = format_rfc3339nano (b_CreatedAt b) /\
  field_of p "is_pinned" = boolCursorFlag (pinned b) /\ field_of p "is_favorite" = boolCursorFlag (b_IsFavorite b) /\
  field_of p "pinned_at" = match b_PinnedAt b with Some t => format_rfc3339nano t | None => "" end.
Proof.
  intros Hz. cbv zeta. unfold cursor_payload. cbn [next_cursor c_Mode c_CreatedAt c_UpdatedAt c_IsPinned c_IsFavorite c_PinnedAt c_ID].
  change (String.eqb CursorModeBrowse "") with false. cbv beta iota zeta.
  change (String.eqb CursorModeBrowse CursorModeDelta) with false. cbv iota. unfold IsZero. apply Z.eqb_neq in Hz as ->. rewrite <- insert_empty.
  destruct (b_PinnedAt b); rewrite !field_insert; done.
Qed.

Lemma token_roundtrip incremental b : block_cursor_ok b ->
  decodeCursor (encodeCursor (next_cursor incremental b)) = Ok (next_cursor incremental b).
Proof.
  intros (Hid & Hu & Ht & Hup & Hcr & Hz & Hpin).
  rewrite decode_encode by (by destruct incremental). apply String.eqb_neq in Hid.
  unfold cursor_of_payload. destruct incremental.
  - destruct (delta_fields b) as (-> & -> & ->). rewrite Ht, Hid. change (TrimSpace CursorModeDelta) with CursorModeDelta.
    change (String.eqb CursorModeDelta "") with false. rewrite String.eqb_refl. by rewrite parse_format.
  - destruct (browse_fields b Hz) as (-> & -> & E1 & E2 & E3 & E4 & E5). rewrite Ht, Hid.
    change (TrimSpace CursorModeBrowse) with CursorModeBrowse.
    change (String.eqb CursorModeBrowse "") with false. change (String.eqb CursorModeBrowse CursorModeDelta) with false.
    rewrite String.eqb_refl. unfold browse_cursor.
    rewrite (optional_time_format _ _ _ Hcr E2), (optional_time_format _ _ _ Hup E1).
    assert (optional_time (cursor_payload (next_cursor false b)) "pinned_at" = Ok (b_PinnedAt b)) as ->.
    { destruct (b_PinnedAt b); [by apply optional_time_format|by apply optional_time_missing]. }
    by rewrite (flag_of_flag _ _ _ _ E3), (flag_of_flag _ _ _ _ E4).
Qed.

(** ** Identifiers and keys *)

Lemma keyed_put id b s : b_ID b = id -> blocks_keyed s -> blocks_keyed (put id b s).
Proof. intros E Hk. by apply map_Forall_insert_2. Qed.

Lemma keyed_update p f s : (forall b, b_ID (f b) = b_ID b) -> blocks_keyed s -> blocks_keyed (update_where p f s).2.
Proof. intros Hf. apply blocks_keyed_fmap. intros b. case_match; [apply Hf|done]. Qed.

Lemma keyed_credit u id t b use s : owned u id s = Some b -> blocks_keyed s -> blocks_keyed (credit u id t b use s).
Proof.
  intros (Hb & _)%owned_lookup Hk. unfold credit. apply keyed_put; [|done].
  destruct (ApplyJudge_counts (Normalize (schedule s)) (with_use t b) true t) as [-> _]. apply (Hk _ _ Hb).
Qed.

Lemma keyed_save {mr : MapRange} b s : blocks_keyed s -> blocks_keyed (save_one b s).2.
Proof.
  intros Hk. destruct (save_one_cases b s) as [->|[(id & x & b' & Hx & (E & _) & _ & ->)|[-> (E & _)]]]; [done| |].
  - apply keyed_put; [|done]. rewrite E. apply (Hk _ _ Hx).
  - by apply keyed_put.
Qed.

Lemma keyed_owned u id x b s : owned u id s = Some x -> b_ID b = b_ID x -> blocks_keyed s -> blocks_keyed (put id b s).
Proof. intros (Hx & _)%owned_lookup E Hk. apply keyed_put; [|done]. rewrite E. apply (Hk _ _ Hx). Qed.

(** No call moves a block away from its identifier. *)
Lemma blocks_keyed_step {mr : MapRange} R (c : corpusE R) s : blocks_keyed s -> blocks_keyed (handle c s).2.
Proof.
  intros Hk. destruct c; cbn [handle snd]; try done; try (by apply keyed_update).
  - apply SaveAccepted_inv; [|done]. intros. by apply keyed_save.
  - unfold UpdateBlock. destruct (owned _ _ s) eqn:E; [|done]. by apply keyed_put.
  - unfold SetFavorite. destruct (owned _ _ s) eqn:E; [|done]. by eapply keyed_owned.
  - unfold SoftDeleteBlock. destruct (owned _ _ s) eqn:E; [|done]. by eapply keyed_owned.
  - apply RecordHits_inv; [|done]. intros hit t Ht. unfold record_hit. case_match; [done|].
    destruct (owned _ _ _) eqn:E; [|done]. by eapply keyed_credit.
  - unfold UpdateSchedule. destruct (owned _ _ s) eqn:E; [|done]. by eapply keyed_owned.
  - unfold SaveBlockEdit. destruct (owned _ _ s) eqn:E; [|done]. by eapply (keyed_owned _ _ _ _ (set_edits _ s)).
  - unfold ResetSchedule. destruct (owned _ _ s) eqn:E; [|done]. by eapply keyed_owned.
  - apply RecordRealUses_inv; [|done]. intros id t Ht. unfold record_real_use.
    destruct (owned _ _ t) eqn:E; [|done]. case_match; [done|]. by eapply keyed_credit.
  - unfold SaveFeedback. by case_match.
Qed.

Lemma blocks_keyed_run {mr : MapRange} tr s : blocks_keyed s -> blocks_keyed (run tr s).
Proof. apply foldl_keeps. intros t [R c] _. apply blocks_keyed_step. Qed.

(** ** Incremental synchronisation through the API *)

Definition sync_request (u updated token : string) (limit : Z) : ListBlocksRequest :=
  mkListBlocksRequest u "" "" "" token updated limit false false.

(** The query string stands for no cursor, or for one of the listing of changes. *)
Definition reads (token : string) (c : option ListCursor) : Prop :=
  match c with
  | None => TrimSpace token = ""%string
  | Some c => TrimSpace token <> ""%string /\ decodeCursor token = Ok c /\ c_Mode c = CursorModeDelta
  end.

(** The changes a page starts from. *)
Definition changes (u : string) (since : time) (c : option ListCursor) (s : MemoryStore) : list PhraseBlock :=
  listing (delta_filter u (Some since) 0 c) s.

Definition page_limit (limit : Z) : nat := Z.to_nat (normalizeLimit limit).

(** A full page has a next one. *)
Definition full (k : nat) (R : list PhraseBlock) : bool := (k <=? length R)%nat.

Definition cursors_ok (s : MemoryStore) : Prop := map_Forall (fun _ => block_cursor_ok) (blocks s).

Section syncing.
Context {mr : MapRange} (u updated : string) (since : time) (limit : Z).
Context (Hu : TrimSpace u <> ""%string) (Hsince : parse_rfc3339 (TrimSpace updated) = Some since).

Lemma limit_bounds : 1 <= normalizeLimit limit <= 100.
Proof.
  unfold normalizeLimit, defaultListLimit, maxListLimit.
  destruct (Z.leb_spec limit 0), (Z.ltb_spec 100 limit); lia.
Qed.

Lemma limit_pos : (0 < page_limit limit)%nat.
Proof. unfold page_limit. pose proof limit_bounds. lia. Qed.

Lemma request_filter token c : reads token c ->
  list_filter (TrimSpace u) (sync_request u updated token limit) =
  Ok (delta_filter (TrimSpace u) (Some since) (normalizeLimit limit) c).
Proof.
  intros Hc. unfold list_filter. cbn [lb_Cursor sync_request lb_UpdatedAfter lb_SceneTag lb_FunctionTag lb_Keyword
    lb_FavoriteOnly lb_PinnedOnly lb_Limit].
  assert (TrimSpace updated <> ""%string) as Hup by (intros E; by rewrite E in Hsince).
  apply String.eqb_neq in Hup. rewrite Hup, Hsince. change (TrimSpace "") with ""%string.
  change (normalizeOptionalEnum "") with ""%string. destruct c as [c|]; cbn [reads] in Hc.
  - destruct Hc as (Hne & -> & Hm). apply String.eqb_neq in Hne as ->. rewrite Hm. cbn. done.
  - rewrite Hc. done.
Qed.

(** What the page that starts with [R] holds. *)
Definition page_shows (R : list PhraseBlock) (page : ListBlocksResponse) : Prop :=
  let k := page_limit limit in
  br_Items page = map toView (take k R) /\
  match next_of (next_cursor true) k (full k) R with
  | None => br_NextCursor page = ""%string
  | Some c => br_NextCursor page <> ""%string /\ reads (br_NextCursor page) (Some c)
  end.

Lemma blocks_page_run o token c n s : reads token c -> cursors_ok (run (co_env o n) s) -> blocks_keyed (run (co_env o n) s) ->
  exists page, run_prog o (Svc_ListBlocks (sync_request u updated token limit)) n s =
      (Ok page, S n, run (co_env o n) s) /\
    page_shows (changes (TrimSpace u) since c (run (co_env o n) s)) page.
Proof.
  intros Hc Hw Hk. set (s' := run (co_env o n) s) in *.
  set (f := delta_filter (TrimSpace u) (Some since) (normalizeLimit limit) c).
  exists (blocks_page f (ListBlocks f s')). split.
  - unfold Svc_ListBlocks. cbn [lb_UserID sync_request]. apply String.eqb_neq in Hu as ->.
    rewrite (request_filter token c Hc). done.
  - assert (ListBlocks f s' = take (page_limit limit) (changes (TrimSpace u) since c s')) as ->.
    { rewrite ListBlocks_take; [done|]. cbn. pose proof limit_bounds. lia. }
    set (R := changes (TrimSpace u) since c s'). unfold page_shows, blocks_page, next_of, full.
    cbn [br_Items br_NextCursor lf_Limit f delta_filter lf_Incremental]. split; [done|].
    assert ((Z.of_nat (length (take (page_limit limit) R)) =? normalizeLimit limit) = (page_limit limit <=? length R)%nat) as ->.
    { rewrite length_take. unfold page_limit. pose proof limit_bounds.
      destruct (Nat.leb_spec (Z.to_nat (normalizeLimit limit)) (length R)); [apply Z.eqb_eq|apply Z.eqb_neq]; lia. }
    destruct (_ <=? _)%nat; [|done]. destruct (last _) as [x|] eqn:Hx; [|done].
    assert (block_cursor_ok x) as Hok.
    { apply last_Some in Hx as [l Hl]. assert (x ∈ R) as Hin.
      { rewrite <- (take_drop (page_limit limit) R), Hl, !elem_of_app, list_elem_of_singleton. auto. }
      apply listing_elem in Hin as [Hin _]; [|done]. apply (Hw _ _ Hin). }
    assert (encodeCursor (next_cursor true x) <> ""%string) as Hne by (by apply RawURLEncode_nonempty).
    split; [done|]. cbn [reads]. split; [|split; [by apply token_roundtrip|done]].
    unfold encodeCursor. by rewrite RawURLEncode_trim by apply byte_values_ok.
Qed.

(** The blocks a client is sent that starts from [token] and follows the cursors
    until there is none; [n] numbers the calls. *)
Fixpoint follow (o : COracle) (fuel n : nat) (token : string) (s : MemoryStore) : option (list PhraseBlockView) :=
  match fuel with
  | O => None
  | S fuel =>
      let '(r, n, s) := run_prog o (Svc_ListBlocks (sync_request u updated token limit)) n s in
      match r with
      | Err _ => None
      | Ok page =>
          if String.eqb (br_NextCursor page) "" then Some (br_Items page)
          else app (br_Items page) <$> follow o fuel n (br_NextCursor page) s
      end
  end.

(** What other requests do to the store before call [n]. *)
Definition others (o : COracle) (n : nat) (s : MemoryStore) : MemoryStore := run (co_env o n) s.

Lemma blocks_walk o st : (forall m, blocks_keyed (st m)) -> (forall m, cursors_ok (st m)) ->
  forall fuel m n token c s, (forall i, read_state (others o) n s i = st (m + i)%nat) -> reads token c ->
  follow o fuel n token s =
  map toView <$> walk (changes (TrimSpace u) since) (next_cursor true) (page_limit limit) (full (page_limit limit))
                   st fuel m c.
Proof.
  intros Hk Hw. induction fuel as [|fuel IH]; intros m n token c s Hst Hc; [done|].
  pose proof (Hst 0%nat) as H0. cbn [read_state] in H0. unfold others in H0. rewrite Nat.add_0_r in H0.
  pose proof (blocks_page_run o token c n s Hc) as Hp. rewrite H0 in Hp.
  destruct (Hp (Hw m) (Hk m)) as (page & E & Hi & Hn). cbn [follow walk]. rewrite E. cbn [fst snd].
  destruct (next_of _ _ _ (changes (TrimSpace u) since c (st m))) as [c'|].
  - destruct Hn as [Hne Hr]. apply String.eqb_neq in Hne as ->.
    rewrite (IH (S m) (S n) _ (Some c') (st m)), Hi; [|intros i|done].
    + destruct (walk _ _ _ _ _ _ _ _); cbn; by rewrite ?map_app.
    + rewrite <- H0. replace (S m + i)%nat with (m + S i)%nat by lia. apply (Hst (S i)).
  - by rewrite Hn, Hi.
Qed.

End syncing.

Lemma changes_next u since c s pre x post : blocks_keyed s ->
  changes u since c s = pre ++ x :: post -> changes u since (Some (next_cursor true x)) s = post.
Proof.
  intros Hk HL.
  assert (x ∈ changes u since c s) as Hx by (rewrite HL, elem_of_app; right; left).  apply listing_elem in Hx as [_ Hx]; [|done].
  eapply (sorted_after _); [by apply all_blocks_separated|by apply all_blocks_NoDup| |exact HL].
  intros y. unfold list_match in Hx |- *. cbn [lf_Incremental delta_filter lf_UserID] in Hx |- *.
  rewrite list_less_eq. cbn [lf_Incremental delta_filter]. unfold delta_match in Hx |- *.
  cbn [lf_UpdatedAfter lf_After delta_filter] in Hx |- *. rewrite delta_cursor_less, <- !andb_assoc. do 2 f_equal.
  destruct (delta_less x y) eqn:E; [|by rewrite andb_false_r]. destruct c as [c|]; [|done].
  apply andb_prop in Hx as [_ [_ Hx]%andb_prop]. rewrite andb_true_r. symmetry.
  revert Hx E. unfold isAfterDeltaCursor, delta_less, lex, less_by, str_by, After, Before.
  destruct (Z.ltb_spec (c_UpdatedAt c) (b_UpdatedAt x)), (Z.ltb_spec (b_UpdatedAt x) (c_UpdatedAt c)),
    (Z.ltb_spec (b_UpdatedAt x) (b_UpdatedAt y)), (Z.ltb_spec (b_UpdatedAt y) (b_UpdatedAt x)),
    (Z.ltb_spec (c_UpdatedAt c) (b_UpdatedAt y)), (Z.ltb_spec (b_UpdatedAt y) (c_UpdatedAt c)); try done; try lia.
  intros H6 H7. by eapply str_lt_trans.
Qed.

(** ** While the store changes *)

(** How often a block is among what the client was sent. *)
Definition sent_times (id : string) (items : list PhraseBlockView) : nat :=
  occ (fun v => String.eqb (v_ID v) id) items.

(** [b0] is the user's, changed after [since], and does not change any more. *)
Definition stays (u : string) (since : time) (b0 : PhraseBlock) (s : MemoryStore) : Prop :=
  exists b, blocks s !! b_ID b0 = Some b /\ b_UserID b = u /\ b_UpdatedAt b = b_UpdatedAt b0 /\ since < b_UpdatedAt b.

Lemma sent_occ id l : sent_times id (map toView l) = occ (fun b => String.eqb (b_ID b) id) l.
Proof.
  unfold sent_times, occ. induction l as [|x l IH]; [done|]. cbn. case_match; cbn; by rewrite IH.
Qed.

Definition after_cursor (c : option ListCursor) (b : PhraseBlock) : bool :=
  match c with None => true | Some c => isAfterDeltaCursor b c end.

Lemma changes_elem u since c s b : blocks_keyed s ->
  b ∈ changes u since c s <->
  blocks s !! b_ID b = Some b /\ b_UserID b = u /\ since < b_UpdatedAt b /\ after_cursor c b = true.
Proof.
  intros Hk. unfold changes. rewrite listing_elem by done. unfold list_match, delta_match, After. cbn.
  rewrite !andb_true_iff, String.eqb_eq, Z.ltb_lt. fold (after_cursor c b). naive_solver.
Qed.

Lemma sent_rows u since c s b0 : blocks_keyed s -> stays u since b0 s ->
  occ (fun b => String.eqb (b_ID b) (b_ID b0)) (changes u since c s) = if after_cursor c b0 then 1%nat else 0%nat.
Proof.
  intros Hk (b & Hb & Hu & Ht & Hs). pose proof (Hk _ _ Hb) as Hid. cbn in Hid.
  assert (after_cursor c b0 = after_cursor c b) as ->
    by (unfold after_cursor, isAfterDeltaCursor; by rewrite Hid, Ht).
  rewrite <- Hid. destruct (occ_key b_ID (changes u since c s) b (listing_NoDup _ s Hk)) as [H1 H0].
  { intros y Hy%changes_elem E; [|done]. rewrite E, Hid in Hy. naive_solver. }
  destruct (after_cursor c b) eqn:Hc; [apply H1|apply H0]; rewrite changes_elem, Hid, Hc by done; naive_solver.
Qed.

(** C29: A client that synchronises its phrase blocks through the API, following
    the cursors it is given, reaches the last page once the other requests come
    to rest, whatever page size it asks for.  A change is what stamps the block's
    update time; a restore after a deletion and a merge of accounts do not, and
    are not sent ([restore_and_merge_bypass_sync]).  The client has then been sent
    every block stamped after its last synchronisation and not touched again
    between the pages exactly once, whatever else was; with nobody else at work
    it has been sent, oldest stamp first, exactly the user's blocks — deleted
    ones included — stamped since. *)
Theorem api_sync_delivers_every_change {mr : MapRange} o u updated since limit rest s :
  TrimSpace u <> ""%string -> parse_rfc3339 (TrimSpace updated) = Some since -> blocks_keyed s ->
  (forall m, cursors_ok (read_state (others o) 0 s m)) ->
  (forall m, (rest <= m)%nat -> co_env o m = []) ->
  (exists fuel items, follow u updated limit o fuel 0 "" s = Some items /\
     forall b0, (forall m, stays (TrimSpace u) since b0 (read_state (others o) 0 s m)) ->
       sent_times (b_ID b0) items = 1%nat) /\
  ((forall m, co_env o m = []) ->
     exists bs, follow u updated limit o (S (size (blocks s))) 0 "" s = Some (map toView bs) /\
       NoDup bs /\ StronglySorted (not_after delta_less) bs /\
       forall b, b ∈ bs <-> blocks s !! b_ID b = Some b /\ b_UserID b = TrimSpace u /\ since < b_UpdatedAt b).
Proof.
  intros Hu Hsince Hk Hw Hq. set (st := read_state (others o) 0 s).
  assert (forall m, blocks_keyed (st m)) as Hkeyed
    by (intros m; apply read_state_keeps; [|done]; intros n t; apply blocks_keyed_run).
  pose proof (limit_pos limit) as Hpos. set (k := page_limit limit) in *.
  assert (forall fuel, follow u updated limit o fuel 0 "" s =
            map toView <$> walk (changes (TrimSpace u) since) (next_cursor true) k (full k) st fuel 0 None) as Hfollow
    by (intros fuel; by apply blocks_walk).
  assert (forall R, full k R = false -> drop k R = []) as Hno
    by (unfold full; intros R HR%Nat.leb_gt; apply drop_ge; lia).
  assert (forall R, full k R = true -> take k R <> []) as Hyes
    by (unfold full; intros R HR%Nat.leb_le; destruct k, R; cbn in *; done || lia).
  assert (forall m c pre x post, changes (TrimSpace u) since c (st m) = pre ++ x :: post ->
            changes (TrimSpace u) since (Some (next_cursor true x)) (st m) = post) as Hnext
    by (intros m c pre x post; by apply changes_next).
  split.
  - destruct (walk_ends _ (next_cursor true) k _ st Hno Hyes Hnext rest 0 None) as (fuel & items & Hf).
    { intros i Hi. apply read_state_quiet; [|lia]. intros j t Hj. unfold others. by rewrite Hq. }
    exists fuel, (map toView items). rewrite Hfollow, Hf. split; [done|]. intros b0 Hb. rewrite sent_occ.
    eapply (walk_once _ _ _ _ st Hno Hyes Hnext _ (fun c => if after_cursor c b0 then 1%nat else 0%nat)) in Hf; [done|].
    intros m c. apply sent_rows; [done|apply Hb].
  - intros Halone. assert (st 0%nat = s) as H0 by (unfold st; cbn; unfold others; by rewrite Halone).
    exists (changes (TrimSpace u) since None s). split; [|split; [by apply listing_NoDup|split]].
    + rewrite Hfollow, (walk_quiet _ (next_cursor true) k _ st Hno Hyes Hnext), H0; [done| |].
      * intros i _. apply read_state_quiet; [|lia]. intros j t Hj. unfold others. by rewrite Halone.
      * rewrite H0. unfold changes, listing. rewrite (sort_Slice_Permutation _).
        apply Nat.lt_succ_r. etransitivity; [apply List.filter_length_le|].
        unfold all_blocks. by rewrite length_fmap, length_map_to_list.
    + unfold changes, listing. eapply StronglySorted_mono; [|apply (sort_Slice_sorted _)].
      intros a b. unfold not_after. by rewrite list_less_eq.
    + intros b. rewrite changes_elem by done. cbn. naive_solver.
Qed.

(** Two blocks are fetched one to a page while the second is edited. *)
Definition edits_block : COracle :=
  mkCOracle (fun _ => 0) (fun _ => ""%string)
    (fun n => if (n =? 1)%nat
              then [ev (EUpdateBlock (mkBlock "b2" "user" "intent" "So, to wrap up." 1 "wrap up" "review" "summarize"
                                        StateNew 0 0 0 0 0 None false None None None 0 9))] else []).

Definition two_changed : MemoryStore :=
  set_blocks (<["b1" := demo_block "b1" "user"]> {[ "b2" := demo_block "b2" "user" ]})%string NewMemoryStore.

Definition one_edited {mr : MapRange} : MemoryStore := others edits_block 1 two_changed.

Lemma edits_block_states {mr : MapRange} m :
  read_state (others edits_block) 0 two_changed m = match m with O => two_changed | S _ => one_edited end.
Proof.
  assert (forall n s, (2 <= n)%nat -> others edits_block n s = s) as Hid.
  { intros n s Hn. unfold others. cbn [co_env edits_block].
    replace (n =? 1)%nat with false by (symmetry; by apply Nat.eqb_neq; lia). done. }
  assert (forall m n s, (2 <= n)%nat -> read_state (others edits_block) n s m = s) as Hrest.
  { induction m0 as [|m0 IH]; intros n s Hn; cbn [read_state]; rewrite Hid by done; [done|]. apply IH. lia. }
  destruct m as [|[|m]]; [done..|]. change (read_state (others edits_block) 2 one_edited m = one_edited). by apply Hrest.
Qed.

(** A concrete block can be a cursor. *)
Ltac block_ok :=
  split; [done|split; [vm_compute; reflexivity|split; [vm_compute; reflexivity|
    split; [vm_compute; split; discriminate|split; [vm_compute; split; discriminate|
    split; [vm_compute; discriminate|exact I]]]]]].

Lemma api_sync_delivers_every_change_witness :
  exists fuel items, follow (mr := key_order) "user" "1969-12-31T00:00:00Z" 1 edits_block fuel 0 "" two_changed = Some items /\
    sent_times "b1" items = 1%nat.
Proof.
  destruct (api_sync_delivers_every_change (mr := key_order) edits_block "user" "1969-12-31T00:00:00Z" (- Day) 1 2 two_changed)
    as [(fuel & items & Hf & Hx) _].
  - done.
  - vm_compute. reflexivity.
  - apply map_Forall_insert_2; [done|]. by apply map_Forall_singleton.
  - intros m. rewrite edits_block_states.
    destruct m; (apply map_Forall_insert_2; [block_ok|]; repeat (apply map_Forall_insert_2; [block_ok|]);
      by apply map_Forall_empty).
  - intros m Hm. cbn. replace (m =? 1)%nat with false; [done|]. symmetry. apply Nat.eqb_neq. lia.
  - exists fuel, items. split; [done|]. apply (Hx (demo_block "b1" "user")).
    intros m. rewrite edits_block_states. exists (demo_block "b1" "user"). by destruct m.
Defined.
