(* ===== verification/CorpusServiceLaws.v ===== *)
(** * What the corpus service guarantees

    Accepting phrases and editing them: the corpus holds each phrase once, an
    accept can be repeated, and an edited sentence starts its ladder again. *)
From S2P Require Import Prelude Prog GoString GoUnicode GoTime GoSort ApiErr Corpus CorpusStore CorpusLaws CorpusListing CorpusService.

Open Scope Z_scope.
Open Scope prog_scope.

Section phrases.
Context {mr : MapRange}.

(** ** Accepting phrases *)

Definition live (u : string) (b : PhraseBlock) : bool :=
  String.eqb (b_UserID b) u && negb (bool_decide (is_Some (b_DeletedAt b))).

Definition phrase (b : PhraseBlock) : string := NormalizeExpression (b_ExpressionEN b).

Definition has_phrase (u : string) (s : MemoryStore) (k : string) : Prop :=
  exists id b, blocks s !! id = Some b /\ live u b = true /\ phrase b = k.

(** No phrase is in the user's corpus twice. *)
Definition phrases_distinct (u : string) (s : MemoryStore) : Prop :=
  forall i j a b, blocks s !! i = Some a -> blocks s !! j = Some b ->
    live u a = true -> live u b = true -> phrase a = phrase b -> i = j.

(** A block that makes a phrase live where none was. *)
Lemma put_phrase u id b s :
  live u b = true -> ~ has_phrase u s (phrase b) ->
  (forall x, blocks s !! id = Some x -> live u x = false) ->
  (phrases_distinct u s -> phrases_distinct u (put id b s)) /\
  forall k, has_phrase u (put id b s) k <-> has_phrase u s k \/ k = phrase b.
Proof.
  intros Hl Hno Hid. split.
  - intros Hd i j x y. cbn. intros Hx Hy Hlx Hly E.
    destruct (decide (id = i)) as [<-|Hi], (decide (id = j)) as [<-|Hj]; try done;
      rewrite ?lookup_insert_eq in Hx; rewrite ?lookup_insert_eq in Hy;
      rewrite ?lookup_insert_ne in Hx by done; rewrite ?lookup_insert_ne in Hy by done.
    + injection Hx as <-. destruct Hno. exists j, y. by rewrite E.
    + injection Hy as <-. destruct Hno. exists i, x. done.
    + by eapply Hd.
  - intros k. split.
    + intros (i & x & Hx & Hlx & <-). cbn in Hx. destruct (decide (id = i)) as [<-|Hi].
      * rewrite lookup_insert_eq in Hx. injection Hx as <-. by right.
      * rewrite lookup_insert_ne in Hx by done. left. by exists i, x.
    + intros [(i & x & Hx & Hlx & <-)| ->].
      * exists i, x. split; [|done]. cbn. rewrite lookup_insert_ne; [done|].
        intros ->. rewrite (Hid _ Hx) in Hlx. done.
      * exists id, b. split; [apply lookup_insert_eq|done].
Qed.

Lemma sameNaturalKey_spec x b :
  sameNaturalKey x b = true -> b_UserID x = b_UserID b /\ b_ExpressionEN x = b_ExpressionEN b.
Proof. unfold sameNaturalKey. rewrite !andb_true_iff, !String.eqb_eq. tauto. Qed.

Lemma live_true u b : live u b = true <-> b_UserID b = u /\ b_DeletedAt b = None.
Proof.
  unfold live. rewrite andb_true_iff, String.eqb_eq, negb_true_iff, bool_decide_eq_false.
  by rewrite <- eq_None_not_Some.
Qed.

Lemma save_one_phrase u b s :
  blocks_keyed s -> live u b = true -> ~ has_phrase u s (phrase b) -> blocks s !! b_ID b = None ->
  let s' := (save_one b s).2 in
  blocks_keyed s' /\ (phrases_distinct u s -> phrases_distinct u s') /\
  (forall k, has_phrase u s' k <-> has_phrase u s k \/ k = phrase b) /\
  (forall id, id <> b_ID b -> blocks s !! id = None -> blocks s' !! id = None).
Proof.
  intros Hk Hl Hno Hid. unfold save_one. set (b0 := if b_ExpressionVersion b <? 1 then _ else b).
  assert (b_ID b0 = b_ID b /\ live u b0 = live u b /\ phrase b0 = phrase b /\
    b_UserID b0 = b_UserID b /\ b_ExpressionEN b0 = b_ExpressionEN b) as (E1 & E2 & E3 & E4 & E5)
    by (subst b0; by case_match).
  apply live_true in Hl as [Hlu Hld]. destruct (find _ _) as [[id x]|] eqn:E.
  - apply find_some in E as [Hin Hnk]. apply sameNaturalKey_spec in Hnk as [Hu He]. cbn in Hu, He.
    apply list_elem_of_In in Hin. rewrite map_range_perm in Hin. apply elem_of_map_to_list in Hin.
    destruct (b_DeletedAt x) eqn:Ed.
    + cbn. destruct (put_phrase u id (revived x b0) s) as [H1 H2].
      * apply live_true. cbn. split; [congruence|done].
      * change (phrase (revived x b0)) with (phrase b0). by rewrite E3.
      * intros y Hy. assert (y = x) as -> by congruence.
        apply not_true_is_false. intros [_ ?]%live_true. congruence.
      * change (phrase (revived x b0)) with (phrase b0) in H2. rewrite E3 in H2.
        split; [|split; [done|split; [done|]]].
        -- apply map_Forall_insert_2; [|done]. cbn. by apply Hk.
        -- intros id' _ Hn. cbn. rewrite lookup_insert_ne; [done|]. intros ->. congruence.
    + exfalso. apply Hno. exists id, x. split; [done|]. unfold phrase. rewrite He, E5.
      split; [|done]. apply live_true. split; [congruence|done].
  - cbn. rewrite E1. destruct (put_phrase u (b_ID b) b0 s) as [H1 H2].
    + rewrite E2. by apply live_true.
    + by rewrite E3.
    + intros x Hx. congruence.
    + rewrite E3 in H2. split; [|split; [done|split; [done|]]].
      * by apply map_Forall_insert_2.
      * intros id' Hne Hn. by rewrite lookup_insert_ne.
Qed.

(** New phrases of one user, with fresh identifiers of their own. *)
Definition fresh_phrases (u : string) (bs : list PhraseBlock) (s : MemoryStore) : Prop :=
  NoDup (map phrase bs) /\ NoDup (map b_ID bs) /\
  Forall (fun b => live u b = true /\ ~ has_phrase u s (phrase b) /\ blocks s !! b_ID b = None) bs.

Lemma save_blocks_phrases u bs s :
  blocks_keyed s -> fresh_phrases u bs s ->
  let r := save_blocks bs s in
  length r.1 = length bs /\ blocks_keyed r.2 /\
  (phrases_distinct u s -> phrases_distinct u r.2) /\
  forall k, has_phrase u r.2 k <-> has_phrase u s k \/ k ∈ map phrase bs.
Proof.
  revert s. induction bs as [|b bs IH]; intros s Hk (Hnp & Hni & Hall); cbn.
  { split; [done|]. split; [done|]. split; [done|]. set_solver. }
  cbn [map] in Hnp, Hni. apply NoDup_cons in Hnp as [Hp Hnp], Hni as [Hi Hni].
  apply Forall_cons in Hall as [(Hl & Hno & Hid) Hall].
  destruct (save_one_phrase u b s Hk Hl Hno Hid) as (Hk1 & Hd1 & Hh1 & Hf1).
  destruct (save_one b s) as [x s1]. cbn [snd] in *.
  destruct (IH s1 Hk1) as (Hlen & Hk2 & Hd2 & Hh2).
  { split; [done|]. split; [done|]. rewrite Forall_forall in *. intros c Hc.
    destruct (Hall c Hc) as (Hlc & Hnc & Hic). split; [done|]. split.
    - rewrite Hh1. intros [?|E]; [done|]. apply Hp. rewrite <- E. apply list_elem_of_fmap. eauto.
    - apply Hf1; [|done]. intros E. apply Hi. rewrite <- E. apply list_elem_of_fmap. eauto. }
  destruct (save_blocks bs s1) as [xs s2]. cbn in *.
  split; [by rewrite Hlen|]. split; [done|]. split; [auto|].
  intros k. rewrite Hh2, Hh1, elem_of_cons. tauto.
Qed.

Lemma by_expression_spec (bs : list PhraseBlock) (m : gmap string PhraseBlock) k :
  is_Some (foldl (fun m b => if bool_decide (is_Some (b_DeletedAt b)) then m
                    else <[NormalizeExpression (b_ExpressionEN b) := b]> m) m bs !! k) <->
  is_Some (m !! k) \/ exists b, b ∈ bs /\ b_DeletedAt b = None /\ phrase b = k.
Proof.
  revert m. induction bs as [|b bs IH]; intros m; cbn; [set_solver|]. rewrite IH.
  destruct (b_DeletedAt b) eqn:Ed; cbn.
  - split; intros [H|(c & Hc & ?)]; [by left|right; exists c; set_solver|by left|].
    apply elem_of_cons in Hc as [->|Hc]; [naive_solver|]. right. by exists c.
  - fold (phrase b). split.
    + intros [H|(c & Hc & ?)]; [|right; exists c; set_solver].
      destruct (decide (phrase b = k)) as [<-|Hne].
      * right. exists b. set_solver.
      * rewrite lookup_insert_ne in H by done. by left.
    + intros [H|(c & Hc & Hdc & <-)].
      * left. destruct (decide (phrase b = k)) as [<-|Hne]; [rewrite lookup_insert_eq; eauto|].
        by rewrite lookup_insert_ne.
      * apply elem_of_cons in Hc as [->|Hc]; [left; rewrite lookup_insert_eq; eauto|].
        right. by exists c.
Qed.

Lemma newAcceptedBlock_ok u src now id item b :
  newAcceptedBlock u src now id item = Ok b ->
  b_ID b = id /\ live u b = true /\ phrase b = NormalizeExpression (TrimSpace (bf_ExpressionEN item)).
Proof.
  unfold newAcceptedBlock. case_match; [done|]. intros [= <-]. split; [done|].
  split; [|done]. by apply live_true.
Qed.

Definition requested (items : list BlockFields) (k : string) : Prop :=
  exists item, item ∈ items /\ k = NormalizeExpression (TrimSpace (bf_ExpressionEN item)).

Lemma requested_cons item items k : requested items k -> requested (item :: items) k.
Proof. intros (i & Hi & ->). exists i. split; [by right|done]. Qed.

(** The user's live blocks fit in the scan an accept makes. *)
Definition scannable (u : string) (s : MemoryStore) : Prop :=
  (length (List.filter (live u) (all_blocks s)) <= 500)%nat.

Lemma plain_match u limit b : list_match (plain_filter u limit) b = live u b.
Proof.
  unfold list_match, browse_match, live. cbn.
  change (ToLower (TrimSpace "")) with ""%string. cbn. by rewrite !andb_true_r.
Qed.

Lemma scan_elem u s b :
  blocks_keyed s -> scannable u s ->
  b ∈ ListBlocks (plain_filter u dedupeScanLimit) s <-> blocks s !! b_ID b = Some b /\ live u b = true.
Proof.
  intros Hk Hs. rewrite ListBlocks_take by (vm_compute; discriminate).
  rewrite take_ge; [by rewrite listing_elem, plain_match|].
  unfold listing. rewrite (sort_Slice_Permutation _).
  rewrite (filter_ext _ _ (plain_match u dedupeScanLimit)). exact Hs.
Qed.

Lemma scan_phrases u s k :
  blocks_keyed s -> scannable u s ->
  is_Some (by_expression (ListBlocks (plain_filter u dedupeScanLimit) s) !! k) <-> has_phrase u s k.
Proof.
  intros Hk Hs. unfold by_expression. rewrite by_expression_spec, lookup_empty. split.
  - intros [[? ?]|(b & Hb & _ & <-)]; [done|]. apply scan_elem in Hb as [Hb Hl]; [|done..].
    by exists (b_ID b), b.
  - intros (id & b & Hb & Hl & <-). right. exists b. apply live_true in Hl as Hd.
    rewrite scan_elem by done. rewrite (Hk _ _ Hb). naive_solver.
Qed.

Lemma SaveAccepted_length bs s :
  length (SaveAcceptedBlocks bs s).1 = length (save_blocks bs s).1 /\
  (SaveAcceptedBlocks bs s).2 = (save_blocks bs s).2.
Proof.
  unfold SaveAcceptedBlocks. destruct (save_blocks bs s) as [xs s1]. cbn. split; [|done].
  unfold sort_Slice. by rewrite merge_sort_Permutation.
Qed.

End phrases.

Section service.
Context {mr : MapRange} (o : COracle).

Section quiet.
Hypothesis Halone : calone o.

Lemma run_cdb {R A} (c : corpusE R) (k : R -> cprog A) n s :
  run_prog o (bind (cdb c) k) n s = run_prog o (k (handle c s).1) (S n) (handle c s).2.
Proof. cbn. rewrite Halone. cbn. by destruct (handle c s). Qed.

Lemma run_block_call {R A} (c : corpusE (result error R)) (k : result error R -> cprog A) n s :
  run_prog o (bind (block_call c) k) n s =
  run_prog o (k (or_block_error (handle c s).1)) (S n) (handle c s).2.
Proof. cbn. rewrite Halone. cbn. by destruct (handle c s). Qed.

Lemma run_cnow {A} (k : time -> cprog A) n s :
  run_prog o (bind (call CNow) k) n s = run_prog o (k (co_now o n)) (S n) s.
Proof. done. Qed.

Lemma run_cid {A} (k : string -> cprog A) n s :
  run_prog o (bind (call CNewID) k) n s = run_prog o (k (co_id o n)) (S n) s.
Proof. done. Qed.

(** ** Editing a phrase *)

Lemma applyEditableFields_ok b req b' :
  applyEditableFields b req = Ok b' ->
  b_ID b' = b_ID b /\ b_UserID b' = b_UserID b /\ b_ExpressionVersion b' = b_ExpressionVersion b /\
  b_ExpressionEN b' = TrimSpace (bf_ExpressionEN req) /\ b_IntentZH b' = TrimSpace (bf_IntentZH req).
Proof. unfold applyEditableFields. case_match; [done|]. by intros [= <-]. Qed.

Lemma owned_put u id b s :
  b_UserID b = u -> b_DeletedAt b = None -> owned u id (put id b s) = Some b.
Proof.
  intros Hu Hd. unfold owned, put. cbn. by rewrite lookup_insert_eq, Hu, String.eqb_refl, Hd.
Qed.

(** What an accepted edit leaves: the schedule starts again exactly when the
    sentence changed. *)
Definition edited (now : time) (req : BlockFields) (b b' : PhraseBlock) (s s' : MemoryStore) : Prop :=
  b_IntentZH b' = TrimSpace (bf_IntentZH req) /\
  b_ExpressionEN b' = TrimSpace (bf_ExpressionEN req) /\
  b_RealUseCount b' = b_RealUseCount b /\ b_TotalUses b' = b_TotalUses b /\
  b_UpdatedAt b' = now /\
  if String.eqb (TrimSpace (bf_ExpressionEN req)) (b_ExpressionEN b) then
    b_State b' = b_State b /\ b_SuccessStreak b' = b_SuccessStreak b /\
    b_NextDueAt b' = b_NextDueAt b /\ b_ExpressionVersion b' = b_ExpressionVersion b /\
    edits s' = edits s
  else
    b_State b' = StateNew /\ b_SuccessStreak b' = 0 /\
    b_NextDueAt b' = Add now (TrainingInterval (Normalize (schedule s))) /\
    b_ExpressionVersion b' = int64 (b_ExpressionVersion b + 1) /\
    exists id, edits s' = edits s ++ [mkBlockEdit id (b_UserID b) (b_ID b)
      (int64 (b_ExpressionVersion b + 1)) (b_ExpressionEN b) (b_ExpressionEN b') now].

(** An accepted edit that runs alone changes one block of its owner, keeps its use counters, and
    answers the block it left.  When the sentence changed, the old wording is in
    the edit ledger, the version is bumped and the block is new again; when only
    the description changed, the schedule is untouched. *)
Theorem edit_resets_schedule u id req n s v m s' :
  blocks_keyed s ->
  run_prog o (Svc_UpdateBlock u id req) n s = (Ok v, m, s') ->
  exists b b', owned (TrimSpace u) (TrimSpace id) s = Some b /\
    blocks s' !! TrimSpace id = Some b' /\ v = toView b' /\
    edited (co_now o (S n)) req b b' s s' /\
    (forall k, k <> TrimSpace id -> blocks s' !! k = blocks s !! k).
Proof.
  intros Hk. unfold Svc_UpdateBlock. case_match; [done|].
  rewrite run_block_call. cbn [handle fst snd]. unfold GetBlock.
  destruct (owned (TrimSpace u) (TrimSpace id) s) as [b|] eqn:Eo; [|done]. cbn [or_block_error].
  destruct (applyEditableFields b req) as [b1|] eqn:Ea; [|done].
  apply applyEditableFields_ok in Ea as (Eid & Eu & Ev & Ee & Ei).
  rewrite run_cnow, run_block_call. cbn [handle]. unfold UpdateBlock.
  cbn [b_UserID b_ID with_version].
  destruct (owned_lookup _ _ _ _ Eo) as (Hb & Hu & Hd).
  assert (b_ID b = TrimSpace id) as Hid by (by apply Hk).
  rewrite Eid, Eu, Hid, Hu, Eo. cbn [fst snd or_block_error with_version b_ExpressionEN b_IntentZH b_ExpressionVersion].
  rewrite Ee, Ei, Ev. destruct (String.eqb (TrimSpace (bf_ExpressionEN req)) (b_ExpressionEN b)) eqn:Eq.
  - intros [= <- _ <-]. eexists b, _. split; [done|]. cbn. rewrite lookup_insert_eq.
    split; [done|]. split; [done|]. unfold edited. rewrite Eq. cbn.
    split; [done|]. intros k Hne. by rewrite lookup_insert_ne.
  - rewrite run_cid, run_cdb. cbn [handle b_ID b_ExpressionVersion]. unfold SaveBlockEdit.
    cbn [e_UserID e_BlockID e_CreatedAt e_Version].
    rewrite owned_put by done. cbn [snd fst].
    rewrite run_cdb. cbn [handle]. unfold ResetSchedule. rewrite owned_put by done. cbn [fst snd].
    intros [= <- _ <-]. eexists b, _. split; [done|]. cbn. rewrite lookup_insert_eq.
    split; [done|]. split; [done|]. unfold edited. rewrite Eq. cbn.
    split.
    + split; [done|]. split; [done|]. split; [done|]. split; [done|]. split; [done|].
      split; [done|]. split; [done|]. split; [done|]. split; [done|].
      eexists. by rewrite Hu, Hid.
    + intros k Hne. by rewrite !lookup_insert_ne.
Qed.

(** ** The loop over the requested phrases *)

(** The identifiers the loop draws from step [n] on. *)
Definition drawn (n m : nat) (id : string) : Prop :=
  exists k, (n <= k < m)%nat /\ id = co_id o k.

Hypothesis Hids : forall i j, co_id o i = co_id o j -> i = j.

Lemma accept_items_run u src now items : forall by_expr bs merged n (s : MemoryStore) r m s',
  run_prog o (accept_items u src now items by_expr bs merged) n s = (Ok r, m, s') ->
  s' = s /\ exists new more,
    r = (bs ++ new, merged ++ more) /\ (length new + length more = length items)%nat /\
    (n <= m)%nat /\ Forall (fun b => live u b = true /\ by_expr !! phrase b = None /\
      drawn n m (b_ID b) /\ requested items (phrase b)) new /\
    NoDup (map phrase new) /\ NoDup (map b_ID new) /\
    Forall (fun item => let k := NormalizeExpression (TrimSpace (bf_ExpressionEN item)) in
      is_Some (by_expr !! k) \/ k ∈ map phrase new) items.
Proof.
  induction items as [|item items IH]; intros by_expr bs merged n s r m s'; cbn [accept_items].
  { intros [= <- <- <-]. split; [done|]. exists [], []. rewrite !app_nil_r.
    split; [done|]. split; [done|]. split; [lia|]. by repeat constructor. }
  rewrite run_cid. destruct (newAcceptedBlock _ _ _ _ item) as [b|] eqn:Eb; [|done].
  apply newAcceptedBlock_ok in Eb as (Eid & Hl & Hp). fold (phrase b).
  destruct (by_expr !! phrase b) as [prev|] eqn:Eprev; intros H; apply IH in H as
    (-> & new & more & -> & Hlen & Hm & Hnew & Hnp & Hni & Hitems); (split; [done|]).
  - exists new, (prev :: more). rewrite <- app_assoc. split; [done|]. split; [cbn; lia|].
    split; [lia|]. split; [|split; [done|split; [done|]]].
    + eapply Forall_impl; [exact Hnew|]. intros c (? & ? & (k & ? & ?) & ?).
      split; [done|]. split; [done|]. split; [exists k; split; [lia|done]|by apply requested_cons].
    + constructor; [|done]. left. rewrite <- Hp, Eprev. by eexists.
  - exists (b :: new), more. rewrite <- app_assoc. split; [done|]. split; [cbn; lia|].
    split; [lia|]. split; [|split; [|split]].
    + constructor.
      * split; [done|]. split; [done|]. split; [exists n; split; [lia|done]|].
        exists item. split; [left|done].
      * eapply Forall_impl; [exact Hnew|]. intros c (? & Hc & (k & ? & ?) & ?).
        split; [done|]. split; [|split; [exists k; split; [lia|done]|by apply requested_cons]].
        destruct (decide (phrase b = phrase c)) as [E|E];
          [rewrite E, lookup_insert_eq in Hc; done|by rewrite lookup_insert_ne in Hc].
    + cbn [map]. apply NoDup_cons. split; [|done]. intros (c & E & Hc)%list_elem_of_fmap.
      rewrite Forall_forall in Hnew. destruct (Hnew c Hc) as (_ & Hn & _).
      by rewrite E, lookup_insert_eq in Hn.
    + cbn [map]. apply NoDup_cons. split; [|done]. intros (c & E & Hc)%list_elem_of_fmap.
      rewrite Forall_forall in Hnew. destruct (Hnew c Hc) as (_ & _ & (k & Hk & E') & _).
      rewrite Eid, E' in E. apply Hids in E. lia.
    + constructor; [cbn; rewrite <- Hp; right; left|].
      eapply Forall_impl; [exact Hitems|]. intros it [H|H]; cbn.
      * destruct (decide (phrase b = NormalizeExpression (TrimSpace (bf_ExpressionEN it))))
          as [E|E]; [right; rewrite <- E; left|]. rewrite lookup_insert_ne in H by done. by left.
      * right. by right.
Qed.

(** What a successful accept does, in terms of phrases. *)
Lemma run_accept u src items n s resp m s' :
  blocks_keyed s -> scannable (TrimSpace u) s -> (forall k, blocks s !! co_id o k = None) ->
  run_prog o (BatchAccept u src items) n s = (Ok resp, m, s') ->
  let user := TrimSpace u in
  blocks_keyed s' /\
  ba_AcceptedCount resp + ba_MergedCount resp = Z.of_nat (length items) /\
  length (ba_Items resp) = length items /\
  (phrases_distinct user s -> phrases_distinct user s') /\
  forall k, has_phrase user s' k <-> has_phrase user s k \/ requested items k.
Proof.
  intros Hk Hs Hfresh. unfold BatchAccept. set (user := TrimSpace u) in *.
  case_match; [done|]. case_match; [done|].
  destruct items as [|item0 items0]; [done|]. set (items := item0 :: items0).
  rewrite run_cnow, run_cdb. cbn [handle fst snd].
  rewrite run_bind. destruct (run_prog o (accept_items _ _ _ items _ _ _) _ _) as [[r m1] s1] eqn:E.
  destruct r as [r|]; [|done]. apply accept_items_run in E as
    (-> & new & more & -> & Hlen & _ & Hnew & Hnp & Hni & Hitems).
  rewrite run_cdb. cbn [fst snd app handle]. intros [= <- _ <-]. cbn [ba_AcceptedCount ba_MergedCount ba_Items].
  destruct (SaveAccepted_length new s) as [Hl1 ->].
  assert (fresh_phrases user new s) as Hfp.
  { split; [done|]. split; [done|]. eapply Forall_impl; [exact Hnew|].
    intros b (Hl & Hn & (i & _ & Hi) & _). split; [done|]. split; [|by rewrite Hi].
    rewrite <- scan_phrases by done. rewrite Hn. by intros [? ?]. }
  destruct (save_blocks_phrases user new s Hk Hfp) as (Hl2 & Hk2 & Hd2 & Hh2).
  split; [done|]. rewrite Hl1, Hl2. split; [lia|].
  split; [rewrite length_app, !length_map; lia|]. split; [done|].
  intros k. rewrite Hh2. split; (intros [Hk'|Hk']; [by left|]).
  - right. apply list_elem_of_fmap in Hk' as (b & -> & Hb).
    rewrite Forall_forall in Hnew. by destruct (Hnew b Hb) as (_ & _ & _ & ?).
  - destruct Hk' as (item & Hin & ->). rewrite Forall_forall in Hitems.
    destruct (Hitems item Hin) as [Hin'|Hin']; [|by right]. left. by apply scan_phrases.
Qed.

(** C31: The corpus holds a phrase once.  An accept that runs alone — its
    identifiers fresh, the user's live blocks at most the 500 it scans — inserts or
    merges each requested phrase and answers one item for each; it makes live
    exactly the requested phrases; and when no phrase was there twice, none is
    afterwards.  (Two accepts at once can both insert one phrase:
    [racing_accepts_store_a_phrase_twice].) *)
Theorem accept_keeps_phrases_distinct u src items n s resp m s' :
  blocks_keyed s -> scannable (TrimSpace u) s -> (forall k, blocks s !! co_id o k = None) ->
  run_prog o (BatchAccept u src items) n s = (Ok resp, m, s') ->
  ba_AcceptedCount resp + ba_MergedCount resp = Z.of_nat (length items) /\
  length (ba_Items resp) = length items /\
  (phrases_distinct (TrimSpace u) s -> phrases_distinct (TrimSpace u) s') /\
  forall k, has_phrase (TrimSpace u) s' k <-> has_phrase (TrimSpace u) s k \/ requested items k.
Proof. intros Hk Hs Hf Hrun. by destruct (run_accept u src items n s resp m s' Hk Hs Hf Hrun). Qed.

(** ** Accepting again *)

Lemma newAcceptedBlock_valid u src now id item now' id' :
  is_ok (newAcceptedBlock u src now id item) = is_ok (newAcceptedBlock u src now' id' item).
Proof. unfold newAcceptedBlock, validateAcceptedBlock. cbn. by repeat case_match. Qed.

Lemma accept_items_valid u src now items : forall by_expr bs merged n (s : MemoryStore) r m s',
  run_prog o (accept_items u src now items by_expr bs merged) n s = (Ok r, m, s') ->
  Forall (fun item => forall now id, is_ok (newAcceptedBlock u src now id item) = true) items.
Proof.
  induction items as [|item items IH]; intros by_expr bs merged n s r m s'; cbn [accept_items]; [done|].
  rewrite run_cid. destruct (newAcceptedBlock _ _ _ _ item) as [b|] eqn:Eb; [|done]. intros Hrun.
  constructor.
  - intros now' id'. rewrite (newAcceptedBlock_valid _ _ _ _ _ now (co_id o n)). by rewrite Eb.
  - case_match; by eapply IH.
Qed.
End quiet.

Lemma accept_items_replay u src now items : forall (by_expr : gmap string PhraseBlock) merged n (s : MemoryStore),
  Forall (fun item => forall now id, is_ok (newAcceptedBlock u src now id item) = true) items ->
  (forall k, requested items k -> is_Some (by_expr !! k)) ->
  exists more m, run_prog o (accept_items u src now items by_expr [] merged) n s =
    (Ok ([], merged ++ more), m, s) /\ length more = length items.
Proof.
  induction items as [|item items IH]; intros by_expr merged n s Hv Hreq; cbn [accept_items].
  { exists [], n. by rewrite app_nil_r. }
  apply Forall_cons in Hv as [Hv Hvs]. rewrite run_cid.
  destruct (newAcceptedBlock u src now (co_id o n) item) as [b|] eqn:Eb;
    [|by specialize (Hv now (co_id o n)); rewrite Eb in Hv].
  apply newAcceptedBlock_ok in Eb as (_ & _ & Hp). fold (phrase b).
  destruct (Hreq (phrase b)) as [prev ->]; [exists item; split; [left|done]|].
  destruct (IH by_expr (merged ++ [prev]) (S n) s Hvs) as (more & m & -> & Hlen).
  { intros k Hk. by apply Hreq, requested_cons. }
  exists (prev :: more), m. rewrite <- app_assoc. cbn. by rewrite Hlen.
Qed.
End service.

(** An accept can be repeated: after a successful one, the same request — at any
    time, with any identifiers — succeeds, inserts nothing, merges every block
    and leaves the store as it was. *)
Theorem accept_is_idempotent {mr : MapRange} o o2 u src items n n2 s resp m s' :
  calone o -> calone o2 -> (forall i j, co_id o i = co_id o j -> i = j) ->
  (forall k, blocks s !! co_id o k = None) ->
  blocks_keyed s -> scannable (TrimSpace u) s -> scannable (TrimSpace u) s' ->
  run_prog o (BatchAccept u src items) n s = (Ok resp, m, s') ->
  exists resp2 m2, run_prog o2 (BatchAccept u src items) n2 s' = (Ok resp2, m2, s') /\
    ba_AcceptedCount resp2 = 0 /\ ba_MergedCount resp2 = Z.of_nat (length items).
Proof.
  intros Ha Ha2 Hids Hfresh Hk Hs Hs' Hrun.
  destruct (run_accept o Ha Hids u src items n s resp m s' Hk Hs Hfresh Hrun) as (Hk' & _ & _ & _ & Hh).
  revert Hrun. unfold BatchAccept. case_match; [done|]. case_match; [done|].
  destruct items as [|item0 items0]; [done|]. set (items := item0 :: items0) in *.
  rewrite run_cnow, (run_cdb o Ha), run_bind.
  destruct (run_prog o (accept_items _ _ _ items _ _ _) _ _) as [[r m1] s1] eqn:E.
  destruct r as [r|]; [|done]. apply accept_items_valid in E. intros _.
  rewrite run_cnow, (run_cdb o2 Ha2), run_bind. cbn [handle fst snd].
  destruct (accept_items_replay o2 (TrimSpace u) (TrimSpace src) (co_now o2 n2) items
    (by_expression (ListBlocks (plain_filter (TrimSpace u) dedupeScanLimit) s')) [] (S (S n2)) s' E)
    as (more & m2 & -> & Hlen).
  { intros k Hreq. apply scan_phrases; [done..|]. apply Hh. by right. }
  rewrite (run_cdb o2 Ha2). cbn [handle fst snd SaveAcceptedBlocks save_blocks].
  eexists _, _. split; [done|]. cbn. split; [done|]. by rewrite Hlen.
Qed.

(** ** Examples *)

#[local] Existing Instance key_order.

(** Identifiers [x], [xx], [xxx], … *)
Definition unary_id (k : nat) : string := of_bytes (repeat "x"%char (S k)).

Lemma unary_id_inj i j : unary_id i = unary_id j -> i = j.
Proof.
  intros E. apply (f_equal to_bytes) in E. unfold unary_id in E.
  rewrite !list_ascii_of_string_of_list_ascii in E. apply (f_equal length) in E.
  rewrite !repeat_length in E. lia.
Qed.

Definition quiet_corpus (now : time) : COracle := mkCOracle (fun _ => now) unary_id (fun _ => []).

Definition wrap_up : BlockFields :=
  mkFields "收尾" "Let's wrap up." "let us wrap up" "Review " "summarize".
Definition wrap_up_again : BlockFields :=
  mkFields "收尾" " let's WRAP up! " "wrap up" "review" "summarize".

Definition accepted : result error BatchAcceptResponse * nat * MemoryStore :=
  run_prog (quiet_corpus 5) (BatchAccept "u" "s1" [wrap_up; wrap_up_again]) 0 NewMemoryStore.

Lemma empty_keyed : blocks_keyed NewMemoryStore.
Proof. apply map_Forall_empty. Qed.

Lemma accept_keeps_phrases_distinct_witness :
  exists resp, accepted.1.1 = Ok resp /\ ba_AcceptedCount resp + ba_MergedCount resp = 2 /\
    phrases_distinct "u" accepted.2.
Proof.
  destruct accepted as [[[resp|e] m] s'] eqn:E; [|vm_compute in E; discriminate E].
  exists resp. split; [done|].
  destruct (accept_keeps_phrases_distinct (quiet_corpus 5) (fun _ => eq_refl) unary_id_inj
    "u" "s1" [wrap_up; wrap_up_again] 0 NewMemoryStore resp m s') as (H1 & _ & H2 & _).
  - exact empty_keyed.
  - vm_compute. lia.
  - reflexivity.
  - exact E.
  - split; [exact H1|]. apply H2. intros i j a b Hi. change (blocks NewMemoryStore) with (∅ : gmap string PhraseBlock) in Hi. by rewrite lookup_empty in Hi.
Defined.

(** An accept that another one overlaps, of a later session, between its scan and
    its save: both insert the phrase. *)
Definition overlapped_accept : COracle :=
  mkCOracle (fun _ => 5) unary_id
    (fun n => if (n =? 3)%nat
              then match newAcceptedBlock "u" "s2" 5 "other" wrap_up with
                   | Ok b => [ev (ESaveAcceptedBlocks [b])]
                   | Err _ => []
                   end
              else []).

Lemma racing_accepts_store_a_phrase_twice :
  let r := run_prog overlapped_accept (BatchAccept "u" "s1" [wrap_up]) 0 NewMemoryStore in
  is_ok r.1.1 = true /\
  map (fun b => (b_UserID b, phrase b, bool_decide (b_DeletedAt b = None))) (map_to_list (blocks r.2)).*2 =
    [("u", "let s wrap up", true); ("u", "let s wrap up", true)]%string.
Proof. vm_compute. by split. Qed.

Lemma accept_is_idempotent_witness :
  exists resp2 m2,
    run_prog (quiet_corpus 9) (BatchAccept "u" "s1" [wrap_up; wrap_up_again]) 0 accepted.2 =
      (Ok resp2, m2, accepted.2) /\ ba_AcceptedCount resp2 = 0 /\ ba_MergedCount resp2 = 2.
Proof.
  destruct accepted as [[[resp|e] m] s'] eqn:E; [|vm_compute in E; discriminate E].
  apply (accept_is_idempotent (quiet_corpus 5) (quiet_corpus 9) "u" "s1" [wrap_up; wrap_up_again]
    0 0 NewMemoryStore resp m s').
  - intros ?. reflexivity.
  - intros ?. reflexivity.
  - exact unary_id_inj.
  - reflexivity.
  - exact empty_keyed.
  - vm_compute. lia.
  - vm_compute in E. injection E as _ _ <-. vm_compute. lia.
  - exact E.
Defined.

Lemma edit_resets_schedule_witness :
  exists v, (run_prog (quiet_corpus 9)
      (Svc_UpdateBlock "u" "xxx" (mkFields "收尾" "Time to wrap up." "wrap up" "review" "summarize"))
      0 accepted.2).1.1 = Ok v /\ v_State v = StateNew.
Proof.
  destruct (run_prog (quiet_corpus 9) _ 0 accepted.2) as [[[v|e] m] s'] eqn:E;
    [|vm_compute in E; discriminate E].
  exists v. split; [done|].
  destruct (edit_resets_schedule (quiet_corpus 9) (fun _ => eq_refl) "u" "xxx"
    (mkFields "收尾" "Time to wrap up." "wrap up" "review" "summarize") 0 accepted.2 v m s')
    as (b & b' & Hb & Hb' & -> & Hed & _).
  - apply (bool_decide_unpack _). vm_compute. exact I.
  - exact E.
  - vm_compute in Hb. injection Hb as <-. destruct Hed as (_ & _ & _ & _ & _ & Hst).
    vm_compute in Hst. exact (proj1 Hst).
Defined.
