(* ===== verification/CorpusSelect.v ===== *)
(** * Selecting from the corpus: suggestions and recent hits

    The two-bucket ranking of [Recommend] is one sort; [dedupeHits] keeps the
    latest hit of each block; [RecentHits] shows the last turns. *)
From S2P Require Import Prelude Prog GoString GoUnicode GoTime GoSort ApiErr Corpus CorpusStore CorpusLaws CorpusListing CorpusService CorpusServiceLaws.

Open Scope Z_scope.

(** ** Suggestions *)

(** Blocks of the session's scene first, then by usefulness. *)
Definition suggested_before (scene : string) : PhraseBlock -> PhraseBlock -> bool :=
  lex (less_by (fun b => if in_scene scene b then 0 else 1)) more_useful.

(** [more_useful], key by key. *)
Definition usefulness : PhraseBlock -> PhraseBlock -> bool :=
  lex (fun a b => less_by b_RealUseCount b a)
    (lex (less_by (fun b => if green b then 0 else 1))
       (lex (fun a b => less_by b_UpdatedAt b a) (str_by b_ID))).

#[export] Instance usefulness_weak : StrictWeak usefulness.
Proof.
  apply lex_weak; [apply flip_weak; apply _|]. apply lex_weak; [apply _|].
  apply lex_weak; [apply flip_weak; apply _|apply _].
Qed.

Lemma more_useful_keys a b : more_useful a b = usefulness a b.
Proof.
  unfold more_useful, usefulness, lex, less_by, str_by, After.
  destruct (Z.eqb_spec (b_RealUseCount a) (b_RealUseCount b)) as [E1|E1]; cbn [negb].
  2: { destruct (Z.ltb_spec (b_RealUseCount b) (b_RealUseCount a)),
         (Z.ltb_spec (b_RealUseCount a) (b_RealUseCount b)); try done; lia. }
  rewrite E1, Z.ltb_irrefl. cbn.
  destruct (green a), (green b); cbn; try done;
  (destruct (Z.eqb_spec (b_UpdatedAt a) (b_UpdatedAt b)) as [E2|E2]; cbn;
    [by rewrite E2, Z.ltb_irrefl|
     destruct (Z.ltb_spec (b_UpdatedAt b) (b_UpdatedAt a)),
       (Z.ltb_spec (b_UpdatedAt a) (b_UpdatedAt b)); try done; lia]).
Qed.

#[export] Instance more_useful_weak : StrictWeak more_useful.
Proof. split; intros *; rewrite !more_useful_keys; [apply less_asymm|apply less_negtrans]. Qed.

#[export] Instance suggested_weak scene : StrictWeak (suggested_before scene).
Proof. unfold suggested_before. apply _. Qed.

Lemma more_useful_ID a b : more_useful a b = false -> more_useful b a = false -> b_ID a = b_ID b.
Proof.
  unfold more_useful, After. rewrite (Z.eqb_sym (b_RealUseCount b)), (Z.eqb_sym (b_UpdatedAt b)).
  destruct (Z.eqb_spec (b_RealUseCount a) (b_RealUseCount b)); cbn; [|lia].
  destruct (green a), (green b); cbn; try done;
  (destruct (Z.eqb_spec (b_UpdatedAt a) (b_UpdatedAt b)); cbn; [|lia]; apply str_lt_antisymm).
Qed.

Lemma StronglySorted_app_2 {A} (R : A -> A -> Prop) l1 l2 :
  StronglySorted R l1 -> StronglySorted R l2 ->
  (forall a b, a ∈ l1 -> b ∈ l2 -> R a b) -> StronglySorted R (l1 ++ l2).
Proof.
  induction 1 as [|x l1 Hs IH Hx]; intros H2 H; [done|]. cbn. constructor.
  - apply IH; [done|]. intros a b Ha. apply H. by right.
  - apply Forall_app. split; [done|]. apply Forall_forall. intros b. apply H. left.
Qed.

Lemma filter_split {A} (p : A -> bool) l :
  List.filter p l ++ List.filter (fun x => negb (p x)) l ≡ₚ l.
Proof.
  induction l as [|x l IH]; [done|]. cbn. destruct (p x); cbn; [by rewrite IH|].
  by rewrite <- Permutation_middle, IH.
Qed.

(** Sorting the two buckets apart is sorting them together, scene first. *)
Lemma two_buckets scene bs :
  separated (suggested_before scene) bs ->
  sortByUsefulness (List.filter (in_scene scene) bs) ++
  sortByUsefulness (List.filter (fun b => negb (in_scene scene b)) bs) =
  sort_Slice (suggested_before scene) bs.
Proof.
  intros Hsep. apply sort_Slice_unique; [apply _|done|..]; unfold sortByUsefulness.
  - rewrite !(sort_Slice_Permutation _). apply filter_split.
  - assert (forall p l b, b ∈ sort_Slice more_useful (List.filter p l) -> p b = true) as Hp.
    { intros p l b Hb. rewrite (sort_Slice_Permutation _) in Hb.
      by apply list_elem_of_In, filter_In in Hb as [_ Hb]. }
    assert (forall p v l, (forall b, b ∈ l -> in_scene scene b = v) -> StronglySorted (not_after p) l ->
      p = more_useful -> StronglySorted (not_after (suggested_before scene)) l) as Hmono.
    { intros p v l Hv Hs ->. induction Hs as [|x l Hs IH Hx]; constructor.
      - apply IH. intros b Hb. apply Hv. by right.
      - rewrite Forall_forall in *. intros y Hy. specialize (Hx y Hy). unfold not_after in *.
        unfold suggested_before, lex, less_by.
        rewrite (Hv x), (Hv y) by (by left || by right). rewrite Z.ltb_irrefl. by rewrite Hx. }
    apply StronglySorted_app_2.
    + eapply (Hmono _ true); [|by apply (sort_Slice_sorted _)|done]. intros b Hb. by apply Hp in Hb.
    + eapply (Hmono _ false); [|by apply (sort_Slice_sorted _)|done]. intros b Hb.
      apply Hp in Hb. by apply negb_true_iff in Hb.
    + intros a b Ha Hb. apply Hp in Ha, Hb. apply negb_true_iff in Hb.
      unfold not_after, suggested_before, lex, less_by. by rewrite Ha, Hb.
Qed.

Lemma fill_take limit f bs items :
  (length items <= limit)%nat ->
  fill limit f bs items = items ++ map f (take (limit - length items) bs).
Proof.
  revert items. induction bs as [|b bs IH]; intros items Hl; cbn [fill].
  - by rewrite take_nil, app_nil_r.
  - destruct (Nat.eqb_spec (length items) limit) as [<-|Hne].
    + by rewrite Nat.sub_diag, take_0, app_nil_r.
    + rewrite IH by (rewrite length_app; cbn; lia). rewrite length_app, <- app_assoc. cbn.
      replace (limit - length items)%nat with (S (limit - (length items + 1))) by lia. done.
Qed.

Section suggest.
Context {mr : MapRange} (o : COracle).

(** The suggestions are the first ones of a single ranking: the learner's live
    blocks with the asked function, those of the session's scene first, then by
    real uses, green before training, latest update, identifier; at most the
    asked number of them, three by default and never more than ten.  The request
    runs alone. *)
Theorem suggestions_are_the_best u scene function limit n s r m s' :
  calone o -> blocks_keyed s ->
  run_prog o (Recommend u scene function limit) n s = (Ok r, m, s') ->
  let user := TrimSpace u in
  let scanned := ListBlocks (plain_filter user recommendScanLimit) s in
  s' = s /\ 1 <= clampRecommendLimit limit <= 10 /\
  r.2 = map (fun b => recommendation b (TrimSpace scene) (co_now o (S n)))
          (take (Z.to_nat (clampRecommendLimit limit))
             (sort_Slice (suggested_before (TrimSpace scene))
                (List.filter (considered (TrimSpace function)) scanned))) /\
  forall b, b ∈ scanned -> blocks s !! b_ID b = Some b /\ live user b = true.
Proof.
  intros Ha Hk. unfold Recommend. case_match; [done|]. rewrite (run_cdb o Ha). cbn [handle fst snd].
  rewrite run_cnow. intros [= <- _ <-]. cbn [snd].
  set (scanned := ListBlocks (plain_filter (TrimSpace u) recommendScanLimit) s).
  assert (forall b, b ∈ scanned -> blocks s !! b_ID b = Some b /\ live (TrimSpace u) b = true) as Hscan.
  { intros b Hb. unfold scanned in Hb. rewrite ListBlocks_take in Hb by (vm_compute; discriminate).
    apply elem_of_take in Hb as (i & Hb & _). apply list_elem_of_lookup_2, listing_elem in Hb; [|done].
    by rewrite plain_match in Hb. }
  assert (1 <= clampRecommendLimit limit <= 10) as Hlim.
  { unfold clampRecommendLimit, DefaultRecommendLimit, MaxRecommendLimit.
    repeat case_match; lia. }
  split; [done|]. split; [done|]. split; [|done].
  rewrite <- two_buckets.
  - rewrite (fill_take _ _ _ []) by (cbn; lia). rewrite fill_take by (cbn; rewrite length_map, length_take; lia).
    cbn [app length]. rewrite Nat.sub_0_r, length_map, length_take, <- map_app, take_app.
    f_equal. f_equal. f_equal. lia.
  - intros a b Ha' Hb' H1 H2. apply list_elem_of_In, filter_In in Ha' as [Ha' _], Hb' as [Hb' _].
    apply list_elem_of_In, Hscan in Ha' as [Ha' _], Hb' as [Hb' _].
    destruct (lex_equal _ _ _ _ H1 H2) as [_ [H3 H4]].
    rewrite (more_useful_ID a b) in Ha' by done. congruence.
Qed.
End suggest.

(** ** One hit per block *)

(** Each value once, in order of first appearance. *)
Definition add_new (acc : list string) (x : string) : list string :=
  if bool_decide (x ∈ acc) then acc else acc ++ [x].
Definition first_seen (l : list string) : list string := foldl add_new [] l.

(** A reported hit as it is considered: trimmed, of a known turn, or dropped. *)
Definition clean_hit (turnID : string) (h : Hit) : option Hit :=
  let id := TrimSpace (h_BlockID h) in
  if String.eqb id "" then None
  else Some (mkHit id (if blank (h_TurnID h) then turnID else h_TurnID h) (h_DetectedAtMs h)).

(** The latest detection of a block; among equals the one reported last. *)
Definition later_hit (id : string) (best : option Hit) (h : Hit) : option Hit :=
  if String.eqb (h_BlockID h) id then
    match best with
    | Some e => if h_DetectedAtMs e <=? h_DetectedAtMs h then Some h else best
    | None => Some h
    end
  else best.
Definition latest_hit (id : string) (l : list Hit) : option Hit := foldl (later_hit id) None l.

Lemma first_seen_snoc l x : first_seen (l ++ [x]) = add_new (first_seen l) x.
Proof. unfold first_seen. by rewrite foldl_app. Qed.

Lemma first_seen_NoDup l : NoDup (first_seen l).
Proof.
  induction l as [|x l IH] using rev_ind; [constructor|]. rewrite first_seen_snoc.
  unfold add_new. case_bool_decide; [done|]. apply NoDup_app. split; [done|]. split; [|apply NoDup_singleton].
  intros y Hy ->%list_elem_of_singleton. done.
Qed.

Lemma latest_snoc id l h : latest_hit id (l ++ [h]) = later_hit id (latest_hit id l) h.
Proof. unfold latest_hit. by rewrite foldl_app. Qed.

(** The loop's table: the latest hit and the position of each block seen. *)
Definition dedupe_table (cleaned : list Hit) (st : gmap string (Hit * nat) * nat) : Prop :=
  let ids := first_seen (map h_BlockID cleaned) in
  st.2 = length ids /\
  forall id h pos, st.1 !! id = Some (h, pos) <->
    ids !! pos = Some id /\ latest_hit id cleaned = Some h.

Lemma latest_none id l : id ∉ map h_BlockID l -> latest_hit id l = None.
Proof.
  induction l as [|h l IH] using rev_ind; [done|]. rewrite latest_snoc, map_app. cbn. intros Hn.
  apply not_elem_of_app in Hn as [Hn Hh]. rewrite IH by done. unfold later_hit.
  destruct (String.eqb_spec (h_BlockID h) id) as [<-|]; [|done]. destruct Hh. left.
Qed.

Lemma latest_some id l : id ∈ map h_BlockID l -> is_Some (latest_hit id l).
Proof.
  induction l as [|h l IH] using rev_ind; [by intros ?%elem_of_nil|]. rewrite latest_snoc, map_app. cbn.
  intros [H|H]%elem_of_app; unfold later_hit.
  - destruct (IH H) as [e ->]. repeat case_match; eauto.
  - apply list_elem_of_singleton in H as ->. rewrite String.eqb_refl. repeat case_match; eauto.
Qed.

Lemma first_seen_elem l x : x ∈ first_seen l <-> x ∈ l.
Proof.
  revert x. induction l as [|y l IH] using rev_ind; intros x; [done|].
  rewrite first_seen_snoc. unfold add_new.
  rewrite elem_of_app, list_elem_of_singleton. case_bool_decide as Hy.
  - apply IH in Hy. rewrite IH. split; [by left|]. by intros [?| ->].
  - by rewrite elem_of_app, list_elem_of_singleton, IH.
Qed.

Lemma dedupe_step_table turn cleaned st h :
  dedupe_table cleaned st ->
  dedupe_table (cleaned ++ option_list (clean_hit turn h)) (dedupe_step turn st h).
Proof.
  destruct st as [seen order]. intros [Hord Htab]. cbn in Hord, Htab. unfold dedupe_step, clean_hit.
  destruct (String.eqb (TrimSpace (h_BlockID h)) "") eqn:E; cbn; [by rewrite app_nil_r|].
  set (h' := mkHit _ _ _). set (id := TrimSpace (h_BlockID h)) in *.
  set (ids := first_seen (map h_BlockID cleaned)) in *.
  assert (first_seen (map h_BlockID (cleaned ++ [h'])) = add_new ids id) as Hids.
  { rewrite map_app. apply first_seen_snoc. }
  pose proof (first_seen_NoDup (map h_BlockID cleaned)) as Hnd. fold ids in Hnd.
  unfold dedupe_table. rewrite Hids. unfold add_new.
  destruct (seen !! id) as [[e pos]|] eqn:Es.
  - apply Htab in Es as [Hpos He]. rewrite bool_decide_true by (by eapply list_elem_of_lookup_2).
    assert (forall st' : gmap string (Hit * nat) * nat, st'.2 = length ids ->
      (forall i x p, st'.1 !! i = Some (x, p) <-> ids !! p = Some i /\ later_hit i (latest_hit i cleaned) h' = Some x) ->
      st'.2 = length ids /\ forall i x p, st'.1 !! i = Some (x, p) <->
        ids !! p = Some i /\ latest_hit i (cleaned ++ [h']) = Some x) as Hwrap.
    { intros st' H1 H2. split; [done|]. intros i x p. by rewrite latest_snoc. }
    assert (forall i, i <> id -> later_hit i (latest_hit i cleaned) h' = latest_hit i cleaned) as Hother.
    { intros i Hi. unfold later_hit. cbn. by destruct (String.eqb_spec id i). }
    assert (later_hit id (latest_hit id cleaned) h' =
      if h_DetectedAtMs e <=? h_DetectedAtMs h' then Some h' else Some e) as Hself.
    { unfold later_hit. cbn. rewrite String.eqb_refl, He. done. }
    cbn. destruct (h_DetectedAtMs e <=? h_DetectedAtMs h) eqn:Ele; apply Hwrap; cbn; try done;
      intros i x p; destruct (decide (i = id)) as [->|Hi].
    + rewrite lookup_insert_eq, Hself. cbn. rewrite Ele. split.
      * by intros [= <- <-].
      * intros [Hp [= <-]]. f_equal. f_equal. by eapply NoDup_lookup.
    + rewrite lookup_insert_ne, Hother by done. apply Htab.
    + rewrite Hself. cbn. rewrite Ele. rewrite Htab, He. done.
    + rewrite Hother by done. apply Htab.
  - assert (id ∉ ids) as Hnew.
    { intros Hin. apply list_elem_of_lookup in Hin as [p Hp].
      destruct (latest_some id cleaned) as [x Hx].
      { apply first_seen_elem. by eapply list_elem_of_lookup_2. }
      assert (seen !! id = Some (x, p)) by (by apply Htab). congruence. }
    rewrite bool_decide_false by done. cbn. split; [rewrite length_app; cbn; lia|].
    assert (latest_hit id cleaned = None) as Hlast.
    { apply latest_none. by rewrite <- first_seen_elem. }
    intros i x p. rewrite latest_snoc. unfold later_hit. cbn.
    destruct (String.eqb_spec id i) as [<-|Hi].
    + rewrite lookup_insert_eq, Hlast. split.
      * intros [= <- <-]. split; [|done]. rewrite Hord. by apply list_lookup_middle.
      * intros [Hp [= <-]]. f_equal. f_equal. apply lookup_app_Some in Hp as [Hp|[Hge Hp]].
        -- destruct Hnew. by eapply list_elem_of_lookup_2.
        -- apply list_lookup_singleton_Some in Hp as [Hp _]. lia.
    + rewrite lookup_insert_ne by done. rewrite Htab. split; intros [Hp Hl]; (split; [|done]).
      * by apply lookup_app_l_Some.
      * apply lookup_app_Some in Hp as [Hp|[Hge Hp]]; [done|].
        apply list_lookup_singleton_Some in Hp as [_ Hp]. congruence.
Qed.

Lemma dedupe_loop turn hits :
  dedupe_table (omap (clean_hit turn) hits) (foldl (dedupe_step turn) (∅, 0%nat) hits).
Proof.
  induction hits as [|h hits IH] using rev_ind.
  { split; [done|]. intros id h pos. cbn. rewrite lookup_empty, lookup_nil. naive_solver. }
  rewrite foldl_app, omap_app. cbn. pose proof (dedupe_step_table turn _ _ h IH) as H.
  by destruct (clean_hit turn h).
Qed.

(** Writing each item at its own position builds the list of the items. *)
Lemma place_items (items : list (Hit * nat)) (out : list Hit) :
  NoDup items.*2 -> Forall (fun item => (item.2 < length out)%nat) items ->
  let placed := foldl (fun (out : list Hit) item => <[item.2 := item.1]> out) out items in
  length placed = length out /\
  forall i, placed !! i =
    match find (fun item => Nat.eqb item.2 i) items with
    | Some item => Some item.1
    | None => out !! i
    end.
Proof.
  revert out. induction items as [|[h p] items IH]; intros out Hnd Hlt; [done|]. cbn.
  apply NoDup_cons in Hnd as [Hp Hnd]. apply Forall_cons in Hlt as [Hlp Hlt]. cbn in Hp, Hlp.
  destruct (IH (<[p := h]> out) Hnd) as [Hlen Hlk].
  { eapply Forall_impl; [exact Hlt|]. intros item. by rewrite length_insert. }
  split; [by rewrite Hlen, length_insert|]. intros i. rewrite Hlk.
  destruct (Nat.eqb_spec p i) as [<-|Hne].
  - destruct (find _ items) as [item|] eqn:E.
    + apply find_some in E as [Hin E]. apply Nat.eqb_eq in E. destruct Hp.
      apply list_elem_of_fmap. exists item. split; [done|by apply list_elem_of_In].
    + by apply list_lookup_insert_eq.
  - destruct (find _ items); [done|]. by apply list_lookup_insert_ne.
Qed.

Lemma lookup_omap_all {A B} (f : A -> option B) (l : list A) (i : nat) :
  (forall x, x ∈ l -> is_Some (f x)) -> omap f l !! i = l !! i ≫= f.
Proof.
  revert i. induction l as [|x l IH]; intros i Hsome; [done|]. cbn.
  destruct (Hsome x) as [y Hy]; [left|]. rewrite Hy.
  destruct i as [|i]; cbn; [by rewrite Hy|]. apply IH. intros z Hz. apply Hsome. by right.
Qed.

Section dedupe.
Context {mr : MapRange} (cleaned : list Hit) (seen : gmap string (Hit * nat)).
Let ids := first_seen (map h_BlockID cleaned).
Hypothesis Htable : forall id h pos, seen !! id = Some (h, pos) <->
  ids !! pos = Some id /\ latest_hit id cleaned = Some h.

Lemma table_items h p :
  (h, p) ∈ (map_range seen).*2 <-> exists id, ids !! p = Some id /\ latest_hit id cleaned = Some h.
Proof.
  rewrite list_elem_of_fmap. split.
  - intros ([id [h' p']] & [= <- <-] & Hin). rewrite map_range_perm in Hin.
    apply elem_of_map_to_list, Htable in Hin. by exists id.
  - intros (id & H). exists (id, (h, p)). split; [done|].
    rewrite map_range_perm. by apply elem_of_map_to_list, Htable.
Qed.

Lemma table_latest id : id ∈ ids -> is_Some (latest_hit id cleaned).
Proof. intros Hid. by apply latest_some, first_seen_elem. Qed.

Lemma table_positions : NoDup (map_range seen).*2.*2.
Proof.
  rewrite (map_range_perm seen), <- list_fmap_compose.
  apply NoDup_fmap_2_strong; [|apply NoDup_map_to_list].
  intros [id [h p]] [id' [h' p']] Hx%elem_of_map_to_list Hy%elem_of_map_to_list. cbn. intros <-.
  assert (id = id') as <- by (apply Htable in Hx as [Hx _], Hy as [Hy _]; congruence).
  congruence.
Qed.

Lemma table_size : size seen = length ids.
Proof.
  rewrite <- length_map_to_list, <- (map_range_perm seen).
  transitivity (length (map_range seen).*2.*2); [by rewrite !length_fmap|].
  transitivity (length (List.seq 0 (length ids))); [|by rewrite length_seq].
  apply Permutation_length, NoDup_Permutation;
    [apply table_positions|apply NoDup_ListNoDup, seq_NoDup|].
  intros p. rewrite list_elem_of_fmap, list_elem_of_In, in_seq. split.
  - intros ([h p'] & -> & (id & Hid & _)%table_items). apply lookup_lt_Some in Hid. cbn. lia.
  - intros [_ Hp]. destruct (lookup_lt_is_Some_2 ids p) as [id Hid]; [lia|].
    destruct (table_latest id) as [h Hh]; [by eapply list_elem_of_lookup_2|].
    exists (h, p). split; [done|]. apply table_items. by exists id.
Qed.

Lemma table_output :
  foldl (fun (out : list Hit) item => <[item.2 := item.1]> out)
    (replicate (size seen) (mkHit "" "" 0)) (map_range seen).*2 =
  omap (fun id => latest_hit id cleaned) ids.
Proof.
  destruct (place_items (map_range seen).*2 (replicate (size seen) (mkHit "" "" 0)) table_positions)
    as [Hlen Hlk].
  { apply Forall_forall. intros [h p] (id & Hid & _)%table_items. apply lookup_lt_Some in Hid.
    by rewrite length_replicate, table_size. }
  apply list_eq. intros i. rewrite Hlk, lookup_omap_all by apply table_latest.
  destruct (find _ _) as [[h p]|] eqn:E.
  - apply find_some in E as [Hin E]. apply Nat.eqb_eq in E. cbn in E. subst p.
    apply list_elem_of_In, table_items in Hin as (id & -> & ?). done.
  - destruct (ids !! i) as [id|] eqn:Ei; cbn.
    + exfalso. destruct (table_latest id) as [h Hh]; [by eapply list_elem_of_lookup_2|].
      assert ((h, i) ∈ (map_range seen).*2) as Hin by (apply table_items; by exists id).
      apply list_elem_of_In in Hin. apply (find_none _ _ E) in Hin. cbn in Hin.
      by rewrite Nat.eqb_refl in Hin.
    + apply lookup_ge_None in Ei. apply lookup_ge_None. rewrite length_replicate, table_size. done.
Qed.
End dedupe.

(** [dedupeHits] reports each block once, in the order in which the blocks were
    first reported, with its latest detection — the last reported one among
    equals — blank blocks dropped, identifiers trimmed, and the turn of the
    request for the hits that name none.  The answer does not depend on the
    order in which Go ranges over the table. *)
Theorem dedupe_keeps_latest {mr : MapRange} turn hits :
  let cleaned := omap (clean_hit turn) hits in
  dedupeHits turn hits =
  omap (fun id => latest_hit id cleaned) (first_seen (map h_BlockID cleaned)).
Proof.
  intros cleaned. destruct (dedupe_loop turn hits) as [_ Ht]. unfold dedupeHits.
  destruct (foldl (dedupe_step turn) (∅, 0%nat) hits) as [seen order].
  by apply table_output.
Qed.

(** ** The lookback window *)

Lemma allow_turns k hits :
  foldl (allow_turn k) ∅ hits = list_to_set (take k (first_seen (map rh_TurnID hits))).
Proof.
  induction hits as [|h hits IH] using rev_ind; [unfold first_seen; cbn; by rewrite take_nil|].
  rewrite foldl_app, map_app. cbn [foldl map]. rewrite IH, first_seen_snoc. unfold allow_turn, add_new.
  set (turns := first_seen (map rh_TurnID hits)) in *.
  assert (NoDup (take k turns)) as Hnd.
  { eapply sublist_NoDup; [apply first_seen_NoDup|apply sublist_take]. }
  rewrite size_list_to_set by done. rewrite length_take.
  destruct (bool_decide (rh_TurnID h ∈ turns)) eqn:Ht.
  - apply bool_decide_eq_true in Ht. case_bool_decide as Hin; [done|].
    destruct (Nat.leb_spec k (k `min` length turns)); [done|].
    exfalso. apply Hin. by rewrite elem_of_list_to_set, take_ge by lia.
  - apply bool_decide_eq_false in Ht. rewrite bool_decide_false.
    + destruct (Nat.leb_spec k (k `min` length turns)); [by rewrite take_app_le by lia|].
      rewrite !take_ge by (rewrite ?length_app; cbn; lia). set_solver.
    + rewrite elem_of_list_to_set. intros (i & Hi & _)%elem_of_take.
      apply Ht. by eapply list_elem_of_lookup_2.
Qed.

#[export] Instance hit_newer_weak : StrictWeak hit_newer.
Proof.
  split; intros *; unfold hit_newer; repeat case_match; try lia;
    first [apply str_lt_asymm|apply str_lt_negtrans].
Qed.

(** [RecentHits] shows exactly the session's hits of its most recent turns: of
    the first [lookback] distinct turns of the ledger read newest first, in
    that order; a window of no turns shows nothing; and the answer expires a
    minute after its newest hit.  The request runs alone. *)
Theorem recent_hits_are_last_turns {mr : MapRange} (o : COracle) session lookback n s r m s' :
  calone o -> run_prog o (RecentHits session lookback) n s = (Ok r, m, s') ->
  let all := ListSessionHits (TrimSpace session) s in
  let window := take (Z.to_nat lookback) (first_seen (map rh_TurnID all)) in
  s' = s /\ r.1 = List.filter (fun h => bool_decide (rh_TurnID h ∈ window)) all /\
  r.2 = match r.1 with [] => 0 | h :: _ => int64 (rh_UsedAtMs h + RecentHitTTLMs) end /\
  StronglySorted (not_after hit_newer) r.1.
Proof.
  intros Ha. unfold RecentHits. case_match; [done|]. rewrite (run_cdb o Ha). cbn [handle fst snd].
  intros [= <- _ <-]. cbn [fst snd]. set (all := ListSessionHits (TrimSpace session) s).
  assert (applyLookback all (if lookback <? 0 then 0 else lookback) =
    List.filter (fun h => bool_decide (rh_TurnID h ∈
      take (Z.to_nat lookback) (first_seen (map rh_TurnID all)))) all) as ->.
  { unfold applyLookback. replace (Z.to_nat lookback) with (Z.to_nat (if lookback <? 0 then 0 else lookback))
      by (destruct (Z.ltb_spec lookback 0); lia).
    destruct (Z.leb_spec (if lookback <? 0 then 0 else lookback) 0) as [Hle|Hgt]; cbn [orb].
    - replace (Z.to_nat (if lookback <? 0 then 0 else lookback)) with 0%nat
        by (destruct (Z.ltb_spec lookback 0); lia).
      rewrite take_0. by induction all.
    - destruct all as [|h all']; [done|]. cbn [length Nat.eqb].
      apply filter_ext. intros x. rewrite allow_turns.
      apply bool_decide_ext. by rewrite elem_of_list_to_set. }
  split; [done|]. split; [done|]. split; [done|].
  apply filter_sorted. unfold all, ListSessionHits. apply sort_Slice_sorted. apply _.
Qed.

(** ** Examples *)

#[local] Existing Instance key_order.

Definition shelf : MemoryStore :=
  set_blocks (<["b1" := demo_block "b1" "u"]>
    (<["b2" := with_use 9 (demo_block "b2" "u")]> {[ "b3" := demo_block "b3" "v" ]}))%string
    NewMemoryStore.

Lemma shelf_keyed : blocks_keyed shelf.
Proof. by repeat (apply map_Forall_insert_2; [done|]); apply map_Forall_empty. Qed.

Lemma suggestions_are_the_best_witness :
  exists r, (run_prog (quiet_corpus 10) (Recommend "u" "REVIEW" "" 0) 0 shelf).1.1 = Ok r /\
    map (fun i => v_ID (rc_View i)) r.2 = ["b2"; "b1"]%string.
Proof.
  destruct (run_prog (quiet_corpus 10) (Recommend "u" "REVIEW" "" 0) 0 shelf) as [[[r|e] m] s'] eqn:E;
    [|vm_compute in E; discriminate E].
  exists r. split; [done|].
  destruct (suggestions_are_the_best (quiet_corpus 10) "u" "REVIEW" "" 0 0 shelf r m s')
    as (_ & _ & H & _).
  - intros ?. reflexivity.
  - exact shelf_keyed.
  - exact E.
  - rewrite H. vm_compute. reflexivity.
Defined.

Definition heard : MemoryStore :=
  (Store_RecordHits "u" "s" "t2" [mkHit "b1" "t2" 20]
     (Store_RecordHits "u" "s" "t1" [mkHit "b1" "t1" 10; mkHit "b2" "t1" 11] shelf).2).2.

Lemma recent_hits_are_last_turns_witness :
  exists r, (run_prog (quiet_corpus 10) (RecentHits "s" 1) 0 heard).1.1 = Ok r /\
    map rh_BlockID r.1 = ["b1"]%string /\ r.2 = 60020.
Proof.
  destruct (run_prog (quiet_corpus 10) (RecentHits "s" 1) 0 heard) as [[[r|e] m] s'] eqn:E;
    [|vm_compute in E; discriminate E].
  exists r. split; [done|].
  destruct (recent_hits_are_last_turns (quiet_corpus 10) "s" 1 0 heard r m s') as (_ & H1 & H2 & _).
  - intros ?. reflexivity.
  - exact E.
  - rewrite H2, H1. split; vm_compute; reflexivity.
Defined.
