(* ===== verification/Content.v ===== *)
(** * Daily reads ([internal/content])

    [types.go], [store.go], [memory_store.go], [generator.go],
    [corpus_source.go] and [service.go].  The [clone*] functions are identities
    but for the date, and the mutexes are the atomicity of the store's calls.
    The service runs over its own store and the corpus, next to other
    goroutines. *)
From stdpp Require Import pretty.
From S2P Require Import Prelude Prog GoString GoTime GoSort GoFloat GoJson GoJsonMap ApiErr Corpus CorpusStore CorpusLaws CorpusService ReviewPayload.

Open Scope Z_scope.
Open Scope prog_scope.

Definition StatusPending : string := "pending".
Definition StatusReady : string := "ready".
Definition StatusFailed : string := "failed".
Definition GeneratorPreset : string := "preset-v1".
Definition GeneratorCorpusStub : string := "corpus-stub-v1".
Definition GeneratorFollowRead : string := "follow-read-stub-v1".
Definition maxBlocksInDailyRead : Z := 5.

Record DailyRead := mkRead {
  dr_ID : string;
  dr_UserID : string;
  dr_GenDate : time;
  dr_Status : string;
  dr_Title : string;
  dr_Body : string;
  dr_AudioURL : option string;
  dr_UsedBlockIDs : string;
  dr_SourceRefs : string;
  dr_ReadScore : option SpecFloat.spec_float;
  dr_Generator : string;
  dr_CreatedAt : time;
  dr_UpdatedAt : time;
}.

Record DailyReadView := mkReadView {
  dv_ID : string;
  dv_Title : string;
  dv_Body : string;
  dv_AudioURL : option string;
  dv_Generator : string;
  dv_UsedBlockIDs : string;
  dv_SourceRefs : string;
  dv_ReadScore : option SpecFloat.spec_float;
}.

Record TodayPollResponse := mkTodayPoll {
  tp_GenDate : string;
  tp_Status : string;
  tp_DailyRead : option DailyReadView;
}.

Record FollowReadResponse := mkFollowRead {
  fr_DailyReadID : string;
  fr_Recorded : bool;
  fr_Score : option SpecFloat.spec_float;
  fr_Generator : string;
}.

Definition ErrNotFound : error := Sentinel "content: not found".

Definition normalizeDateUTC (t : time) : time := unix_day t * Day.

Definition userDateKey (userID : string) (genDate : time) : string :=
  userID +:+ "|" +:+ format_date (normalizeDateUTC genDate).

Definition cloneRead (r : DailyRead) : DailyRead :=
  mkRead (dr_ID r) (dr_UserID r) (normalizeDateUTC (dr_GenDate r)) (dr_Status r) (dr_Title r) (dr_Body r)
    (dr_AudioURL r) (dr_UsedBlockIDs r) (dr_SourceRefs r) (dr_ReadScore r) (dr_Generator r)
    (dr_CreatedAt r) (dr_UpdatedAt r).

(** ** The store *)
Abbreviation reads := (gmap string DailyRead).

Definition keyed_as (key : string) (r : DailyRead) : bool :=
  String.eqb (userDateKey (dr_UserID r) (dr_GenDate r)) key.

Definition MarkReady (read : DailyRead) (s : reads) : result error DailyRead * reads :=
  match s !! dr_ID read with
  | None => (Err ErrNotFound, s)
  | Some current =>
      let current := mkRead (dr_ID current) (dr_UserID current) (dr_GenDate current) StatusReady
        (dr_Title read) (dr_Body read) (dr_AudioURL read) (dr_UsedBlockIDs read) (dr_SourceRefs read)
        (dr_ReadScore current) (dr_Generator read) (dr_CreatedAt current) (dr_UpdatedAt read) in
      (Ok (cloneRead current), <[dr_ID read := current]> s)
  end.

Definition MarkFailed (id : string) (updatedAt : time) (s : reads) : result error unit * reads :=
  match s !! id with
  | None => (Err ErrNotFound, s)
  | Some r =>
      (Ok tt, <[id := mkRead (dr_ID r) (dr_UserID r) (dr_GenDate r) StatusFailed (dr_Title r) (dr_Body r)
                        (dr_AudioURL r) (dr_UsedBlockIDs r) (dr_SourceRefs r) (dr_ReadScore r)
                        (dr_Generator r) (dr_CreatedAt r) updatedAt]> s)
  end.

Definition GetBlock (userID readID : string) (s : reads) : result error DailyRead :=
  match s !! readID with
  | Some r => if String.eqb (dr_UserID r) userID then Ok (cloneRead r) else Err ErrNotFound
  | None => Err ErrNotFound
  end.

Definition owned_by (userID : string) (r : DailyRead) : DailyRead :=
  mkRead (dr_ID r) userID (dr_GenDate r) (dr_Status r) (dr_Title r) (dr_Body r) (dr_AudioURL r)
    (dr_UsedBlockIDs r) (dr_SourceRefs r) (dr_ReadScore r) (dr_Generator r) (dr_CreatedAt r) (dr_UpdatedAt r).

Definition ReassignUser (fromUserID toUserID : string) (s : reads) : reads :=
  (fun r => if String.eqb (dr_UserID r) fromUserID then owned_by toUserID r else r) <$> s.

Section ranging.
Context {mr : MapRange}.

Definition all_reads (s : reads) : list DailyRead := (map_range s).*2.

Definition GetByUserDate (userID : string) (genDate : time) (s : reads) : result error DailyRead :=
  match List.find (keyed_as (userDateKey userID genDate)) (all_reads s) with
  | Some r => Ok (cloneRead r)
  | None => Err ErrNotFound
  end.

Definition CreatePending (read : DailyRead) (s : reads) : result error DailyRead * reads :=
  match List.find (keyed_as (userDateKey (dr_UserID read) (dr_GenDate read))) (all_reads s) with
  | Some existing => (Ok (cloneRead existing), s)
  | None => (Ok (cloneRead read), <[dr_ID read := cloneRead read]> s)
  end.

(** The loop keeps the first of the latest reads before a day. *)
Definition latest_step (userID : string) (before : time) (best : option DailyRead) (r : DailyRead) : option DailyRead :=
  if negb (String.eqb (dr_UserID r) userID) || negb (String.eqb (dr_Status r) StatusReady) then best else
  let date := normalizeDateUTC (dr_GenDate r) in
  if negb (Before date before) then best else
  match best with
  | Some b => if After date (normalizeDateUTC (dr_GenDate b)) then Some r else best
  | None => Some r
  end.

Definition GetLatestReadyBefore (userID : string) (beforeDate : time) (s : reads) : result error DailyRead :=
  match foldl (latest_step userID (normalizeDateUTC beforeDate)) None (all_reads s) with
  | Some r => Ok (cloneRead r)
  | None => Err ErrNotFound
  end.
End ranging.

Inductive contentE : Type -> Type :=
| RGetByUserDate (u : string) (d : time) : contentE (result error DailyRead)
| RCreatePending (r : DailyRead) : contentE (result error DailyRead)
| RMarkReady (r : DailyRead) : contentE (result error DailyRead)
| RMarkFailed (id : string) (at_ : time) : contentE (result error unit)
| RGetBlock (u id : string) : contentE (result error DailyRead)
| RLatest (u : string) (d : time) : contentE (result error DailyRead)
| RReassign (f t : string) : contentE unit.

Definition handle_content {mr : MapRange} {R} (c : contentE R) (s : reads) : R * reads :=
  match c in contentE R return R * reads with
  | RGetByUserDate u d => (GetByUserDate u d s, s)
  | RCreatePending r => CreatePending r s
  | RMarkReady r => MarkReady r s
  | RMarkFailed id at_ => MarkFailed id at_ s
  | RGetBlock u id => (GetBlock u id s, s)
  | RLatest u d => (GetLatestReadyBefore u d s, s)
  | RReassign f t => (tt, ReassignUser f t s)
  end.

(** ** Generation ([generator.go], [corpus_source.go]) *)
Record SourceBlock := mkSource {
  sb_ID : string;
  sb_IntentZH : string;
  sb_ExpressionEN : string;
  sb_AnchorUserSaid : string;
  sb_SceneTag : string;
  sb_FunctionTag : string;
}.

Record GeneratedDailyRead := mkGenerated {
  gd_Title : string;
  gd_Body : string;
  gd_Generator : string;
  gd_UsedBlockIDs : string;
  gd_SourceRefs : string;
}.

Definition newline : string := String (byte_of 10) EmptyString.

Definition presetDailyRead : GeneratedDailyRead :=
  mkGenerated "Daily Read: Start With One Useful Line"
    ("You do not need a long article to keep momentum." +:+ newline +:+ newline +:+
     "Pick one useful English line you want to sound natural saying today. Read it aloud twice, then say it once without looking."
     +:+ newline +:+ newline +:+
     "When you finish a practice session, save one refined phrase into your corpus so tomorrow's read can be more personal.")
    GeneratorPreset ""
    (text (marshal_map {[ "kind" := json_string "preset"; "id" := json_string "daily-read-preset-v1" ]})).

Definition source_json (b : SourceBlock) : json :=
  JObj [(quote "ID", json_string (sb_ID b)); (quote "IntentZH", json_string (sb_IntentZH b));
        (quote "ExpressionEN", json_string (sb_ExpressionEN b));
        (quote "AnchorUserSaid", json_string (sb_AnchorUserSaid b));
        (quote "SceneTag", json_string (sb_SceneTag b)); (quote "FunctionTag", json_string (sb_FunctionTag b))].

Definition read_line (i : nat) (b : SourceBlock) : string :=
  pretty (Z.of_nat i + 1) +:+ ". " +:+ TrimSpace (sb_ExpressionEN b) +:+ " — " +:+ TrimSpace (sb_IntentZH b).

Definition GenerateDailyRead (blocks : list SourceBlock) : GeneratedDailyRead :=
  match blocks with
  | [] => presetDailyRead
  | _ =>
      let used := if maxBlocksInDailyRead <? Z.of_nat (length blocks)
                  then take (Z.to_nat maxBlocksInDailyRead) blocks else blocks in
      let ids := map sb_ID used in
      let lines := "Today's read draws from phrases you recently saved in your corpus."%string ::
        imap read_line used ++
        ["Try reading each line aloud and swapping one phrase into your next standup."%string] in
      mkGenerated "Daily Read: Your Saved Phrases" (String.concat (newline +:+ newline) lines)
        GeneratorCorpusStub (text (JArr (map json_string ids)))
        (text (marshal_map {[ "kind" := json_string "corpus_blocks";
                              "count" := json_int (Z.of_nat (length used));
                              "blocks" := JArr (map source_json used) ]}))
  end.

Definition source_of (b : PhraseBlock) : SourceBlock :=
  mkSource (b_ID b) (b_IntentZH b) (b_ExpressionEN b) (b_AnchorUserSaid b) (b_SceneTag b) (b_FunctionTag b).

Definition ListRecentBlocks {mr : MapRange} (userID : string) (limit : Z) (corpus : MemoryStore) : list SourceBlock :=
  let limit := if limit <=? 0 then maxBlocksInDailyRead else limit in
  map source_of (ListBlocks (plain_filter userID limit) corpus).

(** * The daily read service ([internal/content/service.go])

    The service as programs over its store, its source of phrase blocks and the
    clock.  The lock that serialises the generations of one learner and day is
    left out: what is shown holds for every interleaving of store calls. *)


Inductive contentSvcE : Type -> Type :=
| DDb {R : Type} (c : contentE R) : contentSvcE R
| DBlocks (userID : string) (limit : Z) : contentSvcE (result error (list SourceBlock))
| DNow : contentSvcE time
| DNewID : contentSvcE string.

Abbreviation dprog := (program contentSvcE).
Definition ddb {R} (c : contentE R) : dprog R := call (DDb c).

(** The store of the reads and the corpus the source reads. *)
Record DWorld := mkDWorld { w_reads : reads; w_corpus : MemoryStore }.

(** The clock, fresh identifiers, whether the corpus answers, and what other
    goroutines do to both stores before each call. *)
Record DOracle := mkDOracle {
  do_now : nat -> time;
  do_id : nat -> string;
  do_down : nat -> option error;
  do_env : nat -> list {R : Type & contentE R};
  do_corpus : nat -> list event;
}.

Definition devent : Type := {R : Type & contentE R}.
Definition dcall {R} (c : contentE R) : devent := existT R c.
Definition dafter {mr : MapRange} (e : devent) (s : reads) : reads := (handle_content (projT2 e) s).2.
Definition drun {mr : MapRange} (tr : list devent) (s : reads) : reads := foldl (fun s e => dafter e s) s tr.

Definition perform_content {mr : MapRange} {R} (o : DOracle) (e : contentSvcE R) (n : nat) (w : DWorld)
  : R * DWorld :=
  match e in contentSvcE R return R * DWorld with
  | DDb c => let (r, s) := handle_content c (drun (do_env o n) (w_reads w)) in (r, mkDWorld s (w_corpus w))
  | DBlocks u limit =>
      let corpus := run (do_corpus o n) (w_corpus w) in
      (match do_down o n with Some e => Err e | None => Ok (ListRecentBlocks u limit corpus) end,
       mkDWorld (w_reads w) corpus)
  | DNow => (do_now o n, w)
  | DNewID => (do_id o n, w)
  end.

#[export] Instance runs_content {mr : MapRange} : Runs DOracle contentSvcE DWorld :=
  fun R => perform_content.

Definition applyGenerated (pending : DailyRead) (generated : GeneratedDailyRead) (updatedAt : time) : DailyRead :=
  mkRead (dr_ID pending) (dr_UserID pending) (dr_GenDate pending) StatusReady (gd_Title generated)
    (gd_Body generated) (dr_AudioURL pending) (gd_UsedBlockIDs generated) (gd_SourceRefs generated)
    (dr_ReadScore pending) (gd_Generator generated) (dr_CreatedAt pending) updatedAt.

Definition toPollResponse (read : DailyRead) : TodayPollResponse :=
  mkTodayPoll (format_date (normalizeDateUTC (dr_GenDate read))) (dr_Status read)
    (if String.eqb (dr_Status read) StatusReady
     then Some (mkReadView (dr_ID read) (dr_Title read) (dr_Body read) (dr_AudioURL read) (dr_Generator read)
                  (dr_UsedBlockIDs read) (dr_SourceRefs read) (dr_ReadScore read))
     else None).

Section service.
(** Whether the service was given a source of blocks. *)
Variable has_source : bool.

Definition listBlocks (userID : string) : dprog (result error (list SourceBlock)) :=
  if has_source then call (DBlocks userID maxBlocksInDailyRead) else Ret (Ok []).

Definition generateAndPersist (pending : DailyRead) : dprog (result error DailyRead) :=
  blocks <-! listBlocks (dr_UserID pending);
  now <- call DNow;
  ddb (RMarkReady (applyGenerated pending (GenerateDailyRead blocks) now)).

(** Today's read once it is found or created. *)
Definition readyRead (read : DailyRead) : dprog (result error DailyRead) :=
  if String.eqb (dr_Status read) StatusReady then Ret (Ok read) else
  ready <- generateAndPersist read;
  match ready with
  | Ok read => Ret (Ok read)
  | Err _ => now <- call DNow; ddb (RMarkReady (applyGenerated read presetDailyRead now))
  end.

Definition ensureTodayRead (userID : string) (today : time) : dprog (result error DailyRead) :=
  found <- ddb (RGetByUserDate userID today);
  match found with
  | Ok read =>
      if String.eqb (dr_Status read) StatusReady then Ret (Ok read) else
      _now <- call DNow; readyRead read
  | Err e =>
      if negb (Is e ErrNotFound) then Ret (Err e) else
      now <- call DNow;
      id <- call DNewID;
      read <-! ddb (RCreatePending (mkRead id userID today StatusPending "" "" None "" "" None "" now now));
      readyRead read
  end.

Definition GetToday (userID : string) : dprog (result error TodayPollResponse) :=
  let userID := TrimSpace userID in
  if String.eqb userID "" then Ret (Err (Api (Unauthenticated "missing authenticated user"))) else
  now <- call DNow;
  read <-! ensureTodayRead userID (normalizeDateUTC now);
  Ret (Ok (toPollResponse read)).

Definition FollowRead (userID readID : string) : dprog (result error FollowReadResponse) :=
  let userID := TrimSpace userID in
  let readID := TrimSpace readID in
  if String.eqb userID "" then Ret (Err (Api (Unauthenticated "missing authenticated user"))) else
  found <- ddb (RGetBlock userID readID);
  match found with
  | Err e => if Is e ErrNotFound then Ret (Err (Api (NotFound "daily read not found"))) else Ret (Err e)
  | Ok read =>
      if negb (String.eqb (dr_Status read) StatusReady) then Ret (Err (Api (Conflict "daily read is not ready")))
      else Ret (Ok (mkFollowRead (dr_ID read) true None GeneratorFollowRead))
  end.
End service.

(** Reassigner: a guest's reads move to the account. *)
Definition ReassignFromGuest (guestUserID targetUserID : string) : dprog unit :=
  ddb (RReassign guestUserID targetUserID).
