(* ===== verification/Drill.v ===== *)
(** * The flash drill: configuration, ledger, judge ([internal/drill])

    [types.go], the in-memory ledger of [record_store.go] and the reading of
    the judge model's reply of [judge.go]. *)
From S2P Require Import Prelude GoString GoTime GoSort GoJson ApiErr Corpus CorpusStore.

Open Scope Z_scope.

Definition DefaultRoundSize : Z := 10.
Definition MaxRoundSize : Z := 20.
Definition DrillTypeRecall : Z := 1.
Definition DefaultOverdueWindow : duration := 72 * Hour.

Record Config := mkConfig {
  cfg_Schedule : Schedule;
  RoundSize : Z;
  DailyNewBlockLimit : Z;
  OverdueWindow : duration;
}.

Definition DefaultConfig : Config := mkConfig DefaultSchedule DefaultRoundSize 0 DefaultOverdueWindow.

(** Config.Normalize *)
Definition Config_Normalize (c : Config) : Config :=
  mkConfig (Normalize (cfg_Schedule c))
    (if RoundSize c <=? 0 then DefaultRoundSize else RoundSize c)
    (if DailyNewBlockLimit c <? 0 then 0 else DailyNewBlockLimit c)
    (if OverdueWindow c <? 0 then 0 else OverdueWindow c).

Record Card := mkCard {
  card_BlockID : string;
  card_IntentZH : string;
  card_ExpressionEN : string;
  card_State : string;
}.

Record Round := mkRound { round_Size : Z; round_Cards : list Card }.

Record JudgeRequest := mkJudgeRequest {
  jr_BlockID : string;
  jr_ASRText : string;
  jr_ResponseMS : Z;
  jr_SessionID : string;
}.

Record JudgeResponse := mkJudgeResponse {
  jp_Pass : bool;
  jp_JudgeReason : string;
  jp_Judged : bool;
  jp_Retryable : bool;
  jp_SuccessStreak : Z;
  jp_State : string;
  jp_NextDueAt : string;
  jp_Recorded : bool;
  jp_RecordID : Z;
  jp_Promoted : bool;
  jp_ASRText : string;
}.

Record AppealResponse := mkAppealResponse {
  ap_RecordID : Z;
  ap_BlockID : string;
  ap_Restored : bool;
  ap_AlreadyAppealed : bool;
  ap_State : string;
  ap_SuccessStreak : Z;
  ap_NextDueAt : string;
  ap_Note : string;
}.

(** Record: one row of the ledger *)
Record DrillRecord := mkRecord {
  r_ID : Z;
  r_UserID : string;
  r_BlockID : string;
  r_SessionID : string;
  r_DrillType : Z;
  r_SemanticPass : bool;
  r_Judged : bool;
  r_ResponseMS : Z;
  r_ASRText : string;
  r_JudgeReason : string;
  r_PrevState : string;
  r_PrevSuccessStreak : Z;
  r_PrevNextDueAt : time;
  r_AppealedAt : option time;
  r_CreatedAt : time;
}.

Definition with_id (id : Z) (created : time) (r : DrillRecord) : DrillRecord :=
  mkRecord id (r_UserID r) (r_BlockID r) (r_SessionID r) (r_DrillType r) (r_SemanticPass r)
    (r_Judged r) (r_ResponseMS r) (r_ASRText r) (r_JudgeReason r) (r_PrevState r)
    (r_PrevSuccessStreak r) (r_PrevNextDueAt r) (r_AppealedAt r) created.
Definition with_appeal (at_ : time) (r : DrillRecord) : DrillRecord :=
  mkRecord (r_ID r) (r_UserID r) (r_BlockID r) (r_SessionID r) (r_DrillType r) (r_SemanticPass r)
    (r_Judged r) (r_ResponseMS r) (r_ASRText r) (r_JudgeReason r) (r_PrevState r)
    (r_PrevSuccessStreak r) (r_PrevNextDueAt r) (Some at_) (r_CreatedAt r).

(** ** The ledger *)
Definition ErrRecordNotFound : error := Sentinel "drill: record not found".

Record MemoryRecordStore := mkRecordStore { nextID : Z; records : list DrillRecord }.

Definition NewMemoryRecordStore : MemoryRecordStore := mkRecordStore 0 [].

(** [wall] is what [time.Now] answers when the row has no creation time. *)
Definition Insert (wall : time) (rec : DrillRecord) (s : MemoryRecordStore)
  : Z * MemoryRecordStore :=
  let id := int64 (nextID s + 1) in
  let created := if IsZero (r_CreatedAt rec) then wall else r_CreatedAt rec in
  (id, mkRecordStore id (records s ++ [with_id id created rec])).

Definition is_record (userID : string) (recordID : Z) (r : DrillRecord) : bool :=
  (r_ID r =? recordID) && String.eqb (r_UserID r) userID.

Definition GetRecord (userID : string) (recordID : Z) (s : MemoryRecordStore)
  : result error DrillRecord :=
  match List.find (is_record userID recordID) (records s) with
  | Some r => Ok r
  | None => Err ErrRecordNotFound
  end.

(** The first matching row is stamped, unless it already is. *)
Fixpoint mark (userID : string) (recordID : Z) (at_ : time) (rs : list DrillRecord)
  : option (bool * list DrillRecord) :=
  match rs with
  | [] => None
  | r :: rs =>
      if is_record userID recordID r then
        match r_AppealedAt r with
        | Some _ => Some (false, r :: rs)
        | None => Some (true, with_appeal at_ r :: rs)
        end
      else match mark userID recordID at_ rs with
           | Some (b, rs') => Some (b, r :: rs')
           | None => None
           end
  end.

Definition MarkAppealed (userID : string) (recordID : Z) (at_ : time) (s : MemoryRecordStore)
  : result error bool * MemoryRecordStore :=
  match mark userID recordID at_ (records s) with
  | Some (b, rs) => (Ok b, mkRecordStore (nextID s) rs)
  | None => (Err ErrRecordNotFound, s)
  end.

Definition since_of (userID : string) (since : time) (r : DrillRecord) : bool :=
  String.eqb (r_UserID r) userID && negb (Before (r_CreatedAt r) since).

Definition ListRecordsSince (userID : string) (since : time) (s : MemoryRecordStore)
  : list DrillRecord :=
  sort_Slice (less_by r_ID) (List.filter (since_of userID since) (records s)).

Definition CountNewReleasesSince (userID : string) (since : time) (s : MemoryRecordStore) : Z :=
  Z.of_nat (length (List.filter
    (fun r => since_of userID since r && String.eqb (r_PrevState r) StateNew) (records s))).

Definition on_block (userID blockID : string) (r : DrillRecord) : bool :=
  String.eqb (r_UserID r) userID && String.eqb (r_BlockID r) blockID.

Definition latest_id (userID blockID : string) (rs : list DrillRecord) : Z :=
  foldl (fun latest r => if on_block userID blockID r && (latest <? r_ID r) then r_ID r else latest)
    0 rs.

Definition IsLatestForBlock (userID blockID : string) (recordID : Z) (s : MemoryRecordStore)
  : result error bool :=
  let latest := latest_id userID blockID (records s) in
  if latest =? 0 then Err ErrRecordNotFound else Ok (latest =? recordID).

Definition DeleteForUser (userID : string) (s : MemoryRecordStore) : Z * MemoryRecordStore :=
  (Z.of_nat (length (List.filter (fun r => String.eqb (r_UserID r) userID) (records s))),
   mkRecordStore (nextID s)
     (List.filter (fun r => negb (String.eqb (r_UserID r) userID)) (records s))).

(** ** The judge *)
Record JudgeResult := mkJudgeResult {
  jg_Pass : bool;
  jg_Reason : string;
  jg_Judged : bool;
  jg_OmittedDetails : bool;
}.

Definition unjudged (reason : string) : JudgeResult := mkJudgeResult false reason false false.

Definition set_judge_field (name : string) (j : JudgeResult) (v : json)
  : result json_error JudgeResult :=
  if String.eqb name "pass" then
    match dec_bool (jg_Pass j) v with
    | Ok b => Ok (mkJudgeResult b (jg_Reason j) (jg_Judged j) (jg_OmittedDetails j))
    | Err e => Err e
    end
  else if String.eqb name "judge_reason" then
    match dec_string (jg_Reason j) v with
    | Ok x => Ok (mkJudgeResult (jg_Pass j) x (jg_Judged j) (jg_OmittedDetails j))
    | Err e => Err e
    end
  else
    match dec_bool (jg_OmittedDetails j) v with
    | Ok b => Ok (mkJudgeResult (jg_Pass j) (jg_Reason j) (jg_Judged j) b)
    | Err e => Err e
    end.

Definition judge_fields : list string := ["pass"; "judge_reason"; "omitted_details"]%string.

Definition parseJudgeJSON (raw : string) : option JudgeResult :=
  match Unmarshal judge_fields set_judge_field (unjudged "") (brace_span (TrimSpace raw)) with
  | (_, Some _) => None
  | (j, None) =>
      if blank (jg_Reason j)
      then Some (mkJudgeResult (jg_Pass j)
                   (if jg_Pass j then "semantic_match" else "semantic_mismatch")
                   (jg_Judged j) (jg_OmittedDetails j))
      else Some j
  end.

(** LLMJudge.Judge on the model's reply: [None] is an error or a timeout. *)
Definition judge_reply (reply : option string) : JudgeResult :=
  match reply with
  | None => unjudged "judge_timeout"
  | Some raw =>
      match parseJudgeJSON raw with
      | None => unjudged "judge_parse_error"
      | Some j => mkJudgeResult (jg_Pass j) (jg_Reason j) true (jg_OmittedDetails j)
      end
  end.
