(* ===== verification/DrillService.v ===== *)
(** * The flash drill: the service ([internal/drill])

    [service.go], [scheduler.go] and [stuckmap.go] as programs over the corpus
    store, the ledger, the clock, the judge model and the rescue counts of the
    session store.  Before every store call other goroutines may make calls of
    their own.  Logging and metrics are left out, and so is the average of the
    stuck map, a [float64]. *)
From S2P Require Import Prelude Prog GoString GoTime GoSort GoJson ApiErr Corpus CorpusStore CorpusLaws CorpusService Drill.

Open Scope Z_scope.
Open Scope prog_scope.

Inductive recordE : Type -> Type :=
| RInsert (rec : DrillRecord) : recordE Z
| RDeleteForUser (userID : string) : recordE Z
| RGetRecord (userID : string) (recordID : Z) : recordE (result error DrillRecord)
| RMarkAppealed (userID : string) (recordID : Z) (at_ : time) : recordE (result error bool)
| RIsLatestForBlock (userID blockID : string) (recordID : Z) : recordE (result error bool)
| RListRecordsSince (userID : string) (since : time) : recordE (list DrillRecord)
| RCountNewReleasesSince (userID : string) (since : time) : recordE Z.

(** The two stores of the service. *)
Record drillState := mkDrillState { d_blocks : MemoryStore; d_records : MemoryRecordStore }.

Inductive drillE : Type -> Type :=
| DCorpus {R : Type} (c : corpusE R) : drillE R
| DRecord {R : Type} (c : recordE R) : drillE R
| DNow : drillE time
| DComplete (target userSaid : string) : drillE (option string)
| DRescues (userID : string) (since : time) : drillE (option (gmap string Z)).

Abbreviation dprog := (program drillE).
Definition blocks_call {R} (c : corpusE R) : dprog R := call (DCorpus c).
Definition records_call {R} (c : recordE R) : dprog R := call (DRecord c).

Definition handle_record {R} (wall : time) (c : recordE R) (s : MemoryRecordStore)
  : R * MemoryRecordStore :=
  match c in recordE R return R * MemoryRecordStore with
  | RInsert rec => Insert wall rec s
  | RDeleteForUser u => DeleteForUser u s
  | RGetRecord u id => (GetRecord u id s, s)
  | RMarkAppealed u id at_ => MarkAppealed u id at_ s
  | RIsLatestForBlock u b id => (IsLatestForBlock u b id s, s)
  | RListRecordsSince u since => (ListRecordsSince u since s, s)
  | RCountNewReleasesSince u since => (CountNewReleasesSince u since s, s)
  end.

(** A call of another goroutine. *)
Inductive devent :=
| OnBlocks (e : event)
| OnRecords {R : Type} (wall : time) (c : recordE R).

Record DOracle := mkDOracle {
  do_now : nat -> time;
  do_complete : nat -> string -> string -> option string;
  do_rescues : nat -> string -> time -> option (gmap string Z);
  do_env : nat -> list devent;
}.

Definition dalone (o : DOracle) : Prop := forall n, do_env o n = [].

Section handlers.
Context {mr : MapRange}.

Definition dafter (e : devent) (s : drillState) : drillState :=
  match e with
  | OnBlocks e => mkDrillState (after e (d_blocks s)) (d_records s)
  | OnRecords wall c => mkDrillState (d_blocks s) (handle_record wall c (d_records s)).2
  end.

Definition drun (tr : list devent) (s : drillState) : drillState :=
  foldl (fun s e => dafter e s) s tr.

Definition perform_drill {R} (o : DOracle) (e : drillE R) (n : nat) (s : drillState)
  : R * drillState :=
  match e in drillE R return R * drillState with
  | DCorpus c =>
      let s := drun (do_env o n) s in
      let (r, b) := handle c (d_blocks s) in (r, mkDrillState b (d_records s))
  | DRecord c =>
      let s := drun (do_env o n) s in
      let (r, l) := handle_record (do_now o n) c (d_records s) in (r, mkDrillState (d_blocks s) l)
  | DNow => (do_now o n, s)
  | DComplete target said => (do_complete o n target said, s)
  | DRescues u since => (do_rescues o n u since, s)
  end.
End handlers.

#[export] Instance runs_drill {mr : MapRange} : Runs DOracle drillE drillState :=
  @perform_drill mr.

(** ** Rounds *)

(** RoundOptions: may new blocks enter the round? *)
Record RoundOptions := mkRoundOptions { IncludeNew : bool }.

Definition DefaultRoundOptions : RoundOptions := mkRoundOptions true.

Definition SelectBlocksForRound (userID : string) (now : time) (size : Z) (opts : RoundOptions)
  : dprog (list PhraseBlock) :=
  if size <=? 0 then Ret [] else
  let primaryStates := if IncludeNew opts then [StateNew; StateTraining] else [StateTraining] in
  primary <- blocks_call (EListDueBlocks userID now primaryStates size);
  if size <=? Z.of_nat (length primary) then Ret (take (Z.to_nat size) primary) else
  let need := size - Z.of_nat (length primary) in
  extra <- blocks_call (EListDueBlocks userID now [StateAutomated] need);
  let out := sort_Slice due_before (primary ++ extra) in
  Ret (if size <? Z.of_nat (length out) then take (Z.to_nat size) out else out).

Definition sweepOverdue (userID : string) (now : time) (window : duration) : dprog unit :=
  if window <=? 0 then Ret tt else
  moved <- blocks_call (ESweepOverdue userID (Add now (- window)) now);
  Ret tt.

(** Midnight of the UTC day of [now]. *)
Definition day_start (now : time) : time := unix_day now * Day.

Definition roundOptions (cfg : Config) (userID : string) (now : time) : dprog RoundOptions :=
  let cfg := Config_Normalize cfg in
  if DailyNewBlockLimit cfg <=? 0 then Ret DefaultRoundOptions else
  served <- records_call (RCountNewReleasesSince userID (day_start now));
  Ret (if DailyNewBlockLimit cfg <=? served then mkRoundOptions false else DefaultRoundOptions).

Definition card_of (b : PhraseBlock) : Card :=
  mkCard (b_ID b) (b_IntentZH b) (b_ExpressionEN b) (b_State b).

Definition round_size (cfg : Config) (size : Z) : Z :=
  let size := if size <=? 0 then RoundSize (Config_Normalize cfg) else size in
  if MaxRoundSize <? size then MaxRoundSize else size.

(** Service.Round *)
Definition Svc_Round (cfg : Config) (userID : string) (size : Z) : dprog (result error Round) :=
  let userID := TrimSpace userID in
  if String.eqb userID "" then Ret (Err missing_user) else
  let size := round_size cfg size in
  now <- call DNow;
  _ <- sweepOverdue userID now (OverdueWindow (Config_Normalize cfg));
  opts <- roundOptions cfg userID now;
  blocks <- SelectBlocksForRound userID now size opts;
  let cards := map card_of blocks in
  Ret (Ok (mkRound (Z.of_nat (length cards)) cards)).

(** ** Judging *)

Definition block_not_found : error := Api (NotFound "block not found").

Definition nano (t : time) : string := format_rfc3339nano t.

Definition attempt (userID : string) (b : PhraseBlock) (req : JudgeRequest) (asr : string)
    (r : JudgeResult) (judged : bool) (now : time) : DrillRecord :=
  mkRecord 0 userID (b_ID b) (TrimSpace (jr_SessionID req)) DrillTypeRecall
    (judged && jg_Pass r) judged (jr_ResponseMS req) asr (jg_Reason r)
    (b_State b) (b_SuccessStreak b) (b_NextDueAt b) None now.

Definition recordUnjudged (userID : string) (b : PhraseBlock) (r : JudgeResult) (asr : string)
    (req : JudgeRequest) (now : time) : dprog (result error JudgeResponse) :=
  id <- records_call (RInsert (attempt userID b req asr r false now));
  Ret (Ok (mkJudgeResponse false (jg_Reason r) false true (b_SuccessStreak b) (b_State b)
             (nano (b_NextDueAt b)) true id false asr)).

(** Service.Judge; [has_llm] is whether a model is configured. *)
Definition Judge (cfg : Config) (has_llm : bool) (userID : string) (req : JudgeRequest)
  : dprog (result error JudgeResponse) :=
  let userID := TrimSpace userID in
  if String.eqb userID "" then Ret (Err missing_user) else
  let blockID := TrimSpace (jr_BlockID req) in
  if String.eqb blockID "" then Ret (Err (Api (InvalidArgument "block_id is required"))) else
  let asr := TrimSpace (jr_ASRText req) in
  if String.eqb asr "" then Ret (Err (Api (InvalidArgument "asr_text is required"))) else
  let asr := if 500 <? go_len asr then cut_bytes asr 500 else asr in
  found <- blocks_call (EPeekBlock blockID);
  match found with
  | Err e => Ret (Err (if bool_decide (e = ErrNotFound) then block_not_found else e))
  | Ok block =>
      if bool_decide (is_Some (b_DeletedAt block)) then Ret (Err block_not_found) else
      if negb (String.eqb (b_UserID block) userID)
      then Ret (Err (Api (PermissionDenied "block belongs to another user"))) else
      result <- (if has_llm
                 then reply <- call (DComplete (b_ExpressionEN block) asr); Ret (judge_reply reply)
                 else Ret (unjudged "judge_unavailable"));
      now <- call DNow;
      if negb (jg_Judged result) then recordUnjudged userID block result asr req now else
      let updated := ApplyJudge (cfg_Schedule (Config_Normalize cfg)) block (jg_Pass result) now in
      saved <- blocks_call (EUpdateSchedule userID (b_ID block) (b_State updated)
                              (b_SuccessStreak updated) (b_NextDueAt updated) now);
      match saved with
      | Err e => Ret (Err (if bool_decide (e = ErrNotFound) then block_not_found else e))
      | Ok saved =>
          id <- records_call (RInsert (attempt userID block req asr result true now));
          Ret (Ok (mkJudgeResponse (jg_Pass result) (jg_Reason result) true false
                     (b_SuccessStreak saved) (b_State saved) (nano (b_NextDueAt saved)) true id
                     (String.eqb (b_State saved) StateAutomated &&
                      negb (String.eqb (b_State block) StateAutomated)) asr))
      end
  end.

(** ** Appeals *)

Definition with_block (b : PhraseBlock) (r : AppealResponse) : AppealResponse :=
  mkAppealResponse (ap_RecordID r) (ap_BlockID r) (ap_Restored r) (ap_AlreadyAppealed r)
    (b_State b) (b_SuccessStreak b) (nano (b_NextDueAt b)) (ap_Note r).
Definition with_note (note : string) (r : AppealResponse) : AppealResponse :=
  mkAppealResponse (ap_RecordID r) (ap_BlockID r) (ap_Restored r) (ap_AlreadyAppealed r)
    (ap_State r) (ap_SuccessStreak r) (ap_NextDueAt r) note.
Definition with_already (r : AppealResponse) : AppealResponse :=
  mkAppealResponse (ap_RecordID r) (ap_BlockID r) (ap_Restored r) true
    (ap_State r) (ap_SuccessStreak r) (ap_NextDueAt r) (ap_Note r).
Definition with_restored (r : AppealResponse) : AppealResponse :=
  mkAppealResponse (ap_RecordID r) (ap_BlockID r) true (ap_AlreadyAppealed r)
    (ap_State r) (ap_SuccessStreak r) (ap_NextDueAt r) (ap_Note r).

Definition fillAppealBlockState (userID : string) (resp : AppealResponse) : dprog AppealResponse :=
  found <- blocks_call (EPeekBlock (ap_BlockID resp));
  Ret match found with
      | Ok b =>
          if negb (String.eqb (b_UserID b) userID) || bool_decide (is_Some (b_DeletedAt b))
          then resp else with_block b resp
      | Err _ => resp
      end.

(** The settlement of a first appeal: what happens to the block. *)
Definition settle (userID : string) (rec : DrillRecord) (now : time) (resp : AppealResponse)
  : dprog (result error AppealResponse) :=
  if negb (r_Judged rec)
  then Ret (Ok (with_note "attempt was not judged; nothing to restore" resp)) else
  if r_SemanticPass rec then Ret (Ok (with_note "attempt passed; nothing to restore" resp)) else
  if String.eqb (r_PrevState rec) ""
  then Ret (Ok (with_note "no schedule snapshot on this attempt" resp)) else
  latest <-! records_call (RIsLatestForBlock userID (r_BlockID rec) (r_ID rec));
  if negb latest then Ret (Ok (with_note "a newer attempt exists on this block" resp)) else
  saved <- blocks_call (EUpdateSchedule userID (r_BlockID rec) (r_PrevState rec)
                          (r_PrevSuccessStreak rec) (r_PrevNextDueAt rec) now);
  match saved with
  | Err e => Ret (Err (if Is e ErrNotFound then Api (NotFound "phrase block not found") else e))
  | Ok b => Ret (Ok (with_restored (with_block b resp)))
  end.

Definition record_error (e : error) : error :=
  if Is e ErrRecordNotFound then Api (NotFound "drill record not found") else e.

(** Service.Appeal *)
Definition Appeal (userID : string) (recordID : Z) : dprog (result error AppealResponse) :=
  let userID := TrimSpace userID in
  if String.eqb userID "" then Ret (Err missing_user) else
  if recordID <=? 0 then Ret (Err (Api (InvalidArgument "record_id is required"))) else
  found <- records_call (RGetRecord userID recordID);
  match found with
  | Err e => Ret (Err (record_error e))
  | Ok rec =>
      let resp := mkAppealResponse (r_ID rec) (r_BlockID rec) false false "" 0 "" "" in
      match r_AppealedAt rec with
      | Some _ =>
          resp <- fillAppealBlockState userID (with_note "already appealed" (with_already resp));
          Ret (Ok resp)
      | None =>
          now <- call DNow;
          resp <-! settle userID rec now resp;
          first <- records_call (RMarkAppealed userID (r_ID rec) now);
          match first with
          | Err e => Ret (Err (record_error e))
          | Ok first =>
              let resp := if first then resp else with_already resp in
              if String.eqb (ap_State resp) ""
              then resp <- fillAppealBlockState userID resp; Ret (Ok resp)
              else Ret (Ok resp)
          end
      end
  end.

(** ** The stuck map *)

Record StuckRow := mkStuckRow {
  sr_FunctionTag : string;
  sr_Blocks : Z;
  sr_Attempts : Z;
  sr_Failures : Z;
  sr_ForgotAfterLearning : Z;
  sr_Promotions : Z;
  sr_LastFailureAt : string;
}.

Record StuckMapResponse := mkStuckMap {
  sm_WindowDays : Z;
  sm_Rows : list StuckRow;
  sm_Rescues : option (gmap string Z);
  sm_GeneratedAt : string;
}.

Definition DefaultStuckWindowDays : Z := 30.
Definition MaxStuckWindowDays : Z := 180.

Definition new_row (tag : string) : StuckRow := mkStuckRow tag 0 0 0 0 0 "".

(** What one attempt adds to the row of its tag. *)
Definition count_attempt (row : StuckRow) (rec : DrillRecord) : StuckRow :=
  let '(mkStuckRow tag blocks attempts failures forgot promotions lastFail) := row in
  if negb (r_Judged rec) then row else
  if r_SemanticPass rec then
    mkStuckRow tag blocks (attempts + 1) failures forgot
      (promotions + (if (r_PrevSuccessStreak rec =? 0) &&
                        negb (String.eqb (r_PrevState rec) StateAutomated) then 1 else 0)) lastFail
  else
    let at_ := format_rfc3339 (r_CreatedAt rec) in
    mkStuckRow tag blocks (attempts + 1) (failures + 1)
      (forgot + (if 0 <? r_PrevSuccessStreak rec then 1 else 0)) promotions
      (if str_lt lastFail at_ then at_ else lastFail).

Definition tag_of (functionByBlock : gmap string string) (rec : DrillRecord) : string :=
  let tag := default "" (functionByBlock !! r_BlockID rec) in
  if String.eqb tag "" then "unknown"%string else tag.

(** The rows and, per tag, the blocks seen. *)
Definition stuck_step (functionByBlock : gmap string string)
    (acc : gmap string (StuckRow * gset string)) (rec : DrillRecord)
  : gmap string (StuckRow * gset string) :=
  let tag := tag_of functionByBlock rec in
  let '(row, seen) := default (new_row tag, ∅) (acc !! tag) in
  <[tag := (count_attempt row rec, {[r_BlockID rec]} ∪ seen)]> acc.

Definition with_blocks (n : Z) (r : StuckRow) : StuckRow :=
  mkStuckRow (sr_FunctionTag r) n (sr_Attempts r) (sr_Failures r) (sr_ForgotAfterLearning r)
    (sr_Promotions r) (sr_LastFailureAt r).

Definition worse (a b : StuckRow) : bool :=
  lex (less_by (fun r => - sr_Failures r)) (str_by sr_FunctionTag) a b.

Definition stuck_rows {mr : MapRange} (functionByBlock : gmap string string)
    (recs : list DrillRecord) : list StuckRow :=
  let rows := foldl (stuck_step functionByBlock) ∅ recs in
  sort_Slice worse
    (map (fun kv : string * (StuckRow * gset string) =>
            with_blocks (Z.of_nat (size kv.2.2)) kv.2.1) (map_range rows)).

Definition functionTags (userID : string) : dprog (gmap string string) :=
  blocks <- blocks_call (EListBlocks (plain_filter userID 500));
  Ret (foldl (fun m b => if bool_decide (is_Some (b_DeletedAt b)) then m
                         else <[b_ID b := b_FunctionTag b]> m) ∅ blocks).

(** Service.StuckMap; [rescues] is whether a rescue source is attached. *)
Definition StuckMap {mr : MapRange} (rescues : bool) (userID : string) (days : Z)
  : dprog (result error StuckMapResponse) :=
  let userID := TrimSpace userID in
  if String.eqb userID "" then Ret (Err missing_user) else
  let days := if days <=? 0 then DefaultStuckWindowDays else days in
  let days := if MaxStuckWindowDays <? days then MaxStuckWindowDays else days in
  now <- call DNow;
  let since := Add now (- (days * Day)) in
  records <- records_call (RListRecordsSince userID since);
  functionByBlock <- functionTags userID;
  let rows := stuck_rows functionByBlock records in
  if rescues then
    counts <- call (DRescues userID since);
    Ret (Ok (mkStuckMap days rows counts (format_rfc3339 now)))
  else Ret (Ok (mkStuckMap days rows None (format_rfc3339 now))).

(** Service.WipeRecords and RecordWiper.Delete *)
Definition WipeRecords (userID : string) : dprog Z := records_call (RDeleteForUser userID).
