(* ===== verification/DrillLaws.v ===== *)
(** * What the flash drill guarantees

    The ledger names attempts apart; an attempt the judge could not score costs
    the learner nothing; an appeal puts back exactly the snapshot of the latest
    failed attempt and is settled once; a round serves due blocks only. *)
From S2P Require Import Prelude Prog GoString GoTime GoSort GoJson ApiErr Corpus CorpusStore CorpusLaws CorpusListing CorpusService Drill DrillService.

Open Scope Z_scope.

(** ** The ledger *)

Definition id_before (a b : DrillRecord) : Prop := r_ID a < r_ID b.

(** Row identifiers increase along the ledger and stay within [nextID]. *)
Definition ledger_ok (s : MemoryRecordStore) : Prop :=
  0 <= nextID s /\ StronglySorted id_before (records s) /\
  Forall (fun r => 0 < r_ID r <= nextID s) (records s).

Lemma StronglySorted_snoc {A} (R : A -> A -> Prop) l x :
  StronglySorted R l -> Forall (fun y => R y x) l -> StronglySorted R (l ++ [x]).
Proof.
  induction 1 as [|y l Hs IH Hy]; intros Hx; cbn; [by repeat constructor|].
  apply Forall_cons in Hx as [Hyx Hx]. constructor; [by apply IH|].
  apply Forall_app. by split; [|constructor].
Qed.

Lemma insert_ok wall rec s :
  ledger_ok s -> nextID s < max_int64 ->
  let '(id, s') := Insert wall rec s in
  ledger_ok s' /\ id = nextID s + 1 /\ nextID s' = id /\ Forall (fun r => r_ID r < id) (records s).
Proof.
  intros (H0 & Hs & Hf) Hm. unfold Insert. rewrite int64_id by (unfold in_int64, min_int64; lia).
  assert (Forall (fun r => r_ID r < nextID s + 1) (records s)) as Hlt.
  { eapply Forall_impl; [exact Hf|]. intros r. cbn. lia. }
  split; [|by split; [|split]]. split; [cbn; lia|]. split; cbn.
  - apply StronglySorted_snoc; [done|]. exact Hlt.
  - apply Forall_app. split; [|repeat constructor; cbn; lia].
    eapply Forall_impl; [exact Hf|]. intros r. cbn. lia.
Qed.

(** A change of rows that keeps their identifiers. *)
Lemma mark_spec u id at_ rs b rs' :
  mark u id at_ rs = Some (b, rs') ->
  exists pre r post, rs = pre ++ r :: post /\ is_record u id r = true /\
    Forall (fun r => is_record u id r = false) pre /\
    ((b = false /\ is_Some (r_AppealedAt r) /\ rs' = rs) \/
     (b = true /\ r_AppealedAt r = None /\ rs' = pre ++ with_appeal at_ r :: post)).
Proof.
  revert b rs'. induction rs as [|r rs IH]; cbn; intros b rs'; [done|].
  destruct (is_record u id r) eqn:E.
  - intros H. exists [], r, rs. split; [done|]. split; [done|]. split; [done|].
    destruct (r_AppealedAt r); injection H as <- <-; [left|right]; cbn; eauto.
  - destruct (mark u id at_ rs) as [[b1 rs1]|]; [|done]. intros [= <- <-].
    destruct (IH _ _ eq_refl) as (pre & x & post & -> & Hx & Hpre & H).
    exists (r :: pre), x, post. split; [done|]. split; [done|]. split; [by constructor|].
    destruct H as [(-> & H & ->)|(-> & H & ->)]; [by left|by right].
Qed.

Lemma sorted_ids (rs rs' : list DrillRecord) :
  map r_ID rs = map r_ID rs' -> StronglySorted id_before rs -> StronglySorted id_before rs'.
Proof.
  assert (forall l, StronglySorted id_before l <-> StronglySorted Z.lt (map r_ID l)) as H.
  { induction l as [|r l IH]; cbn; [split; constructor|].
    split; intros [Hs Hf]%StronglySorted_inv; constructor; try by apply IH.
    - by apply List.Forall_map.
    - by apply (proj1 (List.Forall_map r_ID (Z.lt (r_ID r)) l)). }
  rewrite !H. by intros ->.
Qed.

Lemma handle_ledger_ok {R} wall (c : recordE R) s :
  ledger_ok s -> nextID s < max_int64 -> ledger_ok (handle_record wall c s).2.
Proof.
  intros Hok Hm. destruct c; cbn [handle_record snd]; try done.
  - pose proof (insert_ok wall rec s Hok Hm) as H. destruct (Insert wall rec s). by destruct H.
  - destruct Hok as (H0 & Hs & Hf). split; [done|]. split; cbn.
    + by apply filter_sorted.
    + apply List.Forall_forall. intros r [Hr _]%filter_In. by eapply List.Forall_forall in Hf.
  - unfold MarkAppealed. destruct (mark userID recordID at_ (records s)) as [[b rs]|] eqn:E; [|done].
    destruct (mark_spec _ _ _ _ _ _ E) as (pre & r & post & Eq & _ & _ & [(_ & _ & ->)|(_ & _ & ->)]).
    { by destruct s. }
    destruct Hok as (H0 & Hs & Hf). split; [done|]. cbn. rewrite Eq in Hs, Hf. split.
    + eapply sorted_ids; [|exact Hs]. by rewrite !map_app.
    + apply Forall_app in Hf as [Hp [Hr Hq]%Forall_cons]. apply Forall_app. split; [done|].
      by constructor.
Qed.

Lemma handle_nextID {R} wall (c : recordE R) s :
  nextID s < max_int64 -> 0 <= nextID s -> nextID s <= nextID (handle_record wall c s).2 <= nextID s + 1.
Proof.
  intros Hm H0. destruct c; cbn; try lia.
  - rewrite int64_id by (unfold in_int64, min_int64; lia). lia.
  - unfold MarkAppealed. destruct (mark _ _ _ _) as [[b rs]|]; cbn; lia.
Qed.

(** In every history of calls the ledger names attempts apart. *)
Fixpoint record_events (tr : list devent) : Z :=
  match tr with
  | [] => 0
  | OnBlocks _ :: tr => record_events tr
  | OnRecords _ _ :: tr => 1 + record_events tr
  end.

Lemma record_events_nonneg tr : 0 <= record_events tr.
Proof. induction tr as [|[] tr IH]; cbn; lia. Qed.

Section drill.
Context {mr : MapRange}.

(** A property of the ledger that every call keeps is kept by every history
    that does not exhaust the identifiers. *)
Lemma drun_ledger (P : MemoryRecordStore -> Prop) tr s :
  (forall R wall (c : recordE R) l, ledger_ok l -> nextID l < max_int64 -> P l ->
     P (handle_record wall c l).2) ->
  ledger_ok (d_records s) -> nextID (d_records s) + record_events tr <= max_int64 ->
  P (d_records s) -> ledger_ok (d_records (drun tr s)) /\ P (d_records (drun tr s)).
Proof.
  intros Hstep. revert s. induction tr as [|e tr IH]; intros s Hok Hn HP; [done|].
  cbn [drun foldl]. pose proof (record_events_nonneg tr).
  destruct e as [e|R wall c]; cbn [dafter record_events] in *; apply IH; cbn [d_records]; try done.
  - apply handle_ledger_ok; [done|lia].
  - pose proof (handle_nextID wall c (d_records s) ltac:(lia) ltac:(apply Hok)). lia.
  - apply Hstep; [done|lia|done].
Qed.

Variable o : DOracle.
Hypothesis Halone : dalone o.

Lemma run_blocks {R A} (c : corpusE R) (k : R -> dprog A) n s :
  run_prog o (bind (blocks_call c) k) n s =
  run_prog o (k (handle c (d_blocks s)).1) (S n)
    (mkDrillState (handle c (d_blocks s)).2 (d_records s)).
Proof. cbn. rewrite Halone. cbn. by destruct (handle c (d_blocks s)). Qed.

Lemma run_records {R A} (c : recordE R) (k : R -> dprog A) n s :
  run_prog o (bind (records_call c) k) n s =
  run_prog o (k (handle_record (do_now o n) c (d_records s)).1) (S n)
    (mkDrillState (d_blocks s) (handle_record (do_now o n) c (d_records s)).2).
Proof. cbn. rewrite Halone. cbn. by destruct (handle_record _ c (d_records s)). Qed.

Lemma drill_now {A} (k : time -> dprog A) n s :
  run_prog o (bind (call DNow) k) n s = run_prog o (k (do_now o n)) (S n) s.
Proof. done. Qed.

(** ** Judging *)

Lemma ApplyJudge_schedule sc b p now :
  with_schedule (b_State (ApplyJudge sc b p now)) (b_SuccessStreak (ApplyJudge sc b p now))
    (b_NextDueAt (ApplyJudge sc b p now)) now b = ApplyJudge sc b p now.
Proof. unfold ApplyJudge. by repeat case_match. Qed.

(** The row of an attempt on [b] holds the schedule [b] had. *)
Definition snapshot_of (b : PhraseBlock) (rec : DrillRecord) : Prop :=
  r_UserID rec = b_UserID b /\ r_BlockID rec = b_ID b /\ r_PrevState rec = b_State b /\
  r_PrevSuccessStreak rec = b_SuccessStreak b /\ r_PrevNextDueAt rec = b_NextDueAt b /\
  r_AppealedAt rec = None.

(** The judge gave a verdict exactly when a model is wired, it answered in time,
    and its answer parses. *)
Definition verdict_in (llm : bool) (reply : option string) : option JudgeResult :=
  if llm then reply ≫= parseJudgeJSON else None.

Lemma judge_reply_verdict (llm : bool) reply :
  let r := if llm then judge_reply reply else unjudged "judge_unavailable" in
  match verdict_in llm reply with
  | Some j => jg_Judged r = true /\ jg_Pass r = jg_Pass j
  | None => jg_Judged r = false /\ jg_Pass r = false
  end.
Proof. unfold verdict_in, judge_reply. destruct llm, reply as [raw|]; cbn; try done. by destruct (parseJudgeJSON raw). Qed.

(** What the judge is shown of the learner's answer. *)
Definition shown_text (req : JudgeRequest) : string :=
  let asr := TrimSpace (jr_ASRText req) in if 500 <? go_len asr then cut_bytes asr 500 else asr.

Definition judged_outcome (cfg : Config) (verdict : option JudgeResult) (u id : string) (s s' : drillState)
    (jr : JudgeResponse) (b : PhraseBlock) (rec : DrillRecord) (now : time) : Prop :=
  owned u id (d_blocks s) = Some b /\
  records (d_records s') = records (d_records s) ++ [rec] /\
  nextID (d_records s') = r_ID rec /\
  r_ID rec = int64 (nextID (d_records s) + 1) /\ jp_RecordID jr = r_ID rec /\ snapshot_of b rec /\
  r_Judged rec = jp_Judged jr /\ r_SemanticPass rec = jp_Pass jr /\
  match verdict with
  | Some j => jp_Judged jr = true /\ jp_Pass jr = jg_Pass j /\
      d_blocks s' = put id (ApplyJudge (cfg_Schedule (Config_Normalize cfg)) b (jg_Pass j) now) (d_blocks s)
  | None => jp_Judged jr = false /\ jp_Pass jr = false /\ jp_Retryable jr = true /\
      d_blocks s' = d_blocks s /\ jp_State jr = b_State b /\ jp_SuccessStreak jr = b_SuccessStreak b
  end.

Lemma run_judge cfg llm u req n s jr m s' :
  blocks_keyed (d_blocks s) ->
  run_prog o (Judge cfg llm u req) n s = (Ok jr, m, s') ->
  exists b rec now,
    judged_outcome cfg (verdict_in llm (do_complete o (S n) (b_ExpressionEN b) (shown_text req)))
      (TrimSpace u) (TrimSpace (jr_BlockID req)) s s' jr b rec now.
Proof.
  intros Hk. unfold Judge. do 3 (case_match; [done|]).
  fold (shown_text req). set (asr := shown_text req). rewrite run_blocks. cbn [handle fst snd]. unfold PeekBlock.
  destruct (blocks (d_blocks s) !! TrimSpace (jr_BlockID req)) as [b|] eqn:Eb; [|done].
  destruct (bool_decide (is_Some (b_DeletedAt b))) eqn:Ed; [done|].
  destruct (String.eqb_spec (b_UserID b) (TrimSpace u)) as [Eu|]; [|done]. cbn [negb].
  assert (owned (TrimSpace u) (TrimSpace (jr_BlockID req)) (d_blocks s) = Some b) as Ho.
  { unfold owned. rewrite Eb, Eu, String.eqb_refl. by rewrite Ed. }
  pose proof (Hk _ _ Eb) as Hid. cbn in Hid.
  rewrite run_bind.
  set (reply := do_complete o (S n) (b_ExpressionEN b) asr).
  assert (exists m1, run_prog o
    (if llm then bind (call (DComplete (b_ExpressionEN b) asr)) (fun reply => Ret (judge_reply reply))
     else Ret (unjudged "judge_unavailable")) (S n)
    (mkDrillState (d_blocks s) (d_records s)) =
      (if llm then judge_reply reply else unjudged "judge_unavailable", m1, s)) as [m1 ->].
  { destruct s. destruct llm; cbn; by eexists. }
  pose proof (judge_reply_verdict llm reply) as Hv. cbn zeta in Hv.
  set (r := if llm then _ else _) in *. clearbody r.
  rewrite drill_now. destruct (verdict_in llm reply) as [j|] eqn:Ev; destruct Hv as [-> Hp]; cbn [negb].
  - rewrite run_blocks. cbn [handle]. unfold UpdateSchedule. rewrite Hid, Ho.
    cbn [fst snd]. rewrite ApplyJudge_schedule. rewrite run_records. cbn [handle_record].
    intros [= <- _ <-]. eexists b, _, _. fold reply. rewrite Ev. split; [exact Ho|]. cbn [d_records d_blocks].
    unfold snapshot_of. cbn. by rewrite Eu, Hid, Hp.
  - unfold recordUnjudged. rewrite run_records. cbn [handle_record].
    intros [= <- _ <-]. eexists b, _, 0. fold reply. rewrite Ev. split; [exact Ho|]. cbn [d_records d_blocks].
    unfold snapshot_of. cbn. by rewrite Eu, Hid.
Qed.

(** ** Appeals *)

Lemma latest_id_spec u b rs :
  Forall (fun r => 0 < r_ID r) rs ->
  Forall (fun r => on_block u b r = true -> r_ID r <= latest_id u b rs) rs /\
  (latest_id u b rs = 0 \/ exists r, r ∈ rs /\ on_block u b r = true /\ latest_id u b rs = r_ID r).
Proof.
  unfold latest_id. induction rs as [|r rs IH] using rev_ind; [intros _; by split; [|left]|].
  intros [Hf Hr]%Forall_app. apply Forall_cons in Hr as [Hr _]. rewrite foldl_app. cbn [foldl].
  destruct (IH Hf) as [Hall Hex]. set (l := foldl _ 0 rs) in *.
  destruct (on_block u b r && (l <? r_ID r)) eqn:E.
  - apply andb_prop in E as [Eb El]. split.
    + apply Forall_app. split; [|by repeat constructor; lia].
      eapply Forall_impl; [exact Hall|]. intros x Hx Ho. specialize (Hx Ho). lia.
    + right. exists r. split; [|done]. apply elem_of_app. right. by left.
  - split.
    + apply Forall_app. split; [done|]. repeat constructor. intros Ho. rewrite Ho in E. cbn in E. lia.
    + destruct Hex as [->|(x & Hx & Ho & ->)]; [by left|right]. exists x.
      split; [apply elem_of_app; by left|done].
Qed.

(** [rec] is the newest attempt of its user on its block. *)
Definition newest (s : MemoryRecordStore) (rec : DrillRecord) : Prop :=
  Forall (fun r => on_block (r_UserID rec) (r_BlockID rec) r = true -> r_ID r <= r_ID rec) (records s).

Lemma IsLatest_newest rec s :
  ledger_ok s -> rec ∈ records s ->
  exists b, IsLatestForBlock (r_UserID rec) (r_BlockID rec) (r_ID rec) s = Ok b /\
    (b = true <-> newest s rec).
Proof.
  intros (_ & _ & Hf) Hr. unfold IsLatestForBlock.
  assert (Forall (fun r => 0 < r_ID r) (records s)) as Hp.
  { eapply Forall_impl; [exact Hf|]. cbn. lia. }
  destruct (latest_id_spec (r_UserID rec) (r_BlockID rec) (records s) Hp) as [Hall Hex].
  set (l := latest_id _ _ _) in *. pose proof Hall as Hall'.
  rewrite Forall_forall in Hall, Hp. specialize (Hp rec Hr).
  assert (on_block (r_UserID rec) (r_BlockID rec) rec = true) as Ho.
  { unfold on_block. by rewrite !String.eqb_refl. }
  specialize (Hall rec Hr Ho). destruct (Z.eqb_spec l 0); [lia|].
  eexists. split; [done|]. unfold newest. rewrite Z.eqb_eq. split.
  - by intros <-.
  - intros Hn. destruct Hex as [?|(x & Hx & Hox & ->)]; [done|].
    rewrite Forall_forall in Hn. specialize (Hn x Hx Hox). lia.
Qed.

(** When an appeal puts the snapshot back. *)
Definition restorable (s : MemoryRecordStore) (rec : DrillRecord) : Prop :=
  r_Judged rec = true /\ r_SemanticPass rec = false /\ r_PrevState rec <> ""%string /\ newest s rec.

Definition restored (rec : DrillRecord) (now : time) (b : PhraseBlock) : PhraseBlock :=
  with_schedule (r_PrevState rec) (r_PrevSuccessStreak rec) (r_PrevNextDueAt rec) now b.

(** A first appeal of [rec] stamps it, and restores the block exactly when the
    attempt is restorable; otherwise it leaves the corpus alone. *)
Definition appeal_outcome (s s' : drillState) (rec : DrillRecord) (r : AppealResponse) (now : time)
  : Prop :=
  nextID (d_records s') = nextID (d_records s) /\
  mark (r_UserID rec) (r_ID rec) now (records (d_records s)) = Some (true, records (d_records s')) /\
  ap_AlreadyAppealed r = false /\
  ((ap_Restored r = true /\ restorable (d_records s) rec /\
    exists b, owned (r_UserID rec) (r_BlockID rec) (d_blocks s) = Some b /\
      d_blocks s' = put (r_BlockID rec) (restored rec now b) (d_blocks s)) \/
   (ap_Restored r = false /\ ~ restorable (d_records s) rec /\ d_blocks s' = d_blocks s)).

Lemma is_record_spec u id r : is_record u id r = true <-> r_ID r = id /\ r_UserID r = u.
Proof. unfold is_record. by rewrite andb_true_iff, Z.eqb_eq, String.eqb_eq. Qed.

Lemma GetRecord_ok u id s rec :
  GetRecord u id s = Ok rec ->
  exists pre post, records s = pre ++ rec :: post /\ r_ID rec = id /\ r_UserID rec = u /\
    Forall (fun r => is_record u id r = false) pre.
Proof.
  unfold GetRecord. destruct (List.find _ _) as [r|] eqn:E; [|done]. intros [= <-].
  induction (records s) as [|x l IH]; [done|]. cbn in E.
  destruct (is_record u id x) eqn:Ex.
  - injection E as ->. apply is_record_spec in Ex. exists [], l. by repeat split; try constructor; destruct Ex.
  - destruct (IH E) as (pre & post & -> & H1 & H2 & H3). exists (x :: pre), post.
    by repeat split; [..|constructor].
Qed.

Lemma mark_first u id at_ pre rec post :
  Forall (fun r => is_record u id r = false) pre -> r_ID rec = id -> r_UserID rec = u ->
  mark u id at_ (pre ++ rec :: post) =
  match r_AppealedAt rec with
  | Some _ => Some (false, pre ++ rec :: post)
  | None => Some (true, pre ++ with_appeal at_ rec :: post)
  end.
Proof.
  intros Hp Hid Hu. induction Hp as [|x pre Hx _ IH]; cbn.
  - rewrite (proj2 (is_record_spec _ _ _) (conj Hid Hu)). by destruct (r_AppealedAt rec).
  - rewrite Hx, IH. by destruct (r_AppealedAt rec).
Qed.

Lemma run_fill u resp n s :
  exists resp' m, run_prog o (fillAppealBlockState u resp) n s = (resp', m, s) /\
    ap_Restored resp' = ap_Restored resp /\ ap_AlreadyAppealed resp' = ap_AlreadyAppealed resp.
Proof.
  unfold fillAppealBlockState. rewrite run_blocks. cbn [handle fst snd run_prog].
  eexists _, _. split; [by destruct s|].
  destruct (PeekBlock _ _) as [b|]; [|done]. by destruct (_ || _).
Qed.

Lemma run_settle u rec now resp n s r m s' :
  ledger_ok (d_records s) -> rec ∈ records (d_records s) -> r_UserID rec = u ->
  ap_Restored resp = false -> ap_AlreadyAppealed resp = false ->
  run_prog o (settle u rec now resp) n s = (Ok r, m, s') ->
  d_records s' = d_records s /\ ap_AlreadyAppealed r = false /\
  ((ap_Restored r = true /\ restorable (d_records s) rec /\
    exists b, owned u (r_BlockID rec) (d_blocks s) = Some b /\
      d_blocks s' = put (r_BlockID rec) (restored rec now b) (d_blocks s)) \/
   (ap_Restored r = false /\ ~ restorable (d_records s) rec /\ d_blocks s' = d_blocks s)).
Proof.
  intros Hok Hin Hu H1 H2. unfold settle, restorable.
  destruct (r_Judged rec); cbn [negb].
  2: { intros [= <- _ <-]. split; [done|]. split; [done|]. right. split; [done|]. by split; [intros [? _]|]. }
  destruct (r_SemanticPass rec).
  { intros [= <- _ <-]. split; [done|]. split; [done|]. right. split; [done|]. by split; [intros (_ & ? & _)|]. }
  destruct (String.eqb_spec (r_PrevState rec) "") as [E|E].
  { intros [= <- _ <-]. split; [done|]. split; [done|]. right. split; [done|]. by split; [intros (_ & _ & ? & _)|]. }
  rewrite run_records. cbn [handle_record fst snd].
  destruct (IsLatest_newest rec (d_records s) Hok Hin) as (b & Hl & Hb). rewrite Hu in Hl. rewrite Hl.
  destruct b; cbn [negb].
  2: { intros [= <- _ <-]. split; [done|]. split; [done|]. right. split; [done|].
       split; [|done]. intros (_ & _ & _ & Hn). by apply Hb in Hn. }
  rewrite run_blocks. cbn [handle]. unfold UpdateSchedule. cbn [d_blocks d_records].
  destruct (owned u (r_BlockID rec) (d_blocks s)) as [b|] eqn:Eo; cbn [fst snd]; [|done].
  intros [= <- _ <-]. split; [done|]. split; [done|]. left. split; [done|].
  split; [|by exists b]. repeat split; [done|by apply Hb].
Qed.

(** What an appeal that succeeds did. *)
Lemma run_appeal u id n s r m s' :
  ledger_ok (d_records s) ->
  run_prog o (Appeal u id) n s = (Ok r, m, s') ->
  exists rec, GetRecord (TrimSpace u) id (d_records s) = Ok rec /\
    match r_AppealedAt rec with
    | Some _ => s' = s /\ ap_AlreadyAppealed r = true /\ ap_Restored r = false
    | None => exists now, appeal_outcome s s' rec r now
    end.
Proof.
  intros Hok. unfold Appeal. do 2 (case_match; [done|]).
  rewrite run_records. cbn [handle_record fst snd].
  destruct (GetRecord (TrimSpace u) id (d_records s)) as [rec|e] eqn:Eg; [|done].
  destruct (GetRecord_ok _ _ _ _ Eg) as (pre & post & Er & Hid & Hu & Hpre).
  assert (rec ∈ records (d_records s)) as Hin by (rewrite Er; apply elem_of_app; right; by left).
  intros Hrun. exists rec. split; [done|].
  destruct (r_AppealedAt rec) as [at_|] eqn:Ea.
  - rewrite run_bind in Hrun.
    destruct (run_fill (TrimSpace u) (with_note "already appealed" (with_already
      (mkAppealResponse (r_ID rec) (r_BlockID rec) false false "" 0 "" ""))) (S n)
      (mkDrillState (d_blocks s) (d_records s))) as (resp & m1 & E & Hr & Hal).
    rewrite E in Hrun. injection Hrun as <- _ <-. by destruct s.
  - rewrite drill_now, run_bind in Hrun. exists (do_now o (S n)).
    set (s0 := mkDrillState (d_blocks s) (d_records s)) in *.
    destruct (run_prog o (settle _ rec _ _) _ s0) as [[[resp|e] m1] s1] eqn:Es; [|done].
    pose proof (fun H1 H2 => run_settle _ _ _ _ _ s0 _ _ _ Hok Hin Hu H1 H2 Es) as Hset.
    destruct (Hset eq_refl eq_refl) as (Hr1 & Hal & Hcase). clear Hset.
    rewrite run_records in Hrun. cbn [handle_record] in Hrun. unfold MarkAppealed in Hrun.
    rewrite Hr1 in Hrun. cbn [s0 d_records] in Hrun. rewrite Hid in Hrun.
    assert (mark (TrimSpace u) id (do_now o (S n)) (records (d_records s)) =
            Some (true, pre ++ with_appeal (do_now o (S n)) rec :: post)) as Hm.
    { rewrite Er. rewrite mark_first by done. by rewrite Ea. }
    rewrite Hm in Hrun. cbn [fst snd] in Hrun.
    set (s2 := mkDrillState _ _) in Hrun.
    assert (forall resp', ap_Restored resp' = ap_Restored resp ->
      ap_AlreadyAppealed resp' = ap_AlreadyAppealed resp ->
      appeal_outcome s s2 rec resp' (do_now o (S n))) as Hfin.
    { intros resp' HR HA. unfold appeal_outcome. subst s2. cbn [d_records d_blocks nextID records].
      rewrite HR, HA, Hu, Hid, Hm. by repeat split. }
    destruct (String.eqb (ap_State resp) "").
    + rewrite run_bind in Hrun.
      destruct (run_fill (TrimSpace u) resp (S m1) s2) as (resp' & m2 & E & HR & HA).
      rewrite E in Hrun. injection Hrun as <- _ <-. by apply Hfin.
    + injection Hrun as <- _ <-. by apply Hfin.
Qed.

Lemma settle_ok u rec now resp n s :
  ledger_ok (d_records s) -> rec ∈ records (d_records s) -> r_UserID rec = u ->
  (restorable (d_records s) rec -> is_Some (owned u (r_BlockID rec) (d_blocks s))) ->
  exists r m s', run_prog o (settle u rec now resp) n s = (Ok r, m, s').
Proof.
  intros Hok Hin Hu Hown. unfold settle, restorable in *.
  destruct (r_Judged rec); cbn [negb]; [|by eexists _, _, _].
  destruct (r_SemanticPass rec); [by eexists _, _, _|].
  destruct (String.eqb_spec (r_PrevState rec) ""); [by eexists _, _, _|].
  rewrite run_records. cbn [handle_record fst snd].
  destruct (IsLatest_newest rec (d_records s) Hok Hin) as (b & Hl & Hb). rewrite Hu in Hl. rewrite Hl.
  destruct b; cbn [negb]; [|by eexists _, _, _].
  rewrite run_blocks. cbn [handle]. unfold UpdateSchedule. cbn [d_blocks d_records].
  destruct Hown as [b ->]; [by repeat split; [..|apply Hb]|]. by eexists _, _, _.
Qed.

Lemma appeal_ok u id n s rec :
  ledger_ok (d_records s) -> TrimSpace u <> ""%string ->
  GetRecord (TrimSpace u) id (d_records s) = Ok rec ->
  (restorable (d_records s) rec ->
   is_Some (owned (TrimSpace u) (r_BlockID rec) (d_blocks s))) ->
  exists r m s', run_prog o (Appeal u id) n s = (Ok r, m, s').
Proof.
  intros Hok Hu Hg Hown. destruct (GetRecord_ok _ _ _ _ Hg) as (pre & post & Er & Hid & Hru & Hpre).
  assert (rec ∈ records (d_records s)) as Hin by (rewrite Er; apply elem_of_app; right; by left).
  unfold Appeal. destruct (String.eqb_spec (TrimSpace u) ""); [done|].
  assert (0 < id) as Hpos.
  { destruct Hok as (_ & _ & Hf). rewrite Forall_forall in Hf. specialize (Hf rec Hin). lia. }
  destruct (Z.leb_spec id 0); [lia|]. rewrite run_records. cbn [handle_record fst snd]. rewrite Hg.
  destruct (r_AppealedAt rec) as [t|] eqn:Ea.
  - rewrite run_bind. match goal with |- context [run_prog o (fillAppealBlockState ?u ?r) ?n ?s] =>
      destruct (run_fill u r n s) as (resp' & m2 & -> & _ & _) end. by eexists _, _, _.
  - rewrite drill_now, run_bind.
    match goal with |- context [run_prog o (settle ?u ?r ?t ?p) ?n ?s] =>
      destruct (settle_ok u r t p n s Hok Hin Hru Hown) as (resp & m1 & s1 & E) end.
    rewrite E. rewrite run_records. cbn [handle_record]. unfold MarkAppealed.
    assert (mkDrillState (d_blocks s) (d_records s) = s) as Hs by (by destruct s).
    rewrite Hs in E.
    assert (records (d_records s1) = records (d_records s)) as Hrs.
    { match type of E with run_prog o (settle _ _ _ ?p) _ _ = _ =>
        pose proof (fun H1 H2 => run_settle _ _ _ p _ _ _ _ _ Hok Hin Hru H1 H2 E) as H1 end.
      destruct (H1 eq_refl eq_refl) as [-> _]. done. }
    rewrite Hrs, Er, Hid, mark_first, Ea by done. cbn [fst snd].
    destruct (String.eqb (ap_State resp) ""); [|by eexists _, _, _].
    rewrite run_bind. match goal with |- context [run_prog o (fillAppealBlockState ?u ?r) ?n ?s] =>
      destruct (run_fill u r n s) as (resp' & m2 & -> & _ & _) end. by eexists _, _, _.
Qed.

(** Appealing an attempt that was appealed, or that is not there. *)
Lemma appeal_again u id n s :
  TrimSpace u <> ""%string -> 0 < id ->
  (forall rec, GetRecord (TrimSpace u) id (d_records s) = Ok rec -> is_Some (r_AppealedAt rec)) ->
  match run_prog o (Appeal u id) n s with
  | (Ok r, _, s') => s' = s /\ ap_AlreadyAppealed r = true /\ ap_Restored r = false
  | (Err e, _, s') => s' = s /\ e = Api (NotFound "drill record not found")
  end.
Proof.
  intros Hu Hpos Hst. unfold Appeal. destruct (String.eqb_spec (TrimSpace u) ""); [done|].
  destruct (Z.leb_spec id 0); [lia|]. rewrite run_records. cbn [handle_record fst snd].
  assert (mkDrillState (d_blocks s) (d_records s) = s) as Hs by (by destruct s). rewrite Hs.
  destruct (GetRecord (TrimSpace u) id (d_records s)) as [rec|e] eqn:Hg.
  - destruct (Hst rec eq_refl) as [t Ht]. rewrite Ht, run_bind.
    match goal with |- context [run_prog o (fillAppealBlockState ?u ?r) ?n ?s] =>
      destruct (run_fill u r n s) as (resp' & m2 & -> & Hr & Ha) end. done.
  - cbn. split; [done|]. unfold GetRecord in Hg. by destruct (List.find _ _); simplify_eq.
Qed.

(** C23: An attempt is judged or free.  An accepted attempt that runs alone — nobody
    else touches the blocks or the ledger while the model is asked — is filed with
    the schedule its block had, and what happens to the block — live, the
    learner's own — is decided by the model's reply to the expression and the
    learner's words: a reply that parses moves it along the ladder by its pass or
    fail; without a model, after a timeout or an unreadable reply the corpus stays
    as it was, and the attempt is unjudged and retryable. *)
Theorem attempt_is_judged_or_free cfg llm u req n s jr m s' :
  blocks_keyed (d_blocks s) ->
  run_prog o (Judge cfg llm u req) n s = (Ok jr, m, s') ->
  exists b rec now,
    judged_outcome cfg (verdict_in llm (do_complete o (S n) (b_ExpressionEN b) (shown_text req)))
      (TrimSpace u) (TrimSpace (jr_BlockID req)) s s' jr b rec now.
Proof. apply run_judge. Qed.

(** C22: An appeal restores the latest failure only.  An accepted appeal that runs
    alone finds the learner's own attempt.  The first one stamps it, and puts the
    block's schedule back to the attempt's snapshot exactly when the judge failed
    it, the attempt holds a snapshot (rows written before snapshots were kept do
    not), and no newer attempt of the learner sits on the block; otherwise, and
    when the attempt was appealed before, no block changes. *)
Theorem appeal_restores_latest_failure u id n s r m s' :
  ledger_ok (d_records s) ->
  run_prog o (Appeal u id) n s = (Ok r, m, s') ->
  exists rec, GetRecord (TrimSpace u) id (d_records s) = Ok rec /\
    match r_AppealedAt rec with
    | Some _ => s' = s /\ ap_AlreadyAppealed r = true /\ ap_Restored r = false
    | None => exists now, appeal_outcome s s' rec r now
    end.
Proof. apply run_appeal. Qed.
End drill.

(** ** An appeal undoes a failed judgement *)

Lemma GetRecord_unique s rec :
  ledger_ok s -> rec ∈ records s -> GetRecord (r_UserID rec) (r_ID rec) s = Ok rec.
Proof.
  intros (_ & Hs & _) Hin. unfold GetRecord.
  assert (NoDup (map r_ID (records s))) as Hnd.
  { clear Hin. induction Hs as [|r l _ IH Hr]; cbn; constructor; [|done].
    intros (x & Hx & Hin)%list_elem_of_fmap. rewrite Forall_forall in Hr.
    specialize (Hr x Hin). unfold id_before in Hr. lia. }
  revert Hnd Hin. clear Hs. induction (records s) as [|x l IH]; intros Hnd Hin; [by apply elem_of_nil in Hin|].
  cbn in Hnd. apply NoDup_cons in Hnd as [Hx Hnd]. cbn.
  destruct (is_record (r_UserID rec) (r_ID rec) x) eqn:E.
  - apply is_record_spec in E as [E _]. apply elem_of_cons in Hin as [->|Hin]; [done|].
    exfalso. apply Hx. rewrite E. apply list_elem_of_fmap. by exists rec.
  - apply elem_of_cons in Hin as [->|Hin]; [|by apply IH].
    rewrite (proj2 (is_record_spec _ _ _) (conj eq_refl eq_refl)) in E. done.
Qed.

Lemma ledger_ok_snoc s rec :
  ledger_ok s -> r_ID rec = nextID s + 1 ->
  ledger_ok (mkRecordStore (r_ID rec) (records s ++ [rec])).
Proof.
  intros (H0 & Hs & Hf) Hid. split; cbn; [lia|]. split.
  - apply StronglySorted_snoc; [done|]. eapply Forall_impl; [exact Hf|].
    intros r. cbn. unfold id_before. lia.
  - apply Forall_app. split; [|repeat constructor; lia].
    eapply Forall_impl; [exact Hf|]. cbn. lia.
Qed.

Lemma ApplyJudge_same sc b p now :
  b_UserID (ApplyJudge sc b p now) = b_UserID b /\
  b_DeletedAt (ApplyJudge sc b p now) = b_DeletedAt b /\
  forall st k due t, with_schedule st k due t (ApplyJudge sc b p now) = with_schedule st k due t b.
Proof. unfold ApplyJudge. by repeat case_match. Qed.

(** A failed judgement can be undone: appealing an attempt right after the judge
    failed it succeeds and leaves the corpus as it was before the attempt, but
    for the update stamp of the one block — state, streak and due date are the
    ones it had. *)
Theorem appeal_undoes_failed_judgement {mr : MapRange} o o' cfg llm u req n n' s jr m s1 :
  dalone o -> dalone o' -> blocks_keyed (d_blocks s) ->
  map_Forall (fun _ b => b_State b <> ""%string) (blocks (d_blocks s)) ->
  ledger_ok (d_records s) -> nextID (d_records s) < max_int64 ->
  run_prog o (Judge cfg llm u req) n s = (Ok jr, m, s1) ->
  jp_Judged jr = true -> jp_Pass jr = false ->
  exists r m' s2 b now, run_prog o' (Appeal u (jp_RecordID jr)) n' s1 = (Ok r, m', s2) /\
    ap_Restored r = true /\
    blocks (d_blocks s) !! TrimSpace (jr_BlockID req) = Some b /\
    d_blocks s2 = put (TrimSpace (jr_BlockID req))
                    (with_schedule (b_State b) (b_SuccessStreak b) (b_NextDueAt b) now b)
                    (d_blocks s).
Proof.
  intros Ho Ho' Hk Hst Hok Hmax Hrun Hj Hp.
  assert (TrimSpace u <> ""%string) as Hu.
  { intros E. unfold Judge in Hrun. rewrite E in Hrun. done. }
  destruct (run_judge o Ho _ _ _ _ _ _ _ _ _ Hk Hrun) as (b & rec & now & Hout).
  destruct Hout as (Hown & Hrs & Hnx & Hid & Hrid & Hsnap & Hjd & Hsp & Hbl).
  rewrite Hj in Hjd. rewrite Hp in Hsp.
  destruct (verdict_in _ _) as [j|]; destruct Hbl as (Hj' & Hpj & Hbl); [|congruence]. rewrite <- Hpj, Hp in Hbl.
  destruct Hsnap as (Su & Sb & Sst & Ssk & Sdue & Sap).
  destruct (owned_lookup _ _ _ _ Hown) as (Hb & Hbu & Hbd). pose proof (Hk _ _ Hb) as Hbid. cbn in Hbid.
  rewrite int64_id in Hid by (unfold in_int64, min_int64; destruct Hok; lia).
  assert (d_records s1 = mkRecordStore (r_ID rec) (records (d_records s) ++ [rec])) as Es1.
  { destruct (d_records s1). cbn in *. by subst. }
  assert (ledger_ok (d_records s1)) as Hok1 by (rewrite Es1; by apply ledger_ok_snoc).
  assert (rec ∈ records (d_records s1)) as Hin.
  { rewrite Hrs. apply elem_of_app. right. by left. }
  pose proof (GetRecord_unique _ _ Hok1 Hin) as Hg. rewrite Su, Hbu, <- Hrid in Hg.
  pose proof (ApplyJudge_same (cfg_Schedule (Config_Normalize cfg)) b false now) as (Au & Ad & As).
  set (b1 := ApplyJudge _ b false now) in *.
  assert (owned (TrimSpace u) (TrimSpace (jr_BlockID req)) (d_blocks s1) = Some b1) as Hown1.
  { rewrite Hbl. unfold owned. cbn. rewrite lookup_insert_eq, Au, Hbu, String.eqb_refl.
    by rewrite Ad, Hbd. }
  assert (restorable (d_records s1) rec) as Hres.
  { repeat split; [done|done| |].
    - rewrite Sst. by apply (Hst _ _ Hb).
    - unfold newest. rewrite Es1. cbn. apply Forall_app. split; [|by repeat constructor].
      destruct Hok as (_ & _ & Hf). eapply Forall_impl; [exact Hf|]. cbn. lia. }
  destruct (appeal_ok o' Ho' u (jp_RecordID jr) n' s1 rec Hok1 Hu Hg) as (r & m' & s2 & Hrun2).
  { intros _. rewrite Sb, Hbid. by rewrite Hown1. }
  destruct (run_appeal o' Ho' _ _ _ _ _ _ _ Hok1 Hrun2) as (rec' & Hg' & Hcase).
  rewrite Hg in Hg'. injection Hg' as <-. rewrite Sap in Hcase.
  destruct Hcase as (t & _ & _ & _ & [(Hr & _ & b2 & Hb2 & E2)|(_ & Hn & _)]); [|done].
  rewrite Su, Hbu, Sb, Hbid, Hown1 in Hb2. injection Hb2 as <-.
  exists r, m', s2, b, t. repeat split; try done.
  rewrite E2, Hbl, Sb, Hbid. unfold restored. rewrite As, Sst, Ssk, Sdue.
  unfold put. cbn. by rewrite insert_insert_eq.
Qed.

(** ** An appeal is settled once *)

(** No row the user could appeal under this identifier is left unstamped. *)
Definition stamped (u : string) (id : Z) (s : MemoryRecordStore) : Prop :=
  id <= nextID s /\ Forall (fun r => is_record u id r = true -> is_Some (r_AppealedAt r)) (records s).

Lemma handle_stamped {R} u id wall (c : recordE R) s :
  ledger_ok s -> nextID s < max_int64 -> stamped u id s -> stamped u id (handle_record wall c s).2.
Proof.
  intros Hok Hm [Hid Hf]. destruct c; cbn [handle_record snd]; try done.
  - pose proof (insert_ok wall rec s Hok Hm) as H. unfold Insert in *.
    destruct H as (_ & E & _). rewrite E. split; cbn; [lia|].
    apply Forall_app. split; [done|]. repeat constructor. intros [H _]%is_record_spec.
    cbn in H. lia.
  - split; [done|]. cbn. apply List.Forall_forall. intros r [Hr _]%filter_In.
    by eapply List.Forall_forall in Hf.
  - unfold MarkAppealed. destruct (mark userID recordID at_ (records s)) as [[b rs]|] eqn:E; [|done].
    destruct (mark_spec _ _ _ _ _ _ E) as (pre & r & post & Eq & _ & _ & [(_ & _ & ->)|(_ & _ & ->)]).
    { by destruct s. }
    split; [done|]. cbn. rewrite Eq in Hf. apply Forall_app in Hf as [Hp [Hr Hq]%Forall_cons].
    apply Forall_app. split; [done|]. constructor; [|done]. cbn. by eexists.
Qed.

Lemma appeal_stamps s s' rec r now :
  ledger_ok (d_records s) -> rec ∈ records (d_records s) ->
  match r_AppealedAt rec with
  | Some _ => s' = s
  | None => appeal_outcome s s' rec r now
  end -> stamped (r_UserID rec) (r_ID rec) (d_records s') /\ ledger_ok (d_records s') /\
    nextID (d_records s') = nextID (d_records s).
Proof.
  intros Hok Hin. pose proof Hok as (H0 & Hs & Hf).
  assert (r_ID rec <= nextID (d_records s)) as Hle.
  { rewrite Forall_forall in Hf. specialize (Hf rec Hin). lia. }
  assert (forall x, x ∈ records (d_records s) -> is_record (r_UserID rec) (r_ID rec) x = true -> x = rec) as Hone.
  { intros x Hx [E1 E2]%is_record_spec. pose proof (GetRecord_unique _ _ Hok Hx) as G1.
    pose proof (GetRecord_unique _ _ Hok Hin) as G2. rewrite E1, E2, G2 in G1. congruence. }
  destruct (r_AppealedAt rec) as [t|] eqn:Ea.
  - intros ->. split; [|done]. split; [done|]. apply Forall_forall. intros x Hx Hr.
    rewrite (Hone x Hx Hr), Ea. done.
  - intros (Hn & Hm & _). destruct (mark_spec _ _ _ _ _ _ Hm)
      as (pre & x & post & Eq & Hx & Hpre & [(? & _)|(_ & Hxa & Ers)]); [done|].
    assert (x = rec) as ->.
    { apply Hone; [|done]. rewrite Eq. apply elem_of_app. right. by left. }
    split; [|split; [|done]].
    + split; [by rewrite Hn|]. rewrite Ers. rewrite Eq in Hs.
      apply Forall_app. split; [|constructor; [cbn; by eexists|]].
      * eapply Forall_impl; [exact Hpre|]. cbn. intros y -> . done.
      * apply Forall_forall. intros y Hy [E1 _]%is_record_spec. exfalso.
        apply StronglySorted_app in Hs as (_ & _ & Hs). apply StronglySorted_inv in Hs as [_ Hs].
        rewrite Forall_forall in Hs. specialize (Hs y Hy). unfold id_before in Hs. lia.
    + split; [by rewrite Hn|]. rewrite Ers, Hn. rewrite Eq in Hs, Hf. split.
      * eapply sorted_ids; [|exact Hs]. by rewrite !map_app.
      * apply Forall_app in Hf as [Hp [Hr Hq]%Forall_cons]. apply Forall_app. split; [done|].
        by constructor.
Qed.

(** An appeal is settled once: after an accepted one, and whatever the stores
    went through since, appealing the same attempt again — both appeals run
    alone — changes nothing at all
    — it is answered as already appealed, or not found once the ledger was wiped. *)
Theorem appeal_is_settled_once {mr : MapRange} o o' u id n n' s r m s1 tr :
  dalone o -> dalone o' -> ledger_ok (d_records s) ->
  nextID (d_records s) + record_events tr <= max_int64 ->
  run_prog o (Appeal u id) n s = (Ok r, m, s1) ->
  let s2 := drun tr s1 in
  match run_prog o' (Appeal u id) n' s2 with
  | (Ok r', _, s3) => s3 = s2 /\ ap_AlreadyAppealed r' = true /\ ap_Restored r' = false
  | (Err e, _, s3) => s3 = s2 /\ e = Api (NotFound "drill record not found")
  end.
Proof.
  intros Ho Ho' Hok Hmax Hrun s2.
  assert (TrimSpace u <> ""%string /\ 0 < id) as [Hu Hpos].
  { unfold Appeal in Hrun. destruct (String.eqb_spec (TrimSpace u) ""); [done|].
    destruct (Z.leb_spec id 0); [done|by split]. }
  destruct (run_appeal o Ho _ _ _ _ _ _ _ Hok Hrun) as (rec & Hg & Hcase).
  destruct (GetRecord_ok _ _ _ _ Hg) as (pre & post & Er & Hid & Hru & _).
  assert (rec ∈ records (d_records s)) as Hin by (rewrite Er; apply elem_of_app; right; by left).
  assert (stamped (TrimSpace u) id (d_records s1) /\ ledger_ok (d_records s1) /\
          nextID (d_records s1) = nextID (d_records s)) as (Hst & Hok1 & Hn1).
  { rewrite <- Hid, <- Hru. destruct (r_AppealedAt rec) eqn:Ea.
    - apply (appeal_stamps s s1 rec r 0 Hok Hin). rewrite Ea. by destruct Hcase.
    - destruct Hcase as [now Hcase]. apply (appeal_stamps s s1 rec r now Hok Hin). by rewrite Ea. }
  destruct (drun_ledger (stamped (TrimSpace u) id) tr s1) as [Hok2 Hst2].
  { intros R wall c l Hl1 Hl2. by apply handle_stamped. }
  { done. }
  { by rewrite Hn1. }
  { done. }
  fold s2 in Hok2, Hst2.
  apply appeal_again; [done..|]. intros rec2 Hg2.
  destruct (GetRecord_ok _ _ _ _ Hg2) as (p2 & q2 & E2 & I2 & U2 & _).
  destruct Hst2 as [_ Hf]. rewrite E2 in Hf. apply Forall_app in Hf as [_ [Hf _]%Forall_cons].
  by apply Hf, is_record_spec.
Qed.

(** The ledger is well formed: in every history of calls from an empty ledger
    the row identifiers increase in the order of insertion — deletions and
    appeals included — and a row is found by its number for the learner who made
    the attempt and for nobody else. *)
Theorem ledger_names_attempts {mr : MapRange} tr b :
  record_events tr <= max_int64 ->
  let l := d_records (drun tr (mkDrillState b NewMemoryRecordStore)) in
  StronglySorted id_before (records l) /\
  forall rec, rec ∈ records l ->
    GetRecord (r_UserID rec) (r_ID rec) l = Ok rec /\
    forall u, u <> r_UserID rec -> GetRecord u (r_ID rec) l = Err ErrRecordNotFound.
Proof.
  intros Hn l. destruct (drun_ledger (fun _ => True) tr (mkDrillState b NewMemoryRecordStore))
    as [Hok _]; [done|by repeat split; cbn; try lia; constructor|done|done|].
  fold l in Hok. split; [by apply Hok|]. intros rec Hin.
  split; [by apply GetRecord_unique|]. intros u Hu.
  destruct (GetRecord u (r_ID rec) l) as [rec'|e] eqn:E.
  - destruct (GetRecord_ok _ _ _ _ E) as (pre & post & Er & Hid & Hu' & _).
    assert (rec' ∈ records l) as Hin' by (rewrite Er; apply elem_of_app; right; by left).
    pose proof (GetRecord_unique _ _ Hok Hin) as G1. pose proof (GetRecord_unique _ _ Hok Hin') as G2.
    exfalso. apply Hu. rewrite <- Hu'. f_equal.
    assert (forall x y, x ∈ records l -> y ∈ records l -> r_ID x = r_ID y -> x = y) as Hone.
    { destruct Hok as (_ & Hs & _). clear -Hs. induction Hs as [|z k _ IH Hz].
      - intros x y Hx. by apply elem_of_nil in Hx.
      - rewrite Forall_forall in Hz. unfold id_before in Hz.
        intros x y [->|Hx]%elem_of_cons [->|Hy]%elem_of_cons Hxy; [done| | |by apply IH].
        + specialize (Hz y Hy). lia.
        + specialize (Hz x Hx). lia. }
    by apply Hone.
  - unfold GetRecord in E. destruct (List.find _ _); [done|]. congruence.
Qed.

(** ** Concrete attempts *)

#[local] Existing Instance key_order.

Definition quotation : string := String dquote "".

(** The judge model's reply, with chatter around the object. *)
Definition verdict (pass : string) : string :=
  "Sure: {" +:+ quotation +:+ "pass" +:+ quotation +:+ ": " +:+ pass +:+ "}".

Definition drilled_block : PhraseBlock :=
  with_schedule StateTraining 2 40 7 (demo_block "b1" "ann").

Definition drill_start : drillState :=
  mkDrillState (set_blocks {[ "b1"%string := drilled_block ]} NewMemoryStore) NewMemoryRecordStore.

Definition quiet_drill (now : time) (reply : option string) : DOracle :=
  mkDOracle (fun _ => now) (fun _ _ _ => reply) (fun _ _ _ => None) (fun _ => []).

Definition spoken : JudgeRequest := mkJudgeRequest " b1" "lets rap it up" 1800 "s9".

Definition judged_at (reply : option string) : result error JudgeResponse * nat * drillState :=
  run_prog (quiet_drill 50 reply) (Judge DefaultConfig true "ann" spoken) 0 drill_start.

Lemma drill_start_keyed : blocks_keyed (d_blocks drill_start).
Proof. apply (bool_decide_unpack _). vm_compute. exact I. Qed.

Lemma empty_ledger_ok : ledger_ok NewMemoryRecordStore.
Proof. repeat split; cbn; [lia|constructor..]. Qed.

Example failed_attempt_moves_down :
  exists jr, (judged_at (Some (verdict "false"))).1.1 = Ok jr /\ jp_SuccessStreak jr = 0 /\
    jp_JudgeReason jr = "semantic_mismatch"%string.
Proof. eexists. vm_compute. repeat split. Qed.

Lemma attempt_is_judged_or_free_witness :
  exists jr, (judged_at (Some "I cannot tell")).1.1 = Ok jr /\
    d_blocks (judged_at (Some "I cannot tell"%string)).2 = d_blocks drill_start /\
    jp_Retryable jr = true.
Proof.
  destruct (judged_at (Some "I cannot tell"%string)) as [[[jr|e] m] s'] eqn:E;
    [|vm_compute in E; discriminate E].
  exists jr. split; [done|].
  destruct (attempt_is_judged_or_free (quiet_drill 50 (Some "I cannot tell"%string)) (fun _ => eq_refl)
    DefaultConfig true "ann" spoken 0 drill_start jr m s' drill_start_keyed E)
    as (b & rec & now & _ & _ & _ & _ & _ & _ & _ & _ & H).
  assert (parseJudgeJSON "I cannot tell" = None) as Hnone by (vm_compute; reflexivity).
  cbn [verdict_in do_complete quiet_drill mbind option_bind] in H. rewrite Hnone in H.
  destruct H as (_ & _ & Hr & Hb & _). split; [exact Hb|exact Hr].
Defined.

Lemma appeal_undoes_failed_judgement_witness :
  exists jr r m' s2, (judged_at (Some (verdict "false"))).1.1 = Ok jr /\
    run_prog (quiet_drill 60 None) (Appeal "ann" (jp_RecordID jr)) 0
      (judged_at (Some (verdict "false"))).2 = (Ok r, m', s2) /\ ap_Restored r = true.
Proof.
  destruct (judged_at (Some (verdict "false"))) as [[[jr|e] m] s'] eqn:E;
    [|vm_compute in E; discriminate E].
  destruct (appeal_undoes_failed_judgement (quiet_drill 50 (Some (verdict "false")))
    (quiet_drill 60 None) DefaultConfig true "ann" spoken 0 0 drill_start jr m s')
    as (r & m' & s2 & b & now & Hrun & Hr & _).
  - intros ?. reflexivity.
  - intros ?. reflexivity.
  - exact drill_start_keyed.
  - apply (bool_decide_unpack _). vm_compute. exact I.
  - exact empty_ledger_ok.
  - reflexivity.
  - exact E.
  - vm_compute in E. by injection E as <- _ _.
  - vm_compute in E. by injection E as <- _ _.
  - exists jr, r, m', s2. done.
Defined.

(** A ledger with one failed attempt. *)
Definition failed_once : drillState := (judged_at (Some (verdict "false"))).2.

Lemma failed_once_ok : ledger_ok (d_records failed_once).
Proof.
  split; [by vm_compute|]. split.
  - vm_compute. by repeat constructor.
  - vm_compute. by repeat constructor.
Qed.

Lemma appeal_restores_latest_failure_witness :
  exists r, (run_prog (quiet_drill 60 None) (Appeal "ann" 1) 0 failed_once).1.1 = Ok r /\
    ap_Restored r = true.
Proof.
  destruct (run_prog (quiet_drill 60 None) (Appeal "ann" 1) 0 failed_once) as [[[r|e] m] s'] eqn:E;
    [|vm_compute in E; discriminate E].
  exists r. split; [done|].
  destruct (appeal_restores_latest_failure (quiet_drill 60 None) (fun _ => eq_refl) "ann" 1 0
    failed_once r m s' failed_once_ok E) as (rec & Hg & H).
  vm_compute in Hg. injection Hg as <-. destruct H as (now & _ & _ & _ & [(H & _)|(H & _)]); [done|].
  vm_compute in E. injection E as <- _ _. discriminate H.
Defined.

Lemma appeal_is_settled_once_witness :
  let s1 := (run_prog (quiet_drill 60 None) (Appeal "ann" 1) 0 failed_once).2 in
  let s2 := drun [OnRecords 70 (RInsert (attempt "ann" drilled_block spoken "again" (unjudged "x") false 70))] s1 in
  (run_prog (quiet_drill 80 None) (Appeal "ann" 1) 0 s2).2 = s2.
Proof.
  destruct (run_prog (quiet_drill 60 None) (Appeal "ann" 1) 0 failed_once) as [[[r|e] m] s1] eqn:E;
    [|vm_compute in E; discriminate E].
  intros s1' s2. subst s1'. cbn [snd] in s2.
  pose proof (appeal_is_settled_once (quiet_drill 60 None) (quiet_drill 80 None) "ann" 1 0 0
    failed_once r m s1
    [OnRecords 70 (RInsert (attempt "ann" drilled_block spoken "again" (unjudged "x") false 70))]
    (fun _ => eq_refl) (fun _ => eq_refl) failed_once_ok) as H.
  cbn zeta in H. fold s2 in H.
  destruct (run_prog (quiet_drill 80 None) (Appeal "ann" 1) 0 s2) as [[[r'|e'] m'] s3] eqn:E2.
  - destruct H as [-> _]; [vm_compute; discriminate|exact E|done].
  - destruct H as [-> _]; [vm_compute; discriminate|exact E|done].
Defined.

Lemma ledger_names_attempts_witness :
  let row := attempt "ann" drilled_block spoken "again" (unjudged "x") false 70 in
  let l := d_records (drun [OnRecords 70 (RInsert row); OnRecords 71 (RDeleteForUser "ann");
                            OnRecords 72 (RInsert row)] drill_start) in
  map r_ID (records l) = [2] /\ GetRecord "bob" 2 l = Err ErrRecordNotFound.
Proof.
  intros row l. destruct (ledger_names_attempts [OnRecords 70 (RInsert row);
    OnRecords 71 (RDeleteForUser "ann"); OnRecords 72 (RInsert row)] (d_blocks drill_start))
    as [_ H]; [vm_compute; discriminate|].
  split; [reflexivity|]. apply (H (with_id 2 70 row)); [left|discriminate].
Defined.

(** * Rounds and the stuck map of the flash drill

    Which blocks a round serves, how little the daily limit on new blocks
    limits, and what the stuck map counts. *)


(** ** Listing due blocks *)

Lemma due_before_lex a b : due_before a b = lex (less_by b_NextDueAt) (str_by b_ID) a b.
Proof.
  unfold due_before, lex, less_by, str_by, Before.
  destruct (Z.eqb_spec (b_NextDueAt a) (b_NextDueAt b)) as [->|].
  - by rewrite Z.ltb_irrefl.
  - destruct (Z.ltb_spec (b_NextDueAt a) (b_NextDueAt b)); [done|]. cbn.
    by replace (b_NextDueAt b <? b_NextDueAt a) with true by lia.
Qed.

#[export] Instance due_before_weak : StrictWeak due_before.
Proof.
  split; intros *; rewrite !due_before_lex; first [apply less_asymm|apply less_negtrans].
Qed.

(** The due blocks in serving order, without a limit. *)
Definition due_list (u : string) (now : time) (states : list string) (s : MemoryStore)
  : list PhraseBlock :=
  sort_Slice due_before (List.filter (due u now states) (all_blocks s)).

Lemma due_list_elem u now states s b :
  blocks_keyed s ->
  b ∈ due_list u now states s <-> blocks s !! b_ID b = Some b /\ due u now states b = true.
Proof.
  intros Hk. unfold due_list. rewrite (sort_Slice_Permutation _).
  rewrite list_elem_of_In, filter_In, <- list_elem_of_In. by rewrite all_blocks_elem.
Qed.

Lemma due_list_NoDup u now states s : blocks_keyed s -> NoDup (due_list u now states s).
Proof.
  intros Hk. unfold due_list. rewrite (sort_Slice_Permutation _).
  apply NoDup_ListNoDup, List.NoDup_filter, NoDup_ListNoDup. by apply all_blocks_NoDup.
Qed.

Lemma ListDueBlocks_take u now states limit s :
  0 < limit -> ListDueBlocks u now states limit s = take (Z.to_nat limit) (due_list u now states s).
Proof.
  intros H. unfold ListDueBlocks. replace (0 <? limit) with true by lia. apply cut_to_take. lia.
Qed.

Lemma take_short {A} n (l : list A) : (length (take n l) < n)%nat -> take n l = l.
Proof. rewrite length_take. intros H. apply take_ge. lia. Qed.

(** The sweep: every live block of the learner that fell due long ago is due now. *)
Definition swept (u : string) (window : duration) (now : time) (b : PhraseBlock) : PhraseBlock :=
  if (0 <? window) && overdue u (Add now (- window)) b
  then with_schedule (b_State b) (b_SuccessStreak b) now now b else b.

(** The states a round may serve: new blocks only within the day's budget. *)
Definition learning_states (cfg : Config) (u : string) (now : time) (l : MemoryRecordStore)
  : list string :=
  let limit := DailyNewBlockLimit (Config_Normalize cfg) in
  if (0 <? limit) && (limit <=? CountNewReleasesSince u (day_start now) l)
  then [StateTraining] else [StateNew; StateTraining].

Section rounds.
Context {mr : MapRange} (o : DOracle) (Halone : dalone o).

Lemma run_sweep u now window n s :
  exists m, run_prog o (sweepOverdue u now window) n s =
    (tt, m, mkDrillState (set_blocks (swept u window now <$> blocks (d_blocks s)) (d_blocks s))
              (d_records s)).
Proof.
  unfold sweepOverdue, swept. destruct (Z.leb_spec window 0).
  - replace (0 <? window) with false by lia. cbn. eexists. do 2 f_equal.
    destruct s as [[] ?]; cbn. by rewrite map_fmap_id.
  - replace (0 <? window) with true by lia. rewrite (run_blocks o Halone). cbn. by eexists.
Qed.

Lemma run_options cfg u now n s :
  exists m, run_prog o (roundOptions cfg u now) n s =
    (mkRoundOptions (bool_decide (learning_states cfg u now (d_records s) = [StateNew; StateTraining])), m, s).
Proof.
  unfold roundOptions, learning_states, DefaultRoundOptions. set (limit := DailyNewBlockLimit _).
  destruct (Z.leb_spec limit 0).
  - replace (0 <? limit) with false by lia. by eexists.
  - replace (0 <? limit) with true by lia. rewrite (run_records o Halone).
    cbn [handle_record fst snd andb run_prog]. eexists. do 2 f_equal; [|by destruct s].
    by destruct (limit <=? _).
Qed.

(** What a round serves out of the blocks [s]: [states] first, then automated ones. *)
Definition serves (u : string) (now : time) (states : list string) (size : Z) (s : MemoryStore)
    (bs : list PhraseBlock) : Prop :=
  Z.of_nat (length bs) <= size /\ NoDup bs /\
  (forall b, b ∈ bs -> blocks s !! b_ID b = Some b /\ due u now (StateAutomated :: states) b = true) /\
  ((exists b, b ∈ bs /\ b_State b = StateAutomated) \/ Z.of_nat (length bs) < size ->
   forall b, blocks s !! b_ID b = Some b -> due u now states b = true -> b ∈ bs) /\
  (Z.of_nat (length bs) < size ->
   forall b, blocks s !! b_ID b = Some b -> due u now (StateAutomated :: states) b = true -> b ∈ bs).

Lemma due_states u now states b :
  due u now states b = true <->
  due u now [b_State b] b = true /\ b_State b ∈ states.
Proof.
  unfold due. rewrite !andb_true_iff, !bool_decide_eq_true. set_solver.
Qed.

Lemma run_select u now size states n s :
  blocks_keyed (d_blocks s) -> 0 < size -> StateAutomated ∉ states ->
  states = [StateTraining] \/ states = [StateNew; StateTraining] ->
  exists bs m, run_prog o (SelectBlocksForRound u now size
      (mkRoundOptions (bool_decide (states = [StateNew; StateTraining])))) n s = (bs, m, s) /\
    serves u now states size (d_blocks s) bs.
Proof.
  intros Hk Hsize Hna Hst. unfold SelectBlocksForRound. destruct (Z.leb_spec size 0); [lia|].
  replace (if IncludeNew _ then _ else _) with states by (by destruct Hst as [->| ->]).
  rewrite (run_blocks o Halone). cbn [handle fst snd d_blocks d_records].
  rewrite ListDueBlocks_take by done.
  set (L := due_list u now states (d_blocks s)). set (P := take (Z.to_nat size) L).
  assert (forall b, b ∈ L -> b_State b ∈ states /\ due u now (StateAutomated :: states) b = true /\
            blocks (d_blocks s) !! b_ID b = Some b) as HL.
  { intros b [Hb Hd]%due_list_elem; [|done]. apply due_states in Hd as [H1 H2].
    split; [done|]. split; [|done]. apply due_states. set_solver. }
  assert (forall b, blocks (d_blocks s) !! b_ID b = Some b -> due u now states b = true -> b ∈ L) as HinL.
  { intros b H1 H2. by apply due_list_elem. }
  pose proof (due_list_NoDup u now states (d_blocks s) Hk) as HndL. fold L in HndL.
  destruct (Z.leb_spec size (Z.of_nat (length P))) as [Hfull|Hshort].
  - exists (take (Z.to_nat size) P). eexists. split; [by destruct s|].
    assert (take (Z.to_nat size) P = P) as -> by (apply take_ge; unfold P; rewrite length_take; lia).
    assert (forall b, b ∈ P -> b ∈ L) as HPL.
    { intros b Hb. rewrite <- (take_drop (Z.to_nat size) L). apply elem_of_app. by left. }
    split; [unfold P; rewrite length_take; lia|].
    split; [by eapply sublist_NoDup, sublist_take|].
    split; [intros b Hb%HPL%HL; naive_solver|].
    split; [|lia]. intros [(b & Hb%HPL%HL & Ha)|]; [|lia]. exfalso. destruct Hb as [Hb _]. congruence.
  - rewrite (run_blocks o Halone). cbn [handle fst snd d_blocks d_records].
    rewrite ListDueBlocks_take by lia. set (A := due_list u now [StateAutomated] (d_blocks s)).
    assert (P = L) as EP by (apply take_short; fold P; lia). rewrite EP in *.
    set (E := take _ A). eexists _, _. split; [by destruct s|].
    assert (Z.of_nat (length E) <= size - Z.of_nat (length L)) as HE.
    { unfold E. rewrite length_take. lia. }
    assert (sort_Slice due_before (L ++ E) ≡ₚ L ++ E) as Hperm by apply (sort_Slice_Permutation _).
    pose proof (Permutation_length Hperm) as Hlen. rewrite length_app in Hlen.
    replace (size <? _) with false by lia.
    assert (forall b, b ∈ A -> b_State b = StateAutomated /\ due u now (StateAutomated :: states) b = true /\
              blocks (d_blocks s) !! b_ID b = Some b) as HA.
    { intros b [Hb Hd]%due_list_elem; [|done]. apply due_states in Hd as [H1 H2].
      apply list_elem_of_singleton in H2. split; [done|]. split; [|done].
      apply due_states. split; [done|]. rewrite H2. left. }
    assert (forall b, b ∈ E -> b ∈ A) as HEA.
    { intros b Hb. unfold E in Hb. rewrite <- (take_drop (Z.to_nat (size - Z.of_nat (length L))) A).
      apply elem_of_app. by left. }
    split; [lia|]. split; [|split; [|split]].
    + rewrite Hperm. apply NoDup_app. split; [done|]. split.
      * intros b [Hb _]%HL Hb2%HEA%HA. destruct Hb2 as [Hb2 _]. congruence.
      * eapply sublist_NoDup; [|apply sublist_take]. by apply due_list_NoDup.
    + intros b. rewrite Hperm, elem_of_app. intros [Hb%HL|Hb%HEA%HA]; naive_solver.
    + intros _ b Hb Hd. rewrite Hperm. apply elem_of_app. left. by apply HinL.
    + intros Hless b Hb Hd. rewrite Hperm. apply due_states in Hd as [Hd Hs].
      apply elem_of_app. apply elem_of_cons in Hs as [Hs|Hs].
      * right. replace E with A; [|symmetry; apply take_short; fold E; lia].
        apply due_list_elem; [done|]. split; [done|]. apply due_states. set_solver.
      * left. apply HinL; [done|]. by apply due_states.
Qed.

(** C37: A round that runs alone serves what is due.  It first folds the learner's long-overdue
    blocks forward to now; then it serves at most the asked number of cards —
    never more than twenty — each a distinct live block of the learner that is
    due: new and training ones first, automated ones only once all of those are
    served, and every due block when there is room; new blocks are left out when
    the day's budget is spent.  The ledger is not touched. *)
Theorem round_serves_due_blocks cfg u size n s r m s' :
  blocks_keyed (d_blocks s) ->
  run_prog o (Svc_Round cfg u size) n s = (Ok r, m, s') ->
  let user := TrimSpace u in
  let now := do_now o n in
  exists bs, r = mkRound (Z.of_nat (length bs)) (map card_of bs) /\
    d_records s' = d_records s /\
    blocks (d_blocks s') =
      swept user (OverdueWindow (Config_Normalize cfg)) now <$> blocks (d_blocks s) /\
    1 <= round_size cfg size <= 20 /\
    serves user now (learning_states cfg user now (d_records s)) (round_size cfg size)
      (d_blocks s') bs.
Proof.
  intros Hk Hrun user now. unfold Svc_Round in Hrun. fold user in Hrun.
  destruct (String.eqb user ""); [done|]. rewrite drill_now, run_bind in Hrun. fold now in Hrun.
  destruct (run_sweep user now (OverdueWindow (Config_Normalize cfg)) (S n) s) as [m1 E1].
  rewrite E1 in Hrun. clear E1. set (s1 := mkDrillState _ _) in Hrun. rewrite run_bind in Hrun.
  destruct (run_options cfg user now m1 s1) as [m2 E2]. rewrite E2 in Hrun. clear E2.
  change (d_records s1) with (d_records s) in Hrun.
  assert (1 <= round_size cfg size <= 20) as Hsize.
  { unfold round_size, MaxRoundSize, Config_Normalize, DefaultRoundSize. cbn. repeat case_match; lia. }
  set (states := learning_states cfg user now (d_records s)) in *.
  assert (states = [StateTraining] \/ states = [StateNew; StateTraining]) as Hst.
  { subst states. unfold learning_states. case_match; auto. }
  assert (StateAutomated ∉ states) as Hna by (destruct Hst as [->| ->]; set_solver).
  assert (blocks_keyed (d_blocks s1)) as Hk1.
  { intros id b. cbn. rewrite lookup_fmap. intros (x & Hx & ->)%fmap_Some.
    specialize (Hk _ _ Hx). unfold swept. by case_match. }
  rewrite run_bind in Hrun.
  destruct (run_select user now (round_size cfg size) states m2 s1 Hk1 ltac:(lia) Hna Hst)
    as (bs & m3 & E3 & Hserves).
  rewrite E3 in Hrun. injection Hrun as <- _ <-. exists bs.
  split; [by rewrite length_map|]. done.
Qed.
End rounds.

(** The budget of new blocks is all or nothing: with a limit of one and nothing
    served yet, a round still releases every new block that fits it. *)
#[local] Existing Instance key_order.

Definition new_block (id : string) : PhraseBlock := demo_block id "ann".
Definition three_new : drillState :=
  mkDrillState
    (set_blocks (list_to_map (map (fun id => (id, new_block id)) ["b1"; "b2"; "b3"]%string)) NewMemoryStore)
    NewMemoryRecordStore.
Definition one_a_day : Config := mkConfig DefaultSchedule 10 1 0.

Example daily_limit_overshoots :
  exists r, (run_prog (quiet_drill 50 None) (Svc_Round one_a_day "ann" 0) 0 three_new).1.1 = Ok r /\
    map card_State (round_Cards r) = [StateNew; StateNew; StateNew].
Proof. eexists. vm_compute. by split. Qed.

Lemma round_serves_due_blocks_witness :
  exists r, (run_prog (quiet_drill 50 None) (Svc_Round one_a_day "ann" 2) 0 three_new).1.1 = Ok r /\
    round_Size r = 2.
Proof.
  destruct (run_prog (quiet_drill 50 None) (Svc_Round one_a_day "ann" 2) 0 three_new)
    as [[[r|e] m] s'] eqn:E; [|vm_compute in E; discriminate E].
  exists r. split; [done|].
  destruct (round_serves_due_blocks (quiet_drill 50 None) (fun _ => eq_refl) one_a_day "ann" 2 0
    three_new r m s') as (bs & Hr & _).
  - apply (bool_decide_unpack _). vm_compute. exact I.
  - exact E.
  - vm_compute in E. injection E as <- _ _. reflexivity.
Defined.

(** ** The stuck map *)

Definition count_if {A} (p : A -> bool) (l : list A) : Z := Z.of_nat (length (List.filter p l)).

Lemma count_if_snoc {A} (p : A -> bool) l x :
  count_if p (l ++ [x]) = count_if p l + (if p x then 1 else 0).
Proof.
  unfold count_if. rewrite List.filter_app, length_app. cbn. destruct (p x); cbn; lia.
Qed.

Definition failed (r : DrillRecord) : bool := r_Judged r && negb (r_SemanticPass r).
Definition forgotten (r : DrillRecord) : bool := failed r && (0 <? r_PrevSuccessStreak r).
Definition first_success (r : DrillRecord) : bool :=
  r_Judged r && r_SemanticPass r && (r_PrevSuccessStreak r =? 0) &&
  negb (String.eqb (r_PrevState r) StateAutomated).

(** The row of a tag counts its attempts. *)
Definition row_counts (row : StuckRow) (tag : string) (l : list DrillRecord) : Prop :=
  sr_FunctionTag row = tag /\ sr_Attempts row = count_if r_Judged l /\
  sr_Failures row = count_if failed l /\ sr_ForgotAfterLearning row = count_if forgotten l /\
  sr_Promotions row = count_if first_success l.

Lemma count_attempt_counts row tag l r :
  row_counts row tag l -> row_counts (count_attempt row r) tag (l ++ [r]).
Proof.
  destruct row as [t b a f g p lf]. unfold row_counts. cbn. intros (<- & -> & -> & -> & ->).
  rewrite !count_if_snoc.
  generalize (count_if r_Judged l) (count_if failed l) (count_if forgotten l) (count_if first_success l).
  intros. unfold forgotten, first_success, failed. clear l.
  destruct (r_Judged r); cbn; [|repeat split; lia].
  destruct (r_SemanticPass r); cbn; [repeat split; try lia; case_match; lia|].
  repeat split; try lia.
Qed.

Definition tagged (f : gmap string string) (tag : string) (r : DrillRecord) : bool :=
  String.eqb (tag_of f r) tag.

Lemma stuck_table f recs tag :
  let l := List.filter (tagged f tag) recs in
  match foldl (stuck_step f) ∅ recs !! tag with
  | Some (row, seen) => l <> [] /\ row_counts row tag l /\ seen = list_to_set (map r_BlockID l)
  | None => l = []
  end.
Proof.
  induction recs as [|r recs IH] using rev_ind; [done|].
  rewrite foldl_app. cbn [foldl]. set (acc := foldl _ ∅ recs) in *. cbn zeta in *.
  rewrite List.filter_app. unfold stuck_step at 1. cbn [List.filter].
  destruct (tagged f tag r) eqn:Et; unfold tagged in Et.
  - apply String.eqb_eq in Et as <-. set (tag := tag_of f r) in *.
    assert (row_counts (new_row tag) tag []) as H0 by done.
    destruct (acc !! tag) as [[row seen]|] eqn:E; cbn [from_option id]; rewrite lookup_insert_eq.
    + destruct IH as (_ & Hr & ->). split; [by destruct (List.filter _ recs)|].
      split; [by apply count_attempt_counts|]. rewrite map_app, list_to_set_app_L. cbn. set_solver.
    + rewrite IH. split; [done|]. split; [by apply (count_attempt_counts _ _ [])|]. cbn. set_solver.
  - apply String.eqb_neq in Et. rewrite app_nil_r. destruct (default _ (acc !! tag_of f r)) as [row seen].
    by rewrite lookup_insert_ne.
Qed.

#[export] Instance worse_weak : StrictWeak worse.
Proof. unfold worse. change (StrictWeak (lex (less_by (fun r => - sr_Failures r)) (str_by sr_FunctionTag))). apply _. Qed.

(** The stuck map says where recall breaks: one row per function tag some attempt
    of the window has — worst first, then by tag, whatever order Go ranges over
    the table in — counting exactly the tag's judged attempts, its failures, the
    failures after a success, the first successes and the distinct blocks tried. *)
Theorem stuck_map_counts_attempts {mr : MapRange} f recs :
  let rows := stuck_rows f recs in
  StronglySorted (not_after worse) rows /\ NoDup (map sr_FunctionTag rows) /\
  (forall tag, tag ∈ map sr_FunctionTag rows <-> exists r, r ∈ recs /\ tag_of f r = tag) /\
  forall row, row ∈ rows ->
    let l := List.filter (tagged f (sr_FunctionTag row)) recs in
    row_counts row (sr_FunctionTag row) l /\
    sr_Blocks row = Z.of_nat (size (list_to_set (map r_BlockID l) : gset string)).
Proof.
  intros rows. set (table := foldl (stuck_step f) ∅ recs).
  set (row_of := fun kv : string * (StuckRow * gset string) =>
                   with_blocks (Z.of_nat (size kv.2.2)) kv.2.1).
  assert (rows ≡ₚ map row_of (map_to_list table)) as Hperm.
  { unfold rows, stuck_rows. rewrite (sort_Slice_Permutation _). by rewrite map_range_perm. }
  assert (forall tag row seen, table !! tag = Some (row, seen) ->
    let l := List.filter (tagged f tag) recs in
    l <> [] /\ row_counts (row_of (tag, (row, seen))) tag l /\ seen = list_to_set (map r_BlockID l)) as Ht.
  { intros tag row seen Hl. pose proof (stuck_table f recs tag) as H. cbn zeta in H.
    fold table in H. rewrite Hl in H. exact H. }
  assert (map sr_FunctionTag (map row_of (map_to_list table)) = (map_to_list table).*1) as Htags.
  { rewrite map_map. apply list_fmap_ext. intros i [tag [row seen]] Hi.
    apply list_elem_of_lookup_2, elem_of_map_to_list in Hi. apply Ht in Hi as (_ & [E _] & _). done. }
  split; [apply (sort_Slice_sorted _)|]. split; [|split].
  - rewrite Hperm, Htags. apply NoDup_fst_map_to_list.
  - intros tag. rewrite Hperm, Htags. rewrite list_elem_of_fmap. split.
    + intros ([tag' [row seen]] & -> & Hi%elem_of_map_to_list). apply Ht in Hi as (Hne & _ & _).
      destruct (List.filter _ recs) as [|r l] eqn:E; [done|].
      assert (In r (List.filter (tagged f tag') recs)) as Hr by (rewrite E; by left).
      apply filter_In in Hr as [Hr Et]. exists r.
      split; [by apply list_elem_of_In|]. by apply String.eqb_eq.
    + intros (r & Hr & Et). pose proof (stuck_table f recs tag) as H. cbn zeta in H. fold table in H.
      destruct (table !! tag) as [[row seen]|] eqn:E.
      * exists (tag, (row, seen)). split; [done|]. by apply elem_of_map_to_list.
      * exfalso. assert (In r (List.filter (tagged f tag) recs)) as Hin.
        { apply filter_In. split; [by apply list_elem_of_In|]. by apply String.eqb_eq. }
        by rewrite H in Hin.
  - intros row. rewrite Hperm. rewrite list_elem_of_In, in_map_iff.
    intros ([tag [row' seen]] & <- & Hi). apply list_elem_of_In, elem_of_map_to_list in Hi.
    apply Ht in Hi as (_ & Hc & ->). pose proof (proj1 Hc) as Etag. cbn zeta. rewrite Etag.
    split; [done|]. done.
Qed.
