(* ===== verification/Account.v ===== *)
(** * Accounts: data and the in-memory store ([internal/account])

    [types.go], [store.go] and [memory_store.go].  The identity of a user, the
    device and e-mail indexes, refresh tokens, tombstones and audits.  Pointers
    are options and the [clone*] functions identities. *)
From S2P Require Import Prelude GoString GoTime GoSort ApiErr.

Open Scope Z_scope.

Definition UserStatusActive : string := "active".
Definition UserStatusMerged : string := "merged".
Definition UserStatusDeleted : string := "deleted".

Definition ConfirmationDeleteMyData : string := "DELETE-MY-DATA".
Definition UndeleteWindow : duration := 30 * 24 * Hour.
Definition ExportReadyDelay : duration := 24 * Hour.

Record User := mkUser {
  u_ID : string;
  u_Email : option string;
  u_Phone : option string;
  u_DeviceID : option string;
  u_IsGuest : bool;
  u_PasswordHash : option string;
  u_Status : string;
  u_MergedIntoUserID : option string;
  u_DeletedAt : option time;
  u_TombstoneAt : option time;
  u_CreatedAt : time;
  u_UpdatedAt : time;
}.

Record RefreshToken := mkRefreshToken {
  rt_ID : string;
  rt_UserID : string;
  rt_Hash : string;
  rt_ExpiresAt : time;
  rt_CreatedAt : time;
}.

Record Tombstone := mkTombstone {
  tb_ID : string;
  tb_UserID : string;
  tb_EntityType : string;
  tb_EntityID : string;
  tb_DeletedAt : time;
  tb_PurgeAt : time;
  tb_CreatedAt : time;
}.

Record AuditLog := mkAuditLog {
  au_ID : string;
  au_Actor : string;
  au_Action : string;
  au_UserID : string;
  au_Reason : string;
  au_CreatedAt : time;
}.

Definition ErrNotFound : error := Sentinel "account: not found".
Definition ErrDuplicateDeviceID : error := Sentinel "account: duplicate device_id".
Definition ErrDuplicateEmail : error := Sentinel "account: duplicate email".

Record MemoryStore := mkAccounts {
  users : gmap string User;
  byDevice : gmap string string;
  byEmail : gmap string string;
  tokens : gmap string RefreshToken;
  tombstones : list Tombstone;
  audits : list AuditLog;
}.

Definition NewMemoryStore : MemoryStore := mkAccounts ∅ ∅ ∅ ∅ [] [].

Definition set_users (x : gmap string User) (s : MemoryStore) : MemoryStore :=
  mkAccounts x (byDevice s) (byEmail s) (tokens s) (tombstones s) (audits s).
Definition set_byDevice (x : gmap string string) (s : MemoryStore) : MemoryStore :=
  mkAccounts (users s) x (byEmail s) (tokens s) (tombstones s) (audits s).
Definition set_byEmail (x : gmap string string) (s : MemoryStore) : MemoryStore :=
  mkAccounts (users s) (byDevice s) x (tokens s) (tombstones s) (audits s).
Definition set_tokens (x : gmap string RefreshToken) (s : MemoryStore) : MemoryStore :=
  mkAccounts (users s) (byDevice s) (byEmail s) x (tombstones s) (audits s).
Definition set_tombstones (x : list Tombstone) (s : MemoryStore) : MemoryStore :=
  mkAccounts (users s) (byDevice s) (byEmail s) (tokens s) x (audits s).
Definition set_audits (x : list AuditLog) (s : MemoryStore) : MemoryStore :=
  mkAccounts (users s) (byDevice s) (byEmail s) (tokens s) (tombstones s) x.

(** The key a user takes in an index: [p != nil && *p != ""]. *)
Definition index_key (v : option string) : option string :=
  match v with
  | Some k => if String.eqb k "" then None else Some k
  | None => None
  end.

(** Take [key] for [id] in an index, unless it is taken. *)
Definition claim (key : option string) (id : string) (index : gmap string string)
  : option (gmap string string) :=
  match key with
  | None => Some index
  | Some k => match index !! k with Some _ => None | None => Some (<[k := id]> index) end
  end.

(** An e-mail conflict is found after the device was taken: the device entry
    stays, as in the source. *)
Definition CreateUser (user : User) (s : MemoryStore) : result error unit * MemoryStore :=
  match users s !! u_ID user with
  | Some _ => (Err (Errorf "account: duplicate user id"), s)
  | None =>
      match claim (index_key (u_DeviceID user)) (u_ID user) (byDevice s) with
      | None => (Err ErrDuplicateDeviceID, s)
      | Some devices =>
          let s := set_byDevice devices s in
          match claim (index_key (u_Email user)) (u_ID user) (byEmail s) with
          | None => (Err ErrDuplicateEmail, s)
          | Some emails =>
              (Ok tt, set_users (<[u_ID user := user]> (users s)) (set_byEmail emails s))
          end
      end
  end.

Definition active (u : User) : bool := String.eqb (u_Status u) UserStatusActive.

(** The active user an index entry points at. *)
Definition active_at (index : gmap string string) (key : string) (s : MemoryStore)
  : result error User :=
  match index !! key with
  | None => Err ErrNotFound
  | Some id =>
      match users s !! id with
      | Some u => if active u then Ok u else Err ErrNotFound
      | None => Err ErrNotFound
      end
  end.

Definition GetActiveByEmail (email : string) (s : MemoryStore) : result error User :=
  active_at (byEmail s) email s.
Definition GetActiveByDeviceID (deviceID : string) (s : MemoryStore) : result error User :=
  active_at (byDevice s) deviceID s.

Definition GetUser (id : string) (s : MemoryStore) : result error User :=
  match users s !! id with Some u => Ok u | None => Err ErrNotFound end.

Definition with_device (device : option string) (status : string) (merged : option string)
    (at_ : time) (u : User) : User :=
  mkUser (u_ID u) (u_Email u) (u_Phone u) device (u_IsGuest u) (u_PasswordHash u) status merged
    (u_DeletedAt u) (u_TombstoneAt u) (u_CreatedAt u) at_.

Definition delete_device (d : option string) (index : gmap string string) : gmap string string :=
  match d with Some d => delete d index | None => index end.

Definition MarkMerged (guestID targetID deviceID : string) (at_ : time) (s : MemoryStore)
  : result error unit * MemoryStore :=
  match users s !! guestID with
  | None => (Err ErrNotFound, s)
  | Some guest =>
      if negb (u_IsGuest guest) || negb (active guest) then (Err ErrNotFound, s) else
      match users s !! targetID with
      | None => (Err ErrNotFound, s)
      | Some target =>
          if negb (active target) then (Err ErrNotFound, s) else
          let devices := delete_device (u_DeviceID guest) (byDevice s) in
          let devices :=
            match u_DeviceID target with
            | Some d => if String.eqb d deviceID then devices else delete d devices
            | None => devices
            end in
          let guest := with_device None UserStatusMerged (Some targetID) at_ guest in
          let target := with_device (Some deviceID) (u_Status target) (u_MergedIntoUserID target) at_ target in
          (Ok tt, set_byDevice (<[deviceID := targetID]> devices)
                    (set_users (<[targetID := target]> (<[guestID := guest]> (users s))) s))
      end
  end.

(** Range over the users, keeping the latest update; ties depend on the order. *)
Definition merged_into (targetID : string) (u : User) : bool :=
  bool_decide (u_MergedIntoUserID u = Some targetID) && String.eqb (u_Status u) UserStatusMerged.

Definition FindGuestMergedInto {mr : MapRange} (targetID : string) (s : MemoryStore)
  : result error User :=
  let found := foldl (fun found (kv : string * User) =>
      if merged_into targetID kv.2 then
        match found with
        | None => Some kv.2
        | Some f => if After (u_UpdatedAt kv.2) (u_UpdatedAt f) then Some kv.2 else found
        end
      else found) None (map_range (users s)) in
  match found with Some u => Ok u | None => Err ErrNotFound end.

Definition without_tokens (userID : string) (t : gmap string RefreshToken) : gmap string RefreshToken :=
  filter (fun kv => rt_UserID kv.2 <> userID) t.

Definition ReplaceRefreshToken (token : RefreshToken) (s : MemoryStore) : MemoryStore :=
  set_tokens (<[rt_Hash token := token]> (without_tokens (rt_UserID token) (tokens s))) s.

Definition GetRefreshToken (hash : string) (s : MemoryStore) : result error RefreshToken :=
  match tokens s !! hash with Some t => Ok t | None => Err ErrNotFound end.

Definition DeleteRefreshTokensForUser (userID : string) (s : MemoryStore) : MemoryStore :=
  set_tokens (without_tokens userID (tokens s)) s.

Definition with_deletion (status : string) (deleted tombstone : option time) (updated : time)
    (u : User) : User :=
  mkUser (u_ID u) (u_Email u) (u_Phone u) (u_DeviceID u) (u_IsGuest u) (u_PasswordHash u) status
    (u_MergedIntoUserID u) deleted tombstone (u_CreatedAt u) updated.

Definition MarkDeleted (userID : string) (at_ tombstoneAt : time) (s : MemoryStore)
  : result error unit * MemoryStore :=
  match users s !! userID with
  | None => (Err ErrNotFound, s)
  | Some u =>
      match u_DeletedAt u with
      | Some _ => (Ok tt, s)
      | None =>
          (Ok tt, set_users (<[userID := with_deletion UserStatusDeleted (Some at_)
                                           (Some tombstoneAt) at_ u]> (users s)) s)
      end
  end.

Definition ClearDeleted (userID : string) (s : MemoryStore) : result error unit * MemoryStore :=
  match users s !! userID with
  | None => (Err ErrNotFound, s)
  | Some u =>
      (Ok tt, set_users (<[userID := with_deletion UserStatusActive None None (u_UpdatedAt u) u]>
                           (users s)) s)
  end.

Definition InsertTombstone (row : Tombstone) (s : MemoryStore) : MemoryStore :=
  set_tombstones (tombstones s ++ [row]) s.

Definition DeleteTombstonesForUser (userID : string) (s : MemoryStore) : Z * MemoryStore :=
  (Z.of_nat (length (List.filter (fun t => String.eqb (tb_UserID t) userID) (tombstones s))),
   set_tombstones (List.filter (fun t => negb (String.eqb (tb_UserID t) userID)) (tombstones s)) s).

Definition InsertAudit (row : AuditLog) (s : MemoryStore) : MemoryStore :=
  set_audits (audits s ++ [row]) s.

(** ** Calls and histories *)
Inductive accountE : Type -> Type :=
| ACreateUser (u : User) : accountE (result error unit)
| AGetUser (id : string) : accountE (result error User)
| AGetActiveByDeviceID (d : string) : accountE (result error User)
| AGetActiveByEmail (e : string) : accountE (result error User)
| AMarkMerged (guest target device : string) (at_ : time) : accountE (result error unit)
| AFindGuestMergedInto (target : string) : accountE (result error User)
| AReplaceRefreshToken (t : RefreshToken) : accountE unit
| AGetRefreshToken (hash : string) : accountE (result error RefreshToken)
| ADeleteRefreshTokens (user : string) : accountE unit
| AMarkDeleted (user : string) (at_ tombstone : time) : accountE (result error unit)
| AClearDeleted (user : string) : accountE (result error unit)
| AInsertTombstone (row : Tombstone) : accountE unit
| ADeleteTombstones (user : string) : accountE Z
| AInsertAudit (row : AuditLog) : accountE unit.

Definition handle_account {mr : MapRange} {R} (c : accountE R) (s : MemoryStore) : R * MemoryStore :=
  match c in accountE R return R * MemoryStore with
  | ACreateUser u => CreateUser u s
  | AGetUser id => (GetUser id s, s)
  | AGetActiveByDeviceID d => (GetActiveByDeviceID d s, s)
  | AGetActiveByEmail e => (GetActiveByEmail e s, s)
  | AMarkMerged g t d at_ => MarkMerged g t d at_ s
  | AFindGuestMergedInto t => (FindGuestMergedInto t s, s)
  | AReplaceRefreshToken t => (tt, ReplaceRefreshToken t s)
  | AGetRefreshToken h => (GetRefreshToken h s, s)
  | ADeleteRefreshTokens u => (tt, DeleteRefreshTokensForUser u s)
  | AMarkDeleted u at_ tomb => MarkDeleted u at_ tomb s
  | AClearDeleted u => ClearDeleted u s
  | AInsertTombstone row => (tt, InsertTombstone row s)
  | ADeleteTombstones u => DeleteTombstonesForUser u s
  | AInsertAudit row => (tt, InsertAudit row s)
  end.

Definition aevent : Type := { R : Type & accountE R }.
Definition aev {R} (c : accountE R) : aevent := existT R c.
Definition aafter {mr : MapRange} (e : aevent) (s : MemoryStore) : MemoryStore :=
  (handle_account (projT2 e) s).2.
Definition arun {mr : MapRange} (tr : list aevent) (s : MemoryStore) : MemoryStore :=
  foldl (fun s e => aafter e s) s tr.
