(* ===== verification/AccountService.v ===== *)
(** * Accounts: identities, sessions and passwords ([internal/account])

    [service.go], [service_auth.go], [token.go] and [password.go] as programs
    over the account store, the clock, identifiers, random bytes and the modules
    a guest's rows are reassigned in.  Before every store call other goroutines
    may make calls of their own.  The JWT library and the address parser of
    [net/mail] are parameters; logging is left out.  A stored password is read back
    with the parameters it was written with. *)
From stdpp Require Import pretty.
From S2P Require Import Prelude Prog GoString GoUnicode GoTime GoSort GoCrypto GoBase64 ApiErr Account.

Open Scope Z_scope.
Open Scope prog_scope.

(** ** Passwords *)

Definition passwordHashAlgorithm : string := "pbkdf2_sha256".
Definition passwordIterations : Z := 210000.
Definition passwordSaltBytes : nat := 16.
Definition passwordKeyBytes : nat := 32.
Definition MinPasswordLength : Z := 8.
Definition MaxPasswordLength : Z := 72.

Definition ErrPasswordMismatch : error := Sentinel "account: password mismatch".
Definition ErrInvalidPasswordHash : error := Sentinel "account: invalid password hash".
Definition ErrInvalidEmail : error := Sentinel "account: invalid email".

(** [strings.Split(s, string(sep))] for one byte *)
Fixpoint split_byte (sep : ascii) (cur : bytes) (l : bytes) : list bytes :=
  match l with
  | [] => [rev cur]
  | a :: l => if Ascii.eqb a sep then rev cur :: split_byte sep [] l else split_byte sep (a :: cur) l
  end.

Definition dollar : ascii := "$"%char.

(** [strconv.Atoi] *)
Definition digits_value (l : bytes) : option Z :=
  match l with
  | [] => None
  | _ => foldl (fun acc a =>
           match acc with
           | Some n => if in_range 48 (byte_val a) 57 then Some (n * 10 + (byte_val a - 48)) else None
           | None => None
           end) (Some 0) l
  end.
Definition Atoi (s : bytes) : option Z :=
  let n := match s with
           | "-"%char :: l => Z.opp <$> digits_value l
           | "+"%char :: l => digits_value l
           | l => digits_value l
           end in
  match n with
  | Some n => if (min_int64 <=? n) && (n <=? max_int64) then Some n else None
  | None => None
  end.

(** The stored text of a derived key. *)
Definition password_text (iterations : Z) (salt key : list Z) : string :=
  passwordHashAlgorithm +:+ "$" +:+ pretty iterations +:+ "$" +:+ RawStdEncode salt +:+ "$"
    +:+ RawStdEncode key.

Definition derive (password : string) (salt : list Z) (iterations : Z) (len : nat) : list Z :=
  pbkdf2_key (byte_values password) salt iterations len.

(** hashPassword on the salt that was read *)
Definition hash_with (password : string) (salt : list Z) : string :=
  password_text passwordIterations salt (derive password salt passwordIterations passwordKeyBytes).

Definition verifyPassword (encoded password : string) : option error :=
  match split_byte dollar [] (to_bytes encoded) with
  | [algorithm; iterations; salt; key] =>
      if negb (String.eqb (of_bytes algorithm) passwordHashAlgorithm)
      then Some ErrInvalidPasswordHash else
      match Atoi iterations with
      | None => Some ErrInvalidPasswordHash
      | Some iterations =>
          if iterations <=? 0 then Some ErrInvalidPasswordHash else
          match b64_decode b64std (of_bytes salt), b64_decode b64std (of_bytes key) with
          | Some salt, Some want =>
              if (length want =? 0)%nat then Some ErrInvalidPasswordHash else
              let got := derive password salt iterations (length want) in
              if bool_decide (got = want) then None else Some ErrPasswordMismatch
          | _, _ => Some ErrInvalidPasswordHash
          end
      end
  | _ => Some ErrInvalidPasswordHash
  end.

Definition validatePassword (password : string) : option string :=
  if go_len password <? MinPasswordLength then Some "密码至少 8 位"%string
  else if MaxPasswordLength <? go_len password then Some "密码最多 72 位"%string
  else None.

(** ** Tokens *)

Definition tokenTypeBearer : string := "Bearer".
Definition tokenIssuer : string := "fluentwork-app-server".

Record accessClaims := mkClaims {
  ac_IsGuest : bool;
  ac_Subject : string;
  ac_Issuer : string;
  ac_ID : string;
  ac_IssuedAt : time;
  ac_ExpiresAt : time;
}.

(** [jwt.NewNumericDate]: whole seconds *)
Definition NumericDate (t : time) : time := Truncate t Second.

(** The JWT library: signing with a secret, and what a token verified at a time
    with a secret claims, its issuer included. *)
Record Jwt := mkJwt {
  jwt_sign : string -> accessClaims -> result error string;
  jwt_verify : string -> time -> string -> option accessClaims;
}.

(** A signed token verifies to its claims until it expires. *)
Class JwtLaws (j : Jwt) : Prop := {
  jwt_verifies : forall secret c t now,
    jwt_sign j secret c = Ok t -> ac_Issuer c = tokenIssuer -> now < ac_ExpiresAt c ->
    jwt_verify j secret now t = Some c;
}.

Record TokenResponse := mkTokenResponse {
  tr_UserID : string;
  tr_IsGuest : bool;
  tr_Status : string;
  tr_AccessToken : string;
  tr_RefreshToken : string;
  tr_TokenType : string;
  tr_ExpiresIn : Z;
}.

Record MergeResponse := mkMergeResponse {
  mg_UserID : string;
  mg_IsGuest : bool;
  mg_MergedFromUserID : option string;
  mg_AlreadyMerged : bool;
}.

(** The part of the configuration the service reads. *)
Record AuthConfig := mkAuthConfig {
  AccessTokenTTL : duration;
  RefreshTokenTTL : duration;
  AuthJWTSecret : string;
}.

Inductive accountSvcE : Type -> Type :=
| UDb {R : Type} (c : accountE R) : accountSvcE R
| UNow : accountSvcE time
| UNewID : accountSvcE string
| URand (n : nat) : accountSvcE (result error (list Z))
| UReassign (guest target : string) : accountSvcE (result error unit).

Abbreviation uprog := (program accountSvcE).
Definition udb {R} (c : accountE R) : uprog R := call (UDb c).

Record AOracle := mkAOracle {
  ao_now : nat -> time;
  ao_id : nat -> string;
  ao_rand : nat -> nat -> result error (list Z);
  ao_reassign : nat -> string -> string -> result error unit;
  ao_env : nat -> list aevent;
}.

Definition aalone (o : AOracle) : Prop := forall n, ao_env o n = [].

Definition perform_account {mr : MapRange} {R} (o : AOracle) (e : accountSvcE R) (n : nat)
    (s : MemoryStore) : R * MemoryStore :=
  match e in accountSvcE R return R * MemoryStore with
  | UDb c => handle_account c (arun (ao_env o n) s)
  | UNow => (ao_now o n, s)
  | UNewID => (ao_id o n, s)
  | URand k => (ao_rand o n k, s)
  | UReassign g t => (ao_reassign o n g t, s)
  end.

#[export] Instance runs_account {mr : MapRange} : Runs AOracle accountSvcE MemoryStore :=
  @perform_account mr.

Definition hashToken (raw : string) : string := hex_EncodeToString (Sum256 (byte_values raw)).

Definition randomToken : uprog (result error string) :=
  buf <- call (URand 32);
  match buf with
  | Err e => Ret (Err (Errorf ("generate token: " +:+ error_text e)))
  | Ok b => Ret (Ok (RawURLEncode b))
  end.

Definition hashPassword (password : string) : uprog (result error string) :=
  buf <- call (URand passwordSaltBytes);
  match buf with
  | Err e => Ret (Err (Errorf ("account: read salt: " +:+ error_text e)))
  | Ok salt => Ret (Ok (hash_with password salt))
  end.

(** ** Requests *)

Definition device_byte (a : ascii) : bool :=
  is_alnum a || bool_decide (a ∈ ["."%char; "_"%char; ":"%char; "-"%char]).

Definition normalizeDeviceID (raw : string) : result error string :=
  let id := TrimSpace raw in
  if String.eqb id "" then Err (Api (InvalidArgument "device_id is required"))
  else if negb (match_class device_byte 1 128 id)
  then Err (Api (InvalidArgument "device_id is invalid"))
  else Ok id.

Section service.
Context (jwt : Jwt) (cfg : AuthConfig).
(** [mail.ParseAddress]: the address of a well-formed mailbox *)
Context (ParseAddress : string -> option string).

Definition normalizeEmail (email : string) : result error string :=
  let trimmed := ToLower (TrimSpace email) in
  if String.eqb trimmed "" then Err ErrInvalidEmail else
  match ParseAddress trimmed with
  | Some address => if String.eqb address trimmed then Ok trimmed else Err ErrInvalidEmail
  | None => Err ErrInvalidEmail
  end.

(** The lifetimes are configured in whole seconds. *)
Definition issueSession (user : User) : uprog (result error TokenResponse) :=
  now <- call UNow;
  id <- call UNewID;
  let claims := mkClaims (u_IsGuest user) (u_ID user) tokenIssuer id (NumericDate now)
                  (NumericDate (Add now (AccessTokenTTL cfg))) in
  match jwt_sign jwt (AuthJWTSecret cfg) claims with
  | Err e => Ret (Err (Errorf ("sign access token: " +:+ error_text e)))
  | Ok access =>
      raw <-! randomToken;
      id <- call UNewID;
      _ <- udb (AReplaceRefreshToken
                  (mkRefreshToken id (u_ID user) (hashToken raw) (Add now (RefreshTokenTTL cfg)) now));
      Ret (Ok (mkTokenResponse (u_ID user) (u_IsGuest user) (u_Status user) access raw
                 tokenTypeBearer (Z.quot (AccessTokenTTL cfg) Second)))
  end.

Definition parseAccessToken (now : time) (token : string) : result error accessClaims :=
  match jwt_verify jwt (AuthJWTSecret cfg) now token with
  | None => Err (Api (Unauthenticated "invalid access token"))
  | Some c =>
      if String.eqb (ac_Subject c) "" then Err (Api (Unauthenticated "invalid access token"))
      else Ok c
  end.

Definition createGuest (deviceID : string) : uprog (result error User) :=
  now <- call UNow;
  id <- call UNewID;
  let user := mkUser id None None (Some deviceID) true None UserStatusActive None None None now now in
  _ <-! udb (ACreateUser user);
  Ret (Ok user).

Definition IssueGuest (deviceID : string) : uprog (result error TokenResponse) :=
  match normalizeDeviceID deviceID with
  | Err e => Ret (Err e)
  | Ok normalized =>
      found <- udb (AGetActiveByDeviceID normalized);
      match found with
      | Ok user => issueSession user
      | Err e =>
          if negb (Is e ErrNotFound) then Ret (Err e) else
          created <- createGuest normalized;
          match created with
          | Ok user => issueSession user
          | Err e =>
              again <- udb (AGetActiveByDeviceID normalized);
              match again with
              | Ok user => issueSession user
              | Err _ => Ret (Err e)
              end
          end
      end
  end.

Definition mergedFrom (targetID : string) : uprog (option string) :=
  guest <- udb (AFindGuestMergedInto targetID);
  Ret (match guest with Ok g => Some (u_ID g) | Err _ => None end).

Definition Merge (actorUserID deviceID : string) : uprog (result error MergeResponse) :=
  match normalizeDeviceID deviceID with
  | Err e => Ret (Err e)
  | Ok normalized =>
      actor <- udb (AGetUser actorUserID);
      match actor with
      | Err e => Ret (Err (if Is e ErrNotFound then Api (Unauthenticated "invalid access token") else e))
      | Ok actor =>
          if u_IsGuest actor then Ret (Err (Api (PermissionDenied "registered account required"))) else
          if negb (active actor) then Ret (Err (Api (Unauthenticated "account is not active"))) else
          holder <- udb (AGetActiveByDeviceID normalized);
          match holder with
          | Err e => Ret (Err (if Is e ErrNotFound then Api (NotFound "guest identity not found") else e))
          | Ok holder =>
              if String.eqb (u_ID holder) (u_ID actor) then
                from <- mergedFrom (u_ID actor);
                _ <- match from with
                     | Some f => udb (ADeleteRefreshTokens f)
                     | None => Ret tt
                     end;
                Ret (Ok (mkMergeResponse (u_ID actor) false from true))
              else if negb (u_IsGuest holder)
              then Ret (Err (Api (Conflict "device_id is bound to another account"))) else
              _ <-! call (UReassign (u_ID holder) (u_ID actor));
              _ <- udb (ADeleteRefreshTokens (u_ID holder));
              now <- call UNow;
              _ <-! udb (AMarkMerged (u_ID holder) (u_ID actor) normalized now);
              Ret (Ok (mkMergeResponse (u_ID actor) false (Some (u_ID holder)) false))
          end
      end
  end.

Definition Authenticate (accessToken : string) : uprog (result error User) :=
  now <- call UNow;
  match parseAccessToken now accessToken with
  | Err e => Ret (Err e)
  | Ok claims =>
      user <- udb (AGetUser (ac_Subject claims));
      match user with
      | Err e => Ret (Err (if Is e ErrNotFound then Api (Unauthenticated "invalid access token") else e))
      | Ok user =>
          if negb (active user) then Ret (Err (Api (Unauthenticated "account is not active")))
          else Ret (Ok user)
      end
  end.

Definition Refresh (refreshToken : string) : uprog (result error TokenResponse) :=
  let raw := TrimSpace refreshToken in
  if String.eqb raw "" then Ret (Err (Api (InvalidArgument "refresh_token is required"))) else
  stored <- udb (AGetRefreshToken (hashToken raw));
  match stored with
  | Err e => Ret (Err (if Is e ErrNotFound then Api (Unauthenticated "invalid refresh token") else e))
  | Ok stored =>
      now <- call UNow;
      if negb (After (rt_ExpiresAt stored) now)
      then Ret (Err (Api (Unauthenticated "refresh token expired"))) else
      user <- udb (AGetUser (rt_UserID stored));
      match user with
      | Err e => Ret (Err (if Is e ErrNotFound then Api (Unauthenticated "invalid refresh token") else e))
      | Ok user =>
          if negb (active user) then Ret (Err (Api (Unauthenticated "account is not active")))
          else issueSession user
      end
  end.

Definition email_taken : error := Api (Conflict "这个邮箱已经注册过了").

Definition RegisterEmail (email password : string) : uprog (result error TokenResponse) :=
  match normalizeEmail email with
  | Err _ => Ret (Err (Api (InvalidArgument "邮箱格式不对")))
  | Ok normalized =>
      match validatePassword password with
      | Some message => Ret (Err (Api (InvalidArgument message)))
      | None =>
          existing <- udb (AGetActiveByEmail normalized);
          match existing with
          | Ok _ => Ret (Err email_taken)
          | Err e =>
              if negb (Is e ErrNotFound) then Ret (Err e) else
              hash <- hashPassword password;
              match hash with
              | Err _ => Ret (Err (Api (Internal "密码没能存下来")))
              | Ok hash =>
                  now <- call UNow;
                  id <- call UNewID;
                  let user := mkUser id (Some normalized) None None false (Some hash)
                                UserStatusActive None None None now now in
                  created <- udb (ACreateUser user);
                  match created with
                  | Err e => Ret (Err (if Is e ErrDuplicateEmail then email_taken else e))
                  | Ok _ => issueSession user
                  end
              end
          end
      end
  end.

Definition errCredentialRejected : error := Api (Unauthenticated "邮箱或密码不对").

Definition LoginEmail (email password : string) : uprog (result error TokenResponse) :=
  match normalizeEmail email with
  | Err _ => Ret (Err errCredentialRejected)
  | Ok normalized =>
      found <- udb (AGetActiveByEmail normalized);
      match found with
      | Err e =>
          if Is e ErrNotFound then
            _ <- hashPassword password;
            Ret (Err errCredentialRejected)
          else Ret (Err e)
      | Ok user =>
          match (if u_IsGuest user then None else u_PasswordHash user) with
          | None => Ret (Err errCredentialRejected)
          | Some hash =>
              match verifyPassword hash password with
              | Some e =>
                  Ret (Err (if Is e ErrInvalidPasswordHash
                            then Api (Internal "登录服务暂时不可用") else errCredentialRejected))
              | None => issueSession user
              end
          end
      end
  end.
End service.

(** * What the password text guarantees

    A stored text is read back as the salt and key it was made of, so a password
    verifies exactly when it derives the stored key: the right one always does,
    and a wrong one is a mismatch, never a broken hash. *)


(** ** Digests are 32 bytes *)

Lemma be_bytes_spec n z : length (be_bytes n z) = n /\ Forall is_byte (be_bytes n z).
Proof.
  revert z. induction n as [|n IH]; intros z; cbn; [by split|].
  destruct (IH (z / 256)) as [Hl Hb]. rewrite length_app, Hl. cbn. split; [lia|].
  apply Forall_app. split; [done|]. repeat constructor; unfold is_byte; apply Z.mod_pos_bound; lia.
Qed.

Lemma sha_round_length h kw : length h = 8%nat -> length (sha_round h kw) = 8%nat.
Proof. intros H. do 8 (destruct h as [|? h]; [done|]). by destruct h. Qed.

Lemma sha_rounds_length ws h : length h = 8%nat -> length (foldl sha_round h ws) = 8%nat.
Proof.
  revert h. induction ws as [|w ws IH]; intros h H; [done|]. by apply IH, sha_round_length.
Qed.

Lemma sha_blocks_length fuel h l : length h = 8%nat -> length (sha_blocks fuel h l) = 8%nat.
Proof.
  revert h l. induction fuel as [|fuel IH]; intros h [|b l] H; try done. cbn. apply IH.
  unfold sha_block. rewrite length_zip_with, sha_rounds_length, H by done. lia.
Qed.

Lemma Sum256_digest msg : length (Sum256 msg) = 32%nat /\ Forall is_byte (Sum256 msg).
Proof.
  unfold Sum256. set (ws := sha_blocks _ _ _).
  assert (length ws = 8%nat) as Hw by by apply sha_blocks_length.
  split.
  - do 8 (destruct ws as [|? ws]; [done|]). destruct ws; [|done].
    cbn [map concat]. rewrite !length_app, !(proj1 (be_bytes_spec _ _)). done.
  - clear Hw. induction ws as [|w ws IH]; cbn [map concat]; [constructor|].
    apply Forall_app. split; [apply be_bytes_spec|done].
Qed.

Lemma xor_bytes_spec a b :
  length a = length b -> Forall is_byte a -> Forall is_byte b ->
  length (xor_bytes a b) = length a /\ Forall is_byte (xor_bytes a b).
Proof.
  intros Hl Ha Hb. unfold xor_bytes. rewrite length_zip_with, Hl. split; [lia|].
  clear Hl. revert b Hb. induction Ha as [|x a Hx _ IH]; intros [|y b] Hb; cbn; try constructor.
  - apply Forall_cons in Hb as [Hy _]. unfold is_byte in *.
    split; [apply Z.lxor_nonneg; lia|].
    destruct (Z.eq_dec (Z.lxor x y) 0) as [->|Hne]; [lia|].
    apply (Z.log2_lt_pow2 _ 8); [|].
    { assert (0 <= Z.lxor x y) by (apply Z.lxor_nonneg; lia). lia. }
    pose proof (Z.log2_lxor x y ltac:(lia) ltac:(lia)).
    assert (forall z, 0 <= z < 256 -> Z.log2 z < 8) as Hz.
    { intros z Hz. destruct (Z.eq_dec z 0) as [->|]; [done|]. apply Z.log2_lt_pow2; lia. }
    pose proof (Hz x ltac:(lia)). pose proof (Hz y ltac:(lia)). lia.
  - apply IH. by apply Forall_cons in Hb as [_ ?].
Qed.

Definition digest (l : list Z) : Prop := length l = 32%nat /\ Forall is_byte l.

Lemma hmac_digest key msg : digest (hmac key msg).
Proof. apply Sum256_digest. Qed.

Lemma pbkdf2_block_digest password salt iter i : digest (pbkdf2_block password salt iter i).
Proof.
  unfold pbkdf2_block. set (u1 := hmac password _). assert (digest u1) as H1 by apply hmac_digest.
  set (step := fun st : list Z * list Z => _).
  assert (forall st, digest st.2 -> digest (step st).2) as Hstep.
  { intros st [Hl Hb]. unfold step. cbn. destruct (hmac_digest password st.1) as [Hl' Hb'].
    destruct (xor_bytes_spec st.2 (hmac password st.1)) as [Hl2 Hb2]; [congruence|done..|].
    split; [congruence|done]. }
  destruct (iter - 1) as [|p|p]; cbn; [done| |done].
  apply (Pos.iter_invariant p _ step (fun st => digest st.2)); [|done]. intros st. apply Hstep.
Qed.

Lemma derive_key password salt iter : digest (derive password salt iter 32).
Proof.
  unfold derive, pbkdf2_key. change (seq 1 ((32 + 31) / 32)) with [1%nat].
  cbn [map concat]. rewrite app_nil_r.
  destruct (pbkdf2_block_digest (byte_values password) salt iter (Z.of_nat 1)) as [Hl Hb].
  rewrite take_ge by lia. by split.
Qed.

(** ** Splitting the text *)

Lemma split_byte_run sep cur x l :
  sep ∉ x -> split_byte sep cur (x ++ sep :: l) = (rev cur ++ x) :: split_byte sep [] l.
Proof.
  revert cur. induction x as [|a x IH]; intros cur Hx; cbn [app split_byte].
  - by rewrite Ascii.eqb_refl, app_nil_r.
  - apply not_elem_of_cons in Hx as [Ha Hx]. replace (Ascii.eqb a sep) with false.
    + rewrite IH by done. cbn. by rewrite <- app_assoc.
    + symmetry. apply Ascii.eqb_neq. congruence.
Qed.

Lemma split_byte_last sep cur x : sep ∉ x -> split_byte sep cur x = [rev cur ++ x].
Proof.
  revert cur. induction x as [|a x IH]; intros cur Hx; cbn [split_byte]; [by rewrite app_nil_r|].
  apply not_elem_of_cons in Hx as [Ha Hx]. replace (Ascii.eqb a sep) with false.
  - rewrite IH by done. cbn. by rewrite <- app_assoc.
  - symmetry. apply Ascii.eqb_neq. congruence.
Qed.

Lemma b64std_no_dollar d : 0 <= d < 64 -> b64std d <> dollar.
Proof.
  intros Hd.
  assert (forallb (fun d => negb (Ascii.eqb (b64std d) dollar)) b64_digits = true) as H by by vm_compute.
  rewrite forallb_forall in H. assert (In d b64_digits) as Hin.
  { apply in_map_iff. exists (Z.to_nat d). rewrite in_seq. lia. }
  specialize (H d Hin). apply negb_true_iff, Ascii.eqb_neq in H. done.
Qed.

Lemma encode_no_dollar l : Forall is_byte l -> dollar ∉ b64_encode b64std l.
Proof.
  induction l as [l IH] using (induction_ltof1 _ (@length Z)). unfold ltof in IH. intros Hl.
  assert (forall a b, 0 <= a < 64 -> dollar <> b64std a /\ (a = b -> dollar <> b64std b)) as Hd.
  { intros a b Ha. split; [|intros <-]; intros E; by apply (b64std_no_dollar a Ha). }
  assert (forall a, is_byte a -> 0 <= a / 4 < 64 /\ 0 <= a mod 4 < 4 /\ 0 <= a / 16 < 16 /\
            0 <= a mod 16 < 16 /\ 0 <= a / 64 < 4 /\ 0 <= a mod 64 < 64) as Hb.
  { unfold is_byte. intros a Ha. repeat split; try (apply Z.mod_pos_bound; lia);
      try (apply Z.div_pos; lia); apply Z.div_lt_upper_bound; lia. }
  destruct l as [|a [|b [|c l]]]; cbn [b64_encode].
  - apply not_elem_of_nil.
  - apply Forall_cons in Hl as [Ha _]. apply Hb in Ha.
    repeat (apply not_elem_of_cons; split); try apply not_elem_of_nil; apply (Hd _ 0); lia.
  - apply Forall_cons in Hl as [Ha [Hb' _]%Forall_cons]. apply Hb in Ha, Hb'.
    repeat (apply not_elem_of_cons; split); try apply not_elem_of_nil; apply (Hd _ 0); lia.
  - apply Forall_cons in Hl as [Ha [Hb' [Hc Hl]%Forall_cons]%Forall_cons].
    apply Hb in Ha, Hb', Hc.
    repeat (apply not_elem_of_cons; split); try (apply (Hd _ 0); lia). apply IH; [cbn; lia|done].
Qed.

#[local] Opaque derive.

(** Passwords are kept by what they derive: the stored text of a password
    accepts exactly the passwords that derive the same key from its salt — the
    password itself among them — and answers a mismatch to every other, never
    that the text is broken. *)
Lemma password_verifies password salt :
  Forall is_byte salt ->
  verifyPassword (hash_with password salt) password = None /\
  forall guess,
    verifyPassword (hash_with password salt) guess =
      if bool_decide (derive guess salt passwordIterations passwordKeyBytes =
                      derive password salt passwordIterations passwordKeyBytes)
      then None else Some ErrPasswordMismatch.
Proof.
  intros Hs. pose proof (derive_key password salt passwordIterations) as [Hlen Hkey].
  change 32%nat with passwordKeyBytes in Hlen, Hkey.
  assert (forall guess, verifyPassword (hash_with password salt) guess =
      if bool_decide (derive guess salt passwordIterations passwordKeyBytes =
                      derive password salt passwordIterations passwordKeyBytes)
      then None else Some ErrPasswordMismatch) as H.
  { intros guess. unfold hash_with. set (key := derive password salt _ _) in *.
    unfold verifyPassword, password_text.
    rewrite !to_bytes_app. change (to_bytes "$") with [dollar]. cbn [app].
    unfold RawStdEncode.
    remember (to_bytes passwordHashAlgorithm) as alg eqn:Ealg.
    remember (to_bytes (pretty passwordIterations)) as its eqn:Eits.
    assert (dollar ∉ alg) as Ha by (subst alg; apply (bool_decide_unpack _); vm_compute; exact I).
    assert (dollar ∉ its) as Hi by (subst its; apply (bool_decide_unpack _); vm_compute; exact I).
    assert (Atoi its = Some passwordIterations) as Hat by (subst its; vm_compute; reflexivity).
    clear Eits. rewrite !list_ascii_of_string_of_list_ascii.
    rewrite split_byte_run by exact Ha. rewrite split_byte_run by exact Hi.
    rewrite split_byte_run by by apply encode_no_dollar.
    rewrite split_byte_last by by apply encode_no_dollar.
    cbn [rev app]. rewrite Ealg, string_of_list_ascii_of_string, String.eqb_refl. cbn [negb].
    rewrite Hat. change (passwordIterations <=? 0) with false. cbn beta iota.
    rewrite !b64_roundtrip by (done || exact b64std_alphabet).
    rewrite Hlen. change (passwordKeyBytes =? 0)%nat with false. cbv zeta. reflexivity. }
  split; [|exact H]. rewrite H. by rewrite bool_decide_eq_true_2.
Qed.
