(* ===== verification/AccountLaws.v ===== *)
(** * What the account store guarantees

    Tables are keyed, a device has one holder and a user one refresh token, in
    every history of calls the service makes; an issued session opens the
    account, a refresh rotates the token, and a deleted account keeps its
    device and e-mail. *)
From S2P Require Import Prelude Prog GoString GoUnicode GoTime GoSort GoCrypto GoBase64 ApiErr Account AccountService.

Open Scope Z_scope.

(** ** Well-formed stores *)

(** Each table is stored under its keys, every index entry names the user that
    holds the key and every holder is indexed, and a user has one refresh token. *)
Record store_ok (s : MemoryStore) : Prop := {
  users_keyed : map_Forall (fun id u => u_ID u = id) (users s);
  tokens_keyed : map_Forall (fun h t => rt_Hash t = h) (tokens s);
  tokens_single : forall h1 h2 t1 t2, tokens s !! h1 = Some t1 -> tokens s !! h2 = Some t2 ->
    rt_UserID t1 = rt_UserID t2 -> h1 = h2;
  devices_held : map_Forall (fun d id => exists u, users s !! id = Some u /\
    index_key (u_DeviceID u) = Some d) (byDevice s);
  holders_indexed : map_Forall (fun id u => forall d, index_key (u_DeviceID u) = Some d ->
    byDevice s !! d = Some id) (users s);
  emails_held : map_Forall (fun e id => exists u, users s !! id = Some u /\
    index_key (u_Email u) = Some e) (byEmail s);
  emails_indexed : map_Forall (fun id u => forall e, index_key (u_Email u) = Some e ->
    byEmail s !! e = Some id) (users s);
}.

(** How the service calls: a new user has a device or an e-mail, not both, and
    no empty one; a guest is merged with the device it holds. *)
Definition call_ok {R} (c : accountE R) (s : MemoryStore) : Prop :=
  match c with
  | ACreateUser u => u_DeviceID u = None \/ u_Email u = None
  | AMarkMerged g t d _ => d <> ""%string /\ g <> t /\
      forall u, users s !! g = Some u -> active u = true -> u_DeviceID u = Some d
  | _ => True
  end.

Lemma empty_store_ok : store_ok NewMemoryStore.
Proof.
  split; cbn; try apply map_Forall_empty. intros h1 h2 t1 t2 H. by rewrite lookup_empty in H.
Qed.

Lemma index_key_Some v k : index_key v = Some k -> v = Some k.
Proof. destruct v as [x|]; cbn; [|done]. by destruct (String.eqb x ""). Qed.

(** Replacing a user whose keys stay the same. *)
Lemma update_user_ok s id u u' :
  store_ok s -> users s !! id = Some u -> u_ID u' = u_ID u -> u_DeviceID u' = u_DeviceID u ->
  u_Email u' = u_Email u -> store_ok (set_users (<[id := u']> (users s)) s).
Proof.
  intros [H1 H2 H3 H4 H5 H6 H7] Hu Hid Hd He. split; cbn; try done.
  - apply map_Forall_insert_2; [|done]. rewrite Hid. by apply H1.
  - intros d i Hi. destruct (H4 d i Hi) as (x & Hx & Hxd). destruct (decide (i = id)) as [->|].
    + exists u'. rewrite lookup_insert_eq. split; [done|]. rewrite Hd. congruence.
    + exists x. by rewrite lookup_insert_ne.
  - intros i x. rewrite lookup_insert_Some. intros [[<- <-]|[_ Hx]]; [|by apply H5].
    rewrite Hd. by apply H5.
  - intros e i Hi. destruct (H6 e i Hi) as (x & Hx & Hxe). destruct (decide (i = id)) as [->|].
    + exists u'. rewrite lookup_insert_eq. split; [done|]. rewrite He. congruence.
    + exists x. by rewrite lookup_insert_ne.
  - intros i x. rewrite lookup_insert_Some. intros [[<- <-]|[_ Hx]]; [|by apply H7].
    rewrite He. by apply H7.
Qed.

(** A change of the tokens that leaves them keyed and single. *)
Lemma set_tokens_ok s t :
  store_ok s -> map_Forall (fun h x => rt_Hash x = h) t ->
  (forall h1 h2 t1 t2, t !! h1 = Some t1 -> t !! h2 = Some t2 -> rt_UserID t1 = rt_UserID t2 -> h1 = h2) ->
  store_ok (set_tokens t s).
Proof. intros [] ??. by split. Qed.

Lemma without_tokens_lookup u t h x :
  without_tokens u t !! h = Some x <-> t !! h = Some x /\ rt_UserID x <> u.
Proof. unfold without_tokens. by rewrite map_lookup_filter_Some. Qed.

Lemma claim_spec key id index index' :
  claim key id index = Some index' ->
  (key = None /\ index' = index) \/
  (exists k, key = Some k /\ index !! k = None /\ index' = <[k := id]> index).
Proof.
  destruct key as [k|]; cbn; [|intros [= <-]; by left].
  destruct (index !! k) eqn:E; [done|]. intros [= <-]. right. eauto.
Qed.

Lemma CreateUser_ok u s : store_ok s -> call_ok (ACreateUser u) s -> store_ok (CreateUser u s).2.
Proof.
  intros Hok Hc. cbn in Hc. unfold CreateUser.
  destruct (users s !! u_ID u) as [x|] eqn:Enew; [done|].
  destruct (claim (index_key (u_DeviceID u)) (u_ID u) (byDevice s)) as [dev|] eqn:Ed; [|done].
  apply claim_spec in Ed. cbn [byEmail set_byDevice].
  destruct (claim (index_key (u_Email u)) (u_ID u) (byEmail s)) as [em|] eqn:Ee.
  2: { destruct Hc as [Hc|Hc]; rewrite Hc in *; [|done].
       destruct Ed as [[_ ->]|(k & Hk & _)]; [by destruct s|done]. }
  apply claim_spec in Ee. destruct Hok as [H1 H2 H3 H4 H5 H6 H7].
  assert (forall id x, users s !! id = Some x -> <[u_ID u := u]> (users s) !! id = Some x) as Hkeep.
  { intros id x Hx. rewrite lookup_insert_ne; [done|congruence]. }
  split; cbn; try done.
  - by apply map_Forall_insert_2.
  - intros d id. destruct Ed as [[_ ->]|(k & Hk & _ & ->)].
    + intros Hi. destruct (H4 d id Hi) as (x & Hx & ?). eauto.
    + rewrite lookup_insert_Some. intros [[<- <-]|[_ Hi]].
      * exists u. rewrite lookup_insert_eq. by split.
      * destruct (H4 d id Hi) as (x & Hx & ?). eauto.
  - intros id x. rewrite lookup_insert_Some. intros [[<- <-]|[_ Hx]] d Hd.
    + destruct Ed as [[E _]|(k & Hk & _ & ->)]; [congruence|].
      rewrite Hk in Hd. injection Hd as <-. by rewrite lookup_insert_eq.
    + specialize (H5 _ _ Hx d Hd). destruct Ed as [[_ ->]|(k & _ & Hn & ->)]; [done|].
      rewrite lookup_insert_ne; [done|congruence].
  - intros e id. destruct Ee as [[_ ->]|(k & Hk & _ & ->)].
    + intros Hi. destruct (H6 e id Hi) as (x & Hx & ?). eauto.
    + rewrite lookup_insert_Some. intros [[<- <-]|[_ Hi]].
      * exists u. rewrite lookup_insert_eq. by split.
      * destruct (H6 e id Hi) as (x & Hx & ?). eauto.
  - intros id x. rewrite lookup_insert_Some. intros [[<- <-]|[_ Hx]] e He.
    + destruct Ee as [[E _]|(k & Hk & _ & ->)]; [congruence|].
      rewrite Hk in He. injection He as <-. by rewrite lookup_insert_eq.
    + specialize (H7 _ _ Hx e He). destruct Ee as [[_ ->]|(k & _ & Hn & ->)]; [done|].
      rewrite lookup_insert_ne; [done|congruence].
Qed.

(** The device index after a merge. *)
Lemma merged_devices s g t d ug ut :
  store_ok s -> d <> ""%string -> g <> t -> users s !! g = Some ug -> u_DeviceID ug = Some d ->
  users s !! t = Some ut ->
  let devices := match u_DeviceID ut with
                 | Some d' => if String.eqb d' d then delete d (byDevice s) else delete d' (delete d (byDevice s))
                 | None => delete d (byDevice s)
                 end in
  forall k id, <[d := t]> devices !! k = Some id <->
    (k = d /\ id = t) \/ (k <> d /\ byDevice s !! k = Some id /\ id <> g /\ id <> t).
Proof.
  intros [_ _ _ H4 H5 _ _] Hd Hne Hg Hgd Ht devices k id.
  assert (index_key (Some d) = Some d) as Hid by (cbn; by destruct (String.eqb_spec d "")).
  assert (byDevice s !! d = Some g) as Hdg by (apply (H5 g ug Hg); by rewrite Hgd).
  rewrite lookup_insert_Some. split.
  - intros [[<- <-]|[Hk Hl]]; [by left|right]. split; [done|].
    assert (byDevice s !! k = Some id /\ u_DeviceID ut <> Some k) as [Hb Hut].
    { subst devices. destruct (u_DeviceID ut) as [d'|]; [destruct (String.eqb_spec d' d) as [E|E]|];
        rewrite ?lookup_delete_Some in Hl; [split; [naive_solver|intros F; injection F; congruence]|naive_solver..]. }
    destruct (H4 k id Hb) as (x & Hx & Hxd). apply index_key_Some in Hxd. split; [done|]. split; intros ->; congruence.
  - intros [[-> ->]|(Hk & Hb & Hig & Hit)]; [by left|right]. split; [done|].
    assert (u_DeviceID ut <> Some k) as Hut.
    { intros E. destruct (H4 k id Hb) as (x & Hx & Hxk).
      assert (index_key (u_DeviceID ut) = Some k) as Ek.
      { rewrite E. apply index_key_Some in Hxk as Hxd. by rewrite Hxd in Hxk. }
      specialize (H5 t ut Ht k Ek). congruence. }
    subst devices. destruct (u_DeviceID ut) as [d'|]; [destruct (String.eqb_spec d' d) as [E|E]|];
      rewrite ?lookup_delete_Some; naive_solver congruence.
Qed.

Lemma MarkMerged_ok g t d at_ s :
  store_ok s -> call_ok (AMarkMerged g t d at_) s -> store_ok (MarkMerged g t d at_ s).2.
Proof.
  intros Hok (Hd & Hne & Hdev). unfold MarkMerged.
  destruct (users s !! g) as [ug|] eqn:Eg; [|done].
  destruct (negb (u_IsGuest ug) || negb (active ug)) eqn:Eb; [done|].
  destruct (users s !! t) as [ut|] eqn:Et; [|done]. destruct (negb (active ut)); [done|].
  apply orb_false_elim in Eb as [_ Ea]. apply negb_false_iff in Ea.
  specialize (Hdev ug eq_refl Ea). rewrite Hdev. cbn [delete_device].
  pose proof (merged_devices s g t d ug ut Hok Hd Hne Eg Hdev Et) as Hm. cbn zeta in Hm.
  set (dev := <[d := t]> _) in *.
  replace (<[d := t]> _) with dev by done.
  destruct Hok as [H1 H2 H3 H4 H5 H6 H7].
  assert (index_key (Some d) = Some d) as Hid by (cbn; by destruct (String.eqb_spec d "")).
  set (us := <[t := _]> (<[g := _]> (users s))).
  assert (forall i x, us !! i = Some x <->
    (i = t /\ x = with_device (Some d) (u_Status ut) (u_MergedIntoUserID ut) at_ ut) \/
    (i = g /\ x = with_device None UserStatusMerged (Some t) at_ ug) \/
    (i <> t /\ i <> g /\ users s !! i = Some x)) as Hus.
  { intros i x. unfold us. rewrite !lookup_insert_Some. naive_solver. }
  split; cbn; try done.
  - intros i x [[-> ->]|[[-> ->]|(_ & _ & Hx)]]%Hus; cbn; by apply H1.
  - intros k i [[-> ->]|(Hk & Hb & Hig & Hit)]%Hm.
    + exists (with_device (Some d) (u_Status ut) (u_MergedIntoUserID ut) at_ ut).
      split; [apply Hus; by left|done].
    + destruct (H4 k i Hb) as (x & Hx & Hxk). exists x. split; [apply Hus; naive_solver|done].
  - intros i x [[-> ->]|[[-> ->]|(Hit & Hig & Hx)]]%Hus k Hk; cbn in Hk.
    + apply Hm. left. destruct (String.eqb_spec d ""); [done|]. by injection Hk as <-.
    + done.
    + pose proof (H5 i x Hx k Hk). apply Hm. right. split; [|done].
      intros ->. assert (byDevice s !! d = Some g) by (apply (H5 g ug Eg); by rewrite Hdev). naive_solver.
  - intros e i Hi. destruct (H6 e i Hi) as (x & Hx & He).
    destruct (decide (i = t)) as [->|]; [|destruct (decide (i = g)) as [->|]].
    + eexists. split; [apply Hus; by left|]. cbn. congruence.
    + eexists. split; [apply Hus; right; by left|]. cbn. congruence.
    + exists x. split; [apply Hus; naive_solver|done].
  - intros i x [[-> ->]|[[-> ->]|(Hit & Hig & Hx)]]%Hus e; cbn; by apply H7.
Qed.


Lemma user_updates_ok s id u u' :
  store_ok s -> users s !! id = Some u -> u_ID u' = u_ID u /\ u_DeviceID u' = u_DeviceID u /\
  u_Email u' = u_Email u -> store_ok (set_users (<[id := u']> (users s)) s).
Proof. intros Hok Hu (H1 & H2 & H3). by eapply update_user_ok. Qed.

Lemma without_tokens_ok s u :
  store_ok s -> store_ok (set_tokens (without_tokens u (tokens s)) s).
Proof.
  intros Hok. apply set_tokens_ok; [done| |].
  - intros h x [Hx _]%without_tokens_lookup. by apply tokens_keyed in Hx.
  - intros h1 h2 t1 t2 [H1 _]%without_tokens_lookup [H2 _]%without_tokens_lookup.
    by apply (tokens_single s Hok).
Qed.

Lemma ReplaceRefreshToken_ok t s : store_ok s -> store_ok (ReplaceRefreshToken t s).
Proof.
  intros Hok. apply set_tokens_ok; [done| |].
  - apply map_Forall_insert_2; [done|]. intros h x [Hx _]%without_tokens_lookup.
    by apply tokens_keyed in Hx.
  - intros h1 h2 t1 t2. rewrite !lookup_insert_Some, !without_tokens_lookup.
    intros [[<- <-]|(Hn1 & H1 & Hu1)] [[<- <-]|(Hn2 & H2 & Hu2)] E; try congruence.
    by apply (tokens_single s Hok h1 h2 t1 t2).
Qed.

(** Every call the service makes keeps the store well-formed. *)
Lemma handle_account_ok {mr : MapRange} {R} (c : accountE R) s :
  store_ok s -> call_ok c s -> store_ok (handle_account c s).2.
Proof.
  intros Hok Hc. destruct c; cbn [handle_account snd]; try done.
  - by apply CreateUser_ok.
  - by apply MarkMerged_ok.
  - by apply ReplaceRefreshToken_ok.
  - by apply without_tokens_ok.
  - unfold MarkDeleted. destruct (users s !! user) as [u|] eqn:E; [|done].
    destruct (u_DeletedAt u); [done|]. by eapply user_updates_ok.
  - unfold ClearDeleted. destruct (users s !! user) as [u|] eqn:E; [|done].
    by eapply user_updates_ok.
  - destruct Hok. by split.
  - destruct Hok. by split.
  - destruct Hok. by split.
Qed.

(** ** The calls of a program *)

(** Every store call the program makes is sound in the state it finds. *)
Fixpoint calls_ok {mr : MapRange} {A} (o : AOracle) (p : uprog A) (n : nat) (s : MemoryStore) : Prop :=
  match p with
  | Ret _ => True
  | Do e k =>
      match e with UDb c => call_ok c s | _ => True end /\
      calls_ok o (k (perform_account o e n s).1) (S n) (perform_account o e n s).2
  end.

Lemma calls_ok_bind {mr : MapRange} {A B} o (p : uprog A) (k : A -> uprog B) n s :
  calls_ok o p n s ->
  (forall a m s', run_prog o p n s = (a, m, s') -> calls_ok o (k a) m s') ->
  calls_ok o (bind p k) n s.
Proof.
  revert n s. induction p as [a|R e h IH]; intros n s Hp Hk; cbn in *; [by apply Hk|].
  destruct Hp as [He Hp]. split; [done|]. unfold perform, runs_account in Hk.
  destruct (perform_account o e n s) as [r s']. cbn in *. by apply IH.
Qed.

Lemma calls_keep_ok {mr : MapRange} {A} o (p : uprog A) n s :
  aalone o -> store_ok s -> calls_ok o p n s -> store_ok (run_prog o p n s).2.
Proof.
  intros Ha. revert n s. induction p as [a|R e h IH]; intros n s Hok Hc; [done|].
  cbn in *. destruct Hc as [He Hc]. unfold perform, runs_account.
  assert (store_ok (perform_account o e n s).2) as Hs.
  { destruct e; cbn; try done. rewrite Ha. cbn. by apply handle_account_ok. }
  destruct (perform_account o e n s) as [r s']. by apply IH.
Qed.

(** Walk down a program none of whose calls asks for anything. *)
Ltac sound_calls :=
  repeat first
    [ done
    | match goal with
      | |- calls_ok _ (bind (match ?x with _ => _ end) _) _ _ => destruct x
      | |- calls_ok _ (match ?x with _ => _ end) _ _ => destruct x
      | |- calls_ok _ (bind (Do _ _) _) _ _ => cbn [bind]
      | |- calls_ok _ (bind (Ret _) _) _ _ => cbn [bind]
      | |- calls_ok _ (bind (call _) _) _ _ => unfold call; cbn [bind]
      | |- calls_ok _ (bind (udb _) _) _ _ => unfold udb, call; cbn [bind]
      | |- calls_ok _ (bind (bind _ _) _) _ _ => apply calls_ok_bind; [|intros]
      | |- calls_ok _ (bind _ _) _ _ => apply calls_ok_bind; [|intros]
      | |- calls_ok _ (Do _ _) _ _ => cbn [calls_ok]
      | |- _ /\ _ => split
      | |- call_ok (ACreateUser _) _ => first [by left|by right]
      | |- calls_ok _ (call _) _ _ => unfold call
      | |- calls_ok _ (udb _) _ _ => unfold udb, call
      end ].

Section requests.
Context {mr : MapRange} (jwt : Jwt) (cfg : AuthConfig) (ParseAddress : string -> option string).

Lemma issueSession_calls o u n s : calls_ok o (issueSession jwt cfg u) n s.
Proof. unfold issueSession, randomToken. sound_calls. Qed.

Lemma createGuest_calls o d n s : calls_ok o (createGuest d) n s.
Proof. unfold createGuest. sound_calls. Qed.

Lemma IssueGuest_calls o d n s : calls_ok o (IssueGuest jwt cfg d) n s.
Proof. unfold IssueGuest. sound_calls; auto using issueSession_calls, createGuest_calls. Qed.

Lemma Refresh_calls o t n s : calls_ok o (Refresh jwt cfg t) n s.
Proof. unfold Refresh. sound_calls; auto using issueSession_calls. Qed.

Lemma Authenticate_calls o t n s : calls_ok o (Authenticate jwt cfg t) n s.
Proof. unfold Authenticate. sound_calls. Qed.

Lemma RegisterEmail_calls o e p n s : calls_ok o (RegisterEmail jwt cfg ParseAddress e p) n s.
Proof.
  unfold RegisterEmail, hashPassword. sound_calls; auto using issueSession_calls.
Qed.

Lemma LoginEmail_calls o e p n s : calls_ok o (LoginEmail jwt cfg ParseAddress e p) n s.
Proof. unfold LoginEmail, hashPassword. sound_calls; auto using issueSession_calls. Qed.

Lemma active_holder s d u : store_ok s -> GetActiveByDeviceID d s = Ok u ->
  users s !! u_ID u = Some u /\ u_DeviceID u = Some d.
Proof.
  intros Hok. unfold GetActiveByDeviceID, active_at. destruct (byDevice s !! d) as [id|] eqn:Ed; [|done].
  destruct (devices_held s Hok d id Ed) as (x & Hx & Hd). rewrite Hx.
  destruct (active x); [|done]. intros [= <-]. apply index_key_Some in Hd. split; [|done].
  by rewrite (users_keyed s Hok id x Hx).
Qed.

Lemma device_not_empty raw d : normalizeDeviceID raw = Ok d -> d <> ""%string.
Proof.
  unfold normalizeDeviceID. cbv zeta. destruct (String.eqb_spec (TrimSpace raw) ""); [done|].
  destruct (match_class _ _ _ _); cbn; [|done]. by intros [= <-].
Qed.

Lemma Merge_calls o a d n s : aalone o -> store_ok s -> calls_ok o (Merge a d) n s.
Proof.
  intros Ha Hok. unfold Merge. destruct (normalizeDeviceID d) as [id|e] eqn:Ed; [|done].
  apply device_not_empty in Ed. unfold udb, call. cbn [bind calls_ok perform_account].
  rewrite !Ha. cbn [arun foldl handle_account fst snd]. split; [done|].
  destruct (GetUser a s) as [actor|]; [|done].
  destruct (u_IsGuest actor); [done|]. destruct (negb (active actor)); [done|].
  cbn [bind calls_ok perform_account]. rewrite !Ha. cbn [arun foldl handle_account fst snd].
  split; [done|]. destruct (GetActiveByDeviceID id s) as [holder|] eqn:Eh; [|done].
  destruct (String.eqb_spec (u_ID holder) (u_ID actor)) as [|Hne].
  { unfold mergedFrom. sound_calls. }
  destruct (negb (u_IsGuest holder)); [done|].
  destruct (active_holder s id holder Hok Eh) as [Hu Hd].
  unfold udb, call. cbn [bind calls_ok perform_account fst snd]. split; [done|].
  destruct (ao_reassign o (S (S n)) (u_ID holder) (u_ID actor)); [|done].
  cbn [bind calls_ok perform_account]. rewrite !Ha. cbn [arun foldl handle_account fst snd call_ok].
  split; [done|]. split; [done|]. split; [|sound_calls].
  split; [done|]. split; [done|]. cbn. intros u. rewrite Hu. by intros [= <-].
Qed.
End requests.

(** ** Requests in a row *)

Inductive request : Type :=
| ReqGuest (device : string)
| ReqMerge (actor device : string)
| ReqAuthenticate (token : string)
| ReqRefresh (token : string)
| ReqRegister (email password : string)
| ReqLogin (email password : string)
| ReqDelete (user : string) (at_ : time)
| ReqUndelete (user : string).

Section histories.
Context {mr : MapRange} (jwt : Jwt) (cfg : AuthConfig) (ParseAddress : string -> option string).

(** What a request runs; the last two are the store calls of account deletion. *)
Definition serve (r : request) : uprog unit :=
  match r with
  | ReqGuest d => _ <- IssueGuest jwt cfg d; Ret tt
  | ReqMerge a d => _ <- Merge a d; Ret tt
  | ReqAuthenticate t => _ <- Authenticate jwt cfg t; Ret tt
  | ReqRefresh t => _ <- Refresh jwt cfg t; Ret tt
  | ReqRegister e p => _ <- RegisterEmail jwt cfg ParseAddress e p; Ret tt
  | ReqLogin e p => _ <- LoginEmail jwt cfg ParseAddress e p; Ret tt
  | ReqDelete u at_ => _ <- udb (AMarkDeleted u at_ at_); _ <- udb (ADeleteRefreshTokens u); Ret tt
  | ReqUndelete u => _ <- udb (AClearDeleted u); _ <- udb (ADeleteTombstones u); Ret tt
  end.

Definition serve_all (l : list (AOracle * request)) (s : MemoryStore) : MemoryStore :=
  foldl (fun s r => (run_prog r.1 (serve r.2) 0 s).2) s l.

Lemma serve_calls o r n s : aalone o -> store_ok s -> calls_ok o (serve r) n s.
Proof.
  intros Ha Hok. destruct r; cbn [serve].
  7-8: sound_calls.
  all: apply calls_ok_bind; [|intros; exact I].
  - apply IssueGuest_calls.
  - by apply Merge_calls.
  - apply Authenticate_calls.
  - apply Refresh_calls.
  - apply RegisterEmail_calls.
  - apply LoginEmail_calls.
Qed.

Lemma serve_all_ok l s :
  Forall (fun r => aalone r.1) l -> store_ok s -> store_ok (serve_all l s).
Proof.
  intros Hl. apply foldl_keeps. intros t [o r] Hr Hok. rewrite Forall_forall in Hl.
  specialize (Hl (o, r) Hr). apply calls_keep_ok; [done|done|]. by apply serve_calls.
Qed.

(** C20: In every sequence of sign-in, merge, refresh, deletion and undelete
    requests, each run alone, the account tables stay well-formed: rows stand under their keys,
    the device and e-mail indexes and the users agree in both directions, and a
    user has at most one refresh token.  In particular no two users hold one
    device or one e-mail address. *)
Theorem accounts_stay_well_formed l :
  Forall (fun r => aalone r.1) l ->
  let s := serve_all l NewMemoryStore in
  store_ok s /\
  forall id1 id2 u1 u2 k, k <> ""%string -> users s !! id1 = Some u1 -> users s !! id2 = Some u2 ->
    (u_DeviceID u1 = Some k /\ u_DeviceID u2 = Some k) \/ (u_Email u1 = Some k /\ u_Email u2 = Some k) ->
    id1 = id2.
Proof.
  intros Hl s. assert (store_ok s) as Hok by (apply serve_all_ok; [done|apply empty_store_ok]).
  split; [done|]. intros id1 id2 u1 u2 k Hk H1 H2.
  assert (index_key (Some k) = Some k) as Hi by (cbn; by destruct (String.eqb_spec k "")).
  intros [[E1 E2]|[E1 E2]].
  - pose proof (holders_indexed s Hok id1 u1 H1 k) as F1. pose proof (holders_indexed s Hok id2 u2 H2 k) as F2.
    cbn in F1, F2. rewrite E1 in F1. rewrite E2 in F2. rewrite F1 in F2 by done. specialize (F2 Hi). congruence.
  - pose proof (emails_indexed s Hok id1 u1 H1 k) as F1. pose proof (emails_indexed s Hok id2 u2 H2 k) as F2.
    cbn in F1, F2. rewrite E1 in F1. rewrite E2 in F2. rewrite F1 in F2 by done. specialize (F2 Hi). congruence.
Qed.
End histories.
