(* ===== verification/AccountSessions.v ===== *)
(** * What a session guarantees

    A session that was issued opens its account until it expires and is the only
    one of its user; a refresh token works once; a registered password logs in;
    a deleted account keeps its device and e-mail address. *)
From stdpp Require Import pretty.
From S2P Require Import Prelude Prog GoString GoUnicode GoTime GoSort GoCrypto GoBase64 ApiErr Account AccountService AccountLaws.

Open Scope Z_scope.

Section sessions.
Context {mr : MapRange} (jwt : Jwt) {laws : JwtLaws jwt} (cfg : AuthConfig).
Context (ParseAddress : string -> option string).

(** The store after the user's tokens gave way to one for [resp]. *)
Definition session_row (u : User) (resp : TokenResponse) (s s' : MemoryStore) : Prop :=
  exists t, rt_UserID t = u_ID u /\ rt_Hash t = hashToken (tr_RefreshToken resp) /\
    s' = ReplaceRefreshToken t s.

(** The access token of [resp] was signed for [u] and lives until [until]. *)
Definition signed_for (u : User) (resp : TokenResponse) (until : time) : Prop :=
  exists c, jwt_sign jwt (AuthJWTSecret cfg) c = Ok (tr_AccessToken resp) /\
    ac_Subject c = u_ID u /\ ac_Issuer c = tokenIssuer /\ ac_ExpiresAt c = until.

Lemma issueSession_spec o u n s resp m s' :
  aalone o -> run_prog o (issueSession jwt cfg u) n s = (Ok resp, m, s') ->
  tr_UserID resp = u_ID u /\ session_row u resp s s' /\
  signed_for u resp (NumericDate (Add (ao_now o n) (AccessTokenTTL cfg))).
Proof.
  intros Ha. unfold issueSession, randomToken, udb, call.
  cbn [bind run_prog perform runs_account perform_account].
  destruct (jwt_sign _ _ _) as [access|] eqn:Es; [|done].
  cbn [bind run_prog perform runs_account perform_account].
  destruct (ao_rand o _ _) as [b|]; [|done].
  cbn [bind run_prog perform runs_account perform_account]. rewrite Ha.
  cbn [arun foldl handle_account]. intros [= <- _ <-]. split; [done|]. split.
  - eexists. split; [|split; [|reflexivity]]; done.
  - eexists. split; [exact Es|]. done.
Qed.

(** ** What the requests answer *)

Inductive sign_in : Type :=
| SignInGuest (device : string)
| SignInRefresh (token : string)
| SignInRegister (email password : string)
| SignInLogin (email password : string).

Definition sign_in_prog (r : sign_in) : uprog (result error TokenResponse) :=
  match r with
  | SignInGuest d => IssueGuest jwt cfg d
  | SignInRefresh t => Refresh jwt cfg t
  | SignInRegister e p => RegisterEmail jwt cfg ParseAddress e p
  | SignInLogin e p => LoginEmail jwt cfg ParseAddress e p
  end.

(** What a successful sign-in leaves: a session of an active user. *)
Definition signed_in (o : AOracle) (resp : TokenResponse) (s' : MemoryStore) : Prop :=
  exists u s1 k, users s1 !! u_ID u = Some u /\ active u = true /\ store_ok s1 /\
    tr_UserID resp = u_ID u /\ session_row u resp s1 s' /\
    signed_for u resp (NumericDate (Add (ao_now o k) (AccessTokenTTL cfg))).

Lemma issue_signed_in o u n s resp m s' :
  aalone o -> store_ok s -> users s !! u_ID u = Some u -> active u = true ->
  run_prog o (issueSession jwt cfg u) n s = (Ok resp, m, s') -> signed_in o resp s'.
Proof.
  intros Ha Hok Hu Hact Hr. destruct (issueSession_spec o u n s resp m s' Ha Hr) as (H1 & H2 & H3).
  exists u, s, n. done.
Qed.

Lemma active_at_spec key index s u :
  active_at index key s = Ok u -> exists id, index !! key = Some id /\ users s !! id = Some u /\ active u = true.
Proof.
  unfold active_at. destruct (index !! key) as [id|] eqn:Ei; [|done].
  destruct (users s !! id) as [x|] eqn:Ex; [|done]. destruct (active x) eqn:Ea; [|done].
  intros [= <-]. eauto.
Qed.

Lemma active_at_user key index s u :
  store_ok s -> active_at index key s = Ok u -> users s !! u_ID u = Some u /\ active u = true.
Proof.
  intros Hok (id & _ & Hu & Ha)%active_at_spec. split; [|done].
  by rewrite (users_keyed s Hok id u Hu).
Qed.

Lemma created_user u s : store_ok s -> call_ok (ACreateUser u) s ->
  (CreateUser u s).1 = Ok tt ->
  users (CreateUser u s).2 !! u_ID u = Some u /\ store_ok (CreateUser u s).2.
Proof.
  intros Hok Hc H. split; [|by apply CreateUser_ok]. revert H. unfold CreateUser.
  destruct (users s !! u_ID u); [done|]. destruct (claim _ _ (byDevice s)); [|done].
  destruct (claim _ _ _); [|done]. intros _. cbn. apply lookup_insert_eq.
Qed.

Ltac step Ha :=
  unfold udb, call; cbn [bind run_prog perform runs_account perform_account];
  rewrite ?Ha; cbn [arun foldl handle_account fst snd].

Lemma guest_signed_in o d n s resp m s' :
  aalone o -> store_ok s -> run_prog o (IssueGuest jwt cfg d) n s = (Ok resp, m, s') ->
  signed_in o resp s'.
Proof.
  intros Ha Hok. unfold IssueGuest, createGuest. destruct (normalizeDeviceID d) as [id|]; [|done].
  step Ha. destruct (GetActiveByDeviceID id s) as [u|e] eqn:Eu.
  { destruct (active_at_user _ _ _ _ Hok Eu) as [Hu Hact]. by apply issue_signed_in. }
  destruct (negb (Is e ErrNotFound)); [done|]. step Ha.
  set (u := mkUser _ _ _ _ _ _ _ _ _ _ _ _).
  assert (call_ok (ACreateUser u) s) as Hc by by right.
  pose proof (created_user u s Hok Hc) as Hu. pose proof (CreateUser_ok u s Hok Hc) as Hok1.
  destruct (CreateUser u s) as [[[]|e1] s1]; cbn in Hu, Hok1.
  - destruct Hu as [Hu _]; [done|]. step Ha. by apply issue_signed_in.
  - step Ha. destruct (GetActiveByDeviceID id s1) as [v|] eqn:Ev; [|done].
    destruct (active_at_user _ _ _ _ Hok1 Ev) as [Hv Hact]. by apply issue_signed_in.
Qed.

Lemma refresh_signed_in o t n s resp m s' :
  aalone o -> store_ok s -> run_prog o (Refresh jwt cfg t) n s = (Ok resp, m, s') ->
  signed_in o resp s' /\ exists tok, tokens s !! hashToken (TrimSpace t) = Some tok /\
    tr_UserID resp = rt_UserID tok.
Proof.
  intros Ha Hok. unfold Refresh, GetRefreshToken. cbv zeta.
  destruct (String.eqb (TrimSpace t) ""); [done|]. step Ha. unfold GetRefreshToken.
  destruct (tokens s !! hashToken (TrimSpace t)) as [tok|] eqn:Et; [|done]. step Ha.
  destruct (negb (After (rt_ExpiresAt tok) _)); [done|]. step Ha. unfold GetUser.
  destruct (users s !! rt_UserID tok) as [u|] eqn:Eu; [|done].
  destruct (active u) eqn:Eact; [|done]. cbn [negb]. intros Hr.
  pose proof (users_keyed s Hok _ u Eu) as Hid. cbn in Hid.
  split; [by eapply (issue_signed_in o u); rewrite ?Hid|].
  exists tok. split; [done|]. rewrite <- Hid.
  by destruct (issueSession_spec _ _ _ _ _ _ _ Ha Hr).
Qed.

Lemma login_signed_in o e p n s resp m s' :
  aalone o -> store_ok s -> run_prog o (LoginEmail jwt cfg ParseAddress e p) n s = (Ok resp, m, s') ->
  signed_in o resp s'.
Proof.
  intros Ha Hok. unfold LoginEmail, hashPassword. destruct (normalizeEmail ParseAddress e) as [em|]; [|done].
  step Ha. destruct (GetActiveByEmail em s) as [u|err] eqn:Eu.
  - destruct (if u_IsGuest u then None else u_PasswordHash u) as [h|]; [|done].
    destruct (verifyPassword h p); [done|].
    destruct (active_at_user _ _ _ _ Hok Eu) as [Hu Hact]. by apply issue_signed_in.
  - destruct (Is err ErrNotFound); [|done]. step Ha. by destruct (ao_rand _ _ _).
Qed.

Lemma register_signed_in o e p n s resp m s' :
  aalone o -> store_ok s -> run_prog o (RegisterEmail jwt cfg ParseAddress e p) n s = (Ok resp, m, s') ->
  signed_in o resp s'.
Proof.
  intros Ha Hok. unfold RegisterEmail, hashPassword.
  destruct (normalizeEmail ParseAddress e) as [em|]; [|done]. destruct (validatePassword p); [done|].
  step Ha. destruct (GetActiveByEmail em s) as [u|err]; [done|].
  destruct (negb (Is err ErrNotFound)); [done|]. step Ha.
  destruct (ao_rand o _ _) as [salt|]; [|done]. step Ha. set (u := mkUser _ _ _ _ _ _ _ _ _ _ _ _).
  assert (call_ok (ACreateUser u) s) as Hc by by left.
  pose proof (created_user u s Hok Hc) as Hu.
  destruct (CreateUser u s) as [[[]|e1] s1]; cbn in Hu; [|done].
  destruct Hu as [Hu Hok1]; [done|]. step Ha. by apply issue_signed_in.
Qed.

Lemma sign_in_signed o r n s resp m s' :
  aalone o -> store_ok s -> run_prog o (sign_in_prog r) n s = (Ok resp, m, s') -> signed_in o resp s'.
Proof.
  intros Ha Hok. destruct r; cbn [sign_in_prog]; intros Hr.
  - by eapply guest_signed_in.
  - by eapply refresh_signed_in.
  - by eapply register_signed_in.
  - by eapply login_signed_in.
Qed.

Lemma signed_in_tokens o resp s' :
  signed_in o resp s' -> store_ok s' /\
  (exists t, tokens s' !! hashToken (tr_RefreshToken resp) = Some t /\ rt_UserID t = tr_UserID resp) /\
  forall h t, tokens s' !! h = Some t -> rt_UserID t = tr_UserID resp ->
    h = hashToken (tr_RefreshToken resp).
Proof.
  intros (u & s1 & k & _ & _ & Hok & -> & (t & Hid & Hh & ->) & _).
  assert (store_ok (ReplaceRefreshToken t s1)) as Hok' by by apply ReplaceRefreshToken_ok.
  assert (tokens (ReplaceRefreshToken t s1) !! rt_Hash t = Some t) as Ht by (cbn; apply lookup_insert_eq).
  rewrite <- Hh. split; [done|]. split; [by exists t|].
  intros h x Hx Hu. apply (tokens_single _ Hok' h (rt_Hash t) x t Hx Ht). congruence.
Qed.

Lemma Authenticate_answers o n s token c u :
  aalone o -> jwt_verify jwt (AuthJWTSecret cfg) (ao_now o n) token = Some c ->
  ac_Subject c <> ""%string -> users s !! ac_Subject c = Some u -> active u = true ->
  run_prog o (Authenticate jwt cfg token) n s = (Ok u, S (S n), s).
Proof.
  intros Ha Hv Hn Hu Hact. unfold Authenticate, parseAccessToken. step Ha. rewrite Hv.
  apply String.eqb_neq in Hn. rewrite Hn. step Ha. unfold GetUser. by rewrite Hu, Hact.
Qed.

(** A sign-in that runs alone and succeeds — as a guest, by a refresh token, by registering
    or with a password — leaves one refresh token for its user, the one it
    answers, and an access token that opens exactly that active account until
    its lifetime, counted from an instant of the sign-in, has passed. *)
Theorem session_opens_account o r n s resp m s' :
  aalone o -> store_ok s -> run_prog o (sign_in_prog r) n s = (Ok resp, m, s') ->
  tr_UserID resp <> ""%string ->
  (exists t, tokens s' !! hashToken (tr_RefreshToken resp) = Some t /\ rt_UserID t = tr_UserID resp) /\
  (forall h t, tokens s' !! h = Some t -> rt_UserID t = tr_UserID resp ->
     h = hashToken (tr_RefreshToken resp)) /\
  exists k, forall o2 n2, aalone o2 ->
    ao_now o2 n2 < NumericDate (Add (ao_now o k) (AccessTokenTTL cfg)) ->
    exists u, run_prog o2 (Authenticate jwt cfg (tr_AccessToken resp)) n2 s' = (Ok u, S (S n2), s') /\
      u_ID u = tr_UserID resp /\ active u = true.
Proof.
  intros Ha Hok Hr Hne. pose proof (sign_in_signed o r n s resp m s' Ha Hok Hr) as Hs.
  destruct (signed_in_tokens o resp s' Hs) as (_ & H1 & H2). split; [done|]. split; [done|].
  destruct Hs as (u & s1 & k & Hu & Hact & _ & Hid & (t & _ & _ & ->) & (c & Hsign & Hsub & Hiss & Hexp)).
  exists k. intros o2 n2 Ha2 Hlt. rewrite <- Hexp in Hlt.
  pose proof (jwt_verifies _ c _ (ao_now o2 n2) Hsign Hiss Hlt) as Hv.
  exists u. rewrite Hid. split; [|done].
  apply (Authenticate_answers o2 n2 _ _ c u Ha2 Hv); rewrite ?Hsub; try done. congruence.
Qed.

(** C21: A refresh token works once: after a refresh that ran alone the presented
    token is refused as invalid, nothing changes, and the tokens of the other users are the ones
    there were. *)
Theorem refresh_token_works_once o token n s resp m s' :
  aalone o -> store_ok s -> run_prog o (Refresh jwt cfg token) n s = (Ok resp, m, s') ->
  hashToken (tr_RefreshToken resp) <> hashToken (TrimSpace token) ->
  (forall o2 n2, aalone o2 ->
     run_prog o2 (Refresh jwt cfg token) n2 s' =
       (Err (Api (Unauthenticated "invalid refresh token")), S n2, s')) /\
  (forall h t, rt_UserID t <> tr_UserID resp -> h <> hashToken (tr_RefreshToken resp) ->
     tokens s' !! h = Some t <-> tokens s !! h = Some t).
Proof.
  intros Ha Hok Hr Hne. pose proof Hr as Hr'.
  unfold Refresh in Hr'. cbv zeta in Hr'.
  destruct (String.eqb (TrimSpace token) "") eqn:Et; [done|].
  revert Hr'. step Ha. unfold GetRefreshToken.
  destruct (tokens s !! hashToken (TrimSpace token)) as [tok|] eqn:Etok; [|done]. step Ha.
  destruct (negb (After (rt_ExpiresAt tok) _)); [done|]. step Ha. unfold GetUser.
  destruct (users s !! rt_UserID tok) as [u|] eqn:Eu; [|done].
  destruct (active u) eqn:Eact; [|done]. cbn [negb]. intros Hi.
  pose proof (users_keyed s Hok _ u Eu) as Hid. cbn in Hid.
  destruct (issueSession_spec _ _ _ _ _ _ _ Ha Hi) as (Hresp & (t & Htu & Hth & ->) & _).
  split.
  - intros o2 n2 Ha2. unfold Refresh. cbv zeta. rewrite Et. step Ha2. unfold GetRefreshToken.
    replace (tokens (ReplaceRefreshToken t s) !! hashToken (TrimSpace token)) with (@None RefreshToken); [done|].
    symmetry. cbn. rewrite lookup_insert_ne by congruence.
    apply map_lookup_filter_None_2. right. intros x Hx. rewrite Etok in Hx. injection Hx as <-. cbn. intros F. apply F. congruence.
  - intros h x Hx Hh. cbn. rewrite lookup_insert_ne by congruence.
    rewrite without_tokens_lookup. split; [by intros []|]. intros; split; [done|]. congruence.
Qed.

#[local] Opaque derive hash_with verifyPassword.

(** Registering and logging in, each alone, fit together: the password an account was
    registered with logs into that account, and a password that derives another
    key is refused with the same answer as an unknown address, leaving the
    store as it was. *)
Theorem registered_password_logs_in o email password n s resp m s' :
  aalone o -> (forall k len b, ao_rand o k len = Ok b -> Forall is_byte b) -> store_ok s ->
  run_prog o (RegisterEmail jwt cfg ParseAddress email password) n s = (Ok resp, m, s') ->
  exists u salt, u_ID u = tr_UserID resp /\ users s' !! u_ID u = Some u /\ active u = true /\
    forall o2 n2, aalone o2 ->
      run_prog o2 (LoginEmail jwt cfg ParseAddress email password) n2 s' =
        run_prog o2 (issueSession jwt cfg u) (S n2) s' /\
      forall guess,
        derive guess salt passwordIterations passwordKeyBytes <>
          derive password salt passwordIterations passwordKeyBytes ->
        run_prog o2 (LoginEmail jwt cfg ParseAddress email guess) n2 s' =
          (Err errCredentialRejected, S n2, s').
Proof.
  intros Ha Hrand Hok. unfold RegisterEmail, hashPassword.
  destruct (normalizeEmail ParseAddress email) as [em|] eqn:Eem; [|done].
  destruct (validatePassword password); [done|].
  step Ha. destruct (GetActiveByEmail em s) as [|err]; [done|].
  destruct (negb (Is err ErrNotFound)); [done|]. step Ha.
  destruct (ao_rand o _ _) as [salt|] eqn:Esalt; [|done]. step Ha.
  set (u := mkUser _ _ _ _ _ _ _ _ _ _ _ _).
  assert (call_ok (ACreateUser u) s) as Hc by by left.
  pose proof (created_user u s Hok Hc) as Hu.
  destruct (CreateUser u s) as [[[]|e1] s1]; cbn in Hu; [|done].
  destruct Hu as [Hu Hok1]; [done|]. step Ha. intros Hi.
  destruct (issueSession_spec _ _ _ _ _ _ _ Ha Hi) as (Hid & (t & _ & _ & ->) & _).
  exists u, salt. split; [done|]. split; [done|]. split; [done|].
  destruct (password_verifies password salt (Hrand _ _ _ Esalt)) as [Hright Hguess].
  assert (GetActiveByEmail em (ReplaceRefreshToken t s1) = Ok u) as Hget.
  { unfold GetActiveByEmail, active_at. cbn [byEmail ReplaceRefreshToken set_tokens users].
    assert (em <> ""%string) as Hem.
    { unfold normalizeEmail in Eem. cbv zeta in Eem.
      destruct (String.eqb_spec (ToLower (TrimSpace email)) ""); [done|].
      destruct (ParseAddress _); [|done]. destruct (String.eqb _ _); [|done]. by injection Eem as <-. }
    pose proof (emails_indexed s1 Hok1 _ u Hu em) as Hix. cbn in Hix.
    apply String.eqb_neq in Hem. rewrite Hem in Hix. rewrite (Hix eq_refl).
    by rewrite Hu. }
  intros o2 n2 Ha2. unfold LoginEmail. rewrite Eem. step Ha2. rewrite Hget. cbn [u_IsGuest u_PasswordHash u].
  split; [by rewrite Hright|]. intros guess Hne.
  rewrite Hguess, bool_decide_eq_false_2 by done. reflexivity.
Qed.

(** A deleted account keeps its keys, also from a request that runs alone: while its device or its e-mail address
    belongs to a user that is not active, no new guest can be issued for the
    device and no account registered for the address, whatever the time. *)
Theorem deleted_account_keeps_keys o n s u key raw password :
  aalone o -> store_ok s -> users s !! u_ID u = Some u -> active u = false -> key <> ""%string ->
  (u_DeviceID u = Some key -> normalizeDeviceID raw = Ok key ->
     is_ok (run_prog o (IssueGuest jwt cfg raw) n s).1.1 = false) /\
  (u_Email u = Some key -> normalizeEmail ParseAddress raw = Ok key ->
     is_ok (run_prog o (RegisterEmail jwt cfg ParseAddress raw password) n s).1.1 = false).
Proof.
  intros Ha Hok Hu Hact Hne. apply String.eqb_neq in Hne.
  assert (forall index, index !! key = Some (u_ID u) -> active_at index key s = Err ErrNotFound) as Hmiss.
  { intros index Hi. unfold active_at. by rewrite Hi, Hu, Hact. }
  split; intros Hkey Hraw.
  - assert (byDevice s !! key = Some (u_ID u)) as Hix.
    { apply (holders_indexed s Hok _ u Hu). rewrite Hkey. cbn. by rewrite Hne. }
    unfold IssueGuest, createGuest. rewrite Hraw. step Ha.
    unfold GetActiveByDeviceID. rewrite (Hmiss _ Hix). change (negb (Is ErrNotFound ErrNotFound)) with false.
    cbn iota. step Ha. set (g := mkUser _ _ _ _ _ _ _ _ _ _ _ _).
    assert (exists e, CreateUser g s = (Err e, s)) as [e ->].
    { unfold CreateUser. destruct (users s !! u_ID g); [by eexists|]. cbn [u_DeviceID g index_key].
      rewrite Hne. cbn [claim]. rewrite Hix. by eexists. }
    step Ha. unfold GetActiveByDeviceID. by rewrite (Hmiss _ Hix).
  - assert (byEmail s !! key = Some (u_ID u)) as Hix.
    { apply (emails_indexed s Hok _ u Hu). rewrite Hkey. cbn. by rewrite Hne. }
    unfold RegisterEmail, hashPassword. rewrite Hraw. destruct (validatePassword password); [done|].
    step Ha. unfold GetActiveByEmail. rewrite (Hmiss _ Hix).
    change (negb (Is ErrNotFound ErrNotFound)) with false. cbn iota. step Ha.
    destruct (ao_rand o _ _); [|done]. step Ha. set (g := mkUser _ _ _ _ _ _ _ _ _ _ _ _).
    assert (exists e, (CreateUser g s).1 = Err e) as [e He].
    { unfold CreateUser. destruct (users s !! u_ID g); [by eexists|]. cbn [u_DeviceID g index_key claim].
      cbn [u_Email g index_key byEmail set_byDevice]. rewrite Hne. cbn [claim]. rewrite Hix. by eexists. }
    destruct (CreateUser g s) as [r s1]. cbn in He. by rewrite He.
Qed.
End sessions.

(** ** A signer, and accounts to run the requests on *)

Fixpoint pos_text (p : positive) : string :=
  match p with
  | xH => ""
  | xO p => String "0" (pos_text p)
  | xI p => String "1" (pos_text p)
  end.

Fixpoint text_pos (s : string) : positive :=
  match s with
  | EmptyString => xH
  | String a s => if Ascii.eqb a "1" then xI (text_pos s) else xO (text_pos s)
  end.

Lemma text_pos_text p : text_pos (pos_text p) = p.
Proof. induction p as [p IH|p IH|]; cbn; congruence. Qed.

(** A field of a token: each of its characters behind a dot, then a stop. *)
Fixpoint spell (field rest : string) : string :=
  match field with
  | EmptyString => String "!" rest
  | String a field => String "." (String a (spell field rest))
  end.

Fixpoint unspell (s : string) : string * string :=
  match s with
  | String mark (String a s' as rest) =>
      if Ascii.eqb mark "." then let '(f, r) := unspell s' in (String a f, r) else (""%string, rest)
  | _ => (""%string, ""%string)
  end.

Lemma unspell_spell f r : unspell (spell f r) = (f, r).
Proof. induction f as [|a f IH]; cbn; [by destruct r|]. by rewrite IH. Qed.

Definition number (z : Z) : string := pos_text (encode z).
Definition read_number (s : string) : option Z := decode (text_pos s).

Lemma read_number_text z : read_number (number z) = Some z.
Proof. unfold read_number, number. by rewrite text_pos_text, decode_encode. Qed.

Definition spell_claims (secret : string) (c : accessClaims) : string :=
  spell secret (spell (if ac_IsGuest c then "g" else "u") (spell (ac_Subject c) (spell (ac_Issuer c)
    (spell (ac_ID c) (spell (number (ac_IssuedAt c)) (spell (number (ac_ExpiresAt c)) ""))))))%string.

Definition read_claims (token : string) : string * option accessClaims :=
  let '(secret, r) := unspell token in
  let '(g, r) := unspell r in
  let '(sub, r) := unspell r in
  let '(iss, r) := unspell r in
  let '(id, r) := unspell r in
  let '(iat, r) := unspell r in
  let '(exp, r) := unspell r in
  (secret, match read_number iat, read_number exp with
           | Some iat, Some exp => Some (mkClaims (String.eqb g "g") sub iss id iat exp)
           | _, _ => None
           end).

Lemma read_spelled secret c : read_claims (spell_claims secret c) = (secret, Some c).
Proof.
  unfold read_claims, spell_claims. rewrite !unspell_spell, !read_number_text.
  destruct c as [[] sub iss id iat exp]; done.
Qed.

(** A token spells the secret and the claims out. *)
Definition plain_jwt : Jwt :=
  mkJwt (fun secret c => Ok (spell_claims secret c))
    (fun secret now token =>
       match read_claims token with
       | (secret', Some c) =>
           if String.eqb secret' secret && String.eqb (ac_Issuer c) tokenIssuer && (now <? ac_ExpiresAt c)
           then Some c else None
       | _ => None
       end).

#[local] Instance plain_jwt_laws : JwtLaws plain_jwt.
Proof.
  split. intros secret c t now [= <-] Hi Hn. cbn [jwt_verify plain_jwt].
  rewrite read_spelled, Hi, !String.eqb_refl. apply Z.ltb_lt in Hn. by rewrite Hn.
Qed.

Definition hour_cfg : AuthConfig := mkAuthConfig Hour (24 * Hour) "secret".

(** The clock starts at [t]; identifiers and random bytes count up from [k]. *)
Definition quiet_accounts (t k : Z) : AOracle :=
  mkAOracle (fun n => t * Second + Z.of_nat n) (fun n => "id-" +:+ pretty (k + Z.of_nat n))
    (fun n len => Ok (repeat ((k + Z.of_nat n) mod 256) len)) (fun _ _ _ => Ok tt) (fun _ => []).

Lemma quiet_alone t k : aalone (quiet_accounts t k).
Proof. done. Qed.

#[local] Existing Instance key_order.

(** A guest on one phone. *)
Definition guest_signed : (result error TokenResponse * nat * MemoryStore) :=
  run_prog (quiet_accounts 0 0) (IssueGuest plain_jwt hour_cfg "phone-1") 0 NewMemoryStore.

Definition no_address (s : string) : option string := Some s.

Lemma accounts_stay_well_formed_witness :
  let s := serve_all plain_jwt hour_cfg no_address
             [(quiet_accounts 0 0, ReqGuest "phone-1"); (quiet_accounts 9 50, ReqGuest "phone-2");
              (quiet_accounts 20 100, ReqDelete "id-2" 20)] NewMemoryStore in
  store_ok s /\ size (users s) = 2%nat.
Proof.
  intros s. split; [|by vm_compute].
  destruct (accounts_stay_well_formed plain_jwt hour_cfg no_address
    [(quiet_accounts 0 0, ReqGuest "phone-1"); (quiet_accounts 9 50, ReqGuest "phone-2");
     (quiet_accounts 20 100, ReqDelete "id-2" 20)]) as [H _]; [|exact H].
  repeat constructor; apply quiet_alone.
Defined.

Lemma guest_store_ok : store_ok guest_signed.2.
Proof.
  apply calls_keep_ok; [apply quiet_alone|apply empty_store_ok|apply IssueGuest_calls].
Qed.

Lemma session_opens_account_witness :
  exists resp m s', guest_signed = (Ok resp, m, s') /\
    is_ok (run_prog (quiet_accounts 60 100)
             (Authenticate plain_jwt hour_cfg (tr_AccessToken resp)) 0 s').1.1 = true.
Proof.
  assert (match guest_signed.1.1 with Ok r => negb (String.eqb (tr_UserID r) "") | Err _ => false end = true)
    as Hid by (vm_compute; reflexivity).
  destruct guest_signed as [[[resp|e] m] s'] eqn:E; [|done].
  exists resp, m, s'. split; [done|].
  destruct (session_opens_account plain_jwt hour_cfg no_address
    (quiet_accounts 0 0) (SignInGuest "phone-1") 0 NewMemoryStore resp m s'
    (quiet_alone 0 0) empty_store_ok E) as (_ & _ & k & H).
  - cbn in Hid. by destruct (String.eqb_spec (tr_UserID resp) "").
  - destruct (H (quiet_accounts 60 100) 0%nat (quiet_alone 60 100)) as (u & Hr & _).
    + cbn [ao_now quiet_accounts]. unfold NumericDate, Truncate, Add, hour_cfg. cbn [AccessTokenTTL].
      assert (0 < Second) as Hsec by done.
      pose proof (Z.mod_pos_bound (0 * Second + Z.of_nat k + Hour - zero_time) Second Hsec).
      change Hour with (3600 * Second) in *. lia.
    + by rewrite Hr.
Defined.

(** The guest's second session, by the refresh token of the first. *)
Definition guest_refreshed : (result error TokenResponse * nat * MemoryStore) :=
  match guest_signed.1.1 with
  | Ok r => run_prog (quiet_accounts 60 100) (Refresh plain_jwt hour_cfg (tr_RefreshToken r)) 0 guest_signed.2
  | Err e => (Err e, 0%nat, guest_signed.2)
  end.

Lemma refresh_token_works_once_witness :
  exists resp resp2 m2 s2, guest_signed.1.1 = Ok resp /\ guest_refreshed = (Ok resp2, m2, s2) /\
    is_ok (run_prog (quiet_accounts 70 200)
             (Refresh plain_jwt hour_cfg (tr_RefreshToken resp)) 0 s2).1.1 = false.
Proof.
  pose proof guest_store_ok as Hok.
  assert (match guest_signed.1.1, guest_refreshed.1.1 with
          | Ok r, Ok r2 => negb (String.eqb (hashToken (tr_RefreshToken r2)) (hashToken (TrimSpace (tr_RefreshToken r))))
          | _, _ => false
          end = true) as Hnew by (vm_compute; reflexivity).
  assert (forall r, guest_signed.1.1 = Ok r -> guest_refreshed =
    run_prog (quiet_accounts 60 100) (Refresh plain_jwt hour_cfg (tr_RefreshToken r)) 0 guest_signed.2) as Href.
  { intros r Hr. unfold guest_refreshed. by rewrite Hr. }
  destruct guest_signed.1.1 as [resp|e]; [|done]. specialize (Href resp eq_refl).
  destruct guest_refreshed as [[[resp2|e] m2] s2]; [|done].
  exists resp, resp2, m2, s2. split; [done|]. split; [done|].
  destruct (refresh_token_works_once plain_jwt hour_cfg (quiet_accounts 60 100) (tr_RefreshToken resp) 0
    guest_signed.2 resp2 m2 s2 (quiet_alone 60 100) Hok (eq_sym Href)) as [H _].
  - by apply negb_true_iff, String.eqb_neq in Hnew.
  - by rewrite (H (quiet_accounts 70 200) 0%nat (quiet_alone 70 200)).
Defined.

Lemma deleted_account_keeps_keys_witness :
  let s := (MarkDeleted "id-2" 20 20 guest_signed.2).2 in
  is_ok (run_prog (quiet_accounts 60 100) (IssueGuest plain_jwt hour_cfg "phone-1") 0 s).1.1 = false.
Proof.
  intros s. assert (store_ok s) as Hok.
  { apply (handle_account_ok (AMarkDeleted "id-2" 20 20)); [apply guest_store_ok|done]. }
  destruct (users s !! "id-2"%string) as [u|] eqn:Eu; [|vm_compute in Eu; discriminate Eu].
  pose proof (users_keyed s Hok _ u Eu) as Hid. cbn in Hid.
  destruct (deleted_account_keeps_keys plain_jwt hour_cfg no_address (quiet_accounts 60 100) 0 s u
    "phone-1" "phone-1" "" (quiet_alone 60 100) Hok) as [H _]; [by rewrite Hid| |done|].
  - vm_compute in Eu. by injection Eu as <-.
  - apply H; [|by vm_compute]. vm_compute in Eu. by injection Eu as <-.
Defined.

Lemma registered_password_logs_in_witness :
  exists resp m s',
    run_prog (quiet_accounts 0 0)
      (RegisterEmail plain_jwt hour_cfg no_address "ann@example.org" "correct horse") 0 NewMemoryStore
      = (Ok resp, m, s') /\
    exists u, u_ID u = tr_UserID resp /\
      run_prog (quiet_accounts 60 100)
        (LoginEmail plain_jwt hour_cfg no_address "ann@example.org" "correct horse") 0 s' =
      run_prog (quiet_accounts 60 100) (issueSession plain_jwt hour_cfg u) 1 s'.
Proof.
  set (p := RegisterEmail _ _ _ _ _).
  assert (is_ok (run_prog (quiet_accounts 0 0) p 0 NewMemoryStore).1.1 = true) as Hr by reflexivity.
  destruct (run_prog (quiet_accounts 0 0) p 0 NewMemoryStore) as [[[resp|e] m] s'] eqn:E; [|done].
  exists resp, m, s'. split; [done|].
  destruct (registered_password_logs_in plain_jwt hour_cfg no_address (quiet_accounts 0 0)
    "ann@example.org" "correct horse" 0 NewMemoryStore resp m s' (quiet_alone 0 0)) as (u & salt & Hid & _ & _ & H).
  - intros k len b [= <-]. apply Forall_forall. intros x ->%list_elem_of_In%repeat_spec.
    apply Z.mod_pos_bound. lia.
  - apply empty_store_ok.
  - exact E.
  - exists u. split; [done|]. by destruct (H (quiet_accounts 60 100) 0%nat (quiet_alone 60 100)).
Defined.

