(* ===== verification/Materials.v ===== *)
(** * Materials: data, store and refinement ([internal/materials])

    [model.go], [memory_store.go], [service.go] and [refiner.go].  The service
    runs over its own store and the corpus, next to other goroutines; the model
    and the transport are an oracle, a started goroutine is noted in the state.
    Logging and metrics are left out. *)
From S2P Require Import Prelude Prog GoString GoUnicode GoTime GoSort GoJson ApiErr Corpus CorpusStore CorpusLaws.

Open Scope Z_scope.
Open Scope prog_scope.

Definition KindPaste : string := "paste".
Definition KindSentence : string := "sentence".
Definition KindURL : string := "url".
Definition StatusQueued : string := "queued".
Definition StatusProcessing : string := "processing".
Definition StatusReady : string := "ready".
Definition StatusFailed : string := "failed".
Definition URLPlaceholder : string := "[URL content placeholder]".
Definition MaxContentLen : Z := 5000.
Definition ErrorLLMTimeout : string := "llm_timeout".
Definition ErrorParse : string := "parse_error".
Definition ErrorDB : string := "db_error".
Definition ErrorNoChunks : string := "no_chunks_extracted".
Definition ErrorLeaseExpired : string := "lease_expired".
Definition DefaultRefineLease : duration := 2 * Minute.
Definition MaxRefineAttempts : Z := 2.
Definition ReclaimInterval : duration := 30 * Second.

Record Material := mkMaterial {
  m_ID : string;
  m_UserID : string;
  m_Kind : string;
  m_Content : string;
  m_RefineStatus : string;
  m_BlockCount : Z;
  m_ErrorCode : string;
  m_DeletedAt : option time;
  m_CreatedAt : time;
  m_UpdatedAt : time;
  m_attempts : Z;
  m_lockedAt : option time;
}.

Definition ErrNotFound : error := Sentinel "materials: not found".
Definition ErrConflict : error := Sentinel "materials: conflict".

Definition with_refine (status : string) (count : Z) (code : string) (attempts : Z)
    (locked : option time) (updated : time) (m : Material) : Material :=
  mkMaterial (m_ID m) (m_UserID m) (m_Kind m) (m_Content m) status count code (m_DeletedAt m)
    (m_CreatedAt m) updated attempts locked.
Definition with_deleted (deleted : option time) (updated : time) (m : Material) : Material :=
  mkMaterial (m_ID m) (m_UserID m) (m_Kind m) (m_Content m) (m_RefineStatus m) (m_BlockCount m)
    (m_ErrorCode m) deleted (m_CreatedAt m) updated (m_attempts m) (m_lockedAt m).

(** ** The store *)

Abbreviation store := (gmap string Material).

Definition InsertMaterial (m : Material) (s : store) : result error unit * store :=
  match s !! m_ID m with
  | Some _ => (Err (Errorf "materials: duplicate id"), s)
  | None => (Ok tt, <[m_ID m := m]> s)
  end.

Definition GetMaterial (materialID : string) (s : store) : result error Material :=
  match s !! materialID with Some m => Ok m | None => Err ErrNotFound end.

Definition MarkProcessing (materialID : string) (at_ : time) (s : store) : result error unit * store :=
  match s !! materialID with
  | None => (Err ErrNotFound, s)
  | Some m =>
      if negb (String.eqb (m_RefineStatus m) StatusQueued) then (Err ErrConflict, s)
      else (Ok tt, <[materialID := with_refine StatusProcessing (m_BlockCount m) (m_ErrorCode m)
                                     (m_attempts m + 1) (Some at_) at_ m]> s)
  end.

(** MarkRefined and MarkRefineFailed: end a refinement that is in processing. *)
Definition settle (materialID status : string) (count : option Z) (errorCode : string) (at_ : time)
    (s : store) : result error unit * store :=
  match s !! materialID with
  | None => (Err ErrNotFound, s)
  | Some m =>
      if negb (String.eqb (m_RefineStatus m) StatusProcessing) then (Err ErrConflict, s)
      else (Ok tt, <[materialID := with_refine status (default (m_BlockCount m) count) errorCode
                                     (m_attempts m) None at_ m]> s)
  end.
Definition MarkRefined (materialID : string) (blockCount : Z) (errorCode : string) (at_ : time) :=
  settle materialID StatusReady (Some blockCount) errorCode at_.
Definition MarkRefineFailed (materialID errorCode : string) (at_ : time) :=
  settle materialID StatusFailed None errorCode at_.

(** The rows the sweep looks at: in processing, live, and locked until [at]
    less the lease. *)
Definition expired (at_ : time) (m : Material) : bool :=
  String.eqb (m_RefineStatus m) StatusProcessing && negb (bool_decide (is_Some (m_DeletedAt m))) &&
  match m_lockedAt m with
  | Some locked => negb (After locked (Add at_ (- DefaultRefineLease)))
  | None => false
  end.
Definition spent (m : Material) : bool := MaxRefineAttempts <=? m_attempts m.

Definition reclaim_row (at_ : time) (m : Material) : Material :=
  if expired at_ m then
    if spent m
    then with_refine StatusFailed (m_BlockCount m) ErrorLeaseExpired (m_attempts m) None at_ m
    else with_refine StatusQueued (m_BlockCount m) (m_ErrorCode m) (m_attempts m) None at_ m
  else m.

Record ReclaimResult := mkReclaimResult { rr_Requeued : list string; rr_Expired : Z }.

Definition Store_ReclaimExpired {mr : MapRange} (at_ : time) (s : store) : ReclaimResult * store :=
  let rows := List.filter (fun kv => expired at_ kv.2) (map_range s) in
  (mkReclaimResult (SortStrings (map fst (List.filter (fun kv => negb (spent kv.2)) rows)))
     (Z.of_nat (length (List.filter (fun kv => spent kv.2) rows))),
   reclaim_row at_ <$> s).

Definition deletable (userID : string) (m : Material) : bool :=
  String.eqb (m_UserID m) userID && negb (bool_decide (is_Some (m_DeletedAt m))).
Definition restorable (userID : string) (m : Material) : bool :=
  String.eqb (m_UserID m) userID && bool_decide (is_Some (m_DeletedAt m)).

Definition update_rows (p : Material -> bool) (f : Material -> Material) (s : store) : Z * store :=
  (Z.of_nat (length (List.filter p (map_to_list s).*2)), (fun m => if p m then f m else m) <$> s).

Definition SoftDeleteAllForUser (userID : string) (at_ : time) : store -> Z * store :=
  update_rows (deletable userID) (with_deleted (Some at_) at_).
Definition RestoreDeletedForUser (userID : string) : store -> Z * store :=
  update_rows (restorable userID) (fun m => with_deleted None (m_UpdatedAt m) m).

(** ** Calls *)

Inductive materialE : Type -> Type :=
| SInsert (m : Material) : materialE (result error unit)
| SGet (id : string) : materialE (result error Material)
| SProcessing (id : string) (at_ : time) : materialE (result error unit)
| SRefined (id : string) (count : Z) (code : string) (at_ : time) : materialE (result error unit)
| SFailed (id code : string) (at_ : time) : materialE (result error unit)
| SReclaim (at_ : time) : materialE ReclaimResult
| SSoftDelete (user : string) (at_ : time) : materialE Z
| SRestore (user : string) : materialE Z.

Definition handle_material {mr : MapRange} {R} (c : materialE R) (s : store) : R * store :=
  match c in materialE R return R * store with
  | SInsert m => InsertMaterial m s
  | SGet id => (GetMaterial id s, s)
  | SProcessing id at_ => MarkProcessing id at_ s
  | SRefined id n code at_ => MarkRefined id n code at_ s
  | SFailed id code at_ => MarkRefineFailed id code at_ s
  | SReclaim at_ => Store_ReclaimExpired at_ s
  | SSoftDelete u at_ => SoftDeleteAllForUser u at_ s
  | SRestore u => RestoreDeletedForUser u s
  end.

Record materialState := mkMaterialState {
  mt_rows : store;
  mt_blocks : MemoryStore;
  mt_started : list string;
}.

Inductive materialSvcE : Type -> Type :=
| MDb {R : Type} (c : materialE R) : materialSvcE R
| MSave (bs : list PhraseBlock) : materialSvcE (result error (list PhraseBlock))
| MNow : materialSvcE time
| MNewID : materialSvcE string
| MComplete (kind content : string) : materialSvcE (option string)
| MStart (id : string) : materialSvcE unit.

Abbreviation mprog := (program materialSvcE).
Definition mdb {R} (c : materialE R) : mprog R := call (MDb c).

Inductive mevent :=
| OnRows {R : Type} (c : materialE R)
| OnCorpus (e : event).

Record MOracle := mkMOracle {
  mo_now : nat -> time;
  mo_id : nat -> string;
  mo_complete : nat -> string -> string -> option string;
  mo_save_fails : nat -> option error;
  mo_env : nat -> list mevent;
}.
Definition malone (o : MOracle) : Prop := forall n, mo_env o n = [].

Section handlers.
Context {mr : MapRange}.

Definition mafter (e : mevent) (s : materialState) : materialState :=
  match e with
  | OnRows c => mkMaterialState (handle_material c (mt_rows s)).2 (mt_blocks s) (mt_started s)
  | OnCorpus e => mkMaterialState (mt_rows s) (after e (mt_blocks s)) (mt_started s)
  end.
Definition mrun (tr : list mevent) (s : materialState) : materialState :=
  foldl (fun s e => mafter e s) s tr.

Definition perform_material {R} (o : MOracle) (e : materialSvcE R) (n : nat) (s : materialState)
  : R * materialState :=
  match e in materialSvcE R return R * materialState with
  | MDb c =>
      let s := mrun (mo_env o n) s in
      let (r, rows) := handle_material c (mt_rows s) in
      (r, mkMaterialState rows (mt_blocks s) (mt_started s))
  | MSave bs =>
      let s := mrun (mo_env o n) s in
      match mo_save_fails o n with
      | Some e => (Err e, s)
      | None =>
          let (saved, blocks) := SaveAcceptedBlocks bs (mt_blocks s) in
          (Ok saved, mkMaterialState (mt_rows s) blocks (mt_started s))
      end
  | MNow => (mo_now o n, s)
  | MNewID => (mo_id o n, s)
  | MComplete kind content => (mo_complete o n kind content, s)
  | MStart id => (tt, mkMaterialState (mt_rows s) (mt_blocks s) (mt_started s ++ [id]))
  end.
End handlers.

#[export] Instance runs_material {mr : MapRange} : Runs MOracle materialSvcE materialState :=
  @perform_material mr.

(** ** Refining *)

Record RefinedBlock := mkRefined {
  rb_IntentZH : string;
  rb_ExpressionEN : string;
  rb_SceneTag : string;
  rb_FunctionTag : string;
}.
Definition zero_refined : RefinedBlock := mkRefined "" "" "" "".

Definition refined_fields : list string :=
  ["intent_zh"; "expression_en"; "scene_tag"; "function_tag"]%string.

Definition set_refined (name : string) (b : RefinedBlock) (v : json) : result json_error RefinedBlock :=
  let '(mkRefined i e s f) := b in
  if String.eqb name "intent_zh" then on_string i v (fun x => mkRefined x e s f)
  else if String.eqb name "expression_en" then on_string e v (fun x => mkRefined i x s f)
  else if String.eqb name "scene_tag" then on_string s v (fun x => mkRefined i e x f)
  else on_string f v (fun x => mkRefined i e s x).

Definition set_refine_result (name : string) (r : slice RefinedBlock) (v : json)
  : result json_error (slice RefinedBlock) :=
  dec_slice zero_refined (dec_object refined_fields set_refined) r v.

(** The blocks of a reply, from its outermost braces. *)
Definition parseRefineJSON (raw : string) : option (list RefinedBlock) :=
  match Unmarshal ["blocks"%string] set_refine_result nil_slice (brace_span (TrimSpace raw)) with
  | (_, Some _) => None
  | (r, None) => Some (elems r)
  end.

(** The tag that is kept is the one that was sent, white space included. *)
Definition keep_tag (allowed : list string) (fallback tag : string) : string :=
  if bool_decide (TrimSpace tag ∈ allowed) then tag else fallback.
Definition normalizeScene (tag : string) : string := keep_tag validSceneTags "casual" tag.
Definition normalizeFunction (tag : string) : string := keep_tag validFunctionTags "report" tag.

(** The IEEE-754 bits of [2.5] *)
Definition ease_2_5 : Z := 4612811918334230528.

Definition phrase_block (m : Material) (b : RefinedBlock) (id : string) (now : time) : PhraseBlock :=
  let expr := TrimSpace (rb_ExpressionEN b) in
  let anchor := if 0 <? rune_count (m_Content m) then capRunes (m_Content m) 80 else expr in
  mkBlock id (m_UserID m) (TrimSpace (rb_IntentZH b)) expr 0 anchor (normalizeScene (rb_SceneTag b))
    (normalizeFunction (rb_FunctionTag b)) StateNew 0 now ease_2_5 0 0 None false None None None now now.

Fixpoint toPhraseBlocks (m : Material) (blocks : list RefinedBlock) (now : time) : mprog (list PhraseBlock) :=
  match blocks with
  | [] => Ret []
  | b :: blocks =>
      if String.eqb (TrimSpace (rb_ExpressionEN b)) "" then toPhraseBlocks m blocks now else
      id <- call MNewID;
      rest <- toPhraseBlocks m blocks now;
      Ret (phrase_block m b id now :: rest)
  end.

Definition fail (materialID code : string) : mprog (result error unit) :=
  now <- call MNow;
  mdb (SFailed materialID code now).

Section service.
(** Whether the service has a model and a block writer. *)
Context (has_llm has_blocks : bool).

Definition refined (materialID : string) (count : Z) (code : string) : mprog (result error unit) :=
  now <- call MNow;
  mdb (SRefined materialID count code now).

Definition Refine (materialID : string) : mprog (result error unit) :=
  let materialID := TrimSpace materialID in
  if String.eqb materialID "" then Ret (Ok tt) else
  m <-! mdb (SGet materialID);
  if bool_decide (is_Some (m_DeletedAt m)) then Ret (Ok tt) else
  if negb (String.eqb (m_RefineStatus m) StatusQueued) then Ret (Ok tt) else
  now <- call MNow;
  claimed <- mdb (SProcessing materialID now);
  match claimed with
  | Err e => Ret (if Is e ErrConflict then Ok tt else Err e)
  | Ok _ =>
      if negb has_llm then fail materialID ErrorLLMTimeout else
      raw <- call (MComplete (m_Kind m) (m_Content m));
      match raw with
      | None => fail materialID ErrorLLMTimeout
      | Some raw =>
          match parseRefineJSON raw with
          | None => fail materialID ErrorParse
          | Some [] => refined materialID 0 ErrorNoChunks
          | Some blocks =>
              if negb has_blocks then fail materialID ErrorDB else
              now <- call MNow;
              rows <- toPhraseBlocks m blocks now;
              saved <- call (MSave rows);
              match saved with
              | Err _ => fail materialID ErrorDB
              | Ok _ => refined materialID (Z.of_nat (length rows)) ""
              end
          end
      end
  end.

Fixpoint start_all (ids : list string) : mprog unit :=
  match ids with
  | [] => Ret tt
  | id :: ids => _ <- call (MStart id); start_all ids
  end.

Definition ReclaimExpired : mprog Z :=
  now <- call MNow;
  result <- mdb (SReclaim now);
  _ <- start_all (rr_Requeued result);
  Ret (Z.of_nat (length (rr_Requeued result))).

(** [lastSweep] is the sweeper's own state; the answer is its new value. *)
Definition SweepIfDue (lastSweep : time) (now : time) : mprog time :=
  if negb (IsZero lastSweep) && (Sub now lastSweep <? ReclaimInterval) then Ret lastSweep
  else n <- ReclaimExpired; Ret now.

Record CreateRequest := mkCreateRequest { cr_Kind : string; cr_Content : string }.
Record CreateResponse := mkCreateResponse { cs_MaterialID : string; cs_RefineStatus : string }.

Definition missing_user : error := Api (Unauthenticated "missing authenticated user").
Definition no_content : error := Api (InvalidArgument "content is required").

Definition Create (userID : string) (req : CreateRequest) : mprog (result error CreateResponse) :=
  let userID := TrimSpace userID in
  if String.eqb userID "" then Ret (Err missing_user) else
  let kind := TrimSpace (cr_Kind req) in
  let kind := if String.eqb kind "" then KindPaste else kind in
  if negb (bool_decide (kind ∈ [KindPaste; KindSentence; KindURL]))
  then Ret (Err (Api (InvalidArgument "kind must be paste, sentence, or url"))) else
  let content := TrimSpace (cr_Content req) in
  if String.eqb content "" then Ret (Err no_content) else
  let content := if String.eqb kind KindURL then URLPlaceholder else content in
  if MaxContentLen <? rune_count content
  then Ret (Err (Api (InvalidArgument "content exceeds 5000 characters"))) else
  now <- call MNow;
  id <- call MNewID;
  let m := mkMaterial id userID kind content StatusQueued 0 "" None now now 0 None in
  _ <-! mdb (SInsert m);
  _ <- call (MStart (m_ID m));
  Ret (Ok (mkCreateResponse (m_ID m) StatusQueued)).

(** Service.Get, and MaterialText of the session's source *)
Definition Get (userID materialID : string) : mprog (result error Material) :=
  let userID := TrimSpace userID in
  let materialID := TrimSpace materialID in
  if String.eqb userID "" then Ret (Err missing_user) else
  if String.eqb materialID "" then Ret (Err (Api (InvalidArgument "material_id is required"))) else
  found <- mdb (SGet materialID);
  match found with
  | Err e => Ret (Err (if Is e ErrNotFound then Api (NotFound "material not found") else e))
  | Ok m =>
      if negb (String.eqb (m_UserID m) userID)
      then Ret (Err (Api (PermissionDenied "material not owned by caller"))) else
      if bool_decide (is_Some (m_DeletedAt m)) then Ret (Err (Api (NotFound "material not found")))
      else Ret (Ok m)
  end.

Definition MaterialText (userID materialID : string) : mprog (result error string) :=
  m <-! Get userID materialID;
  Ret (Ok (m_Content m)).
End service.
