(* ===== verification/MaterialsLaws.v ===== *)
(** * What the materials service guarantees

    A material is refined at most twice in any history; a refinement that runs
    alone always settles its material, with the outcome the reply calls for; a
    refinement that is overtaken by the deletion of its user's data leaves
    phrase blocks behind. *)
From S2P Require Import Prelude Prog GoString GoUnicode GoTime GoSort GoJson ApiErr Corpus CorpusStore CorpusLaws Materials.

Open Scope Z_scope.

(** ** Claims *)

Definition mcall : Type := { R : Type & materialE R }.
Definition mc {R} (c : materialE R) : mcall := existT R c.
Definition mstep {mr : MapRange} (c : mcall) (s : store) : store := (handle_material (projT2 c) s).2.

(** Whether a call is a claim of [id] that succeeds. *)
Definition claims (id : string) (c : mcall) (s : store) : bool :=
  match projT2 c with
  | SProcessing i at_ => String.eqb i id && is_ok (MarkProcessing i at_ s).1
  | _ => false
  end.

(** The successful claims of [id] along a history. *)
Fixpoint claim_count {mr : MapRange} (id : string) (tr : list mcall) (s : store) : Z :=
  match tr with
  | [] => 0
  | c :: tr => (if claims id c s then 1 else 0) + claim_count id tr (mstep c s)
  end.

(** Rows enter the store as the service makes them. *)
Definition fresh_insert (c : mcall) : Prop :=
  match projT2 c with
  | SInsert m => m_RefineStatus m = StatusQueued /\ m_attempts m = 0 /\ m_lockedAt m = None
  | _ => True
  end.

(** What holds of each row. *)
Definition row_ok (m : Material) : Prop :=
  0 <= m_attempts m <= MaxRefineAttempts /\
  (m_RefineStatus m = StatusQueued -> m_attempts m < MaxRefineAttempts /\ m_lockedAt m = None) /\
  (m_RefineStatus m = StatusProcessing -> 1 <= m_attempts m /\ is_Some (m_lockedAt m)) /\
  m_RefineStatus m ∈ [StatusQueued; StatusProcessing; StatusReady; StatusFailed].

Definition rows_ok (s : store) : Prop := map_Forall (fun id m => m_ID m = id /\ row_ok m) s.

Definition attempts_of (id : string) (s : store) : Z :=
  match s !! id with Some m => m_attempts m | None => 0 end.

Lemma update_rows_ok p f s :
  (forall m, m_ID (f m) = m_ID m /\ (row_ok m -> row_ok (f m))) -> rows_ok s ->
  rows_ok (update_rows p f s).2.
Proof.
  intros Hf Hs id m. cbn. rewrite lookup_fmap_Some. intros (x & <- & Hx).
  destruct (Hs id x Hx) as [Hid Hok]. destruct (Hf x) as [H1 H2].
  destruct (p x); [|done]. split; [congruence|by apply H2].
Qed.

Lemma reclaim_row_ok at_ m : row_ok m -> row_ok (reclaim_row at_ m) /\
  m_ID (reclaim_row at_ m) = m_ID m /\ m_attempts (reclaim_row at_ m) = m_attempts m.
Proof.
  intros Hok. pose proof Hok as (Ha & Hq & Hp & Hs). unfold reclaim_row.
  destruct (expired at_ m); [|done]. destruct (spent m) eqn:E; [|].
  - split; [|done]. split; [done|]. split; [done|]. split; [done|]. cbn. set_solver.
  - unfold spent in E. apply Z.leb_gt in E. split; [|done]. split; [done|].
    split; [by split|]. split; [done|]. cbn. set_solver.
Qed.

Lemma settle_rows_ok id status n code at_ s :
  status = StatusReady \/ status = StatusFailed -> rows_ok s ->
  rows_ok (settle id status n code at_ s).2 /\
  forall i, attempts_of i (settle id status n code at_ s).2 = attempts_of i s.
Proof.
  intros Hst Hs. unfold settle. destruct (s !! id) as [m|] eqn:E; [|done].
  destruct (negb (String.eqb _ _)); [done|]. cbn [snd]. destruct (Hs id m E) as [Hid (Ha & _)]. split.
  - apply map_Forall_insert_2; [|done]. split; [done|]. split; [done|].
    destruct Hst as [->| ->]; (split; [done|]; split; [done|]; cbn; set_solver).
  - intros i. unfold attempts_of. destruct (decide (i = id)) as [->|]; simplify_map_eq; done.
Qed.

(** One call keeps the rows sound and counts its claim. *)
Lemma mstep_ok {mr : MapRange} c s :
  fresh_insert c -> rows_ok s ->
  rows_ok (mstep c s) /\
  forall id, attempts_of id (mstep c s) = attempts_of id s + (if claims id c s then 1 else 0).
Proof.
  destruct c as [R c]. unfold fresh_insert, mstep, claims. cbn [projT2]. intros Hc Hs.
  destruct c; cbn [handle_material snd].
  - unfold InsertMaterial. destruct (s !! m_ID m) eqn:E; [split; [done|intros; cbn; lia]|]. cbn [snd].
    destruct Hc as (Hq & Ha & Hl). split.
    + apply map_Forall_insert_2; [|done]. split; [done|]. unfold row_ok. rewrite Hq, Ha, Hl.
      split; [done|]. split; [done|]. split; [done|]. set_solver.
    + intros id. unfold attempts_of. destruct (decide (id = m_ID m)) as [->|]; simplify_map_eq; [|lia].
      try rewrite E; lia.
  - split; [done|]. intros; lia.
  - unfold MarkProcessing. destruct (s !! id) as [m|] eqn:E;
      [|split; [done|intros; cbn; rewrite andb_false_r; lia]].
    destruct (negb (String.eqb _ _)) eqn:Eq; [split; [done|intros; cbn; rewrite andb_false_r; lia]|].
    apply negb_false_iff, String.eqb_eq in Eq. destruct (Hs id m E) as [Hid (Ha & Hq & _)].
    destruct (Hq Eq) as [Hlt _]. unfold MaxRefineAttempts in *. cbn [snd fst is_ok]. split.
    + apply map_Forall_insert_2; [|done]. split; [done|]. unfold row_ok, MaxRefineAttempts. cbn.
      split; [lia|]. split; [done|]. split; [split; [lia|by eexists]|]. set_solver.
    + intros i. unfold attempts_of. rewrite andb_true_r.
      destruct (String.eqb_spec id i) as [->|]; simplify_map_eq; [done|lia].
  - destruct (settle_rows_ok id StatusReady (Some count) code at_ s) as [H1 H2]; [by left|done|].
    split; [done|]. intros i. unfold MarkRefined. rewrite H2. lia.
  - destruct (settle_rows_ok id StatusFailed None code at_ s) as [H1 H2]; [by right|done|].
    split; [done|]. intros i. unfold MarkRefineFailed. rewrite H2. lia.
  - split.
    + intros id m. cbn. rewrite lookup_fmap_Some. intros (x & <- & Hx).
      destruct (Hs id x Hx) as [Hid Hok]. destruct (reclaim_row_ok at_ x Hok) as (? & ? & ?).
      split; [congruence|done].
    + intros id. unfold attempts_of. cbn. rewrite lookup_fmap.
      destruct (s !! id) as [x|] eqn:E; cbn; [|lia].
      destruct (reclaim_row_ok at_ x) as (_ & _ & ->); [by apply (Hs id)|lia].
  - split; [by apply update_rows_ok|]. intros id. unfold attempts_of. cbn. rewrite lookup_fmap.
    destruct (s !! id) as [x|]; cbn; [|lia]. destruct (deletable _ _); cbn; lia.
  - split; [by apply update_rows_ok|]. intros id. unfold attempts_of. cbn. rewrite lookup_fmap.
    destruct (s !! id) as [x|]; cbn; [|lia]. destruct (restorable _ _); cbn; lia.
Qed.

Definition run_calls {mr : MapRange} (tr : list mcall) (s : store) : store :=
  foldl (fun s c => mstep c s) s tr.

Lemma claims_are_attempts {mr : MapRange} tr s :
  Forall fresh_insert tr -> rows_ok s ->
  rows_ok (run_calls tr s) /\
  forall id, claim_count id tr s = attempts_of id (run_calls tr s) - attempts_of id s.
Proof.
  revert s. induction tr as [|c tr IH]; intros s Htr Hs; [split; [done|intros; cbn; lia]|].
  change (run_calls (c :: tr) s) with (run_calls tr (mstep c s)). cbn [claim_count].
  apply Forall_cons in Htr as [Hc Htr]. destruct (mstep_ok c s Hc Hs) as [Hs' Hd].
  destruct (IH _ Htr Hs') as [H1 H2]. split; [done|]. intros id. rewrite H2, Hd. lia.
Qed.

(** C27: No history of store calls hands a material out for refinement more than
    twice, the initial try and one retry; every row is queued, in processing,
    ready or failed, a queued row is unlocked with a try left, and a row in
    processing is locked, so that the sweep finds it. *)
Theorem refined_at_most_twice {mr : MapRange} tr :
  Forall fresh_insert tr ->
  rows_ok (run_calls tr ∅) /\
  forall id, 0 <= claim_count id tr ∅ <= MaxRefineAttempts /\
    claim_count id tr ∅ = attempts_of id (run_calls tr ∅).
Proof.
  intros Htr. destruct (claims_are_attempts tr ∅ Htr) as [Hok Hc]; [apply map_Forall_empty|].
  split; [done|]. intros id. assert (attempts_of id ∅ = 0) as H0 by (unfold attempts_of; by rewrite lookup_empty).
  rewrite Hc, H0, Z.sub_0_r. split; [|done].
  unfold attempts_of. destruct (run_calls tr ∅ !! id) as [m|] eqn:E; [|by vm_compute].
  destruct (Hok id m E) as [_ [H _]]. exact H.
Qed.

(** ** One refinement *)

Definition usable (bs : list RefinedBlock) : list RefinedBlock :=
  List.filter (fun b => negb (String.eqb (TrimSpace (rb_ExpressionEN b)) "")) bs.

(** A row made of a usable block for the owner of the material. *)
Definition row_of (m : Material) (b : RefinedBlock) (row : PhraseBlock) : Prop :=
  exists id now, row = phrase_block m b id now.

Lemma toPhraseBlocks_rows {mr : MapRange} o m bs now n s :
  exists rows k, run_prog o (toPhraseBlocks m bs now) n s = (rows, k, s) /\ Forall2 (row_of m) (usable bs) rows.
Proof.
  revert n. induction bs as [|b bs IH]; intros n; cbn [toPhraseBlocks usable List.filter].
  { by exists [], n. }
  destruct (String.eqb (TrimSpace (rb_ExpressionEN b)) ""); cbn [negb]; [apply IH|].
  unfold call. cbn [bind run_prog perform runs_material perform_material].
  destruct (IH (S n)) as (rows & k & Hr & Hf). rewrite run_bind, Hr. cbn [run_prog].
  eexists _, k. split; [reflexivity|]. constructor; [by eexists _, _|done].
Qed.

Definition outcome (has_llm has_blocks : bool) (reply : option string) (save : option error)
  : string * Z * string :=
  match (if has_llm then reply else None) with
  | None => (StatusFailed, 0, ErrorLLMTimeout)
  | Some raw =>
      match parseRefineJSON raw with
      | None => (StatusFailed, 0, ErrorParse)
      | Some [] => (StatusReady, 0, ErrorNoChunks)
      | Some bs =>
          if negb has_blocks || bool_decide (is_Some save) then (StatusFailed, 0, ErrorDB)
          else (StatusReady, Z.of_nat (length (usable bs)), ""%string)
      end
  end.

(** The row a refinement leaves, given what it read. *)
Definition settled (m m' : Material) (out : string * Z * string) : Prop :=
  let '(status, count, code) := out in
  m_RefineStatus m' = status /\ m_ErrorCode m' = code /\ m_lockedAt m' = None /\
  m_attempts m' = m_attempts m + 1 /\ m_UserID m' = m_UserID m /\ m_Content m' = m_Content m /\
  m_DeletedAt m' = m_DeletedAt m /\
  m_BlockCount m' = (if String.eqb status StatusReady then count else m_BlockCount m).

Section refine.
Context {mr : MapRange} (o : MOracle) (Ha : malone o).

Ltac mstep1 :=
  unfold mdb, call; cbn [bind run_prog perform runs_material perform_material];
  rewrite ?Ha; cbn [mrun foldl mt_rows mt_blocks mt_started handle_material fst snd].

(** Ending a row that is in processing. *)
Lemma settle_row id m status count code at_ (s : store) :
  s !! id = Some m -> m_RefineStatus m = StatusProcessing ->
  settle id status count code at_ s =
    (Ok tt, <[id := with_refine status (default (m_BlockCount m) count) code (m_attempts m) None at_ m]> s).
Proof. intros Hm Hp. unfold settle. by rewrite Hm, Hp. Qed.

Lemma fail_run id m code n rows blocks started :
  rows !! id = Some m -> m_RefineStatus m = StatusProcessing ->
  run_prog o (fail id code) n (mkMaterialState rows blocks started) =
    (Ok tt, S (S n), mkMaterialState (<[id := with_refine StatusFailed (m_BlockCount m) code
       (m_attempts m) None (mo_now o n) m]> rows) blocks started).
Proof.
  intros Hm Hp. unfold fail. mstep1. unfold MarkRefineFailed. by rewrite (settle_row id m _ _ _ _ _ Hm Hp).
Qed.

Lemma refined_run id m count code n rows blocks started :
  rows !! id = Some m -> m_RefineStatus m = StatusProcessing ->
  run_prog o (refined id count code) n (mkMaterialState rows blocks started) =
    (Ok tt, S (S n), mkMaterialState (<[id := with_refine StatusReady count code
       (m_attempts m) None (mo_now o n) m]> rows) blocks started).
Proof.
  intros Hm Hp. unfold refined. mstep1. unfold MarkRefined. by rewrite (settle_row id m _ _ _ _ _ Hm Hp).
Qed.

(** Close a branch that writes no blocks. *)
Ltac ended_by ending Hins i :=
  rewrite ending by done; rewrite Hins; eexists _, _, i, _; split; [reflexivity|];
  split; [done|by left].

(** C28: A refinement that runs alone on a live queued material always settles it:
    the row ends ready or failed, unlocked, with the count and the code the
    model's reply and the block writer call for, and nothing else in the store of
    materials changes.  The corpus changes only when the material ends ready
    without a code: it is then handed exactly one row per usable block of the
    reply, all of the material's owner, in one [SaveAcceptedBlocks], which merges
    a row into the block of the same source, texts and tags if there is one; when
    the writer fails nothing is stored.  (A reply of blank blocks only ends ready
    without a code too: [blank_blocks_have_no_code].) *)
Theorem refine_settles has_llm has_blocks id m n s :
  TrimSpace id = id -> id <> ""%string -> mt_rows s !! id = Some m -> m_DeletedAt m = None ->
  m_RefineStatus m = StatusQueued ->
  exists m' k i blocks,
    run_prog o (Refine has_llm has_blocks id) n s =
      (Ok tt, k, mkMaterialState (<[id := m']> (mt_rows s)) blocks (mt_started s)) /\
    let reply := mo_complete o (S (S (S n))) (m_Kind m) (m_Content m) in
    let out := outcome has_llm has_blocks reply (mo_save_fails o i) in
    settled m m' out /\
    ((out.2 <> ""%string /\ blocks = mt_blocks s) \/
     exists raw bs rows, reply = Some raw /\ parseRefineJSON raw = Some bs /\ out.2 = ""%string /\
       Forall2 (row_of m) (usable bs) rows /\ blocks = (SaveAcceptedBlocks rows (mt_blocks s)).2).
Proof.
  intros Ht Hne Hm Hlive Hq. apply String.eqb_neq in Hne. unfold Refine. cbv zeta. rewrite Ht, Hne.
  mstep1. unfold GetMaterial. rewrite Hm, Hlive, Hq.
  rewrite bool_decide_eq_false_2 by (by intros [? ?]). rewrite String.eqb_refl. cbn [negb].
  mstep1. unfold MarkProcessing. rewrite Hm, Hq, String.eqb_refl. cbn [negb]. mstep1.
  set (p := with_refine StatusProcessing _ _ _ _ _ m).
  set (rows := <[id := p]> (mt_rows s)).
  assert (rows !! id = Some p) as Hp by apply lookup_insert_eq.
  assert (forall m', <[id := m']> rows = <[id := m']> (mt_rows s)) as Hins.
  { intros m'. unfold rows. by rewrite insert_insert_eq. }
  unfold outcome. destruct has_llm; cbn [negb].
  2: ended_by (fail_run id p) Hins 0%nat.
  mstep1. destruct (mo_complete o _ _ _) as [raw|].
  2: ended_by (fail_run id p) Hins 0%nat.
  destruct (parseRefineJSON raw) as [[|b bs]|] eqn:Ep.
  - ended_by (refined_run id p) Hins 0%nat.
  - destruct has_blocks; cbn [negb orb].
    2: ended_by (fail_run id p) Hins 0%nat.
    mstep1. rewrite run_bind.
    edestruct (toPhraseBlocks_rows o m (b :: bs)) as (made & k & Hmade & Hf). rewrite Hmade.
    mstep1. destruct (mo_save_fails o k) as [e|] eqn:Esave.
    + rewrite (fail_run id p) by done. rewrite Hins. eexists _, _, k, _. split; [reflexivity|].
      rewrite Esave. rewrite bool_decide_eq_true_2 by done. split; [done|by left].
    + destruct (SaveAcceptedBlocks made (mt_blocks s)) as [saved blocks] eqn:Es.
      rewrite (refined_run id p) by done. rewrite Hins. eexists _, _, k, _. split; [reflexivity|].
      rewrite Esave. rewrite bool_decide_eq_false_2 by (by intros [? ?]).
      rewrite (Forall2_length _ _ _ Hf). split; [done|].
      right. exists raw, (b :: bs), made. by rewrite Es.
  - ended_by (fail_run id p) Hins 0%nat.
Qed.
End refine.

(** ** Concrete replies *)

#[local] Existing Instance key_order.

Definition q : string := String dquote "".
Definition reply_of (expr scene : string) : string :=
  "{" +:+ q +:+ "blocks" +:+ q +:+ ":[{" +:+ q +:+ "expression_en" +:+ q +:+ ":" +:+ q +:+ expr +:+ q
    +:+ "," +:+ q +:+ "scene_tag" +:+ q +:+ ":" +:+ q +:+ scene +:+ q +:+ "}]}".

Definition note : Material :=
  mkMaterial "m1" "ann" KindPaste "Let us circle back on this." StatusQueued 0 "" None 5 5 0 None.

Definition one_note : materialState := mkMaterialState {[ "m1" := note ]} (NewMemoryStore) [].

Definition quiet_refine (reply : string) : MOracle :=
  mkMOracle (fun n => 100 + Z.of_nat n) (fun n => "b1") (fun _ _ _ => Some reply) (fun _ => None) (fun _ => []).

(** The refinement of [one_note] while its user's data are deleted: the wipe of
    the corpus and of the materials comes between the claim and the write. *)
Definition overtaken : MOracle :=
  mkMOracle (fun n => 100 + Z.of_nat n) (fun n => "b1") (fun _ _ _ => Some (reply_of "circle back" "standup"))
    (fun _ => None)
    (fun n => if (n =? 6)%nat then [OnCorpus (ev (ESoftDeleteAll "ann" 50)); OnRows (SSoftDelete "ann" 50)] else []).

(** A refinement in flight writes its blocks although the data of its user were
    deleted meanwhile: a live block of the deleted user stays in the corpus. *)
Lemma refine_outlives_deletion :
  let s := (run_prog overtaken (Refine true true "m1") 0 one_note).2 in
  (exists m, mt_rows s !! "m1"%string = Some m /\ is_Some (m_DeletedAt m)) /\
  exists b, blocks (mt_blocks s) !! "b1"%string = Some b /\ b_UserID b = "ann"%string /\ b_DeletedAt b = None.
Proof.
  intros s. split.
  - destruct (mt_rows s !! "m1"%string) as [m|] eqn:E; vm_compute in E; [|discriminate E].
    injection E as <-. eexists. split; [reflexivity|by eexists].
  - destruct (blocks (mt_blocks s) !! "b1"%string) as [b|] eqn:E; vm_compute in E; [|discriminate E].
    injection E as <-. by eexists.
Qed.

(** A tag is kept with the white space it came with. *)
Lemma spaced_tag_kept : normalizeScene " standup " = " standup "%string.
Proof. vm_compute. reflexivity. Qed.

(** A block the model repeats is counted twice in the material and stored once. *)
Definition repeated_reply : string :=
  let block := "{" +:+ q +:+ "expression_en" +:+ q +:+ ":" +:+ q +:+ "circle back" +:+ q +:+ "}" in
  "{" +:+ q +:+ "blocks" +:+ q +:+ ":[" +:+ block +:+ "," +:+ block +:+ "]}".

Lemma repeated_block_is_counted_twice :
  let o := mkMOracle (fun n => 100 + Z.of_nat n) (fun n => String (ascii_of_nat (65 + n)) "")
             (fun _ _ _ => Some repeated_reply) (fun _ => None) (fun _ => []) in
  let s := (run_prog o (Refine true true "m1") 0 one_note).2 in
  (m_BlockCount <$> mt_rows s !! "m1"%string) = Some 2 /\ size (blocks (mt_blocks s)) = 1%nat.
Proof. vm_compute. by split. Qed.

(** A reply whose blocks are all blank ends ready with no blocks and no code. *)
Lemma blank_blocks_have_no_code :
  outcome true true (Some (reply_of " " "standup")) None = (StatusReady, 0, ""%string).
Proof. vm_compute. reflexivity. Qed.

Lemma refine_settles_witness :
  exists m' s', run_prog (quiet_refine (reply_of "circle back" "standup")) (Refine true true "m1") 0 one_note
    = (Ok tt, 9%nat, s') /\ mt_rows s' !! "m1"%string = Some m' /\ m_RefineStatus m' = StatusReady.
Proof.
  destruct (refine_settles (quiet_refine (reply_of "circle back" "standup")) (fun _ => eq_refl)
    true true "m1" note 0 one_note) as (m' & k & i & blocks & Hr & Hs & _); try reflexivity; [done|].
  exists m', (mkMaterialState (<["m1"%string := m']> (mt_rows one_note)) blocks (mt_started one_note)).
  split; [|split].
  - rewrite Hr. assert ((run_prog (quiet_refine (reply_of "circle back" "standup")) (Refine true true "m1") 0 one_note).1.2 = 9%nat)
      as Hk by (vm_compute; reflexivity). rewrite Hr in Hk. cbn in Hk. by rewrite Hk.
  - cbn. by rewrite lookup_insert_eq.
  - destruct Hs as [Hs _]. rewrite Hs. vm_compute. reflexivity.
Defined.

Lemma refined_at_most_twice_witness :
  let tr := [mc (SInsert note); mc (SProcessing "m1" 10); mc (SReclaim (10 + DefaultRefineLease));
             mc (SProcessing "m1" 400000000000); mc (SReclaim (Minute * 60)); mc (SProcessing "m1" 500000000000)] in
  claim_count "m1" tr ∅ = 2 /\ claim_count "m1" tr ∅ <= MaxRefineAttempts.
Proof.
  intros tr. split; [vm_compute; reflexivity|].
  destruct (refined_at_most_twice tr) as [_ H]; [|apply (H "m1"%string)].
  repeat constructor.
Defined.
