(* ===== verification/Topic.v ===== *)
(** * Topic cards: data and the in-memory store ([internal/topic])

    [model.go] and [memory_store.go].  Cards, check-ins and streaks; the [clone*]
    functions are identities.  Dates are midnights of UTC days. *)
From S2P Require Import Prelude GoString GoTime GoSort ApiErr.

Open Scope Z_scope.

Definition CardsPerDay : nat := 3.
Definition MaxReflectionLen : Z := 500.
Definition GenerateAttempts : nat := 3.
Definition ActiveLookback : duration := 30 * 24 * Hour.
Definition CronHourUTC : Z := 4.
Definition CardTypeWarmup : string := "warmup".
Definition CardTypePractice : string := "practice".
Definition CardTypeStretch : string := "stretch".
Definition DefaultMinBlocks : Z := 20.
Definition MaxBlocksPerCard : nat := 5.
Definition MaxPromptBlocks : nat := 15.

Record Card := mkCard {
  tc_ID : string;
  tc_UserID : string;
  tc_ForDate : time;
  tc_Title : string;
  tc_PromptEN : string;
  tc_PromptZH : string;
  tc_CardType : string;
  tc_SeedTags : list string;
  tc_BlockIDs : list string;
  tc_SourceNote : string;
  tc_ValidUntil : time;
  tc_CheckedInAt : option time;
  tc_DismissedAt : option time;
  tc_DismissReason : string;
  tc_DeletedAt : option time;
  tc_CreatedAt : time;
  tc_UpdatedAt : time;
}.

Definition DismissNoPartner : string := "no_partner".
Definition DismissNotConfident : string := "not_confident".
Definition DismissNoTime : string := "no_time".
Definition DismissNotRelevant : string := "not_relevant".

Definition ValidDismissReason (reason : string) : bool :=
  bool_decide (reason ∈ [DismissNoPartner; DismissNotConfident; DismissNoTime; DismissNotRelevant]).

Record Checkin := mkCheckin {
  ck_ID : string;
  ck_CardID : string;
  ck_UserID : string;
  ck_Reflection : string;
  ck_DeletedAt : option time;
  ck_CreatedAt : time;
}.

Record Streak := mkStreak {
  sk_UserID : string;
  sk_CurrentStreak : Z;
  sk_LongestStreak : Z;
  sk_LastCheckinDate : option time;
  sk_DeletedAt : option time;
  sk_UpdatedAt : time;
}.

Definition ErrNotFound : error := Sentinel "topic: not found".
Definition ErrConflict : error := Sentinel "topic: conflict".

(** utcDate: midnight of the UTC day *)
Definition utcDate (t : time) : time := unix_day t * Day.

Record MemoryStore := mkTopics {
  cards : gmap string Card;
  checkins : gmap string Checkin;
  streaks : gmap string Streak;
}.
Definition NewMemoryStore : MemoryStore := mkTopics ∅ ∅ ∅.

Definition set_cards (x : gmap string Card) (s : MemoryStore) := mkTopics x (checkins s) (streaks s).
Definition set_checkins (x : gmap string Checkin) (s : MemoryStore) := mkTopics (cards s) x (streaks s).
Definition set_streaks (x : gmap string Streak) (s : MemoryStore) := mkTopics (cards s) (checkins s) x.

Definition with_marks (checked dismissed : option time) (reason : string) (deleted : option time)
    (updated : time) (c : Card) : Card :=
  mkCard (tc_ID c) (tc_UserID c) (tc_ForDate c) (tc_Title c) (tc_PromptEN c) (tc_PromptZH c)
    (tc_CardType c) (tc_SeedTags c) (tc_BlockIDs c) (tc_SourceNote c) (tc_ValidUntil c) checked
    dismissed reason deleted (tc_CreatedAt c) updated.

Definition live {A} (deleted : A -> option time) (x : A) : bool := negb (bool_decide (is_Some (deleted x))).
Definition on_day (userID : string) (day : time) (c : Card) : bool :=
  String.eqb (tc_UserID c) userID && (utcDate (tc_ForDate c) =? day).

Section ranges.
Context {mr : MapRange}.

Definition all_cards (s : MemoryStore) : list Card := (map_range (cards s)).*2.

Definition ListTodayCards (userID : string) (forDate : time) (s : MemoryStore) : list Card :=
  List.filter (fun c => on_day userID (utcDate forDate) c && live tc_DeletedAt c) (all_cards s).
Definition HasCardsForDate (userID : string) (forDate : time) (s : MemoryStore) : bool :=
  existsb (on_day userID (utcDate forDate)) (all_cards s).

Definition dismissed_since (userID : string) (since : time) (c : Card) : bool :=
  String.eqb (tc_UserID c) userID && live tc_DeletedAt c &&
  match tc_DismissedAt c with Some at_ => negb (Before at_ since) | None => false end.
Definition CountDismissReasonsSince (userID : string) (since : time) (s : MemoryStore) : gmap string Z :=
  foldl (fun out c =>
    if dismissed_since userID since c
    then <[tc_DismissReason c := default 0 (out !! tc_DismissReason c) + 1]> out else out) ∅ (all_cards s).
Definition CountCheckinsSince (userID : string) (since : time) (s : MemoryStore) : Z :=
  Z.of_nat (length (List.filter (fun r => String.eqb (ck_UserID r) userID && live ck_DeletedAt r &&
                                          negb (Before (ck_CreatedAt r) since)) (map_range (checkins s)).*2)).
Definition CountCardsSince (userID : string) (since : time) (s : MemoryStore) : Z :=
  Z.of_nat (length (List.filter (fun c => String.eqb (tc_UserID c) userID && live tc_DeletedAt c &&
                                          negb (Before (tc_CreatedAt c) since)) (all_cards s))).
End ranges.

Definition GetCard (cardID : string) (s : MemoryStore) : result error Card :=
  match cards s !! cardID with Some c => Ok c | None => Err ErrNotFound end.

(** The cards before a duplicate are kept. *)
Fixpoint InsertCards (cs : list Card) (s : MemoryStore) : result error unit * MemoryStore :=
  match cs with
  | [] => (Ok tt, s)
  | c :: cs =>
      match cards s !! tc_ID c with
      | Some _ => (Err (Errorf "topic: duplicate card id"), s)
      | None => InsertCards cs (set_cards (<[tc_ID c := c]> (cards s)) s)
      end
  end.

Definition MarkCheckedIn (cardID : string) (at_ : time) (s : MemoryStore) : result error unit * MemoryStore :=
  match cards s !! cardID with
  | None => (Err ErrNotFound, s)
  | Some c =>
      match tc_CheckedInAt c with
      | Some _ => (Err ErrConflict, s)
      | None =>
          (Ok tt, set_cards (<[cardID := with_marks (Some at_) (tc_DismissedAt c) (tc_DismissReason c)
                                           (tc_DeletedAt c) at_ c]> (cards s)) s)
      end
  end.

Definition InsertCheckin (row : Checkin) (s : MemoryStore) : result error unit * MemoryStore :=
  match checkins s !! ck_ID row with
  | Some _ => (Err (Errorf "topic: duplicate checkin id"), s)
  | None => (Ok tt, set_checkins (<[ck_ID row := row]> (checkins s)) s)
  end.

Definition MarkDismissed (cardID reason : string) (at_ : time) (s : MemoryStore)
  : result error bool * MemoryStore :=
  match cards s !! cardID with
  | None => (Err ErrNotFound, s)
  | Some c =>
      match tc_DeletedAt c, tc_DismissedAt c with
      | Some _, _ => (Err ErrNotFound, s)
      | None, Some _ => (Ok false, s)
      | None, None =>
          (Ok true, set_cards (<[cardID := with_marks (tc_CheckedInAt c) (Some at_) reason
                                             (tc_DeletedAt c) at_ c]> (cards s)) s)
      end
  end.

Definition GetStreak (userID : string) (s : MemoryStore) : Streak :=
  default (mkStreak userID 0 0 None None zero_time) (streaks s !! userID).
Definition UpsertStreak (st : Streak) (s : MemoryStore) : MemoryStore :=
  set_streaks (<[sk_UserID st := st]> (streaks s)) s.

Definition with_card_deletion (deleted : option time) (updated : time) (c : Card) : Card :=
  with_marks (tc_CheckedInAt c) (tc_DismissedAt c) (tc_DismissReason c) deleted updated c.
Definition with_checkin_deletion (deleted : option time) (r : Checkin) : Checkin :=
  mkCheckin (ck_ID r) (ck_CardID r) (ck_UserID r) (ck_Reflection r) deleted (ck_CreatedAt r).
Definition with_streak_deletion (deleted : option time) (updated : time) (st : Streak) : Streak :=
  mkStreak (sk_UserID st) (sk_CurrentStreak st) (sk_LongestStreak st) (sk_LastCheckinDate st) deleted updated.

(** Change the rows [p] selects, and count them. *)
Definition change_rows {A} (p : A -> bool) (f : A -> A) (m : gmap string A) : Z * gmap string A :=
  (Z.of_nat (length (List.filter p (map_to_list m).*2)), (fun x => if p x then f x else x) <$> m).

Definition SoftDeleteAllForUser (userID : string) (at_ : time) (s : MemoryStore) : Z * MemoryStore :=
  let (n1, cs) := change_rows (fun c => String.eqb (tc_UserID c) userID && live tc_DeletedAt c)
                    (with_card_deletion (Some at_) at_) (cards s) in
  let (n2, ks) := change_rows (fun r => String.eqb (ck_UserID r) userID && live ck_DeletedAt r)
                    (with_checkin_deletion (Some at_)) (checkins s) in
  let (n3, st) := match streaks s !! userID with
                  | Some x => if live sk_DeletedAt x
                              then (1, <[userID := with_streak_deletion (Some at_) at_ x]> (streaks s))
                              else (0, streaks s)
                  | None => (0, streaks s)
                  end in
  (n1 + n2 + n3, mkTopics cs ks st).

(** The check-ins stay deleted. *)
Definition RestoreDeletedForUser (userID : string) (s : MemoryStore) : Z * MemoryStore :=
  let (n1, cs) := change_rows (fun c => String.eqb (tc_UserID c) userID && negb (live tc_DeletedAt c))
                    (fun c => with_card_deletion None (tc_UpdatedAt c) c) (cards s) in
  let (n3, st) := match streaks s !! userID with
                  | Some x => if live sk_DeletedAt x then (0, streaks s)
                              else (1, <[userID := with_streak_deletion None (sk_UpdatedAt x) x]> (streaks s))
                  | None => (0, streaks s)
                  end in
  (n1 + n3, mkTopics cs (checkins s) st).

(** ** Calls *)
Inductive topicE : Type -> Type :=
| TListToday (user : string) (day : time) : topicE (list Card)
| THasCards (user : string) (day : time) : topicE bool
| TGetCard (id : string) : topicE (result error Card)
| TInsertCards (cs : list Card) : topicE (result error unit)
| TMarkCheckedIn (id : string) (at_ : time) : topicE (result error unit)
| TMarkDismissed (id reason : string) (at_ : time) : topicE (result error bool)
| TCountDismiss (user : string) (since : time) : topicE (gmap string Z)
| TInsertCheckin (row : Checkin) : topicE (result error unit)
| TCountCheckins (user : string) (since : time) : topicE Z
| TCountCards (user : string) (since : time) : topicE Z
| TGetStreak (user : string) : topicE Streak
| TUpsertStreak (st : Streak) : topicE unit
| TSoftDelete (user : string) (at_ : time) : topicE Z
| TRestore (user : string) : topicE Z.

Definition handle_topic {mr : MapRange} {R} (c : topicE R) (s : MemoryStore) : R * MemoryStore :=
  match c in topicE R return R * MemoryStore with
  | TListToday u d => (ListTodayCards u d s, s)
  | THasCards u d => (HasCardsForDate u d s, s)
  | TGetCard id => (GetCard id s, s)
  | TInsertCards cs => InsertCards cs s
  | TMarkCheckedIn id at_ => MarkCheckedIn id at_ s
  | TMarkDismissed id reason at_ => MarkDismissed id reason at_ s
  | TCountDismiss u since => (CountDismissReasonsSince u since s, s)
  | TInsertCheckin row => InsertCheckin row s
  | TCountCheckins u since => (CountCheckinsSince u since s, s)
  | TCountCards u since => (CountCardsSince u since s, s)
  | TGetStreak u => (GetStreak u s, s)
  | TUpsertStreak st => (tt, UpsertStreak st s)
  | TSoftDelete u at_ => SoftDeleteAllForUser u at_ s
  | TRestore u => RestoreDeletedForUser u s
  end.
