(* ===== verification/TopicGround.v ===== *)
(** * Topic cards: grounding and the generator's text ([internal/topic])

    [grounding.go], [generator_prompt.go], the JSON of [generator.go] and the data
    of [model.go] they read: which of the learner's blocks a card quotes, what a
    card may keep, the prompt and the decoding of the reply. *)
From stdpp Require Import pretty.
From S2P Require Import Prelude GoString GoUnicode GoTime GoSort GoJson Topic.

Open Scope Z_scope.

Record BlockRef := mkBlockRef {
  br_ID : string;
  br_ExpressionEN : string;
  br_IntentZH : string;
  br_SceneTag : string;
  br_FunctionTag : string;
  br_AnchorUserSaid : string;
}.

Record Signals := mkSignals {
  sg_SceneCounts : gmap string Z;
  sg_FunctionCounts : gmap string Z;
  sg_Level : string;
  sg_RecentTitles : list string;
  sg_Empty : bool;
  sg_Blocks : list BlockRef;
}.

(** ** Quoting *)

Definition word_rune (r : Z) : bool :=
  in_range 97 r 122 || in_range 48 r 57 || in_range 0x4e00 r 0x9fff.

Definition tokenize (s : string) : list string :=
  map (fun w => of_bytes (encode_runes w))
    (rune_fields (fun r => negb (word_rune r)) [] (runes (to_bytes (ToLower s)))).

Definition minQuoteWords : nat := 4.

(** One row of the table: [p] is the entry before [prev]. *)
Fixpoint run_row (x : string) (p : nat) (prev : list nat) (b : list string) : list nat :=
  match b, prev with
  | y :: b, q :: prev => (if String.eqb x y then S p else 0%nat) :: run_row x q prev b
  | _, _ => []
  end.

Definition run_step (b : list string) (st : list nat * nat) (x : string) : list nat * nat :=
  let cur := run_row x 0 st.1 b in (cur, foldl Nat.max st.2 cur).

(** longestSharedRun: the table without its first column, row by row *)
Definition longestSharedRun (a b : list string) : nat :=
  match a, b with
  | [], _ | _, [] => 0%nat
  | _, _ => (foldl (run_step b) (repeat 0%nat (length b), 0%nat) a).2
  end.

Definition quotes_words (words : list string) (block : BlockRef) : bool :=
  (minQuoteWords <=? longestSharedRun words (tokenize (br_ExpressionEN block)))%nat ||
  (minQuoteWords <=? longestSharedRun words (tokenize (br_AnchorUserSaid block)))%nat.

Definition contentMatch (text : string) (blocks : list BlockRef) : list BlockRef :=
  let words := tokenize text in
  if (length words <? minQuoteWords)%nat then [] else List.filter (quotes_words words) blocks.

Definition isRepeatTitle (title : string) (recentTitles : list string) : bool :=
  let normalized := String.concat " " (tokenize title) in
  if String.eqb normalized "" then false
  else existsb (fun recent => String.eqb (String.concat " " (tokenize recent)) normalized) recentTitles.

Definition sourceNote (tags : list string) (matched : list BlockRef) (sig : Signals) : string :=
  let first := match tags with
               | [] => "来自你的语料库"%string
               | _ => "来自你 " +:+ String.concat "/" tags +:+ " 的语料"
               end in
  let count := "可调用话术块 ×" +:+ pretty (Z.of_nat (length matched)) in
  let recent := match sg_RecentTitles sig with
                | [] => []
                | l => ["最近练过 " +:+ String.concat "、" (take 3 l)]
                end in
  capRunes (String.concat "；" ([first; count] ++ recent)) 255.

(** The scene tags of the blocks, in order, each once. *)
Definition scenes_of (matched : list BlockRef) : list string :=
  foldl (fun scenes b =>
    let scene := ToLower (TrimSpace (br_SceneTag b)) in
    if String.eqb scene "" || bool_decide (scene ∈ scenes) then scenes else scenes ++ [scene]) [] matched.

Definition with_ground (tags ids : list string) (note : string) (c : Card) : Card :=
  mkCard (tc_ID c) (tc_UserID c) (tc_ForDate c) (tc_Title c) (tc_PromptEN c) (tc_PromptZH c)
    (tc_CardType c) tags ids note (tc_ValidUntil c) (tc_CheckedInAt c) (tc_DismissedAt c)
    (tc_DismissReason c) (tc_DeletedAt c) (tc_CreatedAt c) (tc_UpdatedAt c).

Definition card_text (c : Card) : string :=
  tc_Title c +:+ " " +:+ tc_PromptEN c +:+ " " +:+ tc_PromptZH c.

Definition groundCard (card : Card) (sig : Signals) (recentTitles : list string) : option Card :=
  match contentMatch (card_text card) (sg_Blocks sig) with
  | [] => None
  | matched =>
      let matched := take MaxBlocksPerCard matched in
      let scenes := scenes_of matched in
      if isRepeatTitle (tc_Title card) recentTitles then None
      else Some (with_ground scenes (map br_ID matched) (sourceNote scenes matched sig) card)
  end.

(** ** The prompt *)

Definition dq : string := String dquote "".

Definition block_line (b : BlockRef) : option string :=
  let scene := TrimSpace (br_SceneTag b) in
  let tag := if String.eqb scene "" then TrimSpace (br_FunctionTag b) else scene in
  let expression := TrimSpace (br_ExpressionEN b) in
  if String.eqb expression "" then None
  else if String.eqb tag "" then Some ("- " +:+ expression)
  else Some ("- [" +:+ tag +:+ "] " +:+ expression).

Definition newline : string := String (ascii_of_N 10) "".

Definition blockLines (blocks : list BlockRef) : string :=
  match omap block_line (take MaxPromptBlocks blocks) with
  | [] => "(none)"
  | lines => String.concat newline lines
  end.

Definition joinCounts {mr : MapRange} (m : gmap string Z) : string :=
  String.concat ", " (map (fun kv => kv.1 +:+ "=" +:+ pretty kv.2) (map_range m)).

Definition or_text (s fallback : string) : string := if String.eqb s "" then fallback else s.

Definition GeneratePrompt {mr : MapRange} (sig : Signals) (forDate : string) (recentTitles : list string)
  : string :=
  let scenes := or_text (joinCounts (sg_SceneCounts sig)) "(none — use general workplace English)" in
  let fns := or_text (joinCounts (sg_FunctionCounts sig)) "(none — mix report, clarify, and propose)" in
  let titles := or_text (String.concat "; " (sg_RecentTitles sig)) "(none)" in
  let already := match recentTitles with [] => "(none)"%string | l => String.concat " | " l end in
  let level := or_text (sg_Level sig) "intermediate" in
  "You write 3 spoken English practice topic cards for one workplace learner.

Date: " +:+ forDate +:+ "
Level: " +:+ level +:+ "
Scene tag counts (30d): " +:+ scenes +:+ "
Function tag counts (30d): " +:+ fns +:+ "
Recent session titles (14d): " +:+ titles +:+ "

The learner's own phrase blocks (the only material you may build a card from):
" +:+ blockLines (sg_Blocks sig) +:+ "

Cards the learner already has (do not repeat these topics or titles):
" +:+ already +:+ "

Reply with JSON only:
{" +:+ dq +:+ "cards" +:+ dq +:+ ":[{" +:+ dq +:+ "title" +:+ dq +:+ ":" +:+ dq +:+ "..." +:+ dq +:+ "," +:+ dq +:+ "prompt_en" +:+ dq +:+ ":" +:+ dq +:+ "..." +:+ dq +:+ "," +:+ dq +:+ "prompt_zh" +:+ dq +:+ ":" +:+ dq +:+ "..." +:+ dq +:+ "," +:+ dq +:+ "card_type" +:+ dq +:+ ":" +:+ dq +:+ "warmup|practice|stretch" +:+ dq +:+ "," +:+ dq +:+ "seed_tags" +:+ dq +:+ ":[" +:+ dq +:+ "standup" +:+ dq +:+ "," +:+ dq +:+ "report" +:+ dq +:+ "]}]}
Exactly 3 cards.

Rules:
- every card must copy at least one of the learner's phrases above **verbatim** into prompt_en; a card that shares no wording with those phrases is discarded by the server
- do not repeat any topic or title from the " +:+ dq +:+ "cards the learner already has" +:+ dq +:+ " list
- seed_tags must be scene or function tags that appear in the counts above, and each card must be one the learner's blocks can serve
- prompt_en is 2-3 opening sentences the learner can say out loud, using their kind of phrasing
- card_type must be one of warmup, practice, stretch
- keep prompts speakable in under 45 seconds".

(** ** The reply *)

Record GeneratedCard := mkGenerated {
  gc_Title : string;
  gc_PromptEN : string;
  gc_PromptZH : string;
  gc_CardType : string;
  gc_SeedTags : slice string;
}.
Definition zero_generated : GeneratedCard := mkGenerated "" "" "" "" nil_slice.

Definition generated_fields : list string :=
  ["title"; "prompt_en"; "prompt_zh"; "card_type"; "seed_tags"]%string.

Definition dec_text {A} (old : string) (v : json) (put : string -> A) : result json_error A :=
  match dec_string old v with Ok x => Ok (put x) | Err e => Err e end.

Definition set_generated (name : string) (g : GeneratedCard) (v : json) : result json_error GeneratedCard :=
  let '(mkGenerated t e z c s) := g in
  if String.eqb name "title" then dec_text t v (fun x => mkGenerated x e z c s)
  else if String.eqb name "prompt_en" then dec_text e v (fun x => mkGenerated t x z c s)
  else if String.eqb name "prompt_zh" then dec_text z v (fun x => mkGenerated t e x c s)
  else if String.eqb name "card_type" then dec_text c v (fun x => mkGenerated t e z x s)
  else match dec_slice ""%string dec_string s v with
       | Ok s => Ok (mkGenerated t e z c s)
       | Err e => Err e
       end.

Definition parseGenerateJSON (raw : string) : option (list GeneratedCard) :=
  match Unmarshal ["cards"%string]
          (fun _ old v => dec_slice zero_generated (dec_object generated_fields set_generated) old v)
          nil_slice (brace_span (TrimSpace raw)) with
  | (_, Some _) => None
  | (r, None) => Some (elems r)
  end.

Definition card_types : list string := [CardTypeWarmup; CardTypePractice; CardTypeStretch].

(** A known type is kept as it was sent, white space included. *)
Definition normalizeCardType (tag : string) (index : nat) : string :=
  if bool_decide (TrimSpace tag ∈ card_types) then tag
  else default CardTypePractice (card_types !! index).
