(* ===== verification/TopicService.v ===== *)
(** * Topic cards: the generator, the streak and the service ([internal/topic])

    [generator.go], [signals.go], [streak.go], [service.go], [stats.go] and the
    decision of [scheduler.go], as programs over the topic store, the corpus, the
    session store, the clock, identifiers and the model.  Before every store call
    other goroutines may make calls of their own.  Logging and metrics are left
    out. *)
From Stdlib Require Import SpecFloat.
From S2P Require Import Prelude Prog GoString GoTime GoSort GoJson ApiErr Session Corpus CorpusStore CorpusLaws CorpusService Topic TopicGround.

Open Scope Z_scope.
Open Scope prog_scope.

Record topicState := mkTopicState {
  t_topics : Topic.MemoryStore;
  t_blocks : Corpus.MemoryStore;
  t_sessions : Session.MemoryStore;
}.

Inductive topicSvcE : Type -> Type :=
| TDb {R : Type} (c : topicE R) : topicSvcE R
| TCorpus {R : Type} (c : corpusE R) : topicSvcE R
| TSessions (userID : string) (limit : Z) : topicSvcE (list Session)
| TNow : topicSvcE time
| TNewID : topicSvcE string
| TComplete (prompt : string) : topicSvcE (option string).

Abbreviation tprog := (program topicSvcE).
Definition tdb {R} (c : topicE R) : tprog R := call (TDb c).
Definition tblocks {R} (c : corpusE R) : tprog R := call (TCorpus c).

Inductive tevent :=
| OnTopics {R : Type} (c : topicE R)
| OnBlocks (e : event).

Record TOracle := mkTOracle {
  to_now : nat -> time;
  to_id : nat -> string;
  to_complete : nat -> string -> option string;
  to_env : nat -> list tevent;
}.
Definition talone (o : TOracle) : Prop := forall n, to_env o n = [].

Section handlers.
Context {mr : MapRange}.

Definition tafter (e : tevent) (s : topicState) : topicState :=
  match e with
  | OnTopics c => mkTopicState (handle_topic c (t_topics s)).2 (t_blocks s) (t_sessions s)
  | OnBlocks e => mkTopicState (t_topics s) (after e (t_blocks s)) (t_sessions s)
  end.
Definition trun (tr : list tevent) (s : topicState) : topicState :=
  foldl (fun s e => tafter e s) s tr.

Definition perform_topic {R} (o : TOracle) (e : topicSvcE R) (n : nat) (s : topicState) : R * topicState :=
  match e in topicSvcE R return R * topicState with
  | TDb c =>
      let s := trun (to_env o n) s in
      let (r, t) := handle_topic c (t_topics s) in (r, mkTopicState t (t_blocks s) (t_sessions s))
  | TCorpus c =>
      let s := trun (to_env o n) s in
      let (r, b) := handle c (t_blocks s) in (r, mkTopicState (t_topics s) b (t_sessions s))
  | TSessions u limit => (ListSessions u None "" limit (t_sessions s), s)
  | TNow => (to_now o n, s)
  | TNewID => (to_id o n, s)
  | TComplete prompt => (to_complete o n prompt, s)
  end.
End handlers.

#[export] Instance runs_topic {mr : MapRange} : Runs TOracle topicSvcE topicState :=
  @perform_topic mr.

(** The corpus service runs its calls on the same stores. *)
Definition corpus_effect {R} (e : corpusSvcE R) : topicSvcE R :=
  match e in corpusSvcE R return topicSvcE R with
  | CDb c => TCorpus c
  | CNow => TNow
  | CNewID => TNewID
  end.
Fixpoint on_corpus {A} (p : cprog A) : tprog A :=
  match p with
  | Ret a => Ret a
  | Do e k => Do (corpus_effect e) (fun r => on_corpus (k r))
  end.

(** ** Streaks *)

Definition UpdateOnCheckin (userID : string) (now : time) : tprog Streak :=
  let today := utcDate now in
  st <- tdb (TGetStreak userID);
  let same := match sk_LastCheckinDate st with Some d => utcDate d =? today | None => false end in
  if same then
    let st := mkStreak userID (sk_CurrentStreak st) (sk_LongestStreak st) (sk_LastCheckinDate st) None now in
    _ <- tdb (TUpsertStreak st);
    Ret st
  else
    let follows := match sk_LastCheckinDate st with
                   | Some d => utcDate d =? today - Day
                   | None => false
                   end in
    let current := if follows then int64 (sk_CurrentStreak st + 1) else 1 in
    let longest := if sk_LongestStreak st <? current then current else sk_LongestStreak st in
    let st := mkStreak userID current longest (Some today) None now in
    _ <- tdb (TUpsertStreak st);
    Ret st.

(** ** Signals *)

Definition tally (key : PhraseBlock -> string) (bs : list PhraseBlock) : gmap string Z :=
  foldl (fun m b => if String.eqb (key b) "" then m else count_key (key b) m) ∅ bs.

Definition block_ref (b : PhraseBlock) : BlockRef :=
  mkBlockRef (b_ID b) (b_ExpressionEN b) (b_IntentZH b) (b_SceneTag b) (b_FunctionTag b) (b_AnchorUserSaid b).

(** Up to eight scene types of recent sessions, each once, in listing order. *)
Fixpoint recent_scenes (cutoff : time) (seen : list string) (ss : list Session) : list string :=
  match ss with
  | [] => seen
  | x :: ss =>
      let title := s_SceneType x in
      if Before (s_CreatedAt x) cutoff || String.eqb title "" || bool_decide (title ∈ seen)
      then recent_scenes cutoff seen ss
      else if (length (seen ++ [title]) =? 8)%nat then seen ++ [title]
      else recent_scenes cutoff (seen ++ [title]) ss
  end.

Definition Snapshot (userID : string) (now : time) : tprog Signals :=
  blocks <- tblocks (EListBlocks (plain_filter userID 200));
  sessions <- call (TSessions userID 20);
  let n := Z.of_nat (length blocks) in
  let level := if 50 <=? n then "advanced"%string else if 10 <=? n then "intermediate"%string
               else "beginner"%string in
  let titles := recent_scenes (Add now (- (14 * 24 * Hour))) [] sessions in
  Ret (mkSignals (tally b_SceneTag blocks) (tally b_FunctionTag blocks) level (SortStrings titles)
         (n <=? 0) (map block_ref blocks)).

(** ** The generator *)

Fixpoint recent_titles (userID : string) (day : time) (days : list Z) : tprog (list string) :=
  match days with
  | [] => Ret []
  | i :: days =>
      prior <- tdb (TListToday userID (utcDate (day - i * Day)));
      rest <- recent_titles userID day days;
      Ret (map tc_Title prior ++ rest)
  end.
Definition recentTitles (userID : string) (day : time) : tprog (list string) :=
  recent_titles userID day [1; 2; 3].

Fixpoint complete_loop (attempts : nat) (prompt : string) : tprog (option string) :=
  match attempts with
  | O => Ret None
  | S attempts =>
      raw <- call (TComplete prompt);
      match raw with
      | Some raw => Ret (Some raw)
      | None => complete_loop attempts prompt
      end
  end.

(** The cards of the reply: the first three with a title and a prompt. *)
Fixpoint parse_cards (userID : string) (day now : time) (k : nat) (items : list GeneratedCard)
  : tprog (list Card) :=
  match items with
  | [] => Ret []
  | item :: items =>
      if (k =? CardsPerDay)%nat then Ret [] else
      let title := TrimSpace (gc_Title item) in
      let en := TrimSpace (gc_PromptEN item) in
      if String.eqb title "" || String.eqb en "" then parse_cards userID day now k items else
      id <- call TNewID;
      rest <- parse_cards userID day now (S k) items;
      Ret (mkCard id userID day title en (TrimSpace (gc_PromptZH item))
             (normalizeCardType (gc_CardType item) k) (elems (gc_SeedTags item)) [] "" (Add day (24 * Hour))
             None None "" None now now :: rest)
  end.

(** Why a user got no cards. *)
Inductive generated :=
| Skipped (reason : string)
| Failed (e : error)
| Inserted (cs : list Card).

Section generator.
Context {mr : MapRange} (has_llm has_signals : bool) (minBlocks : Z).

Definition no_signals : Signals := mkSignals ∅ ∅ "intermediate" [] true [].

Definition ground_all (sig : Signals) (titles : list string) (cs : list Card) : list Card :=
  omap (fun c => groundCard c sig titles) cs.

(** Generator.GenerateForUser; the metrics it counts are its answer. *)
Definition GenerateForUser (userID : string) (targetDate : time) : tprog generated :=
  let userID := TrimSpace userID in
  if String.eqb userID "" then Ret (Skipped "") else
  let day := utcDate targetDate in
  existing <- tdb (TListToday userID day);
  if negb (length existing =? 0)%nat then Ret (Skipped "already_generated") else
  has <- tdb (THasCards userID day);
  if (has : bool) then Ret (Skipped "already_generated") else
  if negb has_llm then Ret (Skipped "no_llm") else
  titles <- recentTitles userID day;
  sig <- (if has_signals then now <- call TNow; Snapshot userID now else Ret no_signals);
  if Z.of_nat (length (sg_Blocks sig)) <? minBlocks then Ret (Skipped "below_threshold") else
  raw <- complete_loop GenerateAttempts (GeneratePrompt sig (format_date day) titles);
  match raw with
  | None => Ret (Skipped "llm_timeout")
  | Some raw =>
      match parseGenerateJSON raw with
      | None => Ret (Skipped "parse_error")
      | Some items =>
          now <- call TNow;
          parsed <- parse_cards userID day now 0 items;
          if negb (length parsed =? CardsPerDay)%nat then Ret (Skipped "parse_error") else
          match ground_all sig titles parsed with
          | [] => Ret (Skipped "ungrounded")
          | cs =>
              inserted <- tdb (TInsertCards cs);
              match inserted with
              | Err e => Ret (Failed e)
              | Ok _ => Ret (Inserted cs)
              end
          end
      end
  end.

(** ** The service *)

Record CardBlockRef := mkCardBlockRef {
  cb_ID : string; cb_ExpressionEN : string; cb_IntentZH : string }.
Record CardView := mkCardView { cv_Card : Card; cv_Blocks : list CardBlockRef }.

(** Whether the block lookup, the ledger and the generator are attached. *)
Context (has_blocks has_ledger has_gen : bool).

Definition missing_user : error := Api (Unauthenticated "missing authenticated user").
Definition no_card_id : error := Api (InvalidArgument "card_id is required").
Definition card_not_found : error := Api (NotFound "topic card not found").

Definition refs_by_id (blocks : list PhraseBlock) : gmap string CardBlockRef :=
  foldl (fun m b => <[b_ID b := mkCardBlockRef (b_ID b) (b_ExpressionEN b) (b_IntentZH b)]> m) ∅ blocks.

Definition viewCards (userID : string) (cs : list Card) : tprog (list CardView) :=
  if negb has_blocks then Ret (map (fun c => mkCardView c []) cs) else
  blocks <- tblocks (EListBlocks (plain_filter userID 200));
  let byID := refs_by_id blocks in
  Ret (map (fun c => mkCardView c (omap (fun id => byID !! id) (tc_BlockIDs c))) cs).

Definition ListToday (userID : string) : tprog (result error (list CardView)) :=
  let userID := TrimSpace userID in
  if String.eqb userID "" then Ret (Err missing_user) else
  now <- call TNow;
  let today := utcDate now in
  items <- tdb (TListToday userID today);
  items <- (if (length items =? 0)%nat && has_gen
            then _ <- GenerateForUser userID today; tdb (TListToday userID today)
            else Ret items);
  views <- viewCards userID items;
  Ret (Ok views).

Record DismissResult := mkDismissResult { dr_CardID : string; dr_Reason : string; dr_Already : bool }.

Definition Dismiss (userID cardID reason : string) : tprog (result error DismissResult) :=
  let userID := TrimSpace userID in
  let cardID := TrimSpace cardID in
  if String.eqb userID "" then Ret (Err missing_user) else
  if String.eqb cardID "" then Ret (Err no_card_id) else
  let reason := TrimSpace reason in
  if negb (ValidDismissReason reason)
  then Ret (Err (Api (InvalidArgument
         "reason must be no_partner, not_confident, no_time or not_relevant"))) else
  found <- tdb (TGetCard cardID);
  match found with
  | Err e => Ret (Err (if Is e Topic.ErrNotFound then card_not_found else e))
  | Ok card =>
      if negb (String.eqb (tc_UserID card) userID) || negb (live tc_DeletedAt card)
      then Ret (Err card_not_found) else
      now <- call TNow;
      first <- tdb (TMarkDismissed cardID reason now);
      match first with
      | Err e => Ret (Err (if Is e Topic.ErrNotFound then card_not_found else e))
      | Ok first => Ret (Ok (mkDismissResult cardID reason (negb first)))
      end
  end.

Record CheckinRequest := mkCheckinRequest { cq_Reflection : string; cq_UsedBlockIDs : list string }.
Record CheckinResult := mkCheckinResult {
  cr_CheckinID : string;
  cr_StreakDays : Z;
  cr_RecordedUse : Z;
  cr_IgnoredBlockIDs : list string;
}.

(** The ids the card offers, and the others. *)
Definition offered_ids (card : Card) (used : list string) : list string * list string :=
  (List.filter (fun id => bool_decide (id ∈ tc_BlockIDs card)) used,
   List.filter (fun id => negb (bool_decide (id ∈ tc_BlockIDs card))) used).

(** What the ledger credits; its errors only cost the credit. *)
Definition credit_uses (userID checkinID : string) (allowed : list string) : tprog Z :=
  match allowed with
  | [] => Ret 0
  | _ =>
      credited <- on_corpus (RecordRealUse userID allowed "checkin" checkinID);
      Ret (match credited with Ok n => n | Err _ => 0 end)
  end.

Definition Checkin_ (userID cardID : string) (req : CheckinRequest) : tprog (result error CheckinResult) :=
  let userID := TrimSpace userID in
  let cardID := TrimSpace cardID in
  if String.eqb userID "" then Ret (Err missing_user) else
  if String.eqb cardID "" then Ret (Err no_card_id) else
  if MaxReflectionLen <? go_len (cq_Reflection req)
  then Ret (Err (Api (InvalidArgument "reflection exceeds 500 bytes"))) else
  found <- tdb (TGetCard cardID);
  match found with
  | Err e => Ret (Err (if Is e Topic.ErrNotFound then card_not_found else e))
  | Ok card =>
      if negb (String.eqb (tc_UserID card) userID)
      then Ret (Err (Api (PermissionDenied "topic card not owned by caller"))) else
      if negb (live tc_DeletedAt card) then Ret (Err card_not_found) else
      now <- call TNow;
      marked <- tdb (TMarkCheckedIn cardID now);
      match marked with
      | Err e => Ret (Err (if Is e ErrConflict then Api (Conflict "topic card already checked in")
                           else if Is e Topic.ErrNotFound then card_not_found else e))
      | Ok _ =>
          id <- call TNewID;
          _ <-! tdb (TInsertCheckin (mkCheckin id cardID userID (TrimSpace (cq_Reflection req)) None now));
          let '(allowed, ignored) :=
            if has_ledger then offered_ids card (cq_UsedBlockIDs req) else ([], []) in
          recorded <- credit_uses userID id allowed;
          st <- UpdateOnCheckin userID now;
          Ret (Ok (mkCheckinResult id (sk_CurrentStreak st) recorded ignored))
      end
  end.

(** ** Statistics *)

(** [float64(z)] *)
Definition float_of (z : Z) : spec_float := binary_normalize 53 1024 z 0 false.
Definition rate (part whole : Z) : spec_float :=
  if whole <=? 0 then S754_zero false else SFdiv 53 1024 (float_of part) (float_of whole).

Definition DefaultStatsWindowDays : Z := 30.
Definition MaxStatsWindowDays : Z := 180.
Definition statsBlockScanLimit : Z := 500.

Record PracticeStats := mkPracticeStats {
  ps_WindowDays : Z;
  ps_Checkins : Z;
  ps_CardsServed : Z;
  ps_BlocksTotal : Z;
  ps_BlocksUsed : Z;
  ps_GreenBlocks : Z;
  ps_GreenUsed : Z;
  ps_ConversionRate : spec_float;
  ps_CheckinRate : spec_float;
  ps_RealUsesHit : Z;
  ps_RealUsesCheckin : Z;
  ps_DismissReasons : gmap string Z;
  ps_DismissRate : spec_float;
}.

Definition count_blocks (p : PhraseBlock -> bool) (bs : list PhraseBlock) : Z :=
  Z.of_nat (length (List.filter (fun b => live b_DeletedAt b && p b) bs)).
Definition used_block (b : PhraseBlock) : bool := 0 <? b_RealUseCount b.
Definition green (b : PhraseBlock) : bool := String.eqb (b_State b) StateAutomated.

Definition Svc_PracticeStats (userID : string) (days : Z) : tprog (result error PracticeStats) :=
  let userID := TrimSpace userID in
  if String.eqb userID "" then Ret (Err missing_user) else
  let days := if days <=? 0 then DefaultStatsWindowDays else days in
  let days := if MaxStatsWindowDays <? days then MaxStatsWindowDays else days in
  now <- call TNow;
  let since := now - days * Day in
  nchecks <- tdb (TCountCheckins userID since);
  ncards <- tdb (TCountCards userID since);
  blocks <- (if has_blocks then tblocks (EListBlocks (plain_filter userID statsBlockScanLimit)) else Ret []);
  let total := count_blocks (fun _ => true) blocks in
  let greens := count_blocks green blocks in
  let green_used := count_blocks (fun b => green b && used_block b) blocks in
  reasons <- tdb (TCountDismiss userID since);
  let dismissals := foldl Z.add 0 (map_to_list reasons).*2 in
  uses <- (if has_ledger then tblocks (ECountRealUses userID since) else Ret ∅);
  Ret (Ok (mkPracticeStats days nchecks ncards total (count_blocks used_block blocks) greens green_used
             (if 0 <? total then rate green_used greens else S754_zero false) (rate nchecks ncards)
             (default 0 (uses !! RealUseSourceHit)) (default 0 (uses !! RealUseSourceCheckin))
             reasons (if (size reasons =? 0)%nat then S754_zero false else rate dismissals ncards))).
End generator.

(** ** The daily batch

    RunIfDue answers the new [lastRun] and the day to generate for, if any. *)
Definition RunIfDue (lastRun now : time) : time * option time :=
  if (now mod Day) / Hour <? CronHourUTC then (lastRun, None) else
  let day := utcDate now in
  if lastRun =? day then (lastRun, None) else (day, Some day).
