(* ===== verification/TopicQuote.v ===== *)
(** * Quoting: the table is the specification

    [longestSharedRun] fills a table of runs row by row.  It finds exactly the
    longest list of consecutive words that two texts share. *)
From S2P Require Import Prelude GoString GoTime GoSort Topic TopicGround.

Open Scope nat_scope.

(** [w] occurs in [l] as consecutive words. *)
Definition infix {A} (w l : list A) : Prop := exists p s, l = p ++ w ++ s.

(** [w] ends both lists. *)
Definition ends {A} (w l : list A) : Prop := exists p, l = p ++ w.

(** The longest common suffix of two lists, from their reversals. *)
Fixpoint common_prefix (a b : list string) : nat :=
  match a, b with
  | x :: a, y :: b => if String.eqb x y then S (common_prefix a b) else 0
  | _, _ => 0
  end.
Definition common_suffix (a b : list string) : nat := common_prefix (rev a) (rev b).

Lemma common_prefix_spec a b k :
  k <= common_prefix a b <-> exists w a' b', length w = k /\ a = w ++ a' /\ b = w ++ b'.
Proof.
  revert b k. induction a as [|x a IH]; intros [|y b] k; cbn.
  1-3: split; [intros ?; assert (k = 0) as -> by lia; by eexists [], _, _|].
  1-3: by intros ([|z w] & a' & b' & <- & Ha & Hb); [cbn; lia|].
  destruct (String.eqb_spec x y) as [->|Hne].
  - split.
    + destruct k as [|k]; [by eexists [], _, _|]. intros Hk.
      destruct (proj1 (IH b k)) as (w & a' & b' & Hw & -> & ->); [lia|].
      exists (y :: w), a', b'. cbn. by rewrite Hw.
    + intros ([|z w] & a' & b' & <- & Ha & Hb); [cbn; lia|]. cbn in *. injection Ha as -> Ha. injection Hb as Hb.
      assert (length w <= common_prefix a b) by (apply IH; by exists w, a', b'). lia.
  - split; [intros ?; assert (k = 0) as -> by lia; by eexists [], _, _|].
    intros ([|z w] & a' & b' & <- & Ha & Hb); [cbn; lia|]. cbn in *. congruence.
Qed.

Lemma common_suffix_spec a b k :
  k <= common_suffix a b <-> exists w, length w = k /\ ends w a /\ ends w b.
Proof.
  unfold common_suffix. rewrite common_prefix_spec. split.
  - intros (w & a' & b' & Hw & Ha & Hb). exists (rev w). rewrite length_rev. split; [done|].
    apply (f_equal (@rev _)) in Ha, Hb. rewrite rev_involutive, rev_app_distr in Ha, Hb.
    split; by eexists.
  - intros (w & Hw & [p ->] & [p' ->]). exists (rev w), (rev p), (rev p').
    rewrite length_rev, !rev_app_distr. done.
Qed.

(** The row of the table for the words read so far, [b] split before and after
    the column. *)
Fixpoint row_spec (a done_ b : list string) : list nat :=
  match b with
  | [] => []
  | y :: b => common_suffix a (done_ ++ [y]) :: row_spec a (done_ ++ [y]) b
  end.

Lemma common_suffix_snoc a b x y :
  common_suffix (a ++ [x]) (b ++ [y]) = if String.eqb x y then S (common_suffix a b) else 0.
Proof. unfold common_suffix. by rewrite !rev_unit. Qed.

Lemma run_row_spec a x done_ b :
  run_row x (common_suffix a done_) (row_spec a done_ b) b = row_spec (a ++ [x]) done_ b.
Proof.
  revert done_. induction b as [|y b IH]; intros done_; cbn; [done|].
  by rewrite common_suffix_snoc, IH.
Qed.

Lemma row_spec_nil done_ b : row_spec [] done_ b = repeat 0 (length b).
Proof. revert done_. induction b as [|y b IH]; intros done_; cbn; [done|]. by rewrite IH. Qed.

Lemma row_spec_entry a done_ b k :
  (exists v, In v (row_spec a done_ b) /\ k <= v) <->
  exists b1 y b2, b = b1 ++ y :: b2 /\ k <= common_suffix a (done_ ++ b1 ++ [y]).
Proof.
  revert done_. induction b as [|y b IH]; intros done_; cbn [row_spec In].
  - split; [by intros (v & [] & _)|by intros ([|? ?] & ? & ? & ? & _)].
  - split.
    + intros (v & [<-|Hv] & Hk); [by exists [], y, b|].
      destruct (proj1 (IH (done_ ++ [y]))) as (b1 & z & b2 & -> & Hk'); [by exists v|].
      exists (y :: b1), z, b2. split; [done|]. by rewrite <- app_assoc in Hk'.
    + intros ([|y' b1] & z & b2 & Hb & Hk); cbn in *; injection Hb as -> ->.
      * eexists. split; [by left|done].
      * destruct (proj2 (IH (done_ ++ [y']))) as (v & Hv & Hkv); [|exists v; by split; [right|]].
        exists b1, z, b2. split; [done|]. by rewrite <- app_assoc.
Qed.

Lemma foldl_max_le l m k : k <= foldl Nat.max m l <-> k <= m \/ exists v, In v l /\ k <= v.
Proof.
  revert m. induction l as [|x l IH]; intros m; cbn; [split; [by left|by intros [|(v & [] & _)]]|].
  rewrite IH. split.
  - intros [H|(v & Hv & Hk)]; [|right; by exists v; split; [right|]].
    destruct (Nat.max_spec m x) as [[_ E]|[_ E]]; rewrite E in H; [right; exists x; by split; [left|]|by left].
  - intros [H|(v & [<-|Hv] & Hk)]; [left; lia|left; lia|right; by exists v].
Qed.

(** The state after the words of [a]: the row, and the best entry so far. *)
Lemma table_spec b a :
  let st := foldl (run_step b) (repeat 0 (length b), 0) a in
  st.1 = row_spec a [] b /\
  forall k, 0 < k -> k <= st.2 <-> exists a1 a2, a = a1 ++ a2 /\ exists b1 b2, b = b1 ++ b2 /\
    k <= common_suffix a1 b1.
Proof.
  induction a as [|x a IH] using rev_ind; cbn zeta.
  - split; [by rewrite row_spec_nil|]. cbn. intros k Hk. split; [lia|].
    intros (a1 & a2 & Ha & b1 & b2 & _ & Hc). symmetry in Ha. apply app_eq_nil in Ha as [-> _]. cbn in Hc. lia.
  - rewrite foldl_app. cbn [foldl]. destruct IH as [Hrow Hbest]. set (st := foldl _ _ a) in *.
    assert (run_row x 0 st.1 b = row_spec (a ++ [x]) [] b) as Hcur.
    { rewrite Hrow. assert (common_suffix a [] = 0) as E.
      { unfold common_suffix. by destruct (rev a). }
      rewrite <- E at 1. apply run_row_spec. }
    unfold run_step. cbn [fst snd]. split; [done|]. intros k Hk.
    rewrite foldl_max_le, Hbest, Hcur, row_spec_entry by done. cbn [app]. split.
    + intros [(a1 & a2 & -> & b1 & b2 & -> & H)|(b1 & y & b2 & -> & H)].
      * exists a1, (a2 ++ [x]). split; [by rewrite app_assoc|]. by exists b1, b2.
      * exists (a ++ [x]), []. split; [by rewrite app_nil_r|]. exists (b1 ++ [y]), b2.
        split; [by rewrite <- app_assoc|done].
    + intros (a1 & a2 & Ha & b1 & b2 & -> & H).
      destruct a2 as [|z a2 _] using rev_ind.
      * right. rewrite app_nil_r in Ha. subst a1.
        destruct b1 as [|y b1 _] using rev_ind; [|exists b1, y, b2; by rewrite <- app_assoc].
        unfold common_suffix in H. cbn in H. destruct (rev (a ++ [x])); cbn in H; lia.
      * left. rewrite app_assoc in Ha. apply app_inj_tail in Ha as [-> _].
        exists a1, a2. split; [done|]. by exists b1, b2.
Qed.

(** The words two texts share. *)
Definition shares_run (k : nat) (a b : list string) : Prop :=
  exists w, length w = k /\ infix w a /\ infix w b.

Lemma longestSharedRun_spec a b k : 0 < k -> k <= longestSharedRun a b <-> shares_run k a b.
Proof.
  intros Hk.
  assert (k <= (foldl (run_step b) (repeat 0 (length b), 0) a).2 <->
          exists w, length w = k /\ infix w a /\ infix w b) as H.
  { rewrite (proj2 (table_spec b a) k Hk). split.
    - intros (a1 & a2 & -> & b1 & b2 & -> & H). apply common_suffix_spec in H as (w & Hw & [p ->] & [p' ->]).
      exists w. split; [done|]. split; [exists p, a2|exists p', b2]; by rewrite app_assoc.
    - intros (w & Hw & (p & s & ->) & (p' & s' & ->)). exists (p ++ w), s.
      split; [by rewrite app_assoc|]. exists (p' ++ w), s'. split; [by rewrite app_assoc|].
      apply common_suffix_spec. exists w. split; [done|]. split; by eexists. }
  unfold longestSharedRun. destruct a as [|x a].
  { split; [lia|]. intros (w & Hw & (p & s & Hp) & _). symmetry in Hp. apply app_eq_nil in Hp as [_ Hp].
    apply app_eq_nil in Hp as [-> _]. cbn in Hw. lia. }
  destruct b as [|y b]; [|exact H].
  split; [lia|]. intros (w & Hw & _ & (p & s & Hp)). symmetry in Hp. apply app_eq_nil in Hp as [_ Hp].
  apply app_eq_nil in Hp as [-> _]. cbn in Hw. lia.
Qed.

Lemma shares_run_length k a b : shares_run k a b -> k <= length a.
Proof. intros (w & <- & (p & s & ->) & _). rewrite !length_app. lia. Qed.

(** A block is quoted by four words of its expression or of what the learner said. *)
Definition quoted (text : string) (b : BlockRef) : Prop :=
  shares_run minQuoteWords (tokenize text) (tokenize (br_ExpressionEN b)) \/
  shares_run minQuoteWords (tokenize text) (tokenize (br_AnchorUserSaid b)).

Lemma contentMatch_elem text blocks b : b ∈ contentMatch text blocks <-> b ∈ blocks /\ quoted text b.
Proof.
  assert (quotes_words (tokenize text) b = true <-> quoted text b) as Hq.
  { unfold quotes_words, quoted. rewrite orb_true_iff, !Nat.leb_le.
    rewrite !longestSharedRun_spec by (unfold minQuoteWords; lia). done. }
  unfold contentMatch. cbv zeta. destruct (Nat.ltb_spec (length (tokenize text)) minQuoteWords) as [Hlt|Hge].
  - rewrite <- Hq in *. split; [by intros ?%elem_of_nil|]. intros [_ Hb]. apply Hq in Hb.
    destruct Hb as [Hb|Hb]; apply shares_run_length in Hb; lia.
  - rewrite list_elem_of_In, filter_In, <- list_elem_of_In, Hq. done.
Qed.

(** C35: The table of [longestSharedRun] computes its specification, and so a card
    is matched with a block exactly when they share four words in a row: the
    table answers at least [k] exactly when some [k] consecutive words of the
    one text are consecutive words of the other. *)
Theorem longestSharedRun_is_longest a b k text blocks block :
  0 < k ->
  (k <= longestSharedRun a b <-> shares_run k a b) /\
  (block ∈ contentMatch text blocks <-> block ∈ blocks /\ quoted text block).
Proof. intros Hk. split; [by apply longestSharedRun_spec|apply contentMatch_elem]. Qed.

Lemma longestSharedRun_is_longest_witness :
  let a := ["let"; "us"; "circle"; "back"; "on"; "this"; "today"]%string in
  let b := ["we"; "circle"; "back"; "on"; "this"; "soon"]%string in
  longestSharedRun a b = 4 /\ shares_run 4 a b.
Proof.
  intros a b. assert (longestSharedRun a b = 4) as E by reflexivity. split; [done|].
  apply (longestSharedRun_is_longest a b 4 "" [] (mkBlockRef "" "" "" "" "" "")); [lia|]. by rewrite E.
Defined.
