(* ===== verification/TopicStreak.v ===== *)
(** * The streak refines the calendar

    The two counters of a streak row, updated one check-in at a time, are the
    runs of consecutive days that the check-ins of the user form. *)
From S2P Require Import Prelude Prog GoString GoTime GoSort ApiErr Session Corpus CorpusStore CorpusLaws CorpusService Topic TopicGround TopicService.

Open Scope Z_scope.

(** The specification: [k] days in a row up to [d]. *)
Definition in_a_row (days : list Z) (d k : Z) : Prop := forall i, 0 <= i < k -> d - i ∈ days.

(** The days in a row up to [d], as many as there are. *)
Definition run_at (days : list Z) (d k : Z) : Prop := in_a_row days d k /\ d - k ∉ days.

(** The longest days in a row. *)
Definition longest_run (days : list Z) (k : Z) : Prop :=
  (exists d, in_a_row days d k) /\ forall d k', in_a_row days d k' -> k' <= Z.max 0 k.

(** One update as a function of the row. *)
Definition advance (u : string) (st : Streak) (now : time) : Streak :=
  let same := match sk_LastCheckinDate st with Some d => utcDate d =? utcDate now | None => false end in
  let follows := match sk_LastCheckinDate st with Some d => utcDate d =? utcDate now - Day | None => false end in
  if same then mkStreak u (sk_CurrentStreak st) (sk_LongestStreak st) (sk_LastCheckinDate st) None now
  else
    let current := if follows then int64 (sk_CurrentStreak st + 1) else 1 in
    mkStreak u current (if sk_LongestStreak st <? current then current else sk_LongestStreak st)
      (Some (utcDate now)) None now.

Lemma UpdateOnCheckin_run {mr : MapRange} o u now n s :
  talone o ->
  run_prog o (UpdateOnCheckin u now) n s =
    (advance u (GetStreak u (t_topics s)) now, S (S n),
     mkTopicState (UpsertStreak (advance u (GetStreak u (t_topics s)) now) (t_topics s)) (t_blocks s) (t_sessions s)).
Proof.
  intros Ha. unfold UpdateOnCheckin, advance, tdb, call. cbv zeta.
  cbn [bind run_prog perform runs_topic perform_topic]. rewrite Ha. cbn [trun foldl handle_topic t_topics t_blocks t_sessions].
  destruct (match sk_LastCheckinDate _ with Some d => utcDate d =? utcDate now | None => false end);
    cbn [bind run_prog perform runs_topic perform_topic]; rewrite Ha;
    cbn [trun foldl handle_topic t_topics t_blocks t_sessions]; reflexivity.
Qed.

Lemma utcDate_date t : utcDate (utcDate t) = utcDate t.
Proof. unfold utcDate, unix_day. by rewrite Z.div_mul. Qed.

Lemma utcDate_eqb a b k : (utcDate a =? utcDate b - k * Day) = (unix_day a =? unix_day b - k).
Proof.
  unfold utcDate. apply Bool.eq_true_iff_eq. rewrite !Z.eqb_eq.
  change Day with 86400000000000. lia.
Qed.

(** A row that says what the days of the check-ins so far say. *)
Definition says (days : list Z) (st : Streak) : Prop :=
  match last days with
  | None => sk_CurrentStreak st = 0 /\ sk_LongestStreak st = 0 /\ sk_LastCheckinDate st = None
  | Some d => (exists t, sk_LastCheckinDate st = Some t /\ unix_day t = d) /\
      Forall (fun x => x <= d) days /\ 1 <= sk_CurrentStreak st /\
      run_at days d (sk_CurrentStreak st) /\ longest_run days (sk_LongestStreak st)
  end /\ sk_CurrentStreak st <= sk_LongestStreak st <= Z.of_nat (length days).

(** A new last day, [c] days in a row with the ones before it. *)
Lemma new_day days d c l :
  Forall (fun x => x < d) days -> 1 <= c -> in_a_row (days ++ [d]) d c -> d - c ∉ days -> 0 <= l ->
  (days <> [] -> longest_run days l) -> (days = [] -> l = 0) ->
  run_at (days ++ [d]) d c /\ longest_run (days ++ [d]) (if l <? c then c else l).
Proof.
  intros Hmax Hc Hrow Hout Hl Hlong Hnil.
  assert (d - c ∉ days ++ [d]) as Hout'.
  { rewrite elem_of_app, list_elem_of_singleton. intros [?|?]; [done|lia]. }
  split; [by split|]. split.
  - destruct (Z.ltb_spec l c); [by exists d|].
    destruct days as [|x days]; [specialize (Hnil eq_refl); lia|].
    destruct Hlong as [[e He] _]; [done|]. exists e. intros i Hi. apply elem_of_app. left. by apply He.
  - intros e k He.
    assert (k <= Z.max 0 c \/ k <= Z.max 0 l) as Hk.
    { destruct (decide (e = d)) as [->|Hne].
      - left. destruct (Z.leb_spec k c); [lia|]. exfalso. apply Hout'. apply He. lia.
      - destruct (Z.leb_spec k 0); [left; lia|].
        assert (e ∈ days) as Hin.
        { specialize (He 0 ltac:(lia)). rewrite Z.sub_0_r, elem_of_app, list_elem_of_singleton in He.
          by destruct He. }
        right. destruct days as [|x days]; [by apply not_elem_of_nil in Hin|].
        apply (Hlong ltac:(done)) with e. intros i Hi. specialize (He i Hi).
        rewrite elem_of_app, list_elem_of_singleton in He. destruct He as [|E]; [done|].
        rewrite Forall_forall in Hmax. apply Hmax in Hin. lia. }
    destruct (Z.ltb_spec l c); lia.
Qed.

(** Another check-in on the last day says nothing new. *)
Lemma same_days (days : list Z) (d : Z) : d ∈ days -> (forall x, x ∈ days ++ [d] <-> x ∈ days).
Proof. intros Hd x. rewrite elem_of_app, list_elem_of_singleton. naive_solver. Qed.

Lemma advance_says u days st now :
  says days st -> (forall d, last days = Some d -> d <= unix_day now) ->
  Z.of_nat (length days) < max_int64 ->
  says (days ++ [unix_day now]) (advance u st now).
Proof.
  intros [Hsays Hlen] Hle Hmax. unfold says. rewrite last_snoc, length_app. cbn [length].
  set (d' := unix_day now) in *. unfold advance.
  destruct (last days) as [d|] eqn:Elast.
  - destruct Hsays as ((t & Ht & Hd) & Hall & Hc & [Hrow Hout] & Hlong). rewrite Ht. cbv zeta.
    specialize (Hle d eq_refl).
    pose proof (utcDate_eqb t now 0) as E0. pose proof (utcDate_eqb t now 1) as E1.
    rewrite Z.mul_0_l, !Z.sub_0_r in E0. rewrite Z.mul_1_l in E1. rewrite E0, E1. fold d'. rewrite Hd.
    assert (d ∈ days) as Hin by by apply last_Some_elem_of.
    destruct (Z.eqb_spec d d') as [<-|Hne].
    + split; [|cbn; lia]. cbn. pose proof (same_days days d Hin) as Hs.
      split; [by exists t|]. split; [apply Forall_app; by repeat constructor|]. split; [done|].
      split; [split; [intros i Hi; apply Hs; by apply Hrow|by rewrite Hs]|].
      destruct Hlong as [[e He] Hl]. split; [exists e; intros i Hi; apply Hs; by apply He|].
      intros e' k' He'. apply (Hl e' k'). intros i Hi. apply Hs. by apply He'.
    + assert (Forall (fun x => x < d') days) as Hlt.
      { eapply Forall_impl; [exact Hall|]. cbn. lia. }
      assert (0 <= sk_LongestStreak st) as Hl0 by lia.
      assert (days <> []) as Hnn by (intros ->; done).
      assert (forall c, 1 <= c <= sk_CurrentStreak st + 1 -> in_a_row (days ++ [d']) d' c -> d' - c ∉ days ->
        let l := if sk_LongestStreak st <? c then c else sk_LongestStreak st in
        run_at (days ++ [d']) d' c /\ longest_run (days ++ [d']) l /\ c <= l <= Z.of_nat (length days + 1)) as Hnew.
      { intros c Hcc Hr Ho. destruct (new_day days d' c (sk_LongestStreak st)) as [H1 H2]; try done; [lia|].
        split; [done|]. split; [done|]. destruct (Z.ltb_spec (sk_LongestStreak st) c); lia. }
      assert (Forall (fun x => x <= d') (days ++ [d'])) as Hall'.
      { apply Forall_app. split; [|by repeat constructor]. eapply Forall_impl; [exact Hall|]. cbn. lia. }
      assert (exists t', Some (utcDate now) = Some t' /\ unix_day t' = d') as Hdate.
      { eexists. split; [done|]. unfold utcDate, unix_day at 1. by rewrite Z.div_mul. }
      destruct (Z.eqb_spec d (d' - 1)) as [Hf|Hf]; cbn [sk_CurrentStreak sk_LongestStreak sk_LastCheckinDate].
      * rewrite int64_id by (unfold in_int64, min_int64; lia).
        destruct (Hnew (sk_CurrentStreak st + 1)) as (H1 & H2 & H3); [lia| | |].
        -- intros i Hi. destruct (decide (i = 0)) as [->|]; apply elem_of_app; [right; rewrite Z.sub_0_r; by left|].
           left. replace (d' - i) with (d - (i - 1)) by lia. apply Hrow. lia.
        -- by replace (d' - (sk_CurrentStreak st + 1)) with (d - sk_CurrentStreak st) by lia.
        -- split; [|lia]. split; [done|]. split; [done|]. split; [lia|done].
      * destruct (Hnew 1) as (H1 & H2 & H3); [lia| | |].
        -- intros i Hi. replace (d' - i) with d' by lia. apply elem_of_app. right. by left.
        -- intros Hi. rewrite Forall_forall in Hall. apply Hall in Hi. lia.
        -- split; [|lia]. split; [done|]. split; [done|]. split; [lia|done].
  - apply last_None in Elast as ->. destruct Hsays as (Hc & Hl & Hd). rewrite Hd, Hl. cbn.
    destruct (new_day [] d' 1 0) as [H1 H2]; try done; [|apply not_elem_of_nil|].
    + intros i Hi. replace (d' - i) with d' by lia. by left.
    + split; [|lia]. split; [|split; [by repeat constructor|split; [lia|done]]].
      eexists. split; [done|]. unfold utcDate, unix_day at 1. by rewrite Z.div_mul.
Qed.

(** ** Check-ins one after another *)

Section checkins.
Context {mr : MapRange}.

(** The user's check-ins at the instants [l], each running on its own. *)
Definition streak_updates (u : string) (l : list (TOracle * time)) (s : topicState) : topicState :=
  foldl (fun s r => (run_prog r.1 (UpdateOnCheckin u r.2) 0 s).2) s l.

Lemma advance_user u st now : sk_UserID (advance u st now) = u.
Proof. unfold advance. by destruct (match sk_LastCheckinDate st with Some d => utcDate d =? utcDate now | None => false end). Qed.

(** C34: The streak refines the calendar: after the check-ins of a user, one after
    another, at instants
    whose days do not go back, the current streak is the number of consecutive
    days that end at the last check-in day, and the longest streak the length of
    the longest run of consecutive check-in days there ever was. *)
Theorem streak_counts_consecutive_days u l s :
  streaks (t_topics s) !! u = None -> Forall (fun r => talone r.1) l ->
  let days := map (fun r => unix_day r.2) l in
  StronglySorted Z.le days -> Z.of_nat (length l) < max_int64 ->
  let st := GetStreak u (t_topics (streak_updates u l s)) in
  match last days with
  | None => sk_CurrentStreak st = 0 /\ sk_LongestStreak st = 0
  | Some d => run_at days d (sk_CurrentStreak st) /\ longest_run days (sk_LongestStreak st)
  end /\ 0 <= sk_CurrentStreak st <= sk_LongestStreak st.
Proof.
  intros Hnone Ha days Hs Hmax st.
  assert (says days st) as Hsays.
  { subst days st. induction l as [|[o now] l IH] using rev_ind.
    { cbn. unfold GetStreak. rewrite Hnone. by split. }
    apply Forall_app in Ha as [Ha Ho]. apply Forall_cons in Ho as [Ho _]. cbn in Ho.
    rewrite map_app, length_app in *. cbn [map length] in *.
    apply StronglySorted_app in Hs as (Hle & Hs & _).
    unfold streak_updates. rewrite foldl_app. fold (streak_updates u l s). cbn [foldl fst snd].
    rewrite UpdateOnCheckin_run by done. cbn [snd t_topics].
    replace (GetStreak u (UpsertStreak _ _)) with
      (advance u (GetStreak u (t_topics (streak_updates u l s))) now).
    - apply advance_says; [apply IH; [done|done|lia]| |rewrite length_map; lia].
      intros d Hd. apply (Hle d (unix_day now)); [by apply last_Some_elem_of|by left].
    - unfold GetStreak, UpsertStreak. cbn [streaks set_streaks]. rewrite advance_user.
      by rewrite lookup_insert_eq. }
  unfold says in Hsays. destruct (last days) as [d|].
  - destruct Hsays as [(_ & _ & H1 & H2 & H3) H4]. split; [by split|lia].
  - destruct Hsays as [(H1 & H2 & _) H4]. split; [by split|lia].
Qed.
End checkins.

#[local] Existing Instance key_order.

Definition no_topics : topicState := mkTopicState Topic.NewMemoryStore Corpus.NewMemoryStore Session.NewMemoryStore.
Definition quiet_topics (t : time) : TOracle :=
  mkTOracle (fun n => t + Z.of_nat n) (fun n => "id") (fun _ _ => None) (fun _ => []).

(** Check-ins on days 3, 4, 4, 5, 9: one day in a row now, three at best. *)
Lemma streak_counts_consecutive_days_witness :
  let l := map (fun d => (quiet_topics 0, d * Day + 5)) [3; 4; 4; 5; 9] in
  let st := GetStreak "ann" (t_topics (streak_updates "ann" l no_topics)) in
  sk_CurrentStreak st = 1 /\ sk_LongestStreak st = 3 /\ run_at [3; 4; 4; 5; 9] 9 (sk_CurrentStreak st).
Proof.
  intros l st. split; [vm_compute; reflexivity|]. split; [vm_compute; reflexivity|].
  destruct (streak_counts_consecutive_days "ann" l no_topics) as [[H _] _].
  - reflexivity.
  - by repeat constructor.
  - change (map (fun r => unix_day r.2) l) with [3; 4; 4; 5; 9]. repeat constructor; lia.
  - reflexivity.
  - exact H.
Defined.
