(* ===== verification/TopicLaws.v ===== *)
(** * What topic cards guarantee

    A card is checked in once and dismissed once in any history; a check-in
    credits only phrases its card offers; the generator keeps only cards that
    quote the learner's own live blocks and runs once a day; an undelete leaves
    the check-ins of the user deleted. *)
From S2P Require Import Prelude Prog GoString GoTime GoSort GoJson ApiErr Session Corpus CorpusStore CorpusLaws CorpusListing CorpusService Topic TopicGround TopicService TopicQuote TopicStreak.

Open Scope Z_scope.

(** ** Histories *)

(** Marks that are never taken back. *)
Definition marks_kept (c c' : Card) : Prop :=
  tc_UserID c' = tc_UserID c /\ tc_BlockIDs c' = tc_BlockIDs c /\
  (forall t, tc_CheckedInAt c = Some t -> tc_CheckedInAt c' = Some t) /\
  (forall t, tc_DismissedAt c = Some t ->
     tc_DismissedAt c' = Some t /\ tc_DismissReason c' = tc_DismissReason c) /\
  tc_ForDate c' = tc_ForDate c.

Definition cards_grow (s s' : Topic.MemoryStore) : Prop :=
  forall id c, cards s !! id = Some c -> exists c', cards s' !! id = Some c' /\ marks_kept c c'.

#[local] Instance marks_kept_preorder : PreOrder marks_kept.
Proof.
  split; [done|]. intros x y z (H1 & H2 & H3 & H4 & H5) (G1 & G2 & G3 & G4 & G5). unfold marks_kept.
  split; [congruence|]. split; [congruence|]. split; [by auto|]. split; [|congruence].
  intros t Ht. destruct (H4 t Ht) as [A B]. destruct (G4 t A) as [C D]. split; [done|congruence].
Qed.

#[local] Instance cards_grow_preorder : PreOrder cards_grow.
Proof.
  split.
  - intros s id c Hc. exists c. by split.
  - intros x y z H G id c Hc. destruct (H id c Hc) as (c1 & Hc1 & M1).
    destruct (G id c1 Hc1) as (c2 & Hc2 & M2). exists c2. split; [done|by etransitivity].
Qed.

Definition topics_grow (s s' : topicState) : Prop := cards_grow (t_topics s) (t_topics s').

#[local] Instance topics_grow_preorder : PreOrder topics_grow.
Proof. split; [intros s; by unfold topics_grow|]. intros x y z. apply (transitivity (R := cards_grow)). Qed.

Lemma same_cards_grow s s' : cards s' = cards s -> cards_grow s s'.
Proof. intros E id c Hc. exists c. by rewrite E. Qed.

Lemma InsertCards_grow cs s : cards_grow s (InsertCards cs s).2.
Proof.
  revert s. induction cs as [|c cs IH]; intros s; cbn; [done|].
  destruct (cards s !! tc_ID c) eqn:E; [done|]. etransitivity; [|apply IH].
  intros id x Hx. exists x. split; [|done]. cbn. rewrite lookup_insert_ne; [done|congruence].
Qed.

(** One changed card. *)
Lemma put_card_grow id c c' s :
  cards s !! id = Some c -> marks_kept c c' -> cards_grow s (set_cards (<[id := c']> (cards s)) s).
Proof.
  intros Hc Hm i x Hx. cbn. destruct (decide (i = id)) as [->|Hne].
  - rewrite lookup_insert_eq. exists c'. split; [done|congruence].
  - rewrite lookup_insert_ne by done. by exists x.
Qed.

Lemma change_cards_grow p d s (u : gmap string Checkin) v :
  cards_grow s (mkTopics (change_rows p (fun c => with_card_deletion (d c) (tc_UpdatedAt c) c) (cards s)).2 u v).
Proof.
  intros id c Hc. cbn. rewrite lookup_fmap, Hc. cbn. eexists. split; [reflexivity|]. by destruct (p c).
Qed.

Lemma handle_topic_grow {mr : MapRange} {R} (c : topicE R) s : cards_grow s (handle_topic c s).2.
Proof.
  destruct c; cbn [handle_topic snd]; try done.
  - apply InsertCards_grow.
  - unfold MarkCheckedIn. destruct (cards s !! id) as [c|] eqn:E; [|done].
    destruct (tc_CheckedInAt c) eqn:Ec; [done|]. apply (put_card_grow id c); [done|]. split; [done|].
    split; [done|]. split; [|done]. by rewrite Ec.
  - unfold MarkDismissed. destruct (cards s !! id) as [c|] eqn:E; [|done].
    destruct (tc_DeletedAt c); [done|]. destruct (tc_DismissedAt c) eqn:Ec; [done|].
    apply (put_card_grow id c); [done|]. split; [done|]. split; [done|]. split; [done|]. split; [|done]. by rewrite Ec.
  - unfold InsertCheckin. by destruct (checkins s !! ck_ID row); apply same_cards_grow.
  - by apply same_cards_grow.
  - unfold SoftDeleteAllForUser. cbn [change_rows]. destruct (match streaks s !! user with Some _ => _ | None => _ end) as [n3 st].
    intros id c Hc. cbn. rewrite lookup_fmap, Hc. cbn. eexists. split; [reflexivity|].
    by destruct (_ && _).
  - unfold RestoreDeletedForUser. cbn [change_rows]. destruct (match streaks s !! user with Some _ => _ | None => _ end) as [n3 st].
    intros id c Hc. cbn. rewrite lookup_fmap, Hc. cbn. eexists. split; [reflexivity|].
    by destruct (_ && _).
Qed.

Section histories.
Context {mr : MapRange}.

Lemma trun_grow tr s : cards_grow (t_topics s) (t_topics (trun tr s)).
Proof.
  apply (foldl_moves _ topics_grow). intros x e _. unfold topics_grow.
  destruct e; cbn; [apply handle_topic_grow|done].
Qed.

Ltac tstep Ha :=
  unfold tdb, tblocks, call; cbn [bind run_prog perform runs_topic perform_topic];
  rewrite ?Ha; cbn [trun foldl handle_topic t_topics t_blocks t_sessions fst snd].

(** ** Check-ins *)

(** The rows of the ledger a credit request adds. *)
Definition credit_row (u source ref : string) (at_ : time) (ids : list string) (row : RealUse) : Prop :=
  ru_UserID row = u /\ ru_Source row = source /\ ru_RefID row = ref /\ ru_UsedAt row = at_ /\
  ru_BlockID row ∈ ids.

Lemma record_rows u ids source ref at_ s :
  exists rows, realUses (RecordRealUses u ids source ref at_ s).2 = realUses s ++ rows /\
    (RecordRealUses u ids source ref at_ s).1 = Z.of_nat (length rows) /\
    Forall (credit_row u source ref at_ ids) rows.
Proof.
  revert s. induction ids as [|id ids IH]; intros s; cbn [RecordRealUses].
  { exists []. by rewrite app_nil_r. }
  assert (exists r1, realUses (record_real_use u source ref at_ id s).2 = realUses s ++ r1 /\
    (if (record_real_use u source ref at_ id s).1 then 1 else 0) = Z.of_nat (length r1) /\
    Forall (credit_row u source ref at_ (id :: ids)) r1) as (r1 & E1 & N1 & F1).
  { unfold record_real_use. destruct (owned u id s) as [b|]; [|exists []; by rewrite app_nil_r].
    cbv zeta. destruct (existsb _ _); [exists []; by rewrite app_nil_r|].
    eexists [_]. split; [reflexivity|]. split; [done|]. constructor; [|done].
    do 4 (split; [done|]). by left. }
  destruct (record_real_use u source ref at_ id s) as [c s1]. cbn [fst snd] in *.
  destruct (IH s1) as (r2 & E2 & N2 & F2).
  destruct (RecordRealUses u ids source ref at_ s1) as [n s2]. cbn [fst snd] in *.
  exists (r1 ++ r2). split; [by rewrite E2, E1, app_assoc|]. split; [rewrite length_app; lia|].
  apply Forall_app. split; [done|]. eapply Forall_impl; [exact F2|].
  intros row (H1 & H2 & H3 & H4 & H5). do 4 (split; [done|]). by right.
Qed.

(** What a credit changes: the ledger grows by rows about the allowed blocks. *)
Lemma credit_uses_rows o u ck allowed n s :
  talone o ->
  exists m at_ blocks' rows credited,
    run_prog o (credit_uses u ck allowed) n s = (credited, m, mkTopicState (t_topics s) blocks' (t_sessions s)) /\
    realUses blocks' = realUses (t_blocks s) ++ rows /\ credited = Z.of_nat (length rows) /\
    Forall (credit_row (TrimSpace u) "checkin" (TrimSpace ck) at_ (map TrimSpace allowed)) rows.
Proof.
  intros Ha. unfold credit_uses. destruct allowed as [|x l].
  { exists n, 0, (t_blocks s), [], 0. cbn. rewrite app_nil_r. by destruct s. }
  set (ids := x :: l). unfold RecordRealUse, cdb, call. cbv zeta.
  assert (forall e, exists m at_ blocks' rows credited,
    run_prog o (bind (on_corpus (Ret (Err e))) (fun c : result error Z => Ret (match c with Ok k => k | Err _ => 0 end))) n s
      = (credited, m, mkTopicState (t_topics s) blocks' (t_sessions s)) /\
    realUses blocks' = realUses (t_blocks s) ++ rows /\ credited = Z.of_nat (length rows) /\
    Forall (credit_row (TrimSpace u) "checkin" (TrimSpace ck) at_ (map TrimSpace ids)) rows) as Hret.
  { intros e. exists n, 0, (t_blocks s), [], 0. cbn. rewrite app_nil_r. by destruct s. }
  destruct (String.eqb (TrimSpace u) ""); [apply Hret|].
  destruct (negb _); [apply Hret|]. destruct (String.eqb (TrimSpace ck) ""); [apply Hret|].
  set (cleaned := List.filter _ _).
  destruct (Z.of_nat (length cleaned) =? 0).
  { exists n, 0, (t_blocks s), [], 0. cbn. rewrite app_nil_r. by destruct s. }
  destruct (realUseMaxBlocks <? Z.of_nat (length cleaned)); [apply Hret|].
  cbn [bind on_corpus corpus_effect run_prog perform runs_topic perform_topic].
  rewrite Ha. cbn [trun foldl t_blocks handle].
  destruct (record_rows (TrimSpace u) cleaned "checkin" (TrimSpace ck) (to_now o n) (t_blocks s))
    as (rows & E & N & F).
  destruct (RecordRealUses _ _ _ _ _ _) as [k blocks']. cbn [fst snd] in *.
  exists (S (S n)), (to_now o n), blocks', rows, k. split; [done|]. split; [done|]. split; [done|].
  eapply Forall_impl; [exact F|]. intros row (H1 & H2 & H3 & H4 & H5).
  do 4 (split; [done|]). unfold cleaned in H5.
  rewrite list_elem_of_In, filter_In, <- list_elem_of_In in H5. by destruct H5.
Qed.

(** Once checked in, a card refuses every other check-in. *)
Lemma Checkin_refused has_ledger o u cardID req n s c t :
  talone o -> cards (t_topics s) !! TrimSpace cardID = Some c -> tc_CheckedInAt c = Some t ->
  exists e m, run_prog o (Checkin_ has_ledger u cardID req) n s = (Err e, m, s).
Proof.
  intros Ha Hc Ht. unfold Checkin_. cbv zeta.
  destruct (String.eqb (TrimSpace u) ""); [by eexists _, _|].
  destruct (String.eqb (TrimSpace cardID) ""); [by eexists _, _|].
  destruct (MaxReflectionLen <? go_len (cq_Reflection req)); [by eexists _, _|].
  destruct s as [tp bl ss]. cbn [t_topics] in Hc. tstep Ha. unfold GetCard. rewrite Hc.
  destruct (negb (String.eqb (tc_UserID c) (TrimSpace u))); [by eexists _, _|].
  destruct (negb (live tc_DeletedAt c)); [by eexists _, _|].
  tstep Ha. unfold MarkCheckedIn. rewrite Hc, Ht. by eexists _, _.
Qed.

(** What an accepted check-in found and did. *)
Definition checked_in (has_ledger : bool) (u cardID : string) (req : CheckinRequest) (r : CheckinResult)
    (s s' : topicState) : Prop :=
  exists card now at_ rows,
    cards (t_topics s) !! TrimSpace cardID = Some card /\ tc_UserID card = TrimSpace u /\
    live tc_DeletedAt card = true /\ tc_CheckedInAt card = None /\
    cr_IgnoredBlockIDs r = (if has_ledger then (offered_ids card (cq_UsedBlockIDs req)).2 else []) /\
    realUses (t_blocks s') = realUses (t_blocks s) ++ rows /\ cr_RecordedUse r = Z.of_nat (length rows) /\
    Forall (credit_row (TrimSpace (TrimSpace u)) "checkin" (TrimSpace (cr_CheckinID r)) at_
      (if has_ledger then map TrimSpace (offered_ids card (cq_UsedBlockIDs req)).1 else [])) rows /\
    cr_StreakDays r = sk_CurrentStreak (advance (TrimSpace u) (GetStreak (TrimSpace u) (t_topics s)) now).

Lemma Checkin_accepted has_ledger o u cardID req n s r m s' :
  talone o -> run_prog o (Checkin_ has_ledger u cardID req) n s = (Ok r, m, s') ->
  checked_in has_ledger u cardID req r s s' /\
  exists c now, cards (t_topics s') !! TrimSpace cardID = Some c /\ tc_CheckedInAt c = Some now.
Proof.
  intros Ha. unfold Checkin_. cbv zeta.
  destruct (String.eqb (TrimSpace u) "") eqn:Eu; [done|].
  destruct (String.eqb (TrimSpace cardID) "") eqn:Ei; [done|].
  destruct (MaxReflectionLen <? go_len (cq_Reflection req)); [done|].
  tstep Ha. unfold GetCard. destruct (cards (t_topics s) !! TrimSpace cardID) as [card|] eqn:Ec; [|done].
  destruct (negb (String.eqb (tc_UserID card) (TrimSpace u))) eqn:Eo; [done|].
  destruct (negb (live tc_DeletedAt card)) eqn:El; [done|].
  tstep Ha. set (now := to_now o (S n)). unfold MarkCheckedIn at 1. rewrite Ec.
  destruct (tc_CheckedInAt card) eqn:Eck; [done|]. tstep Ha. unfold InsertCheckin. cbn [checkins set_cards].
  destruct (checkins (t_topics s) !! ck_ID _); [done|].
  set (row := mkCheckin _ _ _ _ _ _). set (id := to_id o _).
  set (s1 := mkTopicState _ (t_blocks s) (t_sessions s)).
  destruct (if has_ledger then offered_ids card (cq_UsedBlockIDs req) else ([], [])) as [allowed ignored] eqn:Eoff.
  rewrite run_bind.
  edestruct (credit_uses_rows o (TrimSpace u) id allowed (S (S (S (S (S n))))) s1 Ha)
    as (k & at_ & blocks' & rows & credited & Hrun & Hrows & Hn & Hf). rewrite Hrun.
  rewrite run_bind, UpdateOnCheckin_run by done. cbn [run_prog]. intros [= <- _ <-].
  split.
  - exists card, now, at_, rows. cbn [t_blocks t_topics cr_IgnoredBlockIDs cr_RecordedUse cr_CheckinID cr_StreakDays].
    split; [done|]. apply negb_false_iff, String.eqb_eq in Eo. split; [done|].
    apply negb_false_iff in El. split; [done|]. split; [done|].
    split; [by destruct has_ledger; [rewrite Eoff|injection Eoff]|].
    split; [done|]. split; [done|]. split; [|done].
    destruct has_ledger; [by rewrite Eoff|injection Eoff as <- <-]. exact Hf.
  - exists (with_marks (Some now) (tc_DismissedAt card) (tc_DismissReason card) (tc_DeletedAt card) now card), now.
    split; [|done]. cbn. apply lookup_insert_eq.
Qed.

(** C36: A check-in that runs alone and is accepted was of a live card of the learner that had not
    been checked in; it credits, once per ledger row it adds, only phrases that
    the card offers and the learner named, for this learner and check-in, and
    names every other phrase back; it advances the streak; and after any history
    of store calls every other check-in of the card, alone, is refused and changes
    nothing. *)
Theorem checkin_credits_offered_once has_ledger o u cardID req n s r m s' :
  talone o -> run_prog o (Checkin_ has_ledger u cardID req) n s = (Ok r, m, s') ->
  checked_in has_ledger u cardID req r s s' /\
  forall o2 tr req2 n2, talone o2 ->
    exists e m2, run_prog o2 (Checkin_ has_ledger u cardID req2) n2 (trun tr s') = (Err e, m2, trun tr s').
Proof.
  intros Ha Hr. destruct (Checkin_accepted _ _ _ _ _ _ _ _ _ _ Ha Hr) as (Hin & c & now & Hc & Hnow).
  split; [done|]. intros o2 tr req2 n2 Ha2. destruct (trun_grow tr s' _ c Hc) as (c2 & Hc2 & _ & _ & Hmark & _).
  apply (Checkin_refused has_ledger o2 u cardID req2 n2 _ c2 now Ha2 Hc2). by apply Hmark.
Qed.
End histories.

(** * What the topic generator guarantees

    The cards it stores quote the learner's own live blocks, at most three of
    them and once a day; an undelete leaves the check-ins of the user deleted. *)


Section generate.
Context {mr : MapRange}.

Ltac tstep Ha :=
  unfold tdb, tblocks, call; cbn [bind run_prog perform runs_topic perform_topic];
  rewrite ?Ha; cbn [trun foldl handle_topic handle t_topics t_blocks t_sessions fst snd].

(** ** The parts that only read *)

Lemma same_state (s : topicState) : mkTopicState (t_topics s) (t_blocks s) (t_sessions s) = s.
Proof. by destruct s. Qed.

Lemma recent_titles_run o u day days n s :
  talone o -> exists ts m, run_prog o (recent_titles u day days) n s = (ts, m, s).
Proof.
  intros Ha. revert n. induction days as [|i days IH]; intros n; cbn [recent_titles]; [by eexists _, _|].
  tstep Ha. rewrite same_state, run_bind. destruct (IH (S n)) as (ts & m & ->). by eexists _, _.
Qed.

Lemma Snapshot_run o u now n s :
  talone o -> exists sig m, run_prog o (Snapshot u now) n s = (sig, m, s) /\
    sg_Blocks sig = map block_ref (ListBlocks (plain_filter u 200) (t_blocks s)).
Proof. intros Ha. unfold Snapshot. tstep Ha. rewrite same_state. by eexists _, _. Qed.

Lemma complete_loop_run o k prompt n s :
  exists raw m, run_prog o (complete_loop k prompt) n s = (raw, m, s).
Proof.
  revert n. induction k as [|k IH]; intros n; cbn [complete_loop]; [by eexists _, _|].
  unfold call. cbn [bind run_prog perform runs_topic perform_topic].
  destruct (to_complete o n prompt); [by eexists _, _|apply IH].
Qed.

(** A card as the generator parses it. *)
Definition parsed_card (u : string) (day : time) (c : Card) : Prop :=
  tc_UserID c = u /\ tc_ForDate c = day /\ tc_DeletedAt c = None.

Lemma parse_cards_run o u day now k items n s :
  (k <= CardsPerDay)%nat ->
  exists cs m, run_prog o (parse_cards u day now k items) n s = (cs, m, s) /\
    Forall (parsed_card u day) cs /\ (length cs + k <= CardsPerDay)%nat.
Proof.
  revert k n. induction items as [|item items IH]; intros k n Hk; cbn [parse_cards]; [by eexists [], _|].
  destruct (Nat.eqb_spec k CardsPerDay) as [->|Hne]; [by eexists [], _|]. cbv zeta.
  destruct (String.eqb (TrimSpace (gc_Title item)) "" || _); [by apply IH|].
  unfold call. cbn [bind run_prog perform runs_topic perform_topic]. rewrite run_bind.
  destruct (IH (S k) (S n)) as (cs & m & -> & Hf & Hl); [lia|]. cbn [run_prog].
  eexists _, m. split; [reflexivity|]. split; [by constructor|]. cbn [length]. lia.
Qed.

Lemma InsertCards_stored cs s s' :
  InsertCards cs s = (Ok tt, s') ->
  (forall id c, cards s !! id = Some c -> cards s' !! id = Some c) /\
  Forall (fun c => cards s' !! tc_ID c = Some c) cs.
Proof.
  revert s. induction cs as [|c cs IH]; intros s; cbn; [intros [= <-]; by split|].
  destruct (cards s !! tc_ID c) eqn:E; [done|]. intros H. destruct (IH _ H) as [Hk Hf]. split.
  - intros id x Hx. apply Hk. cbn. rewrite lookup_insert_ne; [done|congruence].
  - constructor; [|done]. apply Hk. cbn. apply lookup_insert_eq.
Qed.

(** ** Grounding *)

(** A block of the corpus that is the learner's, live, and quoted by the card. *)
Definition quotes_block (u : string) (corpus : Corpus.MemoryStore) (c : Card) (id : string) : Prop :=
  exists b, blocks corpus !! id = Some b /\ b_UserID b = u /\ b_DeletedAt b = None /\
    quoted (card_text c) (block_ref b).

Lemma plain_list_elem u n s b :
  0 <= n -> blocks_keyed s -> b ∈ ListBlocks (plain_filter u n) s ->
  blocks s !! b_ID b = Some b /\ b_UserID b = u /\ b_DeletedAt b = None.
Proof.
  intros Hn Hk Hb. rewrite ListBlocks_take in Hb by done.
  assert (b ∈ listing (plain_filter u n) s) as Hin.
  { rewrite <- (take_drop (Z.to_nat (lf_Limit (plain_filter u n))) (listing (plain_filter u n) s)).
    apply elem_of_app. by left. }
  apply listing_elem in Hin as [Hs Hm]; [|done]. split; [done|].
  unfold list_match, plain_filter, browse_match in Hm. cbn in Hm.
  apply andb_prop in Hm as [Hu Hm]. apply String.eqb_eq in Hu. split; [done|].
  repeat (apply andb_prop in Hm as [Hm _]). destruct (b_DeletedAt b); [|done].
  by rewrite bool_decide_eq_true_2 in Hm.
Qed.

Lemma groundCard_spec c sig titles c' :
  groundCard c sig titles = Some c' ->
  isRepeatTitle (tc_Title c') titles = false /\ card_text c' = card_text c /\
  tc_UserID c' = tc_UserID c /\ tc_ForDate c' = tc_ForDate c /\ tc_DeletedAt c' = tc_DeletedAt c /\
  (1 <= length (tc_BlockIDs c') <= MaxBlocksPerCard)%nat /\
  Forall (fun id => exists b, b ∈ sg_Blocks sig /\ br_ID b = id /\ quoted (card_text c') b) (tc_BlockIDs c').
Proof.
  unfold groundCard. destruct (contentMatch (card_text c) (sg_Blocks sig)) as [|b l] eqn:E; [done|].
  cbv zeta. set (ms := take MaxBlocksPerCard (b :: l)).
  assert (ms ⊆ b :: l /\ 1 <= length ms <= MaxBlocksPerCard)%nat as [Hsub Hms].
  { split; [|unfold ms; rewrite length_take; unfold MaxBlocksPerCard; cbn [length]; lia].
    intros x Hx. rewrite <- (take_drop MaxBlocksPerCard (b :: l)). apply elem_of_app. by left. }
  clearbody ms. destruct (isRepeatTitle (tc_Title c) titles) eqn:Et; [done|]. intros [= <-].
  split; [done|]. split; [done|]. do 3 (split; [done|]). cbn [tc_BlockIDs with_ground]. split.
  - by rewrite length_map.
  - apply Forall_forall. intros id Hid. apply list_elem_of_fmap in Hid as (x & -> & Hx).
    assert (x ∈ contentMatch (card_text c) (sg_Blocks sig)) as Hm by (rewrite E; by apply Hsub).
    apply contentMatch_elem in Hm as [Hin Hq]. by exists x.
Qed.

Lemma filter_none {A} (p : A -> bool) l : (forall x, x ∈ l -> p x = false) -> List.filter p l = [].
Proof.
  induction l as [|x l IH]; intros H; cbn; [done|]. rewrite (H x) by by left. apply IH. intros y Hy.
  apply H. by right.
Qed.

(** A stored card of one generation. *)
Definition grounded_card (u : string) (day : time) (s s' : topicState) (c : Card) : Prop :=
  tc_UserID c = u /\ tc_ForDate c = day /\ cards (t_topics s') !! tc_ID c = Some c /\
  (1 <= length (tc_BlockIDs c) <= MaxBlocksPerCard)%nat /\
  Forall (quotes_block u (t_blocks s) c) (tc_BlockIDs c).

Lemma GenerateForUser_inserted o has_llm minBlocks u date n s cs m s' :
  talone o -> blocks_keyed (t_blocks s) ->
  run_prog o (GenerateForUser has_llm true minBlocks u date) n s = (Inserted cs, m, s') ->
  String.eqb (TrimSpace u) "" = false /\
  HasCardsForDate (TrimSpace u) (utcDate date) (t_topics s) = false /\
  t_blocks s' = t_blocks s /\ t_sessions s' = t_sessions s /\
  (forall id c, cards (t_topics s) !! id = Some c -> cards (t_topics s') !! id = Some c) /\
  minBlocks <= Z.of_nat (length (ListBlocks (plain_filter (TrimSpace u) 200) (t_blocks s))) /\
  (1 <= length cs <= CardsPerDay)%nat /\
  Forall (grounded_card (TrimSpace u) (utcDate date) s s') cs.
Proof.
  intros Ha Hk. unfold GenerateForUser. cbv zeta. set (id := TrimSpace u). set (day := utcDate date).
  destruct (String.eqb id "") eqn:Eid; [done|]. tstep Ha.
  destruct (negb (length (ListTodayCards id day (t_topics s)) =? 0)%nat); [done|]. tstep Ha.
  destruct (HasCardsForDate id day (t_topics s)) eqn:Ehas; [done|]. destruct has_llm; [|done]. cbn [negb].
  rewrite !same_state. unfold recentTitles. rewrite run_bind.
  match goal with |- context [run_prog o (recent_titles _ _ _) ?k s] =>
    destruct (recent_titles_run o id day [1; 2; 3] k s Ha) as (titles & m1 & ->) end.
  cbn [run_prog perform runs_topic perform_topic]. rewrite run_bind.
  match goal with |- context [run_prog o (Snapshot _ _) ?k s] =>
    destruct (Snapshot_run o id (to_now o m1) k s Ha) as (sig & m2 & -> & Hsig) end.
  destruct (Z.ltb_spec (Z.of_nat (length (sg_Blocks sig))) minBlocks) as [|Hmin]; [done|].
  rewrite run_bind. match goal with |- context [run_prog o (complete_loop ?a ?p) ?k s] =>
    destruct (complete_loop_run o a p k s) as ([raw|] & m3 & ->); [|done] end.
  destruct (parseGenerateJSON raw) as [items|]; [|done].
  cbn [run_prog perform runs_topic perform_topic]. rewrite run_bind.
  match goal with |- context [run_prog o (parse_cards _ _ _ _ _) ?k s] =>
    destruct (parse_cards_run o id day (to_now o m3) 0 items k s) as (parsed & m4 & -> & Hparsed & Hlen);
    [unfold CardsPerDay; lia|] end.
  destruct (negb (length parsed =? CardsPerDay)%nat); [done|].
  assert (Forall (fun c => exists p, p ∈ parsed /\ groundCard p sig titles = Some c) (ground_all sig titles parsed)) as Hg.
  { apply Forall_forall. intros c Hc. by apply list_elem_of_omap in Hc. }
  assert (length (ground_all sig titles parsed) <= length parsed)%nat as Hgl.
  { unfold ground_all. clear. induction parsed as [|c l IH]; cbn; [lia|].
    destruct (groundCard c sig titles); cbn; lia. }
  destruct (ground_all sig titles parsed) as [|c0 cs0]; [done|].
  set (out := c0 :: cs0) in *. tstep Ha.
  destruct (InsertCards out (t_topics s)) as [[[]|e] tp] eqn:Eins; [|done]. cbn [run_prog].
  intros [= <- _ <-]. destruct (InsertCards_stored _ _ _ Eins) as [Hkeep Hstored].
  split; [done|]. split; [done|]. split; [done|]. split; [done|]. split; [done|].
  split; [by rewrite Hsig, length_map in Hmin|]. split.
  { rewrite Nat.add_0_r in Hlen. unfold out in *. cbn [length] in *. lia. }
  rewrite Forall_forall in Hg, Hstored, Hparsed. apply Forall_forall. intros c Hc.
  destruct (Hg c Hc) as (p & Hp & Hgr). destruct (Hparsed p Hp) as (Hu & Hd & _).
  destruct (groundCard_spec _ _ _ _ Hgr) as (_ & _ & Hu' & Hd' & _ & Hn & Hq).
  split; [congruence|]. split; [congruence|]. split; [by apply Hstored|]. split; [done|].
  eapply Forall_impl; [exact Hq|]. intros i (r & Hr & Hri & Hquoted). rewrite Hsig in Hr.
  apply list_elem_of_fmap in Hr as (b & -> & Hb). apply plain_list_elem in Hb as (Hb & Hbu & Hbd); [|lia|done].
  exists b. by rewrite <- Hri.
Qed.


(** C26: What a generation that runs alone stores for a learner and a day is at
    most three cards, only when there was none for that day and the corpus is
    large enough; every card names between one and five phrases, each a live
    block of the learner whose wording or whose original words the card repeats
    in four consecutive words; nothing else changes, and whatever happens
    afterwards, asking again that day, alone, stores nothing.  (Two generations
    at once both store: [racing_generations_store_six].) *)
Theorem generated_cards_are_grounded o has_llm minBlocks u date n s cs m s' :
  talone o -> blocks_keyed (t_blocks s) ->
  run_prog o (GenerateForUser has_llm true minBlocks u date) n s = (Inserted cs, m, s') ->
  HasCardsForDate (TrimSpace u) (utcDate date) (t_topics s) = false /\
  minBlocks <= Z.of_nat (length (ListBlocks (plain_filter (TrimSpace u) 200) (t_blocks s))) /\
  (1 <= length cs <= CardsPerDay)%nat /\
  Forall (grounded_card (TrimSpace u) (utcDate date) s s') cs /\
  t_blocks s' = t_blocks s /\
  (forall id c, cards (t_topics s) !! id = Some c -> cards (t_topics s') !! id = Some c) /\
  forall o2 tr n2, talone o2 ->
    exists m2, run_prog o2 (GenerateForUser has_llm true minBlocks u date) n2 (trun tr s') =
      (Skipped "already_generated", m2, trun tr s').
Proof.
  intros Ha Hk Hr.
  destruct (GenerateForUser_inserted _ _ _ _ _ _ _ _ _ _ Ha Hk Hr) as (Hid & H1 & H2 & _ & H3 & H4 & H5 & H6).
  do 6 (split; [done|]). intros o2 tr n2 Ha2.
  assert (HasCardsForDate (TrimSpace u) (utcDate date) (t_topics (trun tr s')) = true) as Hhas.
  { destruct cs as [|c cs]; [cbn in H5; lia|]. apply Forall_cons in H6 as [(Hu & Hd & Hc & _) _].
    destruct (trun_grow tr s' _ c Hc) as (c' & Hc' & Hu' & _ & _ & _ & Hd').
    unfold HasCardsForDate. apply existsb_exists. exists c'. split.
    - apply list_elem_of_In, list_elem_of_fmap. exists (tc_ID c, c'). split; [done|].
      rewrite map_range_perm. by apply elem_of_map_to_list.
    - unfold on_day. rewrite Hu', Hd', Hu, Hd, String.eqb_refl, Z.eqb_refl. done. }
  unfold GenerateForUser. cbv zeta. rewrite Hid. tstep Ha2.
  destruct (negb (length _ =? 0)%nat); [rewrite same_state; by eexists|]. tstep Ha2.
  rewrite Hhas, !same_state. by eexists.
Qed.
End generate.

(** ** Deleting and restoring *)

(** An undelete brings the cards and the streak of a user back but not the
    check-ins: after a deletion and a restore the user has reported no real
    conversation, whatever they had reported. *)
Theorem undelete_forgets_checkins {mr : MapRange} u at_ since s :
  let s2 := (Topic.RestoreDeletedForUser u (Topic.SoftDeleteAllForUser u at_ s).2).2 in
  CountCheckinsSince u since s2 = 0 /\
  (forall id c, cards s !! id = Some c -> tc_UserID c = u -> tc_DeletedAt c = None ->
     cards s2 !! id = Some (with_card_deletion None at_ c)) /\
  (forall st, streaks s !! u = Some st -> sk_DeletedAt st = None ->
     streaks s2 !! u = Some (with_streak_deletion None at_ st)).
Proof.
  unfold Topic.RestoreDeletedForUser, Topic.SoftDeleteAllForUser. cbn [change_rows].
  set (st1 := match streaks s !! u with Some x => _ | None => _ end).
  assert (forall st, streaks s !! u = Some st -> sk_DeletedAt st = None ->
    st1.2 !! u = Some (with_streak_deletion (Some at_) at_ st)) as Hst.
  { intros st Hs Hd. unfold st1. rewrite Hs. unfold live. rewrite Hd.
    rewrite bool_decide_eq_false_2 by (by intros [? ?]). cbn. apply lookup_insert_eq. }
  destruct st1 as [n3 st1]. cbn [snd streaks] in *.
  set (st2 := match st1 !! u with Some x => _ | None => _ end).
  assert (forall st, streaks s !! u = Some st -> sk_DeletedAt st = None ->
    st2.2 !! u = Some (with_streak_deletion None at_ st)) as Hst2.
  { intros st Hs Hd. unfold st2. rewrite (Hst st Hs Hd). cbn. apply lookup_insert_eq. }
  destruct st2 as [n4 st2]. cbn [snd] in Hst2. split; [|split].
  - unfold CountCheckinsSince. cbn [snd checkins].
    rewrite filter_none; [done|]. intros r Hr. apply list_elem_of_fmap in Hr as ([id x] & -> & Hx).
    rewrite map_range_perm in Hx. apply elem_of_map_to_list in Hx.
    rewrite lookup_fmap_Some in Hx. destruct Hx as (y & <- & _). cbn.
    destruct (String.eqb (ck_UserID y) u) eqn:Eu; cbn; [|by rewrite Eu].
    destruct (live ck_DeletedAt y) eqn:El; cbn; rewrite Eu; cbn; [|by rewrite El].
    done.
  - intros id c Hc Hu Hd. cbn. rewrite !lookup_fmap, Hc. cbn. rewrite Hu, String.eqb_refl.
    unfold live. rewrite Hd, bool_decide_eq_false_2 by (by intros [? ?]). cbn. by rewrite Hu, String.eqb_refl.
  - exact Hst2.
Qed.

Example checkins_are_lost :
  let row := mkCheckin "k1" "c1" "ann" "went well" None 5 in
  let s := (InsertCheckin row Topic.NewMemoryStore).2 in
  let s2 := (Topic.RestoreDeletedForUser "ann" (Topic.SoftDeleteAllForUser "ann" 10 s).2).2 in
  CountCheckinsSince (mr := key_order) "ann" 0 s = 1 /\ CountCheckinsSince (mr := key_order) "ann" 0 s2 = 0.
Proof. vm_compute. done. Qed.

(** ** Concrete requests *)

#[local] Existing Instance key_order.

Definition phrase : PhraseBlock :=
  mkBlock "b1" "ann" "绕回来" "let us circle back on this" 0 "" "standup" "report" StateTraining 1 0 0 0 0
    None false None None None 1 1.

Definition one_phrase : topicState :=
  mkTopicState Topic.NewMemoryStore (set_blocks {[ "b1" := phrase ]} Corpus.NewMemoryStore) Session.NewMemoryStore.

Definition quoted_card : string :=
  "{" +:+ dq +:+ "title" +:+ dq +:+ ":" +:+ dq +:+ "Standup" +:+ dq +:+ "," +:+ dq +:+ "prompt_en" +:+ dq +:+ ":"
    +:+ dq +:+ "Sorry, let us circle back on this." +:+ dq +:+ "}".
Definition generic_card : string :=
  "{" +:+ dq +:+ "title" +:+ dq +:+ ":" +:+ dq +:+ "Coffee" +:+ dq +:+ "," +:+ dq +:+ "prompt_en" +:+ dq +:+ ":"
    +:+ dq +:+ "I would like to order a coffee." +:+ dq +:+ "}".
Definition generated_reply : string :=
  "{" +:+ dq +:+ "cards" +:+ dq +:+ ":[" +:+ quoted_card +:+ "," +:+ generic_card +:+ "," +:+ generic_card +:+ "]}".

Definition writer : TOracle :=
  mkTOracle (fun n => 5 * Day + Z.of_nat n) (fun n => "id-" +:+ String (ascii_of_nat (65 + n)) "")
    (fun _ _ => Some generated_reply) (fun _ => []).

Definition one_generation := run_prog writer (GenerateForUser true true 1 "ann" (5 * Day)) 0 one_phrase.

Lemma one_phrase_keyed : blocks_keyed (t_blocks one_phrase).
Proof. intros id b. cbn. rewrite lookup_singleton_Some. by intros [<- <-]. Qed.

(** Of three cards one quotes the learner; the phrase was used with a colleague. *)
Lemma generated_cards_are_grounded_witness :
  exists cs m s', one_generation = (Inserted cs, m, s') /\ length cs = 1%nat /\
    Forall (grounded_card "ann" (5 * Day) one_phrase s') cs.
Proof.
  assert (match one_generation.1.1 with Inserted cs => length cs | _ => 0%nat end = 1%nat) as Hone
    by (vm_compute; reflexivity).
  destruct one_generation as [[[reason|e|cs] m] s'] eqn:E; [clear E; done..|].
  exists cs, m, s'. split; [done|]. split; [exact Hone|]. clear Hone.
  destruct (generated_cards_are_grounded writer true 1 "ann" (5 * Day) 0 one_phrase cs m s'
    (fun _ => eq_refl) one_phrase_keyed E) as (_ & _ & _ & H & _). exact H.
Defined.

(** Two generations of one day that overlap both find no card and both insert:
    the one that asks the model while the other stores leaves six. *)
Definition three_quotes : string :=
  "{" +:+ dq +:+ "cards" +:+ dq +:+ ":[" +:+ quoted_card +:+ "," +:+ quoted_card +:+ "," +:+ quoted_card +:+ "]}".
Definition of_prefix (prefix : string) (env : nat -> list tevent) : TOracle :=
  mkTOracle (fun n => 5 * Day + Z.of_nat n) (fun n => prefix +:+ String (ascii_of_nat (65 + n)) "")
    (fun _ _ => Some three_quotes) env.
Definition generation (o : TOracle) : generated * nat * topicState :=
  run_prog o (GenerateForUser true true 1 "ann" (5 * Day)) 0 one_phrase.
Definition other_cards : list Card :=
  match (generation (of_prefix "b-" (fun _ => []))).1.1 with Inserted cs => cs | _ => [] end.
(** The other generation inserts right before this one does. *)
Definition overlapped : TOracle :=
  of_prefix "a-" (fun n => if (S n =? (generation (of_prefix "a-" (fun _ => []))).1.2)%nat
                           then [OnTopics (TInsertCards other_cards)] else []).

Lemma racing_generations_store_six :
  length other_cards = 3%nat /\
  match generation overlapped with
  | (Inserted cs, _, s') => length cs = 3%nat /\ length (ListTodayCards "ann" (5 * Day) (t_topics s')) = 6%nat
  | _ => False
  end.
Proof. vm_compute. repeat split. Qed.

Lemma checkin_credits_offered_once_witness :
  match one_generation.1.1 with
  | Inserted [c] =>
      exists r m s', run_prog writer (Checkin_ true "ann" (tc_ID c) (mkCheckinRequest "" ["b1"; "b9"])) 0
        one_generation.2 = (Ok r, m, s') /\ cr_IgnoredBlockIDs r = ["b9"%string] /\
        (exists e m2, run_prog writer (Checkin_ true "ann" (tc_ID c) (mkCheckinRequest "" [])) 9 s' = (Err e, m2, s'))
  | _ => False
  end.
Proof.
  destruct one_generation.1.1 as [reason|e|[|c [|c' cs]]] eqn:E; vm_compute in E; try discriminate E.
  injection E as <-.
  match goal with |- exists r m s', run_prog writer ?p 0 ?s = _ /\ _ => set (prog := p); set (s1 := s) end.
  assert (match (run_prog writer prog 0 s1).1.1 with Ok r => cr_IgnoredBlockIDs r | Err _ => [] end = ["b9"%string]) as Hi
    by (vm_compute; reflexivity).
  destruct (run_prog writer prog 0 s1) as [[[r|e] m] s'] eqn:Er; [|done].
  exists r, m, s'. split; [done|]. split; [exact Hi|].
  destruct (checkin_credits_offered_once true writer "ann" _ _ 0 s1 r m s' (fun _ => eq_refl) Er) as [_ H].
  exact (H writer [] (mkCheckinRequest "" []) 9%nat (fun _ => eq_refl)).
Defined.
