(* ===== verification/Privacy.v ===== *)
(** * Deleting, exporting and restoring a user's data ([internal/account])

    [privacy_service.go] over the account store and the wipers that
    [cmd/app-server/main.go] registers: corpus, sessions, costs, materials and
    topics soft-delete or anonymise, the drill ledger is deleted for good.  Any
    store call may fail and do nothing, as the MySQL stores can; nobody else
    acts on the stores during a request.  Logging and
    metrics are left out. *)
From S2P Require Import Prelude Prog GoString GoTime GoSort ApiErr AICost Session SessionLaws Corpus CorpusStore CorpusLaws Drill DrillService Materials Topic Account AccountService.

Open Scope Z_scope.
Open Scope prog_scope.

Record ExportJob := mkExportJob {
  ex_ID : string;
  ex_UserID : string;
  ex_EmailTo : string;
  ex_EstimatedReadyAt : time;
  ex_CreatedAt : time;
}.

(** The stores of the server. *)
Record world := mkWorld {
  w_accounts : Account.MemoryStore;
  w_corpus : Corpus.MemoryStore;
  w_sessions : Session.MemoryStore;
  w_costs : AICost.store;
  w_materials : gmap string Material;
  w_topics : Topic.MemoryStore;
  w_drills : MemoryRecordStore;
  w_exports : gmap string ExportJob;
}.

Definition set_accounts (x : Account.MemoryStore) (w : world) : world :=
  mkWorld x (w_corpus w) (w_sessions w) (w_costs w) (w_materials w) (w_topics w) (w_drills w) (w_exports w).
Definition set_corpus (x : Corpus.MemoryStore) (w : world) : world :=
  mkWorld (w_accounts w) x (w_sessions w) (w_costs w) (w_materials w) (w_topics w) (w_drills w) (w_exports w).
Definition set_sessions (x : Session.MemoryStore) (w : world) : world :=
  mkWorld (w_accounts w) (w_corpus w) x (w_costs w) (w_materials w) (w_topics w) (w_drills w) (w_exports w).
Definition set_costs (x : AICost.store) (w : world) : world :=
  mkWorld (w_accounts w) (w_corpus w) (w_sessions w) x (w_materials w) (w_topics w) (w_drills w) (w_exports w).
Definition set_materials (x : gmap string Material) (w : world) : world :=
  mkWorld (w_accounts w) (w_corpus w) (w_sessions w) (w_costs w) x (w_topics w) (w_drills w) (w_exports w).
Definition set_topics (x : Topic.MemoryStore) (w : world) : world :=
  mkWorld (w_accounts w) (w_corpus w) (w_sessions w) (w_costs w) (w_materials w) x (w_drills w) (w_exports w).
Definition set_drills (x : MemoryRecordStore) (w : world) : world :=
  mkWorld (w_accounts w) (w_corpus w) (w_sessions w) (w_costs w) (w_materials w) (w_topics w) x (w_exports w).
Definition set_exports (x : gmap string ExportJob) (w : world) : world :=
  mkWorld (w_accounts w) (w_corpus w) (w_sessions w) (w_costs w) (w_materials w) (w_topics w) (w_drills w) x.

(** ** Store calls *)

Inductive dataE : Type -> Type :=
| WCorpus {R : Type} (c : corpusE R) : dataE R
| WSession {R : Type} (c : storeE R) : dataE R
| WAnonymize (user : string) : dataE Z
| WDeanonymize (user : string) : dataE Z
| WMaterial {R : Type} (c : materialE R) : dataE R
| WTopic {R : Type} (c : topicE R) : dataE R
| WDrill {R : Type} (wall : time) (c : recordE R) : dataE R.

Inductive privacyE : Type -> Type :=
| PAccount {R : Type} (c : accountE R) : privacyE (result error R)
| PData {R : Type} (c : dataE R) : privacyE (result error R)
| PNow : privacyE time
| PNewID : privacyE string
| PExport (job : ExportJob) : privacyE unit.

Abbreviation pprog := (program privacyE).
Definition pacc {R} (c : accountE R) : pprog (result error R) := call (PAccount c).
Definition pdata {R} (c : dataE R) : pprog (result error R) := call (PData c).

(** The clock, the identifiers, and which store calls fail. *)
Record POracle := mkPOracle {
  po_now : nat -> time;
  po_id : nat -> string;
  po_fails : nat -> option error;
}.

Section handlers.
Context {mr : MapRange}.

Definition handle_data {R} (c : dataE R) (w : world) : R * world :=
  match c in dataE R return R * world with
  | WCorpus c => let (r, s) := CorpusLaws.handle c (w_corpus w) in (r, set_corpus s w)
  | WSession c => let (r, s) := SessionLaws.handle c (w_sessions w) in (r, set_sessions s w)
  | WAnonymize u => let (r, s) := AnonymizeUser u (w_costs w) in (r, set_costs s w)
  | WDeanonymize u => let (r, s) := RestoreUser u (w_costs w) in (r, set_costs s w)
  | WMaterial c => let (r, s) := handle_material c (w_materials w) in (r, set_materials s w)
  | WTopic c => let (r, s) := handle_topic c (w_topics w) in (r, set_topics s w)
  | WDrill wall c => let (r, s) := handle_record wall c (w_drills w) in (r, set_drills s w)
  end.

Definition perform_privacy {R} (o : POracle) (e : privacyE R) (n : nat) (w : world) : R * world :=
  match e in privacyE R return R * world with
  | PAccount c =>
      match po_fails o n with
      | Some e => (Err e, w)
      | None => let (r, s) := handle_account c (w_accounts w) in (Ok r, set_accounts s w)
      end
  | PData c =>
      match po_fails o n with
      | Some e => (Err e, w)
      | None => let (r, w) := handle_data c w in (Ok r, w)
      end
  | PNow => (po_now o n, w)
  | PNewID => (po_id o n, w)
  | PExport job => (tt, set_exports (<[ex_ID job := job]> (w_exports w)) w)
  end.
End handlers.

#[export] Instance runs_privacy {mr : MapRange} : Runs POracle privacyE world := @perform_privacy mr.

(** ** Wipers *)

(** DataWiper: what a component promises the account module. *)
Record DataWiper := mkDataWiper {
  EntityType : string;
  Wipe : string -> time -> pprog (result error Z);
  Restore : string -> pprog (result error Z);
}.

Definition corpus_wiper : DataWiper := mkDataWiper "phrase_blocks"
  (fun u at_ => blocks <-! pdata (WCorpus (ESoftDeleteAll u at_));
                feedback <-! pdata (WCorpus (ESoftDeleteFeedback u at_));
                Ret (Ok (blocks + feedback)))
  (fun u => blocks <-! pdata (WCorpus (CorpusLaws.ERestoreDeleted u));
            feedback <-! pdata (WCorpus (ERestoreFeedback u));
            Ret (Ok (blocks + feedback))).
Definition session_wiper : DataWiper := mkDataWiper "practice_sessions"
  (fun u at_ => pdata (WSession (ESoftDelete u at_)))
  (fun u => pdata (WSession (SessionLaws.ERestoreDeleted u))).
Definition cost_wiper : DataWiper := mkDataWiper "ai_cost_logs"
  (fun u _ => pdata (WAnonymize u)) (fun u => pdata (WDeanonymize u)).
Definition material_wiper : DataWiper := mkDataWiper "materials"
  (fun u at_ => pdata (WMaterial (SSoftDelete u at_))) (fun u => pdata (WMaterial (SRestore u))).
Definition topic_wiper : DataWiper := mkDataWiper "topic_cards"
  (fun u at_ => pdata (WTopic (TSoftDelete u at_))) (fun u => pdata (WTopic (TRestore u))).

(** main.go: the order of registration *)
Definition wipers : list DataWiper :=
  [corpus_wiper; session_wiper; cost_wiper; material_wiper; topic_wiper].

(** HardDeleter *)
Record HardDeleter := mkHardDeleter {
  HardEntityType : string;
  Delete : string -> pprog (result error Z);
}.
Definition drill_deleter : HardDeleter :=
  mkHardDeleter "drill_records" (fun u => pdata (WDrill zero_time (RDeleteForUser u))).
Definition hard_deleters : list HardDeleter := [drill_deleter].

(** ** The service *)

Record DeleteDataResult := mkDeleteResult {
  dd_Cascaded : gmap string Z;
  dd_BackupPurgeAt : string;
  dd_AlreadyDeleted : bool;
}.
Record ExportDataResult := mkExportResult {
  er_ExportID : string;
  er_EmailTo : string;
  er_EstimatedReadyAt : string;
}.
Record UndeleteUserResult := mkUndeleteResult { ur_Restored : gmap string Z; ur_UserID : string }.

Section service.
Context {mr : MapRange}.

(** restoreWipers: the wiped ones in reverse; errors are only logged. *)
Fixpoint restoreWipers (userID : string) (reversed : list DataWiper) : pprog unit :=
  match reversed with
  | [] => Ret tt
  | w :: reversed =>
      _ <- Restore w userID;
      restoreWipers userID reversed
  end.

(** Wipe one after another; on an error the ones before are restored. *)
Fixpoint wipe_all (userID : string) (now : time) (ws wiped : list DataWiper) (cascaded : gmap string Z)
  : pprog (result error (gmap string Z * list DataWiper)) :=
  match ws with
  | [] => Ret (Ok (cascaded, wiped))
  | w :: ws =>
      n <- Wipe w userID now;
      match n with
      | Err e => _ <- restoreWipers userID wiped; Ret (Err e)
      | Ok n => wipe_all userID now ws (w :: wiped) (<[EntityType w := n]> cascaded)
      end
  end.

Fixpoint delete_all (userID : string) (wiped : list DataWiper) (hard : list HardDeleter)
    (cascaded : gmap string Z) : pprog (result error (gmap string Z)) :=
  match hard with
  | [] => Ret (Ok cascaded)
  | d :: hard =>
      n <- Delete d userID;
      match n with
      | Err e => _ <- restoreWipers userID wiped; Ret (Err e)
      | Ok n => delete_all userID wiped hard (<[HardEntityType d := n]> cascaded)
      end
  end.

(** One tombstone per entity that lost rows, and one for the user. *)
Fixpoint entomb (userID : string) (now purgeAt : time) (entities : list (string * Z)) : pprog unit :=
  match entities with
  | [] => Ret tt
  | (entity, n) :: entities =>
      if (n <=? 0) && negb (String.eqb entity "users") then entomb userID now purgeAt entities else
      id <- call PNewID;
      _ <- pacc (AInsertTombstone (mkTombstone id userID entity userID now purgeAt now));
      entomb userID now purgeAt entities
  end.

Definition user_not_found : error := Api (NotFound "user not found").
Definition get_user (userID : string) : pprog (result error User) :=
  found <-! pacc (AGetUser userID);
  Ret (match found with
       | Err e => Err (if Is e Account.ErrNotFound then user_not_found else e)
       | Ok user => Ok user
       end).

Definition DeleteAllData (userID confirmationCode : string) : pprog (result error DeleteDataResult) :=
  let userID := TrimSpace userID in
  if String.eqb userID "" then Ret (Err (Api (Unauthenticated "missing authenticated user"))) else
  if negb (String.eqb (TrimSpace confirmationCode) ConfirmationDeleteMyData)
  then Ret (Err (Api (FailedPrecondition "confirmation_code must be DELETE-MY-DATA"))) else
  user <-! get_user userID;
  now <- call PNow;
  let purgeAt := Add now UndeleteWindow in
  match u_DeletedAt user with
  | Some _ =>
      let backup := match u_TombstoneAt user with
                    | Some t => format_rfc3339nano (Add t UndeleteWindow)
                    | None => format_rfc3339nano purgeAt
                    end in
      Ret (Ok (mkDeleteResult ∅ backup true))
  | None =>
      wiped <-! wipe_all userID now wipers [] ∅;
      cascaded <-! delete_all userID wiped.2 hard_deleters wiped.1;
      marked <- pacc (AMarkDeleted userID now now);
      match (match marked with Ok (Err e) | Err e => Some e | Ok (Ok _) => None end) with
      | Some e => _ <- restoreWipers userID wiped.2; Ret (Err e)
      | None =>
          _ <- pacc (ADeleteRefreshTokens userID);
          let cascaded := <["users"%string := 1]> cascaded in
          _ <- entomb userID now purgeAt (map_range cascaded);
          Ret (Ok (mkDeleteResult cascaded (format_rfc3339nano purgeAt) false))
      end
  end.

Definition EnqueueExport (userID emailTo : string) : pprog (result error ExportDataResult) :=
  let userID := TrimSpace userID in
  if String.eqb userID "" then Ret (Err (Api (Unauthenticated "missing authenticated user"))) else
  user <-! get_user userID;
  match u_DeletedAt user with
  | Some _ => Ret (Err (Api (FailedPrecondition "account is deleted")))
  | None =>
      let emailTo := TrimSpace emailTo in
      let emailTo := if String.eqb emailTo "" then TrimSpace (default ""%string (u_Email user)) else emailTo in
      now <- call PNow;
      id <- call PNewID;
      let job := mkExportJob id userID emailTo (Add now ExportReadyDelay) now in
      _ <- call (PExport job);
      Ret (Ok (mkExportResult id emailTo (format_rfc3339nano (Add now ExportReadyDelay))))
  end.

Fixpoint restore_all (userID : string) (ws : list DataWiper) (restored : gmap string Z)
  : pprog (result error (gmap string Z)) :=
  match ws with
  | [] => Ret (Ok restored)
  | w :: ws =>
      n <-! Restore w userID;
      restore_all userID ws (<[EntityType w := n]> restored)
  end.

Definition UndeleteUser (userID actor reason : string) : pprog (result error UndeleteUserResult) :=
  let userID := TrimSpace userID in
  if String.eqb userID "" then Ret (Err (Api (InvalidArgument "user_id is required"))) else
  user <-! get_user userID;
  match u_DeletedAt user with
  | None => Ret (Err (Api (FailedPrecondition "account is not deleted")))
  | Some deleted =>
      now <- call PNow;
      let anchor := default deleted (u_TombstoneAt user) in
      if After now (Add anchor UndeleteWindow)
      then Ret (Err (Api (FailedPrecondition "undelete window has expired"))) else
      restored <-! restore_all userID wipers ∅;
      cleared <-! pacc (AClearDeleted userID);
      match cleared with
      | Err e => Ret (Err e)
      | Ok _ =>
          let restored := <["users"%string := 1]> restored in
          _ <-! pacc (ADeleteTombstones userID);
          let actor := TrimSpace actor in
          let actor := if String.eqb actor "" then "support"%string else actor in
          id <- call PNewID;
          _ <-! pacc (AInsertAudit (mkAuditLog id actor "undelete-user" userID (TrimSpace reason) now));
          Ret (Ok (mkUndeleteResult restored userID))
      end
  end.
End service.
