(* ===== verification/PrivacyUndo.v ===== *)
(** * What a deletion and an undelete do to the stores

    Symbolic runs of the privacy service: the deletion of everything, the
    deletion one of whose store calls fails, and the way back. *)
From S2P Require Import Prelude Prog GoString GoTime GoSort ApiErr AICost Session SessionLaws Corpus CorpusStore CorpusLaws Drill DrillService Materials Topic Account AccountService Privacy PrivacyLaws.

Open Scope Z_scope.

Section runs.
Context {mr : MapRange} (o : POracle).

(** ** One call *)

Lemma pdata_ok {R A} (c : dataE R) (k : result error R -> pprog A) n w :
  po_fails o n = None ->
  run_prog o (bind (pdata c) k) n w = run_prog o (k (Ok (handle_data c w).1)) (S n) (handle_data c w).2.
Proof.
  intros H. unfold pdata, call. cbn [bind run_prog perform runs_privacy perform_privacy]. rewrite H.
  by destruct (handle_data c w).
Qed.
Lemma pdata_err {R A} (c : dataE R) (k : result error R -> pprog A) n w e :
  po_fails o n = Some e -> run_prog o (bind (pdata c) k) n w = run_prog o (k (Err e)) (S n) w.
Proof. intros H. unfold pdata, call. cbn [bind run_prog perform runs_privacy perform_privacy]. by rewrite H. Qed.
Lemma pacc_ok {R A} (c : accountE R) (k : result error R -> pprog A) n w :
  po_fails o n = None ->
  run_prog o (bind (pacc c) k) n w =
    run_prog o (k (Ok (handle_account c (w_accounts w)).1)) (S n) (set_accounts (handle_account c (w_accounts w)).2 w).
Proof.
  intros H. unfold pacc, call. cbn [bind run_prog perform runs_privacy perform_privacy]. rewrite H.
  by destruct (handle_account c (w_accounts w)).
Qed.
Lemma pacc_err {R A} (c : accountE R) (k : result error R -> pprog A) n w e :
  po_fails o n = Some e -> run_prog o (bind (pacc c) k) n w = run_prog o (k (Err e)) (S n) w.
Proof. intros H. unfold pacc, call. cbn [bind run_prog perform runs_privacy perform_privacy]. by rewrite H. Qed.

(** A call whose error nobody looks at. *)
Lemma pacc_any {R A} (c : accountE R) (k : result error R -> pprog A) n w :
  exists r w2, run_prog o (bind (pacc c) k) n w = run_prog o (k r) (S n) w2.
Proof.
  destruct (po_fails o n) as [e|] eqn:E.
  - exists (Err e), w. by apply pacc_err.
  - exists (Ok (handle_account c (w_accounts w)).1). eexists. by apply pacc_ok.
Qed.

Lemma pnow_run {A} (k : time -> pprog A) n w :
  run_prog o (bind (call PNow) k) n w = run_prog o (k (po_now o n)) (S n) w.
Proof. done. Qed.
Lemma pid_run {A} (k : string -> pprog A) n w :
  run_prog o (bind (call PNewID) k) n w = run_prog o (k (po_id o n)) (S n) w.
Proof. done. Qed.

Lemma same_accounts w : set_accounts (w_accounts w) w = w.
Proof. by destruct w. Qed.

Lemma bind_bind_run {A B C} (p : pprog A) (f : A -> pprog B) (g : B -> pprog C) n w :
  run_prog o (bind (bind p f) g) n w = run_prog o (bind p (fun x => bind (f x) g)) n w.
Proof.
  rewrite !run_bind. destruct (run_prog o p n w) as [[a m] w']. by rewrite run_bind.
Qed.

(** ** The wipers *)

(** The two halves of the corpus wiper. *)
Definition half_wiped (u : string) (t : time) (s : Corpus.MemoryStore) : Corpus.MemoryStore :=
  (CorpusStore.SoftDeleteAllForUser u t s).2.

Lemma topic_data {R} (c : topicE R) w :
  handle_data (WTopic c) w = ((handle_topic c (w_topics w)).1, set_topics (handle_topic c (w_topics w)).2 w).
Proof. cbn. by destruct (handle_topic c (w_topics w)). Qed.

(** What restoring a wiper does when no call fails. *)
Definition undo (wp : DataWiper) (u : string) (w : world) : world :=
  if String.eqb (EntityType wp) "phrase_blocks" then set_corpus (unwipe u (w_corpus w)) w
  else if String.eqb (EntityType wp) "practice_sessions" then set_sessions (unwipe u (w_sessions w)) w
  else if String.eqb (EntityType wp) "ai_cost_logs" then set_costs (unwipe u (w_costs w)) w
  else if String.eqb (EntityType wp) "materials" then set_materials (unwipe u (w_materials w)) w
  else set_topics (unwipe u (w_topics w)) w.

Lemma restore_run {A} wp u (K : result error Z -> pprog A) n w :
  wp ∈ wipers -> (forall i, (n <= i)%nat -> po_fails o i = None) ->
  exists r m, (n <= m)%nat /\ run_prog o (bind (Restore wp u) K) n w = run_prog o (K (Ok r)) m (undo wp u w).
Proof.
  intros Hin Hq. unfold wipers in Hin. rewrite !elem_of_cons in Hin.
  destruct Hin as [->|[->|[->|[->|[->|Hin]]]]]; [..|by apply elem_of_nil in Hin].
  - cbn [Restore corpus_wiper]. rewrite bind_bind_run, pdata_ok by (apply Hq; lia).
    rewrite bind_bind_run, pdata_ok by (apply Hq; lia). cbn [bind]. eexists _, _. split; [|reflexivity]. lia.
  - cbn [Restore session_wiper]. rewrite pdata_ok by (apply Hq; lia). eexists _, _. split; [|reflexivity]. lia.
  - cbn [Restore cost_wiper]. rewrite pdata_ok by (apply Hq; lia). eexists _, _. split; [|reflexivity]. lia.
  - cbn [Restore material_wiper]. rewrite pdata_ok by (apply Hq; lia). eexists _, _. split; [|reflexivity]. lia.
  - cbn [Restore topic_wiper]. rewrite pdata_ok, topic_data by (apply Hq; lia). eexists _, _. split; [|reflexivity]. lia.
Qed.

Lemma restoreWipers_run u ws n w :
  ws ⊆ wipers -> (forall i, (n <= i)%nat -> po_fails o i = None) ->
  exists m, (n <= m)%nat /\
    run_prog o (restoreWipers u ws) n w = (tt, m, foldl (fun w wp => undo wp u w) w ws).
Proof.
  revert n w. induction ws as [|wp ws IH]; intros n w Hws Hq; [by exists n|]. cbn [restoreWipers foldl].
  destruct (restore_run wp u (fun _ => restoreWipers u ws) n w) as (r & m & Hm & ->); [apply Hws; by left|done|].
  destruct (IH m (undo wp u w)) as (m2 & Hm2 & ->); [intros x Hx; apply Hws; by right|intros i Hi; apply Hq; lia|].
  exists m2. split; [lia|done].
Qed.

Lemma restoreWipers_then {A} u ws (K : unit -> pprog A) n w :
  ws ⊆ wipers -> (forall i, (n <= i)%nat -> po_fails o i = None) ->
  exists m, (n <= m)%nat /\
    run_prog o (bind (restoreWipers u ws) K) n w =
      run_prog o (K tt) m (foldl (fun w wp => undo wp u w) w ws).
Proof.
  intros Hws Hq. rewrite run_bind. destruct (restoreWipers_run u ws n w Hws Hq) as (m & Hm & ->).
  by exists m.
Qed.

(** What wiping does when no call fails. *)
Definition do_wipe (wp : DataWiper) (u : string) (t : time) (w : world) : world :=
  if String.eqb (EntityType wp) "phrase_blocks" then set_corpus (wipe u t (w_corpus w)) w
  else if String.eqb (EntityType wp) "practice_sessions" then set_sessions (wipe u t (w_sessions w)) w
  else if String.eqb (EntityType wp) "ai_cost_logs" then set_costs (wipe u t (w_costs w)) w
  else if String.eqb (EntityType wp) "materials" then set_materials (wipe u t (w_materials w)) w
  else set_topics (wipe u t (w_topics w)) w.

(** A wipe succeeds, or a call of it fails: then it did nothing, or only the
    first half of the corpus wiper. *)
Lemma wipe_run {A} wp u t (K : result error Z -> pprog A) n w :
  wp ∈ wipers ->
  exists m, (n < m)%nat /\
    ((exists r, (forall i, (n <= i < m)%nat -> po_fails o i = None) /\
       run_prog o (bind (Wipe wp u t) K) n w = run_prog o (K (Ok r)) m (do_wipe wp u t w)) \/
     exists i e w1, (n <= i < m)%nat /\ po_fails o i = Some e /\
       run_prog o (bind (Wipe wp u t) K) n w = run_prog o (K (Err e)) m w1 /\
       (w1 = w \/ (wp = corpus_wiper /\ w1 = set_corpus (half_wiped u t (w_corpus w)) w))).
Proof.
  intros Hin. unfold wipers in Hin. rewrite !elem_of_cons in Hin.
  destruct Hin as [->|[->|[->|[->|[->|Hin]]]]]; [..|by apply elem_of_nil in Hin].
  { cbn [Wipe corpus_wiper]. destruct (po_fails o n) as [e|] eqn:E0.
    - exists (S n). split; [lia|]. right. exists n, e, w. rewrite bind_bind_run, (pdata_err _ _ _ _ e) by done.
      split; [lia|]. split; [done|]. split; [done|by left].
    - rewrite bind_bind_run, pdata_ok by done. exists (S (S n)). split; [lia|].
      destruct (po_fails o (S n)) as [e|] eqn:E1.
      + right. exists (S n), e. eexists. rewrite bind_bind_run, (pdata_err _ _ _ _ e) by done.
        split; [lia|]. split; [done|]. split; [reflexivity|]. right. by split.
      + left. rewrite bind_bind_run, pdata_ok by done. eexists. split; [|reflexivity].
        intros i Hi. by assert (i = n \/ i = S n) as [-> | ->] by lia. }
  all: cbn [Wipe session_wiper cost_wiper material_wiper topic_wiper]; exists (S n); (split; [lia|]);
    destruct (po_fails o n) as [e|] eqn:E0;
    [right; exists n, e, w; rewrite (pdata_err _ _ _ _ e) by done; split; [lia|]; split; [done|]; split; [done|by left]
    |left; rewrite pdata_ok, ?topic_data by done; eexists; split; [|reflexivity];
     intros i Hi; by assert (i = n) as -> by lia].
Qed.
End runs.

(** ** A deletion that fails *)

Definition undone_part {S} `{Wipable S} (u : string) (t : time) (x x' : S) : Prop :=
  x' = x \/ x' = unwipe u (wipe u t x).

(** Accounts and exports are untouched, every store is as it was or was wiped and
    restored — or the corpus is half wiped — and the drill ledger may be gone. *)
Record undone (u : string) (t : time) (w w' : world) : Prop := {
  un_accounts : w_accounts w' = w_accounts w;
  un_exports : w_exports w' = w_exports w;
  un_corpus : undone_part u t (w_corpus w) (w_corpus w') \/ w_corpus w' = half_wiped u t (w_corpus w);
  un_sessions : undone_part u t (w_sessions w) (w_sessions w');
  un_costs : undone_part u t (w_costs w) (w_costs w');
  un_materials : undone_part u t (w_materials w) (w_materials w');
  un_topics : undone_part u t (w_topics w) (w_topics w');
  un_drills : w_drills w' = w_drills w \/ w_drills w' = (DeleteForUser u (w_drills w)).2;
}.

Definition one_failure (o : POracle) : Prop :=
  forall i j, is_Some (po_fails o i) -> is_Some (po_fails o j) -> i = j.

Lemma undone_refl u t w : undone u t w w.
Proof. split; try done; try by left. left. by left. Qed.

Lemma quiet_after o i e m :
  one_failure o -> po_fails o i = Some e -> (i < m)%nat -> forall j, (m <= j)%nat -> po_fails o j = None.
Proof.
  intros H1 He Hi j Hj. destruct (po_fails o j) eqn:E; [|done].
  assert (i = j) by (apply H1; by eexists). lia.
Qed.

Ltac wiper_in := unfold wipers; rewrite !elem_of_cons; tauto.

(** The worlds the branches end in. *)
Ltac undone_cases := split; cbn; try done; unfold undone_part; auto.

Section undo.
Context {mr : MapRange} (o : POracle) (H1 : one_failure o).

Lemma get_user_run {A} u (K : result error User -> pprog A) n w :
  (exists e, run_prog o (bind (get_user u) K) n w = run_prog o (K (Err e)) (S n) w) \/
  (exists x, po_fails o n = None /\ users (w_accounts w) !! u = Some x /\
     run_prog o (bind (get_user u) K) n w = run_prog o (K (Ok x)) (S n) w).
Proof.
  unfold get_user. rewrite bind_bind_run. destruct (po_fails o n) as [e|] eqn:E.
  - left. exists e. by rewrite (pacc_err _ _ _ _ _ e).
  - rewrite pacc_ok by done. cbn [handle_account fst snd]. rewrite same_accounts. unfold GetUser.
    destruct (users (w_accounts w) !! u) as [x|]; cbn [bind]; [right; by exists x|left; by eexists].
Qed.

Ltac next_wiper :=
  rewrite ?bind_bind_run;
  match goal with |- context [run_prog o (bind (Wipe ?wp ?u ?t) ?K) ?n ?w] =>
    let m := fresh "m" in let r := fresh "r" in
    let i := fresh "i" in let e := fresh "e" in let w1 := fresh "w1" in
    destruct (wipe_run o wp u t K n w) as (m & ? & [(r & ? & ->)|(i & e & w1 & ? & ? & -> & Hw1)]); [wiper_in|..]
  end.

Ltac failed_here :=
  rewrite ?bind_bind_run;
  match goal with |- context [run_prog o (bind (restoreWipers ?u ?ws) ?K) ?n ?w] =>
    destruct (restoreWipers_then o u ws K n w) as (? & ? & ->);
    [unfold wipers; set_solver
    |eapply quiet_after; [exact H1|eassumption|lia]
    |cbn [bind run_prog foldl]; intros [= _ _ <-]]
  end.

(** C18: A deletion of a user's data that runs alone and answers an error, when one
    store call failed, leaves the account as it was and undoes what was wiped: every store
    is as before or was wiped and restored, with two exceptions that it shows
    exactly — the corpus is left half wiped when the second call of its own
    wiper failed, and the drill ledger is not restored. *)
Theorem failed_deletion_is_undone u code n w e m w' :
  run_prog o (DeleteAllData u code) n w = (Err e, m, w') ->
  undone (TrimSpace u) (po_now o (S n)) w w'.
Proof.
  unfold DeleteAllData. cbv zeta. set (id := TrimSpace u).
  destruct (String.eqb id ""); [intros [= _ _ <-]; apply undone_refl|].
  destruct (negb _); [intros [= _ _ <-]; apply undone_refl|].
  match goal with |- context [run_prog o (bind (get_user _) ?K) n w] =>
    destruct (get_user_run id K n w) as [[e0 ->]|(x & _ & Hx & ->)] end;
    [intros [= _ _ <-]; apply undone_refl|].
  unfold call at 1. cbn [bind run_prog perform runs_privacy perform_privacy]. set (t := po_now o (S n)).
  destruct (u_DeletedAt x) eqn:Ed; [done|].
  unfold wipers at 1. cbn [wipe_all].
  next_wiper; [|failed_here; destruct Hw1 as [->|[_ ->]]; undone_cases].
  do 4 (next_wiper; [|failed_here; destruct Hw1 as [->|[E _]]; [undone_cases|discriminate E]]).
  cbn [bind run_prog delete_all hard_deleters fst snd]. rewrite bind_bind_run. cbn [Delete drill_deleter].
  match goal with |- context [run_prog o (bind (pdata ?c) ?K) ?n ?w] =>
    destruct (po_fails o n) as [e0|] eqn:Ef;
    [rewrite (pdata_err o c K n w e0 Ef); failed_here; undone_cases|rewrite (pdata_ok o c K n w Ef)] end.
  cbn [bind run_prog].
  match goal with |- context [run_prog o (bind (pacc ?c) ?K) ?n ?w] =>
    destruct (po_fails o n) as [e0|] eqn:Ef2;
    [rewrite (pacc_err o c K n w e0 Ef2); failed_here; undone_cases|rewrite (pacc_ok o c K n w Ef2)] end.
  assert (forall s, w_accounts s = w_accounts w -> (MarkDeleted id t t (w_accounts s)).1 = Ok tt) as Hmark.
  { intros s ->. unfold MarkDeleted. by rewrite Hx, Ed. }
  cbn [handle_account]. rewrite Hmark by done.
  match goal with |- context [run_prog o (bind (pacc ?c) ?K) ?n ?w] =>
    destruct (pacc_any o c K n w) as (r' & w2 & ->) end.
  rewrite run_bind. by destruct (run_prog o (entomb _ _ _ _) _ _) as [[[] m6] w3].
Qed.
End undo.

(** ** A deletion that succeeds, and the way back *)

Section way_back.
Context {mr : MapRange}.

Definition quiet (o : POracle) : Prop := forall i, po_fails o i = None.

(** The tombstones of a cascade. *)
Definition entombed (entities : list (string * Z)) : list string :=
  map fst (List.filter (fun kv => (0 <? kv.2) || String.eqb kv.1 "users") entities).

Lemma entombed_range (lost : gmap string Z) e : e ∈ entombed (map_range lost) <->
  exists k, lost !! e = Some k /\ (0 < k \/ e = "users"%string).
Proof.
  unfold entombed. rewrite list_elem_of_fmap. split.
  - intros ([e' k] & -> & Hin). rewrite list_elem_of_In, filter_In, <- list_elem_of_In in Hin.
    destruct Hin as [Hin Hk]. rewrite map_range_perm in Hin. apply elem_of_map_to_list in Hin.
    exists k. split; [done|]. cbn in Hk. apply orb_prop in Hk as [Hk|Hk]; [left; lia|right].
    by apply String.eqb_eq in Hk.
  - intros (k & Hk & Hcase). exists (e, k). split; [done|].
    rewrite list_elem_of_In, filter_In, <- list_elem_of_In, map_range_perm. split; [by apply elem_of_map_to_list|].
    cbn. apply orb_true_iff. destruct Hcase as [Hc| ->]; [left; lia|right; done].
Qed.

Lemma entomb_run o u now purge es n w :
  quiet o -> exists rows m, run_prog o (entomb u now purge es) n w =
    (tt, m, set_accounts (set_tombstones (tombstones (w_accounts w) ++ rows) (w_accounts w)) w) /\
    map tb_EntityType rows = entombed es /\
    Forall (fun r => tb_UserID r = u /\ tb_DeletedAt r = now /\ tb_PurgeAt r = purge) rows.
Proof.
  intros Hq. revert n w. induction es as [|[entity k] es IH]; intros n w; cbn [entomb].
  { exists [], n. rewrite app_nil_r. destruct w as [[]]. by cbn. }
  unfold entombed. cbn [List.filter fst snd].
  replace ((k <=? 0) && negb (String.eqb entity "users"))
    with (negb ((0 <? k) || String.eqb entity "users")) by (rewrite negb_orb, Z.ltb_antisym, negb_involutive; done).
  destruct ((0 <? k) || String.eqb entity "users"); cbn [negb]; [|apply IH].
  unfold call. cbn [bind run_prog perform runs_privacy perform_privacy].
  rewrite pacc_ok by apply Hq. cbn [handle_account snd].
  match goal with |- context [run_prog o (entomb _ _ _ es) ?i ?w1] =>
    destruct (IH i w1) as (rows & m & -> & Hmap & Hall) end.
  eexists (_ :: rows), m. split; [f_equal; cbn; by rewrite <- app_assoc|]. cbn [map]. split; [by rewrite Hmap|].
  constructor; [by cbn|done].
Qed.

(** The stores after a deletion, the tombstones apart. *)
Definition deleted_accounts (u : string) (t : time) (x : User) (rows : list Tombstone) (a : Account.MemoryStore)
  : Account.MemoryStore :=
  set_tombstones (tombstones a ++ rows)
    (set_tokens (without_tokens u (tokens a))
       (set_users (<[u := Account.with_deletion UserStatusDeleted (Some t) (Some t) t x]> (users a)) a)).

Definition deleted_world (u : string) (t : time) (x : User) (rows : list Tombstone) (w : world) : world :=
  mkWorld (deleted_accounts u t x rows (w_accounts w)) (wipe u t (w_corpus w)) (wipe u t (w_sessions w))
    (wipe u t (w_costs w)) (wipe u t (w_materials w)) (wipe u t (w_topics w))
    (DeleteForUser u (w_drills w)).2 (w_exports w).

(** The user's visible rows, per entity: what a deletion takes. *)
Definition live_rows {A} (owner : A -> string) (deleted : A -> option time) (u : string) (m : gmap string A) : Z :=
  Z.of_nat (length (List.filter (is_deletable owner deleted u) (map_to_list m).*2)).
Definition live_streak (u : string) (s : Topic.MemoryStore) : Z :=
  match streaks s !! u with Some x => if live sk_DeletedAt x then 1 else 0 | None => 0 end.

Definition rows_lost (u : string) (w : world) : gmap string Z :=
  <["users" := 1]> (
  <["drill_records" := Z.of_nat (length (List.filter (fun r => String.eqb (r_UserID r) u) (records (w_drills w))))]> (
  <["topic_cards" := live_rows tc_UserID tc_DeletedAt u (cards (w_topics w)) +
                     live_rows ck_UserID ck_DeletedAt u (checkins (w_topics w)) + live_streak u (w_topics w)]> (
  <["materials" := live_rows m_UserID m_DeletedAt u (w_materials w)]> (
  <["ai_cost_logs" := Z.of_nat (length (List.filter (owned_by u) (w_costs w)))]> (
  <["practice_sessions" := live_rows s_UserID s_DeletedAt u (sessions (w_sessions w))]> (
  <["phrase_blocks" := live_rows b_UserID b_DeletedAt u (blocks (w_corpus w)) +
                       Z.of_nat (length (List.filter (feedback_of u false) (feedback (w_corpus w))))]> ∅))))))%string.

(** Rows that carry the user's identifier and that no deletion looks at. *)
Definition left_alone (w w' : world) : Prop :=
  uses (w_corpus w') = uses (w_corpus w) /\ realUses (w_corpus w') = realUses (w_corpus w) /\
  edits (w_corpus w') = edits (w_corpus w) /\ rescueEvents (w_sessions w') = rescueEvents (w_sessions w) /\
  tickets (w_sessions w') = tickets (w_sessions w) /\ utterances (w_sessions w') = utterances (w_sessions w) /\
  jobs (w_sessions w') = jobs (w_sessions w) /\ w_exports w' = w_exports w.

Lemma topic_lost u t s : (handle_topic (TSoftDelete u t) s).1 =
  live_rows tc_UserID tc_DeletedAt u (cards s) + live_rows ck_UserID ck_DeletedAt u (checkins s) + live_streak u s.
Proof.
  cbn [handle_topic]. unfold Topic.SoftDeleteAllForUser, live_streak. cbn.
  destruct (streaks s !! u) as [x|]; [destruct (live _ x)|]; done.
Qed.

Definition asks_deletion (u code : string) : Prop :=
  TrimSpace u = u /\ u <> ""%string /\ TrimSpace code = ConfirmationDeleteMyData.

Lemma delete_run o u code n w x :
  quiet o -> asks_deletion u code -> users (w_accounts w) !! u = Some x -> u_DeletedAt x = None ->
  let t := po_now o (S n) in
  exists rows m,
    run_prog o (DeleteAllData u code) n w =
      (Ok (mkDeleteResult (rows_lost u w) (format_rfc3339nano (Add t UndeleteWindow)) false), m,
       deleted_world u t x rows w) /\
    map tb_EntityType rows = entombed (map_range (rows_lost u w)) /\
    Forall (fun r => tb_UserID r = u /\ tb_DeletedAt r = t /\ tb_PurgeAt r = Add t UndeleteWindow) rows.
Proof.
  intros Hq (Hu & Hne & Hcode) Hx Hd t. apply String.eqb_neq in Hne.
  unfold DeleteAllData. cbv zeta. rewrite Hu, Hne, Hcode, String.eqb_refl. cbn [negb].
  unfold get_user. rewrite !bind_bind_run, pacc_ok by apply Hq. cbn [handle_account fst snd bind].
  unfold GetUser. rewrite Hx, same_accounts. unfold call at 1. cbn [bind run_prog perform runs_privacy perform_privacy].
  rewrite Hd. fold t. unfold wipers at 1.
  cbn [wipe_all Wipe corpus_wiper session_wiper cost_wiper material_wiper topic_wiper].
  repeat (rewrite ?bind_bind_run, ?topic_data; rewrite pdata_ok by apply Hq; cbn [bind]).
  cbn [delete_all hard_deleters Delete drill_deleter fst snd]. rewrite ?bind_bind_run, pdata_ok by apply Hq.
  cbn [bind run_prog]. set (casc0 := <[HardEntityType drill_deleter := _]> _).
  match goal with |- context [run_prog o (bind (pacc (AMarkDeleted u t t)) _) _ ?v] => set (w1 := v) end.
  assert (w1 = mkWorld (w_accounts w) (wipe u t (w_corpus w)) (wipe u t (w_sessions w)) (wipe u t (w_costs w))
    (wipe u t (w_materials w)) (wipe u t (w_topics w)) (DeleteForUser u (w_drills w)).2 (w_exports w)) as Hw1.
  { unfold w1. rewrite topic_data. reflexivity. }
  assert (<["users"%string := 1]> casc0 = rows_lost u w) as Hlost.
  { unfold casc0. rewrite topic_data. cbn [fst]. rewrite topic_lost. reflexivity. }
  clearbody w1 casc0. rewrite pacc_ok by apply Hq. cbn [handle_account].
  assert (MarkDeleted u t t (w_accounts w1) =
    (Ok tt, set_users (<[u := Account.with_deletion UserStatusDeleted (Some t) (Some t) t x]> (users (w_accounts w))) (w_accounts w))) as ->.
  { rewrite Hw1. cbn [w_accounts]. unfold MarkDeleted. by rewrite Hx, Hd. }
  cbn [fst snd]. rewrite pacc_ok by apply Hq. cbn [handle_account fst snd w_accounts set_accounts].
  rewrite Hlost, run_bind.
  match goal with |- context [run_prog o (entomb _ _ _ _) ?i ?v] =>
    destruct (entomb_run o u t (Add t UndeleteWindow) (map_range (rows_lost u w)) i v Hq) as (rows & m & -> & Hmap & Hall) end.
  exists rows, m. split; [|by split]. cbn [run_prog]. rewrite Hw1. reflexivity.
Qed.

Lemma undelete_run o u actor reason n w x deleted :
  quiet o -> TrimSpace u = u -> u <> ""%string -> users (w_accounts w) !! u = Some x ->
  u_DeletedAt x = Some deleted ->
  let now := po_now o (S n) in
  let due := Add (default deleted (u_TombstoneAt x)) UndeleteWindow in
  if After now due
  then run_prog o (UndeleteUser u actor reason) n w =
         (Err (Api (FailedPrecondition "undelete window has expired")), S (S n), w)
  else exists restored row m,
    run_prog o (UndeleteUser u actor reason) n w = (Ok (mkUndeleteResult restored u), m,
      mkWorld (set_audits (audits (w_accounts w) ++ [row])
                 (DeleteTombstonesForUser u
                    (set_users (<[u := Account.with_deletion UserStatusActive None None (u_UpdatedAt x) x]>
                                  (users (w_accounts w))) (w_accounts w))).2)
        (unwipe u (w_corpus w)) (unwipe u (w_sessions w)) (unwipe u (w_costs w)) (unwipe u (w_materials w))
        (unwipe u (w_topics w)) (w_drills w) (w_exports w)) /\
    au_UserID row = u /\ au_CreatedAt row = now /\ au_Reason row = TrimSpace reason.
Proof.
  intros Hq Hu Hne Hx Hd now due. apply String.eqb_neq in Hne.
  unfold UndeleteUser. cbv zeta. rewrite Hu, Hne. unfold get_user.
  rewrite !bind_bind_run, pacc_ok by apply Hq. cbn [handle_account fst snd bind].
  unfold GetUser. rewrite Hx, same_accounts, Hd, pnow_run.
  fold now. fold due. destruct (After now due); [done|]. unfold wipers at 1.
  cbn [restore_all Restore corpus_wiper session_wiper cost_wiper material_wiper topic_wiper].
  repeat (rewrite ?bind_bind_run, ?topic_data; rewrite pdata_ok by apply Hq; cbn [bind]).
  match goal with |- context [run_prog o (bind (pacc (AClearDeleted u)) _) _ ?v] => set (w1 := v) end.
  assert (w1 = mkWorld (w_accounts w) (unwipe u (w_corpus w)) (unwipe u (w_sessions w)) (unwipe u (w_costs w))
    (unwipe u (w_materials w)) (unwipe u (w_topics w)) (w_drills w) (w_exports w)) as Hw1.
  { unfold w1. rewrite ?topic_data. reflexivity. }
  clearbody w1. rewrite pacc_ok by apply Hq. cbn [handle_account].
  assert (ClearDeleted u (w_accounts w1) =
    (Ok tt, set_users (<[u := Account.with_deletion UserStatusActive None None (u_UpdatedAt x) x]> (users (w_accounts w))) (w_accounts w))) as ->.
  { rewrite Hw1. cbn [w_accounts]. unfold ClearDeleted. by rewrite Hx. }
  cbn [fst snd]. rewrite pacc_ok by apply Hq. rewrite pid_run, pacc_ok by apply Hq. cbn [run_prog]. rewrite Hw1. eexists _, _, _. split; [reflexivity|]. done.
Qed.

Lemma deleted_user u t x rows w : users (w_accounts (deleted_world u t x rows w)) !! u =
  Some (Account.with_deletion UserStatusDeleted (Some t) (Some t) t x).
Proof. cbn. apply lookup_insert_eq. Qed.

Lemma delete_again o u code n w x tomb :
  quiet o -> asks_deletion u code -> users (w_accounts w) !! u = Some x ->
  is_Some (u_DeletedAt x) -> u_TombstoneAt x = Some tomb ->
  run_prog o (DeleteAllData u code) n w =
    (Ok (mkDeleteResult ∅ (format_rfc3339nano (Add tomb UndeleteWindow)) true), S (S n), w).
Proof.
  intros Hq (Hu & Hne & Hcode) Hx [d Hd] Ht. apply String.eqb_neq in Hne.
  unfold DeleteAllData. cbv zeta. rewrite Hu, Hne, Hcode, String.eqb_refl. cbn [negb].
  unfold get_user. rewrite !bind_bind_run, pacc_ok by apply Hq. cbn [handle_account fst snd bind].
  unfold GetUser. by rewrite Hx, same_accounts, pnow_run, Hd, Ht.
Qed.

(** C33: A deletion of a live user's data that runs alone and all of whose store
    calls succeed hides the
    user's sessions, phrase blocks and feedback, materials, topic cards,
    check-ins and streak, takes the user's name off the cost rows, empties their
    drill ledger, closes the account and revokes its refresh tokens.  The answer
    counts the visible rows each entity lost, and a tombstone, due for purging
    after the window, is left for the user and for exactly the entities that
    lost some.  The other rows that carry the user's identifier stay: rescue
    ladders, transcripts, tickets, jobs, uses, edits and exports.  Asking again
    changes nothing and names the same purge time. *)
Theorem deletion_hides_everything o u code n w x :
  quiet o -> asks_deletion u code -> users (w_accounts w) !! u = Some x -> u_DeletedAt x = None ->
  let t := po_now o (S n) in
  let purge := format_rfc3339nano (Add t UndeleteWindow) in
  exists rows m w',
    run_prog o (DeleteAllData u code) n w = (Ok (mkDeleteResult (rows_lost u w) purge false), m, w') /\
    hidden u (w_corpus w') /\ hidden u (w_sessions w') /\ hidden u (w_costs w') /\
    hidden u (w_materials w') /\ hidden u (w_topics w') /\
    Forall (fun r => r_UserID r <> u) (records (w_drills w')) /\
    (exists y, users (w_accounts w') !! u = Some y /\ active y = false /\ u_DeletedAt y = Some t) /\
    (forall h tok, tokens (w_accounts w') !! h = Some tok -> rt_UserID tok <> u) /\
    tombstones (w_accounts w') = tombstones (w_accounts w) ++ rows /\
    (forall e, e ∈ map tb_EntityType rows <->
       exists k, rows_lost u w !! e = Some k /\ (0 < k \/ e = "users"%string)) /\
    Forall (fun r => tb_UserID r = u /\ tb_PurgeAt r = Add t UndeleteWindow) rows /\
    left_alone w w' /\
    forall o2 n2, quiet o2 ->
      run_prog o2 (DeleteAllData u code) n2 w' = (Ok (mkDeleteResult ∅ purge true), S (S n2), w').
Proof.
  intros Hq Hask Hx Hd t purge.
  destruct (delete_run o u code n w x Hq Hask Hx Hd) as (rows & m & Hr & Hmap & Hall). fold t in Hr, Hall.
  exists rows, m, (deleted_world u t x rows w). split; [exact Hr|].
  do 5 (split; [apply wipe_hides|]). split.
  { cbn. apply Forall_forall. intros r Hin. rewrite list_elem_of_In, filter_In in Hin.
    destruct Hin as [_ Hn]. by apply negb_true_iff, String.eqb_neq in Hn. }
  split; [eexists; split; [apply deleted_user|done]|]. split.
  { intros h tok. cbn. unfold without_tokens. rewrite map_lookup_filter_Some. by intros []. }
  split; [done|]. split.
  { intros e. rewrite Hmap. apply entombed_range. }
  split; [eapply Forall_impl; [exact Hall|]; by intros r (H1 & _ & H2)|]. split; [by repeat split|].
  intros o2 n2 Hq2. apply (delete_again o2 u code n2 _ _ t Hq2 Hask (deleted_user u t x rows w)); [by eexists|done].
Qed.

(** Nothing of the user is deleted yet, in any store. *)
Definition all_intact (u : string) (w : world) : Prop :=
  intact u (w_corpus w) /\ intact u (w_sessions w) /\ intact u (w_costs w) /\ intact u (w_materials w) /\
  intact u (w_topics w).

(** C19: An undelete inside the window, of a user none of whose rows was deleted
    before — both requests run alone and none of their store calls fails —
    gives the
    soft-deleted data back: the corpus, the sessions, the costs, the materials and
    the topics are as before the deletion but for the update stamps of the
    user's rows and the check-ins, which stay deleted; the account is active
    again, its tombstones are gone and the restore is audited.  The drill ledger
    stays emptied and the refresh tokens stay revoked.  After the window it is
    refused and changes nothing. *)
Theorem undelete_gives_back o o2 u code actor reason n n2 w x :
  quiet o -> quiet o2 -> asks_deletion u code -> users (w_accounts w) !! u = Some x ->
  u_DeletedAt x = None -> all_intact u w ->
  let t := po_now o (S n) in
  let now := po_now o2 (S n2) in
  exists answer m w1,
    run_prog o (DeleteAllData u code) n w = (Ok answer, m, w1) /\
    if now <=? t + UndeleteWindow then
      exists restored row m2 w2, run_prog o2 (UndeleteUser u actor reason) n2 w1 = (Ok restored, m2, w2) /\
        w_corpus w2 = stamped u t (w_corpus w) /\ w_sessions w2 = stamped u t (w_sessions w) /\
        w_costs w2 = w_costs w /\ w_materials w2 = stamped u t (w_materials w) /\
        w_topics w2 = stamped u t (w_topics w) /\
        w_drills w2 = (DeleteForUser u (w_drills w)).2 /\ w_exports w2 = w_exports w /\
        tokens (w_accounts w2) = without_tokens u (tokens (w_accounts w)) /\
        users (w_accounts w2) = <[u := Account.with_deletion UserStatusActive None None t x]> (users (w_accounts w)) /\
        Forall (fun r => tb_UserID r <> u) (tombstones (w_accounts w2)) /\
        audits (w_accounts w2) = audits (w_accounts w) ++ [row] /\ au_UserID row = u
    else run_prog o2 (UndeleteUser u actor reason) n2 w1 =
      (Err (Api (FailedPrecondition "undelete window has expired")), S (S n2), w1).
Proof.
  intros Hq Hq2 Hask Hx Hd (I1 & I2 & I3 & I4 & I5) t now.
  destruct (delete_run o u code n w x Hq Hask Hx Hd) as (rows & m & Hr & _ & _). fold t in Hr.
  destruct Hask as (Hu & Hne & _).
  eexists _, m, (deleted_world u t x rows w). split; [exact Hr|].
  pose proof (undelete_run o2 u actor reason n2 _ _ t Hq2 Hu Hne (deleted_user u t x rows w) eq_refl) as Hund.
  cbn zeta in Hund. fold now in Hund.
  change (default t (u_TombstoneAt (Account.with_deletion UserStatusDeleted (Some t) (Some t) t x))) with t in Hund.
  unfold After, Add in Hund. destruct (Z.leb_spec now (t + UndeleteWindow)) as [Hle|Hgt].
  - rewrite (proj2 (Z.ltb_ge _ _) Hle) in Hund. destruct Hund as (restored & row & m2 & Hrun & Hrow & _).
    eexists _, row, m2, _. split; [exact Hrun|]. cbn [w_corpus w_sessions w_costs w_materials w_topics w_accounts deleted_world].
    rewrite !wipe_unwipe by done. do 8 (split; [done|]). split.
    { cbn. by rewrite insert_insert_eq. }
    split; [|done]. cbn. apply Forall_forall. intros r Hin.
    rewrite list_elem_of_In, filter_In in Hin. destruct Hin as [_ Hn]. by apply negb_true_iff, String.eqb_neq in Hn.
  - by rewrite (proj2 (Z.ltb_lt _ _) Hgt) in Hund.
Qed.
End way_back.

(** A restore clears every deletion of the user's blocks, also the ones the
    learner made one by one before. *)
Lemma restore_resurrects u t s id b :
  blocks s !! id = Some b -> b_UserID b = u ->
  exists b', blocks (unwipe u (wipe u t s)) !! id = Some b' /\ b_DeletedAt b' = None.
Proof.
  intros Hb Hu. cbn. rewrite !lookup_fmap, Hb. cbn. rewrite Hu, String.eqb_refl.
  destruct (bool_decide (is_Some (b_DeletedAt b))) eqn:E; cbn;
    rewrite Hu, String.eqb_refl; cbn; [rewrite E|]; by eexists.
Qed.

(** ** A concrete account *)

#[local] Existing Instance key_order.

Definition ann : User :=
  mkUser "ann" (Some "ann@example.org") None None false None UserStatusActive None None None 1 1.
Definition ann_block : PhraseBlock :=
  mkBlock "b1" "ann" "绕回来" "circle back" 0 "" "standup" "report" StateTraining 1 0 0 0 0
    None false None None None 1 1.
Definition ann_world : world :=
  mkWorld (set_users {[ "ann" := ann ]} Account.NewMemoryStore)
    (set_blocks {[ "b1" := ann_block ]} Corpus.NewMemoryStore) Session.NewMemoryStore [] ∅
    Topic.NewMemoryStore NewMemoryRecordStore ∅.

Definition at_day (d : Z) (fails : nat -> option error) : POracle :=
  mkPOracle (fun n => d * Day + Z.of_nat n) (fun n => "id") fails.
Definition no_failure : nat -> option error := fun _ => None.
Definition fails_at (k : nat) : nat -> option error :=
  fun n => if (n =? k)%nat then Some (Errorf "db") else None.

Lemma fails_at_once d k : one_failure (at_day d (fails_at k)).
Proof.
  intros i j [e Hi] [e' Hj]. cbn in Hi, Hj. unfold fails_at in *.
  destruct (Nat.eqb_spec i k), (Nat.eqb_spec j k); congruence.
Qed.

Lemma ann_asks : asks_deletion "ann" ConfirmationDeleteMyData.
Proof. split; [reflexivity|]. by split. Qed.

Lemma ann_intact : all_intact "ann" ann_world.
Proof.
  repeat split; cbn; try done; try apply map_Forall_empty.
  intros id b. rewrite lookup_singleton_Some. by intros [<- <-].
Qed.

Lemma deletion_hides_everything_witness :
  exists purge m w', run_prog (at_day 3 no_failure) (DeleteAllData "ann" ConfirmationDeleteMyData) 0 ann_world
    = (Ok (mkDeleteResult (rows_lost "ann" ann_world) purge false), m, w') /\ hidden "ann" (w_corpus w').
Proof.
  destruct (deletion_hides_everything (at_day 3 no_failure) "ann" ConfirmationDeleteMyData 0 ann_world ann)
    as (rows & m & w' & Hr & Hh & _); [done|exact ann_asks|reflexivity|done|].
  eexists _, m, w'. split; [exact Hr|exact Hh].
Defined.

Lemma undelete_gives_back_witness :
  exists answer m w1 restored m2 w2,
    run_prog (at_day 3 no_failure) (DeleteAllData "ann" ConfirmationDeleteMyData) 0 ann_world = (Ok answer, m, w1) /\
    run_prog (at_day 30 no_failure) (UndeleteUser "ann" "" "asked") 0 w1 = (Ok restored, m2, w2) /\
    w_corpus w2 = stamped "ann" (3 * Day + 1) (w_corpus ann_world).
Proof.
  destruct (undelete_gives_back (at_day 3 no_failure) (at_day 30 no_failure) "ann" ConfirmationDeleteMyData
    "" "asked" 0 0 ann_world ann) as (answer & m & w1 & Hr & Hback);
    [done|done|exact ann_asks|reflexivity|done|exact ann_intact|].
  change (po_now (at_day 30 no_failure) 1 <=? po_now (at_day 3 no_failure) 1 + UndeleteWindow) with true in Hback.
  destruct Hback as (restored & row & m2 & w2 & Hr2 & Hc & _).
  exists answer, m, w1, restored, m2, w2. split; [exact Hr|]. split; [exact Hr2|exact Hc].
Defined.

Lemma failed_deletion_is_undone_witness :
  exists e m w', run_prog (at_day 3 (fails_at 4)) (DeleteAllData "ann" ConfirmationDeleteMyData) 0 ann_world
    = (Err e, m, w') /\ undone "ann" (3 * Day + 1) ann_world w'.
Proof.
  assert (is_ok (run_prog (at_day 3 (fails_at 4)) (DeleteAllData "ann" ConfirmationDeleteMyData) 0 ann_world).1.1 = false)
    as Herr by (vm_compute; reflexivity).
  destruct (run_prog (at_day 3 (fails_at 4)) (DeleteAllData "ann" ConfirmationDeleteMyData) 0 ann_world)
    as [[[r|e] m] w'] eqn:E; [done|].
  exists e, m, w'. split; [done|].
  exact (failed_deletion_is_undone (at_day 3 (fails_at 4)) (fails_at_once 3 4) "ann" ConfirmationDeleteMyData 0
    ann_world e m w' E).
Defined.

(** The corpus wiper is not restored when its own second call fails: the deletion
    answers an error, the account stays active and the phrases stay deleted. *)
Lemma failed_wiper_stays_half_wiped :
  let r := run_prog (at_day 3 (fails_at 3)) (DeleteAllData "ann" ConfirmationDeleteMyData) 0 ann_world in
  is_ok r.1.1 = false /\ users (w_accounts r.2) !! "ann"%string = Some ann /\
  (b_DeletedAt <$> blocks (w_corpus r.2) !! "b1"%string) = Some (Some (3 * Day + 1)).
Proof. vm_compute. done. Qed.

(** The deletion looks at no rescue ladder: the learner's stuck map counts them
    as before. *)
Lemma rescues_are_still_counted u t since s :
  CountRescuesByPath u since (wipe u t s) = CountRescuesByPath u since s.
Proof. done. Qed.
