(* ===== verification/HitDetect.v ===== *)
(** * Voice hit detection ([internal/session/voice_hit_detect.go])

    One turn's transcript is scored against the learner's phrase blocks by token
    overlap, a [float64], and the best one above the threshold is a hit.  The
    candidates come from another process: [load] is what the source answers.
    Durations, which are only logged, are left out. *)
From Stdlib Require Import SpecFloat.
From stdpp Require Import fin_sets.
From S2P Require Import Prelude GoString GoUnicode GoSort GoFloat.

Open Scope Z_scope.

Record HitDetectRequest := mkHitRequest {
  hq_UserID : string;
  hq_SessionID : string;
  hq_TurnID : string;
  hq_Text : string;
}.

Record BlockCandidate := mkCandidate {
  bc_ID : string;
  bc_ExpressionEN : string;
  bc_IntentZH : string;
  bc_AnchorUserSaid : string;
  bc_SceneTag : string;
  bc_FunctionTag : string;
}.

Record VoiceHit := mkVoiceHit {
  vh_Block : BlockCandidate;
  vh_Score : spec_float;
  vh_BadgeLabel : string;
  vh_Tier : string;
}.

(** HitDecision: a hit or a miss. *)
Inductive HitDecision :=
| HitDecisionMiss
| HitDecisionHit (h : VoiceHit).

(** An invalid request wraps [ErrHitDetectInvalidRequest]; the other error is
    the source's. *)
Inductive hit_error :=
| HitDetectInvalidRequest (reason : string)
| LoadCandidates (text : string).

(** [0.65] is the float nearest to 65/100. *)
Definition hitMinScore : spec_float := float_div (float_of 65) (float_of 100).
Definition hitCandidateCap : nat := 50.
Definition hitMaxTextLen : Z := 4 * 1024.
Definition BadgeTierSoft : string := "soft".

Definition validateHitRequest (req : HitDetectRequest) : option hit_error :=
  if blank (hq_UserID req) then Some (HitDetectInvalidRequest "user_id is required")
  else if blank (hq_Text req) then Some (HitDetectInvalidRequest "text is required")
  else if hitMaxTextLen <? go_len (hq_Text req)
  then Some (HitDetectInvalidRequest "text exceeds 4096 bytes")
  else None.

Definition shorter (a b : BlockCandidate) : bool :=
  go_len (bc_ExpressionEN a) <? go_len (bc_ExpressionEN b).

Definition trimCandidates (l : list BlockCandidate) (limit : nat) : list BlockCandidate :=
  if (length l <=? limit)%nat then l else take limit (sort_SliceStable shorter l).

Definition token_rune (r : Z) : bool := in_range 97 r 122 || in_range 48 r 57.

Definition tokenize (s : string) : list string :=
  map (fun w => of_bytes (encode_runes w))
    (rune_fields (fun r => negb (token_rune r)) [] (runes (to_bytes (ToLower s)))).

(** The loop that counts the distinct tokens also spoken. *)
Fixpoint matched_loop (textSet seen : gset string) (ts : list string) : Z :=
  match ts with
  | [] => 0
  | t :: ts =>
      if decide (t ∈ seen) then matched_loop textSet seen ts
      else (if decide (t ∈ textSet) then 1 else 0) + matched_loop textSet ({[t]} ∪ seen) ts
  end.

Definition scoreCandidate (text : string) (c : BlockCandidate) : spec_float :=
  let textTokens := tokenize text in
  if (length textTokens =? 0)%nat then S754_zero false else
  let combined := tokenize (bc_ExpressionEN c) ++ tokenize (bc_AnchorUserSaid c) in
  if (length combined =? 0)%nat then S754_zero false else
  let matched := matched_loop (list_to_set textTokens) ∅ combined in
  if matched =? 0 then S754_zero false else
  float_div (float_of matched) (float_of (Z.of_nat (Nat.min (length combined) (length textTokens)))).

Definition scoreAll (text : string) (cs : list BlockCandidate) : list VoiceHit :=
  omap (fun c => let score := scoreCandidate text c in
                 if float_le score (S754_zero false) then None
                 else Some (mkVoiceHit c score "" "")) cs.

Definition hit_before (a b : VoiceHit) : bool :=
  if float_ne (vh_Score a) (vh_Score b) then float_lt (vh_Score b) (vh_Score a)
  else shorter (vh_Block a) (vh_Block b).

Definition pickBest (scored : list VoiceHit) (minScore : spec_float) : option VoiceHit :=
  match sort_SliceStable hit_before scored with
  | [] => None
  | best :: _ => if float_lt (vh_Score best) minScore then None else Some best
  end.

Definition buildBadgeLabel (expressionEN intentZH : string) : string :=
  let expressionEN := TrimSpace expressionEN in
  if String.eqb expressionEN "" then
    if String.eqb intentZH "" then "Nice!" else intentZH
  else expressionEN.

Definition Detect (load : string -> result string (list BlockCandidate)) (req : HitDetectRequest)
  : result hit_error HitDecision :=
  match validateHitRequest req with
  | Some e => Err e
  | None =>
      match load (hq_UserID req) with
      | Err e => Err (LoadCandidates e)
      | Ok [] => Ok HitDecisionMiss
      | Ok raw =>
          match pickBest (scoreAll (hq_Text req) (trimCandidates raw hitCandidateCap)) hitMinScore with
          | None => Ok HitDecisionMiss
          | Some best =>
              let c := vh_Block best in
              Ok (HitDecisionHit (mkVoiceHit c (vh_Score best)
                    (buildBadgeLabel (bc_ExpressionEN c) (bc_IntentZH c)) BadgeTierSoft))
          end
      end
  end.

(** * Voice hit detection: properties *)


(** ** Scores *)

Lemma matched_loop_size textSet seen ts :
  matched_loop textSet seen ts = Z.of_nat (size ((list_to_set ts ∖ seen) ∩ textSet)).
Proof.
  revert seen. induction ts as [|t ts IH]; intros seen; cbn [matched_loop list_to_set].
  { assert ((∅ ∖ seen) ∩ textSet = ∅) as -> by set_solver. by rewrite size_empty. }
  destruct (decide (t ∈ seen)) as [Hs|Hs].
  - rewrite IH. do 2 f_equal. set_solver.
  - rewrite IH. destruct (decide (t ∈ textSet)) as [Ht|Ht].
    + assert ((({[t]} ∪ list_to_set ts) ∖ seen) ∩ textSet =
              {[t]} ∪ (list_to_set ts ∖ ({[t]} ∪ seen)) ∩ textSet) as ->.
      { apply set_eq. intros x. destruct (decide (x = t)) as [->|]; set_solver. }
      pose proof (size_union (C := gset string) {[t]} ((list_to_set ts ∖ ({[t]} ∪ seen)) ∩ textSet)
                    ltac:(set_solver)) as E.
      rewrite size_singleton in E. lia.
    + rewrite Z.add_0_l. do 2 f_equal. apply set_eq. intros x. destruct (decide (x = t)) as [->|]; set_solver.
Qed.

(** The distinct tokens of the block that were spoken, and what they are
    counted against. *)
Definition overlap (text : string) (c : BlockCandidate) : Z :=
  Z.of_nat (size ((list_to_set (tokenize (bc_ExpressionEN c) ++ tokenize (bc_AnchorUserSaid c)) : gset string)
                  ∩ list_to_set (tokenize text))).
Definition against (text : string) (c : BlockCandidate) : Z :=
  Z.of_nat (Nat.min (length (tokenize (bc_ExpressionEN c) ++ tokenize (bc_AnchorUserSaid c)))
                    (length (tokenize text))).

Lemma size_list_to_set_le (l : list string) : (size (list_to_set l : gset string) <= length l)%nat.
Proof.
  induction l as [|x l IH]; cbn [list_to_set length]; [by rewrite size_empty|].
  pose proof (size_union_alt (C := gset string) {[x]} (list_to_set l)) as E.
  pose proof (subseteq_size (list_to_set l ∖ {[x]} : gset string) (list_to_set l) ltac:(set_solver)).
  rewrite size_singleton in E. rewrite E. lia.
Qed.

Lemma overlap_bounds text c : 0 <= overlap text c <= against text c.
Proof.
  unfold overlap, against. set (cs := _ ++ _). set (ts := tokenize text).
  pose proof (subseteq_size ((list_to_set cs : gset string) ∩ list_to_set ts) (list_to_set cs) ltac:(set_solver)).
  pose proof (subseteq_size ((list_to_set cs : gset string) ∩ list_to_set ts) (list_to_set ts) ltac:(set_solver)).
  pose proof (size_list_to_set_le cs). pose proof (size_list_to_set_le ts). lia.
Qed.

Lemma scoreCandidate_spec text c :
  scoreCandidate text c =
    if overlap text c =? 0 then S754_zero false
    else float_div (float_of (overlap text c)) (float_of (against text c)).
Proof.
  pose proof (overlap_bounds text c) as Hb. unfold scoreCandidate.
  set (combined := _ ++ _). rewrite matched_loop_size, difference_empty_L. fold combined in Hb |- *.
  change (Z.of_nat (size (list_to_set combined ∩ _))) with (overlap text c).
  unfold against in *. fold combined in Hb |- *.
  destruct (length (tokenize text) =? 0)%nat eqn:E1.
  { apply Nat.eqb_eq in E1. destruct (overlap text c =? 0) eqn:E; [done|]. lia. }
  destruct (length combined =? 0)%nat eqn:E2; [|done].
  apply Nat.eqb_eq in E2. destruct (overlap text c =? 0) eqn:E; [done|]. lia.
Qed.

(** A text has at most as many tokens as bytes. *)
Lemma runes_length_le l : (length (runes l) <= length l)%nat.
Proof.
  induction l as [l IH] using runes_ind. destruct l as [|a t]; [done|].
  assert (forall l', (length l' <= length t)%nat -> (length (runes l') <= length t)%nat) as H.
  { intros l' Hl. etransitivity; [apply IH; cbn; lia|done]. }
  cbn [runes]. repeat case_match; subst; cbn [length] in *; try (apply le_n_S, H; cbn; lia); lia.
Qed.

Lemma rune_fields_length sep cur rs :
  (length (rune_fields sep cur rs) <= length rs + (if cur is [] then 0 else 1))%nat.
Proof.
  revert cur. induction rs as [|r rs IH]; intros cur; cbn [rune_fields length].
  - destruct cur; cbn; lia.
  - destruct (sep r); [destruct cur; cbn [length]; specialize (IH []); cbn in IH; lia|].
    specialize (IH (r :: cur)). cbn in IH. destruct cur; lia.
Qed.

Lemma tokens_length s : Z.of_nat (length (tokenize s)) <= go_len s.
Proof.
  unfold tokenize, ToLower, go_len.
  rewrite length_map, list_ascii_of_string_of_list_ascii, runes_encode_runes.
  - pose proof (rune_fields_length (fun r => negb (token_rune r)) []
      (map rune_lower (runes (list_ascii_of_string s)))) as H1.
    rewrite length_map in H1. pose proof (runes_length_le (list_ascii_of_string s)) as H2.
    assert (length (list_ascii_of_string s) = String.length s) as H3 by (clear; induction s; cbn; auto).
    rewrite Nat.add_0_r in H1. lia.
  - apply Forall_map. eapply Forall_impl; [apply runes_valid|]. intros r. apply rune_lower_valid.
Qed.

(** The counts of a valid request are small integers, so its scores are numbers. *)
Definition small_float (z : Z) : bool :=
  match float_of z with S754_finite false _ _ => true | _ => false end.

Lemma small_floats : forallb small_float (seqZ 1 4096) = true.
Proof. vm_compute. reflexivity. Qed.

Lemma score_number text c : go_len text <= hitMaxTextLen -> is_number (scoreCandidate text c).
Proof.
  intros Ht. rewrite scoreCandidate_spec. destruct (overlap text c =? 0) eqn:E; [done|].
  pose proof (overlap_bounds text c) as Hb. pose proof (tokens_length text) as Hl.
  assert (against text c <= 4096) as Ha by (unfold against, hitMaxTextLen in *; lia).
  assert (forall z, 0 < z <= 4096 -> small_float z = true) as Hf.
  { intros z Hz. pose proof small_floats as H. rewrite forallb_forall in H.
    apply H, list_elem_of_In, elem_of_seqZ. lia. }
  pose proof (Hf (overlap text c) ltac:(lia)) as F1. pose proof (Hf (against text c) ltac:(lia)) as F2.
  unfold small_float in F1, F2.
  apply float_div_number; [apply float_of_number..|intros s Es; by rewrite Es in F1|].
  intros s Es; by rewrite Es in F2.
Qed.

(** ** The best candidate *)

Lemma hit_before_key a b :
  is_number (vh_Score a) -> is_number (vh_Score b) ->
  hit_before a b = true <->
    key_lt (float_key (vh_Score b)) (float_key (vh_Score a)) \/
    float_key (vh_Score a) = float_key (vh_Score b) /\
      go_len (bc_ExpressionEN (vh_Block a)) < go_len (bc_ExpressionEN (vh_Block b)).
Proof.
  intros Ha Hb. unfold hit_before, shorter. pose proof (float_ne_key _ _ Ha Hb) as E.
  pose proof (float_lt_key _ _ Hb Ha) as L.
  destruct (float_ne (vh_Score a) (vh_Score b)).
  - rewrite L. split; [by left|]. intros [H|[H _]]; [done|]. by apply E in H.
  - rewrite Z.ltb_lt. destruct E as [E _]. specialize (E eq_refl). split; [by right|].
    intros [H|[_ H]]; [|done]. rewrite E in H. unfold key_lt in H. lia.
Qed.

Lemma hits_ordered l : Forall (fun h => is_number (vh_Score h)) l -> ordered_on hit_before l.
Proof.
  intros Hl. rewrite Forall_forall in Hl. split.
  - intros a b Ha%Hl Hb%Hl H. apply not_true_is_false. intros H'.
    apply hit_before_key in H, H'; try done. unfold key_lt in *. rewrite <- ?pair_equal_spec in *.
    destruct H as [H|[E H]], H' as [H'|[E' H']]; try lia; rewrite ?E, ?E' in *; lia.
  - intros a b c Ha%Hl Hb%Hl Hc%Hl H1 H2. apply not_true_is_false. intros H.
    assert (~ hit_before b a = true) as N1 by congruence.
    assert (~ hit_before c b = true) as N2 by congruence.
    rewrite hit_before_key in H, N1, N2 by done. unfold key_lt in *.
    destruct (float_key (vh_Score a)) as [[a1 a2] a3], (float_key (vh_Score b)) as [[b1 b2] b3],
      (float_key (vh_Score c)) as [[c1 c2] c3]. cbn in *. rewrite !pair_equal_spec in *. lia.
Qed.

(** The candidate that would win over the other. *)
Definition unlabelled (text : string) (c : BlockCandidate) : VoiceHit :=
  mkVoiceHit c (scoreCandidate text c) "" "".
Definition beats (text : string) (a b : BlockCandidate) : bool :=
  hit_before (unlabelled text a) (unlabelled text b).

Lemma min_score_number : is_number hitMinScore.
Proof. by vm_compute. Qed.

Lemma omap_split {A B} (f : A -> option B) l p x q :
  omap f l = p ++ x :: q ->
  exists l1 y l2, l = l1 ++ y :: l2 /\ omap f l1 = p /\ f y = Some x.
Proof.
  revert p. induction l as [|a l IH]; intros p; cbn; [by destruct p|].
  destruct (f a) as [b|] eqn:E.
  - destruct p as [|b' p]; intros [= -> H].
    + exists [], a, l. by rewrite E.
    + destruct (IH p H) as (l1 & y & l2 & -> & <- & Hy). exists (a :: l1), y, l2.
      cbn. by rewrite E.
  - intros H. destruct (IH p H) as (l1 & y & l2 & -> & <- & Hy). exists (a :: l1), y, l2.
    cbn. by rewrite E.
Qed.

Section scored.
Context (text : string) (Htext : go_len text <= hitMaxTextLen).

Lemma scoreAll_elem cs h :
  h ∈ scoreAll text cs <->
  exists c, c ∈ cs /\ h = unlabelled text c /\ float_le (scoreCandidate text c) (S754_zero false) = false.
Proof.
  unfold scoreAll. rewrite list_elem_of_omap. split.
  - intros (c & Hc & H). exists c. destruct (float_le _ _); [done|]. by injection H as <-.
  - intros (c & Hc & -> & E). exists c. by rewrite E.
Qed.

Lemma unscored_loses c :
  float_le (scoreCandidate text c) (S754_zero false) = true ->
  float_lt (scoreCandidate text c) hitMinScore = true.
Proof.
  intros H. apply (float_le_lt_trans _ (S754_zero false)); [by apply score_number|done|..|done|done].
  apply min_score_number.
Qed.

Lemma pickBest_best cs :
  match pickBest (scoreAll text cs) hitMinScore with
  | None => forall c, c ∈ cs -> float_lt (scoreCandidate text c) hitMinScore = true
  | Some h => h = unlabelled text (vh_Block h) /\ float_le hitMinScore (vh_Score h) = true /\
      exists pre post, cs = pre ++ vh_Block h :: post /\
        (forall c, c ∈ pre -> beats text (vh_Block h) c = true) /\
        (forall c, c ∈ cs -> beats text c (vh_Block h) = false)
  end.
Proof.
  assert (ordered_on hit_before (scoreAll text cs)) as Ho.
  { apply hits_ordered, Forall_forall. intros h (c & _ & -> & _)%scoreAll_elem. by apply score_number. }
  unfold pickBest. destruct (sort_SliceStable hit_before (scoreAll text cs)) as [|h rest] eqn:E.
  { assert (scoreAll text cs = []) as E'.
    { apply Permutation_nil_r. by rewrite <- (sort_SliceStable_perm hit_before (scoreAll text cs)), E. }
    intros c Hc. apply unscored_loses. apply not_false_is_true. intros Hf.
    assert (unlabelled text c ∈ scoreAll text cs) as H by (apply scoreAll_elem; eauto).
    rewrite E' in H. by apply elem_of_nil in H. }
  destruct (sort_SliceStable_head _ _ _ _ Ho E) as (pre & post & Es & Hpre & Hmin).
  assert (h ∈ scoreAll text cs) as Hh by (rewrite Es; set_solver).
  apply scoreAll_elem in Hh as (b & Hb & -> & Hpos). cbn [vh_Score vh_Block unlabelled].
  pose proof (score_number text b Htext) as Nb.
  destruct (float_lt (scoreCandidate text b) hitMinScore) eqn:Eb.
  { intros c Hc. destruct (float_le (scoreCandidate text c) (S754_zero false)) eqn:Ec;
      [by apply unscored_loses|].
    pose proof (score_number text c Htext) as Nc.
    refine (float_le_lt_trans _ (scoreCandidate text b) _ Nc Nb min_score_number _ Eb).
    rewrite float_le_lt by done. apply negb_true_iff, not_true_is_false. intros H.
    assert (hit_before (unlabelled text c) (unlabelled text b) = true) as H'.
    { apply hit_before_key; [done|done|]. left. by apply float_lt_key. }
    rewrite Hmin in H'; [done|]. apply scoreAll_elem. by exists c. }
  assert (float_le hitMinScore (scoreCandidate text b) = true) as Hm.
  { rewrite float_le_lt; [by rewrite Eb|apply min_score_number|done]. }
  split; [done|]. split; [done|].
  assert (forall c, float_le (scoreCandidate text c) (S754_zero false) = true -> beats text b c = true) as Hlose.
  { intros c Hc. pose proof (score_number text c Htext) as Nc.
    apply hit_before_key; [done|done|]. left. apply float_lt_key; [done|done|].
    refine (float_lt_le_trans _ hitMinScore _ Nc min_score_number Nb _ Hm). by apply unscored_loses. }
  apply omap_split in Es as (l1 & b' & l2 & Ecs & Epre & Eb').
  assert (b' = b) as ->.
  { unfold unlabelled in Eb'. destruct (float_le _ _); [done|]. by injection Eb'. }
  exists l1, l2. split; [done|]. split.
  - intros c Hc. destruct (float_le (scoreCandidate text c) (S754_zero false)) eqn:Ec; [by apply Hlose|].
    apply Hpre. rewrite <- Epre. apply scoreAll_elem. by exists c.
  - intros c Hc. destruct (float_le (scoreCandidate text c) (S754_zero false)) eqn:Ec.
    + apply (on_asymm hit_before [unlabelled text b; unlabelled text c]);
        [|set_solver|set_solver|by apply Hlose].
      apply hits_ordered. repeat constructor; by apply score_number.
    + apply Hmin, scoreAll_elem. by exists c.
Qed.
End scored.

Lemma shorter_ordered l : ordered_on shorter l.
Proof. unfold shorter. split; intros; lia. Qed.

(** The candidates considered: all, or fifty that no other is shorter than. *)
Lemma trimmed_shortest l n :
  (length (trimCandidates l n) <= n)%nat /\ trimCandidates l n ⊆+ l /\
  forall c c', c ∈ trimCandidates l n -> c' ∈ l ->
    c' ∈ trimCandidates l n \/ go_len (bc_ExpressionEN c) <= go_len (bc_ExpressionEN c').
Proof.
  unfold trimCandidates. destruct (length l <=? n)%nat eqn:E.
  { apply Nat.leb_le in E. split; [done|]. split; [done|]. by left. }
  set (s := sort_SliceStable shorter l).
  assert (s ≡ₚ l) as Hp by apply sort_SliceStable_perm.
  assert (length (take n s) <= n)%nat as Hn by (rewrite length_take; lia).
  split; [done|]. split.
  { rewrite <- Hp. rewrite <- (take_drop n s) at 2. by apply submseteq_inserts_r. }
  intros c c' Hc Hc'. rewrite <- Hp, <- (take_drop n s) in Hc'. apply elem_of_app in Hc' as [H|H]; [by left|].
  right. pose proof (sort_SliceStable_sorted shorter l (shorter_ordered l)) as Hs. fold s in Hs.
  rewrite <- (take_drop n s) in Hs.
  pose proof (StronglySorted_app_1_elem_of _ _ _ _ _ Hs Hc H) as Hle. unfold not_after, shorter in Hle. lia.
Qed.

(** C5: A detected hit is the best of the candidates that are kept: a valid
    request whose candidates load is decided over at most fifty of them, none
    left out with an expression of fewer bytes than a kept one; it is a miss
    exactly when every kept candidate scores below the threshold, and otherwise
    the hit is, of the kept candidates, one of the highest score, among those
    one whose expression has the fewest bytes, and of those the first; several
    candidates may reach the threshold.  Its badge text is never empty. *)
Theorem hit_is_best_candidate load req d :
  Detect load req = Ok d ->
  exists loaded, load (hq_UserID req) = Ok loaded /\
  let kept := trimCandidates loaded hitCandidateCap in
  let text := hq_Text req in
  ((length kept <= 50)%nat /\ kept ⊆+ loaded /\
   forall c c', c ∈ kept -> c' ∈ loaded ->
     c' ∈ kept \/ go_len (bc_ExpressionEN c) <= go_len (bc_ExpressionEN c')) /\
  match d with
  | HitDecisionMiss => forall c, c ∈ kept -> float_lt (scoreCandidate text c) hitMinScore = true
  | HitDecisionHit h =>
      vh_Score h = scoreCandidate text (vh_Block h) /\ float_le hitMinScore (vh_Score h) = true /\
      vh_BadgeLabel h <> ""%string /\
      exists pre post, kept = pre ++ vh_Block h :: post /\
        (forall c, c ∈ pre -> beats text (vh_Block h) c = true) /\
        (forall c, c ∈ kept -> beats text c (vh_Block h) = false)
  end.
Proof.
  unfold Detect. destruct (validateHitRequest req) as [e|] eqn:Ev; [done|].
  assert (go_len (hq_Text req) <= hitMaxTextLen) as Ht.
  { unfold validateHitRequest in Ev. repeat case_match; try done. lia. }
  destruct (load (hq_UserID req)) as [loaded|e] eqn:El; [|done]. intros H. exists loaded. split; [done|].
  cbn zeta. split; [apply trimmed_shortest|].
  pose proof (pickBest_best (hq_Text req) Ht (trimCandidates loaded hitCandidateCap)) as Hb.
  destruct loaded as [|c0 cs]; [injection H as <-; cbn; set_solver|].
  destruct (pickBest _ _) as [h|]; injection H as <-; [|done].
  destruct Hb as (E & Hm & Hpos). cbn [vh_Block vh_Score vh_BadgeLabel]. split; [by rewrite E|].
  split; [done|]. split; [|exact Hpos].
  unfold buildBadgeLabel. repeat case_match; try done; by apply String.eqb_neq.
Qed.

(** The pairs of counts of turns of up to 64 tokens. *)
Lemma small_scores :
  forallb (fun d => forallb (fun m =>
    Bool.eqb (float_lt (float_div (float_of m) (float_of d)) hitMinScore) (20 * m <? 13 * d))
    (seqZ 1 d)) (seqZ 1 64) = true.
Proof. vm_compute. reflexivity. Qed.

(** The threshold is 65 percent: a phrase counted against at most 64 tokens
    scores below it exactly when fewer than 13 in 20 of those tokens are
    distinct tokens of the phrase that were spoken — the rounding of the
    division never decides. *)
Theorem hit_threshold_is_65_percent text c :
  against text c <= 64 ->
  float_lt (scoreCandidate text c) hitMinScore = (20 * overlap text c <? 13 * against text c)
  \/ against text c = 0 /\ overlap text c = 0.
Proof.
  intros Ha. pose proof (overlap_bounds text c) as Hb. rewrite scoreCandidate_spec.
  destruct (overlap text c =? 0) eqn:E.
  - destruct (decide (against text c = 0)); [right; lia|left].
    symmetry. apply Z.eqb_eq in E. rewrite E.
    transitivity true; [apply Z.ltb_lt; lia|by vm_compute].
  - left. pose proof small_scores as H. rewrite forallb_forall in H.
    specialize (H (against text c) ltac:(apply list_elem_of_In, elem_of_seqZ; lia)).
    rewrite forallb_forall in H.
    specialize (H (overlap text c) ltac:(apply list_elem_of_In, elem_of_seqZ; lia)).
    by apply Bool.eqb_prop in H.
Qed.

Definition one_block (expression : string) : BlockCandidate :=
  mkCandidate "b1" expression "" "" "standup" "report".

(** Saying a phrase with a repeated word word for word is a miss. *)
Lemma repeated_words_miss :
  float_lt (scoreCandidate "No, no, no way" (one_block "no no no way")) hitMinScore = true.
Proof. vm_compute. reflexivity. Qed.

(** Between equal scores the expression of fewer bytes wins, not the one of fewer
    tokens. *)
Lemma tie_goes_to_fewer_bytes :
  let two_words := one_block "circle back" in
  let one_word := one_block "internationalization" in
  let text := "circle back on internationalization"%string in
  (scoreCandidate text two_words, scoreCandidate text one_word) = (float_of 1, float_of 1) /\
  (length (tokenize "circle back"), length (tokenize "internationalization")) = (2, 1)%nat /\
  match Detect (fun _ => Ok [one_word; two_words]) (mkHitRequest "u1" "s1" "t1" text) with
  | Ok (HitDecisionHit h) => vh_Block h = two_words
  | _ => False
  end.
Proof. vm_compute. repeat split. Qed.

(** A hit does not mean that one candidate alone reached the threshold. *)
Lemma two_candidates_cross_threshold :
  let a := one_block "touch base" in
  let b := one_block "touch base tomorrow" in
  let text := "I will touch base tomorrow"%string in
  float_le hitMinScore (scoreCandidate text a) = true /\ float_le hitMinScore (scoreCandidate text b) = true /\
  match Detect (fun _ => Ok [a; b]) (mkHitRequest "u1" "s1" "t1" text) with
  | Ok (HitDecisionHit _) => True
  | _ => False
  end.
Proof. by vm_compute. Qed.

(** One common word of a one-word turn is a full score, however long the phrase. *)
Lemma one_word_turn_hits :
  scoreCandidate "the" (one_block "in the long run") = float_of 1.
Proof. vm_compute. reflexivity. Qed.

(** An apostrophe separates: the tokens are not those of the word without it. *)
Lemma apostrophe_splits :
  tokenize "I'll" = ["i"; "ll"]%string /\ tokenize "ill" = ["ill"]%string.
Proof. by vm_compute. Qed.

Lemma hit_threshold_is_65_percent_witness :
  against "I will touch base tomorrow" (one_block "touch base") = 2 /\
  (float_lt (scoreCandidate "I will touch base tomorrow" (one_block "touch base")) hitMinScore =
     (20 * overlap "I will touch base tomorrow" (one_block "touch base") <?
      13 * against "I will touch base tomorrow" (one_block "touch base"))
   \/ against "I will touch base tomorrow" (one_block "touch base") = 0 /\
      overlap "I will touch base tomorrow" (one_block "touch base") = 0).
Proof.
  assert (against "I will touch base tomorrow" (one_block "touch base") = 2) as E by (vm_compute; reflexivity).
  split; [exact E|]. apply hit_threshold_is_65_percent. rewrite E. lia.
Defined.

Definition two_blocks : list BlockCandidate :=
  [one_block "let us circle back later"; mkCandidate "b2" "touch base" "" "" "standup" "report"].
Definition spoken_turn : HitDetectRequest :=
  mkHitRequest "u1" "s1" "t1" "I will touch base tomorrow".

Lemma hit_is_best_candidate_witness :
  exists h, Detect (fun _ => Ok two_blocks) spoken_turn = Ok (HitDecisionHit h) /\
    bc_ID (vh_Block h) = "b2"%string /\ vh_BadgeLabel h <> ""%string.
Proof.
  destruct (Detect (fun _ => Ok two_blocks) spoken_turn) as [[|h]|e] eqn:E;
    [vm_compute in E; discriminate| |vm_compute in E; discriminate].
  exists h. split; [reflexivity|]. split; [vm_compute in E; by injection E as <-|].
  destruct (hit_is_best_candidate _ _ _ E) as (l & _ & _ & _ & _ & H & _). exact H.
Defined.
