(* ===== verification/Badge.v ===== *)
(** * The badge emitter ([internal/voicegateway/badge_emitter.go])

    After a turn the gateway detects a hit, writes at most one badge frame for
    it and reports the written badge to the ledger.  Every session's emission
    runs on its own goroutine; they share the duplicate filter, whose [Allow]
    is one atomic step, and the counters.  An emission is a program over those
    steps, the detector, the connection and the ledger; between two of its
    steps other emissions may run theirs.  Timeouts show as errors of the call
    they bound. *)
From Stdlib Require Import SpecFloat.
From stdpp Require Import fin_sets.
From S2P Require Import Prelude Prog GoString GoTime Frames HitDetect.

Open Scope Z_scope.
Open Scope prog_scope.

Definition DefaultDedupeTTL : duration := 5 * Second.
Definition DefaultDedupeCapacity : Z := 1024.

(** ** The duplicate filter *)

(** dedupeLRU: the expiry of the keys, and the keys from the most to the least
    recently used — the map from keys to list elements and the list of them. *)
Record dedupeLRU := mkLRU {
  capacity : Z;
  ttl : duration;
  expires : gmap string time;
  order : list string;
}.

Definition newDedupeLRU (cap : Z) (ttl : duration) : dedupeLRU :=
  mkLRU (if cap <=? 0 then DefaultDedupeCapacity else cap)
        (if ttl <=? 0 then DefaultDedupeTTL else ttl) ∅ [].

Definition remove_key (key : string) (l : list string) : list string :=
  List.filter (fun k => negb (String.eqb k key)) l.

(** The loop that drops the least recently used keys beyond the capacity. *)
Fixpoint evict (fuel : nat) (d : dedupeLRU) : dedupeLRU :=
  match fuel with
  | O => d
  | S fuel =>
      if Z.of_nat (length (order d)) <=? capacity d then d else
      match last (order d) with
      | None => d
      | Some oldest =>
          evict fuel (mkLRU (capacity d) (ttl d) (delete oldest (expires d)) (removelast (order d)))
      end
  end.

(** Allow: true when the key is to be suppressed. *)
Definition Allow (key : string) (now : time) (d : dedupeLRU) : bool * dedupeLRU :=
  if String.eqb key "" then (true, d) else
  let enter (d : dedupeLRU) :=
    let d := mkLRU (capacity d) (ttl d) (<[key := Add now (ttl d)]> (expires d)) (key :: order d) in
    (false, evict (length (order d)) d) in
  match expires d !! key with
  | Some expiresAt =>
      if Before now expiresAt
      then (true, mkLRU (capacity d) (ttl d) (expires d) (key :: remove_key key (order d)))
      else enter (mkLRU (capacity d) (ttl d) (delete key (expires d)) (remove_key key (order d)))
  | None => enter d
  end.

(** ** Emission *)

Record BadgeEmitterStats := mkStats {
  st_EmitCalls : Z;
  st_EmptySkips : Z;
  st_Misses : Z;
  st_Hits : Z;
  st_DedupDropped : Z;
  st_DetectErrors : Z;
  st_WriteErrors : Z;
  st_RecordErrors : Z;
}.

Inductive counter :=
  EmitCalls | EmptySkips | Misses | Hits | DedupDropped | DetectErrors | WriteErrors | RecordErrors.

(** One use the ledger is told of. *)
Record RecordedHit := mkRecordedHit {
  rh_UserID : string;
  rh_SessionID : string;
  rh_TurnID : string;
  rh_BlockID : string;
  rh_AtMs : Z;
}.

Inductive badgeE : Type -> Type :=
| BDetect (req : HitDetectRequest) : badgeE (result hit_error HitDecision)
| BAllow (key : string) : badgeE bool
| BWrite (b : FeedbackBadge) : badgeE (result string unit)
| BRecord (h : RecordedHit) : badgeE (result string unit)
| BNow : badgeE time
| BCount (c : counter) : badgeE unit.

Abbreviation bprog := (program badgeE).

(** recordHit; [recorder] is whether the gateway has a ledger to report to. *)
Definition recordHit (recorder : bool) (userID sessionID turnID blockID : string) : bprog unit :=
  if negb recorder then Ret tt else
  now <- call BNow;
  r <- call (BRecord (mkRecordedHit userID sessionID turnID blockID (UnixMilli now)));
  match r with
  | Err _ => call (BCount RecordErrors)
  | Ok _ => Ret tt
  end.

Definition doEmit (recorder : bool) (userID sessionID turnID text : string) : bprog unit :=
  decision <- call (BDetect (mkHitRequest userID sessionID turnID text));
  match decision with
  | Err _ => call (BCount DetectErrors)
  | Ok HitDecisionMiss => call (BCount Misses)
  | Ok (HitDecisionHit h) =>
      let badge := NewFeedbackBadge (vh_BadgeLabel h) (bc_ID (vh_Block h)) (vh_Tier h) sessionID turnID in
      if String.eqb (DedupeKey badge) "" then Ret tt else
      seen <- call (BAllow (DedupeKey badge));
      if seen : bool then call (BCount DedupDropped) else
      written <- call (BWrite badge);
      match written with
      | Err _ => call (BCount WriteErrors)
      | Ok _ =>
          _ <- call (BCount Hits);
          recordHit recorder userID sessionID turnID (bc_ID (vh_Block h))
      end
  end.

(** Emit and EmitSync on a connection; [detector] is whether there is one. *)
Definition EmitSync (detector recorder : bool) (userID sessionID turnID text : string) : bprog unit :=
  let text := TrimSpace text in
  if String.eqb text "" then call (BCount EmptySkips) else
  if negb detector then Ret tt else
  _ <- call (BCount EmitCalls);
  doEmit recorder userID sessionID turnID text.

(** The shared filter and counters, and what reached the clients and the ledger. *)
Record emitter := mkEmitter {
  em_dedupe : dedupeLRU;
  em_stats : BadgeEmitterStats;
  em_wire : list FeedbackBadge;
  em_ledger : list RecordedHit;
}.

Definition count (c : counter) (s : BadgeEmitterStats) : BadgeEmitterStats :=
  let '(mkStats a b m h d e w r) := s in
  match c with
  | EmitCalls => mkStats (a + 1) b m h d e w r
  | EmptySkips => mkStats a (b + 1) m h d e w r
  | Misses => mkStats a b (m + 1) h d e w r
  | Hits => mkStats a b m (h + 1) d e w r
  | DedupDropped => mkStats a b m h (d + 1) e w r
  | DetectErrors => mkStats a b m h d (e + 1) w r
  | WriteErrors => mkStats a b m h d e (w + 1) r
  | RecordErrors => mkStats a b m h d e w (r + 1)
  end.

(** What the detector, the connections and the ledger answer, the clock, and
    the steps of other emissions before the filter is asked. *)
Record BOracle := mkBOracle {
  bo_detect : nat -> HitDetectRequest -> result hit_error HitDecision;
  bo_write : nat -> FeedbackBadge -> result string unit;
  bo_record : nat -> RecordedHit -> result string unit;
  bo_now : nat -> time;
  bo_env : nat -> list (string * time);
}.

(** Other emissions ask the filter. *)
Definition allow_all (calls : list (string * time)) (d : dedupeLRU) : dedupeLRU :=
  foldl (fun d c => (Allow c.1 c.2 d).2) d calls.

Definition perform_badge {R} (o : BOracle) (e : badgeE R) (n : nat) (s : emitter) : R * emitter :=
  match e in badgeE R return R * emitter with
  | BDetect req => (bo_detect o n req, s)
  | BAllow key =>
      let (seen, d) := Allow key (bo_now o n) (allow_all (bo_env o n) (em_dedupe s)) in
      (seen, mkEmitter d (em_stats s) (em_wire s) (em_ledger s))
  | BWrite b =>
      match bo_write o n b with
      | Ok _ => (Ok tt, mkEmitter (em_dedupe s) (em_stats s) (em_wire s ++ [b]) (em_ledger s))
      | Err e => (Err e, s)
      end
  | BRecord h =>
      match bo_record o n h with
      | Ok _ => (Ok tt, mkEmitter (em_dedupe s) (em_stats s) (em_wire s) (em_ledger s ++ [h]))
      | Err e => (Err e, s)
      end
  | BNow => (bo_now o n, s)
  | BCount c => (tt, mkEmitter (em_dedupe s) (count c (em_stats s)) (em_wire s) (em_ledger s))
  end.

#[export] Instance runs_badge : Runs BOracle badgeE emitter := @perform_badge.

(** * The badge emitter: properties *)


(** ** The filter is well formed *)

Record lru_ok (d : dedupeLRU) : Prop := {
  lru_capacity : 0 < capacity d;
  lru_ttl : 0 < ttl d;
  lru_NoDup : NoDup (order d);
  lru_keys : forall k, is_Some (expires d !! k) <-> k ∈ order d;
  lru_size : Z.of_nat (length (order d)) <= capacity d;
}.

Lemma new_lru_ok cap t : lru_ok (newDedupeLRU cap t).
Proof.
  unfold newDedupeLRU, DefaultDedupeCapacity, DefaultDedupeTTL, Second, Millisecond. split; cbn.
  - case_match; lia.
  - case_match; lia.
  - constructor.
  - intros k. rewrite lookup_empty, elem_of_nil. by split; [intros []|].
  - case_match; lia.
Qed.

Lemma elem_of_remove_key k key l : k ∈ remove_key key l <-> k ∈ l /\ k <> key.
Proof.
  unfold remove_key. rewrite !list_elem_of_In, filter_In, negb_true_iff, String.eqb_neq. done.
Qed.

Lemma remove_key_NoDup key l : NoDup l -> NoDup (remove_key key l).
Proof.
  induction 1 as [|x l Hx Hl IH]; cbn; [constructor|]. case_match; [|done]. constructor; [|done].
  by intros [? _]%elem_of_remove_key.
Qed.

Lemma remove_key_length key l : (length (remove_key key l) <= length l)%nat.
Proof. apply filter_length_le. Qed.

Lemma remove_key_length_in key l :
  NoDup l -> key ∈ l -> S (length (remove_key key l)) = length l.
Proof.
  intros Hnd Hin. change (S (length (remove_key key l))) with (length (key :: remove_key key l)).
  apply Permutation_length, NoDup_Permutation; [|done|].
  - constructor; [|by apply remove_key_NoDup]. by intros [_ ?]%elem_of_remove_key.
  - intros x. rewrite elem_of_cons, elem_of_remove_key. destruct (decide (x = key)); set_solver.
Qed.

(** One key too many: the least recently used one goes. *)
Lemma evict_one d :
  NoDup (order d) -> Z.of_nat (length (order d)) <= capacity d + 1 -> 0 < capacity d ->
  let d' := evict (length (order d)) d in
  capacity d' = capacity d /\ ttl d' = ttl d /\
  order d' = take (Z.to_nat (capacity d)) (order d) /\
  forall k, expires d' !! k =
    if decide (k ∈ drop (Z.to_nat (capacity d)) (order d)) then None else expires d !! k.
Proof.
  intros Hnd Hlen Hc. destruct (order d) as [|x l] eqn:El; cbn [length evict].
  { rewrite El, take_nil. repeat split; try done. intros k. rewrite drop_nil.
    by rewrite decide_False by (by intros ?%elem_of_nil). }
  rewrite El. destruct (Z.of_nat (length (x :: l)) <=? capacity d) eqn:E.
  { apply Z.leb_le in E. repeat split; [by rewrite El, take_ge by lia|]. intros k.
    rewrite drop_ge by lia. by rewrite decide_False by (by intros ?%elem_of_nil). }
  apply Z.leb_gt in E. destruct (exists_last (l := x :: l)) as (front & oldest & Eq); [done|].
  rewrite Eq in *. rewrite last_snoc, removelast_last.
  rewrite length_app in E, Hlen. cbn in E, Hlen.
  assert (Z.to_nat (capacity d) = length front) as Hf by lia.
  assert (forall n, evict n (mkLRU (capacity d) (ttl d) (delete oldest (expires d)) front) =
                    mkLRU (capacity d) (ttl d) (delete oldest (expires d)) front) as Hstop.
  { intros [|n]; [done|]. cbn [evict order capacity]. case_match; [done|]. lia. }
  rewrite Hstop. cbn. rewrite Hf, take_app_length, drop_app_length. repeat split.
  intros k. destruct (decide (k ∈ [oldest])) as [->%list_elem_of_singleton|Hk];
    [apply lookup_delete_eq|]. apply lookup_delete_ne. set_solver.
Qed.

Lemma remove_key_absent key l : key ∉ l -> remove_key key l = l.
Proof.
  intros H. unfold remove_key. apply forallb_filter_id, forallb_forall.
  intros x Hx%list_elem_of_In. apply negb_true_iff, String.eqb_neq. by intros ->.
Qed.

(** A key that is let through goes to the front with a fresh expiry; the keys
    that stay keep theirs. *)
Definition entered (key : string) (now : time) (d d' : dedupeLRU) : Prop :=
  capacity d' = capacity d /\ ttl d' = ttl d /\
  order d' = take (Z.to_nat (capacity d)) (key :: remove_key key (order d)) /\
  expires d' !! key = Some (Add now (ttl d)) /\
  forall k, k <> key -> k ∈ order d' -> expires d' !! k = expires d !! k.

(** Entering a key that is in neither table. *)
Lemma enter_spec key now d :
  lru_ok d -> key ∉ order d ->
  let d0 := mkLRU (capacity d) (ttl d) (<[key := Add now (ttl d)]> (expires d)) (key :: order d) in
  let d' := evict (length (order d0)) d0 in
  lru_ok d' /\ entered key now d d'.
Proof.
  intros Hok Hkey. cbn zeta. set (d0 := mkLRU _ _ _ _). destruct Hok as [Hc Ht Hnd Hkeys Hsize].
  assert (NoDup (order d0)) as Hnd0 by (cbn; by constructor).
  destruct (evict_one d0 Hnd0) as (E1 & E2 & E3 & E4); [cbn [order length capacity d0]; lia|done|].
  set (d' := evict (length (order d0)) d0) in *. cbn [capacity ttl order expires d0] in E1, E2, E3, E4.
  set (n := Z.to_nat (capacity d)) in *.
  assert (forall k, k ∈ order d' -> k ∉ drop n (key :: order d)) as Hdisj.
  { intros k Hk Hk'. cbn [order d0] in Hnd0. rewrite <- (take_drop n (key :: order d)) in Hnd0.
    apply NoDup_app in Hnd0 as (_ & H & _). rewrite E3 in Hk. by apply (H k). }
  assert (key ∈ order d') as Hin by (rewrite E3; unfold n; destruct (Z.to_nat (capacity d)) eqn:?; [lia|left]).
  assert (forall k, is_Some (expires d' !! k) <-> k ∈ order d') as Hk'.
  { intros k. rewrite E4. destruct (decide (k ∈ drop _ _)) as [Hd|Hd].
    - split; [by intros []|]. intros H. by apply Hdisj in H.
    - assert (is_Some (<[key:=Add now (ttl d)]> (expires d) !! k) <-> k ∈ key :: order d) as ->.
      { destruct (decide (k = key)) as [->|Hne]; [rewrite lookup_insert_eq; split; [left|by eauto]|].
        rewrite lookup_insert_ne, Hkeys by done. set_solver. }
      rewrite <- (take_drop n (key :: order d)), elem_of_app, E3. set_solver. }
  split; [split|split; [done|split; [done|split; [|split]]]].
  - by rewrite E1.
  - by rewrite E2.
  - rewrite E3. eapply sublist_NoDup; [exact Hnd0|]. apply sublist_take.
  - done.
  - rewrite E1, E3, length_take. lia.
  - by rewrite remove_key_absent.
  - rewrite E4, decide_False by (by apply Hdisj). apply lookup_insert_eq.
  - intros k Hne Hk. rewrite E4, decide_False by (by apply Hdisj). by apply lookup_insert_ne.
Qed.

(** Forgetting a key. *)
Lemma forget_ok key d :
  lru_ok d -> lru_ok (mkLRU (capacity d) (ttl d) (delete key (expires d)) (remove_key key (order d))).
Proof.
  intros [Hc Ht Hnd Hkeys Hsize]. split; cbn; [done|done|by apply remove_key_NoDup|..].
  - intros k. rewrite elem_of_remove_key, <- Hkeys. destruct (decide (k = key)) as [->|Hne].
    + rewrite lookup_delete_eq. split; [by intros []|by intros [_ ?]].
    + rewrite lookup_delete_ne by done. tauto.
  - pose proof (remove_key_length key (order d)). lia.
Qed.

(** Allow answers by the expiry of the key and keeps the filter well formed. *)
Lemma Allow_spec key now d :
  lru_ok d -> key <> ""%string ->
  let (seen, d') := Allow key now d in
  lru_ok d' /\
  if seen then
    (exists e, expires d !! key = Some e /\ now < e) /\ capacity d' = capacity d /\ ttl d' = ttl d /\
    expires d' = expires d /\ order d' = key :: remove_key key (order d)
  else
    (forall e, expires d !! key = Some e -> e <= now) /\ entered key now d d'.
Proof.
  intros Hok Hne. unfold Allow. rewrite (proj2 (String.eqb_neq _ _) Hne).
  destruct (expires d !! key) as [e|] eqn:Ee.
  - assert (key ∈ order d) as Hin by (apply (lru_keys _ Hok); eauto).
    destruct (Before now e) eqn:Eb.
    + apply Z.ltb_lt in Eb. split; [|by split; [eauto|]]. destruct Hok as [Hc Ht Hnd Hkeys Hsize].
      split; cbn; [done|done|..].
      * constructor; [by intros [_ ?]%elem_of_remove_key|by apply remove_key_NoDup].
      * intros k. rewrite Hkeys, elem_of_cons, elem_of_remove_key.
        destruct (decide (k = key)) as [->|]; tauto.
      * rewrite (remove_key_length_in key (order d)) by done. lia.
    + apply Z.ltb_ge in Eb. set (d1 := mkLRU _ _ (delete key (expires d)) _).
      destruct (enter_spec key now d1) as [Hok' He]; [by apply forget_ok|by intros [_ ?]%elem_of_remove_key|].
      split; [exact Hok'|]. split; [by intros e' [= <-]|].
      destruct He as (A & B & C & D & F). split; [done|]. split; [done|]. split; [|split; [done|]].
      * etransitivity; [exact C|]. do 2 f_equal. apply remove_key_absent.
        by intros [_ ?]%elem_of_remove_key.
      * intros k Hk Hk'. etransitivity; [by apply F|]. by apply lookup_delete_ne.
  - assert (key ∉ order d) as Hin by (rewrite <- (lru_keys _ Hok), Ee; by intros []).
    destruct (enter_spec key now d Hok Hin) as [Hok' He]. by split; [|split].
Qed.

(** What every question leaves alone, whatever the key. *)
Lemma Allow_frame key now d :
  lru_ok d -> lru_ok (Allow key now d).2 /\
  capacity (Allow key now d).2 = capacity d /\ ttl (Allow key now d).2 = ttl d.
Proof.
  intros Hok. destruct (decide (key = ""%string)) as [->|Hne]; [done|].
  pose proof (Allow_spec key now d Hok Hne) as H. destruct (Allow key now d) as [[] d'].
  - by destruct H as (? & _ & ? & ? & _).
  - by destruct H as (? & _ & ? & ? & _).
Qed.

Definition like (d d' : dedupeLRU) : Prop := lru_ok d' /\ capacity d' = capacity d /\ ttl d' = ttl d.

Lemma allow_all_like calls d : lru_ok d -> like d (allow_all calls d).
Proof.
  intros Hok. apply (foldl_keeps _ (like d)); [|by split]. intros d' c _ (H & E1 & E2).
  destruct (Allow_frame c.1 c.2 d' H) as (H' & E1' & E2'). split; [done|]. split; congruence.
Qed.

Lemma allow_all_app calls calls' d : allow_all (calls ++ calls') d = allow_all calls' (allow_all calls d).
Proof. apply foldl_app. Qed.

(** ** How long a key is held *)

(** [key] expires no earlier than [e], and only keys of [S] were used since. *)
Definition held (key : string) (S : gset string) (e : time) (d : dedupeLRU) : Prop :=
  exists pre post x, order d = pre ++ key :: post /\ (forall k, k ∈ pre -> k ∈ S) /\
    expires d !! key = Some x /\ e <= x.

Lemma remove_key_app k l1 l2 : remove_key k (l1 ++ l2) = remove_key k l1 ++ remove_key k l2.
Proof. apply List.filter_app. Qed.

Lemma NoDup_size_le (l : list string) (X : gset string) :
  NoDup l -> (forall k, k ∈ l -> k ∈ X) -> (length l <= size X)%nat.
Proof.
  intros Hnd H. rewrite <- (size_list_to_set (C := gset string) l) by done.
  apply subseteq_size. set_solver.
Qed.

Lemma key_held_step key S e k t d :
  lru_ok d -> key <> ""%string -> held key S e d ->
  Z.of_nat (size (({[k]} ∪ S) ∖ {[key]})) < capacity d ->
  held key ({[k]} ∪ S) e (Allow k t d).2.
Proof.
  intros Hok Hkey (pre & post & x & Ho & HS & Hx & He) Hsize.
  destruct (decide (k = ""%string)) as [->|Hk].
  { exists pre, post, x. split; [done|]. split; [set_solver|done]. }
  pose proof (Allow_spec k t d Hok Hk) as H. destruct (Allow k t d) as [[] d']; cbn [snd].
  - destruct H as (Hok' & _ & _ & _ & Ex & Eo). destruct (decide (k = key)) as [->|Hne].
    + exists [], (remove_key key (order d)), x. rewrite Ex. split; [done|]. split; [set_solver|done].
    + exists (k :: remove_key k pre), (remove_key k post), x.
      rewrite Ex, Eo, Ho, remove_key_app. cbn. rewrite (proj2 (String.eqb_neq key k)) by done.
      split; [done|]. split; [|done]. intros y [->|[Hy _]%elem_of_remove_key]%elem_of_cons; set_solver.
  - destruct H as (Hok' & Hnew & Ec & Et & Eo & En & Eold). pose proof (lru_capacity _ Hok) as Hc.
    destruct (decide (k = key)) as [->|Hne].
    + exists [], (take (pred (Z.to_nat (capacity d))) (remove_key key (order d))), (Add t (ttl d)).
      rewrite Eo, En. split; [by destruct (Z.to_nat (capacity d)) eqn:?; [lia|]|]. split; [set_solver|].
      split; [done|]. specialize (Hnew _ Hx). pose proof (lru_ttl _ Hok). unfold Add. lia.
    + set (P := k :: remove_key k pre).
      assert (k :: remove_key k (order d) = P ++ key :: remove_key k post) as EP.
      { rewrite Ho, remove_key_app. cbn. by rewrite (proj2 (String.eqb_neq key k)). }
      assert (length P < Z.to_nat (capacity d))%nat as HP.
      { pose proof (lru_NoDup _ Hok) as Hnd. rewrite Ho in Hnd. apply NoDup_app in Hnd as (Hnd & Hdis & _).
        assert (length P <= size (({[k]} ∪ S) ∖ {[key]}))%nat; [|lia]. apply NoDup_size_le.
        - constructor; [by intros [_ ?]%elem_of_remove_key|by apply remove_key_NoDup].
        - intros y [->|[Hy _]%elem_of_remove_key]%elem_of_cons; [set_solver|].
          assert (y <> key) by (intros ->; apply (Hdis key Hy); left). set_solver. }
      rewrite EP in Eo. rewrite take_app_ge in Eo by lia.
      destruct (Z.to_nat (capacity d) - length P)%nat as [|m] eqn:Em; [lia|]. cbn [take] in Eo.
      exists P, (take m (remove_key k post)), x. split; [done|]. split.
      { intros y [->|[Hy _]%elem_of_remove_key]%elem_of_cons; set_solver. }
      split; [|done]. rewrite Eold; [done|congruence|]. rewrite Eo. set_solver.
Qed.

(** The other keys asked about. *)
Definition other_keys (key : string) (calls : list (string * time)) : gset string :=
  list_to_set (map fst calls) ∖ {[key]}.

Lemma held_run key S e calls d :
  lru_ok d -> key <> ""%string -> held key S e d ->
  Z.of_nat (size ((list_to_set (map fst calls) ∪ S) ∖ {[key]})) < capacity d ->
  held key (list_to_set (map fst calls) ∪ S) e (allow_all calls d).
Proof.
  intros Hok Hkey. revert S d Hok. induction calls as [|[k t] calls IH]; intros S d Hok Hh Hsize.
  { cbn in *. destruct Hh as (pre & post & x & ? & ? & ?). exists pre, post, x. set_solver. }
  cbn [map fst list_to_set] in *. destruct (Allow_frame k t d Hok) as (Hok' & Ec & _).
  assert (list_to_set (map fst calls) ∪ ({[k]} ∪ S) = {[k]} ∪ list_to_set (map fst calls) ∪ S) as Hset
    by set_solver.
  rewrite <- Hset in Hsize |- *.
  change (allow_all ((k, t) :: calls) d) with (allow_all calls (Allow k t d).2).
  apply IH; [done| |by rewrite Ec]. apply key_held_step; [done..|].
  pose proof (subseteq_size (({[k]} ∪ S) ∖ {[key]})
    ((list_to_set (map fst calls) ∪ ({[k]} ∪ S)) ∖ {[key]}) ltac:(set_solver)). lia.
Qed.

(** A key let through is suppressed until its expiry, while fewer other keys
    than the filter holds are asked about. *)
Lemma window_holds key t0 calls t d :
  lru_ok d -> key <> ""%string -> (Allow key t0 d).1 = false ->
  t < Add t0 (ttl d) -> Z.of_nat (size (other_keys key calls)) < capacity d ->
  (Allow key t (allow_all calls (Allow key t0 d).2)).1 = true.
Proof.
  intros Hok Hkey H0 Ht Hsize. destruct (Allow_frame key t0 d Hok) as (Hok1 & Ec & Et).
  pose proof (Allow_spec key t0 d Hok Hkey) as H. destruct (Allow key t0 d) as [seen d1]. cbn in H0. subst seen.
  cbn [snd] in *. destruct H as (_ & _ & _ & _ & Eo & En & _).
  assert (held key ∅ (Add t0 (ttl d)) d1) as Hh.
  { pose proof (lru_capacity _ Hok). destruct (Z.to_nat (capacity d)) as [|m] eqn:Em; [lia|].
    exists [], (take m (remove_key key (order d))), (Add t0 (ttl d)). split; [done|]. split; [set_solver|done]. }
  apply (held_run key ∅ _ calls) in Hh; [|done..|].
  - destruct Hh as (_ & _ & x & _ & _ & Ex & Hx). unfold Allow. rewrite (proj2 (String.eqb_neq _ _) Hkey), Ex.
    unfold Before. by destruct (Z.ltb_spec t x); [|lia].
  - rewrite Ec. unfold other_keys in Hsize. by rewrite union_empty_r_L.
Qed.

(** Every expiry in the filter is that of a call that was let through. *)
Lemma expiry_from_call cap tt calls key e :
  key <> ""%string ->
  expires (allow_all calls (newDedupeLRU cap tt)) !! key = Some e ->
  exists pre t0 post, calls = pre ++ (key, t0) :: post /\
    (Allow key t0 (allow_all pre (newDedupeLRU cap tt))).1 = false /\
    e = Add t0 (ttl (newDedupeLRU cap tt)).
Proof.
  intros Hkey. set (d0 := newDedupeLRU cap tt). induction calls as [|[k t] calls IH] using rev_ind.
  { cbn. by rewrite lookup_empty. }
  rewrite allow_all_app. cbn [allow_all foldl fst snd].
  destruct (allow_all_like calls d0 (new_lru_ok _ _)) as (Hok & _ & Et).
  set (d := allow_all calls d0) in *. intros He.
  assert (expires d !! key = Some e \/ k = key /\ (Allow k t d).1 = false /\ e = Add t (ttl d)) as [H|(-> & H & ->)].
  { destruct (decide (k = ""%string)) as [->|Hk]; [by left|].
    pose proof (Allow_spec k t d Hok Hk) as H. destruct (Allow k t d) as [[] d'].
    - destruct H as (_ & _ & _ & _ & E & _). left. by rewrite <- E.
    - destruct H as (Hok' & _ & _ & _ & _ & En & Eold). cbn [snd fst] in *.
      destruct (decide (k = key)) as [->|Hne]; [right; split; [done|]; split; [done|congruence]|].
      left. rewrite <- Eold; [done|done|]. apply (lru_keys _ Hok'). eauto. }
  - destruct (IH H) as (pre & t0 & post & -> & Hf & ->). exists pre, t0, (post ++ [(k, t)]).
    by rewrite <- app_assoc.
  - exists calls, t, []. by rewrite Et.
Qed.

(** The filter suppresses within the window: whatever was asked before, a key is
    suppressed only within its lifetime after a time it was let through, and
    after being let through it is suppressed for its whole lifetime as long as
    fewer other keys were asked about since than the filter holds. *)
Theorem badge_filter_window cap tt calls key t :
  key <> ""%string ->
  let d0 := newDedupeLRU cap tt in
  let passed pre t0 := (Allow key t0 (allow_all pre d0)).1 = false in
  ((Allow key t (allow_all calls d0)).1 = true ->
     exists pre t0 post, calls = pre ++ (key, t0) :: post /\ passed pre t0 /\ t < Add t0 (ttl d0)) /\
  (forall pre t0 post, calls = pre ++ (key, t0) :: post -> passed pre t0 -> t < Add t0 (ttl d0) ->
     Z.of_nat (size (other_keys key post)) < capacity d0 ->
     (Allow key t (allow_all calls d0)).1 = true).
Proof.
  intros Hkey d0 passed. destruct (allow_all_like calls d0 (new_lru_ok _ _)) as (Hok & _ & _). split.
  - intros H. pose proof (Allow_spec key t _ Hok Hkey) as Hs.
    destruct (Allow key t (allow_all calls d0)) as [seen d']. cbn in H. subst seen.
    destruct Hs as (_ & (e & He & Hlt) & _).
    destruct (expiry_from_call _ _ _ _ _ Hkey He) as (pre & t0 & post & -> & Hp & ->).
    by exists pre, t0, post.
  - intros pre t0 post -> Hp Ht Hsize.
    destruct (allow_all_like pre d0 (new_lru_ok _ _)) as (Hok' & Ec & Et).
    rewrite allow_all_app. apply window_holds; [done|done|done|by rewrite Et|by rewrite Ec].
Qed.

(** ** Emissions *)

(** What the emission of one turn can do. *)
Inductive emission (o : BOracle) (recorder : bool) (u ses turn text : string) (n : nat) (s s' : emitter) : Prop :=
| Silent : em_wire s' = em_wire s -> em_ledger s' = em_ledger s -> emission o recorder u ses turn text n s s'
| Shown (h : VoiceHit) (ledger : list RecordedHit) :
    let b := NewFeedbackBadge (vh_BadgeLabel h) (bc_ID (vh_Block h)) (vh_Tier h) ses turn in
    bo_detect o (S n) (mkHitRequest u ses turn text) = Ok (HitDecisionHit h) ->
    DedupeKey b <> ""%string ->
    let before := allow_all (bo_env o (S (S n))) (em_dedupe s) in
    (Allow (DedupeKey b) (bo_now o (S (S n))) before).1 = false ->
    em_dedupe s' = (Allow (DedupeKey b) (bo_now o (S (S n))) before).2 ->
    em_wire s' = em_wire s ++ [b] ->
    em_ledger s' = em_ledger s ++ ledger ->
    (ledger = [] \/ recorder = true /\ exists ms, ledger = [mkRecordedHit u ses turn (bc_ID (vh_Block h)) ms]) ->
    emission o recorder u ses turn text n s s'.

Lemma EmitSync_run o det rec u ses turn text n s r m s' :
  run_prog o (EmitSync det rec u ses turn text) n s = (r, m, s') ->
  emission o rec u ses turn (TrimSpace text) n s s'.
Proof.
  unfold EmitSync. destruct (String.eqb (TrimSpace text) ""); [intros [= _ _ <-]; by constructor|].
  destruct det; [|intros [= _ _ <-]; by constructor]. cbn [negb]. unfold doEmit.
  cbn [bind call run_prog perform runs_badge perform_badge].
  destruct (bo_detect o (S n) _) as [[|h]|e] eqn:Ed; cbn [bind call run_prog perform runs_badge perform_badge];
    [intros [= _ _ <-]; by constructor| |intros [= _ _ <-]; by constructor].
  set (b := NewFeedbackBadge _ _ _ _ _).
  destruct (String.eqb (DedupeKey b) "") eqn:Ek; [intros [= _ _ <-]; by constructor|].
  apply String.eqb_neq in Ek. cbn [bind call run_prog perform runs_badge perform_badge em_dedupe em_stats].
  destruct (Allow (DedupeKey b) (bo_now o (S (S n))) _) as [seen d] eqn:Ea. destruct seen.
  { intros [= _ _ <-]. by constructor. }
  cbn [bind call run_prog perform runs_badge perform_badge].
  destruct (bo_write o _ b) as [|e] eqn:Ew; cbn [bind call run_prog perform runs_badge perform_badge];
    [|intros [= _ _ <-]; by constructor].
  assert (forall l, (l = [] \/ rec = true /\ exists ms, l = [mkRecordedHit u ses turn (bc_ID (vh_Block h)) ms]) ->
    em_dedupe s' = d -> em_wire s' = em_wire s ++ [b] -> em_ledger s' = em_ledger s ++ l ->
    emission o rec u ses turn (TrimSpace text) n s s') as Hshown.
  { intros l Hl E1 E2 E3. eapply (Shown _ _ _ _ _ _ _ _ _ h l); try done; unfold b in Ea; by rewrite Ea. }
  unfold recordHit. destruct rec; cbn [negb bind call run_prog perform runs_badge perform_badge].
  - match goal with |- context [bo_record o ?k ?x] => destruct (bo_record o k x) eqn:Er end;
      cbn [bind call run_prog perform runs_badge perform_badge]; intros [= _ _ <-].
    + eapply Hshown; [right; split; [done|]; eexists; reflexivity|done..].
    + apply (Hshown []); [by left|done|done|by rewrite app_nil_r].
  - intros [= _ _ <-]. apply (Hshown []); [by left|done|done|by rewrite app_nil_r].
Qed.

(** C6: A badge is shown once: after an emission wrote a badge, an emission of the
    same filter within its lifetime, with fewer other keys asked about in
    between than the filter holds, never writes a badge with the same key —
    the same session, turn and phrase. *)
Theorem badge_shown_once o o2 det rec u ses turn text det2 rec2 u2 ses2 turn2 text2 n n2 s m s1 b calls s2 m2 s3 :
  lru_ok (em_dedupe s) ->
  run_prog o (EmitSync det rec u ses turn text) n s = (tt, m, s1) ->
  em_wire s1 = em_wire s ++ [b] ->
  em_dedupe s2 = allow_all calls (em_dedupe s1) ->
  run_prog o2 (EmitSync det2 rec2 u2 ses2 turn2 text2) n2 s2 = (tt, m2, s3) ->
  bo_now o2 (S (S n2)) < Add (bo_now o (S (S n))) (ttl (em_dedupe s)) ->
  Z.of_nat (size (other_keys (DedupeKey b) (calls ++ bo_env o2 (S (S n2))))) < capacity (em_dedupe s) ->
  em_wire s3 = em_wire s2 \/
  exists b', em_wire s3 = em_wire s2 ++ [b'] /\ DedupeKey b' <> DedupeKey b.
Proof.
  intros Hok H1 Hb Hc H2 Ht Hsize.
  apply EmitSync_run in H1 as [E _|h ledger b1 _ Hkey before Hfresh Ed Ew _ _].
  { exfalso. rewrite E in Hb. apply (f_equal length) in Hb. rewrite length_app in Hb. cbn in Hb. lia. }
  assert (b = b1) as -> by (rewrite Ew in Hb; apply app_inv_head in Hb; by injection Hb).
  apply EmitSync_run in H2 as [E _|h2 ledger2 b2 _ Hkey2 before2 Hfresh2 _ Ew2 _ _]; [by left|right].
  exists b2. split; [done|]. intros Heq. rewrite Heq in Hfresh2.
  destruct (allow_all_like (bo_env o (S (S n))) _ Hok) as (Hok1 & Ec & Et). fold before in Hok1, Ec, Et.
  assert (before2 = allow_all (calls ++ bo_env o2 (S (S n2)))
                     (Allow (DedupeKey b1) (bo_now o (S (S n))) before).2) as E2
    by (unfold before2; by rewrite allow_all_app, Hc, Ed).
  rewrite E2, window_holds in Hfresh2; [done|done|done|done|by rewrite Et|by rewrite Ec].
Qed.

(** A turn and what it runs against. *)
Record turn_call := mkTurnCall {
  tc_oracle : BOracle; tc_detector : bool; tc_recorder : bool;
  tc_user : string; tc_session : string; tc_turn : string; tc_text : string;
}.
Definition emit_turn (s : emitter) (c : turn_call) : emitter :=
  (run_prog (tc_oracle c) (EmitSync (tc_detector c) (tc_recorder c) (tc_user c) (tc_session c)
     (tc_turn c) (tc_text c)) 0 s).2.
Definition new_emitter (cap : Z) (t : duration) : emitter :=
  mkEmitter (newDedupeLRU cap t) (mkStats 0 0 0 0 0 0 0 0) [] [].

(** Whatever reached the ledger was shown: in every sequence of emissions each
    recorded hit names a badge on the wire, and no more hits were recorded than
    badges written. *)
Theorem recorded_hits_were_shown cap t calls :
  let s := foldl emit_turn (new_emitter cap t) calls in
  (length (em_ledger s) <= length (em_wire s))%nat /\
  forall h, h ∈ em_ledger s -> exists b, b ∈ em_wire s /\
    PhraseBlockID b = rh_BlockID h /\ SessionID b = rh_SessionID h /\ TurnID b = rh_TurnID h.
Proof.
  apply (foldl_keeps emit_turn (fun s => (length (em_ledger s) <= length (em_wire s))%nat /\
    forall h, h ∈ em_ledger s -> exists b, b ∈ em_wire s /\
      PhraseBlockID b = rh_BlockID h /\ SessionID b = rh_SessionID h /\ TurnID b = rh_TurnID h)).
  2: { split; [done|]. cbn. set_solver. }
  intros s c _ [Hlen Hs]. unfold emit_turn.
  destruct (run_prog (tc_oracle c) _ 0 s) as [[[] m] s'] eqn:E. cbn [snd].
  apply EmitSync_run in E as [-> ->|h ledger b _ _ before _ _ -> -> Hl]; [done|].
  rewrite !length_app. cbn [length]. destruct Hl as [->|(_ & ms & ->)].
  - rewrite app_nil_r. split; [cbn; lia|]. intros x Hx. destruct (Hs x Hx) as (b' & Hb' & H).
    exists b'. split; [set_solver|done].
  - split; [cbn; lia|]. intros x [Hx| ->%list_elem_of_singleton]%elem_of_app.
    + destruct (Hs x Hx) as (b' & Hb' & H). exists b'. split; [set_solver|done].
    + exists b. split; [set_solver|done].
Qed.

(** ** A failed write is not repeated

    Allow records the key before the badge is written: when the write fails the
    same badge is suppressed all the same until the key expires. *)
Definition one_hit : VoiceHit := mkVoiceHit (mkCandidate "b1" "touch base" "" "" "standup" "report")
  (S754_zero false) "touch base" "soft".
Definition hit_oracle (write_fails : bool) (t : time) : BOracle :=
  mkBOracle (fun _ _ => Ok (HitDecisionHit one_hit))
    (fun _ _ => if write_fails then Err "broken pipe"%string else Ok tt)
    (fun _ _ => Ok tt) (fun _ => t) (fun _ => []).
Definition one_turn (write_fails : bool) (t : time) : turn_call :=
  mkTurnCall (hit_oracle write_fails t) true true "u1" "s1" "t1" "let us touch base".

Lemma failed_write_is_not_repeated :
  em_wire (foldl emit_turn (new_emitter 0 0) [one_turn true 0; one_turn false 1]) = [] /\
  length (em_wire (foldl emit_turn (new_emitter 0 0) [one_turn false 0; one_turn false 1])) = 1%nat.
Proof. by vm_compute. Qed.

Lemma badge_filter_window_witness :
  "k"%string <> ""%string /\
  (Allow "k" 4 (allow_all [("k", 0); ("j", 1)] (newDedupeLRU 2 10))).1 = true.
Proof.
  split; [done|].
  destruct (badge_filter_window 2 10 [("k"%string, 0); ("j"%string, 1)] "k" 4) as [_ H]; [done|].
  apply (H [] 0 [("j"%string, 1)]); vm_compute; reflexivity.
Defined.

Lemma badge_shown_once_witness :
  exists s1 b s3, emit_turn (new_emitter 0 0) (one_turn false 0) = s1 /\ em_wire s1 = [b] /\
    emit_turn s1 (one_turn false 1) = s3 /\
    (em_wire s3 = em_wire s1 \/ exists b', em_wire s3 = em_wire s1 ++ [b'] /\ DedupeKey b' <> DedupeKey b).
Proof.
  set (s1 := emit_turn (new_emitter 0 0) (one_turn false 0)).
  set (b := NewFeedbackBadge "touch base" "b1" "soft" "s1" "t1").
  assert (em_wire s1 = [b]) as Hb by (vm_compute; reflexivity).
  exists s1, b, (emit_turn s1 (one_turn false 1)).
  split; [reflexivity|]. split; [exact Hb|]. split; [reflexivity|].
  destruct (run_prog (tc_oracle (one_turn false 0)) (EmitSync true true "u1" "s1" "t1" "let us touch base") 0
              (new_emitter 0 0)) as [[[] m] s1'] eqn:E1.
  assert (s1' = s1) as -> by (unfold s1, emit_turn; cbn [tc_oracle tc_detector tc_recorder tc_user tc_session tc_turn tc_text one_turn] in *; by rewrite E1).
  destruct (run_prog (tc_oracle (one_turn false 1)) (EmitSync true true "u1" "s1" "t1" "let us touch base") 0 s1)
    as [[[] m2] s3] eqn:E2.
  assert (emit_turn s1 (one_turn false 1) = s3) as -> by (unfold emit_turn; cbn [tc_oracle tc_detector tc_recorder tc_user tc_session tc_turn tc_text one_turn] in *; by rewrite E2).
  apply (badge_shown_once _ _ _ _ _ _ _ _ _ _ _ _ _ _ _ _ (new_emitter 0 0) m s1 b [] s1 m2 s3
           (new_lru_ok 0 0) E1 Hb eq_refl E2); vm_compute; reflexivity.
Defined.
