(* ===== verification/Conversation.v ===== *)
(** * Conversation: what to offer a learner who is stuck ([internal/conversation])

    The detector of half-finished sentences, and the generator of the three
    rungs of the rescue ladder behind a language model.  The model is a function
    argument; the temperature of its requests, always 0.7, is left out. *)
From stdpp Require Import pretty.
From S2P Require Import Prelude GoString GoUnicode GoJson ApiErr Silence.

Open Scope Z_scope.

(** ** incomplete_detector.go *)

(** [unicode.IsSpace] *)
Definition IsSpace (r : Z) : bool :=
  in_range 9 r 13 || (r =? 32) || (r =? 133) || (r =? 160) || (r =? 5760) || in_range 8192 r 8202
  || (r =? 8232) || (r =? 8233) || (r =? 8239) || (r =? 8287) || (r =? 12288).

(** [strings.Fields], as runes. *)
Definition Fields (s : string) : list (list Z) := rune_fields IsSpace [] (runes (to_bytes s)).

Definition conjunctions : list string :=
  [" but"; " and"; " because"; " so"; " if"; " when"; " although"; " though"]%string.

Definition verbs : list string :=
  [" is "; " are "; " was "; " were "; " am "; " have "; " has "; " had "; " do "; " does "; " did ";
   " will "; " would "; " can "; " could "; " should "]%string.

Definition containsVerb (text : string) : bool :=
  existsb (Contains (" " +:+ text +:+ " ")) verbs.

Definition IsIncomplete (userText : string) : bool :=
  let text := TrimSpace (ToLower userText) in
  if String.eqb text "" then false else
  if existsb (HasSuffix text) conjunctions then true else
  if HasSuffix text "..." || HasSuffix text "--" then true else
  let words := Fields text in
  (2 <=? length words)%nat && (length words <? 3)%nat && negb (containsVerb text).

Example stops_at_because : IsIncomplete "I chose it because" = true.
Proof. vm_compute. reflexivity. Qed.
Example one_word : IsIncomplete "Sure" = false.
Proof. vm_compute. reflexivity. Qed.

(** ** rescue_generator.go *)

Record Turn := mkConvTurn { Speaker : string; Content : string }.

Record ConversationContext := mkConv {
  LastAIMessage : string;
  ScenarioContext : string;
  UserRole : string;
  RecentTurns : list Turn;
  cv_SessionID : string;
  cv_UserID : string;
  cv_TurnID : string;
}.

(** The sampling temperature, 0.7 in every call, is left out. *)
Record CompletionOptions := mkCompletionOptions { MaxTokens : Z; Model : string }.

(** A tilde stands for a double quote. *)
Definition quoted_text (s : string) : string :=
  of_bytes (map (fun a => if Ascii.eqb a "~" then dquote else a) (to_bytes s)).

Definition skeleton_prompt (conv : ConversationContext) : string :=
  quoted_text "You are helping a non-native English speaker who got stuck in conversation.

Last AI question: " +:+ LastAIMessage conv +:+
  quoted_text "
Scenario context: " +:+ ScenarioContext conv +:+
  quoted_text "
User's role: " +:+ UserRole conv +:+
  quoted_text "

Generate a sentence starter (skeleton) that helps the user continue.
**At most 12 words** — the user has to finish this sentence out loud, so it must
leave them room to speak, not deliver the answer for them. Then:
- Start the sentence structure for the user
- End with ~...~ to indicate the user should complete it
- Be natural and directly address the AI's question

Examples of good skeletons:
- ~I think the main risk is...~
- ~The key difference between X and Y is...~
- ~Let me explain why...~
- ~The solution would be...~

Return ONLY the skeleton (one line), no explanation.".

Definition hint_prompt (conv : ConversationContext) : string :=
  quoted_text "用户在英语对话中卡壳了，需要用中文给一个思路提示。

上一个 AI 问题：" +:+ LastAIMessage conv +:+
  quoted_text "
场景上下文：" +:+ ScenarioContext conv +:+
  quoted_text "
用户角色：" +:+ UserRole conv +:+
  quoted_text "

用一句简短的中文（10-20字）提示用户应该如何组织回答（思路提示，不给具体英文）。

好的提示例子：
- ~先说结论，再说原因~
- ~可以举个具体例子~
- ~说说你的顾虑是什么~
- ~对比一下两个方案~

只返回提示语，不要解释或多余的话。".

Definition complete_prompt (conv : ConversationContext) (recentHistory : string) : string :=
  quoted_text "Generate a complete, natural English response for a programmer in this conversation.

Last AI question: " +:+ LastAIMessage conv +:+
  quoted_text "
Scenario context: " +:+ ScenarioContext conv +:+
  quoted_text "
User's role: " +:+ UserRole conv +:+
  quoted_text "
" +:+ recentHistory +:+
  quoted_text "

Generate ONE complete sentence the learner can repeat out loud, right now, from memory.

**At most 12 words. This is the requirement, not a preference** — the learner
has to say this sentence in one breath, from memory, while sitting in silence.
A 50-word answer is not a ladder, it is a passage to read aloud, and they will
freeze on it exactly as they froze on the question. Then:
- One sentence, no stacked clauses (no ~which…, and I'm working to…~ chains)
- Stay inside what this conversation already mentions; do not introduce new specifics
- Keep it simple and professional, using the learner's own technical terms

Return ONLY the sentence, no explanation, no quotes.".

Section generator.
(** The model behind [LLMClient.Complete]. *)
Variable Complete : string -> CompletionOptions -> result error string.

Definition failed_to (what : string) (r : result error string) : result error string :=
  match r with Ok t => Ok t | Err e => Err (Errorf (what +:+ error_text e)) end.

Definition generateSkeleton (conv : ConversationContext) : result error string :=
  failed_to "failed to generate skeleton: " (Complete (skeleton_prompt conv) (mkCompletionOptions 40 "doubao-lite-32k")).

Definition generateHint (conv : ConversationContext) : result error string :=
  failed_to "failed to generate hint: " (Complete (hint_prompt conv) (mkCompletionOptions 40 "doubao-lite-32k")).

Definition line_break : string := String (byte_of 10) EmptyString.

Definition recent_history (turns : list Turn) : string :=
  match turns with
  | [] => ""
  | _ => foldl (fun acc t => acc +:+ Speaker t +:+ ": " +:+ Content t +:+ line_break) (line_break +:+ "Recent conversation:" +:+ line_break) turns
  end.

Definition generateComplete (conv : ConversationContext) : result error string :=
  failed_to "failed to generate complete response: "
    (Complete (complete_prompt conv (recent_history (RecentTurns conv))) (mkCompletionOptions 40 "doubao-pro-32k")).

Definition GenerateRescue (level : Z) (conv : ConversationContext) : result error string :=
  if level =? RescueLevelSkeleton then generateSkeleton conv
  else if level =? RescueLevelHint then generateHint conv
  else if level =? RescueLevelComplete then generateComplete conv
  else Err (Errorf ("unknown rescue level: " +:+ pretty level)).
End generator.
