(* ===== verification/Rescue.v ===== *)
(** * The rescue ladder of a voice session ([internal/voicegateway])

    [handler_rescue.go] and [rescue_orchestrator.go]: when a learner falls
    silent the gateway generates the next rung of the ladder, sends it as text,
    speaks it, and stops speaking when the learner does.  A rung is generated by
    a goroutine of its own while the poller, the read loop and the goroutines
    that relay the model's speech go on; each is a program whose steps are the
    critical sections of the source, interleaved at the end of the file. *)
From S2P Require Import Prelude GoString GoTime GoJson ApiErr Frames Audio Turn Silence RescueLog Conversation Prog.

Open Scope Z_scope.
Open Scope prog_scope.

(** ** What goes to the client

    Binary frames carry audio; of the control frames those the ladder and the
    turn machine look at are kept apart. *)
Inductive Frame :=
| RescueLadder (TurnID : string) (Level : Z) (Text : string) (TS : Z)
| TTSStart (TurnID VoiceID : string) (SampleRate : Z) (Codec : string) (TurnRef : option Z)
| TTSEnd (TurnID CompletionStatus : string) (DurationMs : option Z) (TurnRef : option Z)
| TextDelta (Text TurnID : string) (ServerTsMs : Z)
| TurnEnd (TurnID Outcome LogID : string) (SessionComplete : bool)
| ASRTranscription (Text TurnID : string)
| ErrorFrame (Code Message : string)
| Pong (TS : Z)
| SessionEndAck
| OtherControl (Type_ : string)
| BinaryFrame (raw : bytes).

(** [ProviderOutbound]: at most one of the first two is written. *)
Record Outbound := mkOutbound {
  ob_Control : option Frame;
  ob_Binary : bytes;
  ob_ServerASRText : string;
}.

Definition writable (item : Outbound) : bool :=
  match ob_Control item, ob_Binary item with None, [] => false | _, _ => true end.

Definition writableOutbound (outbound : list Outbound) : bool := existsb writable outbound.

(** [writeProviderOutbound]: the frames of the items, in order. *)
Definition frames_of (outbound : list Outbound) : list Frame :=
  concat (map (fun item => match ob_Control item, ob_Binary item with
                           | Some f, _ => [f]
                           | None, [] => []
                           | None, raw => [BinaryFrame raw]
                           end) outbound).

Fixpoint extractServerASRText (outbound : list Outbound) : string :=
  match outbound with
  | [] => ""
  | item :: outbound =>
      if negb (String.eqb (ob_ServerASRText item) "") then ob_ServerASRText item
      else extractServerASRText outbound
  end.

(** ** rescue_orchestrator.go *)

Record RescueAudio := mkRescueAudio {
  ra_PCM : bytes;
  ra_SampleRate : Z;
  ra_Codec : string;
  ra_VoiceID : string;
}.

Definition fallbackLibrary (level : Z) : option (list string) :=
  if level =? RescueLevelSkeleton then
    Some ["I think..."; "The key point is..."; "In my view..."; "From my perspective..."]%string
  else if level =? RescueLevelHint then Some ["先说结论"; "举个例子"; "分几点说"; "用因果关系"]%string
  else if level =? RescueLevelComplete then
    Some ["I think we should consider the trade-offs carefully."; "The main benefit is that it improves efficiency.";
          "One concern I have is the maintenance cost."]%string
  else None.

Definition getFallback (level : Z) : string :=
  match fallbackLibrary level with
  | Some (text :: _) => text
  | _ => "I think..."
  end.

(** ** The runtime of a session *)

Record ConsumedTicket := mkTicket { tk_SessionID : string; tk_UserID : string }.

(** The part of [sessionRuntime] the ladder works on.  [rt_speechGen] is a
    [uint64]. *)
Record Runtime := mkRuntime {
  rt_turn : option Turn.Turn;
  rt_detector : SilenceDetector;
  rt_log : rescueLog;
  rt_conv : ConversationContext;
  rt_rescueTurnID : string;
  rt_inFlight : bool;
  rt_speechTurn : string;
  rt_speechGen : Z;
  rt_speechRef : option Z;
  rt_turnRefs : option TurnRefAllocator;
  rt_audioSeq : option SeqAllocator;
}.

Definition uint64 (z : Z) : Z := z mod 2 ^ 64.

Definition set_turn (t : option Turn.Turn) (rt : Runtime) : Runtime :=
  mkRuntime t (rt_detector rt) (rt_log rt) (rt_conv rt) (rt_rescueTurnID rt) (rt_inFlight rt) (rt_speechTurn rt)
    (rt_speechGen rt) (rt_speechRef rt) (rt_turnRefs rt) (rt_audioSeq rt).
Definition set_detector (d : SilenceDetector) (rt : Runtime) : Runtime :=
  mkRuntime (rt_turn rt) d (rt_log rt) (rt_conv rt) (rt_rescueTurnID rt) (rt_inFlight rt) (rt_speechTurn rt)
    (rt_speechGen rt) (rt_speechRef rt) (rt_turnRefs rt) (rt_audioSeq rt).
Definition set_log (l : rescueLog) (rt : Runtime) : Runtime :=
  mkRuntime (rt_turn rt) (rt_detector rt) l (rt_conv rt) (rt_rescueTurnID rt) (rt_inFlight rt) (rt_speechTurn rt)
    (rt_speechGen rt) (rt_speechRef rt) (rt_turnRefs rt) (rt_audioSeq rt).
Definition set_conv (c : ConversationContext) (id : string) (rt : Runtime) : Runtime :=
  mkRuntime (rt_turn rt) (rt_detector rt) (rt_log rt) c id (rt_inFlight rt) (rt_speechTurn rt)
    (rt_speechGen rt) (rt_speechRef rt) (rt_turnRefs rt) (rt_audioSeq rt).
Definition set_inFlight (b : bool) (rt : Runtime) : Runtime :=
  mkRuntime (rt_turn rt) (rt_detector rt) (rt_log rt) (rt_conv rt) (rt_rescueTurnID rt) b (rt_speechTurn rt)
    (rt_speechGen rt) (rt_speechRef rt) (rt_turnRefs rt) (rt_audioSeq rt).
Definition set_speech (turn : string) (gen : Z) (ref : option Z) (refs : option TurnRefAllocator) (rt : Runtime) : Runtime :=
  mkRuntime (rt_turn rt) (rt_detector rt) (rt_log rt) (rt_conv rt) (rt_rescueTurnID rt) (rt_inFlight rt) turn gen ref
    refs (rt_audioSeq rt).
Definition set_audioSeq (a : option SeqAllocator) (rt : Runtime) : Runtime :=
  mkRuntime (rt_turn rt) (rt_detector rt) (rt_log rt) (rt_conv rt) (rt_rescueTurnID rt) (rt_inFlight rt) (rt_speechTurn rt)
    (rt_speechGen rt) (rt_speechRef rt) (rt_turnRefs rt) a.

Definition with_conv (last scenario : string) (turns : list Conversation.Turn) (c : ConversationContext) : ConversationContext :=
  mkConv last scenario (UserRole c) turns (cv_SessionID c) (cv_UserID c) (cv_TurnID c).

(** A runtime as the loop builds it. *)
Definition new_runtime (sessionID : string) (t : RescueThresholds) : Runtime :=
  mkRuntime (Some (NewTurn sessionID)) (NewSilenceDetectorWithThresholds t) emptyLog
    (mkConv "" "" "" [] "" "" "") "" false "" 0 None (Some (mkTurnRef 0)) (Some NewSeqAllocator).

(** ** Bookkeeping of what is said *)

Definition rescueRecentTurns : nat := 4.

(** The newest [rescueRecentTurns] turns. *)
Definition trimTurns (turns : list Conversation.Turn) (turn : Conversation.Turn) : list Conversation.Turn :=
  let turns := turns ++ [turn] in
  if (rescueRecentTurns <? length turns)%nat then drop (length turns - rescueRecentTurns) turns else turns.

Definition appendRecentTurn (speaker content : string) (rt : Runtime) : Runtime :=
  let content := TrimSpace content in
  if String.eqb content "" then rt else
  let c := rt_conv rt in
  set_conv (with_conv (LastAIMessage c) (ScenarioContext c) (trimTurns (RecentTurns c) (mkConvTurn speaker content)) c)
    (rt_rescueTurnID rt) rt.

Definition sealAITurn (rt : Runtime) : Runtime :=
  let c := rt_conv rt in
  let text := TrimSpace (LastAIMessage c) in
  let turns := if String.eqb text "" then RecentTurns c else trimTurns (RecentTurns c) (mkConvTurn "ai" text) in
  set_conv (with_conv "" (ScenarioContext c) turns c) (rt_rescueTurnID rt) rt.

(** The turn id a marker carries, when it carries one. *)
Definition named (turnID old : string) : string :=
  let tr := TrimSpace turnID in if String.eqb tr "" then old else tr.

Definition appendAIText (text turnID : string) (rt : Runtime) : Runtime :=
  if String.eqb text "" && String.eqb (TrimSpace turnID) "" then rt else
  let c := rt_conv rt in
  set_conv (with_conv (LastAIMessage c +:+ text) (ScenarioContext c) (RecentTurns c) c)
    (named turnID (rt_rescueTurnID rt)) rt.

Definition isAIOutput (item : Outbound) : bool :=
  match ob_Binary item with
  | _ :: _ => true
  | [] => match ob_Control item with
          | Some (TextDelta _ _ _) | Some (TTSStart _ _ _ _ _) => true
          | _ => false
          end
  end.

Definition noteAITurnEnd (now : time) (turnID outcome : string) (spoke : bool) (rt : Runtime) : Runtime :=
  if negb spoke || negb (turnOutcomeSpoke outcome) then rt else
  let rt := set_conv (rt_conv rt) (named turnID (rt_rescueTurnID rt)) rt in
  let rt := set_log (closeEpisode (rt_log rt)) rt in
  set_detector (OnAISpeechEnd now (rt_detector rt)) rt.

(** ** The steps of the goroutines

    [Atomic] is a critical section of the runtime; [SendFrame] one write under
    the write lock, which may fail; the model and the synthesizer answer at their
    own pace. *)
Inductive rungE : Type -> Type :=
| Atomic (f : Runtime -> Runtime) : rungE unit
| Snapshot_ : rungE (ConversationContext * string)
| Generate_ (level : Z) (conv : ConversationContext) : rungE (result error string)
| Clock : rungE time
| SendFrame (f : Frame) : rungE bool
| Synthesize (text turnID : string) : rungE (result error RescueAudio)
| Begin_ (turnID : string) : rungE (Z * option Z)
| Current (token : Z) : rungE bool
| NextSeq : rungE Z
| Stop_ : rungE (option (string * option Z)).

Abbreviation gprog := (program rungE).

Section session.
(** Whether both halves of the rescue were wired, whether a synthesizer was, and
    whom the session belongs to. *)
Variable enabled has_synth : bool.
Variable session : ConsumedTicket.

(** One item of [noteProviderOutbound]. *)
Definition note_item (now : time) (rt : Runtime) (item : Outbound) : Runtime :=
  let rt := if isAIOutput item then set_turn (NoteFirstOutput (rt_turn rt)).2 rt else rt in
  match ob_Control item with
  | None => rt
  | Some control =>
      let '(spoke, t) :=
        match control with
        | TTSEnd _ _ _ _ | TurnEnd _ _ _ _ => NoteAIEnd (rt_turn rt)
        | _ => (false, rt_turn rt)
        end in
      let rt := set_turn t rt in
      if negb enabled then rt else
      match control with
      | TextDelta text turnID _ => appendAIText text turnID rt
      | TTSEnd turnID _ _ _ => noteAITurnEnd now turnID "" spoke rt
      | TurnEnd turnID outcome _ _ => noteAITurnEnd now turnID outcome spoke rt
      | _ => rt
      end
  end.

Definition noteProviderOutbound (now : time) (outbound : list Outbound) (rt : Runtime) : Runtime :=
  foldl (note_item now) rt outbound.

Definition noteScenario (sceneType materialID : string) (rt : Runtime) : Runtime :=
  if negb enabled then rt else
  let scene := TrimSpace sceneType in
  let scene := if String.eqb scene "" then TrimSpace materialID else scene in
  let c := rt_conv rt in
  set_conv (with_conv (LastAIMessage c) scene (RecentTurns c) c) (rt_rescueTurnID rt) rt.

Definition noteUserSpeechStart (rt : Runtime) : Runtime :=
  let rt := set_turn (Apply (rt_turn rt) EvUserSpeechStart).2 rt in
  if negb enabled then rt else
  sealAITurn (set_detector (OnUserSpeechStart (rt_detector rt)) rt).

Definition noteUserUtteranceText (text : string) (rt : Runtime) : Runtime :=
  if negb enabled then rt else set_log (noteUserText text (rt_log rt)) rt.

Definition noteTurnAbort (rt : Runtime) : Runtime :=
  let rt := set_turn (Apply (rt_turn rt) EvTurnAbort).2 rt in
  if negb enabled then rt else set_detector (OnUserSpeechEnd false (rt_detector rt)) rt.

(** ** What the generator is told, and the token of the speaking rung *)

Definition rescueSnapshot (rt : Runtime) : ConversationContext * string :=
  let c := rt_conv rt in
  let turnID := TrimSpace (rt_rescueTurnID rt) in
  let turnID := if String.eqb turnID "" then tk_SessionID session else turnID in
  (mkConv (LastAIMessage c) (ScenarioContext c) (UserRole c) (RecentTurns c) (tk_SessionID session) (tk_UserID session)
     turnID, turnID).

Definition beginRescueSpeech (turnID : string) (rt : Runtime) : (Z * option Z) * Runtime :=
  let gen := uint64 (rt_speechGen rt + 1) in
  let (ref, refs) := NextRef (rt_turnRefs rt) in
  ((gen, ref), set_speech turnID gen ref refs rt).

Definition finishRescueSpeech (token : Z) (rt : Runtime) : Runtime :=
  if negb (rt_speechGen rt =? token) then rt
  else set_speech "" (rt_speechGen rt) None (rt_turnRefs rt) rt.

Definition rescueSpeechCurrent (token : Z) (rt : Runtime) : bool := rt_speechGen rt =? token.

(** The critical section of [stopRescueSpeech]: the stream to end, if a rung is
    being spoken. *)
Definition stop_speech (rt : Runtime) : option (string * option Z) * Runtime :=
  if String.eqb (rt_speechTurn rt) "" then (None, rt)
  else (Some (rt_speechTurn rt, rt_speechRef rt),
        set_speech "" (uint64 (rt_speechGen rt + 1)) None (rt_turnRefs rt) rt).

(** ** One rung *)

(** [GenerateAndSynthesize] with its [deliverText]; the rung's audio, if it
    could be synthesized, or [None] when the text did not reach the client. *)
Definition GenerateAndSynthesize (level : Z) (turnID : string) (conv : ConversationContext)
  : gprog (option (option RescueAudio)) :=
  if negb (ValidRescueLevel level) then Ret None else
  generated <- call (Generate_ level conv);
  let text := match generated with Ok text => text | Err _ => getFallback level end in
  now <- call Clock;
  delivered <- call (SendFrame (RescueLadder turnID level text (UnixMilli now)));
  if negb delivered then Ret None else
  _ <- call (Atomic (fun rt => set_log (noteLadder turnID level text (rt_log rt)) rt));
  if negb has_synth then Ret (Some None) else
  audio <- call (Synthesize text turnID);
  match audio with
  | Err _ => Ret (Some None)
  | Ok a => match ra_PCM a with [] => Ret (Some None) | _ :: _ => Ret (Some (Some a)) end
  end.

(** The whole frames of a recording and the rest. *)
Fixpoint whole_frames (fuel size : nat) (pcm : bytes) : list bytes * bytes :=
  match fuel with
  | O => ([], pcm)
  | S fuel =>
      if (size <=? length pcm)%nat then
        let (frames, rest) := whole_frames fuel size (drop size pcm) in (take size pcm :: frames, rest)
      else ([], pcm)
  end.

(** [audioFramer.encode] *)
Definition encode_frame (seq : Z) (ref : option Z) (payload : bytes) : bytes :=
  match Encode (mkAudio seq ref payload) with Ok raw => raw | Err _ => [] end.

(** [audioFramer.Write]: a number for each whole frame. *)
Fixpoint number_frames (ref : option Z) (payloads : list bytes) : gprog (list bytes) :=
  match payloads with
  | [] => Ret []
  | p :: payloads =>
      seq <- call NextSeq;
      frames <- number_frames ref payloads;
      Ret (encode_frame seq ref p :: frames)
  end.

(** The loop of [streamWriter.Audio]: [None] when a write failed. *)
Fixpoint write_frames (token : Z) (header : nat) (frames : list bytes) (sent : Z) : gprog (option Z) :=
  match frames with
  | [] => Ret (Some sent)
  | frame :: frames =>
      live <- call (Current token);
      if negb live then Ret (Some sent) else
      ok <- call (SendFrame (BinaryFrame frame));
      if negb ok then Ret None
      else write_frames token header frames (sent + (Z.of_nat (length frame) - Z.of_nat header))
  end.

(** [streamWriter.End] with [rest] in the framer. *)
Definition end_stream (turnID : string) (ref : option Z) (fmt : AudioFormat) (rest : bytes) (sent : Z) : gprog bool :=
  let header := HeaderBytes (AudioFrameLayoutFor ref) in
  let close sent :=
    let perMS := BytesPerMS fmt in
    let durationMS := if 0 <? perMS then Z.quot sent perMS else 0 in
    call (SendFrame (TTSEnd turnID "ok" (Some durationMS) ref)) in
  match rest with
  | [] => close sent
  | _ =>
      seq <- call NextSeq;
      let frame := encode_frame seq ref rest in
      ok <- call (SendFrame (BinaryFrame frame));
      if negb ok then Ret false else close (sent + (Z.of_nat (length frame) - Z.of_nat header))
  end.

Definition ladder_utterance (audio : RescueAudio) (turnID : string) : Utterance :=
  mkUtterance turnID UtteranceLadder (mkFormat (ra_SampleRate audio) 1 16) 0 (ra_VoiceID audio) (ra_Codec audio).

Definition sendRescueAudio (audio : RescueAudio) (turnID : string) (token : Z) (ref : option Z) : gprog bool :=
  let u := ladder_utterance audio turnID in
  if String.eqb (TrimSpace (UID u)) "" then Ret false else
  let fmt := formatOrClient u in
  started <- call (SendFrame (TTSStart (UID u) (VoiceID u) (SampleRate fmt) (codecOrPCM u) ref));
  if negb started then Ret false else
  let size := Z.to_nat (FrameBytes fmt (frameMSOrDefault u)) in
  let '(payloads, rest) := whole_frames (length (ra_PCM audio)) size (ra_PCM audio) in
  frames <- number_frames ref payloads;
  written <- write_frames token (HeaderBytes (AudioFrameLayoutFor ref)) frames 0;
  match written with
  | None => Ret false
  | Some sent =>
      live <- call (Current token);
      if negb live then Ret false else
      ok <- end_stream turnID ref fmt rest sent;
      if negb ok then Ret false else
      _ <- call (Atomic (finishRescueSpeech token));
      Ret true
  end.

Definition emitRescue (level : Z) : gprog unit :=
  snap <- call Snapshot_;
  let '(conv, turnID) := snap in
  delivery <- GenerateAndSynthesize level turnID conv;
  match delivery with
  | None => Ret tt
  | Some audio =>
      speech <- call (Begin_ turnID);
      match audio with
      | None => Ret tt
      | Some a => _ <- sendRescueAudio a turnID speech.1 speech.2; Ret tt
      end
  end.

(** The goroutine of a rung the silence earned releases the poller at its end. *)
Definition silence_rung (level : Z) : gprog unit :=
  _ <- emitRescue level; call (Atomic (set_inFlight false)).

(** ** The read loop *)

Definition stopRescueSpeech : gprog unit :=
  stopped <- call Stop_;
  match stopped with
  | None => Ret tt
  | Some (turnID, ref) => _ <- call (SendFrame (TTSEnd turnID "interrupted" None ref)); Ret tt
  end.

(** [user.speech.end] as decoded: its turn id and text, or nothing when it does
    not parse. *)
Definition noteUserSpeechEnd (end_ : option (string * string)) : gprog unit :=
  _ <- call (Atomic (fun rt => match end_ with
                               | Some (turnID, _) => set_turn (ApplySpeechEnd (rt_turn rt) turnID).2 rt
                               | None => rt
                               end));
  if negb enabled then Ret tt else
  match end_ with
  | None => call (Atomic (fun rt => set_detector (OnUserSpeechEnd true (rt_detector rt)) rt))
  | Some (_, text) =>
      let text := TrimSpace text in
      let complete := if String.eqb text "" then true else negb (IsIncomplete text) in
      _ <- call (Atomic (fun rt => set_detector (OnUserSpeechEnd complete (rt_detector rt)) rt));
      _ <- stopRescueSpeech;
      _ <- (if negb complete then call (Atomic (fun rt => set_log (noteIncompleteUtterance text (rt_log rt)) rt)) else Ret tt);
      call (Atomic (appendRecentTurn "user" text))
  end.

(** ** The poller and the request *)

(** [checkRescue]: the rung to generate, if the silence has earned one and none
    is being generated. *)
Definition checkRescue (now : time) (rt : Runtime) : option Z * Runtime :=
  if negb enabled || rt_inFlight rt then (None, rt) else
  let '((should, level), d) := CheckSilence now (rt_detector rt) in
  let rt := set_detector d rt in
  if should then (Some level, set_inFlight true rt) else (None, rt).

Definition requestRescue (now : time) (rt : Runtime) : option Z * Runtime :=
  if negb enabled then (None, rt) else
  let '((should, level), d) := RequestNext now (rt_detector rt) in
  (if should then Some level else None, set_detector d rt).
End session.

(** * The goroutines of a session, interleaved

    The poller, the read loop, the relays of the model's speech and one
    goroutine per rung work on one runtime and one connection.  A history is a
    list of choices: which of them takes its next step, and what the outside
    answers it. *)


(** What the outside answers one step: the model's text, the synthesizer's
    audio, whether a write went through, and the time. *)
Record Answer := mkAnswer {
  an_text : result error string;
  an_audio : result error RescueAudio;
  an_sent : bool;
  an_now : time;
}.

(** A rung's goroutine: whether the silence earned it, what is left of it, and
    the token it speaks under. *)
Record Rung := mkRung {
  r_auto : bool;
  r_prog : gprog unit;
  r_token : option Z;
}.

(** [g_reader] is what is left of the frame the read loop handles; each frame on
    the wire is marked with the rung that wrote it. *)
Record Gateway := mkGateway {
  g_rt : Runtime;
  g_rungs : list Rung;
  g_reader : gprog unit;
  g_wire : list (option nat * Frame);
}.

Inductive Choice :=
| Tick (now : time)
| Ask (now : time)
| SpeechStart
| SpeechEnd (end_ : option (string * string))
| AbortTurn
| UserText (text : string)
| Relay (now : time) (outbound : list Outbound)
| RungStep (i : nat) (a : Answer)
| ReadStep (a : Answer).

(** The token a step of a rung obtains. *)
Definition token_of {R} (e : rungE R) : R -> option Z :=
  match e in rungE R return R -> option Z with
  | Begin_ _ => fun r => Some r.1
  | _ => fun _ => None
  end.

Definition idle (p : gprog unit) : bool := match p with Ret _ => true | Do _ _ => false end.

Section session.
Variable enabled has_synth : bool.
Variable session : ConsumedTicket.

(** One step: the answer, the runtime and the frames written. *)
Definition perform_rung {R} (a : Answer) (e : rungE R) (rt : Runtime) : R * Runtime * list Frame :=
  match e in rungE R return R * Runtime * list Frame with
  | Atomic f => (tt, f rt, [])
  | Snapshot_ => (rescueSnapshot session rt, rt, [])
  | Generate_ _ _ => (an_text a, rt, [])
  | Clock => (an_now a, rt, [])
  | SendFrame f => (an_sent a, rt, if an_sent a then [f] else [])
  | Synthesize _ _ => (an_audio a, rt, [])
  | Begin_ turnID => (beginRescueSpeech turnID rt, [])
  | Current token => (rescueSpeechCurrent token rt, rt, [])
  | NextSeq => let (n, s) := Next (rt_audioSeq rt) in (n, set_audioSeq s rt, [])
  | Stop_ => (stop_speech rt, [])
  end.

Definition add_rung (auto : bool) (level : option Z) (rt : Runtime) (g : Gateway) : Gateway :=
  match level with
  | None => mkGateway rt (g_rungs g) (g_reader g) (g_wire g)
  | Some level =>
      let p := if auto then silence_rung has_synth level else emitRescue has_synth level in
      mkGateway rt (g_rungs g ++ [mkRung auto p None]) (g_reader g) (g_wire g)
  end.

Definition set_rt (rt : Runtime) (g : Gateway) : Gateway := mkGateway rt (g_rungs g) (g_reader g) (g_wire g).

(** A rung takes its next step. *)
Definition rung_step (i : nat) (a : Answer) (g : Gateway) : Gateway :=
  match g_rungs g !! i with
  | Some (mkRung auto (Do e k) token) =>
      let '(r, rt, fs) := perform_rung a e (g_rt g) in
      let token := match token_of e r with Some t => Some t | None => token end in
      mkGateway rt (<[i := mkRung auto (k r) token]> (g_rungs g)) (g_reader g) (g_wire g ++ map (pair (Some i)) fs)
  | _ => g
  end.

Definition read_step (a : Answer) (g : Gateway) : Gateway :=
  match g_reader g with
  | Do e k =>
      let '(r, rt, fs) := perform_rung a e (g_rt g) in
      mkGateway rt (g_rungs g) (k r) (g_wire g ++ map (pair None) fs)
  | Ret _ => g
  end.

(** The read loop takes the next frame of the client when it is done with the
    previous one. *)
Definition when_idle (g g' : Gateway) : Gateway := if idle (g_reader g) then g' else g.

Definition gateway_step (g : Gateway) (c : Choice) : Gateway :=
  match c with
  | Tick now => let (level, rt) := checkRescue enabled now (g_rt g) in add_rung true level rt g
  | Ask now => when_idle g (let (level, rt) := requestRescue enabled now (g_rt g) in add_rung false level rt g)
  | SpeechStart => when_idle g (set_rt (noteUserSpeechStart enabled (g_rt g)) g)
  | SpeechEnd end_ => when_idle g (mkGateway (g_rt g) (g_rungs g) (noteUserSpeechEnd enabled end_) (g_wire g))
  | AbortTurn => when_idle g (set_rt (noteTurnAbort enabled (g_rt g)) g)
  | UserText text => set_rt (noteUserUtteranceText enabled text (g_rt g)) g
  | Relay now outbound =>
      if writableOutbound outbound then
        mkGateway (noteProviderOutbound enabled now outbound (g_rt g)) (g_rungs g) (g_reader g)
          (g_wire g ++ map (pair None) (frames_of outbound))
      else g
  | RungStep i a => rung_step i a g
  | ReadStep a => read_step a g
  end.

Definition run_gateway (cs : list Choice) (g : Gateway) : Gateway := foldl gateway_step g cs.

Definition opened (thresholds : RescueThresholds) : Gateway :=
  mkGateway (new_runtime (tk_SessionID session) thresholds) [] (Ret tt) [].

(** What a rung has written. *)
Definition written_by (i : nat) (g : Gateway) : list Frame :=
  omap (fun x : option nat * Frame => if bool_decide (x.1 = Some i) then Some x.2 else None) (g_wire g).
End session.
