(* ===== verification/RescueLaws.v ===== *)
(** * What the rescue ladder sends

    The frames of a rung over every interleaving of the goroutines: their order,
    their silence once the learner took the floor, and the one rung the poller
    has in flight. *)
From S2P Require Import Prelude GoString GoTime GoJson ApiErr Frames Audio Turn Silence RescueLog Conversation Prog Rescue.

Open Scope Z_scope.
Open Scope prog_scope.

Section session.
Variable enabled has_synth : bool.
Variable session : ConsumedTicket.

Local Abbreviation perform := (@perform_rung session _).
Local Abbreviation step := (gateway_step enabled has_synth session).
Local Abbreviation run := (run_gateway enabled has_synth session).
Local Abbreviation tracks := (Prog.tracks (fun R => @perform_rung session R)).

(** ** The moves of a session

    The generation counter grows by at most one, and only a rung of its own or a
    rung ending touches the flag. *)
Definition keeps (rt rt' : Runtime) : Prop :=
  (rt_speechGen rt' = rt_speechGen rt \/ rt_speechGen rt' = uint64 (rt_speechGen rt + 1)) /\
  rt_inFlight rt' = rt_inFlight rt.

Definition steady {A} (p : gprog A) : Prop :=
  tracks (fun _ _ => True) (fun _ rt rt' _ _ => keeps rt rt') tt p (fun _ _ => True).

Local Ltac keeps_same := split; [by left|done].

Lemma steady_bind {A B} (p : gprog A) (k : A -> gprog B) : steady p -> (forall a, steady (k a)) -> steady (bind p k).
Proof. intros Hp Hk. apply tracks_bind. eapply tracks_mono; [|exact Hp]. intros [] a _. apply Hk. Qed.

Lemma steady_call {R} (e : rungE R) : (forall a rt, keeps rt (perform a e rt).1.2) -> steady (call e).
Proof. intros H. apply tracks_call. intros a rt _. by exists tt. Qed.

Lemma steady_ret {A} (a : A) : steady (Ret a).
Proof. done. Qed.

Lemma steady_step {R A} (e : rungE R) (k : R -> gprog A) :
  (forall a rt, keeps rt (perform a e rt).1.2) -> (forall r, steady (k r)) -> steady (bind (call e) k).
Proof. intros He Hk. apply steady_bind; [by apply steady_call|done]. Qed.

(** What a step does to the runtime. *)
Lemma stop_keeps rt : keeps rt (stop_speech rt).2.
Proof. unfold stop_speech. destruct (String.eqb _ _); [keeps_same|split; [by right|done]]. Qed.

Lemma begin_keeps turnID rt : keeps rt (beginRescueSpeech turnID rt).2.
Proof. unfold beginRescueSpeech. destruct (NextRef _); split; [by right|done]. Qed.

Lemma finish_keeps token rt : keeps rt (finishRescueSpeech token rt).
Proof. unfold finishRescueSpeech. destruct (negb _); keeps_same || (split; [by left|done]). Qed.

Lemma seq_keeps rt : keeps rt (let (n, s) := Next (rt_audioSeq rt) in (n, set_audioSeq s rt, [] : list Frame)).1.2.
Proof. destruct (Next _). split; [by left|done]. Qed.

Lemma append_keeps speaker text rt : keeps rt (appendRecentTurn speaker text rt).
Proof. unfold appendRecentTurn. destruct (String.eqb _ _); split; by try left. Qed.

(** Operations that leave the counter and the flag alone. *)
Definition still (rt rt' : Runtime) : Prop :=
  rt_speechGen rt' = rt_speechGen rt /\ rt_inFlight rt' = rt_inFlight rt.

Lemma still_keeps rt rt' : still rt rt' -> keeps rt rt'.
Proof. intros [H ?]. split; [by left|done]. Qed.

Lemma item_still now rt item : still rt (note_item enabled now rt item).
Proof.
  unfold note_item. destruct (isAIOutput item), (ob_Control item) as [[]|]; cbn; try done;
    try match goal with |- context [NoteAIEnd ?t] => destruct (NoteAIEnd t) as [[] ?] end;
    destruct enabled; cbn; try done; unfold appendAIText, noteAITurnEnd; repeat case_match; done.
Qed.

Lemma outbound_still now outbound rt : still rt (noteProviderOutbound enabled now outbound rt).
Proof.
  unfold noteProviderOutbound. revert rt. induction outbound as [|item outbound IH]; intros rt; [done|]. cbn.
  destruct (item_still now rt item) as [E1 E2], (IH (note_item enabled now rt item)) as [E3 E4]. split; congruence.
Qed.

Lemma speech_start_still rt : still rt (noteUserSpeechStart enabled rt).
Proof. unfold noteUserSpeechStart. by destruct enabled. Qed.

Lemma abort_still rt : still rt (noteTurnAbort enabled rt).
Proof. unfold noteTurnAbort. by destruct enabled. Qed.

Lemma user_text_still text rt : still rt (noteUserUtteranceText enabled text rt).
Proof. unfold noteUserUtteranceText. by destruct enabled. Qed.

Lemma request_still now rt : still rt (requestRescue enabled now rt).2.
Proof. unfold requestRescue. destruct enabled; [|done]. cbn. by destruct (RequestNext _ _) as [[[] ?] ?]. Qed.

Lemma check_still now rt : rt_speechGen (checkRescue enabled now rt).2 = rt_speechGen rt.
Proof.
  unfold checkRescue. destruct (negb enabled || _); [done|]. by destruct (CheckSilence _ _) as [[[] ?] ?].
Qed.

(** The programs of the session. *)
Lemma number_frames_steady ref payloads : steady (number_frames ref payloads).
Proof.
  induction payloads as [|p payloads IH]; [done|]. apply steady_step; [intros; apply seq_keeps|]. intros seq.
  apply steady_bind; [exact IH|done].
Qed.

Lemma write_frames_steady token header frames : forall sent, steady (write_frames token header frames sent).
Proof.
  induction frames as [|f frames IH]; intros sent; [done|].
  apply steady_step; [intros; keeps_same|]. intros []; [|done].
  apply steady_step; [intros; keeps_same|]. intros []; [apply IH|done].
Qed.

Lemma end_stream_steady turnID ref fmt rest sent : steady (end_stream turnID ref fmt rest sent).
Proof.
  destruct rest as [|b rest]; [apply steady_call; intros; keeps_same|].
  apply steady_step; [intros; apply seq_keeps|]. intros seq.
  apply steady_step; [intros; keeps_same|]. intros []; [|done]. apply steady_call; intros; keeps_same.
Qed.

Lemma send_steady audio turnID token ref : steady (sendRescueAudio audio turnID token ref).
Proof.
  unfold sendRescueAudio. destruct (String.eqb _ _); [done|].
  apply steady_step; [intros; keeps_same|]. intros []; [|done]. cbv beta iota.
  destruct (whole_frames _ _ _) as [payloads rest].
  apply steady_bind; [apply number_frames_steady|]. intros frames.
  apply steady_bind; [apply write_frames_steady|]. intros [sent|]; [|done]. cbv beta iota.
  apply steady_step; [intros; keeps_same|]. intros []; [|done]. cbv beta iota.
  apply steady_bind; [apply end_stream_steady|]. intros []; [|done]. cbv beta iota.
  apply steady_step; [intros; apply finish_keeps|done].
Qed.

Lemma generate_steady level turnID conv : steady (GenerateAndSynthesize has_synth level turnID conv).
Proof.
  unfold GenerateAndSynthesize. destruct (negb _); [done|].
  apply steady_step; [intros; keeps_same|]. intros text.
  apply steady_step; [intros; keeps_same|]. intros now.
  apply steady_step; [intros; keeps_same|]. intros []; [|done]. cbv beta iota.
  apply steady_step; [intros; keeps_same|]. intros _. destruct (negb has_synth); [done|].
  apply steady_step; [intros; keeps_same|]. intros [a|]; [|done]. by destruct (ra_PCM a).
Qed.

Lemma emit_steady level : steady (emitRescue has_synth level).
Proof.
  apply steady_step; [intros; keeps_same|]. intros [conv turnID].
  apply steady_bind; [apply generate_steady|]. intros [audio|]; [|done].
  apply steady_step; [intros; apply begin_keeps|]. intros [token ref]. destruct audio as [a|]; [|done].
  apply steady_bind; [apply send_steady|done].
Qed.

Lemma speech_end_steady end_ : steady (noteUserSpeechEnd enabled end_).
Proof.
  unfold noteUserSpeechEnd. apply steady_step; [intros; by destruct end_ as [[]|]; keeps_same|]. intros _.
  destruct (negb enabled); [done|]. destruct end_ as [[turnID text]|]; [|apply steady_call; intros; keeps_same].
  apply steady_step; [intros; keeps_same|]. intros _.
  apply steady_bind; [apply steady_step; [intros; apply stop_keeps|]|].
  { intros [[id ref]|]; [|done]. apply steady_step; [intros; keeps_same|done]. }
  intros _. apply steady_bind; [destruct (negb _); [apply steady_call; intros; keeps_same|done]|].
  intros _. apply steady_call; intros; apply append_keeps.
Qed.

(** ** One step of the session *)
Inductive moves (g : Gateway) : Gateway -> Prop :=
| Moves_outside rt reader fs : keeps (g_rt g) rt ->
    moves g (mkGateway rt (g_rungs g) reader (g_wire g ++ map (pair None) fs))
| Moves_rung i auto R (e : rungE R) k token a : g_rungs g !! i = Some (mkRung auto (Do e k) token) ->
    moves g (mkGateway (perform a e (g_rt g)).1.2
      (<[i := mkRung auto (k (perform a e (g_rt g)).1.1)
               (match token_of e (perform a e (g_rt g)).1.1 with Some t => Some t | None => token end)]> (g_rungs g))
      (g_reader g) (g_wire g ++ map (pair (Some i)) (perform a e (g_rt g)).2))
| Moves_earned rt level : rt_inFlight (g_rt g) = false -> rt_inFlight rt = true -> rt_speechGen rt = rt_speechGen (g_rt g) ->
    moves g (mkGateway rt (g_rungs g ++ [mkRung true (silence_rung has_synth level) None]) (g_reader g) (g_wire g))
| Moves_asked rt level : keeps (g_rt g) rt ->
    moves g (mkGateway rt (g_rungs g ++ [mkRung false (emitRescue has_synth level) None]) (g_reader g) (g_wire g)).

Lemma moves_quiet (g : Gateway) rt reader : keeps (g_rt g) rt -> moves g (mkGateway rt (g_rungs g) reader (g_wire g)).
Proof. intros H. generalize (Moves_outside g rt reader [] H). by rewrite app_nil_r. Qed.

Lemma moves_stay (g : Gateway) : moves g g.
Proof. destruct g. apply (moves_quiet (mkGateway _ _ _ _)). keeps_same. Qed.

Lemma step_moves (g : Gateway) c : steady (g_reader g) ->
  moves g (step g c) /\ steady (g_reader (step g c)).
Proof.
  intros Hr.
  assert (Hi : forall g', (moves g g' /\ steady (g_reader g')) -> moves g (when_idle g g') /\ steady (g_reader (when_idle g g'))).
  { intros g' H. unfold when_idle. destruct (idle _); [done|]. split; [apply moves_stay|done]. }
  destruct c as [now|now| |end_| |text|now outbound|i a|a]; cbn -[when_idle checkRescue requestRescue].
  - destruct (checkRescue enabled now (g_rt g)) as [level rt] eqn:E.
    assert (Hc : rt_speechGen rt = rt_speechGen (g_rt g) /\
      (if level then rt_inFlight (g_rt g) = false /\ rt_inFlight rt = true else rt_inFlight rt = rt_inFlight (g_rt g))).
    { split; [change rt with (level, rt).2; rewrite <- E; apply check_still|].
      revert E. unfold checkRescue. destruct (rt_inFlight (g_rt g)) eqn:Ef; [rewrite orb_true_r; by intros [= <- <-]|].
      destruct enabled; [cbn|by intros [= <- <-]].
      destruct (CheckSilence _ _) as [[[] ?] ?]; by intros [= <- <-]. }
    destruct level as [level|]; cbn.
    + destruct Hc as (H1 & H2 & H3). split; [by apply Moves_earned|done].
    + destruct Hc as [H1 H2]. split; [apply moves_quiet; split; [by left|done]|done].
  - apply Hi. destruct (requestRescue enabled now (g_rt g)) as [level rt] eqn:E.
    assert (Hk : keeps (g_rt g) rt) by (change rt with (level, rt).2; rewrite <- E; apply still_keeps, request_still).
    destruct level as [level|]; cbn; (split; [|done]); [by apply Moves_asked|by apply moves_quiet].
  - apply Hi. split; [|done]. apply moves_quiet, still_keeps, speech_start_still.
  - apply Hi. split; [apply moves_quiet; keeps_same|apply speech_end_steady].
  - apply Hi. split; [|done]. apply moves_quiet, still_keeps, abort_still.
  - split; [|done]. apply moves_quiet, still_keeps, user_text_still.
  - destruct (writableOutbound outbound); (split; [|done]); [apply Moves_outside, still_keeps, outbound_still|apply moves_stay].
  - unfold rung_step. destruct (g_rungs g !! i) as [[auto [x|R e k] token]|] eqn:E; try (split; [apply moves_stay|done]).
    pose proof (Moves_rung g i auto R e k token a E) as M.
    destruct (perform a e (g_rt g)) as [[r rt] fs]. by split.
  - unfold read_step. destruct (g_reader g) as [x|R e k] eqn:E; [rewrite E; by split; [apply moves_stay|]|].
    destruct (Hr a (g_rt g) I) as ([] & Hk & Hs). destruct (perform a e (g_rt g)) as [[r rt] fs]. cbn in Hk, Hs |- *.
    split; [by apply Moves_outside|done].
Qed.

(** What every move keeps is kept by every history. *)
Lemma history_keeps (I : Gateway -> Prop) : (forall g g', moves g g' -> I g -> I g') ->
  forall cs g, steady (g_reader g) -> I g -> I (run cs g).
Proof.
  intros Hm. induction cs as [|c cs IH]; intros g Hr Hg; [done|]. cbn.
  destruct (step_moves g c Hr) as [M Hr']. apply IH; [done|]. by apply (Hm g).
Qed.

Lemma written_outside (i : nat) (w : list (option nat * Frame)) fs rt rungs reader :
  written_by i (mkGateway rt rungs reader (w ++ map (pair None) fs)) = written_by i (mkGateway rt rungs reader w).
Proof.
  unfold written_by. cbn. rewrite omap_app. rewrite <- (app_nil_r (omap _ w)) at 2. f_equal. by induction fs.
Qed.

Lemma written_own (i : nat) (w : list (option nat * Frame)) fs rt rungs reader :
  written_by i (mkGateway rt rungs reader (w ++ map (pair (Some i)) fs)) = written_by i (mkGateway rt rungs reader w) ++ fs.
Proof.
  unfold written_by. cbn. rewrite omap_app. f_equal. induction fs as [|f fs IH]; [done|]. cbn.
  rewrite bool_decide_true by done. by rewrite IH.
Qed.

Lemma written_other (i j : nat) (w : list (option nat * Frame)) fs rt rungs reader : i <> j ->
  written_by i (mkGateway rt rungs reader (w ++ map (pair (Some j)) fs)) = written_by i (mkGateway rt rungs reader w).
Proof.
  intros Hne. unfold written_by. cbn. rewrite omap_app. rewrite <- (app_nil_r (omap _ w)) at 2. f_equal.
  induction fs as [|f fs IH]; [done|]. cbn. by rewrite bool_decide_false by congruence.
Qed.

(** ** One rung after another

    An account for each rung: [start] is the account of a rung that has done
    nothing. *)
Section accounts.
Context {T : Type} (ok : T -> Runtime -> Prop) (upd : T -> Runtime -> Runtime -> list Frame -> T -> Prop) (start : T).
Context (reads : list Frame -> T -> Prop).

Definition accounted (g : Gateway) : Prop :=
  (forall i r, g_rungs g !! i = Some r -> exists t, reads (written_by i g) t /\ tracks ok upd t (r_prog r) (fun _ _ => True)) /\
  (forall i, g_rungs g !! i = None -> written_by i g = []).

Context (always : forall t rt, ok t rt).
Context (reads_start : reads [] start).
Context (reads_step : forall fs t rt rt' fs' t', reads fs t -> upd t rt rt' fs' t' -> reads (fs ++ fs') t').
Context (start_asked : forall level, tracks ok upd start (emitRescue has_synth level) (fun _ _ => True)).
Context (start_earned : forall level, tracks ok upd start (silence_rung has_synth level) (fun _ _ => True)).

Lemma accounted_new g rt auto p : accounted g -> tracks ok upd start p (fun _ _ => True) ->
  accounted (mkGateway rt (g_rungs g ++ [mkRung auto p None]) (g_reader g) (g_wire g)).
Proof.
  intros [Hr Hn] Hp. split; cbn.
  - intros i r [Hi|[Hle Hi]]%lookup_app_Some; [by apply Hr|]. exists start.
    apply list_lookup_singleton_Some in Hi as [Hi <-]. split; [|done].
    change (reads (written_by i g) start). by rewrite Hn by (apply lookup_ge_None; lia).
  - intros i Hi. apply Hn, lookup_ge_None. apply lookup_ge_None in Hi. rewrite length_app in Hi. cbn in Hi. lia.
Qed.

Lemma accounted_moves g g' : moves g g' -> accounted g -> accounted g'.
Proof.
  intros M [Hr Hn]. destruct M as [rt reader fs _|i auto R e k token a Hi|rt level _ _ _|rt level _].
  - split; cbn [g_rungs]; intros i; [intros r Hi|intros Hi]; rewrite written_outside; [by apply Hr|by apply Hn].
  - split; cbn [g_rungs].
    + intros j r [(<- & <- & _)|[Hne Hj]]%list_lookup_insert_Some.
      * destruct (Hr _ _ Hi) as (t & Ht & Hs). destruct (Hs a (g_rt g) (always _ _)) as (t' & Hu & Hs').
        exists t'. rewrite written_own. split; [by apply (reads_step _ _ _ _ _ _ Ht Hu)|done].
      * rewrite written_other by done. by apply Hr.
    + intros j Hj. rewrite list_lookup_insert_None in Hj. rewrite written_other; [by apply Hn|]. intros ->. congruence.
  - by apply accounted_new.
  - by apply accounted_new.
Qed.

Lemma accounted_run cs thresholds : accounted (run cs (opened session thresholds)).
Proof. apply (history_keeps accounted accounted_moves); [done|by split]. Qed.
End accounts.

(** ** The order of a rung's frames *)
Inductive Phase :=
| Silent
| Texted (turn : string)
| Speaking (turn : string) (ref : option Z)
| Over.

Inductive says : Phase -> Frame -> Phase -> Prop :=
| Says_text turn level text ts : ValidRescueLevel level = true -> says Silent (RescueLadder turn level text ts) (Texted turn)
| Says_start turn voice rate codec ref : says (Texted turn) (TTSStart turn voice rate codec ref) (Speaking turn ref)
| Says_audio turn ref seq payload : says (Speaking turn ref) (BinaryFrame (encode_frame seq ref payload)) (Speaking turn ref)
| Says_end turn ref ms : says (Speaking turn ref) (TTSEnd turn "ok" (Some ms) ref) Over.

Inductive said : Phase -> list Frame -> Phase -> Prop :=
| Said_nothing p : said p [] p
| Said_frame p f q fs r : says p f q -> said q fs r -> said p (f :: fs) r.

Lemma said_app p fs q fs' r : said p fs q -> said q fs' r -> said p (fs ++ fs') r.
Proof. induction 1; [done|]. intros H'. econstructor; eauto. Qed.

Local Abbreviation spoken := (tracks (fun _ _ => True) (fun (p : Phase) (_ _ : Runtime) fs q => said p fs q)).

Lemma spoken_quiet {R} (e : rungE R) t (post : Phase -> R -> Prop) :
  (forall a rt, (perform a e rt).2 = []) -> (forall r, post t r) -> spoken t (call e) post.
Proof.
  intros Hf Hp. apply tracks_call. intros a rt _. exists t. rewrite Hf. split; [constructor|apply Hp].
Qed.

Lemma spoken_send f t t' (post : Phase -> bool -> Prop) :
  says t f t' -> post t false -> post t' true -> spoken t (call (SendFrame f)) post.
Proof.
  intros Hs Hf Ht. apply tracks_call. intros a rt _. cbn. destruct (an_sent a); [exists t'|exists t]; (split; [|done]).
  - by repeat econstructor.
  - constructor.
Qed.

Lemma perform_seq_quiet a rt : (perform a NextSeq rt).2 = [].
Proof. cbn. by destruct (Next _). Qed.

Local Ltac quiet := apply tracks_bind, spoken_quiet; [done || apply perform_seq_quiet|].

Lemma number_frames_spoken ref t payloads :
  spoken t (number_frames ref payloads) (fun t' fs => t' = t /\ forall f, f ∈ fs -> exists seq p, f = encode_frame seq ref p).
Proof.
  induction payloads as [|p payloads IH]; [split; [done|]; intros f Hf; by apply elem_of_nil in Hf|].
  cbn [number_frames]. quiet. intros seq. apply tracks_bind.
  eapply tracks_mono; [|exact IH]. intros t' fs [-> H]. split; [done|].
  intros f [->|Hf]%elem_of_cons; [by exists seq, p|by apply H].
Qed.

Lemma write_frames_spoken turn ref token header frames :
  (forall f, f ∈ frames -> exists seq p, f = encode_frame seq ref p) ->
  forall sent, spoken (Speaking turn ref) (write_frames token header frames sent) (fun t _ => t = Speaking turn ref).
Proof.
  induction frames as [|f frames IH]; intros Hf sent; [done|]. cbn [write_frames].
  quiet. intros []; [|done]. cbn [negb].
  destruct (Hf f) as (seq & p & Ef); [constructor|].
  apply tracks_bind. eapply spoken_send; [rewrite Ef; constructor|done|].
  cbn [negb]. apply IH. intros f' Hf'. apply Hf. by constructor.
Qed.

Lemma send_spoken audio turn token ref :
  spoken (Texted turn) (sendRescueAudio audio turn token ref) (fun _ _ => True).
Proof.
  unfold sendRescueAudio. destruct (String.eqb _ _); [done|]. cbv zeta.
  apply tracks_bind. eapply spoken_send; [constructor|done|]. cbv beta iota.
  destruct (whole_frames _ _ _) as [payloads rest].
  apply tracks_bind. eapply tracks_mono; [|apply number_frames_spoken]. intros t frames [-> Hf].
  apply tracks_bind. eapply tracks_mono; [|by apply write_frames_spoken]. intros t [sent|] ->; [|done].
  quiet. intros []; [|done]. cbv beta iota.
  apply tracks_bind. eapply (tracks_mono _ _ _ _ (fun _ _ => True)).
  { intros t [] _; [|done]. cbv beta iota. quiet. done. }
  unfold end_stream. destruct rest as [|b rest]; [by eapply spoken_send; [constructor| |]|].
  quiet. intros seq. apply tracks_bind. eapply spoken_send; [constructor|done|]. cbv beta iota.
  by eapply spoken_send; [constructor| |].
Qed.

Lemma emit_spoken level : spoken Silent (emitRescue has_synth level) (fun _ _ => True).
Proof.
  unfold emitRescue. quiet. intros [conv turn]. apply tracks_bind.
  eapply (tracks_mono _ _ _ _ (fun t delivery => match delivery with None => True | Some _ => t = Texted turn end)).
  - intros t [audio|] H; [|done]. subst t. quiet. intros [token ref]. destruct audio as [a|]; [|done].
    apply tracks_bind. eapply tracks_mono; [|apply send_spoken]. done.
  - unfold GenerateAndSynthesize. destruct (ValidRescueLevel level) eqn:El; [|done]. cbn [negb].
    quiet. intros text. quiet. intros now.
    apply tracks_bind. eapply spoken_send; [by constructor|done|]. cbv beta iota.
    quiet. intros _. destruct (negb has_synth); [done|]. quiet. intros [a|]; [|done]. by destruct (ra_PCM a).
Qed.

Lemma silence_spoken level : spoken Silent (silence_rung has_synth level) (fun _ _ => True).
Proof. apply tracks_bind. eapply tracks_mono; [|apply emit_spoken]. intros t _ _. by apply spoken_quiet. Qed.

Lemma rung_said cs thresholds i : exists p, said Silent (written_by i (run cs (opened session thresholds))) p.
Proof.
  destruct (accounted_run (fun _ _ => True) (fun (p : Phase) (_ _ : Runtime) fs q => said p fs q) Silent (said Silent))
    with (cs := cs) (thresholds := thresholds) as [Hr Hn]; [done|constructor| |apply emit_spoken|apply silence_spoken|].
  { intros fs t _ _ fs' t' H1 H2. by eapply said_app. }
  destruct (g_rungs (run cs (opened session thresholds)) !! i) as [r|] eqn:Hi.
  - destruct (Hr i r Hi) as (t & Ht & _). by exists t.
  - rewrite Hn by done. by repeat econstructor.
Qed.

Lemma speaking_said turn ref fs p : said (Speaking turn ref) fs p ->
  exists frames ms, (forall f, f ∈ frames -> exists seq payload, f = encode_frame seq ref payload) /\
    fs `prefix_of` map BinaryFrame frames ++ [TTSEnd turn "ok" (Some ms) ref].
Proof.
  intros H. remember (Speaking turn ref) as q eqn:Eq. induction H as [q|q f q' fs r Hs H IH]; subst q.
  - exists [], 0. split; [|apply prefix_nil]. intros f Hf. by apply elem_of_nil in Hf.
  - inversion Hs; subst.
    + destruct IH as (frames & ms & Hf & Hp); [done|]. exists (encode_frame seq ref payload :: frames), ms.
      split; [|by apply prefix_cons]. intros f [->|Hin]%elem_of_cons; [by exists seq, payload|by apply Hf].
    + exists [], ms. split; [intros f Hf; by apply elem_of_nil in Hf|].
      inversion H as [|? ? ? ? ? Hs']; subst; [done|inversion Hs'].
Qed.

(** C12: Whatever the poller, the read loop, the relays and the other rungs do in
    between, and wherever a write fails, the frames one rung puts on the wire are
    an initial part of: its text, of a valid level; the start of a stream of the
    same turn; audio frames that carry the reference of that stream; one "ok" end
    of that turn and stream.  Nothing is spoken before the text is sent, and
    nothing follows the end. *)
Theorem rung_text_leads_voice cs thresholds i :
  exists turn level text ts voice rate codec ref frames ms,
    ValidRescueLevel level = true /\
    (forall f, f ∈ frames -> exists seq payload, f = encode_frame seq ref payload) /\
    written_by i (run cs (opened session thresholds)) `prefix_of`
      [RescueLadder turn level text ts; TTSStart turn voice rate codec ref] ++ map BinaryFrame frames ++
      [TTSEnd turn "ok" (Some ms) ref].
Proof.
  destruct (rung_said cs thresholds i) as [p H].
  inversion H as [|? ? q fs ? Hs H1]; subst.
  { exists "", RescueLevelSkeleton, "", 0, "", 0, "", None, [], 0. split_and!; [done| |apply prefix_nil].
    intros f Hf. by apply elem_of_nil in Hf. }
  inversion Hs; subst. inversion H1 as [|? ? q' fs' ? Hs' Hrest]; subst.
  { exists turn, level, text, ts, "", 0, "", None, [], 0. split_and!; [done| |by apply prefix_cons, prefix_nil].
    intros f Hf. by apply elem_of_nil in Hf. }
  inversion Hs'; subst. destruct (speaking_said _ _ _ _ Hrest) as (frames & ms & Hf & Hp).
  exists turn, level, text, ts, voice, rate, codec, ref, frames, ms. split_and!; [done..|].
  by apply prefix_cons, prefix_cons.
Qed.

End session.

(** * Who has the floor

    A rung that lost its token falls silent, and the poller has at most one rung
    in flight and is never locked out. *)


Section session.
Variable enabled has_synth : bool.
Variable session : ConsumedTicket.

Local Abbreviation perform := (@perform_rung session _).
Local Abbreviation step := (gateway_step enabled has_synth session).
Local Abbreviation run := (run_gateway enabled has_synth session).
Local Abbreviation tracks := (Prog.tracks (fun R => @perform_rung session R)).
Local Abbreviation steady := (steady session).
Local Abbreviation moves := (moves has_synth session).

(** ** The poller's rung *)
Definition busy (r : Rung) : bool := r_auto r && negb (idle (r_prog r)).

(** A program that leaves the flag alone up to its last step, which clears it. *)
Fixpoint holding (p : gprog unit) : Prop :=
  match p with
  | Ret _ => False
  | Do e k => forall a rt,
      (holding (k (perform a e rt).1.1) /\ rt_inFlight (perform a e rt).1.2 = rt_inFlight rt) \/
      (idle (k (perform a e rt).1.1) = true /\ rt_inFlight (perform a e rt).1.2 = false)
  end.

Lemma holding_release {A} (p : gprog A) : steady p -> holding (bind p (fun _ => call (Atomic (set_inFlight false)))).
Proof.
  induction p as [x|R e k IH]; intros H; [by right|]. intros a rt. left.
  destruct (H a rt I) as ([] & [_ Hk] & Hs). split; [by apply IH|done].
Qed.

Lemma silence_holding level : holding (silence_rung has_synth level).
Proof. apply holding_release, emit_steady. Qed.

(** What is left of a rung. *)
Definition shaped (r : Rung) : Prop :=
  if r_auto r then idle (r_prog r) = true \/ holding (r_prog r) else steady (r_prog r).

Definition one_in_flight (g : Gateway) : Prop :=
  (forall i r, g_rungs g !! i = Some r -> shaped r) /\
  (if rt_inFlight (g_rt g)
   then exists i r, g_rungs g !! i = Some r /\ busy r = true /\
     forall j s, g_rungs g !! j = Some s -> busy s = true -> j = i
   else forall i r, g_rungs g !! i = Some r -> busy r = false).

Lemma lookup_grown {A} (l : list A) (x y : A) i : (l ++ [x]) !! i = Some y ->
  l !! i = Some y \/ i = length l /\ y = x.
Proof.
  intros [H|[Hle H]]%lookup_app_Some; [by left|right].
  apply list_lookup_singleton_Some in H as [H <-]. split; [lia|done].
Qed.

Lemma busy_idle (r : Rung) : idle (r_prog r) = true -> busy r = false.
Proof. unfold busy. intros ->. by rewrite andb_false_r. Qed.

Lemma holding_busy (p : gprog unit) token : holding p -> busy (mkRung true p token) = true.
Proof. by destruct p. Qed.

Lemma one_moves g g' : moves g g' -> one_in_flight g -> one_in_flight g'.
Proof.
  intros M [Hs Hb]. destruct M as [rt reader fs [_ Hk]|i auto R e k token a Hi|rt level Hf Ht _|rt level [_ Hk]].
  - split; cbn; [done|]. by rewrite Hk.
  - set (rung' := mkRung auto _ _). pose proof (Hs i _ Hi) as Hsh. split; cbn.
    + intros j r [(<- & <- & _)|[_ Hj]]%list_lookup_insert_Some; [|by apply (Hs j)].
      unfold shaped in Hsh |- *. destruct auto; cbn in Hsh |- *.
      * destruct Hsh as [Hn|Hh]; [done|]. destruct (Hh a (g_rt g)) as [[H _]|[H _]]; [by right|by left].
      * destruct (Hsh a (g_rt g) I) as ([] & _ & H). exact H.
    + assert (Hl : (i < length (g_rungs g))%nat) by by apply lookup_lt_Some in Hi.
      destruct auto.
      * destruct Hsh as [Hn|Hh]; [done|].
        destruct (rt_inFlight (g_rt g)) eqn:Ef; [|by specialize (Hb i _ Hi)].
        destruct Hb as (i' & r' & Hi' & Hb' & Hone). assert (i = i') as <- by by apply (Hone i _ Hi).
        destruct (Hh a (g_rt g)) as [[H E]|[H E]]; rewrite E.
        -- rewrite Ef. exists i, rung'. split_and!; [by apply list_lookup_insert_eq|by apply holding_busy|].
           intros j s [(<- & _)|[_ Hj]]%list_lookup_insert_Some; [done|by apply Hone].
        -- intros j s [(<- & <- & _)|[Hne Hj]]%list_lookup_insert_Some; [by apply busy_idle|].
           destruct (busy s) eqn:Eb; [|done]. by destruct Hne; rewrite (Hone j s Hj Eb).
      * destruct (Hsh a (g_rt g) I) as ([] & [_ E] & _). rewrite E.
        destruct (rt_inFlight (g_rt g)).
        -- destruct Hb as (i' & r' & Hi' & Hb' & Hone).
           assert (i <> i') by (intros <-; by rewrite Hi in Hi'; simplify_eq).
           exists i', r'. split_and!; [by rewrite list_lookup_insert_ne|done|].
           intros j s [(<- & <- & _)|[_ Hj]]%list_lookup_insert_Some; [done|by apply Hone].
        -- intros j s [(<- & <- & _)|[_ Hj]]%list_lookup_insert_Some; [done|by apply (Hb j)].
  - rewrite Hf in Hb. split; cbn.
    + intros i r [Hi|[-> ->]]%lookup_grown; [by apply (Hs i)|]. right. apply silence_holding.
    + rewrite Ht. exists (length (g_rungs g)), (mkRung true (silence_rung has_synth level) None).
      split_and!; [by rewrite lookup_app_r, Nat.sub_diag by lia|apply holding_busy, silence_holding|].
      intros j s [Hj|[-> _]]%lookup_grown; [|done]. intros H. by rewrite (Hb j s Hj) in H.
  - split; cbn.
    + intros i r [Hi|[-> ->]]%lookup_grown; [by apply (Hs i)|]. apply emit_steady.
    + rewrite Hk. destruct (rt_inFlight (g_rt g)).
      * destruct Hb as (i' & r' & Hi' & Hb' & Hone). exists i', r'.
        split_and!; [by apply lookup_app_l_Some|done|].
        intros j s [Hj|[-> ->]]%lookup_grown; [by apply Hone|done].
      * intros i r [Hi|[-> ->]]%lookup_grown; [by apply (Hb i)|done].
Qed.

(** C14: In every interleaving of a session the poller has at most one rung at
    work, and its flag says so exactly: while the flag is set one goroutine of
    the poller, and only one, is unfinished, and when none is the flag is clear,
    so a rung that failed on the way never locks the ladder. *)
Theorem one_rung_in_flight cs thresholds :
  let g := run cs (opened session thresholds) in
  if rt_inFlight (g_rt g)
  then exists i r, g_rungs g !! i = Some r /\ busy r = true /\
    forall j s, g_rungs g !! j = Some s -> busy s = true -> j = i
  else forall i r, g_rungs g !! i = Some r -> busy r = false.
Proof.
  apply (history_keeps enabled has_synth session one_in_flight one_moves); [done|]. by split.
Qed.

(** ** The floor

    The account of a rung: nothing before it obtained its token; then the token,
    and from the first step it takes without the floor how many frames it may
    still write. *)
Abbreviation account := (option (Z * option nat)).

Definition allowed (b : option nat) : nat := match b with Some n => n | None => 2 end.

Definition aware (t : account) (rt : Runtime) : Prop :=
  match t with Some (k, Some _) => rt_speechGen rt <> k | _ => True end.

Inductive floor_step : account -> Runtime -> Runtime -> list Frame -> account -> Prop :=
| Floor_before rt rt' fs : rt_speechGen rt' = rt_speechGen rt -> floor_step None rt rt' fs None
| Floor_taken rt rt' : rt_speechGen rt' = uint64 (rt_speechGen rt + 1) ->
    floor_step None rt rt' [] (Some (rt_speechGen rt', None))
| Floor_held k rt rt' fs : rt_speechGen rt = k -> rt_speechGen rt' = k ->
    floor_step (Some (k, None)) rt rt' fs (Some (k, None))
| Floor_lost k b n rt rt' fs : rt_speechGen rt <> k -> rt_speechGen rt' = rt_speechGen rt ->
    (length fs + n = allowed b)%nat -> floor_step (Some (k, b)) rt rt' fs (Some (k, Some n)).

Local Abbreviation floors := (tracks aware floor_step).

Lemma floor_before {R} (e : rungE R) (post : account -> R -> Prop) :
  (forall a rt, rt_speechGen (perform a e rt).1.2 = rt_speechGen rt) -> (forall r, post None r) -> floors None (call e) post.
Proof. intros Hg Hp. apply tracks_call. intros a rt _. exists None. split; [by constructor|apply Hp]. Qed.

Lemma floor_quiet {R} (e : rungE R) k b (post : account -> R -> Prop) :
  (forall a rt, rt_speechGen (perform a e rt).1.2 = rt_speechGen rt /\ (perform a e rt).2 = []) ->
  (forall r b', allowed b' = allowed b -> post (Some (k, b')) r) -> floors (Some (k, b)) (call e) post.
Proof.
  intros He Hp. apply tracks_call. intros a rt Hok. destruct (He a rt) as [Hg ->].
  destruct (decide (rt_speechGen rt = k)) as [Ek|Ek].
  - destruct b as [n|]; [done|]. exists (Some (k, None)). split; [by constructor; [|rewrite Hg]|by apply Hp].
  - exists (Some (k, Some (allowed b))). split; [by constructor|by apply Hp].
Qed.

Lemma floor_send f k b (post : account -> bool -> Prop) : (1 <= allowed b)%nat ->
  (forall r b', (allowed b <= S (allowed b'))%nat -> post (Some (k, b')) r) -> floors (Some (k, b)) (call (SendFrame f)) post.
Proof.
  intros Hb Hp. apply tracks_call. intros a rt Hok. cbn.
  destruct (decide (rt_speechGen rt = k)) as [Ek|Ek].
  - destruct b as [n|]; [done|]. exists (Some (k, None)). split; [by constructor|apply Hp; cbn; lia].
  - exists (Some (k, Some (allowed b - length (if an_sent a then [f] else []))%nat)).
    split; [constructor; [done|done|]|apply Hp]; destruct (an_sent a); cbn; lia.
Qed.

Lemma floor_live k b (post : account -> bool -> Prop) :
  post (Some (k, None)) true -> (forall b', post (Some (k, b')) false) -> floors (Some (k, b)) (call (Current k)) post.
Proof.
  intros Ht Hf. apply tracks_call. intros a rt Hok. cbn. unfold rescueSpeechCurrent.
  destruct (Z.eqb_spec (rt_speechGen rt) k) as [Ek|Ek].
  - destruct b as [n|]; [done|]. exists (Some (k, None)). by split; [constructor|].
  - exists (Some (k, Some (allowed b))). by split; [constructor|].
Qed.

Lemma seq_same a rt : rt_speechGen (perform a NextSeq rt).1.2 = rt_speechGen rt /\ (perform a NextSeq rt).2 = [].
Proof. cbn. by destruct (Next _). Qed.

Lemma finish_same token a rt : rt_speechGen (perform a (Atomic (finishRescueSpeech token)) rt).1.2 = rt_speechGen rt /\
  (perform a (Atomic (finishRescueSpeech token)) rt).2 = [].
Proof. cbn. unfold finishRescueSpeech. by destruct (negb _). Qed.

Lemma number_frames_floor k ref payloads : forall b,
  floors (Some (k, b)) (number_frames ref payloads) (fun t _ => exists b', t = Some (k, b') /\ allowed b' = allowed b).
Proof.
  induction payloads as [|p payloads IH]; intros b; [by exists b|].
  apply tracks_bind, floor_quiet; [apply seq_same|]. intros seq b' Hb'. apply tracks_bind.
  eapply tracks_mono; [|exact (IH b')]. intros t fs (b2 & -> & H). exists b2. split; [done|congruence].
Qed.

Lemma write_frames_floor k header frames : forall b sent,
  floors (Some (k, b)) (write_frames k header frames sent) (fun t _ => exists b', t = Some (k, b')).
Proof.
  induction frames as [|f frames IH]; intros b sent; [by exists b|].
  apply tracks_bind, floor_live; [|intros b'; by exists b']. cbn [negb].
  apply tracks_bind, floor_send; [cbn; lia|]. intros [] b' _; [apply IH|by exists b'].
Qed.

Lemma end_stream_floor k turnID ref fmt rest sent :
  floors (Some (k, None)) (end_stream turnID ref fmt rest sent) (fun t _ => exists b', t = Some (k, b')).
Proof.
  unfold end_stream. destruct rest as [|x rest].
  - apply floor_send; [cbn; lia|]. intros r b' _. by exists b'.
  - apply tracks_bind, floor_quiet; [apply seq_same|]. intros seq b Hb.
    apply tracks_bind, floor_send; [rewrite Hb; cbn; lia|]. intros [] b' Hb'; [|by exists b']. cbv beta iota.
    apply floor_send; [rewrite Hb in Hb'; cbn in Hb'; lia|]. intros r b2 _. by exists b2.
Qed.

Lemma send_floor audio turn k ref : floors (Some (k, None)) (sendRescueAudio audio turn k ref) (fun _ _ => True).
Proof.
  unfold sendRescueAudio. destruct (String.eqb _ _); [done|]. cbv zeta.
  apply tracks_bind, floor_send; [cbn; lia|]. intros [] b _; [|done]. cbv beta iota.
  destruct (whole_frames _ _ _) as [payloads rest].
  apply tracks_bind. eapply tracks_mono; [|apply number_frames_floor]. intros t frames (b1 & -> & _).
  apply tracks_bind. eapply tracks_mono; [|apply write_frames_floor]. intros t [sent|] (b2 & ->); [|done].
  apply tracks_bind, floor_live; [|done]. cbv beta iota.
  apply tracks_bind. eapply tracks_mono; [|apply end_stream_floor]. intros t [] (b3 & ->); [|done]. cbv beta iota.
  by apply tracks_bind, floor_quiet; [apply finish_same|].
Qed.

Lemma generate_floor level turnID conv :
  floors None (GenerateAndSynthesize has_synth level turnID conv) (fun t _ => t = None).
Proof.
  unfold GenerateAndSynthesize. destruct (negb _); [done|].
  do 3 (apply tracks_bind, floor_before; [done|]; intros ?). destruct (negb _); [done|].
  apply tracks_bind, floor_before; [done|]. intros _. destruct (negb has_synth); [done|].
  apply tracks_bind, floor_before; [done|]. intros [a|]; [|done]. by destruct (ra_PCM a).
Qed.

Lemma begin_floor turnID (post : account -> Z * option Z -> Prop) :
  (forall k ref, post (Some (k, None)) (k, ref)) -> floors None (call (Begin_ turnID)) post.
Proof.
  intros Hp. apply tracks_call. intros a rt _. cbn. unfold beginRescueSpeech.
  destruct (NextRef (rt_turnRefs rt)) as [ref refs]. cbn. eexists. split; [by eapply Floor_taken|apply Hp].
Qed.

Lemma emit_floor level (post : account -> unit -> Prop) : (forall t, post t tt) -> floors None (emitRescue has_synth level) post.
Proof.
  intros Hp. apply tracks_bind, floor_before; [done|]. intros [conv turn]. apply tracks_bind.
  eapply tracks_mono; [|apply generate_floor]. intros t [audio|] ->; [|apply Hp].
  apply tracks_bind, begin_floor. intros k ref. destruct audio as [a|]; [|apply Hp].
  apply tracks_bind. eapply tracks_mono; [|apply send_floor]. intros t r _. apply Hp.
Qed.

Lemma silence_floor level : floors None (silence_rung has_synth level) (fun _ _ => True).
Proof.
  apply tracks_bind, emit_floor. intros [[k b]|]; [by apply floor_quiet|by apply floor_before].
Qed.

(** The account of a rung in a session. *)
Definition holds_account (g : Gateway) (r : Rung) (t : account) : Prop :=
  floors t (r_prog r) (fun _ _ => True) /\ aware t (g_rt g) /\
  (forall k b, t = Some (k, b) -> k <= rt_speechGen (g_rt g) /\ (allowed b <= 2)%nat) /\
  (forall k, r_token r = Some k -> exists b, t = Some (k, b)).

Definition floored (g : Gateway) : Prop :=
  0 <= rt_speechGen (g_rt g) /\ forall i r, g_rungs g !! i = Some r -> exists t, holds_account g r t.

(** Before the counter wraps it only grows. *)
Definition grows (rt rt' : Runtime) : Prop :=
  rt_speechGen rt <= rt_speechGen rt' <= rt_speechGen rt + 1.

Lemma keeps_grows rt rt' : 0 <= rt_speechGen rt -> rt_speechGen rt + 1 < 2 ^ 64 ->
  rt_speechGen rt' = rt_speechGen rt \/ rt_speechGen rt' = uint64 (rt_speechGen rt + 1) -> grows rt rt'.
Proof. unfold grows, uint64. intros ? ? [->| ->]; [lia|]. rewrite Z.mod_small; lia. Qed.

Lemma floor_step_keeps t rt rt' fs t' : floor_step t rt rt' fs t' ->
  rt_speechGen rt' = rt_speechGen rt \/ rt_speechGen rt' = uint64 (rt_speechGen rt + 1).
Proof. destruct 1; try (by left); [by right|left; congruence]. Qed.

Lemma holds_grown g g' r t : grows (g_rt g) (g_rt g') -> holds_account g r t -> holds_account g' r t.
Proof.
  unfold grows. intros Hg (Hs & Ha & Hk & Ht). split_and!; [done| | |done].
  - destruct t as [[k [n|]]|]; cbn in Ha |- *; [|done..]. destruct (Hk k _ eq_refl). lia.
  - intros k b E. destruct (Hk k b E). lia.
Qed.

Lemma holds_new g auto p : floors None p (fun _ _ => True) -> holds_account g (mkRung auto p None) None.
Proof. intros H. by split_and!. Qed.

(** The account of a rung that steps. *)
Lemma holds_stepped g g' i auto R (e : rungE R) k token a t t' :
  g_rungs g !! i = Some (mkRung auto (Do e k) token) -> g_rt g' = (perform a e (g_rt g)).1.2 ->
  grows (g_rt g) (g_rt g') -> holds_account g (mkRung auto (Do e k) token) t ->
  floor_step t (g_rt g) (g_rt g') (perform a e (g_rt g)).2 t' -> floors t' (k (perform a e (g_rt g)).1.1) (fun _ _ => True) ->
  holds_account g' (mkRung auto (k (perform a e (g_rt g)).1.1)
    (match token_of e (perform a e (g_rt g)).1.1 with Some t => Some t | None => token end)) t'.
Proof.
  intros Hi Ert Hg (_ & Ha & Hk & Ht) Hf Hs. unfold grows in Hg. split_and!; cbn; [done| | |].
  - inversion Hf; subst; cbn; try done; congruence.
  - intros k' b Et. inversion Hf; subst; simplify_eq; [cbn; lia|cbn; lia|]. destruct (Hk _ _ eq_refl). cbn in *. lia.
  - intros k' Hk'. destruct (token_of e _) as [k2|] eqn:E.
    + injection Hk' as ->. destruct e; try discriminate E. cbn in E, Ert, Hf.
      unfold beginRescueSpeech in E, Ert, Hf. destruct (NextRef (rt_turnRefs (g_rt g))) as [ref refs].
      cbn in E, Ert, Hf. injection E as E.
      assert (Hne : rt_speechGen (g_rt g) <> rt_speechGen (g_rt g')).
      { rewrite Ert. cbn. unfold uint64. intros Hc. 
        pose proof (Z.mod_pos_bound (rt_speechGen (g_rt g) + 1) (2 ^ 64) ltac:(done)).
        assert (H2 := Z.div_mod (rt_speechGen (g_rt g) + 1) (2 ^ 64) ltac:(done)). lia. }
      inversion Hf; subst; try congruence. exists None. rewrite Ert. done.
    + destruct (Ht k' Hk') as [b ->]. inversion Hf; subst; by eexists.
Qed.

Lemma floored_moves g g' : moves g g' -> rt_speechGen (g_rt g) + 1 < 2 ^ 64 -> floored g ->
  grows (g_rt g) (g_rt g') /\ floored g'.
Proof.
  intros M Hlt [H0 Hr].
  assert (Hg : grows (g_rt g) (g_rt g')).
  { destruct M as [rt reader fs [Hk _]|i auto R e k token a Hi|rt level _ _ Hk|rt level [Hk _]]; cbn.
    - by apply keeps_grows.
    - destruct (Hr i _ Hi) as (t & Hs & Ha & _). destruct (Hs a (g_rt g) Ha) as (t' & Hf & _).
      apply keeps_grows; [done..|]. by eapply floor_step_keeps.
    - apply keeps_grows; [done..|by left].
    - by apply keeps_grows. }
  assert (Hold : forall i r, g_rungs g !! i = Some r -> exists t, holds_account g' r t).
  { intros i r Hi. destruct (Hr i r Hi) as [t Ht]. exists t. by apply (holds_grown g). }
  split; [done|]. split; [unfold grows in Hg; lia|].
  destruct M as [rt reader fs Hk|i auto R e k token a Hi|rt level _ _ Hk|rt level Hk]; cbn [g_rungs]; [exact Hold|..].
  - intros j r [(<- & <- & _)|[_ Hj]]%list_lookup_insert_Some; [|by apply (Hold j)].
    destruct (Hr i _ Hi) as (t & Ht). pose proof Ht as (Hs & Ha & _).
    destruct (Hs a (g_rt g) Ha) as (t' & Hf & Hs'). exists t'. by eapply holds_stepped.
  - intros j r [Hj|[-> ->]]%lookup_grown; [by apply (Hold j)|]. exists None. apply holds_new, silence_floor.
  - intros j r [Hj|[-> ->]]%lookup_grown; [by apply (Hold j)|]. exists None. apply holds_new, emit_floor. by intros.
Qed.

Lemma floor_lost k (p : gprog unit) : floors (Some (k, None)) p (fun _ _ => True) -> floors (Some (k, Some 2%nat)) p (fun _ _ => True).
Proof.
  destruct p as [x|R e h]; [done|]. intros Hs a rt Ha. cbn in Ha. destruct (Hs a rt I) as (t' & Hf & Hs').
  exists t'. split; [|done]. inversion Hf; subst; [done|by constructor].
Qed.

(** What remains of a rung that lost the floor. *)
Definition falling (i : nat) (k : Z) (most : nat) (g : Gateway) : Prop :=
  exists r n, g_rungs g !! i = Some r /\ floors (Some (k, Some n)) (r_prog r) (fun _ _ => True) /\
    k < rt_speechGen (g_rt g) /\ (length (written_by i g) + n <= most)%nat.

Lemma falling_moves i k most g g' : moves g g' -> grows (g_rt g) (g_rt g') -> falling i k most g -> falling i k most g'.
Proof.
  intros M Hg (r & n & Hi & Hs & Hk & Hn). unfold grows in Hg.
  assert (Hk' : k < rt_speechGen (g_rt g')) by lia. clear Hg.
  destruct M as [rt reader fs _|j auto R e h token a Hj|rt level _ _ _|rt level _]; cbn in Hk'.
  - exists r, n. rewrite written_outside. by split_and!.
  - destruct (decide (i = j)) as [<-|Hne].
    + rewrite Hi in Hj. injection Hj as ->.
      destruct (Hs a (g_rt g) ltac:(cbn; lia)) as (t' & Hf & Hs').
      inversion Hf; subst. eexists _, _. split_and!.
      * cbn. apply list_lookup_insert_eq. by eapply lookup_lt_Some.
      * exact Hs'.
      * done.
      * rewrite written_own, length_app. cbn [allowed] in *.
        change (written_by i (mkGateway _ _ _ (g_wire g))) with (written_by i g). lia.
    + exists r, n. rewrite written_other by done. split_and!; [cbn; by rewrite list_lookup_insert_ne|done..].
  - exists r, n. split_and!; [cbn; by apply lookup_app_l_Some|done..].
  - exists r, n. split_and!; [cbn; by apply lookup_app_l_Some|done..].
Qed.

Lemma floored_opened thresholds : floored (opened session thresholds).
Proof. by split. Qed.

(** A property of floored sessions that every move keeps while the counter
    grows. *)
Lemma floored_run (I : Gateway -> Prop) : (forall g g', moves g g' -> grows (g_rt g) (g_rt g') -> I g -> I g') ->
  forall cs g, steady (g_reader g) -> floored g -> rt_speechGen (g_rt g) + Z.of_nat (length cs) < 2 ^ 64 -> I g ->
  floored (run cs g) /\ I (run cs g) /\ rt_speechGen (g_rt (run cs g)) <= rt_speechGen (g_rt g) + Z.of_nat (length cs).
Proof.
  intros Hm. induction cs as [|c cs IH]; intros g Hr Hf Hl HI; [split_and!; [done|done|cbn; lia]|].
  cbn [length] in Hl |- *. destruct (step_moves enabled has_synth session g c Hr) as [M Hr'].
  destruct (floored_moves g _ M) as [Hg Hf']; [lia|done|]. pose proof Hg as Hg'. unfold grows in Hg'.
  destruct (IH (step g c)) as (H1 & H2 & H3); [done|done|lia|by apply (Hm g)|].
  split_and!; [exact H1|exact H2|]. change (run (c :: cs) g) with (run cs (step g c)). lia.
Qed.

Lemma reader_run cs : forall g, steady (g_reader g) -> steady (g_reader (run cs g)).
Proof.
  induction cs as [|c cs IH]; intros g H; [done|]. apply (IH (step g c)). by apply step_moves.
Qed.

(** C13: A rung that lost the floor falls silent: once the token it speaks under
    is no longer current it puts at most two more frames on the wire, whatever
    the poller, the read loop, the relays and the other rungs do from then on, as
    long as the session takes fewer than 2^64 steps. *)
Theorem rung_falls_silent thresholds cs cs' i r k :
  Z.of_nat (length (cs ++ cs')) < 2 ^ 64 ->
  let g := run cs (opened session thresholds) in
  g_rungs g !! i = Some r -> r_token r = Some k -> rescueSpeechCurrent k (g_rt g) = false ->
  (length (written_by i (run (cs ++ cs') (opened session thresholds))) <= length (written_by i g) + 2)%nat.
Proof.
  intros Hl g Hi Ht Hc. rewrite length_app in Hl.
  destruct (floored_run (fun _ => True) ltac:(done) cs (opened session thresholds)) as ((H0 & Hf) & _ & Hgen);
    [done|apply floored_opened|cbn; lia|done|].
  cbn [opened g_rt new_runtime rt_speechGen] in Hgen. fold g in H0, Hf, Hgen.
  destruct (Hf i r Hi) as (t & Hs & Ha & Hk & Htok). destruct (Htok k Ht) as [b ->]. destruct (Hk k b eq_refl) as [Hle H2].
  unfold rescueSpeechCurrent in Hc. apply Z.eqb_neq in Hc.
  assert (falling i k (length (written_by i g) + 2) g) as Hfall.
  { destruct b as [n|]; [exists r, n|exists r, 2%nat]; cbn in H2.
    - split_and!; [done|done|lia|lia].
    - split_and!; [done|by apply floor_lost|lia|lia]. }
  destruct (floored_run (falling i k (length (written_by i g) + 2)) (falling_moves i k _) cs' g) as (_ & H & _);
    [by apply reader_run|by split|lia|done|].
  destruct H as (r' & n & _ & _ & _ & H). unfold run_gateway. rewrite foldl_app. fold (run cs (opened session thresholds)).
  unfold g in H |- *. unfold run_gateway in H |- *. lia.
Qed.

End session.

(** * A rung nobody interrupts

    When the writes go through and nobody takes the floor, a rung is delivered in
    full. *)


Section session.
Variable enabled has_synth : bool.
Variable session : ConsumedTicket.

Local Abbreviation perform := (@perform_rung session _).
Local Abbreviation step := (gateway_step enabled has_synth session).
Local Abbreviation run := (run_gateway enabled has_synth session).

(** A program that runs alone, every step answered by [a]. *)
Fixpoint solo {A} (a : Answer) (p : gprog A) (rt : Runtime) : A * Runtime * list Frame :=
  match p with
  | Ret x => (x, rt, [])
  | Do e k =>
      let '(x, rt', fs) := solo a (k (perform a e rt).1.1) (perform a e rt).1.2 in (x, rt', (perform a e rt).2 ++ fs)
  end.

Lemma solo_bind {A B} a (p : gprog A) (k : A -> gprog B) : forall rt,
  solo a (bind p k) rt =
    let '(x, rt1, fs) := solo a p rt in let '(y, rt2, fs') := solo a (k x) rt1 in (y, rt2, fs ++ fs').
Proof.
  induction p as [x|R e h IH]; intros rt; cbn; [by destruct (solo a (k x) rt) as [[? ?] ?]|].
  rewrite IH. destruct (solo a (h _) _) as [[x rt1] fs], (solo a (k x) rt1) as [[y rt2] fs']. by rewrite app_assoc.
Qed.

(** The steps of a rung that runs alone. *)
Lemma solo_steps a i (p : gprog unit) : forall g auto token, g_rungs g !! i = Some (mkRung auto p token) ->
  exists n token', run (replicate n (RungStep i a)) g =
    mkGateway (solo a p (g_rt g)).1.2 (<[i := mkRung auto (Ret (solo a p (g_rt g)).1.1) token']> (g_rungs g)) (g_reader g)
      (g_wire g ++ map (pair (Some i)) (solo a p (g_rt g)).2).
Proof.
  induction p as [x|R e h IH]; intros g auto token Hi.
  - exists 0%nat, token. cbn. rewrite app_nil_r, list_insert_id by done. by destruct g.
  - assert (Hl : (i < length (g_rungs g))%nat) by by eapply lookup_lt_Some.
    set (r := (perform a e (g_rt g)).1.1).
    set (tok := match token_of e r with Some t => Some t | None => token end).
    assert (Estep : step g (RungStep i a) =
      mkGateway (perform a e (g_rt g)).1.2 (<[i := mkRung auto (h r) tok]> (g_rungs g)) (g_reader g)
        (g_wire g ++ map (pair (Some i)) (perform a e (g_rt g)).2)).
    { cbn [gateway_step]. unfold rung_step. rewrite Hi. unfold tok, r. by destruct (perform a e (g_rt g)) as [[? ?] ?]. }
    destruct (IH r (step g (RungStep i a)) auto tok) as (n & token' & Hn).
    { rewrite Estep. by apply list_lookup_insert_eq. }
    exists (S n), token'. change (run (replicate (S n) (RungStep i a)) g) with (run (replicate n (RungStep i a)) (step g (RungStep i a))).
    rewrite Hn, Estep. cbn [solo g_rt g_rungs g_reader g_wire]. fold r. destruct (solo a (h r) (perform a e (g_rt g)).1.2) as [[x rt] fs]. cbn [fst snd].
    by rewrite list_insert_insert_eq, map_app, app_assoc.
Qed.

(** ** The frames of a recording *)
Lemma drop_encoded seq ref p : p <> [] -> drop (HeaderBytes (AudioFrameLayoutFor ref)) (encode_frame seq ref p) = p.
Proof. intros H. unfold encode_frame, Encode. destruct p; [done|]. apply drop_header. Qed.

Lemma length_encoded seq ref p : p <> [] ->
  Z.of_nat (length (encode_frame seq ref p)) - Z.of_nat (HeaderBytes (AudioFrameLayoutFor ref)) = Z.of_nat (length p).
Proof.
  intros H. unfold encode_frame, Encode. destruct p as [|b p]; [done|].
  cbn [Payload TurnRef Seq]. rewrite length_header. lia.
Qed.

Lemma whole_frames_spec size : (0 < size)%nat -> forall fuel pcm, (length pcm <= fuel)%nat ->
  concat (whole_frames fuel size pcm).1 ++ (whole_frames fuel size pcm).2 = pcm /\
  Forall (fun p => p <> []) (whole_frames fuel size pcm).1.
Proof.
  intros Hs. induction fuel as [|fuel IH]; intros pcm Hl; [by split|]. cbn.
  destruct (Nat.leb_spec size (length pcm)) as [Hle|Hlt]; [|by split].
  destruct (IH (drop size pcm)) as [Hc Hn]; [rewrite length_drop; lia|].
  destruct (whole_frames fuel size (drop size pcm)) as [frames rest]. cbn in Hc, Hn |- *.
  split; [by rewrite <- app_assoc, Hc, take_drop|]. constructor; [|done].
  intros E. apply (f_equal length) in E. rewrite length_take in E. cbn in E. lia.
Qed.

Lemma solo_numbers a ref payloads : Forall (fun p => p <> []) payloads -> forall rt,
  exists frames rt', solo a (number_frames ref payloads) rt = (frames, rt', []) /\ rt_speechGen rt' = rt_speechGen rt /\
    map (drop (HeaderBytes (AudioFrameLayoutFor ref))) frames = payloads /\
    Forall (fun f => exists seq p, p <> [] /\ f = encode_frame seq ref p) frames.
Proof.
  induction 1 as [|p payloads Hp _ IH]; intros rt; [by exists [], rt|]. cbn.
  destruct (Next (rt_audioSeq rt)) as [seq s]. cbn. rewrite solo_bind.
  destruct (IH (set_audioSeq s rt)) as (frames & rt' & -> & Hg & Hm & Hf). cbn.
  exists (encode_frame seq ref p :: frames), rt'. split_and!; [done|done| |].
  - cbn. by rewrite drop_encoded, Hm.
  - constructor; [by exists seq, p|done].
Qed.

Lemma solo_writes a token ref frames rt : an_sent a = true -> rt_speechGen rt = token ->
  Forall (fun f => exists seq p, p <> [] /\ f = encode_frame seq ref p) frames -> forall sent,
  solo a (write_frames token (HeaderBytes (AudioFrameLayoutFor ref)) frames sent) rt =
    (Some (sent + Z.of_nat (length (concat (map (drop (HeaderBytes (AudioFrameLayoutFor ref))) frames)))), rt,
     map BinaryFrame frames).
Proof.
  intros Hs Hg. induction 1 as [|f frames (seq & p & Hp & ->) _ IH]; intros sent; [cbn; by rewrite Z.add_0_r|].
  cbn. unfold rescueSpeechCurrent. rewrite Hg, Z.eqb_refl. cbn. rewrite Hs. cbn. rewrite IH, length_encoded, drop_encoded by done.
  rewrite length_app, Nat2Z.inj_add, Z.add_assoc. done.
Qed.

Lemma solo_end a turn ref fmt rest sent rt : an_sent a = true ->
  exists rt' tail, solo a (end_stream turn ref fmt rest sent) rt =
    (true, rt', map BinaryFrame tail ++
       [TTSEnd turn "ok" (Some (if 0 <? BytesPerMS fmt
                                then Z.quot (sent + Z.of_nat (length rest)) (BytesPerMS fmt) else 0)) ref]) /\
    rt_speechGen rt' = rt_speechGen rt /\
    concat (map (drop (HeaderBytes (AudioFrameLayoutFor ref))) tail) = rest.
Proof.
  intros Hs. unfold end_stream. destruct rest as [|b rest].
  - exists rt, []. cbn. rewrite Hs, Z.add_0_r. done.
  - cbn [bind call solo perform_rung]. destruct (Next (rt_audioSeq rt)) as [seq s]. cbn [fst snd]. rewrite Hs. cbn [negb].
    exists (set_audioSeq s rt), [encode_frame seq ref (b :: rest)].
    cbn [bind call solo perform_rung fst snd map concat app]. rewrite Hs, length_encoded, drop_encoded by done.
    split_and!; [done|done|apply app_nil_r].
Qed.

(** ** A rung in full *)
Definition told (a : Answer) (level : Z) : string :=
  match an_text a with Ok text => text | Err _ => getFallback level end.

(** The recording the synthesizer answers, when it answers one. *)
Definition voiced (a : Answer) : option RescueAudio :=
  if has_synth then
    match an_audio a with
    | Ok x => match ra_PCM x with [] => None | _ :: _ => Some x end
    | Err _ => None
    end
  else None.

(** A stream that carries a recording. *)
Definition streams (turn : string) (ref : option Z) (audio : RescueAudio) (fs : list Frame) : Prop :=
  let u := ladder_utterance audio turn in
  let fmt := formatOrClient u in
  exists frames,
    fs = [TTSStart turn (ra_VoiceID audio) (SampleRate fmt) (codecOrPCM u) ref] ++ map BinaryFrame frames ++
         [TTSEnd turn "ok" (Some (Z.quot (Z.of_nat (length (ra_PCM audio))) (BytesPerMS fmt))) ref] /\
    concat (map (drop (HeaderBytes (AudioFrameLayoutFor ref))) frames) = ra_PCM audio.

Lemma solo_stream a audio turn token ref rt : an_sent a = true -> rt_speechGen rt = token -> TrimSpace turn <> "" ->
  exists rt' fs, solo a (sendRescueAudio audio turn token ref) rt = (true, rt', fs) /\ streams turn ref audio fs.
Proof.
  intros Hs Hg Hturn. unfold sendRescueAudio, streams. cbv zeta. set (u := ladder_utterance audio turn).
  change (UID u) with turn. rewrite (proj2 (String.eqb_neq _ _)) by done.
  pose proof (formatOrClient_pos u) as Hpos.
  pose proof (FrameBytes_pos _ _ Hpos (frameMSOrDefault_pos u)) as Hsize.
  destruct (whole_frames_spec (Z.to_nat (FrameBytes (formatOrClient u) (frameMSOrDefault u))) ltac:(lia)
    (length (ra_PCM audio)) (ra_PCM audio) ltac:(done)) as [Hc Hn].
  destruct (whole_frames _ _ _) as [payloads rest]. cbn [fst snd] in Hc, Hn.
  rewrite solo_bind. cbn [solo call perform_rung fst snd]. rewrite Hs. cbn [negb].
  rewrite solo_bind. destruct (solo_numbers a ref payloads Hn rt) as (frames & rt1 & -> & Hg1 & Hm & Hf).
  rewrite solo_bind, (solo_writes a token ref) by (done || congruence).
  rewrite solo_bind. cbn [solo call perform_rung fst snd]. unfold rescueSpeechCurrent.
  rewrite Hg1, Hg, Z.eqb_refl. cbn [negb]. rewrite solo_bind.
  destruct (solo_end a turn ref (formatOrClient u) rest
    (0 + Z.of_nat (length (concat (map (drop (HeaderBytes (AudioFrameLayoutFor ref))) frames)))) rt1 Hs)
    as (rt2 & tail & -> & Hg2 & Ht).
  cbn [negb bind solo call perform_rung fst snd]. eexists _, _. split; [reflexivity|].
  exists (frames ++ tail). rewrite Hm, !map_app, concat_app, Hm, Ht, Hc. split; [|done].
  rewrite (proj2 (Z.ltb_lt _ _)) by done. rewrite Z.add_0_l, <- Nat2Z.inj_add, <- length_app, Hc, app_nil_r.
  by rewrite <- !app_assoc.
Qed.

Lemma snapshot_turn rt : TrimSpace (tk_SessionID session) <> "" -> TrimSpace (rescueSnapshot session rt).2 <> "".
Proof.
  intros H. unfold rescueSnapshot. cbv zeta. cbn [snd]. destruct (String.eqb_spec (TrimSpace (rt_rescueTurnID rt)) "") as [E|E]; [done|].
  by rewrite TrimSpace_idem.
Qed.

Lemma solo_generate a level turn conv rt : ValidRescueLevel level = true -> an_sent a = true ->
  exists rt', solo a (GenerateAndSynthesize has_synth level turn conv) rt =
    (Some (voiced a), rt', [RescueLadder turn level (told a level) (UnixMilli (an_now a))]) /\
    rt_turnRefs rt' = rt_turnRefs rt.
Proof.
  intros Hl Hs. unfold GenerateAndSynthesize, voiced. rewrite Hl. cbn [negb bind call solo perform_rung fst snd]. rewrite Hs.
  fold (told a level). cbn [negb]. destruct has_synth; cbn [negb bind call solo perform_rung fst snd app].
  - destruct (an_audio a) as [x|err]; [destruct (ra_PCM x)|]; by eexists.
  - by eexists.
Qed.

Lemma solo_emit a level rt : TrimSpace (tk_SessionID session) <> "" -> ValidRescueLevel level = true -> an_sent a = true ->
  let turn := (rescueSnapshot session rt).2 in
  exists rt' stream, solo a (emitRescue has_synth level) rt =
    (tt, rt', RescueLadder turn level (told a level) (UnixMilli (an_now a)) :: stream) /\
    match voiced a with
    | Some audio => streams turn (NextRef (rt_turnRefs rt)).1 audio stream
    | None => stream = []
    end.
Proof.
  intros Hid Hl Hs turn. pose proof (snapshot_turn rt Hid : TrimSpace turn <> "") as Hturn.
  unfold emitRescue. rewrite solo_bind. cbn [solo call perform_rung fst snd].
  destruct (rescueSnapshot session rt) as [conv turn'] eqn:E. subst turn. cbn [snd] in Hturn |- *.
  rewrite solo_bind. destruct (solo_generate a level turn' conv rt Hl Hs) as (rt1 & -> & Hrefs).
  rewrite solo_bind. cbn [solo call perform_rung fst snd]. unfold beginRescueSpeech. rewrite Hrefs.
  destruct (NextRef (rt_turnRefs rt)) as [ref refs]. cbn [fst snd].
  destruct (voiced a) as [audio|]; [|by eexists _, _].
  rewrite solo_bind. edestruct (solo_stream a audio turn') as (rt2 & fs & -> & Hfs); [done|reflexivity|done|].
  eexists _, fs. cbn [solo app]. by rewrite app_nil_r.
Qed.

(** C15: A rung that runs with nobody in its way is delivered in full: when its
    writes go through it sends its text, the generated one or that of the
    fallback library, under the assistant's turn (the session's id before there is
    one), and when the synthesizer answered a recording it streams exactly that
    recording and ends it "ok" with its duration; then it is finished. *)
Theorem rung_alone_is_spoken g i auto level token a :
  TrimSpace (tk_SessionID session) <> "" -> ValidRescueLevel level = true -> an_sent a = true ->
  g_rungs g !! i = Some (mkRung auto (if auto then silence_rung has_synth level else emitRescue has_synth level) token) ->
  let turn := (rescueSnapshot session (g_rt g)).2 in
  exists n stream,
    let g' := run (replicate n (RungStep i a)) g in
    written_by i g' = written_by i g ++ RescueLadder turn level (told a level) (UnixMilli (an_now a)) :: stream /\
    match voiced a with
    | Some audio => streams turn (NextRef (rt_turnRefs (g_rt g))).1 audio stream
    | None => stream = []
    end /\
    (exists r, g_rungs g' !! i = Some r /\ idle (r_prog r) = true).
Proof.
  intros Hid Hl Hs Hi turn. destruct (solo_steps a i _ g auto token Hi) as (n & token' & Hn).
  destruct (solo_emit a level (g_rt g) Hid Hl Hs) as (rt' & stream & E & Hstream). fold turn in E, Hstream.
  exists n, stream. cbv zeta. rewrite Hn, written_own. split_and!; [|done|].
  - f_equal. destruct auto; [unfold silence_rung; rewrite solo_bind|]; rewrite E; [|done].
    cbn [bind call solo perform_rung fst snd]. by rewrite app_nil_r.
  - eexists. split; [apply list_lookup_insert_eq; by eapply lookup_lt_Some|done].
Qed.

End session.

(** * Sessions of the rescue ladder, step by step

    Concrete interleavings: instances of the theorems, and what the ladder does
    at its edges. *)


Definition ticket : ConsumedTicket := mkTicket "s1" "u1".

Definition recording : RescueAudio := mkRescueAudio ["a"; "b"; "c"]%char 16000 "pcm" "v".

Definition fine : Answer := mkAnswer (Ok "I think..."%string) (Ok recording) true 5.

Definition start_of_day : time := 1774961805 * Second.

(** The assistant asks; the learner stays silent past the first threshold. *)
Definition asked : list Choice :=
  [SpeechStart; SpeechEnd (Some ("t1", "It works well for us.")%string)] ++ replicate 5 (ReadStep fine) ++
  [Relay start_of_day [mkOutbound (Some (TextDelta "Why?" "t1" 0)) [] "";
                       mkOutbound (Some (TurnEnd "t1" "ok" "" false)) [] ""];
   Tick (start_of_day + 3 * Second)].

(** The learner answers. *)
Definition answered : list Choice :=
  [SpeechStart; SpeechEnd (Some ("t2", "I think so because of cost.")%string)] ++ replicate 6 (ReadStep fine).

Definition steps (i n : nat) : list Choice := replicate n (RungStep i fine).

Definition sent (has_synth : bool) (cs : list Choice) : list (option nat * Frame) :=
  g_wire (run_gateway true has_synth ticket cs (opened ticket (mkThresholds 0 0 0))).

Definition start_of (x : option nat * Frame) : option (option Z) :=
  match x.2 with TTSStart _ _ _ _ ref => Some ref | _ => None end.
Definition end_of (x : option nat * Frame) : option (string * option Z) :=
  match x.2 with TTSEnd _ status _ ref => Some (status, ref) | _ => None end.

Definition starts (w : list (option nat * Frame)) : list (option Z) := omap start_of w.
Definition ends (w : list (option nat * Frame)) : list (string * option Z) := omap end_of w.

(** A session whose rung obtained the floor and lost it to the answer. *)
Abbreviation interrupted :=
  (run_gateway true true ticket (asked ++ steps 0 7 ++ answered) (opened ticket (mkThresholds 0 0 0))).

Definition first_rung (g : Gateway) : Rung := default (mkRung false (Ret tt) None) (g_rungs g !! 0%nat).

Lemma first_rung_found g : bool_decide (0 < length (g_rungs g))%nat = true -> g_rungs g !! 0%nat = Some (first_rung g).
Proof. unfold first_rung. rewrite bool_decide_eq_true. by destruct (g_rungs g) as [|r l]; [intros ?%Nat.nlt_0_r|]. Qed.

Lemma rung_falls_silent_witness :
  r_token (first_rung interrupted) = Some 1 /\ rescueSpeechCurrent 1 (g_rt interrupted) = false /\
  (length (written_by 0 (run_gateway true true ticket ((asked ++ steps 0 7 ++ answered) ++ steps 0 9)
     (opened ticket (mkThresholds 0 0 0)))) <= length (written_by 0 interrupted) + 2)%nat.
Proof.
  assert (Ht : r_token (first_rung interrupted) = Some 1) by (vm_compute; reflexivity).
  assert (Hc : rescueSpeechCurrent 1 (g_rt interrupted) = false) by (vm_compute; reflexivity).
  split; [exact Ht|]. split; [exact Hc|].
  refine (RescueLaws.rung_falls_silent true true ticket (mkThresholds 0 0 0) (asked ++ steps 0 7 ++ answered) (steps 0 9)
    0 (first_rung interrupted) 1 _ _ Ht Hc); [vm_compute; reflexivity|].
  apply first_rung_found. vm_compute. reflexivity.
Defined.

(** A session with one rung about to run. *)
Definition about_to_speak : Gateway :=
  mkGateway (new_runtime "s1" (mkThresholds 0 0 0)) [mkRung true (silence_rung true 1) None] (Ret tt) [].

Lemma rung_alone_is_spoken_witness : exists n stream,
  let g' := run_gateway true true ticket (replicate n (RungStep 0 fine)) about_to_speak in
  written_by 0 g' = RescueLadder "s1" 1 "I think..." (UnixMilli 5) :: stream /\
  streams "s1" (Some 1) recording stream /\
  (exists r, g_rungs g' !! 0%nat = Some r /\ idle (r_prog r) = true).
Proof.
  refine (RescueLaws.rung_alone_is_spoken true true ticket about_to_speak 0 true 1 None fine _ _ _ _);
    [discriminate|reflexivity..].
Defined.

(** ** Edges of the ladder *)

(** A rung without audio leaves its turn as the one being spoken: the learner's
    answer then ends a stream that never started. *)
Lemma silent_rung_is_ended :
  starts (sent false (asked ++ steps 0 9 ++ answered)) = [] /\
  ends (sent false (asked ++ steps 0 9 ++ answered)) = [("interrupted"%string, Some 1)].
Proof. split; vm_compute; reflexivity. Qed.

(** The answer comes between the last look at the token and the release of the
    stream: one stream, two ends. *)
Lemma stream_ended_twice :
  starts (sent true (asked ++ steps 0 12 ++ answered)) = [Some 1] /\
  ends (sent true (asked ++ steps 0 12 ++ answered)) = [("ok"%string, Some 1); ("interrupted"%string, Some 1)].
Proof. split; vm_compute; reflexivity. Qed.

(** The learner asks for the next rung while one is spoken: the new one takes the
    floor and the stream of the first is never ended. *)
Lemma overtaken_stream_never_ends :
  starts (sent true (asked ++ steps 0 8 ++ [Ask (start_of_day + 4 * Second)] ++ steps 1 20 ++ steps 0 20 ++ answered))
    = [Some 1; Some 2] /\
  ends (sent true (asked ++ steps 0 8 ++ [Ask (start_of_day + 4 * Second)] ++ steps 1 20 ++ steps 0 20 ++ answered))
    = [("ok"%string, Some 2)].
Proof. split; vm_compute; reflexivity. Qed.

(** An answer while the audio is synthesized does not cancel the rung: it is
    spoken over the learner in full. *)
Lemma pending_rung_is_not_cancelled :
  starts (sent true (asked ++ steps 0 6 ++ answered)) = [] /\
  ends (sent true (asked ++ steps 0 6 ++ answered)) = [] /\
  ends (sent true (asked ++ steps 0 6 ++ answered ++ steps 0 9)) = [("ok"%string, Some 1)].
Proof. split_and!; vm_compute; reflexivity. Qed.
