(* ===== verification/VoiceLoop.v ===== *)
(** * One voice connection ([internal/voicegateway], handler.go and handler_control.go)

    The read loop of a connection, the goroutines that collect the reply of a
    turn, and the report of the session to app-server.  The provider sessions and
    app-server are outside: each call is a step, answered arbitrarily.  A frame of
    the client is given by what decoding it answers; a frame that does not decode
    leaves the fields it is decoded into empty.  Deadlines and log lines are left
    out. *)
From S2P Require Import Prelude GoString GoTime GoJson ApiErr Frames Audio Turn Silence RescueLog Conversation SessionService Prog Rescue.

Open Scope Z_scope.
Open Scope prog_scope.

Record SessionStart := mkSessionStart {
  st_MaterialID : string;
  st_SceneType : string;
  st_Voice : string;
  st_ContinueFromSessionID : string;
}.

(** What app-server resolved for the provider to open with. *)
Record SessionContext := mkContext {
  sc_Continuation : list ContinuationUtterance;
  sc_Material : string;
  sc_TurnLimit : Z;
}.

Record ActivateResult := mkActivate { ar_MaterialContext : string; ar_TurnLimit : Z }.

(** A text frame of the client: its type and what decoding it as each frame
    answers. *)
Record ClientFrame := mkClientFrame {
  cf_type : result error string;
  cf_ping : result error Z;
  cf_start : result error SessionStart;
  cf_abort : result error string;
  cf_rescue : result error unit;
  cf_reason : string;
  cf_speech : option (string * string);
}.

(** The runtime of a connection.  Provider sessions are numbered in the order
    they were opened. *)
Record Conn := mkConn {
  cn_rt : Runtime;
  cn_started : bool;
  cn_startedAt : time;
  cn_provider : option nat;
  cn_broken : bool;
  cn_reopenAttempted : bool;
  cn_lastStart : option SessionStart;
  cn_session : SessionContext;
  cn_unknownFrameCount : Z;
  cn_ended : bool;
  cn_collecting : bool;
  cn_userTurns : Z;
  cn_sessionComplete : bool;
}.

Definition set_runtime (f : Runtime -> Runtime) (c : Conn) : Conn :=
  mkConn (f (cn_rt c)) (cn_started c) (cn_startedAt c) (cn_provider c) (cn_broken c) (cn_reopenAttempted c)
    (cn_lastStart c) (cn_session c) (cn_unknownFrameCount c) (cn_ended c) (cn_collecting c) (cn_userTurns c)
    (cn_sessionComplete c).
Definition set_opened (p : nat) (now : time) (c : Conn) : Conn :=
  mkConn (cn_rt c) true now (Some p) (cn_broken c) (cn_reopenAttempted c)
    (cn_lastStart c) (cn_session c) (cn_unknownFrameCount c) (cn_ended c) (cn_collecting c) (cn_userTurns c)
    (cn_sessionComplete c).
Definition set_provider (p : nat) (c : Conn) : Conn :=
  mkConn (cn_rt c) (cn_started c) (cn_startedAt c) (Some p) (cn_broken c) (cn_reopenAttempted c)
    (cn_lastStart c) (cn_session c) (cn_unknownFrameCount c) (cn_ended c) (cn_collecting c) (cn_userTurns c)
    (cn_sessionComplete c).
Definition set_broken (c : Conn) : Conn :=
  mkConn (cn_rt c) (cn_started c) (cn_startedAt c) (cn_provider c) true (cn_reopenAttempted c)
    (cn_lastStart c) (cn_session c) (cn_unknownFrameCount c) (cn_ended c) (cn_collecting c) (cn_userTurns c)
    (cn_sessionComplete c).
Definition set_reopen (b : bool) (c : Conn) : Conn :=
  mkConn (cn_rt c) (cn_started c) (cn_startedAt c) (cn_provider c) (cn_broken c) b
    (cn_lastStart c) (cn_session c) (cn_unknownFrameCount c) (cn_ended c) (cn_collecting c) (cn_userTurns c)
    (cn_sessionComplete c).
Definition set_lastStart (s : SessionStart) (c : Conn) : Conn :=
  mkConn (cn_rt c) (cn_started c) (cn_startedAt c) (cn_provider c) (cn_broken c) (cn_reopenAttempted c)
    (Some s) (cn_session c) (cn_unknownFrameCount c) (cn_ended c) (cn_collecting c) (cn_userTurns c)
    (cn_sessionComplete c).
Definition set_session (s : SessionContext) (c : Conn) : Conn :=
  mkConn (cn_rt c) (cn_started c) (cn_startedAt c) (cn_provider c) (cn_broken c) (cn_reopenAttempted c)
    (cn_lastStart c) s (cn_unknownFrameCount c) (cn_ended c) (cn_collecting c) (cn_userTurns c)
    (cn_sessionComplete c).
Definition count_unknown (c : Conn) : Conn :=
  mkConn (cn_rt c) (cn_started c) (cn_startedAt c) (cn_provider c) (cn_broken c) (cn_reopenAttempted c)
    (cn_lastStart c) (cn_session c) (cn_unknownFrameCount c + 1) (cn_ended c) (cn_collecting c) (cn_userTurns c)
    (cn_sessionComplete c).
Definition set_ended (c : Conn) : Conn :=
  mkConn (cn_rt c) (cn_started c) (cn_startedAt c) (cn_provider c) (cn_broken c) (cn_reopenAttempted c)
    (cn_lastStart c) (cn_session c) (cn_unknownFrameCount c) true (cn_collecting c) (cn_userTurns c)
    (cn_sessionComplete c).
Definition set_collecting (b : bool) (c : Conn) : Conn :=
  mkConn (cn_rt c) (cn_started c) (cn_startedAt c) (cn_provider c) (cn_broken c) (cn_reopenAttempted c)
    (cn_lastStart c) (cn_session c) (cn_unknownFrameCount c) (cn_ended c) b (cn_userTurns c)
    (cn_sessionComplete c).
Definition set_turns (n : Z) (complete : bool) (c : Conn) : Conn :=
  mkConn (cn_rt c) (cn_started c) (cn_startedAt c) (cn_provider c) (cn_broken c) (cn_reopenAttempted c)
    (cn_lastStart c) (cn_session c) (cn_unknownFrameCount c) (cn_ended c) (cn_collecting c) n complete.

Definition new_conn (rt : Runtime) : Conn :=
  mkConn rt false zero_time None false false None (mkContext [] "" 0) 0 false false 0 false.

(** ** The steps of a connection

    [Step_] is a critical section, or reads and writes of fields only one
    goroutine works on; the writes of one batch go out under the write lock.  A
    write that fails says whether a deadline expired. *)
Inductive connE : Type -> Type :=
| Step_ {R : Type} (f : Conn -> R * Conn) : connE R
| Time_ : connE time
| Write_ (fs : list Frame) : connE (option bool)
| Ladder_ {R : Type} (e : rungE R) : connE R
| Activate_ : connE (result error ActivateResult)
| Continuation_ (previous : string) : connE (result error (list ContinuationUtterance))
| Open_ : connE (result error nat)
| Start_ (p : nat) (start : SessionStart) (context : SessionContext) : connE (result error (list Outbound))
| Control_ (p : nat) (frameType : string) (frame : ClientFrame) : connE (result error (list Outbound))
| AudioIn_ (p : nat) (payload : bytes) : connE (result error (list Outbound))
| Inject_ (p : nat) (text : string) : connE bool
| Utterances_ (p : nat) : connE (list EndUtteranceItem)
| Usage_ (p : nat) : connE (option VoiceUsageItem)
| End_call (req : EndRequest) : connE (option error)
| Close_ (p : nat) : connE unit
| Badge_ (turnID text : string) : connE unit
| Rung_ (level : Z) : connE unit
| Collect_ (frame : ClientFrame) : connE unit
| WaitCollects : connE unit.

Abbreviation cprog := (program connE).

(** How the handler of a frame ends: the loop goes on, the session was ended, or
    it stops with an error; or the handler panics. *)
Inductive outcome := Continue | Ended | Failed (deadline : bool) | Panicked.

Definition Look : cprog Conn := call (Step_ (fun c => (c, c))).
Definition Set_ (f : Conn -> Conn) : cprog unit := call (Step_ (fun c => (tt, f c))).

(** A program of the ladder, on the runtime of the connection. *)
Fixpoint ladder {A} (p : gprog A) : cprog A :=
  match p with
  | Ret a => Ret a
  | Do e k => Do (Ladder_ e) (fun r => ladder (k r))
  end.

(** [markSessionComplete] *)
Definition mark_complete (complete : bool) (item : Outbound) : Outbound :=
  match complete, ob_Control item with
  | true, Some (TurnEnd turnID result logID _) =>
      mkOutbound (Some (TurnEnd turnID result logID true)) (ob_Binary item) (ob_ServerASRText item)
  | _, _ => item
  end.

Section connection.
(** Whether the ladder was wired, whether the client must send its text, whether
    there are an app-server and a badge emitter, and whose session it is. *)
Variable enabled clientASRRequired has_lifecycle has_badges : bool.
Variable session : ConsumedTicket.

Definition written (w : option bool) : outcome :=
  match w with None => Continue | Some deadline => Failed deadline end.

Definition rtSendError (code message : string) : cprog outcome :=
  w <- call (Write_ [ErrorFrame code message]); Ret (written w).

Definition sendOutbound (outbound : list Outbound) : cprog outcome :=
  if negb (writableOutbound outbound) then Ret Continue else
  now <- call Time_;
  _ <- Set_ (set_runtime (noteProviderOutbound enabled now outbound));
  complete <- call (Step_ (fun c => (cn_sessionComplete c, c)));
  w <- call (Write_ (frames_of (map (mark_complete complete) outbound)));
  Ret (written w).

(** ** Audio *)

(** The reopen of a provider after a failed chunk: the error that remains, or the
    outcome of the chunk sent again. *)
Definition reopen (payload : bytes) : cprog (result error outcome) :=
  opened <- call Open_;
  match opened with
  | Err err => Ret (Err err)
  | Ok p =>
      c <- Look;
      let start := match cn_lastStart c with Some s => s | None => mkSessionStart "" "" "" "" end in
      started <- call (Start_ p start (cn_session c));
      match started with
      | Err err => Ret (Err err)
      | Ok _ =>
          _ <- Set_ (set_provider p);
          retried <- call (AudioIn_ p payload);
          match retried with
          | Err err => Ret (Err err)
          | Ok outbound => o <- sendOutbound outbound; Ret (Ok o)
          end
      end
  end.

Definition handleAudio (payload : bytes) : cprog outcome :=
  c <- Look;
  match cn_started c, cn_provider c with
  | true, Some p =>
      if cn_broken c then Ret Continue else
      r <- call (AudioIn_ p payload);
      match r with
      | Ok outbound => sendOutbound outbound
      | Err err =>
          again <- (if cn_reopenAttempted c then Ret (Err err)
                    else (_ <- Set_ (set_reopen true); reopen payload));
          match again with
          | Ok o => Ret o
          | Err err =>
              _ <- Set_ set_broken;
              _ <- rtSendError "provider_audio_failed" (error_text err);
              Ret (Failed false)
          end
      end
  | _, _ => Ret Continue
  end.

(** ** The turn *)

Definition closingInstruction : string :=
  "这是本次练习的最后一轮。请简短回应用户刚才说的内容并自然收尾：不要再提出新的问题，也不要开启新的话题。".

(** Counts the turn; whether it is the last one of the contract. *)
Definition count_turn (c : Conn) : bool * Conn :=
  let n := cn_userTurns c + 1 in
  let limit := sc_TurnLimit (cn_session c) in
  if (limit <=? 0) || (n <? limit) then (false, set_turns n (cn_sessionComplete c) c)
  else (n <=? limit, set_turns n true c).

Definition noteUserTurn : cprog unit :=
  last <- call (Step_ count_turn);
  if negb last then Ret tt else
  c <- Look;
  match cn_provider c with
  | Some p => _ <- call (Inject_ p closingInstruction); Ret tt
  | None => Ret tt
  end.

(** The goroutine of a turn once it is counted. *)
Definition collectTurn_rest (frame : ClientFrame) : cprog unit :=
  c <- Look;
  match cn_provider c with
  | None => Ret tt
  | Some p =>
      r <- call (Control_ p "user.speech.end" frame);
      match r with
      | Err err => _ <- rtSendError "provider_control_failed" (error_text err); Ret tt
      | Ok outbound =>
          o <- sendOutbound outbound;
          match o with
          | Continue =>
              let text := match cf_speech frame with Some (_, text) => TrimSpace text | None => "" end in
              _ <- (if clientASRRequired && String.eqb text "" then
                      rtSendError "client_asr_required"
                        "user.speech.end.text is required when VOICE_CLIENT_ASR_REQUIRED is enabled"
                    else Ret Continue);
              let userText := if String.eqb text "" then extractServerASRText outbound else text in
              c <- Look;
              let turnID := Turn.ID (rt_turn (cn_rt c)) in
              let turnID := if String.eqb turnID "" then tk_SessionID session else turnID in
              _ <- (if has_badges then call (Badge_ turnID userText) else Ret tt);
              Set_ (set_runtime (noteUserUtteranceText enabled userText))
          | _ => Ret tt
          end
      end
  end.

(** The goroutine of a turn: it ends by releasing the flag. *)
Definition collectTurn (frame : ClientFrame) : cprog unit :=
  _ <- noteUserTurn; collectTurn_rest frame.

Definition collector (frame : ClientFrame) : cprog unit :=
  _ <- collectTurn frame; Set_ (set_collecting false).

(** [collecting.CompareAndSwap(false, true)] *)
Definition claim_collect (c : Conn) : bool * Conn :=
  if cn_collecting c then (false, c) else (true, set_collecting true c).

Definition startCollectTurn (frame : ClientFrame) : cprog outcome :=
  claimed <- call (Step_ claim_collect);
  if negb claimed then Ret Continue else
  _ <- call (Collect_ frame); Ret Continue.

(** ** Control frames *)

(** The code of a frame's failure; none for the frames whose failure is silent. *)
Definition providerErrorCode (frameType : string) : string :=
  if String.eqb frameType "interrupt" then "provider_interrupt_failed"
  else if String.eqb frameType "client.turn.abort" then ""
  else "provider_control_failed".

Definition forwardToProvider (frameType : string) (frame : ClientFrame) : cprog outcome :=
  c <- Look;
  match cn_provider c with
  | None => Ret Panicked
  | Some p =>
      r <- call (Control_ p frameType frame);
      match r with
      | Err err =>
          let code := providerErrorCode frameType in
          if String.eqb code "" then Ret Continue else rtSendError code (error_text err)
      | Ok outbound => sendOutbound outbound
      end
  end.

Definition invalidFrame (message : string) : cprog outcome := rtSendError "invalid_frame" message.

Definition controlKeepalive (frame : ClientFrame) : cprog outcome :=
  match cf_ping frame with
  | Err err => invalidFrame (error_text err)
  | Ok ts =>
      ts <- (if ts =? 0 then (now <- call Time_; Ret (UnixMilli now)) else Ret ts);
      w <- call (Write_ [Pong ts]); Ret (written w)
  end.

Definition openSession : cprog outcome :=
  activated <- (if has_lifecycle then
                  (r <- call Activate_;
                   match r with
                   | Err err => o <- rtSendError "activate_failed" (error_text err); Ret (Some o)
                   | Ok result =>
                       _ <- Set_ (fun c => set_session (mkContext (sc_Continuation (cn_session c))
                              (ar_MaterialContext result) (ar_TurnLimit result)) c);
                       Ret None
                   end)
                else Ret None);
  match activated with
  | Some o => Ret o
  | None =>
      opened <- call Open_;
      match opened with
      | Err err => rtSendError "provider_open_failed" (error_text err)
      | Ok p =>
          now <- call Time_;
          _ <- Set_ (set_opened p now);
          Ret Continue
      end
  end.

Definition controlSessionStart (frame : ClientFrame) : cprog outcome :=
  match cf_start frame with
  | Err err => invalidFrame (error_text err)
  | Ok start =>
      c <- Look;
      o <- (if cn_started c then Ret Continue else openSession);
      match o with
      | Continue =>
          _ <- Set_ (fun c => set_runtime (noteScenario enabled (st_SceneType start) (st_MaterialID start))
                                (set_lastStart start c));
          let previous := TrimSpace (st_ContinueFromSessionID start) in
          _ <- (if negb (String.eqb previous "") && has_lifecycle then
                  (r <- call (Continuation_ previous);
                   match r with
                   | Err _ => Ret tt
                   | Ok turns => Set_ (fun c => set_session (mkContext turns (sc_Material (cn_session c))
                                                  (sc_TurnLimit (cn_session c))) c)
                   end)
                else Ret tt);
          c <- Look;
          match cn_provider c with
          | None => Ret Panicked
          | Some p =>
              r <- call (Start_ p start (cn_session c));
              match r with
              | Err err => rtSendError "provider_start_failed" (error_text err)
              | Ok outbound => sendOutbound outbound
              end
          end
      | o => Ret o
      end
  end.

Definition controlUserSpeech (frameType : string) (frame : ClientFrame) : cprog outcome :=
  c <- Look;
  if negb (cn_started c) then rtSendError "session_not_started" "send session.start first" else
  if String.eqb frameType "user.speech.end" then
    _ <- ladder (noteUserSpeechEnd enabled (cf_speech frame));
    startCollectTurn frame
  else
    _ <- Set_ (fun c => set_runtime (noteUserSpeechStart enabled) (set_reopen false c));
    forwardToProvider frameType frame.

Definition controlTurnAbort (frameType : string) (frame : ClientFrame) : cprog outcome :=
  match cf_abort frame with
  | Err err => invalidFrame (error_text err)
  | Ok result =>
      if negb (ValidClientTurnAbortOutcome result)
      then invalidFrame "client.turn.abort.outcome must be timeout, user_abandoned, or error" else
      c <- Look;
      match cn_started c, cn_provider c with
      | true, Some _ =>
          _ <- Set_ (set_runtime (noteTurnAbort enabled));
          forwardToProvider frameType frame
      | _, _ => Ret Continue
      end
  end.

Definition controlRescue (frame : ClientFrame) : cprog outcome :=
  match cf_rescue frame with
  | Err err => invalidFrame (error_text err)
  | Ok _ =>
      if negb enabled then Ret Continue else
      c <- Look;
      if negb (cn_started c) then
        _ <- rtSendError "session_not_started" "send session.start first"; Ret Continue
      else
        now <- call Time_;
        level <- call (Step_ (fun c => let (level, rt) := requestRescue enabled now (cn_rt c) in
                                       (level, set_runtime (fun _ => rt) c)));
        match level with
        | None => Ret Continue
        | Some level => _ <- call (Rung_ level); Ret Continue
        end
  end.

Definition controlInterrupt (frameType : string) (frame : ClientFrame) : cprog outcome :=
  c <- Look;
  match cn_started c, cn_provider c with
  | true, Some _ => forwardToProvider frameType frame
  | _, _ => Ret Continue
  end.

(** ** The end *)

Definition rescue_item (e : rescueEpisode) : RescueEventItem :=
  mkRescueItem (RescueLog.seq e) (RescueLog.turnID e) (RescueLog.level e) (RescueLog.path e) (RescueLog.ladder e)
    (RescueLog.opened e) (RescueLog.anchor e).

(** [snapshotRescueEvents] seals the open episode. *)
Definition snapshotRescueEvents (c : Conn) : list RescueEventItem * Conn :=
  let (es, l) := snapshot (rt_log (cn_rt c)) in (map rescue_item es, set_runtime (set_log l) c).

Definition persistSession (reason : string) : cprog (option error) :=
  c <- Look;
  duration <- (if cn_started c && negb (IsZero (cn_startedAt c)) then
                 (now <- call Time_; Ret (Z.max 0 (Z.quot (Sub now (cn_startedAt c)) Second)))
               else Ret 0);
  if negb has_lifecycle then Ret None else
  utterances <- match cn_provider c with Some p => call (Utterances_ p) | None => Ret [] end;
  events <- call (Step_ snapshotRescueEvents);
  usage <- match cn_provider c with Some p => call (Usage_ p) | None => Ret None end;
  call (End_call (mkEndRequest (tk_SessionID session) duration reason utterances events usage)).

Definition controlSessionEnd (frame : ClientFrame) : cprog outcome :=
  let reason := TrimSpace (cf_reason frame) in
  let reason := if String.eqb reason "" then "user" else reason in
  _ <- call WaitCollects;
  failed <- persistSession reason;
  match failed with
  | Some err => rtSendError "end_failed" (error_text err)
  | None =>
      _ <- Set_ set_ended;
      _ <- call (Write_ [SessionEndAck]);
      Ret Ended
  end.

Definition unknownFrame : cprog outcome := _ <- Set_ count_unknown; Ret Continue.

Definition HandleControl (frame : ClientFrame) : cprog outcome :=
  match cf_type frame with
  | Err err => invalidFrame (error_text err)
  | Ok t =>
      if String.eqb t "ping" then controlKeepalive frame
      else if String.eqb t "session.start" then controlSessionStart frame
      else if String.eqb t "user.speech.start" then controlUserSpeech t frame
      else if String.eqb t "user.speech.end" then controlUserSpeech t frame
      else if String.eqb t "client.turn.abort" then controlTurnAbort t frame
      else if String.eqb t "client.rescue.request" then controlRescue frame
      else if String.eqb t "interrupt" then controlInterrupt t frame
      else if String.eqb t "session.end" then controlSessionEnd frame
      else if String.eqb t "auth" then rtSendError "already_authenticated" "auth already completed"
      else unknownFrame
  end.

Definition persistOnExit (stopped : outcome) : cprog unit :=
  c <- Look;
  if negb has_lifecycle || negb (cn_started c) || cn_ended c then Ret tt else
  let reason := if cn_broken c then "provider_audio_failed"
                else match stopped with Failed true => "connection_silent" | _ => "connection_closed" end in
  failed <- persistSession reason;
  match failed with Some _ => Ret tt | None => Set_ set_ended end.

(** [rt.close] and what follows it; rungs of the ladder are waited for too. *)
Definition leave (stopped : outcome) : cprog unit :=
  c <- Look;
  _ <- match cn_provider c with Some p => call (Close_ p) | None => Ret tt end;
  _ <- call WaitCollects;
  persistOnExit stopped.

(** ** The goroutines of a connection, interleaved *)

(** What a step puts out: a frame to the client, a call to the outside, a
    goroutine. *)
Inductive Event :=
| Frame_ (f : Frame)
| CalledActivate
| CalledOpen
| CalledStart (p : nat) (start : SessionStart) (context : SessionContext)
| CalledControl (p : nat) (frameType : string)
| CalledAudio (p : nat) (payload : bytes)
| Injected (p : nat) (text : string)
| Reported (req : EndRequest) (accepted : bool)
| ClosedProvider (p : nat)
| Badged (turnID text : string)
| RungAsked (level : Z)
| Forked (frame : ClientFrame)
| Waited.

(** What the outside answers one step. *)
Record Reply := mkReply {
  rp_now : time;
  rp_write : option (nat * bool);
  rp_ladder : Answer;
  rp_activate : result error ActivateResult;
  rp_continuation : result error (list ContinuationUtterance);
  rp_open : result error nat;
  rp_outbound : result error (list Outbound);
  rp_injector : bool;
  rp_utterances : list EndUtteranceItem;
  rp_usage : option VoiceUsageItem;
  rp_end : option error;
}.

Definition perform_conn {R} (a : Reply) (e : connE R) (c : Conn) : R * Conn * list Event :=
  match e in connE R return R * Conn * list Event with
  | Step_ f => (f c, [])
  | Time_ => (rp_now a, c, [])
  | Write_ fs => match rp_write a with
                 | None => (None, c, map Frame_ fs)
                 | Some (n, deadline) => (Some deadline, c, map Frame_ (take n fs))
                 end
  | Ladder_ e => let '(r, rt, fs) := perform_rung session (rp_ladder a) e (cn_rt c) in
                 (r, set_runtime (fun _ => rt) c, map Frame_ fs)
  | Activate_ => (rp_activate a, c, [CalledActivate])
  | Continuation_ _ => (rp_continuation a, c, [])
  | Open_ => (rp_open a, c, [CalledOpen])
  | Start_ p start context => (rp_outbound a, c, [CalledStart p start context])
  | Control_ p frameType _ => (rp_outbound a, c, [CalledControl p frameType])
  | AudioIn_ p payload => (rp_outbound a, c, [CalledAudio p payload])
  | Inject_ p text => (rp_injector a, c, if rp_injector a then [Injected p text] else [])
  | Utterances_ p => (rp_utterances a, c, [])
  | Usage_ p => (rp_usage a, c, [])
  | End_call req => (rp_end a, c, [Reported req (match rp_end a with None => true | Some _ => false end)])
  | Close_ p => (tt, c, [ClosedProvider p])
  | Badge_ turnID text => (tt, c, [Badged turnID text])
  | Rung_ level => (tt, c, [RungAsked level])
  | Collect_ frame => (tt, c, [Forked frame])
  | WaitCollects => (tt, c, [Waited])
  end.

(** Where the read loop is. *)
Inductive Phase :=
| Reading
| Handling (p : cprog outcome)
| Leaving (p : cprog unit)
| Gone.

Record Link := mkLink {
  lk_conn : Conn;
  lk_phase : Phase;
  lk_collectors : list (cprog unit);
  lk_events : list Event;
}.

Inductive Input := TextFrame (frame : ClientFrame) | BinaryData (payload : bytes) | ReadFailed (deadline : bool).

(** A frame arrives, a goroutine takes its next step, the provider pushes frames
    while it works, the goroutines of the ladder change the runtime and write. *)
Inductive Turn_ :=
| Arrives (i : Input)
| LoopStep (a : Reply)
| CollectStep (i : nat) (a : Reply)
| Pushed (now : time) (outbound : list Outbound)
| LadderStep (rt : Runtime) (fs : list Frame).

Definition handling (i : Input) : Phase :=
  match i with
  | TextFrame frame => Handling (HandleControl frame)
  | BinaryData payload => Handling (handleAudio payload)
  | ReadFailed deadline => Leaving (leave (Failed deadline))
  end.

Definition finished {A} (p : cprog A) : bool := match p with Ret _ => true | Do _ _ => false end.

Definition forks (es : list Event) : list (cprog unit) :=
  omap (fun e => match e with Forked frame => Some (collector frame) | _ => None end) es.

(** [collectWG.Wait] does not return while a turn is collected. *)
Definition waits {A} (p : cprog A) : bool := match p with Do WaitCollects _ => true | _ => false end.

Definition blocked {A} (p : cprog A) (l : Link) : bool := waits p && negb (forallb finished (lk_collectors l)).

Definition loop_step (a : Reply) (l : Link) : Link :=
  match lk_phase l with
  | Handling (Do e k) =>
      if blocked (Do e k) l then l else
      let '(r, c, es) := perform_conn a e (lk_conn l) in
      mkLink c (Handling (k r)) (lk_collectors l ++ forks es) (lk_events l ++ es)
  | Handling (Ret Continue) => mkLink (lk_conn l) Reading (lk_collectors l) (lk_events l)
  | Handling (Ret o) => mkLink (lk_conn l) (Leaving (leave o)) (lk_collectors l) (lk_events l)
  | Leaving (Do e k) =>
      if blocked (Do e k) l then l else
      let '(r, c, es) := perform_conn a e (lk_conn l) in
      mkLink c (Leaving (k r)) (lk_collectors l ++ forks es) (lk_events l ++ es)
  | Leaving (Ret _) => mkLink (lk_conn l) Gone (lk_collectors l) (lk_events l)
  | Reading | Gone => l
  end.

Definition link_step (l : Link) (t : Turn_) : Link :=
  match t with
  | Arrives i => match lk_phase l with
                 | Reading => mkLink (lk_conn l) (handling i) (lk_collectors l) (lk_events l)
                 | _ => l
                 end
  | LoopStep a => loop_step a l
  | CollectStep i a =>
      match lk_collectors l !! i with
      | Some (Do e k) =>
          let '(r, c, es) := perform_conn a e (lk_conn l) in
          mkLink c (lk_phase l) (<[i := k r]> (lk_collectors l)) (lk_events l ++ es)
      | _ => l
      end
  | Pushed now outbound =>
      if writableOutbound outbound then
        mkLink (set_runtime (noteProviderOutbound enabled now outbound) (lk_conn l)) (lk_phase l) (lk_collectors l)
          (lk_events l ++ map Frame_ (frames_of (map (mark_complete (cn_sessionComplete (lk_conn l))) outbound)))
      else l
  | LadderStep rt fs =>
      mkLink (set_runtime (fun _ => rt) (lk_conn l)) (lk_phase l) (lk_collectors l) (lk_events l ++ map Frame_ fs)
  end.

Definition run_link (ts : list Turn_) (l : Link) : Link := foldl link_step l ts.

Definition accepted_link (rt : Runtime) : Link := mkLink (new_conn rt) Reading [] [].
End connection.
