(* ===== verification/VoiceLaws.v ===== *)
(** * What a voice connection guarantees

    Over every interleaving of the read loop, the goroutines that collect the
    turns, the provider and the ladder. *)
From S2P Require Import Prelude GoString GoTime GoJson ApiErr Frames Audio Turn Silence RescueLog Conversation SessionService Prog Rescue VoiceLoop.

Open Scope Z_scope.
Open Scope prog_scope.

Section connection.
Variable enabled clientASRRequired has_lifecycle has_badges : bool.
Variable session : ConsumedTicket.

Local Abbreviation perform := (@perform_conn session _).
Local Abbreviation tracks := (Prog.tracks (fun R => @perform_conn session R)).
Local Abbreviation step := (link_step enabled clientASRRequired has_lifecycle has_badges session).
Local Abbreviation run := (run_link enabled clientASRRequired has_lifecycle has_badges session).
Local Abbreviation collector := (collector enabled clientASRRequired has_badges session).

(** ** Programs that only keep the books *)

Definition is_report (e : Event) : bool := match e with Reported _ _ => true | _ => false end.
Definition is_fork (e : Event) : bool := match e with Forked _ => true | _ => false end.
Definition is_injected (e : Event) : bool := match e with Injected _ _ => true | _ => false end.

Definition limit (c : Conn) : Z := sc_TurnLimit (cn_session c).

(** A step of a handler: it neither reports nor touches the flag of the report. *)
Definition plain_step (c c' : Conn) (es : list Event) : Prop :=
  cn_ended c' = cn_ended c /\ existsb is_report es = false.

(** A step of a turn's goroutine. *)
Definition tame_step (c c' : Conn) (es : list Event) : Prop :=
  plain_step c c' es /\ cn_started c' = cn_started c /\ existsb is_fork es = false.

(** A step that leaves the count of the turns alone too. *)
Definition idle_step (c c' : Conn) (es : list Event) : Prop :=
  tame_step c c' es /\ cn_userTurns c' = cn_userTurns c /\ cn_sessionComplete c' = cn_sessionComplete c /\
  limit c' = limit c /\ existsb is_injected es = false.

Section keeps.
Context (K : Conn -> Conn -> list Event -> Prop).

Definition keeping {A} (p : cprog A) : Prop :=
  tracks (fun _ _ => True) (fun (_ : unit) c c' es _ => K c c' es) tt p (fun _ _ => True).

Lemma keeping_bind {A B} (p : cprog A) (k : A -> cprog B) : keeping p -> (forall a, keeping (k a)) -> keeping (bind p k).
Proof. intros Hp Hk. apply tracks_bind. eapply tracks_mono; [|exact Hp]. intros [] a _. apply Hk. Qed.

Lemma keeping_call {R} (e : connE R) : (forall a c, K c (perform a e c).1.2 (perform a e c).2) -> keeping (call e).
Proof. intros H. apply tracks_call. intros a c _. by exists tt. Qed.

Lemma keeping_step {R A} (e : connE R) (k : R -> cprog A) :
  (forall a c, K c (perform a e c).1.2 (perform a e c).2) -> (forall r, keeping (k r)) -> keeping (bind (call e) k).
Proof. intros He Hk. apply keeping_bind; [by apply keeping_call|done]. Qed.
End keeps.

Local Abbreviation plain := (keeping plain_step).
Local Abbreviation tame := (keeping tame_step).
Local Abbreviation idle := (keeping idle_step).

Lemma keeping_weaken (K K' : Conn -> Conn -> list Event -> Prop) {A} (p : cprog A) :
  (forall c c' es, K c c' es -> K' c c' es) -> keeping K p -> keeping K' p.
Proof. intros H. apply tracks_weaken. intros _ c c' es _. apply H. Qed.

Lemma tame_of_idle {A} (p : cprog A) : idle p -> tame p.
Proof. apply keeping_weaken. by intros c c' es []. Qed.

Lemma plain_of_tame {A} (p : cprog A) : tame p -> plain p.
Proof. apply keeping_weaken. by intros c c' es []. Qed.

Lemma plain_of_idle {A} (p : cprog A) : idle p -> plain p.
Proof. intros H. by apply plain_of_tame, tame_of_idle. Qed.

Lemma frames_quiet (f : Event -> bool) fs : (forall x, f (Frame_ x) = false) -> existsb f (map Frame_ fs) = false.
Proof. intros H. induction fs as [|x fs IH]; cbn; [done|]. by rewrite H. Qed.

Lemma idle_frames c c' fs : cn_ended c' = cn_ended c -> cn_started c' = cn_started c ->
  cn_userTurns c' = cn_userTurns c -> cn_sessionComplete c' = cn_sessionComplete c -> limit c' = limit c ->
  idle_step c c' (map Frame_ fs).
Proof. intros. repeat split; try done; by apply frames_quiet. Qed.

Lemma write_idle a fs c : idle_step c (perform a (Write_ fs) c).1.2 (perform a (Write_ fs) c).2.
Proof. cbn. destruct (rp_write a) as [[n d]|]; by apply idle_frames. Qed.

Lemma ladder_idle a R (e : rungE R) c : idle_step c (perform a (Ladder_ e) c).1.2 (perform a (Ladder_ e) c).2.
Proof. cbn. destruct (perform_rung session (rp_ladder a) e (cn_rt c)) as [[r rt] fs]. by apply idle_frames. Qed.

Lemma request_idle a now c :
  idle_step c (perform a (Step_ (fun c => let (level, rt) := requestRescue enabled now (cn_rt c) in
                                       (level, set_runtime (fun _ => rt) c))) c).1.2 [].
Proof. cbn. by destruct (requestRescue _ _ _). Qed.

Lemma claim_idle a c : idle_step c (perform a (Step_ claim_collect) c).1.2 (perform a (Step_ claim_collect) c).2.
Proof. cbn. unfold claim_collect. by destruct (cn_collecting c). Qed.

Local Ltac bookkeeping :=
  first [ by intros; apply write_idle | by intros; apply ladder_idle | by intros; apply request_idle
        | by intros; apply claim_idle | by intros; repeat split ].
Local Ltac step := apply keeping_step; [bookkeeping|].

Lemma send_idle code message : idle (rtSendError code message).
Proof. by step. Qed.

Lemma outbound_idle outbound : idle (sendOutbound enabled outbound).
Proof. unfold sendOutbound. destruct (negb _); [done|]. do 3 (step; intros ?). by step. Qed.

Lemma ladder_keeps {A} (p : gprog A) : idle (ladder p).
Proof.
  induction p as [x|R e k IH]; [done|]. intros a c _. exists tt. split; [apply ladder_idle|apply IH].
Qed.

Lemma reopen_idle payload : idle (reopen enabled payload).
Proof.
  step. intros [p|err]; [|done]. step. intros c. step. intros [_|err]; [|done]. step. intros _.
  step. intros [outbound|err]; [|done]. apply keeping_bind; [apply outbound_idle|done].
Qed.

Lemma audio_idle payload : idle (handleAudio enabled payload).
Proof.
  unfold handleAudio. step. intros c. destruct (cn_started c), (cn_provider c) as [p|]; try done.
  destruct (cn_broken c); [done|]. step. intros [outbound|err]; [apply outbound_idle|].
  apply keeping_bind.
  { destruct (cn_reopenAttempted c); [done|]. step. intros _. apply reopen_idle. }
  intros [o|err']; [done|]. step. intros _. by apply keeping_bind; [apply send_idle|].
Qed.

Lemma forward_idle frameType frame : idle (forwardToProvider enabled frameType frame).
Proof.
  step. intros c. destruct (cn_provider c); [|done]. step. intros [outbound|err]; [apply outbound_idle|].
  cbv zeta. destruct (String.eqb _ _); [done|apply send_idle].
Qed.

(** The goroutine of a turn. *)
Lemma count_tame a c : tame_step c (perform a (Step_ count_turn) c).1.2 (perform a (Step_ count_turn) c).2.
Proof. cbn. unfold count_turn. by destruct (_ || _). Qed.

Lemma inject_tame a p t c : tame_step c (perform a (Inject_ p t) c).1.2 (perform a (Inject_ p t) c).2.
Proof. cbn. by destruct (rp_injector a). Qed.

Lemma note_turn_tame : tame noteUserTurn.
Proof.
  apply keeping_step; [intros; apply count_tame|]. intros []; [|done].
  step. intros c. destruct (cn_provider c); [|done].
  by apply keeping_step; [intros; apply inject_tame|].
Qed.

(** What follows the count. *)
Definition after_count (frame : ClientFrame) : cprog unit :=
  bind (collectTurn_rest enabled clientASRRequired has_badges session frame) (fun _ => Set_ (set_collecting false)).

Lemma rest_idle frame : idle (collectTurn_rest enabled clientASRRequired has_badges session frame).
Proof.
  unfold collectTurn_rest. step. intros c. destruct (cn_provider c) as [p|]; [|done].
  step. intros [outbound|err]; [|by apply keeping_bind; [apply send_idle|]].
  apply keeping_bind; [apply outbound_idle|]. intros []; try done.
  apply keeping_bind; [destruct (clientASRRequired && _); [apply send_idle|done]|]. intros _.
  step. intros c'.
  apply keeping_bind; [destruct has_badges; [apply keeping_call; bookkeeping|done]|]. intros _.
  apply keeping_call; bookkeeping.
Qed.

Lemma collect_idle frame : idle (after_count frame).
Proof. apply keeping_bind; [apply rest_idle|]. intros _. apply keeping_call; bookkeeping. Qed.

Lemma collector_tame frame : tame (collector frame).
Proof.
  apply keeping_bind.
  - apply keeping_bind; [apply note_turn_tame|]. intros _. apply tame_of_idle, rest_idle.
  - intros _. apply tame_of_idle, keeping_call. bookkeeping.
Qed.

(** The handlers of the frames. *)
Local Ltac pstep := apply keeping_step; [by intros; split|].

Lemma send_plain code message : plain (rtSendError code message).
Proof. apply plain_of_idle, send_idle. Qed.

Lemma outbound_plain outbound : plain (sendOutbound enabled outbound).
Proof. apply plain_of_idle, outbound_idle. Qed.

Lemma open_plain : plain (openSession has_lifecycle).
Proof.
  unfold openSession. apply keeping_bind.
  - destruct has_lifecycle; [|done]. pstep. intros [result|err]; [by pstep|].
    by apply keeping_bind; [apply send_plain|].
  - intros [o|]; [done|]. pstep. intros [p|err]; [|apply send_plain]. pstep. intros now. by pstep.
Qed.

Lemma start_plain frame : plain (controlSessionStart enabled has_lifecycle frame).
Proof.
  unfold controlSessionStart. destruct (cf_start frame) as [start|err]; [|apply send_plain].
  pstep. intros c. apply keeping_bind; [destruct (cn_started c); [done|apply open_plain]|]. intros []; try done.
  pstep. intros _. apply keeping_bind.
  { destruct (_ && has_lifecycle); [|done]. pstep. intros [turns|err]; [|done]. apply keeping_call. by split. }
  intros _. pstep. intros c'. destruct (cn_provider c'); [|done]. pstep.
  intros [outbound|err]; [apply outbound_plain|apply send_plain].
Qed.

Lemma speech_start_idle frameType frame : frameType <> "user.speech.end"%string ->
  idle (controlUserSpeech enabled frameType frame).
Proof.
  intros Hne. unfold controlUserSpeech. step. intros c. destruct (negb _); [apply send_idle|].
  rewrite (proj2 (String.eqb_neq _ _)) by done. apply keeping_step; [|intros _; apply forward_idle].
  intros a c'. cbn. unfold noteUserSpeechStart. by destruct enabled.
Qed.

Lemma speech_end_plain frame : plain (controlUserSpeech enabled "user.speech.end" frame).
Proof.
  unfold controlUserSpeech. pstep. intros c. destruct (negb _); [apply send_plain|]. cbn [String.eqb].
  apply keeping_bind; [apply plain_of_idle, ladder_keeps|]. intros _.
  apply keeping_step; [intros a c'; apply claim_idle|]. intros []; [|done]. by pstep.
Qed.

Lemma rest_of_frames_idle frame : idle (controlKeepalive frame) /\ idle (controlTurnAbort enabled "client.turn.abort" frame) /\
  idle (controlRescue enabled frame) /\ idle (controlInterrupt enabled "interrupt" frame) /\ idle unknownFrame.
Proof.
  split_and!.
  - unfold controlKeepalive. destruct (cf_ping frame) as [ts|err]; [|apply send_idle].
    apply keeping_bind; [destruct (ts =? 0); [by step|done]|]. intros ts'. by step.
  - unfold controlTurnAbort. destruct (cf_abort frame) as [x|err]; [|apply send_idle].
    destruct (negb _); [apply send_idle|]. step. intros c.
    destruct (cn_started c), (cn_provider c); try done. step. intros _. apply forward_idle.
  - unfold controlRescue. destruct (cf_rescue frame) as [x|err]; [|apply send_idle].
    destruct (negb enabled); [done|]. step. intros c. destruct (negb _); [by apply keeping_bind; [apply send_idle|]|].
    step. intros now. step. intros [level|]; [|done]. by step.
  - unfold controlInterrupt. step. intros c. destruct (cn_started c), (cn_provider c); try done. apply forward_idle.
  - by step.
Qed.

(** A property of the handlers of all frames. *)
Lemma handler_cases (P : cprog outcome -> Prop) frame :
  (forall p : cprog outcome, idle p -> P p) -> P (controlSessionStart enabled has_lifecycle frame) ->
  P (controlUserSpeech enabled "user.speech.end" frame) -> P (controlSessionEnd has_lifecycle session frame) ->
  P (HandleControl enabled has_lifecycle session frame).
Proof.
  intros Hidle Hstart Hspeech Hend. unfold HandleControl.
  destruct (rest_of_frames_idle frame) as (H1 & H2 & H3 & H4 & H5).
  destruct (cf_type frame) as [t|err]; [|apply Hidle, send_idle].
  destruct (String.eqb_spec t "ping"); [by apply Hidle|].
  destruct (String.eqb_spec t "session.start"); [done|].
  destruct (String.eqb_spec t "user.speech.start") as [->|]; [by apply Hidle, speech_start_idle|].
  destruct (String.eqb_spec t "user.speech.end") as [->|]; [done|].
  destruct (String.eqb_spec t "client.turn.abort") as [->|]; [by apply Hidle|].
  destruct (String.eqb_spec t "client.rescue.request"); [by apply Hidle|].
  destruct (String.eqb_spec t "interrupt") as [->|]; [by apply Hidle|].
  destruct (String.eqb_spec t "session.end"); [done|].
  destruct (String.eqb_spec t "auth"); [apply Hidle, send_idle|by apply Hidle].
Qed.

(** ** The report of the session *)

(** What reaches the provider or starts a turn. *)
Definition heard (e : Event) : bool :=
  match e with
  | CalledStart _ _ _ | CalledControl _ _ | CalledAudio _ _ | Injected _ _ | Forked _ | Reported _ _ => true
  | _ => false
  end.

Definition calm (es : list Event) : Prop := existsb heard es = false.

Definition mine (req : EndRequest) : Prop := er_SessionID req = tk_SessionID session.

Definition is_accepted (e : Event) : bool := match e with Reported _ ok => ok | _ => false end.
Definition untold (es : list Event) : Prop := existsb is_accepted es = false.
Definition final (ok : bool) (es : list Event) : Prop :=
  exists pre req post, es = pre ++ Reported req ok :: post /\ mine req /\ untold pre /\ calm post.

(** Where the read loop is with its report: turns may be running; they are over;
    a report was refused since; one was accepted; and the connection knows;
    there is nothing to report. *)
Inductive stage := SOpen | SQuiet | SRefused | STold | SClosed | SIdle.

#[local] Instance stage_eq_dec : EqDecision stage.
Proof. solve_decision. Defined.

Definition nothing_to_report (c : Conn) : Prop := cn_started c = false \/ has_lifecycle = false.

Definition knows (t : stage) (c : Conn) : Prop :=
  match t with
  | SOpen | SQuiet | SRefused => cn_ended c = false
  | STold => True
  | SClosed => cn_ended c = true
  | SIdle => nothing_to_report c
  end.

Definition tells (t : stage) (l : Link) : Prop :=
  knows t (lk_conn l) /\
  (t <> SOpen -> forallb finished (lk_collectors l) = true) /\
  match t with
  | SOpen | SQuiet | SIdle => untold (lk_events l)
  | SRefused => untold (lk_events l) /\ final false (lk_events l)
  | STold | SClosed => final true (lk_events l)
  end.

Inductive stage_step : stage -> Conn -> Conn -> list Event -> stage -> Prop :=
| Stage_open c c' es : plain_step c c' es -> stage_step SOpen c c' es SOpen
| Stage_waited c : stage_step SOpen c c [Waited] SQuiet
| Stage_calm t c c' es : t <> SOpen -> knows t c' -> calm es -> stage_step t c c' es t
| Stage_told c req : mine req -> stage_step SQuiet c c [Reported req true] STold
| Stage_refused c req : mine req -> stage_step SQuiet c c [Reported req false] SRefused
| Stage_closed c c' : cn_ended c' = true -> stage_step STold c c' [] SClosed
| Stage_idle c c' : nothing_to_report c' -> stage_step SQuiet c c' [] SIdle.

Local Abbreviation staged := (tracks knows stage_step).

Lemma staged_plain {A} (p : cprog A) (post : stage -> A -> Prop) : plain p -> (forall a, post SOpen a) -> staged SOpen p post.
Proof.
  intros Hp Hpost. induction p as [x|R e k IH]; [apply Hpost|]. intros a c _.
  destruct (Hp a c I) as ([] & Hs & Hk). exists SOpen. split; [by constructor|]. by apply IH.
Qed.

Lemma staged_calm {R} (e : connE R) t (post : stage -> R -> Prop) : t <> SOpen ->
  (forall a c, knows t c -> knows t (perform a e c).1.2 /\ calm (perform a e c).2) -> (forall r, post t r) ->
  staged t (call e) post.
Proof.
  intros Ht He Hp. apply tracks_call. intros a c Hk. destruct (He a c Hk) as [H1 H2].
  exists t. split; [by constructor|apply Hp].
Qed.

Lemma calm_frames fs : calm (map Frame_ fs).
Proof. unfold calm. by induction fs. Qed.

Lemma write_calm a fs c : (perform a (Write_ fs) c).1.2 = c /\ calm (perform a (Write_ fs) c).2.
Proof. cbn. destruct (rp_write a) as [[n d]|]; cbn; (split; [done|apply calm_frames]). Qed.

Definition reported (t : stage) (failed : option error) : Prop :=
  match failed with
  | Some _ => t = SRefused
  | None => t = STold \/ t = SQuiet /\ has_lifecycle = false
  end.

Lemma persist_staged reason : staged SQuiet (persistSession has_lifecycle session reason) reported.
Proof.
  assert (Hb : forall A B (p : cprog A) (k : A -> cprog B) post,
    staged SQuiet p (fun t _ => t = SQuiet) -> (forall a, staged SQuiet (k a) post) -> staged SQuiet (bind p k) post).
  { intros A B p k post Hp Hk. apply tracks_bind. eapply tracks_mono; [|exact Hp]. intros t a ->. apply Hk. }
  unfold persistSession. apply Hb; [by apply staged_calm|]. intros c.
  apply Hb; [destruct (_ && _); [|done]; by apply tracks_bind, staged_calm|]. intros duration.
  destruct has_lifecycle eqn:El; cbn [negb].
  - apply Hb; [destruct (cn_provider c); [by apply staged_calm|done]|]. intros utterances.
    apply Hb; [apply staged_calm; [done| |done]; intros a c' Hc; cbn; unfold snapshotRescueEvents;
      by destruct (snapshot (rt_log (cn_rt c')))|]. intros events.
    apply Hb; [destruct (cn_provider c); [by apply staged_calm|done]|]. intros usage.
    apply tracks_call. intros a c' Hc. cbn. destruct (rp_end a) as [err|].
    + exists SRefused. split; [by apply Stage_refused|done].
    + exists STold. split; [by apply Stage_told|by left].
  - by right.
Qed.

(** How a handler, and how the loop, may leave the report. *)
Definition handled (t : stage) (o : outcome) : Prop :=
  match t with STold => False | SClosed | SIdle => o = Ended | _ => True end.
Definition left_over (t : stage) (_ : unit) : Prop :=
  match t with SRefused | SClosed | SIdle => True | _ => False end.

Lemma set_ended_staged t (post : stage -> unit -> Prop) :
  (t = STold /\ post SClosed tt) \/ (t = SQuiet /\ has_lifecycle = false /\ post SIdle tt) -> staged t (Set_ set_ended) post.
Proof.
  intros [[-> Hp]|(-> & Hl & Hp)]; apply tracks_call; intros a c Hk; cbn.
  - exists SClosed. split; [by apply Stage_closed|done].
  - exists SIdle. split; [apply Stage_idle; by right|done].
Qed.

Lemma wait_staged (post : stage -> unit -> Prop) : post SQuiet tt -> staged SOpen (call WaitCollects) post.
Proof. intros Hp. apply tracks_call. intros a c _. exists SQuiet. split; [constructor|done]. Qed.

Lemma write_staged t fs (post : stage -> option bool -> Prop) : t <> SOpen -> (forall w, post t w) ->
  staged t (call (Write_ fs)) post.
Proof.
  intros Ht Hp. apply staged_calm; [done| |done]. intros a c Hk. destruct (write_calm a fs c) as [-> H]. by split.
Qed.

Lemma end_staged frame : staged SOpen (controlSessionEnd has_lifecycle session frame) handled.
Proof.
  unfold controlSessionEnd. cbv zeta. apply tracks_bind, wait_staged.
  apply tracks_bind. eapply tracks_mono; [|apply persist_staged]. intros t [err|]; cbn [reported].
  - intros ->. apply tracks_bind, write_staged; [done|]. by intros [].
  - intros H. apply tracks_bind, set_ended_staged. destruct H as [->|[-> Hl]]; [left|right].
    + split; [done|]. apply tracks_bind, write_staged; [done|]. done.
    + split_and!; [done|done|]. apply tracks_bind, write_staged; [done|]. done.
Qed.

Lemma handler_staged frame : staged SOpen (HandleControl enabled has_lifecycle session frame) handled.
Proof.
  assert (Hp : forall p : cprog outcome, plain p -> staged SOpen p handled) by (intros p H; by apply staged_plain).
  apply handler_cases; [intros p H; by apply Hp, plain_of_idle|apply Hp, start_plain|apply Hp, speech_end_plain|apply end_staged].
Qed.

Lemma leave_calm t o : t = SClosed \/ t = SIdle -> staged t (leave has_lifecycle session o) left_over.
Proof.
  intros Ht. assert (Hne : t <> SOpen) by (by destruct Ht as [->| ->]).
  assert (Hl : left_over t tt) by (by destruct Ht as [->| ->]).
  unfold leave. apply tracks_bind, staged_calm; [done|done|]. intros c.
  apply tracks_bind. eapply (tracks_mono _ _ _ _ (fun t' _ => t' = t));
    [|destruct (cn_provider c); [by apply staged_calm|done]]. intros t' _ ->.
  apply tracks_bind, staged_calm; [done|done|]. intros _.
  unfold persistOnExit. apply tracks_bind, tracks_call. intros a c' Hk. exists t. split; [by constructor|].
  assert (Hout : negb has_lifecycle || negb (cn_started c') || cn_ended c' = true).
  { destruct Ht as [->| ->]; cbn in Hk; [by rewrite Hk, orb_true_r|].
    destruct Hk as [-> | ->]; by rewrite ?orb_true_r. }
  cbn. by rewrite Hout.
Qed.

Lemma leave_staged o : staged SOpen (leave has_lifecycle session o) left_over.
Proof.
  unfold leave. apply tracks_bind, staged_plain; [apply keeping_call; by split|]. intros c.
  apply tracks_bind. eapply (tracks_mono _ _ _ _ (fun t' _ => t' = SOpen));
    [|apply staged_plain; [destruct (cn_provider c); [apply keeping_call; by split|done]|done]].
  intros t _ ->. apply tracks_bind, wait_staged.
  unfold persistOnExit. apply tracks_bind, tracks_call. intros a c' Hk. cbn in Hk. cbn -[persistSession].
  destruct (negb has_lifecycle || negb (cn_started c') || cn_ended c') eqn:Eb.
  - exists SIdle. split; [apply Stage_idle|done].
    unfold nothing_to_report. rewrite Hk in Eb. destruct has_lifecycle, (cn_started c'); by auto.
  - exists SQuiet. split; [by apply Stage_calm|]. cbv zeta.
    apply tracks_bind. eapply tracks_mono; [|apply persist_staged]. intros t [err|]; cbn [reported].
    + by intros ->.
    + intros H. apply set_ended_staged. destruct H as [->|[-> Hl]]; [by left|by right].
Qed.

(** ** The connection *)
Definition linked (l : Link) : Prop :=
  Forall tame (lk_collectors l) /\
  match lk_phase l with
  | Reading => tells SOpen l
  | Handling p => exists t, tells t l /\ staged t p handled
  | Leaving p => exists t, tells t l /\ staged t p left_over
  | Gone => exists t, tells t l /\ left_over t tt
  end.

Lemma untold_app es es' : untold es -> existsb is_accepted es' = false -> untold (es ++ es').
Proof. intros H H'. unfold untold in *. by rewrite existsb_app, H. Qed.

Lemma final_app ok es es' : final ok es -> calm es' -> final ok (es ++ es').
Proof.
  intros (pre & req & post & -> & Hm & Hu & Hc) H. exists pre, req, (post ++ es').
  split_and!; [by rewrite <- app_assoc|done|done|]. unfold calm in *. by rewrite existsb_app, Hc.
Qed.

Lemma no_report_accepted es : existsb is_report es = false -> existsb is_accepted es = false.
Proof. induction es as [|[] es IH]; cbn; try done. Qed.

Lemma calm_accepted es : calm es -> existsb is_accepted es = false.
Proof. unfold calm. induction es as [|[] es IH]; cbn; try done. Qed.

Lemma calm_forks es : calm es ->
  forks enabled clientASRRequired has_badges session es = [].
Proof. unfold calm, forks. induction es as [|[] es IH]; cbn; try done. Qed.

(** A change of the runtime, with frames. *)
Lemma tells_aside t l c fs : cn_ended c = cn_ended (lk_conn l) -> cn_started c = cn_started (lk_conn l) -> tells t l ->
  forall ph, tells t (mkLink c ph (lk_collectors l) (lk_events l ++ map Frame_ fs)).
Proof.
  intros He Hs (Hk & Hd & Ht) ph. split; [|split; [done|]]; cbn.
  - destruct t; cbn in *; try congruence. unfold nothing_to_report in *. by rewrite Hs.
  - pose proof (calm_frames fs) as Hc. pose proof (calm_accepted _ Hc) as Ha.
    destruct t; cbn in *; try (by apply untold_app); try (by apply final_app).
    destruct Ht. split; [by apply untold_app|by apply final_app].
Qed.

(** What a step of the read loop leaves. *)
Lemma tells_step t t' l c es ph : tells t l -> stage_step t (lk_conn l) c es t' ->
  (es = [Waited] -> forallb finished (lk_collectors l) = true) ->
  tells t' (mkLink c ph (lk_collectors l ++ forks enabled clientASRRequired has_badges session es) (lk_events l ++ es)).
Proof.
  intros (Hk & Hd & Ht) Hstep Hw.
  assert (Hquiet : forall cs', cs' = [] -> t <> SOpen -> forallb finished (lk_collectors l ++ cs') = true).
  { intros cs' -> Hne. rewrite app_nil_r. by apply Hd. }
  inversion Hstep as [c1 c2 es' [He Hr]|c1|t1 c1 c2 es' Hne Hk' Hc|c1 req Hm|c1 req Hm|c1 c2 He|c1 c2 Hn]; subst;
    unfold tells; cbn [lk_conn lk_collectors lk_events].
  - split_and!; [cbn in *; congruence|done|]. by apply untold_app, no_report_accepted.
  - split_and!; [done| |by apply untold_app]. intros _. cbn. rewrite app_nil_r. by apply Hw.
  - split_and!; [done|intros _; by apply Hquiet; [apply calm_forks|]|].
    pose proof (calm_accepted _ Hc). destruct t'; try (by apply untold_app); try (by apply final_app).
    destruct Ht. split; [by apply untold_app|by apply final_app].
  - split_and!; [done|intros _; by apply Hquiet|]. exists (lk_events l), req, []. by split_and!.
  - split_and!; [done|intros _; by apply Hquiet|by apply untold_app|].
    exists (lk_events l), req, []. by split_and!.
  - split_and!; [done|intros _; by apply Hquiet|]. rewrite app_nil_r. done.
  - split_and!; [done|intros _; by apply Hquiet|]. rewrite app_nil_r. done.
Qed.

(** A turn's goroutine steps: then no report was made. *)
Lemma tells_collect t l c es i k ph : tells t l -> tame_step (lk_conn l) c es -> 
  (exists p, lk_collectors l !! i = Some p /\ finished p = false) ->
  tells t (mkLink c ph (<[i := k]> (lk_collectors l)) (lk_events l ++ es)).
Proof.
  intros (Hk & Hd & Ht) ([He Hr] & Hs & Hf) (p & Hi & Hp).
  destruct (decide (t = SOpen)) as [->|Hne].
  - split_and!; [cbn in *; congruence|done|]. by apply untold_app, no_report_accepted.
  - specialize (Hd Hne). rewrite forallb_forall in Hd. specialize (Hd p).
    rewrite Hd in Hp by (by apply list_elem_of_In, list_elem_of_lookup_2 with i). done.
Qed.

Local Abbreviation linked_step := (link_step enabled clientASRRequired has_lifecycle has_badges session).

Lemma waited_waits R (e : connE R) a c : (perform a e c).2 = [Waited] -> forall A (k : R -> cprog A), waits (Do e k) = true.
Proof.
  destruct e; cbn; try done.
  - destruct (rp_write a) as [[n d]|]; cbn; destruct fs as [|f fs]; try done; by destruct n.
  - destruct (perform_rung _ _ _ _) as [[r rt] [|f fs]]; done.
  - by destruct (rp_injector a).
Qed.

Lemma forks_tame es : Forall tame (forks enabled clientASRRequired has_badges session es).
Proof.
  unfold forks. induction es as [|[] es IH]; cbn; try done. constructor; [apply collector_tame|done].
Qed.

(** The read loop takes a step of the program it works on. *)
Lemma loop_moves {A} t l a R (e : connE R) (k : R -> cprog A) post :
  Forall tame (lk_collectors l) -> tells t l -> staged t (Do e k) post -> blocked (Do e k) l = false ->
  Forall tame (lk_collectors l ++ forks enabled clientASRRequired has_badges session (perform a e (lk_conn l)).2) /\
  exists t', staged t' (k (perform a e (lk_conn l)).1.1) post /\
    forall ph, tells t' (mkLink (perform a e (lk_conn l)).1.2 ph
      (lk_collectors l ++ forks enabled clientASRRequired has_badges session (perform a e (lk_conn l)).2)
      (lk_events l ++ (perform a e (lk_conn l)).2)).
Proof.
  intros Hc Ht Hs Hb. split; [apply Forall_app; by split; [|apply forks_tame]|].
  destruct (Hs a (lk_conn l) (proj1 Ht)) as (t' & Hstep & Hk). exists t'. split; [done|].
  intros ph. apply (tells_step t); [done|done|]. intros Hw.
  unfold blocked in Hb. rewrite (waited_waits _ _ _ _ Hw) in Hb. cbn in Hb. by apply negb_false_iff in Hb.
Qed.

Lemma tells_open t l ph : tells t l -> handled t Continue -> tells SOpen (mkLink (lk_conn l) ph (lk_collectors l) (lk_events l)).
Proof. intros (Hk & Hd & Ht) Hh. destruct t; try done; split_and!; try done. by destruct Ht. Qed.

Lemma loop_step_linked a l : linked l ->
  linked (loop_step enabled clientASRRequired has_lifecycle has_badges session a l).
Proof.
  intros [Hc Hl]. unfold loop_step. destruct (lk_phase l) as [|p|p|] eqn:Eph; try by (split; [|rewrite Eph]).
  - destruct Hl as (t & Ht & Hs). destruct p as [o|R e k].
    + cbn in Hs. assert (Hleave : exists t', tells t' (mkLink (lk_conn l) (Leaving (leave has_lifecycle session o)) (lk_collectors l) (lk_events l)) /\
        staged t' (leave has_lifecycle session o) left_over).
      { destruct (decide (t = SClosed \/ t = SIdle)) as [H|H].
        - exists t. split; [done|by apply leave_calm].
        - exists SOpen. split; [|apply leave_staged]. apply (tells_open t); [done|].
          destruct t; try done; by destruct H; auto. }
      destruct o; try (split; [done|exact Hleave]). split; [done|]. by apply (tells_open t).
    + destruct (blocked (Do e k) l) eqn:Eb; [split; [done|rewrite Eph; by exists t]|].
      destruct (loop_moves t l a R e k handled Hc Ht Hs Eb) as (Hc' & t' & Hs' & Ht').
      destruct (perform a e (lk_conn l)) as [[r c] es]. split; [done|]. exists t'. split; [apply Ht'|done].
  - destruct Hl as (t & Ht & Hs). destruct p as [[]|R e k].
    + split; [done|]. by exists t.
    + destruct (blocked (Do e k) l) eqn:Eb; [split; [done|rewrite Eph; by exists t]|].
      destruct (loop_moves t l a R e k left_over Hc Ht Hs Eb) as (Hc' & t' & Hs' & Ht').
      destruct (perform a e (lk_conn l)) as [[r c] es]. split; [done|]. exists t'. split; [apply Ht'|done].
Qed.

(** A step that is not the read loop's keeps what the account tells. *)
Lemma aside_linked l c cs es : Forall tame cs ->
  (forall t, tells t l -> forall ph, tells t (mkLink c ph cs (lk_events l ++ es))) ->
  linked l -> linked (mkLink c (lk_phase l) cs (lk_events l ++ es)).
Proof.
  intros Hcs H [_ Hl]. split; [done|]. cbn. destruct (lk_phase l) as [|p|p|]; [by apply H|..];
    destruct Hl as (t & Ht & Hs); exists t; (split; [by apply H|done]).
Qed.

Lemma collect_linked i a l : linked l -> linked (linked_step l (CollectStep i a)).
Proof.
  intros Hl. cbn. destruct (lk_collectors l !! i) as [[x|R e k]|] eqn:Hi; [done| |done].
  pose proof Hl as [Hc _]. rewrite Forall_lookup in Hc. destruct (Hc i _ Hi a (lk_conn l) I) as ([] & Ht & Hk).
  destruct (perform a e (lk_conn l)) as [[r c] es]. cbn in Ht, Hk. apply aside_linked; [|..|done].
  - apply Forall_lookup. intros j p [(<- & <- & _)|[_ Hj]]%list_lookup_insert_Some; [done|by apply (Hc j)].
  - intros t Htells ph. apply tells_collect; [done|done|]. eexists. by split.
Qed.

Lemma step_linked l x : linked l -> linked (linked_step l x).
Proof.
  intros Hl. destruct x as [i|a|i a|now outbound|rt fs].
  - cbn. destruct (lk_phase l) eqn:Eph; try done. destruct Hl as [Hc Hl]. rewrite Eph in Hl. split; [done|].
    destruct i as [frame|payload|d]; cbn -[handleAudio HandleControl leave tells]; exists SOpen; (split; [done|]).
    + apply handler_staged.
    + apply staged_plain; [apply plain_of_idle, audio_idle|done].
    + apply leave_staged.
  - by apply loop_step_linked.
  - by apply collect_linked.
  - cbn. destruct (writableOutbound outbound); [|done]. apply aside_linked; [apply Hl| |done].
    intros t Ht ph. by apply tells_aside.
  - cbn. apply aside_linked; [apply Hl| |done]. intros t Ht ph. by apply tells_aside.
Qed.

Lemma run_linked ts rt : linked (run ts (accepted_link rt)).
Proof.
  assert (H : forall l, linked l -> linked (run ts l)).
  { induction ts as [|x ts IH]; intros l Hl; [done|]. cbn. by apply IH, step_linked. }
  apply H. by split; [|split_and!].
Qed.

Lemma final_only es pre req post : final true es -> es = pre ++ Reported req true :: post ->
  mine req /\ untold pre /\ calm post.
Proof.
  intros (pre0 & req0 & post0 & -> & Hm & Hu & Hc) E. unfold untold, calm in *. revert pre Hu E.
  induction pre0 as [|x pre0 IH]; intros [|y pre] Hu E; cbn in *.
  - by injection E as -> ->.
  - injection E as <- ->. rewrite existsb_app in Hc. cbn in Hc. by rewrite orb_true_r in Hc.
  - by injection E as -> E.
  - injection E as -> E. apply orb_false_iff in Hu as [Hy Hu]. destruct (IH pre Hu E) as (H1 & H2 & H3).
    split_and!; [done| |done]. by rewrite Hy, H2.
Qed.

(** C7: Over every interleaving of a connection its session is reported at most
    once with success, under its own id, and nothing is sent to the provider and
    no turn begins after the accepted report; and when the connection is gone, a
    session that had started has been reported, accepted or not, after the last
    word was exchanged with the provider. *)
Theorem session_is_reported_once rt ts :
  let l := run ts (accepted_link rt) in
  (forall pre req post, lk_events l = pre ++ Reported req true :: post -> mine req /\ untold pre /\ calm post) /\
  (lk_phase l = Gone -> cn_started (lk_conn l) = true -> has_lifecycle = true -> exists ok, final ok (lk_events l)).
Proof.
  intros l. pose proof (run_linked ts rt : linked l) as [_ Hl]. split.
  - intros pre req post E.
    assert (Ht : exists t, tells t l).
    { destruct (lk_phase l) eqn:Eph; [by exists SOpen|..]; destruct Hl as (t & Ht & _); by exists t. }
    destruct Ht as (t & _ & _ & Ht).
    assert (Hor : untold (lk_events l) \/ final true (lk_events l)) by (destruct t; auto; left; apply Ht).
    destruct Hor as [Hu|Hf]; [|by apply (final_only (lk_events l))].
    unfold untold in Hu. rewrite E, existsb_app in Hu. cbn in Hu. by rewrite orb_true_r in Hu.
  - intros Eph Hs Hlc. rewrite Eph in Hl. destruct Hl as (t & (Hk & _ & Ht) & Hlast).
    destruct t; try done; [exists false; apply Ht|by exists true|].
    destruct Hk as [Hk|Hk]; congruence.
Qed.

(** ** The length of the session *)

(** What the read loop knows of the start of the session. *)
Definition started_is (t : option bool) (c : Conn) : Prop :=
  match t with Some b => cn_started c = b | None => True end.

Definition book_step (t : option bool) (c c' : Conn) (es : list Event) (t' : option bool) : Prop :=
  cn_userTurns c' = cn_userTurns c /\ cn_sessionComplete c' = cn_sessionComplete c /\ existsb is_injected es = false /\
  (cn_started c = true -> cn_started c' = true /\ limit c' = limit c) /\
  (existsb is_fork es = true -> cn_started c = true) /\ started_is t' c'.

Local Abbreviation booked := (tracks started_is book_step).

(** A step that leaves the count and the start alone. *)
Definition quiet_step (c c' : Conn) (es : list Event) : Prop :=
  cn_started c' = cn_started c /\ existsb is_fork es = false /\ cn_userTurns c' = cn_userTurns c /\
  cn_sessionComplete c' = cn_sessionComplete c /\ limit c' = limit c /\ existsb is_injected es = false.

Lemma quiet_of_idle c c' es : idle_step c c' es -> quiet_step c c' es.
Proof. intros ((_ & Hs & Hf) & Hu & Hc & Hl & Hi). by split_and!. Qed.

Lemma book_quiet t c c' es : started_is t c -> quiet_step c c' es -> book_step t c c' es t.
Proof.
  intros Ht (Hs & Hf & Hu & Hc & Hl & Hi). unfold book_step. split_and!; try done.
  - by rewrite Hs.
  - by rewrite Hf.
  - destruct t; [|done]. cbn in *. congruence.
Qed.

Lemma booked_quiet {A} t (p : cprog A) (post : option bool -> A -> Prop) :
  keeping quiet_step p -> (forall a, post t a) -> booked t p post.
Proof.
  intros Hp Hpost. induction p as [x|R e k IH]; [apply Hpost|]. intros a c Ht.
  destruct (Hp a c I) as ([] & Hs & Hk). exists t. split; [by apply book_quiet|]. by apply IH.
Qed.

Lemma booked_idle {A} t (p : cprog A) (post : option bool -> A -> Prop) : idle p -> (forall a, post t a) -> booked t p post.
Proof. intros Hp. apply booked_quiet. revert Hp. apply keeping_weaken, quiet_of_idle. Qed.

Lemma booked_step {R A} t t' (e : connE R) (k : R -> cprog A) post :
  (forall a c, started_is t c -> book_step t c (perform a e c).1.2 (perform a e c).2 t') ->
  (forall r, booked t' (k r) post) -> booked t (bind (call e) k) post.
Proof. intros He Hk. apply tracks_bind, tracks_call. intros a c Ht. exists t'. split; [by apply He|apply Hk]. Qed.

Lemma look_booked {A} (k : Conn -> cprog A) post :
  (forall c, booked (Some (cn_started c)) (k c) post) -> booked None (bind Look k) post.
Proof.
  intros Hk. apply tracks_bind, tracks_call. intros a c _. exists (Some (cn_started c)). split; [by repeat split|apply Hk].
Qed.

Lemma open_booked (post : option bool -> outcome -> Prop) : (forall t o, post t o) ->
  booked (Some false) (openSession has_lifecycle) post.
Proof.
  intros Hpost. unfold openSession. apply tracks_bind. eapply (tracks_mono _ _ _ _ (fun t _ => t = Some false)).
  - intros t [o|] ->; [apply Hpost|]. eapply (booked_step _ (Some false)); [by intros a c Ht; repeat split|].
    intros [p|err]; [|apply booked_idle; [apply send_idle|by intros]].
    eapply (booked_step _ (Some false)); [by intros a c Ht; repeat split|]. intros now.
    eapply (booked_step _ None); [|intros; apply Hpost]. intros a c Ht. by repeat split.
  - destruct has_lifecycle; [|done]. eapply (booked_step _ (Some false)); [by intros a c Ht; repeat split|].
    intros [result|err]; [|apply tracks_bind, booked_idle; [apply send_idle|done]].
    eapply (booked_step _ (Some false)); [|done]. intros a c Ht. cbn in Ht.
    repeat split; cbn; try done; congruence.
Qed.

Lemma start_booked frame : booked None (controlSessionStart enabled has_lifecycle frame) (fun _ _ => True).
Proof.
  unfold controlSessionStart. destruct (cf_start frame) as [start|err]; [|by apply booked_idle; [apply send_idle|]].
  apply look_booked. intros c. apply tracks_bind.
  eapply (tracks_mono _ _ _ _ (fun _ _ => True));
    [|destruct (cn_started c); [done|by apply open_booked]].
  intros t o _. destruct o; try done. apply booked_idle; [|done].
  step. intros _. apply keeping_bind.
  { destruct (_ && has_lifecycle); [|done]. step. intros [turns|err]; [|done]. apply keeping_call. bookkeeping. }
  intros _. step. intros c'. destruct (cn_provider c'); [|done]. step.
  intros [outbound|err]; [apply outbound_idle|apply send_idle].
Qed.

Lemma speech_end_booked frame : booked None (controlUserSpeech enabled "user.speech.end" frame) (fun _ _ => True).
Proof.
  unfold controlUserSpeech. apply look_booked. intros c. destruct (cn_started c) eqn:Es; cbn [negb];
    [|by apply booked_idle; [apply send_idle|]]. cbn [String.eqb].
  apply tracks_bind, booked_idle; [apply ladder_keeps|]. intros _.
  eapply (booked_step _ (Some true)); [intros a c' Ht; apply book_quiet; [done|apply quiet_of_idle, claim_idle]|].
  intros []; [|done]. eapply (booked_step _ (Some true)); [|done]. intros a c' Ht. by repeat split.
Qed.


Local Ltac qstep := apply keeping_step; [by intros; repeat split|].

Lemma persist_quiet reason : keeping quiet_step (persistSession has_lifecycle session reason).
Proof.
  unfold persistSession. qstep. intros c. apply keeping_bind; [destruct (_ && _); [by qstep|done]|]. intros duration.
  destruct (negb has_lifecycle); [done|].
  apply keeping_bind; [destruct (cn_provider c); [by apply keeping_call; repeat split|done]|]. intros utterances.
  apply keeping_step; [intros a c'; cbn; unfold snapshotRescueEvents; by destruct (snapshot (rt_log (cn_rt c')))|].
  intros events. apply keeping_bind; [destruct (cn_provider c); [by apply keeping_call; repeat split|done]|].
  intros usage. apply keeping_call. by repeat split.
Qed.

Lemma write_quiet fs : keeping quiet_step (call (Write_ fs)).
Proof. apply keeping_call. intros a c. apply quiet_of_idle, write_idle. Qed.

Lemma end_quiet frame : keeping quiet_step (controlSessionEnd has_lifecycle session frame).
Proof.
  unfold controlSessionEnd. cbv zeta. qstep. intros _. apply keeping_bind; [apply persist_quiet|]. intros [err|].
  - apply keeping_bind; [apply write_quiet|done].
  - qstep. intros _. apply keeping_bind; [apply write_quiet|done].
Qed.

Lemma leave_quiet o : keeping quiet_step (leave has_lifecycle session o).
Proof.
  unfold leave. qstep. intros c. apply keeping_bind; [destruct (cn_provider c); [by apply keeping_call; repeat split|done]|].
  intros _. qstep. intros _. unfold persistOnExit. qstep. intros c'. destruct (_ || _); [done|]. cbv zeta.
  apply keeping_bind; [apply persist_quiet|]. intros [err|]; [done|]. by apply keeping_call; repeat split.
Qed.

Lemma handler_booked frame : booked None (HandleControl enabled has_lifecycle session frame) (fun _ _ => True).
Proof.
  apply (handler_cases (fun p => booked None p (fun _ _ => True)));
    [intros p H; by apply booked_idle|apply start_booked|apply speech_end_booked|].
  apply booked_quiet; [apply end_quiet|done].
Qed.

(** The account of a turn's goroutine: whether it still has to tell the provider
    to close. *)
Inductive turn_step : bool -> Conn -> Conn -> list Event -> bool -> Prop :=
| Turn_quiet b c c' es : quiet_step c c' es -> turn_step b c c' es b
| Turn_counted c : turn_step false c (count_turn c).2 [] (count_turn c).1
| Turn_told c p text : turn_step true c c [Injected p text] false.

Local Abbreviation counted := (tracks (fun _ _ => True) turn_step).

Lemma counted_idle {A} b (p : cprog A) (post : bool -> A -> Prop) : idle p -> (forall a, post b a) -> counted b p post.
Proof.
  intros Hp Hpost. induction p as [x|R e k IH]; [apply Hpost|]. intros a c _.
  destruct (Hp a c I) as ([] & Hs & Hk). exists b. split; [by apply Turn_quiet, quiet_of_idle|]. by apply IH.
Qed.

Lemma collector_counted frame : counted false (collector frame) (fun _ _ => True).
Proof.
  apply tracks_bind, tracks_bind.
  eapply (tracks_mono _ _ _ _ (fun _ _ => True)).
  { intros b _ _. apply counted_idle; [apply rest_idle|]. intros _. by apply counted_idle; [apply keeping_call; bookkeeping|]. }
  apply tracks_bind, tracks_call. intros a c _. exists (count_turn c).1. split; [apply Turn_counted|]. cbn.
  destruct (count_turn c).1; [|done]. cbn. intros a1 c1 _. exists true. split; [by apply Turn_quiet; repeat split|].
  cbn. destruct (cn_provider c1) as [p|]; [|done]. intros a' c2 _. cbn.
  destruct (rp_injector a'); [exists false|exists true]; (split; [|done]); [apply Turn_told|by apply Turn_quiet; repeat split].
Qed.

Definition injections (es : list Event) : nat := length (List.filter is_injected es).
Definition pending (bs : list bool) : nat := length (List.filter (fun b => b) bs).

(** Whether the turns counted have used up the contract. *)
Definition used_up (c : Conn) : bool := (0 <? limit c) && (limit c <=? cn_userTurns c).

Definition contract (l : Link) : Prop :=
  (cn_started (lk_conn l) = false -> cn_userTurns (lk_conn l) = 0 /\ lk_collectors l = []) /\
  cn_sessionComplete (lk_conn l) = used_up (lk_conn l) /\
  exists bs, Forall2 (fun b (p : cprog unit) => counted b p (fun _ _ => True)) bs (lk_collectors l) /\
    (injections (lk_events l) + pending bs <= if cn_sessionComplete (lk_conn l) then 1 else 0)%nat.

Lemma injections_app es es' : injections (es ++ es') = (injections es + injections es')%nat.
Proof. unfold injections. by rewrite List.filter_app, length_app. Qed.

Lemma no_injections es : existsb is_injected es = false -> injections es = 0%nat.
Proof. unfold injections. induction es as [|e es IH]; cbn; [done|]. by destruct (is_injected e). Qed.

Lemma pending_app bs n : pending (bs ++ replicate n false) = pending bs.
Proof.
  unfold pending. rewrite List.filter_app, length_app.
  assert (H : length (List.filter (fun b : bool => b) (replicate n false)) = 0%nat) by (by induction n). lia.
Qed.

Lemma pending_insert (bs : list bool) i (b b' : bool) : bs !! i = Some b ->
  (pending (<[i := b']> bs) + Nat.b2n b = pending bs + Nat.b2n b')%nat.
Proof.
  unfold pending. revert i. induction bs as [|x bs IH]; intros [|i] H; try done.
  - injection H as ->. destruct b, b'; cbn; lia.
  - specialize (IH i H). change (<[S i := b']> (x :: bs)) with (x :: <[i := b']> bs).
    destruct x; cbn [List.filter length]; lia.
Qed.

Lemma forks_counted es : exists n,
  Forall2 (fun b (p : cprog unit) => counted b p (fun _ _ => True)) (replicate n false)
    (forks enabled clientASRRequired has_badges session es).
Proof.
  unfold forks. induction es as [|[] es [n IH]]; cbn; try (by exists n); [by exists 0%nat|].
  exists (S n). constructor; [apply collector_counted|done].
Qed.

Lemma forks_none es : existsb is_fork es = false ->
  forks enabled clientASRRequired has_badges session es = [].
Proof. unfold forks. induction es as [|[] es IH]; cbn; try done. Qed.

(** What a step of the read loop, or of another goroutine, leaves. *)
Lemma contract_book l c es t t' ph : contract l -> book_step t (lk_conn l) c es t' ->
  contract (mkLink c ph (lk_collectors l ++ forks enabled clientASRRequired has_badges session es) (lk_events l ++ es)).
Proof.
  intros (H0 & Hc & bs & Hbs & Hn) (Hu & Hcc & Hi & Hs & Hf & _). unfold contract. cbn [lk_conn lk_collectors lk_events].
  assert (Hst : cn_started c = false -> cn_started (lk_conn l) = false).
  { destruct (cn_started (lk_conn l)); [|done]. intros E. destruct (Hs eq_refl) as [E' _]. congruence. }
  split_and!.
  - intros E. specialize (Hst E). destruct (H0 Hst) as [E1 ->]. split; [congruence|]. cbn. apply forks_none.
    destruct (existsb is_fork es); [|done]. rewrite Hst in Hf. by specialize (Hf eq_refl).
  - rewrite Hcc, Hc. unfold used_up. rewrite Hu. destruct (cn_started (lk_conn l)) eqn:E.
    + by destruct (Hs eq_refl) as [_ ->].
    + destruct (H0 eq_refl) as [-> _]. destruct (Z.ltb_spec 0 (limit (lk_conn l))), (Z.ltb_spec 0 (limit c)),
        (Z.leb_spec (limit (lk_conn l)) 0), (Z.leb_spec (limit c) 0); cbn; lia || done.
  - destruct (forks_counted es) as [n Hfk]. exists (bs ++ replicate n false). split; [by apply Forall2_app|].
    rewrite injections_app, (no_injections es) by done. rewrite pending_app, Hcc. lia.
Qed.

Lemma count_turn_used c : cn_sessionComplete c = used_up c ->
  cn_sessionComplete (count_turn c).2 = used_up (count_turn c).2 /\
  (Nat.b2n (count_turn c).1 + (if cn_sessionComplete c then 1 else 0) <= if cn_sessionComplete (count_turn c).2 then 1 else 0)%nat.
Proof.
  intros Hc. unfold count_turn. cbv zeta. unfold used_up, limit in *.
  destruct (Z.leb_spec (sc_TurnLimit (cn_session c)) 0), (Z.ltb_spec (cn_userTurns c + 1) (sc_TurnLimit (cn_session c)));
    cbn; rewrite ?Hc;
    destruct (Z.ltb_spec 0 (sc_TurnLimit (cn_session c))), (Z.leb_spec (sc_TurnLimit (cn_session c)) (cn_userTurns c)),
      (Z.leb_spec (sc_TurnLimit (cn_session c)) (cn_userTurns c + 1)),
      (Z.leb_spec (cn_userTurns c + 1) (sc_TurnLimit (cn_session c)));
    cbn; split; first [done|lia|exfalso; lia].
Qed.

Lemma contract_collect l c es i b b' k ph :
  contract l -> cn_started (lk_conn l) = true ->
  (forall bs, Forall2 (fun b (p : cprog unit) => counted b p (fun _ _ => True)) bs (lk_collectors l) -> bs !! i = Some b ->
     turn_step b (lk_conn l) c es b' /\ counted b' k (fun _ _ => True)) ->
  (exists bs, Forall2 (fun b (p : cprog unit) => counted b p (fun _ _ => True)) bs (lk_collectors l) /\ bs !! i = Some b /\
     (injections (lk_events l) + pending bs <= if cn_sessionComplete (lk_conn l) then 1 else 0)%nat) ->
  contract (mkLink c ph (<[i := k]> (lk_collectors l)) (lk_events l ++ es)).
Proof.
  intros (_ & Hc & _) Hst Hstep (bs & Hbs & Hi & Hn). destruct (Hstep bs Hbs Hi) as [Hs Hk].
  pose proof (pending_insert bs i b b' Hi) as Hp.
  assert (Hc' : cn_started c = true /\ cn_sessionComplete c = used_up c /\
    (injections es + Nat.b2n b' + (if cn_sessionComplete (lk_conn l) then 1 else 0)
       <= Nat.b2n b + if cn_sessionComplete c then 1 else 0)%nat).
  { inversion Hs as [b1 c1 c2 es1 (Hst' & Hf & Hu & Hcc & Hl & Hij)|c1|c1 p text]; subst.
    - split_and!; [congruence| |].
      + rewrite Hcc, Hc. unfold used_up. by rewrite Hu, Hl.
      + rewrite (no_injections es), Hcc by done. lia.
    - destruct (count_turn_used _ Hc) as [H1 H2]. split_and!; [|done|cbn in *; lia].
      unfold count_turn. by destruct (_ || _).
    - split_and!; [done|done|]. cbn. lia. }
  destruct Hc' as (H1 & H2 & H3). split_and!; cbn [lk_conn lk_collectors lk_events]; [congruence|done|].
  exists (<[i := b']> bs). split; [by apply Forall2_insert|]. rewrite injections_app. lia.
Qed.

Definition contracted (l : Link) : Prop :=
  contract l /\
  match lk_phase l with
  | Handling p => exists t, started_is t (lk_conn l) /\ booked t p (fun _ _ => True)
  | Leaving p => exists t, started_is t (lk_conn l) /\ booked t p (fun _ _ => True)
  | _ => True
  end.

Lemma contract_phase l ph : contract l -> contract (mkLink (lk_conn l) ph (lk_collectors l) (lk_events l)).
Proof. done. Qed.

Lemma leave_booked o : booked None (leave has_lifecycle session o) (fun _ _ => True).
Proof. by apply booked_quiet; [apply leave_quiet|]. Qed.

Lemma loop_contracted a l : contracted l ->
  contracted (loop_step enabled clientASRRequired has_lifecycle has_badges session a l).
Proof.
  intros [Hc Hl]. unfold loop_step. destruct (lk_phase l) as [|p|p|] eqn:Eph; try (by split; [|rewrite Eph]);
    destruct Hl as (t & Ht & Hs).
  - destruct p as [o|R e k].
    + destruct o; (split; [exact Hc|]); cbn -[leave]; try done; (exists None; split; [done|apply leave_booked]).
    + destruct (blocked (Do e k) l); [by split; [|rewrite Eph; exists t]|].
      destruct (Hs a (lk_conn l) Ht) as (t' & Hb & Hk).
      pose proof (contract_book l _ _ t t' (Handling (k (perform a e (lk_conn l)).1.1)) Hc Hb) as Hc'.
      destruct Hb as (_ & _ & _ & _ & _ & Ht'). destruct (perform a e (lk_conn l)) as [[r c] es].
      split; [exact Hc'|]. by exists t'.
  - destruct p as [o|R e k].
    + by split.
    + destruct (blocked (Do e k) l); [by split; [|rewrite Eph; exists t]|].
      destruct (Hs a (lk_conn l) Ht) as (t' & Hb & Hk).
      pose proof (contract_book l _ _ t t' (Leaving (k (perform a e (lk_conn l)).1.1)) Hc Hb) as Hc'.
      destruct Hb as (_ & _ & _ & _ & _ & Ht'). destruct (perform a e (lk_conn l)) as [[r c] es].
      split; [exact Hc'|]. by exists t'.
Qed.

(** The others do not change whether the session started. *)
Lemma aside_contracted l c cs es : cn_started c = cn_started (lk_conn l) ->
  contract (mkLink c (lk_phase l) cs (lk_events l ++ es)) -> contracted l ->
  contracted (mkLink c (lk_phase l) cs (lk_events l ++ es)).
Proof.
  intros Hst Hc [_ Hl]. split; [done|]. cbn. destruct (lk_phase l); try done;
    destruct Hl as (t & Ht & Hs); exists t; (split; [destruct t; cbn in *; congruence|done]).
Qed.

Lemma frames_contract l c fs : quiet_step (lk_conn l) c (map Frame_ fs) -> contracted l ->
  contracted (mkLink c (lk_phase l) (lk_collectors l) (lk_events l ++ map Frame_ fs)).
Proof.
  intros Hq Hl. apply aside_contracted; [apply Hq| |done].
  pose proof (contract_book l c (map Frame_ fs) None None (lk_phase l) (proj1 Hl) (book_quiet None _ _ _ I Hq)) as H.
  rewrite (forks_none (map Frame_ fs)), app_nil_r in H by apply Hq. done.
Qed.

Lemma step_contracted l x : contracted l -> contracted (linked_step l x).
Proof.
  intros Hl. pose proof Hl as [Hc Hp]. destruct x as [i|a|i a|now outbound|rt fs].
  - cbn. destruct (lk_phase l) eqn:Eph; try done. split; [done|].
    destruct i as [frame|payload|d]; cbn -[handleAudio HandleControl leave]; exists None; (split; [done|]).
    + apply handler_booked.
    + by apply booked_idle; [apply audio_idle|].
    + apply leave_booked.
  - by apply loop_contracted.
  - cbn. destruct (lk_collectors l !! i) as [[u|R e k]|] eqn:Hi; [done| |done].
    pose proof Hc as (H0 & _ & bs & Hbs & Hn).
    destruct (Forall2_lookup_r _ _ _ _ _ Hbs Hi) as (b & Hb & Hcnt).
    destruct (Hcnt a (lk_conn l) I) as (b' & Hstep & Hk).
    assert (Hst : cn_started (lk_conn l) = true).
    { destruct (cn_started (lk_conn l)); [done|]. destruct (H0 eq_refl) as [_ E]. by rewrite E in Hi. }
    pose proof (contract_collect l _ _ i b b' (k (perform a e (lk_conn l)).1.1) (lk_phase l) Hc Hst
      (fun bs' _ _ => conj Hstep Hk) (ex_intro _ bs (conj Hbs (conj Hb Hn)))) as Hc'.
    assert (Hst' : cn_started (perform a e (lk_conn l)).1.2 = cn_started (lk_conn l)).
    { inversion Hstep as [? ? ? ? Hq| |]; [apply Hq| |congruence]. unfold count_turn. by destruct (_ || _). }
    destruct (perform a e (lk_conn l)) as [[r c] es]. by apply aside_contracted.
  - cbn. destruct (writableOutbound outbound); [|done]. apply frames_contract; [|done].
    by apply quiet_of_idle, idle_frames.
  - cbn. apply frames_contract; [|done]. by apply quiet_of_idle, idle_frames.
Qed.

(** C8: Over every interleaving of a connection the session is marked complete
    exactly when app-server set a limit and the turns counted have reached it, and
    the instruction to close the practice is given to the provider at most once,
    and only then. *)
Theorem closing_is_said_once rt ts :
  let l := run ts (accepted_link rt) in
  cn_sessionComplete (lk_conn l) = used_up (lk_conn l) /\
  (injections (lk_events l) <= if used_up (lk_conn l) then 1 else 0)%nat.
Proof.
  intros l. enough (H : contracted l).
  { destruct H as [(_ & Hc & bs & _ & Hn) _]. split; [done|]. rewrite <- Hc. lia. }
  assert (H : forall l, contracted l -> contracted (run ts l)).
  { clear l. induction ts as [|x ts IH]; intros l Hl; [done|]. cbn. by apply IH, step_contracted. }
  apply H. split; [|done]. split_and!; [done|done|]. exists []. by split.
Qed.
End connection.

(** ** Connections, step by step *)

Definition voice_ticket : ConsumedTicket := mkTicket "s1" "u1".
Definition nothing : ClientFrame :=
  mkClientFrame (Err (Errorf "missing type")) (Ok 0) (Ok (mkSessionStart "" "" "" "")) (Ok "") (Ok tt) "" None.
Definition frame_of (t : string) : ClientFrame :=
  mkClientFrame (Ok t) (Ok 7) (Ok (mkSessionStart "" "interview" "" "")) (Ok "timeout") (Ok tt) ""
    (Some ("t1", "I would ship it on Monday.")%string).

(** Everything answers well; the contract is one turn. *)
Definition well : Reply :=
  mkReply (1774961805 * Second) None (mkAnswer (Ok "") (Ok (mkRescueAudio [] 0 "" "")) true 0) (Ok (mkActivate "" 1))
    (Ok []) (Ok 1%nat) (Ok [mkOutbound (Some (TextDelta "Hello." "t1" 0)) [] ""]) true
    [mkEndUtterance 1 "user" "I would ship it on Monday." false] None None.

(** App-server refuses the activation. *)
Definition refusing : Reply :=
  mkReply (rp_now well) None (rp_ladder well) (Err (Errorf "activate: 503")) (Ok []) (Ok 1%nat) (Ok []) true [] None None.

Definition practice : list Turn_ :=
  [Arrives (TextFrame (frame_of "session.start"))] ++ replicate 20 (LoopStep well) ++
  [Arrives (TextFrame (frame_of "user.speech.start"))] ++ replicate 10 (LoopStep well) ++
  [Arrives (TextFrame (frame_of "user.speech.end"))] ++ replicate 14 (LoopStep well) ++
  replicate 20 (CollectStep 0 well) ++
  [Arrives (TextFrame (frame_of "session.end"))] ++ replicate 20 (LoopStep well).

Definition voice_run (ts : list Turn_) : Link :=
  run_link true false true false voice_ticket ts (accepted_link (new_runtime "s1" (mkThresholds 0 0 0))).

Definition is_gone (l : Link) : bool := match lk_phase l with Gone => true | _ => false end.
Definition panics (l : Link) : bool := match lk_phase l with Handling (Ret Panicked) => true | _ => false end.

Lemma gone_phase l : is_gone l = true -> lk_phase l = Gone.
Proof. unfold is_gone. by destruct (lk_phase l). Qed.

Lemma session_is_reported_once_witness :
  cn_started (lk_conn (voice_run practice)) = true /\
  (exists ok, final voice_ticket ok (lk_events (voice_run practice))).
Proof.
  split; [vm_compute; reflexivity|].
  refine (proj2 (VoiceLaws.session_is_reported_once true false true false voice_ticket
    (new_runtime "s1" (mkThresholds 0 0 0)) practice) _ _ _);
    [apply gone_phase; vm_compute; reflexivity|vm_compute; reflexivity|reflexivity].
Defined.

Example practice_is_complete :
  used_up (lk_conn (voice_run practice)) = true /\ injections (lk_events (voice_run practice)) = 1%nat.
Proof. vm_compute. split; reflexivity. Qed.

(** When app-server refuses the activation the client is told, and the handler
    goes on to start a provider session it does not have. *)
Lemma refused_activation_panics :
  panics (voice_run (Arrives (TextFrame (frame_of "session.start")) :: replicate 5 (LoopStep refusing))) = true.
Proof. vm_compute. reflexivity. Qed.
