(* ===== verification/Duplex.v ===== *)
(** * The realtime duplex session of the vendor ([internal/voiceduplex])

    [volc_duplex.go]: the requests of a session, and [collectTurn], which
    gathers the events of one turn — transcript, reply, speech — and hands each
    fragment to the gateway as it arrives.  The socket is outside: a [Transport]
    sends a request, answers the next event or why there is none, and tells the
    time; a [TurnSink] is what the gateway does with a fragment.  Both are
    programs of the caller's effects.  Requests are kept without their random
    [event_id]; the frames of silence that keep the uplink alive while a turn is
    collected, and log segments, are left out.

    The loops wait for events until a deadline, so [events] bounds how many
    arrive before it: when they are used up, the deadline has passed. *)
From S2P Require Import Prelude GoString GoTime GoCrypto GoBase64 GoJson ApiErr Prog.

Open Scope Z_scope.
Open Scope prog_scope.

(** ** Events *)

Record DuplexEvent := mkEvent {
  ev_Type : string;
  ev_SessionID : string;
  ev_Delta : string;
  ev_Text : string;
  ev_Transcript : string;
  ev_Raw : string;
}.

(** The envelope of a frame; its [session] is a pointer. *)
Record Envelope := mkEnvelope {
  en_Type : string;
  en_Delta : string;
  en_Text : string;
  en_Transcript : string;
  en_Session : option string;
}.

Definition envelope_fields : list string := ["type"; "delta"; "text"; "transcript"; "session"]%string.

(** An error inside [session] is reported at the end, and the caller ignores it. *)
Definition set_envelope (key : string) (e : Envelope) (v : json) : result json_error Envelope :=
  if String.eqb key "type" then
    on_string (en_Type e) v (fun s => mkEnvelope s (en_Delta e) (en_Text e) (en_Transcript e) (en_Session e))
  else if String.eqb key "delta" then
    on_string (en_Delta e) v (fun s => mkEnvelope (en_Type e) s (en_Text e) (en_Transcript e) (en_Session e))
  else if String.eqb key "text" then
    on_string (en_Text e) v (fun s => mkEnvelope (en_Type e) (en_Delta e) s (en_Transcript e) (en_Session e))
  else if String.eqb key "transcript" then
    on_string (en_Transcript e) v (fun s => mkEnvelope (en_Type e) (en_Delta e) (en_Text e) s (en_Session e))
  else
    let id := match v with
              | JNull => None
              | _ => Some (dec_struct ["id"%string] (fun _ old v => dec_string old v) (default "" (en_Session e)) v).1
              end in
    Ok (mkEnvelope (en_Type e) (en_Delta e) (en_Text e) (en_Transcript e) id).

Definition decodeDuplexEvent (data : string) : DuplexEvent :=
  let e := (Unmarshal envelope_fields set_envelope (mkEnvelope "" "" "" "" None) data).1 in
  mkEvent (en_Type e) (default "" (en_Session e)) (en_Delta e) (en_Text e) (en_Transcript e) data.

(** The types [collectTurn] tells apart. *)
Inductive EventKind :=
| ASRStarted | ASRDelta | ASRCompleted | AudioCommitted
| OutputTextDelta | OutputTextDone | OutputAudioStarted | OutputAudioDelta | OutputAudioDone
| ResponseDone | OtherEvent.

Definition kind (t : string) : EventKind :=
  if String.eqb t "conversation.item.input_audio_transcription.started" then ASRStarted
  else if String.eqb t "conversation.item.input_audio_transcription.delta" then ASRDelta
  else if String.eqb t "conversation.item.input_audio_transcription.completed" then ASRCompleted
  else if String.eqb t "input_audio_buffer.committed" then AudioCommitted
  else if String.eqb t "response.output_text.delta" then OutputTextDelta
  else if String.eqb t "response.output_text.done" then OutputTextDone
  else if String.eqb t "response.output_audio.started" then OutputAudioStarted
  else if String.eqb t "response.output_audio.delta" then OutputAudioDelta
  else if String.eqb t "response.output_audio.done" then OutputAudioDone
  else if String.eqb t "response.done" then ResponseDone
  else OtherEvent.

(** The speech an audio delta carries: nothing when it is empty or not base64. *)
Definition audio_of_delta (delta : string) : option bytes :=
  if String.eqb delta "" then None else option_map (map byte_of) (DecodeString b64std delta).

(** What [recv] answers: the next event, or that the caller's window is over,
    that the caller withdrew, or that the socket is gone. *)
Inductive received := Event (e : DuplexEvent) | Expired | Withdrawn | SocketGone (err : error).

(** ** Requests *)

Inductive Request :=
| SessionCreate (instructions : string)
| SessionUpdate (instructions sessionID : string)
| AudioAppend (pcm : bytes)
| AudioCommit
| MuteCommit
| UnmuteCommit
| ResponseCreate (instructions : string)
| SessionClose.

Record Transport (E : Type -> Type) := mkTransport {
  ensureOpen : program E (option error);
  send : Request -> program E (option error);
  recv : program E received;
  Now : program E time;
}.
Arguments ensureOpen {E} _.
Arguments send {E} _ _.
Arguments recv {E} _.
Arguments Now {E} _.

Record TurnSink (E : Type -> Type) := mkSink {
  AssistantTextDelta : string -> program E unit;
  AssistantAudio : bytes -> program E unit;
  UserTranscript : string -> program E unit;
}.
Arguments AssistantTextDelta {E} _ _.
Arguments AssistantAudio {E} _ _.
Arguments UserTranscript {E} _ _.

(** ** The result of a turn *)

Definition TurnOutcomeOK : string := "ok".
Definition TurnOutcomePartial : string := "partial".
Definition TurnOutcomeTimeout : string := "timeout".
Definition TurnOutcomeError : string := "error".

Record TurnResult := mkTurnResult {
  Transcript : string;
  AssistantText : string;
  EventTypes : list string;
  ASRStartedAtMS : Z;
  ASRDoneAtMS : Z;
  Outcome : string;
  AudioPCM : bytes;
}.

(** The errors of [collectTurn] its callers tell apart: a turn that timed out,
    the caller's withdrawal, a dead socket, an error event of the vendor. *)
Inductive CollectError := TurnTimeout (deadlineExceeded : bool) | ErrTurnCancelled | ErrDuplexClosed | EventError (raw : string).

(** The local variables of [collectTurn]; [streamed] only feeds a warning. *)
Record collecting := mkCollecting {
  out : TurnResult;
  text : string;
  seenAnyEvent : bool;
  seenUserProgress : bool;
  seenResponse : bool;
  lastForwardedASR : string;
}.

Definition no_turn : TurnResult := mkTurnResult "" "" [] 0 0 "" [].
Definition fresh : collecting := mkCollecting no_turn "" false false false "".

Definition note_event (t : string) (c : collecting) : collecting :=
  let o := out c in
  mkCollecting (mkTurnResult (Transcript o) (AssistantText o) (EventTypes o ++ [t]) (ASRStartedAtMS o) (ASRDoneAtMS o)
                  (Outcome o) (AudioPCM o)) (text c) true (seenUserProgress c) (seenResponse c) (lastForwardedASR c).
Definition set_user (c : collecting) : collecting :=
  mkCollecting (out c) (text c) (seenAnyEvent c) true (seenResponse c) (lastForwardedASR c).
Definition set_response (c : collecting) : collecting :=
  mkCollecting (out c) (text c) (seenAnyEvent c) (seenUserProgress c) true (lastForwardedASR c).
Definition set_text (t : string) (c : collecting) : collecting :=
  mkCollecting (out c) t (seenAnyEvent c) (seenUserProgress c) (seenResponse c) (lastForwardedASR c).
Definition set_forwarded (t : string) (c : collecting) : collecting :=
  mkCollecting (out c) (text c) (seenAnyEvent c) (seenUserProgress c) (seenResponse c) t.
Definition set_transcript (t : string) (c : collecting) : collecting :=
  let o := out c in
  mkCollecting (mkTurnResult t (AssistantText o) (EventTypes o) (ASRStartedAtMS o) (ASRDoneAtMS o) (Outcome o) (AudioPCM o))
    (text c) (seenAnyEvent c) (seenUserProgress c) (seenResponse c) (lastForwardedASR c).
Definition set_asr (started done_ : option Z) (c : collecting) : collecting :=
  let o := out c in
  mkCollecting (mkTurnResult (Transcript o) (AssistantText o) (EventTypes o) (default (ASRStartedAtMS o) started)
                  (default (ASRDoneAtMS o) done_) (Outcome o) (AudioPCM o))
    (text c) (seenAnyEvent c) (seenUserProgress c) (seenResponse c) (lastForwardedASR c).
Definition add_audio (pcm : bytes) (c : collecting) : collecting :=
  let o := out c in
  mkCollecting (mkTurnResult (Transcript o) (AssistantText o) (EventTypes o) (ASRStartedAtMS o) (ASRDoneAtMS o) (Outcome o)
                  (AudioPCM o ++ pcm))
    (text c) (seenAnyEvent c) (seenUserProgress c) (seenResponse c) (lastForwardedASR c).

(** The result with its outcome; the reply is what [text] holds. *)
Definition concluded (outcome : string) (c : collecting) : TurnResult :=
  let o := out c in
  mkTurnResult (Transcript o) (TrimSpace (text c)) (EventTypes o) (ASRStartedAtMS o) (ASRDoneAtMS o) outcome (AudioPCM o).

(** The transcript an event carries, when it carries one. *)
Definition first_of (a b old : string) : string :=
  if negb (String.eqb a "") then a else if negb (String.eqb b "") then b else old.

(** 20 ms of audio at 16 kHz. *)
Definition uplinkChunkBytes : nat := 640.

Section duplex.
Context {E : Type -> Type} (wire : Transport E) (turnSink : option (TurnSink E)).

(** ** Collecting a turn *)

Definition forwardASR (c : collecting) : program E collecting :=
  let t := TrimSpace (Transcript (out c)) in
  match turnSink with
  | None => Ret c
  | Some sink =>
      if String.eqb t "" || String.eqb t (lastForwardedASR c) then Ret c
      else _ <- UserTranscript sink t; Ret (set_forwarded t c)
  end.

(** Milliseconds since [started]. *)
Definition since_ms (started : time) : program E Z :=
  now <- Now wire; Ret (Z.quot (Sub now started) Millisecond).

(** Whether the turn is over, and its state. *)
Definition apply (started : time) (evt : DuplexEvent) (c : collecting) : program E (bool * collecting) :=
  let c := note_event (ev_Type evt) c in
  let go_on c : program E (bool * collecting) := Ret (false, c) in
  match kind (ev_Type evt) with
  | ASRStarted =>
      ms <- since_ms started;
      let c := set_asr (Some ms) None (set_user c) in
      c <- forwardASR (set_transcript (first_of (ev_Transcript evt) "" (Transcript (out c))) c);
      go_on c
  | ASRDelta =>
      let c := set_user c in
      c <- forwardASR (set_transcript (first_of (ev_Transcript evt) (ev_Delta evt) (Transcript (out c))) c);
      go_on c
  | ASRCompleted =>
      ms <- since_ms started;
      let c := set_asr None (Some ms) (set_user c) in
      c <- forwardASR (set_transcript (first_of (ev_Transcript evt) (ev_Text evt) (Transcript (out c))) c);
      go_on c
  | AudioCommitted => go_on (set_user c)
  | OutputTextDelta =>
      if negb (seenUserProgress c) then go_on c else
      let c := set_response c in
      if String.eqb (ev_Delta evt) "" then go_on c else
      let c := set_text (text c +:+ ev_Delta evt) c in
      match turnSink with
      | None => go_on c
      | Some sink => _ <- AssistantTextDelta sink (ev_Delta evt); go_on c
      end
  | OutputTextDone =>
      if negb (seenUserProgress c) then go_on c else
      let c := set_response c in
      go_on (if String.eqb (ev_Text evt) "" then c else set_text (ev_Text evt) c)
  | OutputAudioStarted | OutputAudioDone => go_on (if seenUserProgress c then set_response c else c)
  | OutputAudioDelta =>
      if negb (seenUserProgress c) then go_on c else
      let c := set_response c in
      match audio_of_delta (ev_Delta evt) with
      | None => go_on c
      | Some chunk =>
          let c := add_audio chunk c in
          match turnSink with
          | None => go_on c
          | Some sink => _ <- AssistantAudio sink chunk; go_on c
          end
      end
  | ResponseDone => Ret (seenUserProgress c && seenResponse c, c)
  | OtherEvent => go_on c
  end.

Definition collected : Type := TurnResult * option CollectError.

(** The events the caller read already; whether one of them ended the turn. *)
Fixpoint preloaded (started : time) (preload : list DuplexEvent) (c : collecting)
  : program E (collected + collecting) :=
  match preload with
  | [] => Ret (inr c)
  | evt :: preload =>
      if String.eqb (ev_Type evt) "error" then
        Ret (inl (concluded TurnOutcomeError c, Some (EventError (ev_Raw evt))))
      else
        r <- apply started evt c;
        let '(over, c) := r in
        if over : bool then Ret (inl (concluded TurnOutcomeOK c, None)) else preloaded started preload c
  end.

(** The window is over. *)
Definition window_over (c : collecting) : collected :=
  if seenAnyEvent c || seenUserProgress c || seenResponse c then (concluded TurnOutcomePartial c, None)
  else (concluded TurnOutcomeTimeout c, Some (TurnTimeout false)).

(** [recv] answered no event. *)
Definition not_received (r : received) (c : collecting) : collected :=
  match r with
  | Withdrawn => (concluded TurnOutcomeError c, Some ErrTurnCancelled)
  | SocketGone _ => (concluded TurnOutcomeError c, Some ErrDuplexClosed)
  | _ =>
      if negb (String.eqb (text c) "") || negb (String.eqb (Transcript (out c)) "") || seenUserProgress c
         || seenResponse c
      then (concluded TurnOutcomePartial c, None)
      else (concluded TurnOutcomeTimeout c, Some (TurnTimeout true))
  end.

Fixpoint collect (events : nat) (started deadline : time) (c : collecting) : program E collected :=
  match events with
  | O => Ret (window_over c)
  | S events =>
      now <- Now wire;
      if deadline <=? now then Ret (window_over c) else
      r <- recv wire;
      match r with
      | Event evt =>
          if String.eqb (ev_Type evt) "error" then
            Ret (concluded TurnOutcomeError c, Some (EventError (ev_Raw evt)))
          else
            r <- apply started evt c;
            let '(over, c) := r in
            if over : bool then Ret (concluded TurnOutcomeOK c, None) else collect events started deadline c
      | r => Ret (not_received r c)
      end
  end.

Definition collectTurn (events : nat) (started : time) (preload : list DuplexEvent) (wait : Z) : program E collected :=
  let wait := if wait <=? 0 then 25 * Second else wait in
  r <- preloaded started preload fresh;
  match r with
  | inl done_ => Ret done_
  | inr c => now <- Now wire; collect events started (now + wait) c
  end.

Definition WaitTurnResult (events : nat) (started : time) (wait : Z) : program E collected :=
  collectTurn events started [] wait.
Definition WaitTurn (events : nat) (started : time) (preload : list DuplexEvent) (wait : Z) : program E collected :=
  collectTurn events started preload wait.

(** ** Requests of a session *)

Definition CommitAudio : program E (option error) := send wire AudioCommit.
Definition CommitInputMute : program E (option error) := send wire MuteCommit.
Definition CommitInputUnmute : program E (option error) := send wire UnmuteCommit.

Definition AppendPCMChunk (chunk : bytes) : program E (option error) :=
  failed <- ensureOpen wire;
  match failed with Some err => Ret (Some err) | None => send wire (AudioAppend chunk) end.

Definition RequestTextTTS (s : string) : program E (option error) :=
  let s := TrimSpace s in
  if String.eqb s "" then Ret (Some (Errorf "duplex TTS text is empty")) else
  failed <- ensureOpen wire;
  match failed with Some err => Ret (Some err) | None => send wire (ResponseCreate s) end.

(** The wait for [session.updated]; the events read meanwhile. *)
Fixpoint await_updated (events : nat) (deadline : time) (skipped : list DuplexEvent)
  : program E (list DuplexEvent * option error) :=
  let over := (skipped, Some (Errorf "timeout waiting for session.updated")) in
  match events with
  | O => Ret over
  | S events =>
      now <- Now wire;
      if deadline <=? now then Ret over else
      r <- recv wire;
      match r with
      | Event evt =>
          if String.eqb (ev_Type evt) "session.updated" then Ret (skipped, None)
          else if String.eqb (ev_Type evt) "error" then
            Ret (skipped, Some (Errorf ("duplex error after update: " +:+ ev_Raw evt)))
          else await_updated events deadline (skipped ++ [evt])
      | _ => Ret (skipped, Some (Errorf "wait session.updated"))
      end
  end.

Definition UpdateInstructions (events : nat) (sessionID instructions : string)
  : program E (list DuplexEvent * option error) :=
  failed <- ensureOpen wire;
  match failed with
  | Some err => Ret ([], Some err)
  | None =>
      failed <- send wire (SessionUpdate instructions sessionID);
      match failed with
      | Some err => Ret ([], Some err)
      | None => now <- Now wire; await_updated events (now + 8 * Second) []
      end
  end.

(** The wait of [OpenDuplex] for [session.created]: the id of the session.  The
    caller closes the session when there is none. *)
Fixpoint await_created (events : nat) : program E (result error string) :=
  match events with
  | O => Ret (Err (Errorf "wait session.created"))
  | S events =>
      r <- recv wire;
      match r with
      | Event evt =>
          if String.eqb (ev_Type evt) "session.created" then
            Ret (if String.eqb (ev_SessionID evt) "" then Err (Errorf "session.created missing session.id")
                 else Ok (ev_SessionID evt))
          else if String.eqb (ev_Type evt) "error" then
            Ret (Err (Errorf ("duplex error after create: " +:+ ev_Raw evt)))
          else await_created events
      | _ => Ret (Err (Errorf "wait session.created"))
      end
  end.

(** [SendPCM]: one chunk per request, with a pause of 20 ms after each that the
    end of the caller's context interrupts. *)
Fixpoint SendPCM_from (chunks : list bytes) (pause : program E (option error)) : program E (option error) :=
  match chunks with
  | [] => Ret None
  | chunk :: chunks =>
      failed <- send wire (AudioAppend chunk);
      match failed with
      | Some err => Ret (Some err)
      | None =>
          stopped <- pause;
          match stopped with Some err => Ret (Some err) | None => SendPCM_from chunks pause end
      end
  end.

Fixpoint pcm_chunks (fuel : nat) (pcm : bytes) : list bytes :=
  match fuel, pcm with
  | S fuel, _ :: _ => take uplinkChunkBytes pcm :: pcm_chunks fuel (drop uplinkChunkBytes pcm)
  | _, _ => []
  end.

Definition SendPCM (pause : program E (option error)) (pcm : bytes) : program E (option error) :=
  failed <- ensureOpen wire;
  match failed with
  | Some err => Ret (Some err)
  | None => SendPCM_from (pcm_chunks (length pcm) pcm) pause
  end.
End duplex.
