(* ===== verification/Volc.v ===== *)
(** * The live provider ([internal/voicegateway], provider_volc_duplex.go)

    A provider session sits between one connection and the vendor's duplex
    session: it forwards the learner's audio, collects the reply of a turn, and
    pushes its text and speech to the client while they arrive.  Its methods are
    called by two goroutines — the read loop and the one that collects the turn —
    so each is a program whose steps are the source's critical sections, or work
    on fields only one of the two uses.  Log lines, and the first failed push,
    which is only logged, are left out. *)
From S2P Require Import Prelude GoString GoTime GoJson ApiErr Frames Audio Resampler Turn Silence RescueLog Conversation SessionService Prog Rescue Duplex.

Open Scope Z_scope.
Open Scope prog_scope.

(** ** State *)

(** A vendor session: its socket, its id, and the handshake's log id. *)
Record DuplexSession := mkDuplexSession { du_conn : nat; du_sessionID : string; du_logID : string }.

(** What [resetTurnStreamingState] clears. *)
Record Streaming := mkStreaming {
  sg_streamedText : bool;
  sg_streamedAudio : bool;
  sg_streamedASR : bool;
  sg_ttsStarted : bool;
  sg_turnUplinkBytes : Z;
  sg_deliveredText : string;
  sg_interrupted : bool;
  sg_audioResampler : option pcmResampler;
  sg_framer : option audioFramer;
  sg_activeTurnRef : option Z;
  sg_collectingTurn : bool;
}.

Definition no_stream : Streaming := mkStreaming false false false false 0 "" false None None None false.

(** [volcDuplexProviderSession] *)
Record Volc := mkVolc {
  vs_session : option DuplexSession;
  vs_instructions : string;
  vs_turnStarted : time;
  vs_nextSeq : Z;
  vs_audioSeq : option SeqAllocator;
  vs_turnRefs : option TurnRefAllocator;
  vs_utterances : list EndUtteranceItem;
  vs_activeTurnID : string;
  vs_usage : voiceUsage;
  vs_inputMuted : bool;
  vs_lastAudioAt : time;
  vs_pendingInstruction : string;
  vs_stream : Streaming;
}.

Definition set_session (s : DuplexSession) (v : Volc) : Volc :=
  mkVolc (Some s) (vs_instructions v) (vs_turnStarted v) (vs_nextSeq v) (vs_audioSeq v) (vs_turnRefs v) (vs_utterances v)
    (vs_activeTurnID v) (vs_usage v) (vs_inputMuted v) (vs_lastAudioAt v) (vs_pendingInstruction v) (vs_stream v).
Definition set_instructions (i : string) (v : Volc) : Volc :=
  mkVolc (vs_session v) i (vs_turnStarted v) (vs_nextSeq v) (vs_audioSeq v) (vs_turnRefs v) (vs_utterances v)
    (vs_activeTurnID v) (vs_usage v) (vs_inputMuted v) (vs_lastAudioAt v) (vs_pendingInstruction v) (vs_stream v).
Definition set_turnStarted (t : time) (v : Volc) : Volc :=
  mkVolc (vs_session v) (vs_instructions v) t (vs_nextSeq v) (vs_audioSeq v) (vs_turnRefs v) (vs_utterances v)
    (vs_activeTurnID v) (vs_usage v) (vs_inputMuted v) (vs_lastAudioAt v) (vs_pendingInstruction v) (vs_stream v).
Definition set_nextSeq (n : Z) (v : Volc) : Volc :=
  mkVolc (vs_session v) (vs_instructions v) (vs_turnStarted v) n (vs_audioSeq v) (vs_turnRefs v) (vs_utterances v)
    (vs_activeTurnID v) (vs_usage v) (vs_inputMuted v) (vs_lastAudioAt v) (vs_pendingInstruction v) (vs_stream v).
Definition set_alloc (a : option SeqAllocator) (r : option TurnRefAllocator) (v : Volc) : Volc :=
  mkVolc (vs_session v) (vs_instructions v) (vs_turnStarted v) (vs_nextSeq v) a r (vs_utterances v)
    (vs_activeTurnID v) (vs_usage v) (vs_inputMuted v) (vs_lastAudioAt v) (vs_pendingInstruction v) (vs_stream v).
Definition add_utterance (u : EndUtteranceItem) (v : Volc) : Volc :=
  mkVolc (vs_session v) (vs_instructions v) (vs_turnStarted v) (vs_nextSeq v) (vs_audioSeq v) (vs_turnRefs v)
    (vs_utterances v ++ [u]) (vs_activeTurnID v) (vs_usage v) (vs_inputMuted v) (vs_lastAudioAt v)
    (vs_pendingInstruction v) (vs_stream v).
Definition set_activeTurnID (id : string) (v : Volc) : Volc :=
  mkVolc (vs_session v) (vs_instructions v) (vs_turnStarted v) (vs_nextSeq v) (vs_audioSeq v) (vs_turnRefs v) (vs_utterances v)
    id (vs_usage v) (vs_inputMuted v) (vs_lastAudioAt v) (vs_pendingInstruction v) (vs_stream v).
Definition set_usage (u : voiceUsage) (v : Volc) : Volc :=
  mkVolc (vs_session v) (vs_instructions v) (vs_turnStarted v) (vs_nextSeq v) (vs_audioSeq v) (vs_turnRefs v) (vs_utterances v)
    (vs_activeTurnID v) u (vs_inputMuted v) (vs_lastAudioAt v) (vs_pendingInstruction v) (vs_stream v).
Definition set_inputMuted (b : bool) (v : Volc) : Volc :=
  mkVolc (vs_session v) (vs_instructions v) (vs_turnStarted v) (vs_nextSeq v) (vs_audioSeq v) (vs_turnRefs v) (vs_utterances v)
    (vs_activeTurnID v) (vs_usage v) b (vs_lastAudioAt v) (vs_pendingInstruction v) (vs_stream v).
Definition set_lastAudioAt (t : time) (v : Volc) : Volc :=
  mkVolc (vs_session v) (vs_instructions v) (vs_turnStarted v) (vs_nextSeq v) (vs_audioSeq v) (vs_turnRefs v) (vs_utterances v)
    (vs_activeTurnID v) (vs_usage v) (vs_inputMuted v) t (vs_pendingInstruction v) (vs_stream v).
Definition set_pending (i : string) (v : Volc) : Volc :=
  mkVolc (vs_session v) (vs_instructions v) (vs_turnStarted v) (vs_nextSeq v) (vs_audioSeq v) (vs_turnRefs v) (vs_utterances v)
    (vs_activeTurnID v) (vs_usage v) (vs_inputMuted v) (vs_lastAudioAt v) i (vs_stream v).
Definition on_stream (f : Streaming -> Streaming) (v : Volc) : Volc :=
  mkVolc (vs_session v) (vs_instructions v) (vs_turnStarted v) (vs_nextSeq v) (vs_audioSeq v) (vs_turnRefs v) (vs_utterances v)
    (vs_activeTurnID v) (vs_usage v) (vs_inputMuted v) (vs_lastAudioAt v) (vs_pendingInstruction v) (f (vs_stream v)).

Definition resetTurnStreamingState : Volc -> Volc := on_stream (fun _ => no_stream).

Definition mark_asr (s : Streaming) : Streaming :=
  mkStreaming (sg_streamedText s) (sg_streamedAudio s) true (sg_ttsStarted s) (sg_turnUplinkBytes s) (sg_deliveredText s)
    (sg_interrupted s) (sg_audioResampler s) (sg_framer s) (sg_activeTurnRef s) (sg_collectingTurn s).
Definition deliver (delta : string) (s : Streaming) : Streaming :=
  mkStreaming true (sg_streamedAudio s) (sg_streamedASR s) (sg_ttsStarted s) (sg_turnUplinkBytes s)
    (sg_deliveredText s +:+ delta) (sg_interrupted s) (sg_audioResampler s) (sg_framer s) (sg_activeTurnRef s)
    (sg_collectingTurn s).
Definition mark_audio (s : Streaming) : Streaming :=
  mkStreaming (sg_streamedText s) true (sg_streamedASR s) true (sg_turnUplinkBytes s) (sg_deliveredText s)
    (sg_interrupted s) (sg_audioResampler s) (sg_framer s) (sg_activeTurnRef s) (sg_collectingTurn s).
Definition add_uplink (n : Z) (s : Streaming) : Streaming :=
  mkStreaming (sg_streamedText s) (sg_streamedAudio s) (sg_streamedASR s) (sg_ttsStarted s) (sg_turnUplinkBytes s + n)
    (sg_deliveredText s) (sg_interrupted s) (sg_audioResampler s) (sg_framer s) (sg_activeTurnRef s) (sg_collectingTurn s).
Definition set_interrupted (s : Streaming) : Streaming :=
  mkStreaming (sg_streamedText s) (sg_streamedAudio s) (sg_streamedASR s) (sg_ttsStarted s) (sg_turnUplinkBytes s)
    (sg_deliveredText s) true (sg_audioResampler s) (sg_framer s) (sg_activeTurnRef s) (sg_collectingTurn s).
Definition set_frames (r : pcmResampler) (f : audioFramer) (s : Streaming) : Streaming :=
  mkStreaming (sg_streamedText s) (sg_streamedAudio s) (sg_streamedASR s) (sg_ttsStarted s) (sg_turnUplinkBytes s)
    (sg_deliveredText s) (sg_interrupted s) (Some r) (Some f) (sg_activeTurnRef s) (sg_collectingTurn s).
Definition drop_tail (s : Streaming) : Streaming :=
  mkStreaming (sg_streamedText s) (sg_streamedAudio s) (sg_streamedASR s) (sg_ttsStarted s) (sg_turnUplinkBytes s)
    (sg_deliveredText s) (sg_interrupted s) (sg_audioResampler s) (option_map Audio.Reset (sg_framer s)) (sg_activeTurnRef s)
    (sg_collectingTurn s).
Definition set_turnRef (r : option Z) (s : Streaming) : Streaming :=
  mkStreaming (sg_streamedText s) (sg_streamedAudio s) (sg_streamedASR s) (sg_ttsStarted s) (sg_turnUplinkBytes s)
    (sg_deliveredText s) (sg_interrupted s) (sg_audioResampler s) (sg_framer s) r (sg_collectingTurn s).
Definition set_collecting (b : bool) (s : Streaming) : Streaming :=
  mkStreaming (sg_streamedText s) (sg_streamedAudio s) (sg_streamedASR s) (sg_ttsStarted s) (sg_turnUplinkBytes s)
    (sg_deliveredText s) (sg_interrupted s) (sg_audioResampler s) (sg_framer s) (sg_activeTurnRef s) b.

(** ** Steps *)

(** [Push] is the gateway's emitter, and tells whether the frame was written;
    [DrawSeq] is one number of the session's allocator; the last five are the
    vendor's socket. *)
Inductive volcE : Type -> Type :=
| Act {R : Type} (f : Volc -> R * Volc) : volcE R
| Push (item : Outbound) : volcE bool
| Tick_ : volcE time
| DrawSeq : volcE Z
| Dial : volcE (result error (nat * string))
| Alive (conn : nat) : volcE (option error)
| Ask_ (conn : nat) (r : Request) : volcE (option error)
| Receive (conn : nat) : volcE received
| Hangup (conn : nat) : volcE unit.

Abbreviation vprog := (program volcE).

Definition Do_ (f : Volc -> Volc) : vprog unit := call (Act (fun v => (tt, f v))).
Definition Get {A} (f : Volc -> A) : vprog A := call (Act (fun v => (f v, v))).

Definition wire (s : DuplexSession) : Transport volcE :=
  mkTransport volcE (call (Alive (du_conn s))) (fun r => call (Ask_ (du_conn s) r)) (call (Receive (du_conn s))) (call Tick_).

Definition errSessionClosed : error := Errorf "duplex session is closed: duplex connection closed".
Definition not_started : error := Errorf "volc-duplex session not started".

Definition control (f : Frame) : Outbound := mkOutbound (Some f) [] "".
Definition binary (raw : bytes) : Outbound := mkOutbound None raw "".

Definition canonicalTurnID (clientID sessionID : string) : string :=
  let t := TrimSpace clientID in if String.eqb t "" then sessionID else t.

Definition defaultVolcTurnWait : Z := 60 * Second.
Definition emptyTurnWait : Z := 3 * Second.
Definition turnWait (uplinkBytes : Z) : Z := if uplinkBytes <=? 0 then emptyTurnWait else defaultVolcTurnWait.
Definition keepaliveIdleThreshold : Z := 60 * Second.

Definition ttsCompletionStatus (outcome : string) : string :=
  if String.eqb outcome "" then TurnOutcomeOK else outcome.

(** The stateless half of [frameAudio]: a chunk through the resampler, cut into
    whole frames, and the rest too when the stream ends.  [Resampler.Write] never
    fails on a resampler that only saw [Write]. *)
Definition resample (pcm : bytes) (r : pcmResampler) : bytes * pcmResampler :=
  default ([], r) (Resampler.Write pcm r).

Definition frame_bytes : nat := Z.to_nat (FrameBytes ClientAudioFormat ClientFrameMS).

Definition cut_frames (pcm : bytes) (flush : bool) (f : audioFramer) : list bytes * audioFramer :=
  let pending := Audio.pending f ++ pcm in
  let '(payloads, rest) := whole_frames (length pending) frame_bytes pending in
  match flush, rest with
  | true, _ :: _ => (payloads ++ [rest], Audio.set_pending [] f)
  | _, _ => (payloads, Audio.set_pending rest f)
  end.

(** The resampler and the framer a chunk goes through, and what comes out: the
    payloads to number, and the reference they carry. *)
Definition feed_frames (pcm : bytes) (flush : bool) (v : Volc) : (option Z * list bytes) * Volc :=
  let s := vs_stream v in
  let r := default NewResampler (sg_audioResampler s) in
  let f := default (newAudioFramer (sg_activeTurnRef s) ClientAudioFormat ClientFrameMS) (sg_framer s) in
  let '(samples, r) := resample pcm r in
  let '(payloads, f) := cut_frames samples flush f in
  ((Audio.turnRef f, payloads), on_stream (set_frames r f) v).

Fixpoint number_payloads (ref : option Z) (payloads : list bytes) : vprog (list bytes) :=
  match payloads with
  | [] => Ret []
  | p :: payloads =>
      seq <- call DrawSeq;
      frames <- number_payloads ref payloads;
      Ret (encode_frame seq ref p :: frames)
  end.

Definition frameAudio (pcm : bytes) (flush : bool) : vprog (list bytes) :=
  cut <- call (Act (feed_frames pcm flush));
  number_payloads cut.1 cut.2.

Fixpoint push_all (items : list Outbound) : vprog unit :=
  match items with
  | [] => Ret tt
  | item :: items => _ <- call (Push item); push_all items
  end.

Section provider.
(** Whether an emitter is installed, the configured key, voice, model and audio
    format, whose session it is, and how many events the vendor sends before a
    deadline. *)
Variable emitter : bool.
Variable apiKey voice model audioFormat sessionID : string.
Variable events : nat.

Definition Open (audioSeq : option SeqAllocator) (turnRefs : option TurnRefAllocator) : result error Volc :=
  if String.eqb (TrimSpace apiKey) "" then Err (Errorf "volc-duplex provider missing speech API key")
  else Ok (mkVolc None "" zero_time 0 audioSeq turnRefs [] "" (mkUsage 0 0) false zero_time "" no_stream).

(** ** The sink of a turn *)

Definition turn_id (v : Volc) : string := canonicalTurnID (vs_activeTurnID v) sessionID.

Definition push_UserTranscript (t : string) : vprog unit :=
  if String.eqb t "" then Ret tt else
  turnID <- call (Act (fun v => (turn_id v, on_stream mark_asr v)));
  _ <- call (Push (mkOutbound (Some (ASRTranscription t turnID)) [] t));
  Ret tt.

Definition push_AssistantTextDelta (delta : string) : vprog unit :=
  if String.eqb delta "" then Ret tt else
  turnID <- call (Act (fun v => if sg_interrupted (vs_stream v) then (None, v)
                                else (Some (turn_id v), on_stream (deliver delta) v)));
  match turnID with
  | None => Ret tt
  | Some turnID =>
      now <- call Tick_;
      _ <- call (Push (control (TextDelta delta (TrimSpace turnID) (UnixMilli now))));
      Ret tt
  end.

Definition ttsStartFrame (turnID : string) : vprog Outbound :=
  ref <- call (Act (fun v => let (ref, refs) := NextRef (vs_turnRefs v) in
                             (ref, on_stream (set_turnRef ref) (set_alloc (vs_audioSeq v) refs v))));
  Ret (control (TTSStart turnID voice clientPlaybackRate "pcm" ref)).

(** Whether the chunk opens the stream, and of which turn; [None] once the
    learner took the floor. *)
Definition open_stream (v : Volc) : option (bool * string) * Volc :=
  let s := vs_stream v in
  if sg_interrupted s then (None, v)
  else (Some (negb (sg_streamedAudio s) && negb (sg_ttsStarted s), turn_id v),
        on_stream (fun s => if sg_streamedAudio s then s else mark_audio s) v).

Definition push_AssistantAudio (pcm : bytes) : vprog unit :=
  match pcm with
  | [] => Ret tt
  | _ =>
      opened <- call (Act open_stream);
      match opened with
      | None => Ret tt
      | Some (startTurn, turnID) =>
          _ <- (if startTurn : bool then (start <- ttsStartFrame turnID; push_all [start]) else Ret tt);
          frames <- frameAudio pcm false;
          push_all (map binary frames)
      end
  end.

Definition volc_sink : TurnSink volcE :=
  mkSink volcE push_AssistantTextDelta push_AssistantAudio push_UserTranscript.

(** [wireTurnSink] *)
Definition sink : option (TurnSink volcE) := if emitter then Some volc_sink else None.

(** ** Opening and closing *)

Definition defaultInstructions : string := "你是 FluentWork 注入 POC 助手。用简短中文回复。".

Definition closeDuplex (conn : nat) : vprog unit :=
  _ <- call (Ask_ conn SessionClose); call (Hangup conn).

Definition OpenDuplex (instructions : string) : vprog (result error DuplexSession) :=
  if String.eqb (TrimSpace apiKey) "" then Ret (Err (Errorf "duplex API key is required")) else
  let instructions := if String.eqb instructions "" then defaultInstructions else instructions in
  dialed <- call Dial;
  match dialed with
  | Err err => Ret (Err err)
  | Ok (conn, logID) =>
      failed <- call (Ask_ conn (SessionCreate instructions));
      match failed with
      | Some err => _ <- closeDuplex conn; Ret (Err err)
      | None =>
          created <- await_created (wire (mkDuplexSession conn "" logID)) events;
          match created with
          | Err err => _ <- closeDuplex conn; Ret (Err err)
          | Ok id => Ret (Ok (mkDuplexSession conn id logID))
          end
      end
  end.

Definition continuationBlock (turns : list ContinuationUtterance) : string :=
  let lines := omap (fun t => let text := TrimSpace (cu_Text t) in
                              if String.eqb text "" then None else Some (cu_Speaker t +:+ ": " +:+ text)) turns in
  match lines with
  | [] => ""
  | _ => String.concat (String (ascii_of_N 10) "")
           ("这是同一用户的上一场练习，以下是它的末尾几轮对话（最早在前）："%string :: lines ++
            ["开场时用一句话自然承接上面聊到的内容，让用户知道你还记得，然后继续这次练习。"%string])
  end.

Definition instructionsForSessionStart (sceneType material : string) (continuation : list ContinuationUtterance) : string :=
  let scene := TrimSpace sceneType in
  let material := TrimSpace material in
  let block := continuationBlock continuation in
  String.concat " "%string
    (["你是 FluentWork 英语口语练习助手。用简短中文或英文回应用户。"%string] ++
     (if String.eqb scene "" then [] else [("当前练习场景：" +:+ scene +:+ "。")%string]) ++
     (if String.eqb material "" then []
      else [("用户的练习素材，请围绕它展开对话：" +:+ String (ascii_of_N 10) "" +:+ material)%string]) ++
     (if String.eqb block "" then [] else [block])).

Definition bootstrapTurnID : string := "bootstrap".

Definition Start (sceneType material : string) (continuation : list ContinuationUtterance)
  : vprog (result error (list Outbound)) :=
  s <- Get vs_session;
  match s with
  | Some _ => Ret (Ok [])
  | None =>
      let instructions := instructionsForSessionStart sceneType material continuation in
      _ <- (if String.eqb instructions "" then Ret tt else Do_ (set_instructions instructions));
      instructions <- Get vs_instructions;
      opened <- OpenDuplex instructions;
      match opened with
      | Err err => Ret (Err err)
      | Ok s =>
          _ <- Do_ (fun v => set_nextSeq 1 (set_session s v));
          Ret (Ok [control (TurnEnd bootstrapTurnID "ok" "" false)])
      end
  end.

(** [resetDuplex] with [defaultResetDuplex] *)
Definition resetDuplex : vprog (option error) :=
  _ <- Do_ (set_inputMuted false);
  s <- Get vs_session;
  match s with
  | None => Ret None
  | Some _ =>
      instructions <- Get vs_instructions;
      opened <- OpenDuplex instructions;
      match opened with
      | Err err => Ret (Some err)
      | Ok s =>
          old <- call (Act (fun v => (vs_session v, set_session s v)));
          _ <- match old with Some old => closeDuplex (du_conn old) | None => Ret tt end;
          Ret None
      end
  end.

Definition Close : vprog unit :=
  s <- Get vs_session;
  match s with None => Ret tt | Some s => closeDuplex (du_conn s) end.

Definition QueueSessionInstruction (instruction : string) : vprog unit := Do_ (set_pending instruction).

(** A request on the session of the moment. *)
Definition on_session (k : DuplexSession -> vprog (option error)) : vprog (option error) :=
  s <- Get vs_session;
  match s with None => Ret (Some errSessionClosed) | Some s => k s end.

Definition deliverPendingInstruction : vprog (list DuplexEvent) :=
  taken <- call (Act (fun v => ((vs_pendingInstruction v, vs_session v), set_pending "" v)));
  match taken with
  | (instruction, Some s) =>
      if String.eqb instruction "" then Ret [] else
      r <- UpdateInstructions (wire s) events (du_sessionID s) instruction;
      Ret r.1
  | (_, None) => Ret []
  end.

(** ** The end of a turn *)

(** What was pushed of the turn. *)
Definition pushed_so_far (v : Volc) : Streaming * Volc :=
  let s := vs_stream v in (s, if sg_interrupted s then on_stream drop_tail v else v).

Definition user_row (text : string) (v : Volc) : string * Volc :=
  (vs_activeTurnID v,
   set_nextSeq (vs_nextSeq v + 1) (add_utterance (mkEndUtterance (vs_nextSeq v) "user" text false) v)).

(** The learner's words and whether they were cut off; no row when nothing was
    heard. *)
Definition ai_row (spoken : string) (interrupted : bool) (turnID : string) (v : Volc) : Volc :=
  let v' := if interrupted && String.eqb spoken "" then v
            else add_utterance (mkEndUtterance (vs_nextSeq v) "ai" spoken interrupted) v in
  set_activeTurnID turnID (set_nextSeq (vs_nextSeq v + 1) v').

Definition batch_payloads (pcm : bytes) (ref : option Z) : list bytes :=
  let pcm := default [] (resampleToPlaybackRate pcm) in
  match pcm with
  | [] => []
  | _ => (cut_frames pcm true (newAudioFramer ref ClientAudioFormat ClientFrameMS)).1
  end.

Definition turn_audio (turn : TurnResult) (streamedAudio : bool) : vprog (list bytes) :=
  if streamedAudio then frameAudio [] true
  else ref <- Get (fun v => sg_activeTurnRef (vs_stream v)); number_payloads ref (batch_payloads (AudioPCM turn) ref).

(** The parts of [turnToOutbound]: the learner's words, the text of the reply,
    and its speech; [s] is what was pushed. *)
Definition transcript_part (transcript : string) (s : Streaming) : vprog (list Outbound) :=
  if String.eqb transcript "" then Ret [] else
  turnID <- call (Act (user_row transcript));
  Ret [mkOutbound (if sg_streamedASR s then None else Some (ASRTranscription transcript turnID)) [] transcript].

Definition reply_part (reply turnID : string) (s : Streaming) : vprog (list Outbound) :=
  if String.eqb reply "" then (_ <- Do_ (fun v => set_nextSeq (vs_nextSeq v + 1) v); Ret [])
  else
    items <- (if sg_streamedText s then Ret []
              else now <- call Tick_; Ret [control (TextDelta reply (TrimSpace turnID) (UnixMilli now))]);
    _ <- Do_ (ai_row (if sg_interrupted s then TrimSpace (sg_deliveredText s) else reply) (sg_interrupted s) turnID);
    Ret items.

Definition speech_part (turn : TurnResult) (reply turnID : string) (s : Streaming) : vprog (list Outbound) :=
  let audio := Z.of_nat (length (AudioPCM turn)) in
  start <- (if negb (sg_interrupted s) && negb (sg_ttsStarted s) && (negb (String.eqb reply "") || (0 <? audio))
            then (start <- ttsStartFrame turnID; Ret [start]) else Ret []);
  frames <- (if sg_interrupted s then Ret [] else turn_audio turn (sg_streamedAudio s));
  Ret (start ++ map binary frames).

Definition turnToOutbound (turn : TurnResult) : vprog (list Outbound) :=
  let reply := TrimSpace (AssistantText turn) in
  let audio := Z.of_nat (length (AudioPCM turn)) in
  s <- call (Act pushed_so_far);
  asr <- transcript_part (TrimSpace (Transcript turn)) s;
  turnID <- Get turn_id;
  logID <- Get (fun v => match vs_session v with Some d => du_logID d | None => ""%string end);
  replied <- reply_part reply turnID s;
  _ <- Do_ (fun v => set_usage (addDownlink audio (vs_usage v)) v);
  spoken <- speech_part turn reply turnID s;
  ref <- Get (fun v => sg_activeTurnRef (vs_stream v));
  _ <- Do_ resetTurnStreamingState;
  _ <- Do_ (set_turnStarted zero_time);
  Ret (asr ++ replied ++ spoken ++
       [control (TTSEnd turnID (ttsCompletionStatus (Outcome turn)) (audioDurationMs audio) ref);
        control (TurnEnd turnID (Outcome turn) logID false)]).

(** ** Control frames *)

Definition start_clock : vprog unit :=
  started <- Get vs_turnStarted;
  if IsZero started then (now <- call Tick_; Do_ (set_turnStarted now)) else Ret tt.

Definition resetAfterTurnReadFailure : vprog unit := _ <- resetDuplex; Ret tt.

Definition non_ok (turn : TurnResult) : bool :=
  negb (String.eqb (Outcome turn) "") && negb (String.eqb (Outcome turn) TurnOutcomeOK).

Definition returned (turn : TurnResult) : vprog (result error (list Outbound)) :=
  outbound <- turnToOutbound turn; Ret (Ok outbound).

Definition turn_failed (err : option CollectError) : error :=
  match err with
  | Some (EventError raw) => Errorf ("duplex error during turn: " +:+ raw)
  | Some ErrTurnCancelled => Errorf "turn cancelled by caller"
  | Some ErrDuplexClosed => Errorf "duplex connection closed"
  | _ => Errorf "duplex turn timeout"
  end.

(** A second wait after a deadline nothing was read in. *)
Definition retry_turn (started : time) (err : error) : vprog (result error (list Outbound)) :=
  s <- Get vs_session;
  match s with
  | None => Ret (Err err)
  | Some s =>
      r <- WaitTurnResult (wire s) sink events started (20 * Second);
      let '(turn, failed) := r in
      if non_ok turn then returned turn else
      match failed with
      | None => returned turn
      | Some _ =>
          if negb (String.eqb (Transcript turn) "") || negb (String.eqb (AssistantText turn) "") then returned turn
          else Ret (Err err)
      end
  end.

(** The reply of the turn, once the vendor was told that the learner is done. *)
Definition collect_reply (preload : list DuplexEvent) : vprog (result error (list Outbound)) :=
  uplinkBytes <- call (Act (fun v => (sg_turnUplinkBytes (vs_stream v), on_stream (set_collecting true) v)));
  started <- Get vs_turnStarted;
  s <- Get vs_session;
  answer <- match s with
            | None => Ret (Err errSessionClosed)
            | Some s =>
                r <- WaitTurn (wire s) sink events started preload (turnWait uplinkBytes);
                let '(turn, err) := r in
                _ <- match err with Some ErrDuplexClosed => resetAfterTurnReadFailure | _ => Ret tt end;
                if non_ok turn then returned turn else
                match err with
                | None => returned turn
                | Some (TurnTimeout true) => retry_turn started (turn_failed err)
                | Some _ => Ret (Err (turn_failed err))
                end
            end;
  _ <- Do_ (on_stream (set_collecting false));
  Ret answer.

Definition controlSpeechStart : vprog (result error (list Outbound)) :=
  s <- Get vs_session;
  match s with
  | None => Ret (Err not_started)
  | Some _ =>
      now <- call Tick_;
      _ <- Do_ (fun v => if sg_collectingTurn (vs_stream v) then v
                         else set_turnStarted now (resetTurnStreamingState v));
      Ret (Ok [])
  end.

(** [turnID]: the id the frame carries; empty when it does not parse. *)
Definition controlSpeechEnd (turnID : string) : vprog (result error (list Outbound)) :=
  s <- Get vs_session;
  match s with
  | None => Ret (Err not_started)
  | Some _ =>
      let t := TrimSpace turnID in
      _ <- (if String.eqb t "" then Ret tt else Do_ (set_activeTurnID t));
      _ <- start_clock;
      preload <- deliverPendingInstruction;
      failed <- on_session (fun s => CommitAudio (wire s));
      match failed with
      | Some err => Ret (Err err)
      | None =>
          muted <- Get vs_inputMuted;
          failed <- (if muted : bool then Ret None else on_session (fun s => CommitInputMute (wire s)));
          match failed with
          | Some err => Ret (Err err)
          | None =>
              _ <- (if muted then Ret tt else Do_ (set_inputMuted true));
              collect_reply preload
          end
      end
  end.

Definition controlAbort : vprog (result error (list Outbound)) :=
  _ <- Do_ (fun v => resetTurnStreamingState (set_activeTurnID "" (set_turnStarted zero_time v)));
  _ <- resetDuplex;
  Ret (Ok []).

Definition controlInterrupt : vprog (result error (list Outbound)) :=
  _ <- Do_ (on_stream set_interrupted); Ret (Ok []).

Definition HandleClientControl (frameType turnID : string) : vprog (result error (list Outbound)) :=
  if String.eqb frameType "user.speech.start" then controlSpeechStart
  else if String.eqb frameType "user.speech.end" then controlSpeechEnd turnID
  else if String.eqb frameType "client.turn.abort" then controlAbort
  else if String.eqb frameType "interrupt" then controlInterrupt
  else Ret (Err (Errorf ("volc-duplex provider does not support control frame " +:+ frameType))).

(** ** Audio of the learner *)

(** [shouldProbe]; [now] is only read after a chunk was forwarded. *)
Definition shouldProbe (lastAudioAt now : time) : bool :=
  negb (IsZero lastAudioAt) && (keepaliveIdleThreshold <? Sub now lastAudioAt).

Definition forward_audio (payload : bytes) : vprog (result error (list Outbound)) :=
  let n := Z.of_nat (length payload) in
  _ <- Do_ (fun v => set_usage (addUplink n (vs_usage v)) v);
  _ <- Do_ (on_stream (add_uplink n));
  last <- Get vs_lastAudioAt;
  now <- call Tick_;
  failed <- (if shouldProbe last now then on_session (fun s => CommitAudio (wire s)) else Ret None);
  match failed with
  | Some err => Ret (Err (Errorf ("volc upstream probe failed: " +:+ error_text err)))
  | None =>
      now <- call Tick_;
      _ <- Do_ (set_lastAudioAt now);
      failed <- on_session (fun s => AppendPCMChunk (wire s) payload);
      Ret (match failed with Some err => Err err | None => Ok [] end)
  end.

Definition HandleClientAudio (payload : bytes) : vprog (result error (list Outbound)) :=
  s <- Get vs_session;
  match s, payload with
  | None, _ => Ret (Err not_started)
  | Some _, [] => Ret (Ok [])
  | Some _, _ =>
      if negb (String.eqb (TrimSpace audioFormat) "pcm-s16le") then Ret (Ok []) else
      _ <- start_clock;
      muted <- Get vs_inputMuted;
      failed <- (if muted : bool then on_session (fun s => CommitInputUnmute (wire s)) else Ret None);
      match failed with
      | Some err => Ret (Err err)
      | None =>
          _ <- (if muted then Do_ (set_inputMuted false) else Ret tt);
          forward_audio payload
      end
  end.

Definition SnapshotUtterances (v : Volc) : list EndUtteranceItem := vs_utterances v.

Definition VoiceUsage (v : Volc) : VoiceUsageItem :=
  let '(up, down) := measure (vs_usage v) in mkVoiceUsage up down (TrimSpace model).
End provider.

(** ** A turn among the frames of the read loop *)

(** What the outside answers one step. *)
Record VReply := mkVReply {
  vr_now : time;
  vr_pushed : bool;
  vr_dial : result error (nat * string);
  vr_alive : option error;
  vr_asked : option error;
  vr_recv : received;
}.

Inductive VEvent :=
| Pushed (item : Outbound)
| Got (r : received)
| Asked (conn : nat) (r : Request).

Definition perform_volc {R} (a : VReply) (e : volcE R) (v : Volc) : R * Volc * list VEvent :=
  match e in volcE R return R * Volc * list VEvent with
  | Act f => (f v, [])
  | Push item => (vr_pushed a, v, [Pushed item])
  | Tick_ => (vr_now a, v, [])
  | DrawSeq => let (n, s) := Next (Some (default NewSeqAllocator (vs_audioSeq v))) in
               (n, set_alloc s (vs_turnRefs v) v, [])
  | Dial => (vr_dial a, v, [])
  | Alive _ => (vr_alive a, v, [])
  | Ask_ conn r => (vr_asked a, v, [Asked conn r])
  | Receive _ => (vr_recv a, v, [Got (vr_recv a)])
  | Hangup _ => (tt, v, [])
  end.

(** A frame of the client while a turn is collected. *)
Inductive LoopFrame := StartFrame | InterruptFrame | AbortFrame | AudioChunk (payload : bytes) | Instruction (text : string).

(** The turn's goroutine and the read loop take their steps in any order; the
    rescue ladder draws numbers and references of its own from the allocators. *)
Inductive RoomMove :=
| TurnMoves (a : VReply)
| LoopReads (f : LoopFrame)
| LoopMoves (a : VReply)
| Elsewhere (seqs : option SeqAllocator) (refs : option TurnRefAllocator).

(** [rm_log] is what the turn's goroutine put out, [rm_asked] what both asked the
    vendor. *)
Record Room := mkRoom {
  rm_volc : Volc;
  rm_turn : vprog (result error (list Outbound));
  rm_loop : vprog (result error (list Outbound));
  rm_log : list VEvent;
  rm_asked : list (nat * Request);
}.

Definition asked_of (es : list VEvent) : list (nat * Request) :=
  omap (fun e => match e with Asked conn r => Some (conn, r) | _ => None end) es.

Section room.
Variable emitter : bool.
Variable apiKey voice audioFormat sessionID : string.
Variable events : nat.

Definition loop_frame (f : LoopFrame) : vprog (result error (list Outbound)) :=
  match f with
  | StartFrame => controlSpeechStart
  | InterruptFrame => controlInterrupt
  | AbortFrame => controlAbort apiKey events
  | AudioChunk payload => HandleClientAudio audioFormat payload
  | Instruction text => _ <- QueueSessionInstruction text; Ret (Ok [])
  end.

Definition room_step (m : Room) (c : RoomMove) : Room :=
  match c with
  | TurnMoves a =>
      match rm_turn m with
      | Do e k => let '(r, v, es) := perform_volc a e (rm_volc m) in
                  mkRoom v (k r) (rm_loop m) (rm_log m ++ es) (rm_asked m ++ asked_of es)
      | Ret _ => m
      end
  | LoopReads f =>
      match rm_loop m with
      | Ret _ => mkRoom (rm_volc m) (rm_turn m) (loop_frame f) (rm_log m) (rm_asked m)
      | Do _ _ => m
      end
  | LoopMoves a =>
      match rm_loop m with
      | Do e k => let '(r, v, es) := perform_volc a e (rm_volc m) in
                  mkRoom v (rm_turn m) (k r) (rm_log m) (rm_asked m ++ asked_of es)
      | Ret _ => m
      end
  | Elsewhere seqs refs =>
      mkRoom (set_alloc seqs refs (rm_volc m)) (rm_turn m) (rm_loop m) (rm_log m) (rm_asked m)
  end.

Definition run_room (cs : list RoomMove) (m : Room) : Room := foldl room_step m cs.

(** The learner stops speaking. *)
Definition turn_ends (turnID : string) (v : Volc) : Room :=
  mkRoom v (HandleClientControl emitter apiKey voice sessionID events "user.speech.end" turnID) (Ret (Ok [])) [] [].
End room.

(** What a turn pushed, and what the vendor answered it. *)
Definition pushed_items (es : list VEvent) : list Outbound :=
  omap (fun e => match e with Pushed item => Some item | _ => None end) es.
Definition answers (es : list VEvent) : list received :=
  omap (fun e => match e with Got r => Some r | _ => None end) es.
