(* ===== verification/VolcLaws.v ===== *)
(** * What a spoken turn guarantees

    Over every interleaving of the goroutine that collects a turn with the
    frames of the read loop and the ladder's draws: the frames of the reply, its
    speech, and the rows of the transcript. *)
From S2P Require Import Prelude GoString GoTime GoJson ApiErr Frames Audio Resampler Turn Silence RescueLog Conversation SessionService Prog Rescue Duplex Volc.

Open Scope Z_scope.
Open Scope prog_scope.

(** ** What the vendor's events say

    The reply as a fold over the events, without the gateway: events of the reply
    count once the learner was heard. *)
Record Heard := mkHeard {
  h_user : bool;
  h_response : bool;
  h_transcript : string;
  h_text : string;
  h_audio : bytes;
}.

Definition nothing_heard : Heard := mkHeard false false "" "" [].

Definition of_user (h : Heard) (transcript : string) : Heard :=
  mkHeard true (h_response h) transcript (h_text h) (h_audio h).
Definition of_reply (h : Heard) (reply : string) (audio : bytes) : Heard :=
  if h_user h then mkHeard true true (h_transcript h) reply (h_audio h ++ audio) else h.

Definition hear (h : Heard) (e : DuplexEvent) : Heard :=
  match kind (ev_Type e) with
  | ASRStarted => of_user h (first_of (ev_Transcript e) "" (h_transcript h))
  | ASRDelta => of_user h (first_of (ev_Transcript e) (ev_Delta e) (h_transcript h))
  | ASRCompleted => of_user h (first_of (ev_Transcript e) (ev_Text e) (h_transcript h))
  | AudioCommitted => of_user h (h_transcript h)
  | OutputTextDelta => of_reply h (h_text h +:+ ev_Delta e) []
  | OutputTextDone => of_reply h (first_of (ev_Text e) "" (h_text h)) []
  | OutputAudioStarted | OutputAudioDone => of_reply h (h_text h) []
  | OutputAudioDelta => of_reply h (h_text h) (default [] (audio_of_delta (ev_Delta e)))
  | ResponseDone | OtherEvent => h
  end.

(** Until the vendor answers no event. *)
Fixpoint listen (h : Heard) (rs : list received) : Heard :=
  match rs with
  | Event e :: rs => listen (hear h e) rs
  | _ => h
  end.

Definition is_event (r : received) : Prop := match r with Event _ => True | _ => False end.

Lemma listen_app h rs rs' : Forall is_event rs -> listen h (rs ++ rs') = listen (listen h rs) rs'.
Proof.
  revert h. induction rs as [|r rs IH]; intros h Hr; [done|]. apply Forall_cons in Hr as [Hr Hrs].
  destruct r; try done. cbn. by apply IH.
Qed.

Lemma listen_stop h rs r rs' : Forall is_event rs -> ~ is_event r -> listen h (rs ++ r :: rs') = listen h rs.
Proof. intros Hrs Hr. rewrite listen_app by done. by destruct r; try (by destruct Hr). Qed.

(** The heard part of what is collected. *)
Definition heard_of (c : collecting) : Heard :=
  mkHeard (seenUserProgress c) (seenResponse c) (Transcript (out c)) (text c) (AudioPCM (out c)).

(** ** The rule of the collecting loop *)
Section collect_rule.
Context {E : Type -> Type} {S Answer Out T : Type} (perform : forall R, Answer -> E R -> S -> R * S * list Out).
Context (ok : T -> S -> Prop) (upd : T -> S -> S -> list Out -> T -> Prop).
Context (wire : Transport E) (sink : option (TurnSink E)).
Local Abbreviation tracks := (Prog.tracks perform ok upd).

(** [I]: before an event; [J]: an event was read; [K]: the reply is done. *)
Context (I : T -> collecting -> Prop) (J : T -> DuplexEvent -> collecting -> Prop) (K : T -> collecting -> Prop).
Context (Q : T -> collected -> Prop).
Context (now_keeps : forall t c, I t c -> tracks t (Now wire) (fun t' _ => I t' c)).
Context (reads : forall t c, I t c -> tracks t (recv wire) (fun t' r =>
  match r with Event e => J t' e c | r => Q t' (not_received r c) end)).
Context (applies : forall t started e c, J t e c -> ev_Type e <> "error"%string ->
  tracks t (apply wire sink started e c) (fun t' r => if r.1 : bool then K t' r.2 else I t' r.2)).
Context (over : forall t c, I t c -> Q t (window_over c)).
Context (failed : forall t e c, J t e c -> ev_Type e = "error"%string ->
  Q t (concluded TurnOutcomeError c, Some (EventError (ev_Raw e)))).
Context (completes : forall t c, K t c -> Q t (concluded TurnOutcomeOK c, None)).

Lemma collect_tracks n started deadline : forall t c, I t c -> tracks t (collect wire sink n started deadline c) Q.
Proof.
  induction n as [|n IH]; intros t c HI; cbn [collect]; [by apply over|].
  apply tracks_bind. eapply tracks_mono; [|by apply now_keeps]. intros t1 now HI1. cbn beta in *.
  destruct (deadline <=? now); [by apply over|].
  apply tracks_bind. eapply tracks_mono; [|by apply reads]. intros t2 r HJ. cbn beta in *.
  destruct r as [e| | |]; try done. destruct (String.eqb_spec (ev_Type e) "error") as [He|He]; [by apply failed|].
  apply tracks_bind. eapply tracks_mono; [|by apply applies]. intros t3 [[] c'] HK; cbn in HK |- *; [by apply completes|by apply IH].
Qed.

(** A turn no event of which was read before. *)
Lemma collectTurn_tracks n started wait t : I t fresh -> tracks t (collectTurn wire sink n started [] wait) Q.
Proof.
  intros HI. cbn [collectTurn preloaded bind].
  apply tracks_bind. eapply tracks_mono; [|by apply now_keeps]. intros t1 now HI1. by apply collect_tracks.
Qed.
End collect_rule.

(** ** Frames *)

(** The frames of a reply while it is spoken. *)
Definition speech (f : Frame) : Prop :=
  match f with
  | ASRTranscription _ _ | TextDelta _ _ _ | TTSStart _ _ _ _ _ | BinaryFrame _ => True
  | _ => False
  end.

Definition is_audio (f : Frame) : bool :=
  match f with TTSStart _ _ _ _ _ | BinaryFrame _ => true | _ => false end.

Definition audio_frames (fs : list Frame) : list Frame := List.filter is_audio fs.

(** The text pushed, in one piece. *)
Fixpoint deltas_of (fs : list Frame) : string :=
  match fs with
  | [] => ""
  | TextDelta t _ _ :: fs => t +:+ deltas_of fs
  | _ :: fs => deltas_of fs
  end.

Definition carries (ref : option Z) (raw payload : bytes) : Prop := exists seq, raw = encode_frame seq ref payload.

(** The frames a recording is cut into: all of the full size but the last. *)
Definition cut_of (pcm : bytes) (ps : list bytes) : Prop :=
  exists whole rest, framed frame_bytes whole rest pcm /\ ps = whole ++ match rest with [] => [] | _ => [rest] end.

Lemma frames_of_app items items' : frames_of (items ++ items') = frames_of items ++ frames_of items'.
Proof. unfold frames_of. by rewrite map_app, concat_app. Qed.

Lemma frames_of_binary raws : Forall (fun raw => raw <> []) raws -> frames_of (map binary raws) = map BinaryFrame raws.
Proof. induction 1 as [|raw raws Hr _ IH]; [done|]. cbn. rewrite <- IH. by destruct raw. Qed.

Lemma audio_frames_app fs fs' : audio_frames (fs ++ fs') = audio_frames fs ++ audio_frames fs'.
Proof. apply List.filter_app. Qed.

Lemma audio_frames_binary raws : audio_frames (map BinaryFrame raws) = map BinaryFrame raws.
Proof. unfold audio_frames. induction raws as [|raw raws IH]; [done|]. cbn. by rewrite IH. Qed.

Lemma string_app_assoc (a b c : string) : (a +:+ b) +:+ c = a +:+ (b +:+ c).
Proof. apply to_bytes_inj. by rewrite !to_bytes_app, app_assoc. Qed.

Lemma string_app_nil (s : string) : s +:+ "" = s.
Proof. apply to_bytes_inj. rewrite to_bytes_app. apply app_nil_r. Qed.

Lemma deltas_of_app fs fs' : deltas_of (fs ++ fs') = deltas_of fs +:+ deltas_of fs'.
Proof.
  induction fs as [|f fs IH]; [done|]. destruct f; cbn; rewrite IH; by rewrite ?string_app_assoc.
Qed.

Lemma deltas_of_binary raws : deltas_of (map BinaryFrame raws) = "".
Proof. by induction raws. Qed.

Lemma carries_nonempty ref raw p : p <> [] -> carries ref raw p -> raw <> [].
Proof.
  intros Hp (seq & ->). unfold encode_frame, Encode. cbn. destruct p; [done|]. unfold PutUint32. cbn. done.
Qed.

(** Frames of a fixed size, by the loop that cuts them. *)
Lemma whole_frames_framed size : (0 < size)%nat -> forall fuel pcm, (length pcm <= fuel)%nat ->
  framed size (whole_frames fuel size pcm).1 (whole_frames fuel size pcm).2 pcm.
Proof.
  intros Hs. induction fuel as [|fuel IH]; intros pcm Hl.
  { cbn in *. split; [done|]. split; [done|]. cbn. lia. }
  cbn [whole_frames]. destruct (Nat.leb_spec size (length pcm)) as [Hle|Hlt]; [|by repeat split].
  destruct (IH (drop size pcm)) as (Hc & Hp & Hr); [rewrite length_drop; lia|].
  destruct (whole_frames fuel size (drop size pcm)) as [ps rest]. cbn [fst snd] in *.
  split; [|split; [|done]].
  - cbn [concat]. by rewrite <- app_assoc, Hc, take_drop.
  - constructor; [|done]. rewrite length_take. lia.
Qed.

Lemma frame_bytes_pos : (0 < frame_bytes)%nat.
Proof. change frame_bytes with 3200%nat. lia. Qed.

(** A stream that was cut up to [rest] goes on. *)
Lemma cut_frames_spec ps rest pcm f more : framed frame_bytes ps rest pcm -> Audio.pending f = rest ->
  exists qs rest', framed frame_bytes (ps ++ qs) rest' (pcm ++ more) /\
    cut_frames more false f = (qs, Audio.set_pending rest' f) /\
    cut_frames more true f = (qs ++ match rest' with [] => [] | _ => [rest'] end, Audio.set_pending [] f).
Proof.
  intros Hf <-. unfold cut_frames.
  pose proof (whole_frames_framed frame_bytes frame_bytes_pos (length (Audio.pending f ++ more)) (Audio.pending f ++ more)
    ltac:(done)) as Hw.
  destruct (whole_frames _ _ _) as [qs rest'] eqn:E. cbn [fst snd] in Hw. exists qs, rest'.
  split; [by eapply framed_app|]. split; [done|]. by destruct rest'; [rewrite app_nil_r|].
Qed.

Lemma framed_nil : framed frame_bytes [] [] [].
Proof. split; [done|]. split; [done|]. apply frame_bytes_pos. Qed.

Lemma resample_spec fed chunk : exists o,
  resample chunk (state_after fed) = (o, state_after (fed ++ chunk)) /\ reference (fed ++ chunk) = reference fed ++ o.
Proof. unfold resample. destruct (Write_spec fed chunk) as (o & -> & H). by exists o. Qed.

Lemma resample_batch pcm : resampleToPlaybackRate pcm = Some (reference pcm).
Proof.
  unfold resampleToPlaybackRate. destruct (Write_spec [] pcm) as (o & H & Hr).
  change (state_after []) with NewResampler in H. rewrite H. cbn [app fmap option_fmap option_map fst] in *. by rewrite Hr.
Qed.

Lemma cut_of_nonempty pcm ps : cut_of pcm ps -> Forall (fun p => p <> []) ps.
Proof.
  intros (whole & rest & (_ & Hw & _) & ->). pose proof frame_bytes_pos. apply Forall_app. split.
  - eapply Forall_impl; [exact Hw|]. intros p Hp ->. rewrite <- Hp in *. cbn in *. lia.
  - by destruct rest; repeat constructor.
Qed.

Lemma framed_nonempty ps rest pcm : framed frame_bytes ps rest pcm -> Forall (fun p => p <> []) ps.
Proof. intros (_ & Hw & _). pose proof frame_bytes_pos. eapply Forall_impl; [exact Hw|]. intros p Hp ->. rewrite <- Hp in *. cbn in *. lia. Qed.

Lemma Forall2_carries_nonempty ref raws ps : Forall2 (carries ref) raws ps -> Forall (fun p => p <> []) ps ->
  Forall (fun raw => raw <> []) raws.
Proof.
  induction 1 as [|raw p raws ps Hc _ IH]; intros Hp; [done|]. apply Forall_cons in Hp as [Hp Hps].
  constructor; [by eapply carries_nonempty|by apply IH].
Qed.

(** ** The account of a turn

    What only the turn's goroutine writes and the queued instruction, what it put out and read, and whether a
    fragment was withheld because the learner had taken the floor. *)
Record Own := mkOwn {
  o_stream : Streaming;
  o_rows : list EndUtteranceItem;
  o_nextSeq : Z;
  o_turnID : string;
  o_instruction : string;
}.

(** The streaming state without its two fields the read loop writes: the uplink
    bytes of the audio that arrived, and the mark of an interrupt. *)
Definition bare (s : Streaming) : Streaming :=
  mkStreaming (sg_streamedText s) (sg_streamedAudio s) (sg_streamedASR s) (sg_ttsStarted s) 0 (sg_deliveredText s) false
    (sg_audioResampler s) (sg_framer s) (sg_activeTurnRef s) (sg_collectingTurn s).

Definition own (v : Volc) : Own :=
  mkOwn (bare (vs_stream v)) (vs_utterances v) (vs_nextSeq v) (vs_activeTurnID v) (vs_pendingInstruction v).

Record Acc := mkAcc {
  a_own : Own;
  a_items : list Outbound;
  a_got : list received;
  a_missed : bool;
}.

(** Nothing is streamed, unless a turn is collected. *)
Definition settled (o : Own) : Prop := sg_collectingTurn (o_stream o) = true \/ o_stream o = no_stream.

Section turn.
(** [calm]: no interrupt comes; [origin]: what the turn started from. *)
Variable emitter : bool.
Variable apiKey voice audioFormat sessionID : string.
Variable events : nat.
Variable calm : bool.
Variable origin : Own.

Local Abbreviation tracks0 := (Prog.tracks (fun R => @perform_volc R)).

Definition good (t : Acc) (v : Volc) : Prop :=
  settled (a_own t) /\
  (a_missed t = true -> sg_collectingTurn (o_stream (a_own t)) = true /\ sg_interrupted (vs_stream v) = true) /\
  (calm = true -> sg_interrupted (vs_stream v) = false).

Definition ok (t : Acc) (v : Volc) : Prop := own v = a_own t /\ good t v.

Definition upd (t : Acc) (v v' : Volc) (es : list VEvent) (t' : Acc) : Prop :=
  ok t' v' /\ a_items t' = a_items t ++ pushed_items es /\ a_got t' = a_got t ++ answers es.

Local Abbreviation tracks := (tracks0 ok upd).

(** ** What the others do *)

Definition leaves (v v' : Volc) : Prop :=
  (settled (own v) -> own v' = own v) /\
  (sg_collectingTurn (vs_stream v) = true -> sg_interrupted (vs_stream v) = true -> sg_interrupted (vs_stream v') = true) /\
  (calm = true -> sg_interrupted (vs_stream v) = false -> sg_interrupted (vs_stream v') = false).

Lemma leaves_ok v v' t : leaves v v' -> ok t v -> ok t v'.
Proof.
  intros (Ho & Hi & Hc) (E & Hs & Hm & Hq). split; [rewrite Ho; [done|by rewrite E]|]. split; [done|]. split.
  - intros H. destruct (Hm H) as [Hk Hint]. split; [done|]. apply Hi; [|done]. by rewrite <- E in Hk.
  - intros H. by apply Hc, Hq.
Qed.

Definition polite {A} (p : vprog A) : Prop :=
  tracks0 (fun _ _ => True) (fun (_ : unit) v v' _ _ => leaves v v') tt p (fun _ _ => True).

Lemma polite_bind {A B} (p : vprog A) (k : A -> vprog B) : polite p -> (forall a, polite (k a)) -> polite (bind p k).
Proof. intros Hp Hk. apply tracks_bind. eapply tracks_mono; [|exact Hp]. intros [] a _. apply Hk. Qed.

Lemma polite_call {R} (e : volcE R) : (forall a v, leaves v (perform_volc a e v).1.2) -> polite (call e).
Proof. intros H. apply tracks_call. intros a v _. by exists tt. Qed.

Lemma polite_ret {A} (a : A) : polite (Ret a).
Proof. done. Qed.

Lemma leaves_refl v : leaves v v.
Proof. by repeat split. Qed.

(** A step that only changes what the turn does not own. *)
Lemma leaves_same v v' : own v' = own v -> sg_interrupted (vs_stream v') = sg_interrupted (vs_stream v) -> leaves v v'.
Proof. intros E Ei. by repeat split; intros; rewrite ?Ei. Qed.

Lemma leaves_start now v : leaves v (if sg_collectingTurn (vs_stream v) then v
                                     else set_turnStarted now (resetTurnStreamingState v)).
Proof.
  destruct (sg_collectingTurn (vs_stream v)) eqn:E; [apply leaves_refl|].
  split; [|split; [by rewrite E|done]].
  intros [Hs|Hs]; cbn in Hs; [by rewrite E in Hs|]. unfold own. by rewrite Hs.
Qed.

Local Ltac unmoved :=
  repeat (first [apply polite_ret | apply polite_bind; [|intro] | apply polite_call; intros ? ?]).

Lemma polite_get {A} (f : Volc -> A) : polite (Get f).
Proof. apply polite_call. intros a v. apply leaves_refl. Qed.

Lemma polite_do f : (forall v, leaves v (f v)) -> polite (Do_ f).
Proof. intros H. apply polite_call. intros a v. apply H. Qed.

Lemma polite_same f : (forall v, own (f v) = own v /\ sg_interrupted (vs_stream (f v)) = sg_interrupted (vs_stream v)) ->
  polite (Do_ f).
Proof. intros H. apply polite_do. intros v. by apply leaves_same; apply H. Qed.

(** An effect that leaves the provider session alone. *)
Definition outside {R} (e : volcE R) : Prop := forall a v, (perform_volc a e v).1.2 = v.

Lemma polite_outside {R} (e : volcE R) : outside e -> polite (call e).
Proof. intros H. apply polite_call. intros a v. rewrite H. apply leaves_refl. Qed.

Lemma polite_on_session k : (forall s, polite (k s)) -> polite (on_session k).
Proof. intros H. apply polite_bind; [apply polite_get|]. intros [s|]; [apply H|done]. Qed.

Lemma polite_audio payload : polite (HandleClientAudio audioFormat payload).
Proof.
  unfold HandleClientAudio, start_clock, forward_audio, AppendPCMChunk, CommitAudio, CommitInputUnmute.
  apply polite_bind; [apply polite_get|]. intros [s|]; [|done]. destruct payload as [|b payload]; [done|].
  destruct (negb _); [done|]. apply polite_bind.
  { apply polite_bind; [apply polite_get|]. intros t. destruct (IsZero t); [|done].
    apply polite_bind; [by apply polite_outside|]. intros now. by apply polite_same. }
  intros []. apply polite_bind; [apply polite_get|]. intros muted. apply polite_bind.
  { destruct muted; [|done]. apply polite_on_session. intros s'. by apply polite_outside. }
  intros [err|]; [done|]. apply polite_bind; [destruct muted; [by apply polite_same|done]|]. intros [].
  apply polite_bind; [by apply polite_same|]. intros []. apply polite_bind; [by apply polite_same|]. intros [].
  apply polite_bind; [apply polite_get|]. intros last. apply polite_bind; [by apply polite_outside|]. intros now.
  apply polite_bind.
  { destruct (shouldProbe _ _); [|done]. apply polite_on_session. intros s'. by apply polite_outside. }
  intros [err|]; [done|]. apply polite_bind; [by apply polite_outside|]. intros now'.
  apply polite_bind; [by apply polite_same|]. intros []. apply polite_bind.
  { apply polite_on_session. intros s'. apply polite_bind; [by apply polite_outside|]. intros [err|]; [done|].
    by apply polite_outside. }
  by intros [].
Qed.

(** The frames a turn bears: no abort, no instruction; no interrupt, if it is to be
    calm. *)
Definition bearable (f : LoopFrame) : Prop :=
  match f with AbortFrame | Instruction _ => False | InterruptFrame => calm = false | _ => True end.

Lemma polite_frame f : bearable f -> polite (loop_frame apiKey audioFormat events f).
Proof.
  destruct f as [| | |payload|text]; intros Hb; cbn [loop_frame].
  - apply polite_bind; [apply polite_get|]. intros [s|]; [|done].
    apply polite_bind; [by apply polite_outside|]. intros now. apply polite_bind; [|done].
    apply polite_do. intros v. apply leaves_start.
  - apply polite_bind; [|done]. apply polite_do. intros v. split; [done|]. split; [done|]. by rewrite Hb.
  - done.
  - apply polite_audio.
  - done.
Qed.

(** ** What the turn does *)

(** A step of the turn on its own fields: the rest of the turn goes on from the
    account of what it wrote. *)
Lemma turn_act {R A} (f : Volc -> R * Volc) (k : R -> vprog A) o items got missed post :
  (forall v, o = own v -> good (mkAcc o items got missed) v -> exists missed',
     good (mkAcc (own (f v).2) items got missed') (f v).2 /\
     tracks (mkAcc (own (f v).2) items got missed') (k (f v).1) post) ->
  tracks (mkAcc o items got missed) (bind (call (Act f)) k) post.
Proof.
  intros H. apply tracks_bind, tracks_call. intros a v [Ho Hg]. cbn in Ho.
  destruct (H v (eq_sym Ho) Hg) as (m & Hg' & Ht). eexists. split; [|exact Ht].
  split; [by split|]. cbn. by rewrite !app_nil_r.
Qed.

Lemma turn_get {X A} (f : Volc -> X) (k : X -> vprog A) t post :
  (forall v, own v = a_own t -> good t v -> tracks t (k (f v)) post) -> tracks t (bind (Get f) k) post.
Proof.
  intros H. apply tracks_bind, tracks_call. intros a v [Ho Hg]. exists t. split; [|by apply H].
  split; [by split|]. cbn. by rewrite !app_nil_r.
Qed.

(** A step outside the account. *)
Lemma turn_outside {R A} (e : volcE R) (k : R -> vprog A) t post :
  (forall a v, own (perform_volc a e v).1.2 = own v /\
     vs_stream (perform_volc a e v).1.2 = vs_stream v /\
     pushed_items (perform_volc a e v).2 = [] /\ answers (perform_volc a e v).2 = []) ->
  (forall r, tracks t (k r) post) -> tracks t (bind (call e) k) post.
Proof.
  intros He H. apply tracks_bind, tracks_call. intros a v [Ho Hg]. destruct (He a v) as (E1 & E2 & E3 & E4).
  exists t. split; [|apply H]. split; [|by rewrite E3, E4, !app_nil_r].
  split; [by rewrite E1|]. destruct Hg as (H1 & H2 & H3). split; [done|]. by rewrite E2.
Qed.

Lemma turn_do f {A} (k : unit -> vprog A) t post :
  (forall v, own (f v) = own v /\ sg_interrupted (vs_stream (f v)) = sg_interrupted (vs_stream v)) ->
  tracks t (k tt) post -> tracks t (bind (Do_ f) k) post.
Proof.
  intros Hf H. apply tracks_bind, tracks_call. intros a v [Ho Hg]. destruct (Hf v) as [E1 E2].
  exists t. split; [|exact H]. split; [|cbn; by rewrite !app_nil_r].
  split; [change (own (f v) = a_own t); by rewrite E1|]. destruct Hg as (H1 & H2 & H3). split; [done|].
  change (((a_missed t = true -> sg_collectingTurn (o_stream (a_own t)) = true /\ sg_interrupted (vs_stream (f v)) = true) /\
    (calm = true -> sg_interrupted (vs_stream (f v)) = false))). by rewrite E2.
Qed.

Lemma turn_push {A} item (k : bool -> vprog A) t post :
  (forall b, tracks (mkAcc (a_own t) (a_items t ++ [item]) (a_got t) (a_missed t)) (k b) post) ->
  tracks t (bind (call (Push item)) k) post.
Proof.
  intros H. apply tracks_bind, tracks_call. intros a v [Ho Hg]. eexists. split; [|apply H].
  split; [by split|]. cbn. by rewrite app_nil_r.
Qed.

Lemma push_all_tracks raws t (post : Acc -> unit -> Prop) :
  post (mkAcc (a_own t) (a_items t ++ raws) (a_got t) (a_missed t)) tt -> tracks t (push_all raws) post.
Proof.
  revert t. induction raws as [|raw raws IH]; intros t Hp; cbn [push_all].
  { rewrite app_nil_r in Hp. by destruct t. }
  apply turn_push. intros b. apply IH. cbn. by rewrite <- app_assoc.
Qed.

(** Each payload gets a number, whoever else draws. *)
Lemma number_tracks ref ps t : tracks t (number_payloads ref ps) (fun t' raws => t' = t /\ Forall2 (carries ref) raws ps).
Proof.
  induction ps as [|p ps IH]; cbn [number_payloads]; [by split|].
  apply turn_outside; [by intros a v; cbn; destruct (vs_audioSeq v)|]. intros seq.
  apply tracks_bind. eapply tracks_mono; [|exact IH]. intros t' raws [-> Hr]. split; [done|].
  constructor; [by exists seq|done].
Qed.

(** ** The stream of a turn *)

Definition on_own (f : Streaming -> Streaming) (o : Own) : Own :=
  mkOwn (f (o_stream o)) (o_rows o) (o_nextSeq o) (o_turnID o) (o_instruction o).

Definition own_turn (o : Own) : string := canonicalTurnID (o_turnID o) sessionID.

(** The framer in the middle of a recording. *)
Definition midway (ref : option Z) (rest : bytes) : audioFramer := mkFramer ref ClientAudioFormat ClientFrameMS rest.

Definition unopened (s : Streaming) : Prop :=
  sg_streamedAudio s = false /\ sg_ttsStarted s = false /\ sg_activeTurnRef s = None /\ sg_framer s = None /\
  sg_audioResampler s = None.

(** The resampler and the framer after the speech [fed], which was cut up to
    [rest]. *)
Definition midstream (s : Streaming) (fed rest : bytes) : Prop :=
  default NewResampler (sg_audioResampler s) = state_after fed /\
  default (newAudioFramer (sg_activeTurnRef s) ClientAudioFormat ClientFrameMS) (sg_framer s) =
    midway (sg_activeTurnRef s) rest.

(** The audio frames of a stream that carry the payloads [ps]. *)
Definition stream_of (turnID : string) (ref : option Z) (ps : list bytes) (fs : list Frame) : Prop :=
  exists raws, fs = TTSStart turnID voice clientPlaybackRate "pcm" ref :: map BinaryFrame raws /\
    Forall2 (carries ref) raws ps.

Definition stream_at (t : Acc) (fed : bytes) : Prop :=
  let s := o_stream (a_own t) in
  let fs := audio_frames (frames_of (a_items t)) in
  (unopened s /\ fed = [] /\ fs = []) \/
  (fed <> [] /\ sg_streamedAudio s = true /\ sg_ttsStarted s = true /\ exists ps rest,
     midstream s fed rest /\ framed frame_bytes ps rest (reference fed) /\
     stream_of (own_turn (a_own t)) (sg_activeTurnRef s) ps fs).

(** A turn that is collected has added no rows. *)
Definition underway (o : Own) : Prop :=
  sg_collectingTurn (o_stream o) = true /\ o_rows o = o_rows origin /\ o_nextSeq o = o_nextSeq origin /\
  o_turnID o = o_turnID origin.

(** The reply so far, of the speech [pcm]: without an emitter nothing is
    pushed; what was withheld is the end of it. *)
Definition streaming (t : Acc) (pcm : bytes) : Prop :=
  underway (a_own t) /\
  Forall speech (frames_of (a_items t)) /\
  sg_deliveredText (o_stream (a_own t)) = deltas_of (frames_of (a_items t)) /\
  (emitter = false -> a_items t = [] /\ unopened (o_stream (a_own t))) /\
  exists fed, fed `prefix_of` pcm /\ (emitter = true -> a_missed t = false -> fed = pcm) /\ stream_at t fed.

Lemma own_fields v o : o = own v ->
  o_stream o = bare (vs_stream v) /\ o_turnID o = vs_activeTurnID v /\ o_rows o = vs_utterances v /\ o_nextSeq o = vs_nextSeq v.
Proof. by intros ->. Qed.

(** A chunk through the resampler and the framer. *)
Lemma frame_tracks t chunk (flush : bool) fed ps rest :
  sg_collectingTurn (o_stream (a_own t)) = true -> midstream (o_stream (a_own t)) fed rest ->
  framed frame_bytes ps rest (reference fed) ->
  tracks t (frameAudio chunk flush) (fun t' raws =>
    exists qs rest', framed frame_bytes (ps ++ qs) rest' (reference (fed ++ chunk)) /\
      Forall2 (carries (sg_activeTurnRef (o_stream (a_own t)))) raws
        (qs ++ if flush then match rest' with [] => [] | _ => [rest'] end else []) /\
      t' = mkAcc (on_own (set_frames (state_after (fed ++ chunk))
                    (midway (sg_activeTurnRef (o_stream (a_own t))) (if flush then [] else rest'))) (a_own t))
             (a_items t) (a_got t) (a_missed t)).
Proof.
  destruct t as [o items got missed]. cbn [a_own a_items a_got a_missed]. intros Hc [Hr Hf] Hps.
  unfold frameAudio. apply turn_act. intros v -> Hg. exists missed.
  destruct (resample_spec fed chunk) as (samples & Es & Hs).
  destruct (cut_frames_spec ps rest (reference fed) (midway (sg_activeTurnRef (vs_stream v)) rest) samples)
    as (qs & rest' & Hq & E1 & E2); [done|done|].
  assert (feed_frames chunk flush v =
    ((sg_activeTurnRef (vs_stream v), qs ++ if flush then match rest' with [] => [] | _ => [rest'] end else []),
     on_stream (set_frames (state_after (fed ++ chunk))
       (midway (sg_activeTurnRef (vs_stream v)) (if flush then [] else rest'))) v)) as E.
  { unfold feed_frames. cbn in Hr, Hf |- *. rewrite Hr, Es, Hf. destruct flush; rewrite ?E1, ?E2; [done|].
    by rewrite app_nil_r. }
  rewrite E. cbn [fst snd]. split.
  { destruct Hg as (_ & Hm & Hq'). split; [by left|]. by split. }
  eapply tracks_mono; [|apply number_tracks]. intros t' raws [-> Hraws]. exists qs, rest'.
  rewrite Hs. split; [done|]. split; [done|]. done.
Qed.

Definition streams (t : Acc) (pcm : bytes) (t' : Acc) (_ : unit) : Prop := streaming t' pcm /\ a_got t' = a_got t.

Lemma good_keep t v f : good t v -> sg_collectingTurn (o_stream (a_own t)) = true ->
  sg_interrupted (vs_stream (f v)) = sg_interrupted (vs_stream v) ->
  sg_collectingTurn (vs_stream (f v)) = true ->
  good (mkAcc (own (f v)) (a_items t) (a_got t) (a_missed t)) (f v).
Proof.
  intros (_ & Hm & Hq) Hc Ei Ec. split; [by left|]. cbn. rewrite Ei, Ec. split; [|done].
  intros H. split; [done|]. by apply Hm.
Qed.

Lemma push_asr_streams t pcm s : streaming t pcm -> emitter = true ->
  tracks t (push_UserTranscript sessionID s) (streams t pcm).
Proof.
  destruct t as [o items got missed]. intros Hst0 He.
  pose proof (proj1 (proj1 Hst0)) as Hc. pose proof Hst0 as (Hu & Hs & Hd & _ & fed & Hp & Hm & Hst).
  unfold push_UserTranscript. destruct (String.eqb s ""); [by split|].
  cbn [a_own a_items a_got a_missed] in *. apply turn_act. intros v -> Hg. exists missed. split.
  { by apply (good_keep (mkAcc (own v) items got missed) v (on_stream mark_asr)). }
  apply turn_push. intros b. split; [|done]. cbn [a_own a_items a_got a_missed].
  assert (forall turn, audio_frames (frames_of [mkOutbound (Some (ASRTranscription s turn)) [] s]) = []) as Ea by done.
  split; [done|]. unfold streaming, stream_at. cbn [a_own a_items a_missed]. rewrite !frames_of_app, audio_frames_app, Ea, app_nil_r.
  split; [apply Forall_app; split; [done|by repeat constructor]|].
  split; [rewrite deltas_of_app; cbn [deltas_of frames_of map concat app]; rewrite string_app_nil; exact Hd|].
  split; [by rewrite He|]. exists fed. done.
Qed.

Lemma push_text_streams t pcm delta : streaming t pcm -> emitter = true ->
  tracks t (push_AssistantTextDelta sessionID delta) (streams t pcm).
Proof.
  destruct t as [o items got missed]. intros Hst0 He.
  pose proof (proj1 (proj1 Hst0)) as Hc. pose proof Hst0 as (Hu & Hs & Hd & _ & fed & Hp & Hm & Hst).
  unfold push_AssistantTextDelta. destruct (String.eqb delta ""); [by split|].
  cbn [a_own a_items a_got a_missed] in *. apply turn_act. intros v -> Hg. exists missed.
  destruct (sg_interrupted (vs_stream v)) eqn:Ei; cbn [fst snd].
  { split; [done|]. split; [|done]. split; [done|]. split; [done|]. split; [done|]. split; [by rewrite He|]. by exists fed. }
  split; [by apply (good_keep (mkAcc (own v) items got missed) v (on_stream (deliver delta)))|].
  apply turn_outside; [done|]. intros now. apply turn_push. intros b. split; [|done].
  assert (forall turn ts, audio_frames (frames_of [control (TextDelta delta turn ts)]) = []) as Ea by done.
  split; [done|]. unfold streaming, stream_at. cbn [a_own a_items a_missed]. rewrite !frames_of_app, audio_frames_app, Ea, app_nil_r.
  split; [apply Forall_app; split; [done|by repeat constructor]|].
  split.
  { rewrite deltas_of_app. change (deltas_of (frames_of [control _])) with (delta +:+ ""). rewrite string_app_nil, <- Hd. done. }
  split; [by rewrite He|]. exists fed. done.
Qed.

(** The chunk a stream takes. *)
Lemma frames_streams o items got missed chunk fed ps rest :
  emitter = true -> chunk <> [] ->
  underway o -> Forall speech (frames_of items) ->
  sg_deliveredText (o_stream o) = deltas_of (frames_of items) ->
  sg_streamedAudio (o_stream o) = true -> sg_ttsStarted (o_stream o) = true ->
  midstream (o_stream o) fed rest -> framed frame_bytes ps rest (reference fed) ->
  stream_of (own_turn o) (sg_activeTurnRef (o_stream o)) ps (audio_frames (frames_of items)) ->
  tracks (mkAcc o items got missed) (frames <- frameAudio chunk false; push_all (map binary frames))
    (streams (mkAcc o items got missed) (fed ++ chunk)).
Proof.
  intros He Hne Hc Hs Hd Ha Ht Hmid Hfr (raws & Hfs & Hraws).
  apply tracks_bind. eapply tracks_mono; [|by apply (frame_tracks (mkAcc o items got missed) chunk false fed ps rest); [apply Hc|..]].
  intros t' new (qs & rest' & Hq & Hnew & ->). cbn [a_own a_items a_got a_missed] in *. rewrite app_nil_r in Hnew.
  apply push_all_tracks. split; [|done]. cbn [a_own a_items a_got a_missed].
  assert (frames_of (map binary new) = map BinaryFrame new) as En.
  { apply frames_of_binary. eapply Forall2_carries_nonempty; [exact Hnew|].
    apply framed_nonempty in Hq. by apply Forall_app in Hq as [_ Hq]. }
  split; [done|]. unfold streaming, stream_at. cbn [a_own a_items a_missed].
  rewrite !frames_of_app, En, audio_frames_app, audio_frames_binary.
  split; [apply Forall_app; split; [done|by apply Forall_map, Forall_true]|].
  split; [rewrite deltas_of_app, deltas_of_binary, string_app_nil; exact Hd|].
  split; [by rewrite He|]. exists (fed ++ chunk). split; [done|]. split; [done|]. right.
  split; [intros [_ ?]%app_eq_nil; done|].
  split; [done|]. split; [done|]. exists (ps ++ qs), rest'. split; [done|]. split; [done|].
  exists (raws ++ new). rewrite Hfs, map_app. split; [done|]. by apply Forall2_app.
Qed.

Lemma push_audio_streams t pcm chunk : streaming t pcm -> emitter = true ->
  tracks t (push_AssistantAudio voice sessionID chunk) (streams t (pcm ++ chunk)).
Proof.
  destruct t as [o items got missed]. intros Hst0 He. unfold push_AssistantAudio.
  destruct chunk as [|b chunk]; [by rewrite app_nil_r|]. set (pcm' := b :: chunk).
  pose proof (proj1 (proj1 Hst0)) as Hc. destruct Hst0 as (Hu & Hs & Hd & _ & fed & Hp & Hm & Hst). cbn [a_own a_items a_got a_missed] in *.
  apply turn_act. intros v -> Hg. unfold open_stream.
  destruct (sg_interrupted (vs_stream v)) eqn:Ei; cbn [fst snd].
  { exists true. split; [split; [by left|]; split; [by split|by apply Hg]|]. split; [|done].
    split; [done|]. split; [done|]. split; [done|]. split; [by rewrite He|]. exists fed.
    split; [by apply prefix_app_r|]. done. }
  exists missed. assert (missed = false) as Em.
  { destruct missed; [|done]. destruct Hg as (_ & Hmi & _). destruct (Hmi eq_refl) as [_ Hi]. by rewrite Ei in Hi. }
  rewrite (Hm He Em) in *.
  destruct Hst as [((Ha & Ht & Href & Hf & Hr) & -> & Hfs)|(_ & Ha & Ht & ps & rest & Hmid & Hfr & Hof)].
  - cbn [a_own a_items] in Hfs. cbn in Ha, Ht, Href, Hf, Hr. rewrite Ha, Ht. cbn [negb andb].
    split; [by apply (good_keep (mkAcc (own v) items got missed) v (on_stream _)); [| |cbn; rewrite Ha..]|].
    unfold ttsStartFrame. cbn [bind call]. apply turn_act. intros v1 Ev1 Hg1. exists missed.
    destruct (NextRef (vs_turnRefs v1)) as [ref refs]. cbn [fst snd].
    apply own_fields in Ev1 as (Es1 & Et1 & Eu1 & En1). cbn in Es1, Et1, Eu1, En1. rewrite Ha in Es1.
    assert (own (on_stream (set_turnRef ref) (set_alloc (vs_audioSeq v1) refs v1)) =
      mkOwn (set_turnRef ref (bare (mark_audio (vs_stream v)))) (vs_utterances v1) (vs_nextSeq v1) (vs_activeTurnID v1)
        (vs_pendingInstruction v1)) as Eo.
    { unfold own. cbn. rewrite Es1. done. }
    rewrite Eo. split.
    { destruct Hg1 as (_ & _ & Hq). split; [by left|]. split; [by rewrite Em|exact Hq]. }
    cbn [push_all bind]. apply turn_push. intros b1. cbn [bind a_own a_items a_got a_missed].
    eapply tracks_mono; [|apply (frames_streams _ _ _ _ pcm' [] [] []); try done].
    + intros t' [] [H1 H2]. by split.
    + destruct Hu as (H1 & H2 & H3 & H4). split; [done|]. cbn in H2, H3, H4 |- *. by rewrite <- Eu1, <- En1, <- Et1.
    + rewrite frames_of_app. apply Forall_app. split; [done|by repeat constructor].
    + rewrite frames_of_app, deltas_of_app. cbn [deltas_of frames_of map concat app]. rewrite string_app_nil.
      cbn. exact Hd.
    + split; [cbn; by rewrite Hr|]. cbn. by rewrite Hf.
    + apply framed_nil.
    + rewrite frames_of_app, audio_frames_app, Hfs. exists []. split; [|done]. cbn. unfold own_turn, turn_id. cbn. by rewrite Et1.
  - cbn in Ha, Ht. rewrite Ha, Ht. cbn [negb andb].
    split; [by apply (good_keep (mkAcc (own v) items got missed) v (on_stream _)); [| |cbn; rewrite Ha..]|].
    cbn [bind push_all]. assert (own (on_stream (fun s => if sg_streamedAudio s then s else mark_audio s) v) = own v) as Eo.
    { unfold own. cbn. by rewrite Ha. }
    rewrite Eo. eapply tracks_mono; [|by apply (frames_streams _ _ _ _ pcm' pcm ps rest)].
    intros t' [] [H1 H2]. by split.
Qed.

(** ** Collecting the reply *)

Local Abbreviation the_sink := (sink emitter voice sessionID).

(** After an event: what it says was heard, and streamed. *)
Definition follows (t : Acc) (e : DuplexEvent) (c : collecting) (t' : Acc) (r : bool * collecting) : Prop :=
  a_got t' = a_got t /\ heard_of r.2 = hear (heard_of c) e /\ streaming t' (AudioPCM (out r.2)) /\
  (r.1 = true -> seenUserProgress r.2 = true /\ seenResponse r.2 = true).

Lemma forward_tracks t c : streaming t (AudioPCM (out c)) ->
  tracks t (forwardASR the_sink c) (fun t' c' => streaming t' (AudioPCM (out c)) /\ a_got t' = a_got t /\ heard_of c' = heard_of c).
Proof.
  intros Ht. unfold forwardASR, sink. destruct emitter eqn:He; [|by split].
  destruct (_ || _); [by split|]. apply tracks_bind. eapply tracks_mono; [|by apply push_asr_streams].
  intros t' [] [H1 H2]. by split.
Qed.

Lemma asr_tracks t e c tr : streaming t (AudioPCM (out c)) -> hear (heard_of c) e = of_user (heard_of c) tr ->
  forall c1, heard_of c1 = of_user (heard_of c) (Transcript (out c1)) -> Transcript (out c1) = tr ->
  tracks t (c2 <- forwardASR the_sink c1; Ret (false, c2)) (follows t e c).
Proof.
  intros Ht He c1 H1 E1. assert (AudioPCM (out c1) = AudioPCM (out c)) as Ea by (by injection H1).
  apply tracks_bind. eapply tracks_mono; [|apply forward_tracks; by rewrite Ea].
  intros t' c2 (Hs & Hg & Hh). split; [done|]. cbn [fst snd].
  assert (AudioPCM (out c2) = AudioPCM (out c1)) as Ea2 by (by injection Hh).
  split; [by rewrite Hh, H1, He, E1|]. split; [by rewrite Ea2|done].
Qed.

(** An event that pushes nothing. *)
Lemma silent_tracks t e c c1 over : streaming t (AudioPCM (out c)) -> heard_of c1 = hear (heard_of c) e ->
  AudioPCM (out c1) = AudioPCM (out c) ->
  (over = true -> seenUserProgress c1 = true /\ seenResponse c1 = true) ->
  tracks t (Ret (over, c1)) (follows t e c).
Proof. intros Ht Hh Ha Ho. split; [done|]. cbn [fst snd]. split; [done|]. split; [by rewrite Ha|exact Ho]. Qed.

Lemma tick_tracks {A} (k : time -> vprog A) t post :
  (forall now, tracks t (k now) post) -> tracks t (bind (call Tick_) k) post.
Proof. intros H. by apply turn_outside. Qed.

Local Ltac said Eh Eu := rewrite Eh; unfold heard_of; cbn; by rewrite ?Eu.

Lemma apply_tracks s t started e c : streaming t (AudioPCM (out c)) ->
  tracks t (apply (wire s) the_sink started e c) (follows t e c).
Proof.
  intros Ht. unfold apply. destruct (kind (ev_Type e)) eqn:Ek; unfold since_ms; cbn [Now wire].
  - apply tracks_bind, tick_tracks. intros now. eapply asr_tracks; [exact Ht|unfold hear; by rewrite Ek| |]; done.
  - eapply asr_tracks; [exact Ht|unfold hear; by rewrite Ek| |]; done.
  - apply tracks_bind, tick_tracks. intros now. eapply asr_tracks; [exact Ht|unfold hear; by rewrite Ek| |]; done.
  - apply silent_tracks; [done|unfold hear; by rewrite Ek|done|done].
  - assert (hear (heard_of c) e = of_reply (heard_of c) (text c +:+ ev_Delta e) []) as Eh by (unfold hear; by rewrite Ek).
    unfold of_reply in Eh. cbn [seenUserProgress note_event h_user heard_of] in *.
    destruct (seenUserProgress c) eqn:Eu; cbn [negb]; [|by apply silent_tracks].
    rewrite app_nil_r in Eh. destruct (String.eqb_spec (ev_Delta e) "") as [E0|E0].
    { apply silent_tracks; [done| |done|done]. rewrite E0, string_app_nil in Eh. said Eh Eu. }
    unfold sink. destruct emitter eqn:He.
    + apply tracks_bind. eapply tracks_mono; [|by apply (push_text_streams _ (AudioPCM (out c)))].
      intros t' [] [H1 H2]. split; [done|]. split; [said Eh Eu|]. by split.
    + apply silent_tracks; [done|said Eh Eu|done|done].
  - assert (hear (heard_of c) e = of_reply (heard_of c) (first_of (ev_Text e) "" (text c)) []) as Eh by (unfold hear; by rewrite Ek).
    unfold of_reply in Eh. cbn [seenUserProgress note_event h_user heard_of] in *.
    destruct (seenUserProgress c) eqn:Eu; cbn [negb]; [|by apply silent_tracks].
    rewrite app_nil_r in Eh. unfold first_of in Eh. cbn [String.eqb negb] in Eh.
    destruct (String.eqb (ev_Text e) ""); cbn [negb] in Eh; apply silent_tracks; try done; said Eh Eu.
  - assert (hear (heard_of c) e = of_reply (heard_of c) (text c) []) as Eh by (unfold hear; by rewrite Ek).
    unfold of_reply in Eh. cbn [seenUserProgress note_event h_user heard_of] in *. rewrite app_nil_r in Eh.
    destruct (seenUserProgress c) eqn:Eu; apply silent_tracks; try done; said Eh Eu.
  - assert (hear (heard_of c) e = of_reply (heard_of c) (text c) (default [] (audio_of_delta (ev_Delta e)))) as Eh
      by (unfold hear; by rewrite Ek).
    unfold of_reply in Eh. cbn [seenUserProgress note_event h_user heard_of] in *.
    destruct (seenUserProgress c) eqn:Eu; cbn [negb]; [|by apply silent_tracks].
    destruct (audio_of_delta (ev_Delta e)) as [chunk|]; cbn [default] in Eh.
    2:{ rewrite app_nil_r in Eh. apply silent_tracks; try done. said Eh Eu. }
    unfold sink. destruct emitter eqn:He.
    + apply tracks_bind. eapply tracks_mono; [|by apply (push_audio_streams _ (AudioPCM (out c)))].
      intros t' [] [H1 H2]. split; [done|]. split; [said Eh Eu|]. by split.
    + split; [done|]. cbn [fst snd]. split; [said Eh Eu|]. split; [|done].
      destruct Ht as (H1 & H2 & H3 & H4 & fed & H5 & H6 & H7). split; [done|]. split; [done|]. split; [done|].
      split; [done|]. exists fed. split; [by apply prefix_app_r|]. by rewrite He.
  - assert (hear (heard_of c) e = of_reply (heard_of c) (text c) []) as Eh by (unfold hear; by rewrite Ek).
    unfold of_reply in Eh. cbn [seenUserProgress note_event h_user heard_of] in *. rewrite app_nil_r in Eh.
    destruct (seenUserProgress c) eqn:Eu; apply silent_tracks; try done; said Eh Eu.
  - apply silent_tracks; [done|unfold hear; by rewrite Ek|done|]. intros [? ?]%andb_true_iff. done.
  - apply silent_tracks; [done|unfold hear; by rewrite Ek|done|done].
Qed.

(** What is collected is what the vendor said. *)
Definition listening (t : Acc) (c : collecting) : Prop :=
  streaming t (AudioPCM (out c)) /\ Forall is_event (a_got t) /\ listen nothing_heard (a_got t) = heard_of c.

Definition collects (t : Acc) (r : collected) : Prop :=
  exists c outcome, r.1 = concluded outcome c /\ outcome <> ""%string /\ streaming t (AudioPCM (out c)) /\
    listen nothing_heard (a_got t) = heard_of c /\
    (r.2 = Some ErrDuplexClosed -> forall more, listen nothing_heard (a_got t ++ more) = heard_of c) /\
    (r.2 <> None -> outcome <> TurnOutcomeOK).

Lemma collects_over t c : listening t c -> collects t (window_over c).
Proof.
  intros (H1 & H2 & H3). unfold window_over.
  destruct (_ || _ || _); eexists c, _; (split; [done|]); (split; [done|]); (split; [done|]); (split; [done|]);
    (split; [done|]); done.
Qed.

Lemma collects_failed t g r c : a_got t = g ++ [r] -> ~ is_event r -> streaming t (AudioPCM (out c)) ->
  Forall is_event g -> listen nothing_heard g = heard_of c -> collects t (not_received r c).
Proof.
  intros Eg Hr Hs Hg Hl.
  assert (forall more, listen nothing_heard (a_got t ++ more) = heard_of c) as Hm.
  { intros more. rewrite Eg, <- app_assoc. cbn. by rewrite listen_stop. }
  assert (listen nothing_heard (a_got t) = heard_of c) as H0 by (rewrite <- (app_nil_r (a_got t)); apply Hm).
  unfold not_received. destruct r; [by destruct Hr| | |]; try destruct (_ || _ || _ || _);
    eexists c, _; (split; [done|]); (split; [done|]); (split; [done|]); (split; [done|]); (split; [done|]);
    done.
Qed.

Lemma turn_collects s n started wait t : streaming t [] -> a_got t = [] ->
  tracks t (collectTurn (wire s) the_sink n started [] wait) collects.
Proof.
  intros Hs Hg. eapply (collectTurn_tracks _ _ _ _ _ listening
    (fun t e c => exists g, a_got t = g ++ [Event e] /\ streaming t (AudioPCM (out c)) /\ Forall is_event g /\
                    listen nothing_heard g = heard_of c)
    (fun t c => listening t c /\ seenUserProgress c = true /\ seenResponse c = true)).
  - intros t' c H. by apply tracks_call; intros a v [Ho Hgd]; exists t'; split; [split; [by split|by rewrite !app_nil_r]|].
  - intros t' c (H1 & H2 & H3). apply tracks_call. intros a v [Ho Hgd].
    exists (mkAcc (a_own t') (a_items t') (a_got t' ++ [vr_recv a]) (a_missed t')). split.
    { split; [by split|]. cbn. by rewrite app_nil_r. }
    cbn [fst snd perform_volc]. destruct (vr_recv a) as [e| | |err] eqn:Er.
    + exists (a_got t'). split; [done|]. split; [exact H1|done].
    + eapply (collects_failed _ (a_got t') Expired); [done|by intros []|exact H1|done|done].
    + eapply (collects_failed _ (a_got t') Withdrawn); [done|by intros []|exact H1|done|done].
    + eapply (collects_failed _ (a_got t') (SocketGone err)); [done|by intros []|exact H1|done|done].
  - intros t' st e c (g & Eg & H1 & H2 & H3) Hne. eapply tracks_mono; [|by apply apply_tracks].
    intros t1 [over c1] (F1 & F2 & F3 & F4). cbn [fst snd] in *.
    assert (listening t1 c1) as HL.
    { split; [done|]. rewrite F1, Eg. split; [apply Forall_app; by repeat constructor|].
      rewrite listen_app by done. cbn. by rewrite H3, F2. }
    destruct over; [|done]. split; [done|]. by apply F4.
  - apply collects_over.
  - intros t' e c (g & Eg & H1 & H2 & H3) He. exists c, TurnOutcomeError.
    assert (listen nothing_heard (a_got t') = heard_of c) as Hl.
    { rewrite Eg, listen_app, H3 by done. cbn. unfold hear. by rewrite He. }
    split; [done|]. split; [done|]. split; [exact H1|]. split; [exact Hl|]. by split.
  - intros t' c [(H1 & H2 & H3) Hb]. exists c, TurnOutcomeOK.
    split; [done|]. split; [done|]. split; [exact H1|]. split; [exact H3|]. by split.
  - split; [done|]. rewrite Hg. done.
Qed.

(** ** The end of the turn *)

(** The rows a turn adds: what the learner said, and what was heard of the reply. *)
Definition turn_rows (n : Z) (transcript reply spoken : string) (interrupted : bool) : list EndUtteranceItem :=
  let user := if String.eqb transcript "" then [] else [mkEndUtterance n "user" transcript false] in
  let n := n + Z.of_nat (length user) in
  user ++ if String.eqb reply "" || (interrupted && String.eqb spoken "") then []
          else [mkEndUtterance n "ai" (if interrupted then spoken else reply) interrupted].

(** The last two frames of every turn. *)
Definition closing (turnID outcome logID : string) (ms ref : option Z) : list Frame :=
  [TTSEnd turnID outcome ms ref; TurnEnd turnID outcome logID false].

(** What a turn leaves behind: [pre] is what went out before its closing frames,
    in part pushed and in part returned. *)
Record spoken_turn (o : Own) (t : Acc) (h : Heard) (outcome : string) (outbound : list Outbound) (interrupted : bool) : Prop := {
  st_frames : exists returned logID ref, frames_of outbound =
      returned ++ closing (own_turn o) outcome logID (audioDurationMs (Z.of_nat (length (h_audio h)))) ref /\
    Forall speech (frames_of (a_items t) ++ returned) /\
    let audio := audio_frames (frames_of (a_items t) ++ returned) in
    ((audio = [] /\ ref = None) \/ exists ps, stream_of (own_turn o) ref ps audio /\ exists cut, ps `prefix_of` cut /\ cut_of (reference (h_audio h)) cut) /\
    (interrupted = false ->
       if String.eqb (TrimSpace (h_text h)) "" && (Z.of_nat (length (h_audio h)) <=? 0) then audio = []
       else exists ps, stream_of (own_turn o) ref ps audio /\ cut_of (reference (h_audio h)) ps);
  st_rows : o_rows (a_own t) = o_rows o ++
    turn_rows (o_nextSeq o) (TrimSpace (h_transcript h)) (TrimSpace (h_text h))
      (TrimSpace (deltas_of (frames_of (a_items t)))) interrupted;
  st_calm : calm = true -> interrupted = false;
  st_clean : o_stream (a_own t) = no_stream;
}.

(** ** The end of the turn, part by part *)

(** The turn writes: the flag of the learner stays as it is. *)
Lemma turn_write {R A} (f : Volc -> R * Volc) (k : R -> vprog A) o items got missed post :
  sg_collectingTurn (o_stream o) = true ->
  (forall v, own v = o -> sg_interrupted (vs_stream (f v).2) = sg_interrupted (vs_stream v) /\
     sg_collectingTurn (vs_stream (f v).2) = sg_collectingTurn (vs_stream v) /\
     tracks (mkAcc (own (f v).2) items got missed) (k (f v).1) post) ->
  tracks (mkAcc o items got missed) (bind (call (Act f)) k) post.
Proof.
  intros Hc H. apply turn_act. intros v -> (_ & Hm & Hq). destruct (H v eq_refl) as (Ei & Ec & Ht).
  exists missed. split; [|done]. split; [left; cbn; by rewrite Ec|]. cbn in *. rewrite Ei, Ec. done.
Qed.

(** What a part adds: rows and frames that are not audio. *)
Definition adds (t : Acc) (rows : list EndUtteranceItem) (P : list Frame -> Prop) (t' : Acc) (items : list Outbound) : Prop :=
  a_items t' = a_items t /\ a_got t' = a_got t /\ a_missed t' = a_missed t /\
  o_stream (a_own t') = o_stream (a_own t) /\ o_rows (a_own t') = o_rows (a_own t) ++ rows /\
  Forall speech (frames_of items) /\ audio_frames (frames_of items) = [] /\ P (frames_of items).

Lemma transcript_tracks t transcript s : sg_collectingTurn (o_stream (a_own t)) = true ->
  tracks t (transcript_part transcript s) (fun t' items =>
    adds t (if String.eqb transcript "" then [] else [mkEndUtterance (o_nextSeq (a_own t)) "user" transcript false])
      (fun _ => True) t' items /\
    o_nextSeq (a_own t') = o_nextSeq (a_own t) + (if String.eqb transcript "" then 0 else 1) /\
    o_turnID (a_own t') = o_turnID (a_own t)).
Proof.
  destruct t as [o items got missed]. cbn [a_own]. intros Hc. unfold transcript_part.
  destruct (String.eqb transcript ""); cbn [a_own].
  { split; [|split; [by rewrite Z.add_0_r|done]]. repeat (split; [done|]). cbn. by rewrite app_nil_r. }
  apply turn_write; [done|]. intros v <-. split; [done|]. split; [done|].
  split; [|done]. unfold adds. cbn [a_own a_items a_got a_missed]. repeat (split; [done|]).
  by destruct (sg_streamedASR s); repeat constructor.
Qed.

Lemma reply_tracks t reply turnID s : sg_collectingTurn (o_stream (a_own t)) = true ->
  tracks t (reply_part reply turnID s) (fun t' items =>
    adds t (if String.eqb reply "" || (sg_interrupted s && String.eqb (TrimSpace (sg_deliveredText s)) "") then []
            else [mkEndUtterance (o_nextSeq (a_own t)) "ai"
                    (if sg_interrupted s then TrimSpace (sg_deliveredText s) else reply) (sg_interrupted s)])
      (fun _ => True) t' items).
Proof.
  destruct t as [o items got missed]. cbn [a_own]. intros Hc. unfold reply_part.
  destruct (String.eqb_spec reply "") as [->|Hr].
  { apply turn_write; [done|]. intros v <-. split; [done|]. split; [done|].
    repeat (split; [done|]). cbn. by rewrite app_nil_r. }
  assert (forall (items' : list Outbound) (post : Acc -> list Outbound -> Prop), (forall v, own v = o ->
      post (mkAcc (own (ai_row (if sg_interrupted s then TrimSpace (sg_deliveredText s) else reply) (sg_interrupted s) turnID v))
              items got missed) items') ->
    tracks (mkAcc o items got missed) (bind (Do_ (ai_row (if sg_interrupted s then TrimSpace (sg_deliveredText s) else reply)
      (sg_interrupted s) turnID)) (fun _ => Ret items')) post) as Hrow.
  { intros items' post Hp. apply turn_write; [done|]. intros v Ev. cbn [fst snd].
    split; [by unfold ai_row; destruct (_ && _)|]. split; [by unfold ai_row; destruct (_ && _)|]. by apply Hp. }
  assert (forall v items', own v = o -> Forall speech (frames_of items') -> audio_frames (frames_of items') = [] ->
    adds (mkAcc o items got missed)
      (if false || (sg_interrupted s && String.eqb (TrimSpace (sg_deliveredText s)) "") then []
       else [mkEndUtterance (o_nextSeq o) "ai" (if sg_interrupted s then TrimSpace (sg_deliveredText s) else reply)
               (sg_interrupted s)]) (fun _ => True)
      (mkAcc (own (ai_row (if sg_interrupted s then TrimSpace (sg_deliveredText s) else reply) (sg_interrupted s) turnID v))
         items got missed) items') as Hadd.
  { intros v items' <- Hs Ha. unfold adds, ai_row. cbn [a_own a_items a_got a_missed orb].
    destruct (sg_interrupted s) eqn:Ei; cbn [andb].
    - destruct (String.eqb (TrimSpace (sg_deliveredText s)) ""); repeat (split; [done|]); cbn; by rewrite ?app_nil_r.
    - repeat (split; [done|]). done. }
  destruct (sg_streamedText s); cbn [bind].
  - apply Hrow. intros v Ev. by apply Hadd.
  - apply tick_tracks. intros now. cbn [bind]. apply Hrow. intros v Ev. by apply Hadd; [|repeat constructor|].
Qed.

(** What was streamed of the speech [pcm], at the end of an undisturbed turn. *)
Definition streamed (s : Streaming) (turnID : string) (pcm : bytes) (fs : list Frame) : Prop :=
  (unopened s /\ fs = []) \/
  (pcm <> [] /\ sg_streamedAudio s = true /\ sg_ttsStarted s = true /\ exists ps rest,
     midstream s pcm rest /\ framed frame_bytes ps rest (reference pcm) /\ stream_of turnID (sg_activeTurnRef s) ps fs).

(** The audio of the turn, once its last part is added. *)
Definition whole_audio (turnID reply : string) (pcm : bytes) (ref : option Z) (fs : list Frame) : Prop :=
  if String.eqb reply "" && (Z.of_nat (length pcm) <=? 0) then fs = [] /\ ref = None
  else exists ps, stream_of turnID ref ps fs /\ cut_of (reference pcm) ps.

Definition speaks (turnID reply : string) (pcm : bytes) (t t' : Acc) (items : list Outbound) : Prop :=
  a_items t' = a_items t /\ a_got t' = a_got t /\ o_rows (a_own t') = o_rows (a_own t) /\
  Forall speech (frames_of items) /\ audio_frames (frames_of items) = frames_of items /\
  whole_audio turnID reply pcm (sg_activeTurnRef (o_stream (a_own t')))
    (audio_frames (frames_of (a_items t)) ++ frames_of items).

Lemma cut_of_frames ps rest pcm : framed frame_bytes ps rest pcm -> cut_of pcm (ps ++ match rest with [] => [] | _ => [rest] end).
Proof. intros H. by exists ps, rest. Qed.

Lemma batch_cut ref pcm : cut_of (reference pcm) (batch_payloads pcm ref).
Proof.
  unfold batch_payloads. rewrite resample_batch. cbn [default]. unfold Datatypes.id.
  destruct (cut_frames_spec [] [] [] (midway ref []) (reference pcm)) as (qs & rest & Hq & _ & E);
    [apply framed_nil|done|]. cbn [app] in Hq, E. apply cut_of_frames in Hq.
  destruct (reference pcm) eqn:Er; [by exists [], []; split; [apply framed_nil|]|].
  change (newAudioFramer ref ClientAudioFormat ClientFrameMS) with (midway ref []). by rewrite E.
Qed.

Lemma binary_frames ref raws ps : Forall2 (carries ref) raws ps -> Forall (fun p => p <> []) ps ->
  frames_of (map binary raws) = map BinaryFrame raws.
Proof. intros H Hp. by eapply frames_of_binary, Forall2_carries_nonempty. Qed.

Lemma speech_binary raws : Forall speech (map BinaryFrame raws).
Proof. by apply Forall_map, Forall_true. Qed.

(** The batch: nothing was streamed. *)
Lemma batch_tracks t turn turnID reply s : sg_collectingTurn (o_stream (a_own t)) = true ->
  sg_interrupted s = false -> o_stream (a_own t) = bare s -> unopened s -> audio_frames (frames_of (a_items t)) = [] ->
  tracks t (speech_part voice turn reply turnID s) (speaks turnID reply (AudioPCM turn) t).
Proof.
  destruct t as [o items got missed]. cbn [a_own a_items]. intros Hc Ei Es (Ea & Et & Eref & _) Hfs.
  unfold speech_part. rewrite Ei, Et, Ea. cbn [negb andb]. set (pcm := AudioPCM turn).
  assert (negb (String.eqb reply "") || (0 <? Z.of_nat (length pcm)) =
          negb (String.eqb reply "" && (Z.of_nat (length pcm) <=? 0))) as ->.
  { rewrite negb_andb, (Z.leb_antisym 0), negb_involutive. done. }
  destruct (String.eqb reply "" && (Z.of_nat (length pcm) <=? 0)) eqn:Enone; cbn [negb bind].
  - unfold turn_audio. fold pcm. apply tracks_bind, turn_get. intros v Ev Hg. cbn beta.
    assert (pcm = []) as ->.
    { apply andb_true_iff in Enone as [_ ?%Z.leb_le]. destruct pcm; [done|cbn in *; lia]. }
    change (batch_payloads [] _) with (@nil bytes). cbn [number_payloads bind].
    unfold speaks, whole_audio. cbn [a_own a_items a_got]. rewrite Enone, Hfs.
    repeat (split; [done|]). cbn [a_own]. by rewrite Es.
  - unfold ttsStartFrame. apply tracks_bind. cbn [bind]. apply turn_write; [done|]. intros v Ev.
    destruct (NextRef (vs_turnRefs v)) as [ref refs]. cbn [fst snd]. split; [done|]. split; [done|]. cbn [bind].
    unfold turn_audio. fold pcm. apply tracks_bind, turn_get. intros v1 Ev1 Hg1. cbn beta.
    assert (sg_activeTurnRef (vs_stream v1) = ref) as Er.
    { apply (f_equal (fun o => sg_activeTurnRef (o_stream o))) in Ev1. exact Ev1. }
    rewrite Er. eapply tracks_mono; [|apply number_tracks]. intros t' raws [-> Hraws]. cbn beta.
    pose proof (batch_cut ref pcm) as Hcut. pose proof (binary_frames _ _ _ Hraws (cut_of_nonempty _ _ Hcut)) as Eb.
    cbn [Prog.tracks]. unfold speaks, whole_audio. cbn [a_own a_items a_got]. rewrite Enone, Hfs, frames_of_app, Eb.
    split; [done|]. split; [done|]. split; [by rewrite <- Ev|].
    split; [apply Forall_app; split; [by repeat constructor|apply speech_binary]|].
    split; [rewrite audio_frames_app, audio_frames_binary; done|].
    exists (batch_payloads pcm ref). split; [|done]. by exists raws.
Qed.

(** The rest of a stream. *)
Lemma flush_tracks t turn turnID reply s ps rest : sg_collectingTurn (o_stream (a_own t)) = true ->
  sg_interrupted s = false -> o_stream (a_own t) = bare s -> AudioPCM turn <> [] ->
  sg_streamedAudio s = true -> sg_ttsStarted s = true -> midstream s (AudioPCM turn) rest ->
  framed frame_bytes ps rest (reference (AudioPCM turn)) ->
  stream_of turnID (sg_activeTurnRef s) ps (audio_frames (frames_of (a_items t))) ->
  tracks t (speech_part voice turn reply turnID s) (speaks turnID reply (AudioPCM turn) t).
Proof.
  destruct t as [o items got missed]. cbn [a_own a_items]. intros Hc Ei Es Hne Ea Et Hmid Hfr (raws & Hfs & Hraws).
  unfold speech_part. rewrite Ei, Et, Ea. cbn [negb andb bind turn_audio].
  apply tracks_bind. eapply tracks_mono.
  2:{ apply (frame_tracks (mkAcc o items got missed) [] true (AudioPCM turn) ps rest); [done| |done].
      cbn [a_own]. rewrite Es. exact Hmid. }
  intros t' new (qs & rest' & Hq & Hnew & ->). cbn [a_own a_items a_got a_missed bind] in *. rewrite app_nil_r in Hq.
  assert (sg_activeTurnRef (o_stream o) = sg_activeTurnRef s) as Er by (by rewrite Es). rewrite Er in Hnew.
  pose proof (cut_of_frames _ _ _ Hq) as Hcut. rewrite <- app_assoc in Hcut.
  assert (frames_of (map binary new) = map BinaryFrame new) as Eb.
  { eapply binary_frames; [exact Hnew|]. apply cut_of_nonempty in Hcut. by apply Forall_app in Hcut as [_ ?]. }
  cbn [Prog.tracks]. unfold speaks, whole_audio. cbn [a_own a_items a_got app]. rewrite Eb.
  repeat (split; [done|]). split; [apply speech_binary|]. split; [apply audio_frames_binary|].
  assert (Z.of_nat (length (AudioPCM turn)) <=? 0 = false) as ->.
  { apply Z.leb_gt. destruct (AudioPCM turn); [done|cbn; lia]. }
  rewrite andb_false_r. eexists. split; [|exact Hcut].
  exists (raws ++ new). rewrite Hfs, map_app. cbn. rewrite Er. split; [done|]. by apply Forall2_app.
Qed.

Definition speech_done (turnID reply : string) (pcm : bytes) (interrupted : bool) (t t' : Acc) (items : list Outbound) : Prop :=
  a_items t' = a_items t /\ a_got t' = a_got t /\ o_rows (a_own t') = o_rows (a_own t) /\
  Forall speech (frames_of items) /\ audio_frames (frames_of items) = frames_of items /\
  let fs := audio_frames (frames_of (a_items t)) ++ frames_of items in
  let ref := sg_activeTurnRef (o_stream (a_own t')) in
  ((fs = [] /\ ref = None) \/
   exists ps, stream_of turnID ref ps fs /\ exists cut, ps `prefix_of` cut /\ cut_of (reference pcm) cut) /\
  (interrupted = false -> whole_audio turnID reply pcm ref fs).

Lemma whole_is_done turnID reply pcm t t' items : speaks turnID reply pcm t t' items ->
  speech_done turnID reply pcm false t t' items.
Proof.
  intros (H1 & H2 & H3 & H4 & H5 & Hw). repeat (split; [done|]). split; [|done].
  unfold whole_audio in Hw. destruct (_ && _); [by left|]. right. destruct Hw as (ps & Hs & Hc).
  exists ps. split; [done|]. by exists ps.
Qed.

(** What was cut of the beginning of a recording begins the cut of the whole. *)
Lemma cut_of_prefix ps rest fed pcm : framed frame_bytes ps rest (reference fed) -> fed `prefix_of` pcm ->
  exists cut, ps `prefix_of` cut /\ cut_of (reference pcm) cut.
Proof.
  intros Hf [more ->]. destruct (resample_spec fed more) as (o & _ & ->).
  destruct (cut_frames_spec ps rest (reference fed) (midway None rest) o) as (qs & rest' & Hq & _); [done|done|].
  apply cut_of_frames in Hq. eexists. split; [|exact Hq]. rewrite <- app_assoc. by apply prefix_app_r.
Qed.

Lemma speech_tracks t turn turnID reply s fed : sg_collectingTurn (o_stream (a_own t)) = true ->
  o_stream (a_own t) = (if sg_interrupted s then drop_tail (bare s) else bare s) ->
  fed `prefix_of` AudioPCM turn -> (sg_interrupted s = false -> emitter = true -> fed = AudioPCM turn) ->
  (emitter = false -> unopened s) ->
  ((unopened s /\ fed = [] /\ audio_frames (frames_of (a_items t)) = []) \/
   (fed <> [] /\ sg_streamedAudio s = true /\ sg_ttsStarted s = true /\ exists ps rest,
     midstream s fed rest /\ framed frame_bytes ps rest (reference fed) /\
     stream_of turnID (sg_activeTurnRef s) ps (audio_frames (frames_of (a_items t))))) ->
  tracks t (speech_part voice turn reply turnID s) (speech_done turnID reply (AudioPCM turn) (sg_interrupted s) t).
Proof.
  intros Hc Es Hp Hfed He Hst. destruct (sg_interrupted s) eqn:Ei.
  - unfold speech_part. rewrite Ei. cbn [negb andb bind Prog.tracks]. unfold speech_done. cbn [map frames_of concat app].
    repeat (split; [done|]). split; [|done]. rewrite app_nil_r, Es.
    destruct Hst as [((_ & _ & Href & _) & _ & Hfs)|(_ & _ & _ & ps & rest & _ & Hfr & Hof)]; [by left|right].
    exists ps. split; [exact Hof|]. by eapply cut_of_prefix.
  - eapply tracks_mono; [intros t' items; apply whole_is_done|].
    destruct Hst as [(Hu & Hnil & Hfs)|(Hne & Ha & Ht & ps & rest & Hmid & Hfr & Hof)]; [by apply batch_tracks|].
    assert (fed = AudioPCM turn) as ->.
    { apply Hfed; [done|]. destruct emitter; [done|]. destruct (He eq_refl) as (Hna & _). by rewrite Ha in Hna. }
    by eapply flush_tracks.
Qed.

(** The rows and the frames, in order. *)
Lemma outbound_tracks t turn c outcome : streaming t (AudioPCM (out c)) -> turn = concluded outcome c -> outcome <> ""%string ->
  tracks t (turnToOutbound voice sessionID turn) (fun t' outbound =>
    a_got t' = a_got t /\ exists i, spoken_turn origin t' (heard_of c) outcome outbound i).
Proof.
  destruct t as [o items got missed]. intros ((Hc & Hrows & Hseq & Hid) & Hs & Hd & Hem & fed & Hp & Hm & Hst) -> Hout.
  cbn [a_own a_items a_got a_missed] in *. unfold turnToOutbound. cbn [Transcript AssistantText AudioPCM Outcome concluded].
  rewrite TrimSpace_idem. apply turn_act. intros v -> Hg. exists missed. unfold pushed_so_far. cbn [fst snd].
  set (s := vs_stream v) in *. set (h := heard_of c).
  assert (own (if sg_interrupted s then on_stream drop_tail v else v) =
          mkOwn (if sg_interrupted s then drop_tail (bare s) else bare s) (vs_utterances v) (vs_nextSeq v) (vs_activeTurnID v)
            (vs_pendingInstruction v)) as Eo.
  { by destruct (sg_interrupted s). }
  rewrite Eo. set (o1 := mkOwn _ _ _ _ _).
  assert (sg_collectingTurn (o_stream o1) = true) as Hc1 by (cbn; destruct (sg_interrupted s); exact Hc).
  split.
  { destruct Hg as (_ & Hmi & Hq). split; [by left|]. split.
    - intros H. split; [done|]. destruct (Hmi H) as [_ Hi]. fold s in Hi. by rewrite Hi.
    - intros H. specialize (Hq H). fold s in Hq. by rewrite Hq. }
  apply tracks_bind. eapply tracks_mono; [|by apply transcript_tracks].
  intros [o2 items2 got2 missed2] asr (Hadd & Hn2 & Ht2). unfold adds in Hadd. cbn [a_own a_items a_got a_missed] in *.
  destruct Hadd as (-> & -> & -> & Es2 & Er2 & Hsp2 & Ha2 & _).
  apply turn_get. intros v2 Ev2 _. cbn [a_own] in Ev2. apply turn_get. intros v3 Ev3 _.
  set (turnID := turn_id sessionID v2).
  assert (turnID = own_turn origin) as Eid.
  { unfold turnID, turn_id, own_turn. change (vs_activeTurnID v2) with (o_turnID (own v2)). rewrite Ev2, Ht2. exact (f_equal (fun x => canonicalTurnID x sessionID) Hid). }
  apply tracks_bind. eapply tracks_mono; [|apply reply_tracks; cbn [a_own]; by rewrite Es2].
  intros [o4 items4 got4 missed4] replied Hadd4. unfold adds in Hadd4. cbn [a_own a_items a_got a_missed] in *.
  destruct Hadd4 as (-> & -> & -> & Es4 & Er4 & Hsp4 & Ha4 & _).
  apply turn_do; [done|]. apply tracks_bind. eapply tracks_mono.
  2:{ apply (speech_tracks _ (concluded outcome c) turnID _ s fed).
      - cbn [a_own]. by rewrite Es4, Es2.
      - cbn [a_own]. by rewrite Es4, Es2.
      - exact Hp.
      - intros Hi Hemit. apply Hm; [done|]. destruct missed; [|done]. destruct Hg as (_ & Hmi & _).
        destruct (Hmi eq_refl) as [_ Hi']. fold s in Hi'. by rewrite Hi in Hi'.
      - intros H. by destruct (Hem H).
      - cbn [a_items]. destruct Hst as [Hst|(H1 & H2 & H3 & ps & rest & Hst)]; [by left|right].
        split; [done|]. split; [done|]. split; [done|]. exists ps, rest. rewrite Eid. unfold own_turn in *. by rewrite <- Hid. }
  intros [o5 items5 got5 missed5] spoken Hsd. unfold speech_done in Hsd. cbn [a_own a_items a_got a_missed] in *.
  destruct Hsd as (-> & -> & Er5 & Hsp5 & Ha5 & Haud & Hwhole).
  apply turn_get. intros v6 Ev6 _. cbn [a_own] in Ev6.
  assert (sg_activeTurnRef (vs_stream v6) = sg_activeTurnRef (o_stream o5)) as Eref by (by rewrite <- Ev6).
  rewrite Eref. apply turn_act. intros v7 Ev7 Hg7. exists false. cbn [fst snd].
  split; [split; [by right|by split]|]. apply turn_do; [done|]. cbn [Prog.tracks]. split; [done|].
  exists (sg_interrupted s). unfold ttsCompletionStatus.
  destruct (String.eqb_spec outcome "") as [|_]; [done|].
  split; cbn [a_own a_items a_got o_rows o_stream own].
  - exists (frames_of (asr ++ replied ++ spoken)). eexists _, _. rewrite <- Eid. split; [|split; [|split]].
    + by rewrite !app_assoc, frames_of_app.
    + rewrite !frames_of_app. by repeat (apply Forall_app; split).
    + rewrite !frames_of_app, !audio_frames_app, Ha2, Ha4, Ha5. exact Haud.
    + intros Hi. specialize (Hwhole Hi). rewrite !frames_of_app, !audio_frames_app, Ha2, Ha4, Ha5.
      revert Hwhole. unfold whole_audio, h, heard_of. cbn [h_text h_audio AudioPCM concluded].
      destruct ((TrimSpace (text c) =? "")%string && (Z.of_nat (length (AudioPCM (out c))) <=? 0)); [by intros []|done].
  - transitivity (o_rows o5); [by rewrite Ev7|]. rewrite Er5, Er4, Er2, Hn2.
    change (o_rows o1) with (o_rows (own v)). change (o_nextSeq o1) with (o_nextSeq (own v)).
    rewrite <- app_assoc, Hrows, Hseq. unfold turn_rows. f_equal. rewrite <- Hd. unfold h, heard_of. cbn [h_transcript h_text].
    by destruct (String.eqb (TrimSpace (Transcript (out c))) "").
  - intros Hcalm. by apply Hg.
  - done.
Qed.

(** ** The turn from the end of the learner's speech *)

(** What the turn's goroutine answers when it is done. *)
Definition turn_done (t : Acc) (answer : result error (list Outbound)) : Prop :=
  match answer with
  | Err _ => a_items t = [] /\ o_stream (a_own t) = no_stream /\ o_rows (a_own t) = o_rows origin
  | Ok outbound => exists outcome i, spoken_turn origin t (listen nothing_heard (a_got t)) outcome outbound i
  end.

(** Nothing is pushed, and no row added. *)
Definition idles (t t' : Acc) : Prop := a_own t' = a_own t /\ a_items t' = a_items t /\ a_missed t' = a_missed t.

Lemma outside_tracks {R} (e : volcE R) t (post : Acc -> R -> Prop) : outside e -> (forall a v, (perform_volc a e v).2 = []) ->
  (forall r, post t r) -> tracks t (call e) post.
Proof.
  intros He Hs Hp. apply tracks_call. intros a v [Ho Hg]. exists t. split; [|apply Hp].
  rewrite He, Hs. split; [by split|]. cbn. by rewrite !app_nil_r.
Qed.

Lemma ask_tracks conn r t : tracks t (call (Ask_ conn r)) (fun t' _ => t' = t).
Proof.
  apply tracks_call. intros a v [Ho Hg]. exists t. split; [|done]. split; [by split|]. cbn. by rewrite !app_nil_r.
Qed.

(** Asking the vendor changes nothing here. *)
Lemma asks_tracks (k : DuplexSession -> vprog (option error)) t :
  (forall s, tracks t (k s) (fun t' _ => t' = t)) -> tracks t (on_session k) (fun t' _ => t' = t).
Proof. intros H. apply turn_get. intros v _ _. by destruct (vs_session v) as [s|]. Qed.

Lemma reads_tracks conn t : tracks t (call (Receive conn)) (fun t' _ => idles t t' /\ exists r, a_got t' = a_got t ++ [r]).
Proof.
  apply tracks_call. intros a v [Ho Hg].
  exists (mkAcc (a_own t) (a_items t) (a_got t ++ [vr_recv a]) (a_missed t)). split; [|by split; [|exists (vr_recv a)]].
  split; [by split|]. cbn. by rewrite app_nil_r.
Qed.

(** The wait for a new session only reads. *)
Definition only_reads {A} (t t' : Acc) (_ : A) : Prop := idles t t' /\ exists more, a_got t' = a_got t ++ more.

Lemma only_reads_refl {A} t (a : A) : only_reads t t a.
Proof. split; [done|]. exists []. by rewrite app_nil_r. Qed.

Lemma only_reads_step {A B} t t1 t2 (a : A) (b : B) : only_reads t t1 a -> only_reads t1 t2 b -> only_reads t t2 b.
Proof.
  intros [(E1 & E2 & E3) [m Em]] [(E4 & E5 & E6) [m' Em']]. split; [repeat split; congruence|]. exists (m ++ m').
  by rewrite Em', Em, app_assoc.
Qed.

Lemma created_tracks s n t : tracks t (await_created (wire s) n) (only_reads t).
Proof.
  revert t. induction n as [|n IH]; intros t; cbn [await_created]; [apply only_reads_refl|].
  apply tracks_bind. eapply tracks_mono; [|apply reads_tracks]. intros t1 r [Hi [r' Hr]].
  assert (only_reads t t1 tt) as H1 by (split; [done|by exists [r']]).
  destruct r as [e| | |err]; try exact H1. destruct (String.eqb _ _); [exact H1|].
  destruct (String.eqb _ _); [exact H1|]. eapply tracks_mono; [|apply IH]. intros t2 a H2.
  by eapply only_reads_step.
Qed.

Lemma close_tracks conn t : tracks t (closeDuplex conn) (fun t' _ => t' = t).
Proof.
  apply tracks_bind. eapply tracks_mono; [|apply ask_tracks]. intros t' r ->. by apply outside_tracks.
Qed.

Lemma open_tracks instructions t : tracks t (OpenDuplex apiKey events instructions) (only_reads t).
Proof.
  unfold OpenDuplex. destruct (String.eqb _ _); [apply only_reads_refl|].
  apply tracks_bind, outside_tracks; [done|done|]. intros [[conn logID]|err]; [|apply only_reads_refl].
  apply tracks_bind. eapply tracks_mono; [|apply ask_tracks]. intros t1 [err|] ->.
  { apply tracks_bind. eapply tracks_mono; [|apply close_tracks]. intros t2 a ->. apply only_reads_refl. }
  apply tracks_bind. eapply tracks_mono; [|apply created_tracks]. intros t1 [id|err] H1; [exact H1|].
  apply tracks_bind. eapply tracks_mono; [|apply close_tracks]. intros t2 a ->. exact H1.
Qed.

Lemma reset_tracks t : tracks t (resetDuplex apiKey events) (only_reads t).
Proof.
  unfold resetDuplex. apply turn_do; [done|]. apply turn_get. intros v _ _.
  destruct (vs_session v) as [s|]; [|apply only_reads_refl]. apply turn_get. intros v1 _ _.
  apply tracks_bind. eapply tracks_mono; [|apply open_tracks]. intros t1 [s1|err] H1; [|exact H1].
  destruct t1 as [o items got missed]. apply turn_act. intros v2 -> Hg. exists missed. split; [exact Hg|].
  apply tracks_bind. eapply (tracks_mono _ _ _ _ (fun t' _ => t' = mkAcc (own v2) items got missed)).
  { intros t2 a ->. exact H1. }
  cbn [fst snd]. destruct (vs_session v2) as [old|]; [apply close_tracks|done].
Qed.

Definition nearly_done (t : Acc) (answer : result error (list Outbound)) : Prop :=
  match answer with
  | Err _ => a_items t = [] /\ o_rows (a_own t) = o_rows origin /\
             (o_stream (a_own t) = no_stream \/ o_stream (a_own t) = set_collecting true no_stream)
  | Ok outbound => exists outcome i, spoken_turn origin t (listen nothing_heard (a_got t)) outcome outbound i
  end.

Lemma returned_tracks t turn c outcome : streaming t (AudioPCM (out c)) -> turn = concluded outcome c ->
  outcome <> ""%string -> listen nothing_heard (a_got t) = heard_of c ->
  tracks t (returned voice sessionID turn) nearly_done.
Proof.
  intros Hs Ht Ho Hl. apply tracks_bind. eapply tracks_mono; [|by apply (outbound_tracks t turn c outcome)].
  intros t' outbound [Hg [i Hi]]. exists outcome, i. by rewrite Hg, Hl.
Qed.

Lemma collect_reply_tracks : o_stream origin = no_stream ->
  tracks (mkAcc origin [] [] false) (collect_reply emitter apiKey voice sessionID events []) turn_done.
Proof.
  intros Hclean. unfold collect_reply. apply turn_act. intros v Ho Hg. exists false. cbn [fst snd].
  set (t1 := mkAcc _ _ _ _).
  assert (o_stream (a_own t1) = set_collecting true no_stream) as Es1.
  { rewrite Ho in Hclean. by apply (f_equal (set_collecting true)) in Hclean. }
  assert (underway (a_own t1)) as Hu by (unfold underway; rewrite Ho; by repeat split).
  assert (streaming t1 []) as Hst.
  { split; [exact Hu|]. rewrite Es1. split; [done|]. split; [done|]. split; [done|].
    exists []. split; [done|]. split; [done|]. left. by rewrite Es1. }
  split; [split; [left; by rewrite Es1|]; split; [done|apply Hg]|].
  apply turn_get. intros v1 _ _. apply turn_get. intros v2 _ _.
  apply tracks_bind. eapply (tracks_mono _ _ _ _ nearly_done).
  - intros [o items got missed] answer Hdone. apply turn_act. intros v3 -> Hg3. exists false. cbn [fst snd Prog.tracks].
    assert (forall s, bare (vs_stream v3) = s -> s = no_stream \/ s = set_collecting true no_stream ->
      bare (set_collecting false (vs_stream v3)) = no_stream) as Hfin.
    { intros s Es Hs. change (set_collecting false (bare (vs_stream v3)) = no_stream). rewrite Es. by destruct Hs as [->| ->]. }
    destruct answer as [outbound|err]; cbn in Hdone.
    + destruct Hdone as (outcome & i & [Hf Hr Hc Hn]). cbn [a_own a_items a_got o_stream own] in *.
      pose proof (Hfin _ Hn (or_introl eq_refl)) as E.
      split; [split; [right; cbn; by rewrite E|]; split; [done|apply Hg3]|]. exists outcome, i. by split.
    + destruct Hdone as (H1 & H2 & H3). cbn [a_own a_items o_stream own] in *. pose proof (Hfin _ eq_refl H3) as E.
      split; [split; [right; cbn; by rewrite E|]; split; [done|apply Hg3]|]. split; [done|]. by split.
  - destruct (vs_session v2) as [s|].
    2:{ split; [done|]. split; [apply Hu|]. by right. }
    apply tracks_bind. eapply tracks_mono; [|by apply turn_collects].
    intros t2 [turn err] (c & outcome & Eturn & Hne & Hst2 & Hl & Hclosed & Hok). cbn [fst snd] in *.
    apply tracks_bind. eapply (tracks_mono _ _ _ _ (fun t3 _ => idles t2 t3 /\ listen nothing_heard (a_got t3) = heard_of c)).
    { intros t3 [] [(E1 & E2 & E3) Hl3].
      assert (streaming t3 (AudioPCM (out c))) as Hst3.
      { unfold streaming, stream_at in *. by rewrite E1, E2, E3. }
      assert (tracks t3 (returned voice sessionID turn) nearly_done) as Hret by (by eapply returned_tracks).
      unfold non_ok. rewrite Eturn. cbn [Outcome concluded]. destruct (String.eqb_spec outcome "") as [|_]; [done|].
      destruct (String.eqb_spec outcome TurnOutcomeOK) as [Eok|_]; cbn [negb andb]; rewrite <- Eturn; [|exact Hret].
      destruct err as [err|]; [by destruct (Hok ltac:(done) Eok)|exact Hret]. }
    assert (idles t2 t2 /\ listen nothing_heard (a_got t2) = heard_of c) as Hstay by done.
    destruct err as [[| | |]|]; try exact Hstay.
    apply tracks_bind. eapply tracks_mono; [|apply reset_tracks]. intros t3 _ [Hi [more Hm]].
    split; [done|]. rewrite Hm. by apply Hclosed.
Qed.

(** The turn a frame names. *)
Definition begins (turnID : string) (o : Own) : Own :=
  mkOwn (o_stream o) (o_rows o) (o_nextSeq o)
    (if String.eqb (TrimSpace turnID) "" then o_turnID o else TrimSpace turnID) (o_instruction o).

Lemma clock_tracks t : tracks t (start_clock) (fun t' _ => t' = t).
Proof.
  unfold start_clock. apply turn_get. intros v _ _. destruct (IsZero _); [|done].
  apply tick_tracks. intros now. by apply turn_do.
Qed.

Lemma speech_end_tracks turnID o : origin = begins turnID o -> o_stream o = no_stream -> o_instruction o = ""%string ->
  tracks (mkAcc o [] [] false) (controlSpeechEnd emitter apiKey voice sessionID events turnID) turn_done.
Proof.
  intros Hor Hclean Hinst. unfold controlSpeechEnd. apply turn_get. intros v _ _.
  assert (o_stream origin = no_stream) as Hcl by (by rewrite Hor).
  assert (o_rows origin = o_rows o) as Hro by (by rewrite Hor).
  assert (forall err, tracks (mkAcc origin [] [] false) (Ret (Err err)) turn_done) as Hfail by done.
  destruct (vs_session v) as [s|]; [|split; [done|]; by split]. apply tracks_bind.
  eapply (tracks_mono _ _ _ _ (fun t _ => t = mkAcc origin [] [] false)).
  2:{ destruct (String.eqb (TrimSpace turnID) "") eqn:E.
      - cbn [Prog.tracks]. rewrite Hor. unfold begins. rewrite E. by destruct o.
      - apply turn_act. intros v1 -> Hg. exists false. cbn [fst snd]. rewrite Hor. unfold begins. rewrite E.
        split; [exact Hg|done]. }
  intros t [] ->. apply tracks_bind. eapply tracks_mono; [|apply clock_tracks]. intros t [] ->.
  apply tracks_bind. unfold deliverPendingInstruction. apply turn_act. intros v1 Ho1 Hg1. exists false.
  assert (vs_pendingInstruction v1 = ""%string) as Ep.
  { change (o_instruction (own v1) = ""%string). rewrite <- Ho1, Hor. exact Hinst. }
  assert (own (Volc.set_pending "" v1) = origin) as Eo.
  { rewrite Ho1. unfold own. cbn. by rewrite Ep. }
  cbn [fst snd]. rewrite Eo, Ep. split; [destruct Hg1 as (H1 & H2 & H3); by split|].
  eapply (tracks_mono _ _ _ _ (fun t preload => t = mkAcc origin [] [] false /\ preload = [])).
  2:{ by destruct (vs_session v1). }
  intros t preload [-> ->]. apply tracks_bind. eapply tracks_mono; [|apply asks_tracks; intros s1; apply ask_tracks].
  intros t [err|] ->; [apply Hfail|]. apply turn_get. intros v2 _ _.
  apply tracks_bind. eapply (tracks_mono _ _ _ _ (fun t' _ => t' = mkAcc origin [] [] false)).
  2:{ destruct (vs_inputMuted v2); [done|]. apply asks_tracks. intros s1. apply ask_tracks. }
  intros t [err|] ->; [apply Hfail|]. apply tracks_bind.
  eapply (tracks_mono _ _ _ _ (fun t' _ => t' = mkAcc origin [] [] false)).
  2:{ destruct (vs_inputMuted v2); [done|]. by apply turn_do. }
  intros t [] ->. by apply collect_reply_tracks.
Qed.

(** ** The room *)

Definition attended (m : Room) : Prop := exists t,
  ok t (rm_volc m) /\ a_items t = pushed_items (rm_log m) /\ a_got t = answers (rm_log m) /\
  tracks t (rm_turn m) turn_done /\ polite (rm_loop m).

Definition bearable_move (c : RoomMove) : Prop := match c with LoopReads f => bearable f | _ => True end.

Lemma attended_step m c : bearable_move c -> attended m -> attended (room_step apiKey audioFormat events m c).
Proof.
  intros Hb (t & Hok & Hi & Hg & Ht & Hl). destruct c as [a|f|a|seqs refs]; cbn [room_step].
  - destruct (rm_turn m) as [r|R e k] eqn:E; [exists t; rewrite E; by split|].
    destruct (Ht a (rm_volc m) Hok) as (t' & (Hok' & Hi' & Hg') & Ht').
    destruct (perform_volc a e (rm_volc m)) as [[r v] es]. exists t'. cbn in *. split; [done|].
    split; [by unfold pushed_items in *; rewrite omap_app, Hi', Hi|].
    split; [by unfold answers in *; rewrite omap_app, Hg', Hg|]. done.
  - destruct (rm_loop m) as [r|R e k] eqn:E; [|exists t; rewrite E; by split].
    exists t. repeat (split; [done|]). by apply polite_frame.
  - destruct (rm_loop m) as [r|R e k] eqn:E; [exists t; rewrite E; by split|].
    destruct (Hl a (rm_volc m) I) as ([] & Hleave & Hl').
    destruct (perform_volc a e (rm_volc m)) as [[r v] es]. exists t. cbn in *.
    split; [by eapply leaves_ok|]. done.
  - exists t. cbn. split; [|done]. eapply leaves_ok; [|exact Hok]. by apply leaves_same.
Qed.

Lemma attended_run cs m : Forall bearable_move cs -> attended m ->
  attended (run_room apiKey audioFormat events cs m).
Proof.
  unfold run_room. revert m. induction cs as [|c cs IH]; intros m Hb Hm; [done|].
  apply Forall_cons in Hb as [Hb Hbs]. cbn. apply IH; [done|]. by apply attended_step.
Qed.

Lemma room_attended cs v turnID : Forall bearable_move cs ->
  origin = begins turnID (own v) -> bare (vs_stream v) = no_stream -> vs_pendingInstruction v = ""%string ->
  (calm = true -> sg_interrupted (vs_stream v) = false) ->
  attended (run_room apiKey audioFormat events cs (turn_ends emitter apiKey voice sessionID events turnID v)).
Proof.
  intros Hb Hor Hclean Hinst Hcalm. apply attended_run; [done|].
  exists (mkAcc (own v) [] [] false). split; [split; [done|]; split; [by right|]; by split|].
  split; [done|]. split; [done|]. split; [|done]. by apply speech_end_tracks.
Qed.

Lemma room_done cs v turnID answer : Forall bearable_move cs ->
  origin = begins turnID (own v) -> bare (vs_stream v) = no_stream -> vs_pendingInstruction v = ""%string ->
  (calm = true -> sg_interrupted (vs_stream v) = false) ->
  let m := run_room apiKey audioFormat events cs (turn_ends emitter apiKey voice sessionID events turnID v) in
  rm_turn m = Ret answer ->
  exists t, own (rm_volc m) = a_own t /\ a_items t = pushed_items (rm_log m) /\ a_got t = answers (rm_log m) /\
    turn_done t answer /\ (calm = true -> sg_interrupted (vs_stream (rm_volc m)) = false).
Proof.
  intros Hb Hor Hclean Hinst Hcalm m Hm.
  destruct (room_attended cs v turnID) as (t & [Ho (_ & _ & Hq)] & Hi & Hg & Ht & _); [done..|].
  fold m in Ho, Hi, Hg, Ht, Hq. rewrite Hm in Ht. by exists t.
Qed.
End turn.

(** A turn ends by its own moves. *)
Lemma turn_finishes (p : vprog (result error (list Outbound))) (replies : nat -> VReply) v :
  exists n answer, forall apiKey audioFormat events loop log asked,
    rm_turn (run_room apiKey audioFormat events (map TurnMoves (map replies (List.seq 0 n))) (mkRoom v p loop log asked)) = Ret answer.
Proof.
  revert replies v. induction p as [a|R e k IH]; intros replies v.
  { by exists 0%nat, a. }
  destruct (perform_volc (replies 0%nat) e v) as [[r v'] es] eqn:E.
  destruct (IH r (fun n => replies (S n)) v') as (n & answer & H). exists (S n), answer. intros.
  cbn [List.seq map run_room foldl]. unfold run_room in *. cbn [room_step rm_turn rm_volc foldl]. rewrite E.
  rewrite <- seq_shift, (map_map S replies). apply H.
Qed.

(** What was cut is determined by the recording. *)
Lemma cut_of_unique pcm ps qs : cut_of pcm ps -> cut_of pcm qs -> ps = qs.
Proof.
  intros (w & r & Hf & ->) (w' & r' & Hf' & ->). by destruct (framed_inj _ _ _ _ _ _ Hf Hf') as [-> ->].
Qed.

(** ** What a turn guarantees *)

(** A provider session between two turns. *)
Definition at_rest (v : Volc) : Prop := bare (vs_stream v) = no_stream /\ vs_pendingInstruction v = ""%string.

(** Any frames of the read loop but an abort, or a queued instruction. *)
Definition no_abort : RoomMove -> Prop := bearable_move false.
(** No interrupt either. *)
Definition undisturbed : RoomMove -> Prop := bearable_move true.

Definition named_turn (turnID sessionID : string) (v : Volc) : string :=
  canonicalTurnID (if String.eqb (TrimSpace turnID) "" then vs_activeTurnID v else TrimSpace turnID) sessionID.

Section guarantees.
Variable emitter : bool.
Variable apiKey voice audioFormat sessionID : string.
Variable events : nat.
Variables (cs : list RoomMove) (v : Volc) (turnID : string) (outbound : list Outbound).
Local Abbreviation m :=
  (run_room apiKey audioFormat events cs (turn_ends emitter apiKey voice sessionID events turnID v)).
Local Abbreviation said := (listen nothing_heard (answers (rm_log m))).
Local Abbreviation frames := (frames_of (pushed_items (rm_log m) ++ outbound)).

Lemma turn_spoken calm : Forall (bearable_move calm) cs -> at_rest v ->
  (calm = true -> sg_interrupted (vs_stream v) = false) -> rm_turn m = Ret (Ok outbound) ->
  exists t outcome i, own (rm_volc m) = a_own t /\ a_items t = pushed_items (rm_log m) /\
    spoken_turn voice sessionID calm (begins turnID (own v)) t said outcome outbound i /\
    (calm = true -> sg_interrupted (vs_stream (rm_volc m)) = false).
Proof.
  intros Hb [Hc Hp] Hcalm Hm.
  destruct (room_done emitter apiKey voice audioFormat sessionID events calm (begins turnID (own v)) cs v turnID (Ok outbound))
    as (t & Ho & Hi & Hg & (outcome & i & Hs) & Hq); [done..|]. exists t, outcome, i. rewrite Hg in Hs. by split.
Qed.
End guarantees.

(** C9: In every interleaving of a turn with the frames of the client (an abort
    excepted), the ladder's draws and failing pushes, the frames of the turn are
    text, transcript and speech, then one [ai.tts.end] and one [ai.turn.end];
    speech is one [ai.tts.start] and then frames of its reference, which the end
    repeats.  Nothing the turn streamed is left for the next one: its marks, its
    delivered text, its resampler, framer and reference are cleared.  What the
    read loop wrote may be: the bytes of audio that came meanwhile, and the mark
    of an interrupt, which is clear when no interrupt came. *)
Theorem turn_stream_is_bracketed emitter apiKey voice audioFormat sessionID events cs v turnID outbound :
  let m := run_room apiKey audioFormat events cs (turn_ends emitter apiKey voice sessionID events turnID v) in
  let turn := named_turn turnID sessionID v in
  Forall no_abort cs -> at_rest v -> rm_turn m = Ret (Ok outbound) ->
  (exists spoken outcome logID ms ref,
     frames_of (pushed_items (rm_log m) ++ outbound) = spoken ++ [TTSEnd turn outcome ms ref; TurnEnd turn outcome logID false] /\
     Forall speech spoken /\
     ((audio_frames spoken = [] /\ ref = None) \/
      exists raws, audio_frames spoken = TTSStart turn voice clientPlaybackRate "pcm" ref :: map BinaryFrame raws /\
        Forall (fun raw => exists payload, carries ref raw payload) raws)) /\
  exists uplink interrupted,
    vs_stream (rm_volc m) = mkStreaming false false false false uplink "" interrupted None None None false /\
    (Forall undisturbed cs -> sg_interrupted (vs_stream v) = false -> interrupted = false).
Proof.
  intros m turn Hb Hr Hm.
  destruct (turn_spoken emitter apiKey voice audioFormat sessionID events cs v turnID outbound false)
    as (t & outcome & i & Ho & Hi & [Hf _ _ Hc] & _); [done..|]. fold m in Ho, Hi, Hf.
  split.
  2:{ apply (f_equal o_stream) in Ho. rewrite Hc in Ho. cbn [own o_stream] in Ho. unfold bare, no_stream in Ho.
      exists (sg_turnUplinkBytes (vs_stream (rm_volc m))), (sg_interrupted (vs_stream (rm_volc m))). split.
      - clearbody m. destruct (vs_stream (rm_volc m)); cbn in Ho |- *. by injection Ho as -> -> -> -> -> -> -> -> ->.
      - intros Hu Hi0. by destruct (turn_spoken emitter apiKey voice audioFormat sessionID events cs v turnID outbound true)
          as (_ & _ & _ & _ & _ & _ & Hq); [done..|apply Hq]. }
  destruct Hf as (returned & logID & ref & Ef & Hs & Ha & _).
  exists (frames_of (a_items t) ++ returned), outcome, logID, (audioDurationMs (Z.of_nat (length (h_audio (listen nothing_heard (answers (rm_log m))))))), ref.
  split; [rewrite frames_of_app, Ef, <- Hi; by rewrite app_assoc|]. split; [exact Hs|].
  destruct Ha as [Ha|(ps & (raws & E & Hraws) & _)]; [by left|right]. exists raws. split; [exact E|].
  clear -Hraws. induction Hraws; constructor; [by eexists|done].
Qed.

(** C11: In every interleaving without an interrupt or an abort, with or without
    an emitter, the speech of the turn is the whole of what the vendor said,
    resampled and cut into full frames in order, opened exactly when there is a
    reply or speech; and the transcript gains what the learner and the vendor
    said.  So streaming and sending at the end carry the same payloads. *)
Theorem reply_is_spoken_in_full emitter apiKey voice audioFormat sessionID events cs v turnID outbound :
  let m := run_room apiKey audioFormat events cs (turn_ends emitter apiKey voice sessionID events turnID v) in
  let turn := named_turn turnID sessionID v in
  let h := listen nothing_heard (answers (rm_log m)) in
  let audio := audio_frames (frames_of (pushed_items (rm_log m) ++ outbound)) in
  Forall undisturbed cs -> at_rest v -> sg_interrupted (vs_stream v) = false -> rm_turn m = Ret (Ok outbound) ->
  (if String.eqb (TrimSpace (h_text h)) "" && (Z.of_nat (length (h_audio h)) <=? 0) then audio = []
   else exists ref raws ps, audio = TTSStart turn voice clientPlaybackRate "pcm" ref :: map BinaryFrame raws /\
          Forall2 (carries ref) raws ps /\ cut_of (reference (h_audio h)) ps) /\
  vs_utterances (rm_volc m) = vs_utterances v ++
    turn_rows (vs_nextSeq v) (TrimSpace (h_transcript h)) (TrimSpace (h_text h)) "" false.
Proof.
  intros m turn h audio Hb Hr Hi0 Hm.
  destruct (turn_spoken emitter apiKey voice audioFormat sessionID events cs v turnID outbound true)
    as (t & outcome & i & Ho & Hi & [Hf Hrows Hcalm _] & _); [done..|]. fold m h in Ho, Hi, Hf, Hrows.
  rewrite (Hcalm eq_refl) in *. destruct Hf as (returned & logID & ref & Ef & _ & _ & Ha). specialize (Ha eq_refl).
  assert (audio = audio_frames (frames_of (a_items t) ++ returned)) as ->.
  { unfold audio. by rewrite frames_of_app, Ef, <- Hi, app_assoc, audio_frames_app, app_nil_r. }
  split.
  - fold h in Ha. destruct (String.eqb (TrimSpace (h_text h)) "" && _); [done|].
    destruct Ha as (ps & (raws & E & Hraws) & Hcut). by exists ref, raws, ps.
  - apply (f_equal o_rows) in Ho. cbn [own o_rows] in Ho. rewrite Ho, Hrows. by unfold turn_rows; cbn [andb orb].
Qed.


(** ** Concrete turns *)

Definition reply_of (r : received) : VReply := mkVReply 0 true (Ok (2%nat, "log2"%string)) None None r.

(** The moves of a script: what the vendor says next, or a frame of the client. *)
Fixpoint drive (fuel : nat) (emitter : bool) (script : list (DuplexEvent + LoopFrame)) (m : Room) : list RoomMove :=
  match fuel with
  | O => []
  | S fuel =>
      let next cs script := cs ++ drive fuel emitter script (run_room "key" "pcm-s16le" 9 cs m) in
      match rm_turn m, script with
      | Ret _, [] => []
      | Do (Receive _) _, inl e :: script => next [TurnMoves (reply_of (Event e))] script
      | Do (Receive _) _, [] => next [TurnMoves (reply_of (SocketGone (Errorf "closed")))] []
      | _, inr f :: script' =>
          match rm_turn m with
          | Do (Receive _) _ | Ret _ =>
              next (LoopReads f :: repeat (LoopMoves (reply_of (Event (mkEvent "session.created" "s2" "" "" "" "")))) 20) script'
          | _ => next [TurnMoves (reply_of Expired)] script
          end
      | Ret _, inl _ :: _ => []
      | _, _ => next [TurnMoves (reply_of Expired)] script
      end
  end.

Definition heard_user (t : string) : DuplexEvent + LoopFrame :=
  inl (mkEvent "conversation.item.input_audio_transcription.completed" "" "" "" t "").
Definition said_text (t : string) : DuplexEvent + LoopFrame := inl (mkEvent "response.output_text.delta" "" t "" "" "").
Definition said_audio (b64 : string) : DuplexEvent + LoopFrame := inl (mkEvent "response.output_audio.delta" "" b64 "" "" "").
Definition said_done : DuplexEvent + LoopFrame := inl (mkEvent "response.done" "" "" "" "" "").

(** A session that was opened. *)
Definition opened_volc : Volc :=
  mkVolc (Some (mkDuplexSession 1 "s1" "log1")) "" Second 1 (Some NewSeqAllocator) (Some (mkTurnRef 0)) [] "t0"
    (mkUsage 0 0) false zero_time "" no_stream.

Definition scripted (emitter : bool) (script : list (DuplexEvent + LoopFrame)) : list RoomMove :=
  drive 200 emitter script (turn_ends emitter "key" "v" "session" 9 "t1" opened_volc).

Local Abbreviation played emitter script :=
  (run_room "key" "pcm-s16le" 9 (scripted emitter script) (turn_ends emitter "key" "v" "session" 9 "t1" opened_volc)).

Definition outbound_of (m : Room) : list Outbound :=
  match rm_turn m with Ret (Ok outbound) => outbound | _ => [] end.

Definition small_talk : list (DuplexEvent + LoopFrame) :=
  [heard_user "Hello."; said_text "Hi "; said_audio "AAECAwQFBgcICQ=="; said_text "there."; said_audio "CgsMDQ=="; said_done].

(** A turn with a barge-in: the learner starts to speak, and the client
    interrupts. *)
Definition barge_in : list (DuplexEvent + LoopFrame) :=
  [heard_user "Hello."; said_text "Hi "; said_audio "AAECAwQFBgcICQ=="; inr StartFrame; inr InterruptFrame;
   said_text "there."; said_audio "CgsMDQ=="; said_done].

(** Whether a script bears an interrupt, and no abort. *)
Definition bears (calm : bool) (c : RoomMove) : bool :=
  match c with
  | LoopReads (AbortFrame | Instruction _) => false
  | LoopReads InterruptFrame => negb calm
  | _ => true
  end.

Lemma bears_moves calm cs : forallb (bears calm) cs = true -> Forall (bearable_move calm) cs.
Proof.
  rewrite forallb_forall, Forall_forall. intros H c Hc. apply list_elem_of_In in Hc. specialize (H c Hc).
  destruct c as [|[]| |]; try done. by destruct calm.
Qed.

Lemma turn_stream_is_bracketed_witness :
  let m := played true barge_in in
  exists spoken outcome logID ms ref,
    frames_of (pushed_items (rm_log m) ++ outbound_of m) =
      spoken ++ [TTSEnd "t1" outcome ms ref; TurnEnd "t1" outcome logID false] /\ Forall speech spoken /\
    sg_framer (vs_stream (rm_volc m)) = None.
Proof.
  assert (forallb (bears false) (scripted true barge_in) = true) as Hb by (vm_compute; reflexivity).
  assert (rm_turn (played true barge_in) = Ret (Ok (outbound_of (played true barge_in)))) as Hm by (vm_compute; reflexivity).
  destruct (turn_stream_is_bracketed true "key" "v" "pcm-s16le" "session" 9 (scripted true barge_in) opened_volc "t1"
    (outbound_of (played true barge_in)) (bears_moves _ _ Hb) (conj eq_refl eq_refl) Hm)
    as [(spoken & outcome & logID & ms & ref & Ef & Hs & _) (uplink & mark & Es & _)].
  exists spoken, outcome, logID, ms, ref. split; [exact Ef|]. split; [exact Hs|]. by rewrite Es.
Defined.

Lemma reply_is_spoken_in_full_witness :
  let m := played true small_talk in
  h_audio (listen nothing_heard (answers (rm_log m))) = map byte_of [0;1;2;3;4;5;6;7;8;9;10;11;12;13] /\
  vs_utterances (rm_volc m) = vs_utterances opened_volc ++
    turn_rows 1 (TrimSpace (h_transcript (listen nothing_heard (answers (rm_log m)))))
      (TrimSpace (h_text (listen nothing_heard (answers (rm_log m))))) "" false.
Proof.
  assert (forallb (bears true) (scripted true small_talk) = true) as Hb by (vm_compute; reflexivity).
  assert (rm_turn (played true small_talk) = Ret (Ok (outbound_of (played true small_talk)))) as Hm by (vm_compute; reflexivity).
  destruct (reply_is_spoken_in_full true "key" "v" "pcm-s16le" "session" 9 (scripted true small_talk) opened_volc "t1"
    (outbound_of (played true small_talk)) (bears_moves _ _ Hb) (conj eq_refl eq_refl) eq_refl Hm) as [_ Hu].
  split; [vm_compute; reflexivity|exact Hu].
Defined.


(** The barge-in above: the row is marked, and holds the one delta that went out. *)
Example barge_in_row :
  vs_utterances (rm_volc (played true barge_in)) =
    [mkEndUtterance 1 "user" "Hello." false; mkEndUtterance 2 "ai" "Hi" true].
Proof. vm_compute. reflexivity. Qed.

Example small_talk_row :
  vs_utterances (rm_volc (played true small_talk)) =
    [mkEndUtterance 1 "user" "Hello." false; mkEndUtterance 2 "ai" "Hi there." false].
Proof. vm_compute. reflexivity. Qed.

(** ** What goes wrong *)

(** An interrupt that comes before the first text drops the deltas, and then the
    end of the turn sends the whole reply as one, which no row records. *)
Lemma interrupted_reply_is_sent_whole :
  let m := played true [heard_user "Hello."; inr InterruptFrame; said_text "Hi there."; said_done] in
  pushed_items (rm_log m) = [mkOutbound (Some (ASRTranscription "Hello." "t1")) [] "Hello."] /\
  In (TextDelta "Hi there." "t1" 0) (frames_of (outbound_of m)) /\
  map eu_Speaker (vs_utterances (rm_volc m)) = ["user"%string].
Proof. vm_compute. split; [reflexivity|]. split; [by left|reflexivity]. Qed.

(** The client interrupts the playback of a reply that was collected already: the
    mark stays, and the next reply is neither spoken nor recorded. *)
Lemma late_interrupt_mutes_next_reply :
  let rest := run_room "key" "pcm-s16le" 9
    (LoopReads StartFrame :: repeat (LoopMoves (reply_of Expired)) 9 ++
     LoopReads InterruptFrame :: repeat (LoopMoves (reply_of Expired)) 9)
    (mkRoom opened_volc (Ret (Ok [])) (Ret (Ok [])) [] []) in
  let m0 := turn_ends true "key" "v" "session" 9 "t1" (rm_volc rest) in
  let m := run_room "key" "pcm-s16le" 9 (drive 200 true small_talk m0) m0 in
  sg_collectingTurn (vs_stream (rm_volc rest)) = false /\
  audio_frames (frames_of (pushed_items (rm_log m) ++ outbound_of m)) = [] /\
  map eu_Speaker (vs_utterances (rm_volc m)) = ["user"%string].
Proof. vm_compute. by repeat split. Qed.

(** A barge-in that is then aborted: the abort forgets what was pushed and
    replaces the vendor session under the turn, whose end sends the cut reply
    again, spoken and recorded as if it had not been interrupted, and replaces
    the fresh session once more. *)
Definition aborted_barge_in : list (DuplexEvent + LoopFrame) :=
  [heard_user "Hello."; said_text "Hi "; said_audio "AAECAwQFBgcICQ=="; inr StartFrame; inr InterruptFrame; inr AbortFrame].

Lemma aborted_barge_in_is_replayed :
  let m := played true aborted_barge_in in
  let starts := List.filter (fun f => match f with TTSStart _ _ _ _ _ => true | _ => false end) in
  length (starts (frames_of (pushed_items (rm_log m)))) = 1%nat /\
  length (starts (frames_of (outbound_of m))) = 1%nat /\
  In (TextDelta "Hi" "session" 0) (frames_of (outbound_of m)) /\
  map eu_Interrupted (vs_utterances (rm_volc m)) = [false; false] /\
  length (List.filter (fun q : nat * Request => match q.2 with SessionCreate _ => true | _ => false end) (rm_asked m)) = 2%nat.
Proof.
  vm_compute. split; [reflexivity|]. split; [reflexivity|]. split; [by right; left|]. by split.
Qed.

(** Audio of a barge-in that arrives before the cut reply is collected is counted
    and then forgotten, so the turn it belongs to is given the wait of a turn
    without audio. *)
Lemma barge_in_audio_is_forgotten :
  let m := played true [heard_user "Hello."; said_text "Hi "; inr StartFrame; inr InterruptFrame;
                        inr (AudioChunk (repeat "000"%char 8)); said_done] in
  uplinkBytes (vs_usage (rm_volc m)) = 8 /\
  In (1%nat, AudioAppend (repeat "000"%char 8)) (rm_asked m) /\
  turnWait (sg_turnUplinkBytes (vs_stream (rm_volc m))) = emptyTurnWait.
Proof. vm_compute. split; [reflexivity|]. split; [|reflexivity]. by repeat first [left; reflexivity|right]. Qed.
