(* ===== verification/Wer.v ===== *)
(** * Word error rate ([internal/voicepoc])

    [wer.go] scores what a recogniser heard against what was said, by a
    Levenshtein table and a walk back through it; [wer_surface.go] first rewrites
    both into one spelling; [window.go] summarises the trials of the injection
    probe.  Slice lengths are [nat]: none comes near the width of an [int]. *)
From Stdlib Require Import SpecFloat.
From S2P Require Import Prelude GoString GoUnicode GoTime GoSort GoFloat.

Open Scope nat_scope.

(** ** Scoring *)

Record WERResult := mkWER {
  Substitutions : nat;
  Deletions : nat;
  Insertions : nat;
  Correct : nat;
  ReferenceLength : nat;
}.

Definition Errors (r : WERResult) : nat := Substitutions r + Deletions r + Insertions r.

Definition Rate (r : WERResult) : spec_float :=
  if ReferenceLength r =? 0 then float_of 0
  else float_div (float_of (Z.of_nat (Errors r))) (float_of (Z.of_nat (ReferenceLength r))).

(** The first row of [cost], and the one below [above] for the word [x] of the
    reference: [diag] and [left] are the entries before the column. *)
Definition first_row (hyp : list string) : list nat := seq 0 (S (length hyp)).

Fixpoint row_from (x : string) (diag left : nat) (above : list nat) (hyp : list string) : list nat :=
  match hyp, above with
  | y :: hyp, up :: above =>
      let c := if String.eqb x y then diag else Nat.min (diag + 1) (Nat.min (up + 1) (left + 1)) in
      c :: row_from x up c above hyp
  | _, _ => []
  end.

Definition next_row (x : string) (i : nat) (above : list nat) (hyp : list string) : list nat :=
  match above with
  | diag :: above => i :: row_from x diag i above hyp
  | [] => []
  end.

(** The rows [i], [i + 1], ... below [above]. *)
Fixpoint rows_from (i : nat) (above : list nat) (ref hyp : list string) : list (list nat) :=
  match ref with
  | [] => []
  | x :: ref => let row := next_row x i above hyp in row :: rows_from (S i) row ref hyp
  end.

Definition cost_table (ref hyp : list string) : list (list nat) :=
  first_row hyp :: rows_from 1 (first_row hyp) ref hyp.

(** [cost[i][j]]; out of range Go panics. *)
Definition cell (cost : list (list nat)) (i j : nat) : option nat := row ← cost !! i; row !! j.

Definition add_correct (r : WERResult) : WERResult :=
  mkWER (Substitutions r) (Deletions r) (Insertions r) (S (Correct r)) (ReferenceLength r).
Definition add_sub (r : WERResult) : WERResult :=
  mkWER (S (Substitutions r)) (Deletions r) (Insertions r) (Correct r) (ReferenceLength r).
Definition add_del (r : WERResult) : WERResult :=
  mkWER (Substitutions r) (S (Deletions r)) (Insertions r) (Correct r) (ReferenceLength r).
Definition add_ins (r : WERResult) : WERResult :=
  mkWER (Substitutions r) (Deletions r) (S (Insertions r)) (Correct r) (ReferenceLength r).

(** A guard of the walk: the entry up and left of [i, j] by [di, dj] plus [k] is
    the one at [i, j]. *)
Definition comes_from (cost : list (list nat)) (i j di dj k : nat) : option bool :=
  here ← cell cost i j; before ← cell cost (i - di) (j - dj); Some (here =? before + k).

Definition same_word (ref hyp : list string) (i j : nat) : option bool :=
  x ← ref !! (i - 1); y ← hyp !! (j - 1); Some (String.eqb x y).

(** The loop that walks back from [i, j]; every round goes up or left, so [i + j]
    rounds are enough.  [None]: an index out of range. *)
Fixpoint walk (fuel : nat) (cost : list (list nat)) (ref hyp : list string) (i j : nat) (r : WERResult)
  : option WERResult :=
  if (i =? 0) && (j =? 0) then Some r else
  match fuel with
  | O => None
  | S fuel =>
      let inner := negb (i =? 0) && negb (j =? 0) in
      same ← (if inner then (w ← same_word ref hyp i j; d ← comes_from cost i j 1 1 0; Some (w && d)) else Some false);
      if same : bool then walk fuel cost ref hyp (i - 1) (j - 1) (add_correct r) else
      sub ← (if inner then comes_from cost i j 1 1 1 else Some false);
      if sub : bool then walk fuel cost ref hyp (i - 1) (j - 1) (add_sub r) else
      del ← (if negb (i =? 0) then comes_from cost i j 1 0 1 else Some false);
      if del : bool then walk fuel cost ref hyp (i - 1) j (add_del r) else
      if j =? 0 then None else walk fuel cost ref hyp i (j - 1) (add_ins r)
  end.

Definition score (ref hyp : list string) : option WERResult :=
  match ref, hyp with
  | [], _ => Some (mkWER 0 0 0 0 0)
  | _, [] => Some (mkWER 0 (length ref) 0 0 (length ref))
  | _, _ =>
      walk (length ref + length hyp) (cost_table ref hyp) ref hyp (length ref) (length hyp)
        (mkWER 0 0 0 0 (length ref))
  end.

(** ** Tokens *)

(** [unicode.IsLetter(r) || unicode.IsDigit(r)]: the ranges of the categories L
    and Nd in Unicode 15.0, which package unicode has. *)
Definition letter_ranges : list (Z * Z) :=
  [(48,57); (65,90); (97,122); (170,170); (181,181); (186,186); (192,214); (216,246); (248,705); (710,721);
   (736,740); (748,748); (750,750); (880,884); (886,887); (890,893); (895,895); (902,902); (904,906);
   (908,908); (910,929); (931,1013); (1015,1153); (1162,1327); (1329,1366); (1369,1369); (1376,1416);
   (1488,1514); (1519,1522); (1568,1610); (1632,1641); (1646,1647); (1649,1747); (1749,1749); (1765,1766);
   (1774,1788); (1791,1791); (1808,1808); (1810,1839); (1869,1957); (1969,1969); (1984,2026); (2036,2037);
   (2042,2042); (2048,2069); (2074,2074); (2084,2084); (2088,2088); (2112,2136); (2144,2154); (2160,2183);
   (2185,2190); (2208,2249); (2308,2361); (2365,2365); (2384,2384); (2392,2401); (2406,2415); (2417,2432);
   (2437,2444); (2447,2448); (2451,2472); (2474,2480); (2482,2482); (2486,2489); (2493,2493); (2510,2510);
   (2524,2525); (2527,2529); (2534,2545); (2556,2556); (2565,2570); (2575,2576); (2579,2600); (2602,2608);
   (2610,2611); (2613,2614); (2616,2617); (2649,2652); (2654,2654); (2662,2671); (2674,2676); (2693,2701);
   (2703,2705); (2707,2728); (2730,2736); (2738,2739); (2741,2745); (2749,2749); (2768,2768); (2784,2785);
   (2790,2799); (2809,2809); (2821,2828); (2831,2832); (2835,2856); (2858,2864); (2866,2867); (2869,2873);
   (2877,2877); (2908,2909); (2911,2913); (2918,2927); (2929,2929); (2947,2947); (2949,2954); (2958,2960);
   (2962,2965); (2969,2970); (2972,2972); (2974,2975); (2979,2980); (2984,2986); (2990,3001); (3024,3024);
   (3046,3055); (3077,3084); (3086,3088); (3090,3112); (3114,3129); (3133,3133); (3160,3162); (3165,3165);
   (3168,3169); (3174,3183); (3200,3200); (3205,3212); (3214,3216); (3218,3240); (3242,3251); (3253,3257);
   (3261,3261); (3293,3294); (3296,3297); (3302,3311); (3313,3314); (3332,3340); (3342,3344); (3346,3386);
   (3389,3389); (3406,3406); (3412,3414); (3423,3425); (3430,3439); (3450,3455); (3461,3478); (3482,3505);
   (3507,3515); (3517,3517); (3520,3526); (3558,3567); (3585,3632); (3634,3635); (3648,3654); (3664,3673);
   (3713,3714); (3716,3716); (3718,3722); (3724,3747); (3749,3749); (3751,3760); (3762,3763); (3773,3773);
   (3776,3780); (3782,3782); (3792,3801); (3804,3807); (3840,3840); (3872,3881); (3904,3911); (3913,3948);
   (3976,3980); (4096,4138); (4159,4169); (4176,4181); (4186,4189); (4193,4193); (4197,4198); (4206,4208);
   (4213,4225); (4238,4238); (4240,4249); (4256,4293); (4295,4295); (4301,4301); (4304,4346); (4348,4680);
   (4682,4685); (4688,4694); (4696,4696); (4698,4701); (4704,4744); (4746,4749); (4752,4784); (4786,4789);
   (4792,4798); (4800,4800); (4802,4805); (4808,4822); (4824,4880); (4882,4885); (4888,4954); (4992,5007);
   (5024,5109); (5112,5117); (5121,5740); (5743,5759); (5761,5786); (5792,5866); (5873,5880); (5888,5905);
   (5919,5937); (5952,5969); (5984,5996); (5998,6000); (6016,6067); (6103,6103); (6108,6108); (6112,6121);
   (6160,6169); (6176,6264); (6272,6276); (6279,6312); (6314,6314); (6320,6389); (6400,6430); (6470,6509);
   (6512,6516); (6528,6571); (6576,6601); (6608,6617); (6656,6678); (6688,6740); (6784,6793); (6800,6809);
   (6823,6823); (6917,6963); (6981,6988); (6992,7001); (7043,7072); (7086,7141); (7168,7203); (7232,7241);
   (7245,7293); (7296,7304); (7312,7354); (7357,7359); (7401,7404); (7406,7411); (7413,7414); (7418,7418);
   (7424,7615); (7680,7957); (7960,7965); (7968,8005); (8008,8013); (8016,8023); (8025,8025); (8027,8027);
   (8029,8029); (8031,8061); (8064,8116); (8118,8124); (8126,8126); (8130,8132); (8134,8140); (8144,8147);
   (8150,8155); (8160,8172); (8178,8180); (8182,8188); (8305,8305); (8319,8319); (8336,8348); (8450,8450);
   (8455,8455); (8458,8467); (8469,8469); (8473,8477); (8484,8484); (8486,8486); (8488,8488); (8490,8493);
   (8495,8505); (8508,8511); (8517,8521); (8526,8526); (8579,8580); (11264,11492); (11499,11502);
   (11506,11507); (11520,11557); (11559,11559); (11565,11565); (11568,11623); (11631,11631); (11648,11670);
   (11680,11686); (11688,11694); (11696,11702); (11704,11710); (11712,11718); (11720,11726); (11728,11734);
   (11736,11742); (11823,11823); (12293,12294); (12337,12341); (12347,12348); (12353,12438); (12445,12447);
   (12449,12538); (12540,12543); (12549,12591); (12593,12686); (12704,12735); (12784,12799); (13312,19903);
   (19968,42124); (42192,42237); (42240,42508); (42512,42539); (42560,42606); (42623,42653); (42656,42725);
   (42775,42783); (42786,42888); (42891,42954); (42960,42961); (42963,42963); (42965,42969); (42994,43009);
   (43011,43013); (43015,43018); (43020,43042); (43072,43123); (43138,43187); (43216,43225); (43250,43255);
   (43259,43259); (43261,43262); (43264,43301); (43312,43334); (43360,43388); (43396,43442); (43471,43481);
   (43488,43492); (43494,43518); (43520,43560); (43584,43586); (43588,43595); (43600,43609); (43616,43638);
   (43642,43642); (43646,43695); (43697,43697); (43701,43702); (43705,43709); (43712,43712); (43714,43714);
   (43739,43741); (43744,43754); (43762,43764); (43777,43782); (43785,43790); (43793,43798); (43808,43814);
   (43816,43822); (43824,43866); (43868,43881); (43888,44002); (44016,44025); (44032,55203); (55216,55238);
   (55243,55291); (63744,64109); (64112,64217); (64256,64262); (64275,64279); (64285,64285); (64287,64296);
   (64298,64310); (64312,64316); (64318,64318); (64320,64321); (64323,64324); (64326,64433); (64467,64829);
   (64848,64911); (64914,64967); (65008,65019); (65136,65140); (65142,65276); (65296,65305); (65313,65338);
   (65345,65370); (65382,65470); (65474,65479); (65482,65487); (65490,65495); (65498,65500); (65536,65547);
   (65549,65574); (65576,65594); (65596,65597); (65599,65613); (65616,65629); (65664,65786); (66176,66204);
   (66208,66256); (66304,66335); (66349,66368); (66370,66377); (66384,66421); (66432,66461); (66464,66499);
   (66504,66511); (66560,66717); (66720,66729); (66736,66771); (66776,66811); (66816,66855); (66864,66915);
   (66928,66938); (66940,66954); (66956,66962); (66964,66965); (66967,66977); (66979,66993); (66995,67001);
   (67003,67004); (67072,67382); (67392,67413); (67424,67431); (67456,67461); (67463,67504); (67506,67514);
   (67584,67589); (67592,67592); (67594,67637); (67639,67640); (67644,67644); (67647,67669); (67680,67702);
   (67712,67742); (67808,67826); (67828,67829); (67840,67861); (67872,67897); (67968,68023); (68030,68031);
   (68096,68096); (68112,68115); (68117,68119); (68121,68149); (68192,68220); (68224,68252); (68288,68295);
   (68297,68324); (68352,68405); (68416,68437); (68448,68466); (68480,68497); (68608,68680); (68736,68786);
   (68800,68850); (68864,68899); (68912,68921); (69248,69289); (69296,69297); (69376,69404); (69415,69415);
   (69424,69445); (69488,69505); (69552,69572); (69600,69622); (69635,69687); (69734,69743); (69745,69746);
   (69749,69749); (69763,69807); (69840,69864); (69872,69881); (69891,69926); (69942,69951); (69956,69956);
   (69959,69959); (69968,70002); (70006,70006); (70019,70066); (70081,70084); (70096,70106); (70108,70108);
   (70144,70161); (70163,70187); (70208,70208); (70272,70278); (70280,70280); (70282,70285); (70287,70301);
   (70303,70312); (70320,70366); (70384,70393); (70405,70412); (70415,70416); (70419,70440); (70442,70448);
   (70450,70451); (70453,70457); (70461,70461); (70480,70480); (70493,70497); (70656,70708); (70727,70730);
   (70736,70745); (70751,70753); (70784,70831); (70852,70853); (70855,70855); (70864,70873); (71040,71086);
   (71128,71131); (71168,71215); (71236,71236); (71248,71257); (71296,71338); (71352,71352); (71360,71369);
   (71424,71450); (71472,71481); (71488,71494); (71680,71723); (71840,71913); (71935,71942); (71945,71945);
   (71948,71955); (71957,71958); (71960,71983); (71999,71999); (72001,72001); (72016,72025); (72096,72103);
   (72106,72144); (72161,72161); (72163,72163); (72192,72192); (72203,72242); (72250,72250); (72272,72272);
   (72284,72329); (72349,72349); (72368,72440); (72704,72712); (72714,72750); (72768,72768); (72784,72793);
   (72818,72847); (72960,72966); (72968,72969); (72971,73008); (73030,73030); (73040,73049); (73056,73061);
   (73063,73064); (73066,73097); (73112,73112); (73120,73129); (73440,73458); (73474,73474); (73476,73488);
   (73490,73523); (73552,73561); (73648,73648); (73728,74649); (74880,75075); (77712,77808); (77824,78895);
   (78913,78918); (82944,83526); (92160,92728); (92736,92766); (92768,92777); (92784,92862); (92864,92873);
   (92880,92909); (92928,92975); (92992,92995); (93008,93017); (93027,93047); (93053,93071); (93760,93823);
   (93952,94026); (94032,94032); (94099,94111); (94176,94177); (94179,94179); (94208,100343);
   (100352,101589); (101632,101640); (110576,110579); (110581,110587); (110589,110590); (110592,110882);
   (110898,110898); (110928,110930); (110933,110933); (110948,110951); (110960,111355); (113664,113770);
   (113776,113788); (113792,113800); (113808,113817); (119808,119892); (119894,119964); (119966,119967);
   (119970,119970); (119973,119974); (119977,119980); (119982,119993); (119995,119995); (119997,120003);
   (120005,120069); (120071,120074); (120077,120084); (120086,120092); (120094,120121); (120123,120126);
   (120128,120132); (120134,120134); (120138,120144); (120146,120485); (120488,120512); (120514,120538);
   (120540,120570); (120572,120596); (120598,120628); (120630,120654); (120656,120686); (120688,120712);
   (120714,120744); (120746,120770); (120772,120779); (120782,120831); (122624,122654); (122661,122666);
   (122928,122989); (123136,123180); (123191,123197); (123200,123209); (123214,123214); (123536,123565);
   (123584,123627); (123632,123641); (124112,124139); (124144,124153); (124896,124902); (124904,124907);
   (124909,124910); (124912,124926); (124928,125124); (125184,125251); (125259,125259); (125264,125273);
   (126464,126467); (126469,126495); (126497,126498); (126500,126500); (126503,126503); (126505,126514);
   (126516,126519); (126521,126521); (126523,126523); (126530,126530); (126535,126535); (126537,126537);
   (126539,126539); (126541,126543); (126545,126546); (126548,126548); (126551,126551); (126553,126553);
   (126555,126555); (126557,126557); (126559,126559); (126561,126562); (126564,126564); (126567,126570);
   (126572,126578); (126580,126583); (126585,126588); (126590,126590); (126592,126601); (126603,126619);
   (126625,126627); (126629,126633); (126635,126651); (130032,130041); (131072,173791); (173824,177977);
   (177984,178205); (178208,183969); (183984,191456); (194560,195101); (196608,201546); (201552,205743)]%Z.

Definition letter_or_digit (r : Z) : bool := existsb (fun g : Z * Z => in_range g.1 r g.2) letter_ranges.

Definition apostrophe (r : Z) : bool := ((r =? 39) || (r =? 8217))%Z.

Definition token (cur : list Z) : list string :=
  match cur with [] => [] | _ => [ToLower (of_bytes (encode_runes cur))] end.

(** [cur]: the runes of [current]. *)
Fixpoint tokens_from (cur : list Z) (rs : list Z) : list string :=
  match rs with
  | [] => token cur
  | r :: rs =>
      if letter_or_digit r then tokens_from (cur ++ [r]) rs
      else if apostrophe r then tokens_from cur rs
      else token cur ++ tokens_from [] rs
  end.

Definition TokenizeWER (text : string) : list string := tokens_from [] (runes (to_bytes text)).

Definition ScoreWER (reference hypothesis : string) : option WERResult :=
  score (TokenizeWER reference) (TokenizeWER hypothesis).

(** ** One spelling *)

Definition contractionExpansions : list (string * string) :=
  [("i've", "i have"); ("i'm", "i am"); ("i'll", "i will"); ("i'd", "i would"); ("you've", "you have");
   ("you're", "you are"); ("you'll", "you will"); ("you'd", "you would"); ("we've", "we have");
   ("we're", "we are"); ("we'll", "we will"); ("we'd", "we would"); ("they've", "they have");
   ("they're", "they are"); ("they'll", "they will"); ("he's", "he is"); ("she's", "she is");
   ("it's", "it is"); ("that's", "that is"); ("there's", "there is"); ("what's", "what is");
   ("who's", "who is"); ("where's", "where is"); ("how's", "how is"); ("let's", "let us"); ("don't", "do not");
   ("doesn't", "does not"); ("didn't", "did not"); ("can't", "cannot"); ("won't", "will not");
   ("isn't", "is not"); ("aren't", "are not"); ("wasn't", "was not"); ("weren't", "were not");
   ("hasn't", "has not"); ("haven't", "have not"); ("hadn't", "had not"); ("couldn't", "could not");
   ("wouldn't", "would not"); ("shouldn't", "should not")]%string.

Definition compoundParts : list (string * list string) :=
  [("cleanup", ["clean"; "up"]); ("backend", ["back"; "end"])]%string.

Definition assoc {A} (key : string) (table : list (string * A)) : option A :=
  option_map snd (List.find (fun e => String.eqb key e.1) table).

(** [[A-Za-z0-9']] *)
Definition surface_byte (a : ascii) : bool :=
  let b := byte_val a in
  (in_range 65 b 90 || in_range 97 b 122 || in_range 48 b 57 || (b =? 39)%Z).

Definition expand_word (cur : bytes) : bytes :=
  match cur with
  | [] => []
  | _ => to_bytes (default (of_bytes cur) (assoc (ToLower (of_bytes cur)) contractionExpansions))
  end.

(** Each longest run of surface bytes; [cur] is the one being read. *)
Fixpoint expand_from (cur l : bytes) : bytes :=
  match l with
  | [] => expand_word cur
  | a :: l => if surface_byte a then expand_from (cur ++ [a]) l else expand_word cur ++ a :: expand_from [] l
  end.

Definition expandContractions (text : string) : string := of_bytes (expand_from [] (to_bytes text)).

Definition ones : list string :=
  ["zero"; "one"; "two"; "three"; "four"; "five"; "six"; "seven"; "eight"; "nine"; "ten"; "eleven"; "twelve";
   "thirteen"; "fourteen"; "fifteen"; "sixteen"; "seventeen"; "eighteen"; "nineteen"]%string.
Definition tens : list string :=
  [""; ""; "twenty"; "thirty"; "forty"; "fifty"; "sixty"; "seventy"; "eighty"; "ninety"; "hundred"]%string.

(** The decimal digits of [strconv.Atoi], and its optional sign. *)
Fixpoint decimal (acc : Z) (l : bytes) : option Z :=
  match l with
  | [] => Some acc
  | a :: l => let b := byte_val a in if in_range 48 b 57 then decimal (10 * acc + (b - 48))%Z l else None
  end.

Definition Atoi (s : string) : option Z :=
  let unsigned l := match l with [] => None | _ => decimal 0 l end in
  let n := match to_bytes s with
           | "+"%char :: l => unsigned l
           | "-"%char :: l => option_map Z.opp (unsigned l)
           | l => unsigned l
           end in
  match n with
  | Some n => if (min_int64 <=? n)%Z && (n <=? max_int64)%Z then Some n else None
  | None => None
  end.

Definition numberWords (token : string) : option (list string) :=
  match Atoi token with
  | None => None
  | Some n =>
      if ((n <? 0) || (100 <? n))%Z then None else
      let n := Z.to_nat n in
      if n <? 20 then Some [nth n ones ""%string]
      else if n mod 10 =? 0 then Some [nth (n / 10) tens ""%string]
      else Some [nth (n / 10) tens ""%string; nth (n mod 10) ones ""%string]
  end.

Definition normal_words (tok : string) : list string :=
  match numberWords tok with
  | Some words => words
  | None => default [tok] (assoc tok compoundParts)
  end.

Definition NormalizeSurface (text : string) : string :=
  String.concat " " (concat (map normal_words (TokenizeWER (expandContractions text)))).

Definition ScoreWERNormalized (reference hypothesis : string) : option WERResult :=
  ScoreWER (NormalizeSurface reference) (NormalizeSurface hypothesis).

(** ** The injection window *)

Record InjectTrial := mkTrial {
  DelayMS : Z;
  AffectedSameTurn : bool;
  AffectedNextTurn : bool;
}.

Inductive Tier := TierSameTurnConfirm | TierNextTurnConfirm | TierBadgeOnly.

Record WindowReport := mkReport {
  EffectiveMaxMS : Z;
  WindowP50MS : Z;
  WindowP90MS : Z;
  SameTurnHitRate : spec_float;
  NextTurnHitRate : spec_float;
  WindowTier : Tier;
  CredentialMode : string;
}.

(** Nearest rank, counted from one. *)
Definition percentileNearestRank (sorted : list Z) (p : Z) : Z :=
  let n := Z.of_nat (length sorted) in
  match sorted with
  | [] => 0
  | first :: _ =>
      if p <=? 0 then first
      else if 100 <=? p then List.last sorted 0
      else
        let rank := Z.quot (p * n + 99) 100 in
        let rank := if rank <? 1 then 1 else rank in
        let rank := if n <? rank then n else rank in
        nth (Z.to_nat (rank - 1)) sorted 0
  end%Z.

Definition SummarizeTrials (provider : string) (trials : list InjectTrial) : WindowReport :=
  let same := List.filter AffectedSameTurn trials in
  let effective := merge_sort Z.le (map DelayMS same) in
  let sameHits := length same in
  let nextHits := length (List.filter AffectedNextTurn trials) in
  let n := length trials in
  let rate hits := if n =? 0 then float_of 0 else float_div (float_of (Z.of_nat hits)) (float_of (Z.of_nat n)) in
  let maxEffective := foldl Z.max 0%Z (map DelayMS same) in
  let mode := if (String.eqb provider "" || String.eqb provider "mock" || String.eqb provider "mock-closed")%string
              then "mock"%string else "live"%string in
  let report p50 p90 tier := mkReport maxEffective p50 p90 (rate sameHits) (rate nextHits) tier mode in
  if sameHits =? 0 then report 0%Z 0%Z (if 0 <? nextHits then TierNextTurnConfirm else TierBadgeOnly)
  else
    let p90 := percentileNearestRank effective 90 in
    report (percentileNearestRank effective 50) p90 (if (800 <=? p90)%Z then TierSameTurnConfirm else TierNextTurnConfirm).

(** ** Alignments

    What the score counts: the ways to turn the reference into the hypothesis
    word by word. *)
Inductive align : list string -> list string -> nat -> nat -> nat -> nat -> Prop :=
| align_nil : align [] [] 0 0 0 0
| align_correct x a b s d i c : align a b s d i c -> align (x :: a) (x :: b) s d i (S c)
| align_sub x y a b s d i c : align a b s d i c -> align (x :: a) (y :: b) (S s) d i c
| align_del x a b s d i c : align a b s d i c -> align (x :: a) b s (S d) i c
| align_ins y a b s d i c : align a b s d i c -> align a (y :: b) s d (S i) c.

Lemma align_app a b s d i c a' b' s' d' i' c' : align a b s d i c -> align a' b' s' d' i' c' ->
  align (a ++ a') (b ++ b') (s + s') (d + d') (i + i') (c + c').
Proof. intros H H'. induction H; cbn; [done|by constructor..]. Qed.

Lemma align_rev a b s d i c : align a b s d i c -> align (rev a) (rev b) s d i c.
Proof.
  induction 1 as [|x a b s d i c _ IH|x y a b s d i c _ IH|x a b s d i c _ IH|y a b s d i c _ IH]; cbn.
  - constructor.
  - rewrite <- (Nat.add_0_r s), <- (Nat.add_0_r d), <- (Nat.add_0_r i), <- (Nat.add_1_r c).
    apply align_app; [done|]. repeat constructor.
  - rewrite <- (Nat.add_1_r s), <- (Nat.add_0_r d), <- (Nat.add_0_r i), <- (Nat.add_0_r c).
    apply align_app; [done|]. repeat constructor.
  - rewrite <- (Nat.add_0_r s), <- (Nat.add_1_r d), <- (Nat.add_0_r i), <- (Nat.add_0_r c), <- (app_nil_r (rev b)).
    apply align_app; [done|]. repeat constructor.
  - rewrite <- (Nat.add_0_r s), <- (Nat.add_0_r d), <- (Nat.add_1_r i), <- (Nat.add_0_r c), <- (app_nil_r (rev a)).
    apply align_app; [done|]. repeat constructor.
Qed.

(** Every word is accounted for. *)
Lemma align_lengths a b s d i c : align a b s d i c -> s + d + c = length a /\ s + i + c = length b.
Proof. induction 1; cbn; lia. Qed.

(** ** The edit distance *)

(** By the recurrence of the table, on reversed lists. *)
Fixpoint edit (a : list string) : list string -> nat :=
  match a with
  | [] => fun b => length b
  | x :: a => fix inner b :=
      match b with
      | [] => S (length a)
      | y :: b => if String.eqb x y then edit a b
                  else Nat.min (edit a b + 1) (Nat.min (edit a (y :: b) + 1) (inner b + 1))
      end
  end.

Lemma edit_cons x y a b : edit (x :: a) (y :: b) =
  if String.eqb x y then edit a b
  else Nat.min (edit a b + 1) (Nat.min (edit a (y :: b) + 1) (edit (x :: a) b + 1)).
Proof. done. Qed.

Lemma edit_nil_l b : edit [] b = length b.
Proof. done. Qed.

Lemma edit_nil_r a : edit a [] = length a.
Proof. by destruct a. Qed.

Lemma edit_sym a b : edit a b = edit b a.
Proof.
  revert b. induction a as [|x a IHa]; intros b; [by rewrite edit_nil_r|].
  induction b as [|y b IHb]; [done|]. rewrite !edit_cons, (String.eqb_sym y x).
  destruct (String.eqb x y); [apply IHa|]. rewrite (IHa b), (IHa (y :: b)), IHb. lia.
Qed.

(** One more word changes the distance by at most one. *)
Lemma edit_step n : forall x a b, length a + length b <= n ->
  edit (x :: a) b <= S (edit a b) /\ edit a b <= S (edit (x :: a) b).
Proof.
  induction n as [|n IH]; intros x a b Hn.
  { destruct a, b; cbn in *; lia. }
  destruct b as [|y b]; [rewrite !edit_nil_r; cbn; lia|].
  assert (edit a (y :: b) <= S (edit a b) /\ edit a b <= S (edit a (y :: b))) as [H1 H2].
  { rewrite (edit_sym a (y :: b)), (edit_sym a b). apply IH. cbn in *. lia. }
  assert (edit (x :: a) b <= S (edit a b) /\ edit a b <= S (edit (x :: a) b)) as [H3 H4] by (apply IH; cbn in *; lia).
  rewrite edit_cons. destruct (String.eqb x y); lia.
Qed.

(** No alignment costs less than the distance. *)
Lemma align_edit a b s d i c : align a b s d i c -> edit a b <= s + d + i.
Proof.
  induction 1 as [|x a b s d i c _ IH|x y a b s d i c _ IH|x a b s d i c _ IH|y a b s d i c _ IH].
  - done.
  - rewrite edit_cons, String.eqb_refl. done.
  - rewrite edit_cons. destruct (String.eqb x y); lia.
  - pose proof (edit_step _ x a b (le_n _)). lia.
  - rewrite edit_sym. pose proof (edit_step _ y b a (le_n _)) as H. rewrite (edit_sym b a) in H. lia.
Qed.

(** ** The table holds the distances of the prefixes *)

Fixpoint row_of (a b : list string) (hyp : list string) : list nat :=
  match hyp with
  | [] => []
  | y :: hyp => edit a (y :: b) :: row_of a (y :: b) hyp
  end.

Definition full_row (a hyp : list string) : list nat := edit a [] :: row_of a [] hyp.

Lemma row_from_spec x a b hyp : row_from x (edit a b) (edit (x :: a) b) (row_of a b hyp) hyp = row_of (x :: a) b hyp.
Proof.
  revert b. induction hyp as [|y hyp IH]; intros b; [done|]. cbn [row_of row_from].
  assert (edit (x :: a) (y :: b) = if String.eqb x y then edit a b else
    Nat.min (edit a b + 1) (Nat.min (edit a (y :: b) + 1) (edit (x :: a) b + 1))) as <- by apply edit_cons.
  by rewrite IH.
Qed.

Lemma next_row_spec x a hyp : next_row x (S (length a)) (full_row a hyp) hyp = full_row (x :: a) hyp.
Proof. exact (f_equal (cons _) (row_from_spec x a [] hyp)). Qed.

Lemma first_row_spec hyp : first_row hyp = full_row [] hyp.
Proof.
  unfold first_row, full_row. cbn [seq edit length]. f_equal.
  assert (forall b, seq (S (length b)) (length hyp) = row_of [] b hyp) as H; [|by apply (H [])].
  induction hyp as [|y hyp IH]; intros b; [done|]. cbn [seq length row_of edit]. f_equal. apply (IH (y :: b)).
Qed.

Lemma rows_lookup ref hyp a k : k <= length ref ->
  (full_row a hyp :: rows_from (S (length a)) (full_row a hyp) ref hyp) !! k = Some (full_row (rev (take k ref) ++ a) hyp).
Proof.
  revert a k. induction ref as [|x ref IH]; intros a k Hk.
  { assert (k = 0) as -> by (cbn in Hk; lia). done. }
  destruct k as [|k]; [done|]. cbn [lookup list_lookup rows_from take rev]. rewrite next_row_spec, <- app_assoc.
  apply (IH (x :: a)). cbn in Hk. lia.
Qed.

Lemma row_lookup a b hyp j : j <= length hyp ->
  (edit a b :: row_of a b hyp) !! j = Some (edit a (rev (take j hyp) ++ b)).
Proof.
  revert b j. induction hyp as [|y hyp IH]; intros b j Hj.
  { assert (j = 0) as -> by (cbn in Hj; lia). done. }
  destruct j as [|j]; [done|]. cbn [lookup list_lookup row_of take rev]. rewrite <- app_assoc.
  apply (IH (y :: b)). cbn in Hj. lia.
Qed.

(** The distance of two prefixes. *)
Definition dist (ref hyp : list string) (i j : nat) : nat := edit (rev (take i ref)) (rev (take j hyp)).

Lemma cell_spec ref hyp i j : i <= length ref -> j <= length hyp -> cell (cost_table ref hyp) i j = Some (dist ref hyp i j).
Proof.
  intros Hi Hj. unfold cell, cost_table. rewrite first_row_spec.
  pose proof (rows_lookup ref hyp [] i Hi) as Hr. rewrite app_nil_r in Hr. cbn [length] in Hr. rewrite Hr.
  cbn [mbind option_bind]. unfold full_row. rewrite row_lookup by done. unfold dist. by rewrite app_nil_r.
Qed.

Lemma take_snoc {A} (l : list A) i x : l !! i = Some x -> take (S i) l = take i l ++ [x].
Proof. apply take_S_r. Qed.

Lemma dist_step ref hyp i j x y : ref !! i = Some x -> hyp !! j = Some y ->
  dist ref hyp (S i) (S j) =
    if String.eqb x y then dist ref hyp i j
    else Nat.min (dist ref hyp i j + 1) (Nat.min (dist ref hyp i (S j) + 1) (dist ref hyp (S i) j + 1)).
Proof.
  intros Hx Hy. unfold dist. rewrite (take_snoc _ _ _ Hx), (take_snoc _ _ _ Hy), !rev_app_distr. cbn [rev app].
  apply edit_cons.
Qed.

(** ** The walk finds a cheapest alignment *)

Definition counts (r : WERResult) (s d i c : nat) : WERResult :=
  mkWER (Substitutions r + s) (Deletions r + d) (Insertions r + i) (Correct r + c) (ReferenceLength r).

(** From [i, j] the walk counts an alignment of the prefixes that costs their
    distance. *)
Definition walked (ref hyp : list string) (i j : nat) (r : WERResult) (out : option WERResult) : Prop :=
  exists s d n c, out = Some (counts r s d n c) /\ align (take i ref) (take j hyp) s d n c /\ s + d + n = dist ref hyp i j.

Lemma align_snoc a b s d n c a' b' s' d' n' c' : align a b s d n c -> align a' b' s' d' n' c' ->
  forall s2 d2 n2 c2, s2 = s + s' -> d2 = d + d' -> n2 = n + n' -> c2 = c + c' -> align (a ++ a') (b ++ b') s2 d2 n2 c2.
Proof. intros H H' ? ? ? ? -> -> -> ->. by apply align_app. Qed.

Lemma walked_correct ref hyp i j x r out : ref !! i = Some x -> hyp !! j = Some x ->
  walked ref hyp i j (add_correct r) out -> walked ref hyp (S i) (S j) r out.
Proof.
  intros Hx Hy (s & d & n & c & -> & Ha & Hd). exists s, d, n, (S c). rewrite (dist_step _ _ _ _ _ _ Hx Hy), String.eqb_refl.
  split; [unfold counts; cbn; do 2 f_equal; lia|]. split; [|done].
  rewrite (take_snoc _ _ _ Hx), (take_snoc _ _ _ Hy).
  eapply align_snoc; [exact Ha|apply align_correct, align_nil| | | |]; lia.
Qed.

Lemma walked_sub ref hyp i j x y r out : ref !! i = Some x -> hyp !! j = Some y ->
  dist ref hyp (S i) (S j) = dist ref hyp i j + 1 ->
  walked ref hyp i j (add_sub r) out -> walked ref hyp (S i) (S j) r out.
Proof.
  intros Hx Hy E (s & d & n & c & -> & Ha & Hd). exists (S s), d, n, c.
  split; [unfold counts; cbn; do 2 f_equal; lia|]. split; [|lia].
  rewrite (take_snoc _ _ _ Hx), (take_snoc _ _ _ Hy).
  eapply align_snoc; [exact Ha|apply align_sub, align_nil| | | |]; lia.
Qed.

Lemma walked_del ref hyp i j x r out : ref !! i = Some x -> dist ref hyp (S i) j = dist ref hyp i j + 1 ->
  walked ref hyp i j (add_del r) out -> walked ref hyp (S i) j r out.
Proof.
  intros Hx E (s & d & n & c & -> & Ha & Hd). exists s, (S d), n, c.
  split; [unfold counts; cbn; do 2 f_equal; lia|]. split; [|lia].
  rewrite (take_snoc _ _ _ Hx), <- (app_nil_r (take j hyp)).
  eapply align_snoc; [exact Ha|apply align_del, align_nil| | | |]; lia.
Qed.

Lemma walked_ins ref hyp i j y r out : hyp !! j = Some y -> dist ref hyp i (S j) = dist ref hyp i j + 1 ->
  walked ref hyp i j (add_ins r) out -> walked ref hyp i (S j) r out.
Proof.
  intros Hy E (s & d & n & c & -> & Ha & Hd). exists s, d, (S n), c.
  split; [unfold counts; cbn; do 2 f_equal; lia|]. split; [|lia].
  rewrite (take_snoc _ _ _ Hy), <- (app_nil_r (take i ref)).
  eapply align_snoc; [exact Ha|apply align_ins, align_nil| | | |]; lia.
Qed.

Lemma comes_from_spec ref hyp i j di dj k : i <= length ref -> j <= length hyp ->
  comes_from (cost_table ref hyp) i j di dj k = Some (dist ref hyp i j =? dist ref hyp (i - di) (j - dj) + k).
Proof. intros Hi Hj. unfold comes_from. rewrite !cell_spec by lia. done. Qed.

Lemma walk_spec ref hyp fuel : forall i j r, i + j <= fuel -> i <= length ref -> j <= length hyp ->
  walked ref hyp i j r (walk fuel (cost_table ref hyp) ref hyp i j r).
Proof.
  induction fuel as [|fuel IH]; intros i j r Hf Hi Hj.
  { assert (i = 0) as -> by lia. assert (j = 0) as -> by lia. exists 0, 0, 0, 0. cbn.
    split; [destruct r; unfold counts; cbn; do 2 f_equal; lia|]. by repeat constructor. }
  destruct i as [|i], j as [|j].
  - exists 0, 0, 0, 0. cbn. split; [destruct r; unfold counts; cbn; do 2 f_equal; lia|]. by repeat constructor.
  - destruct (lookup_lt_is_Some_2 hyp j) as [y Hy]; [lia|].
    cbn [walk Nat.eqb andb negb mbind option_bind]. rewrite Nat.sub_succ, Nat.sub_0_r.
    eapply walked_ins; [exact Hy| |apply IH; lia]. unfold dist. rewrite take_0. cbn [rev]. rewrite !edit_nil_l, !length_rev, !length_take. lia.
  - destruct (lookup_lt_is_Some_2 ref i) as [x Hx]; [lia|].
    cbn [walk Nat.eqb andb negb mbind option_bind]. rewrite comes_from_spec by lia. cbn [mbind option_bind].
    rewrite Nat.sub_succ, !Nat.sub_0_r.
    assert (dist ref hyp (S i) 0 = dist ref hyp i 0 + 1) as E.
    { unfold dist. rewrite take_0. cbn [rev]. rewrite !edit_nil_r, !length_rev, !length_take. lia. }
    rewrite E, Nat.eqb_refl. eapply walked_del; [exact Hx|exact E|]. apply IH; lia.
  - destruct (lookup_lt_is_Some_2 ref i) as [x Hx]; [lia|]. destruct (lookup_lt_is_Some_2 hyp j) as [y Hy]; [lia|].
    pose proof (dist_step _ _ _ _ _ _ Hx Hy) as E.
    cbn [walk Nat.eqb andb negb]. unfold same_word. rewrite !comes_from_spec by lia. rewrite !Nat.sub_succ, !Nat.sub_0_r, Hx, Hy.
    cbn [mbind option_bind]. rewrite Nat.add_0_r.
    destruct (String.eqb_spec x y) as [->|Hne].
    + rewrite E, Nat.eqb_refl. cbn [andb]. eapply walked_correct; [exact Hx|exact Hy|]. apply IH; lia.
    + cbn [andb]. destruct (Nat.eqb_spec (dist ref hyp (S i) (S j)) (dist ref hyp i j + 1)) as [E1|E1].
      { eapply walked_sub; [exact Hx|exact Hy|exact E1|]. apply IH; lia. }
      destruct (Nat.eqb_spec (dist ref hyp (S i) (S j)) (dist ref hyp i (S j) + 1)) as [E2|E2].
      { eapply walked_del; [exact Hx|exact E2|]. apply IH; lia. }
      eapply walked_ins; [exact Hy| |apply IH; lia]. lia.
Qed.

(** ** What a score says *)

Lemma align_equal a b : align a b 0 0 0 (length a) -> a = b.
Proof.
  remember 0 as s eqn:Es in |- * at 1. remember 0 as d eqn:Ed in |- * at 1. remember 0 as i eqn:Ei in |- * at 1.
  intros H. generalize dependent (length a). intros c H. induction H; try done. f_equal. by apply IHalign.
Qed.

Lemma align_dels a : align a [] 0 (length a) 0 0.
Proof. induction a; cbn; by constructor. Qed.

Lemma score_spec ref hyp : ref <> [] -> exists r, score ref hyp = Some r /\ ReferenceLength r = length ref /\
  align ref hyp (Substitutions r) (Deletions r) (Insertions r) (Correct r) /\ Errors r = edit (rev ref) (rev hyp).
Proof.
  intros Hne. destruct ref as [|x ref]; [done|]. destruct hyp as [|y hyp].
  - eexists. split; [done|]. split; [done|]. split; [exact (align_dels (x :: ref))|].
    unfold Errors. cbn [Substitutions Deletions Insertions]. rewrite edit_nil_r, length_rev. lia.
  - set (a := x :: ref). set (b := y :: hyp). change (score a b) with
      (walk (length a + length b) (cost_table a b) a b (length a) (length b) (mkWER 0 0 0 0 (length a))).
    destruct (walk_spec a b (length a + length b) (length a) (length b) (mkWER 0 0 0 0 (length a)))
      as (s & d & n & c & -> & Ha & Hd); [lia..|].
    eexists. split; [done|]. unfold dist in Hd. rewrite !take_ge in Ha, Hd by lia. by repeat split.
Qed.

(** C40: The scorer always answers, and its counts are those of a cheapest
    alignment: they align the words of the reference with the words heard, so
    every word is accounted for once, and no alignment has fewer errors; there
    are none exactly when the words are the same.  Without a reference it counts
    nothing. *)
Theorem score_is_cheapest_alignment reference hypothesis :
  let ref := TokenizeWER reference in
  let hyp := TokenizeWER hypothesis in
  exists r, ScoreWER reference hypothesis = Some r /\ ReferenceLength r = length ref /\
    if bool_decide (ref = []) then r = mkWER 0 0 0 0 0
    else align ref hyp (Substitutions r) (Deletions r) (Insertions r) (Correct r) /\
         Substitutions r + Deletions r + Correct r = length ref /\ Substitutions r + Insertions r + Correct r = length hyp /\
         (forall s d i c, align ref hyp s d i c -> Errors r <= s + d + i) /\
         (Errors r = 0 <-> ref = hyp).
Proof.
  intros ref hyp. unfold ScoreWER. fold ref hyp. destruct (bool_decide_reflect (ref = [])) as [->|Hne].
  { by exists (mkWER 0 0 0 0 0). }
  destruct (score_spec ref hyp Hne) as (r & -> & Hl & Ha & He). exists r. split; [done|]. split; [done|]. split; [done|].
  destruct (align_lengths _ _ _ _ _ _ Ha) as [H1 H2]. split; [done|]. split; [done|].
  assert (forall s d i c, align ref hyp s d i c -> Errors r <= s + d + i) as Hmin.
  { intros s d i c H. rewrite He. apply (align_edit (rev ref) (rev hyp) s d i c). by apply align_rev. }
  split; [exact Hmin|]. split.
  - intros E. unfold Errors in E. apply align_equal. assert (Correct r = length ref) as <- by lia.
    assert (Substitutions r = 0) as Es by lia. assert (Deletions r = 0) as Ed by lia. assert (Insertions r = 0) as Ei by lia.
    by rewrite Es, Ed, Ei in Ha.
  - intros E. assert (align ref hyp 0 0 0 (length ref)) as H.
    { rewrite <- E. clear. induction ref; cbn; by constructor. }
    apply Hmin in H. lia.
Qed.

Example formatting_is_no_error :
  ScoreWERNormalized "I've got 3 cleanup tasks, it's 21." "i have got three clean up tasks it is twenty one" =
    Some (mkWER 0 0 0 11 11).
Proof. vm_compute. reflexivity. Qed.

(** A contraction with a typographic apostrophe, which the tokenizer takes for
    one, is not expanded. *)
Lemma curly_contraction_counts_as_error :
  let curly := (String "226" (String "128" (String "153" "")))%char in
  option_map Errors (ScoreWERNormalized ("it" +:+ curly +:+ "s fine") "it is fine") = Some 2 /\
  option_map Errors (ScoreWERNormalized "it's fine" "it is fine") = Some 0.
Proof. vm_compute. by split. Qed.

(** At least [p] percent of the sorted values are at most the percentile, which is
    one of them. *)
Lemma percentile_covers sorted p : Sorted Z.le sorted -> sorted <> [] -> (0 < p < 100)%Z ->
  exists k, nth_error sorted k = Some (percentileNearestRank sorted p) /\
    (p * Z.of_nat (length sorted) <= 100 * Z.of_nat (S k))%Z /\
    forall j x, j <= k -> nth_error sorted j = Some x -> (x <= percentileNearestRank sorted p)%Z.
Proof.
  intros Hs Hne Hp. set (n := Z.of_nat (length sorted)). assert (0 < n)%Z as Hn by (destruct sorted; [done|cbn in n; lia]).
  set (rank := Z.quot (p * n + 99) 100). pose proof (Z.quot_div_nonneg (p * n + 99) 100 ltac:(nia) ltac:(lia)) as Eq.
  pose proof (Z.div_mod (p * n + 99) 100 ltac:(lia)) as Hdm. pose proof (Z.mod_pos_bound (p * n + 99) 100 ltac:(lia)) as Hmb.
  assert (1 <= rank <= n)%Z as Hr by (unfold rank; rewrite Eq; nia).
  assert (percentileNearestRank sorted p = nth (Z.to_nat (rank - 1)) sorted 0%Z) as E.
  { unfold percentileNearestRank. destruct sorted as [|x l]; [done|]. fold n rank.
    rewrite (proj2 (Z.leb_gt p 0)), (proj2 (Z.leb_gt 100 p)) by lia.
    rewrite (proj2 (Z.ltb_ge rank 1)), (proj2 (Z.ltb_ge n rank)) by lia. done. }
  exists (Z.to_nat (rank - 1)). rewrite E.
  assert (Z.to_nat (rank - 1) < length sorted) as Hk by lia.
  split; [by apply nth_error_nth'|]. split; [unfold rank in *; rewrite Eq in *; nia|].
  intros j x Hj Hx. apply Sorted_StronglySorted in Hs; [|intros a b c; lia].
  clear -Hs Hj Hx Hk. revert j Hj Hx. generalize dependent (Z.to_nat (rank - 1)). clear rank.
  induction Hs as [|a l Hs IH Ha]; intros k Hk j Hj Hx; [cbn in Hk; lia|]. destruct k as [|k], j as [|j]; cbn in *.
  - by injection Hx as ->.
  - lia.
  - injection Hx as <-. rewrite Forall_forall in Ha. apply Ha, list_elem_of_In, nth_In. lia.
  - apply (IH k ltac:(lia) j); [lia|done].
Qed.
