(* ===== verification/Tts.v ===== *)
(** * Text to speech ([internal/content/tts])

    [manager.go], [router.go], [provider.go], [voices.go], [collect.go],
    [httpstatus.go] and the handler of [http.go].  The vendors behind a
    [Provider] answer arbitrarily: a stream is the list of chunks it will yield.
    The manager is shared by every request; its fields are atomics, so each
    access is one step and requests interleave between them. *)
From Stdlib Require Import SpecFloat.
From S2P Require Import Prelude Prog GoString GoTime GoSort GoFloat GoBase64 GoCrypto ApiErr.

Open Scope Z_scope.
Open Scope prog_scope.

(** ** Voices and chunks *)

Record VoiceConfig := mkVoice { vc_VoiceID : string; vc_Speed : spec_float }.

Definition DefaultSpeed : spec_float := float_of 1.
Definition WithDefaults (v : VoiceConfig) : VoiceConfig :=
  if float_le (vc_Speed v) (float_of 0) then mkVoice (vc_VoiceID v) DefaultSpeed else v.

Definition VoiceIDAIMaleTech : string := "zh_male_m191_uranus_bigtts".
Definition VoiceIDAIFemalePro : string := "zh_female_vv_uranus_bigtts".
Definition VoiceIDDailyReadNarrator : string := "zh_male_shenyeboke_uranus_bigtts".
Definition VoiceIDDrillCountdown : string := "zh_female_meilinvyou_uranus_bigtts".

Definition VoiceAIMaleTech : VoiceConfig := mkVoice VoiceIDAIMaleTech (float_div (float_of 9) (float_of 10)).
Definition VoiceAIFemalePro : VoiceConfig := mkVoice VoiceIDAIFemalePro (float_of 1).
Definition VoiceDailyReadNarrator : VoiceConfig := mkVoice VoiceIDDailyReadNarrator (float_div (float_of 17) (float_of 20)).
Definition VoiceDrillCountdown : VoiceConfig := mkVoice VoiceIDDrillCountdown (float_of 1).
Definition VoiceRescueLadder : VoiceConfig := mkVoice VoiceIDAIFemalePro (float_div (float_of 9) (float_of 10)).

Definition Catalog : list VoiceConfig :=
  [VoiceAIMaleTech; VoiceAIFemalePro; VoiceDailyReadNarrator; VoiceDrillCountdown; VoiceRescueLadder].

Definition LookupVoice (id : string) : VoiceConfig :=
  let id := TrimSpace id in
  let one_of l := existsb (String.eqb id) l in
  if one_of [""; "ai_female_pro"]%string then VoiceAIFemalePro
  else if one_of [VoiceIDAIMaleTech; "ai_male_tech"%string] then VoiceAIMaleTech
  else if one_of [VoiceIDAIFemalePro] then VoiceAIFemalePro
  else if one_of [VoiceIDDailyReadNarrator; "daily_read_narrator"%string] then VoiceDailyReadNarrator
  else if one_of [VoiceIDDrillCountdown; "drill_countdown"%string] then VoiceDrillCountdown
  else if one_of ["rescue_ladder"%string] then VoiceRescueLadder
  else WithDefaults (mkVoice id (float_of 0)).

Record AudioChunk := mkChunk { ck_Data : bytes; ck_Seq : Z; ck_IsFinal : bool; ck_DetectedAt : Z }.

(** Errors, and what they wrap. *)
Inductive tts_error :=
| ErrEmptyText | ErrClosed | ErrMissingAPIKey | ErrInvalidChunk (detail : string)
| HTTPStatusError (status : Z)
| ContextDone
| OtherError (text : string)
| Wrapped (text : string) (e : tts_error).

Definition Validate (c : AudioChunk) : option tts_error :=
  if ck_Seq c <? 0 then Some (ErrInvalidChunk "seq")
  else if (length (ck_Data c) =? 0)%nat then Some (ErrInvalidChunk "empty data")
  else if ck_DetectedAt c <? 0 then Some (ErrInvalidChunk "detected_at")
  else None.

Definition NormalizeStreamInput (text : string) (voice : VoiceConfig) : result tts_error (string * VoiceConfig) :=
  let text := TrimSpace text in
  if String.eqb text "" then Err ErrEmptyText else Ok (text, WithDefaults voice).

(** [errors.As] and [errors.Is] *)
Fixpoint IsHTTP5xx (e : tts_error) : bool :=
  match e with
  | HTTPStatusError status => (500 <=? status) && (status <=? 599)
  | Wrapped _ e => IsHTTP5xx e
  | _ => false
  end.

Fixpoint root (e : tts_error) : tts_error := match e with Wrapped _ e => root e | e => e end.

(** ** The failover *)

(** [Manager] with the counter of [Metrics] it writes. *)
Record Manager := mkManager { mg_fails : Z; mg_fallbackOn : bool; mg_fallbackTriggered : Z }.

Definition NewManager : Manager := mkManager 0 false 0.
Definition fallbackTriggerLimit : Z := 3.

(** An [int32] wraps. *)
Definition int32 (z : Z) : Z := (z + 2 ^ 31) mod 2 ^ 32 - 2 ^ 31.

Abbreviation stream := (result tts_error (list AudioChunk)).

(** The atomics of the manager, its two providers, the request's context, and the
    cost ledger. *)
Inductive ttsE : Type -> Type :=
| LoadFallback : ttsE bool
| ResetFails : ttsE unit
| AddFail : ttsE Z
| SwitchOn : ttsE unit
| IncFallback : ttsE unit
| AskPrimary (text : string) (voice : VoiceConfig) : ttsE stream
| AskFallback (text : string) (voice : VoiceConfig) : ttsE stream
| Withdrawn : ttsE bool
| RecordTTSUsage (voiceID : string) (chars : Z) : ttsE unit.

Abbreviation tprog := (program ttsE).

Section manager.
(** Which providers the manager has, and whether usage is recorded. *)
Variable has_primary has_fallback has_recorder : bool.

Definition streamFallback (text : string) (voice : VoiceConfig) : tprog stream :=
  if has_fallback then call (AskFallback text voice) else Ret (Err ErrClosed).

Definition Stream (text : string) (voice : VoiceConfig) : tprog stream :=
  switched <- call LoadFallback;
  if switched : bool then streamFallback text voice else
  if negb has_primary then Ret (Err ErrClosed) else
  r <- call (AskPrimary text voice);
  match r with
  | Ok ch => _ <- call ResetFails; Ret (Ok ch)
  | Err err =>
      if negb (IsHTTP5xx err) then Ret (Err err) else
      n <- call AddFail;
      if n <? fallbackTriggerLimit then Ret (Err err) else
      _ <- call SwitchOn;
      _ <- call IncFallback;
      streamFallback text voice
  end.

(** ** Collecting and answering *)

(** The chunks received, the error, and the chunks nobody received. *)
Fixpoint drain (ch chunks : list AudioChunk) : tprog (list AudioChunk * option tts_error * list AudioChunk) :=
  match ch with
  | [] => Ret (chunks, None, [])
  | chunk :: ch =>
      gone <- call Withdrawn;
      if gone : bool then Ret (chunks, Some ContextDone, ch) else drain ch (chunks ++ [chunk])
  end.

Definition Collect (text : string) (voice : VoiceConfig) : tprog (list AudioChunk * option tts_error * list AudioChunk) :=
  r <- Stream text voice;
  match r with Err err => Ret ([], Some err, []) | Ok ch => drain ch [] end.

Definition mapTTSError (err : tts_error) : Error :=
  match root err with
  | ErrEmptyText => InvalidArgument "text is required"
  | ErrMissingAPIKey | ErrClosed => Unavailable "tts provider is not configured"
  | _ => if IsHTTP5xx err then Unavailable "tts upstream unavailable" else Internal "tts synthesis failed"
  end.

Record SynthesizeResponse := mkSynthesize {
  sy_VoiceID : string;
  sy_Chunks : Z;
  sy_AudioBase64 : string;
  sy_UsedFallback : bool;
}.

Definition recordUsage (text voiceID : string) : tprog unit :=
  if has_recorder then call (RecordTTSUsage voiceID (Z.of_nat (length (runes (to_bytes text))))) else Ret tt.

(** [text], [voiceID]: the body; [query]: the [voice_id] of the query. *)
Definition PostSynthesize (text voiceID query : string) : tprog (result Error SynthesizeResponse) :=
  let query := TrimSpace query in
  let voice := LookupVoice (if String.eqb query "" then voiceID else query) in
  collected <- Collect text voice;
  let '(chunks, err, _) := collected in
  match err with
  | Some err => Ret (Err (mapTTSError err))
  | None =>
      used <- call LoadFallback;
      _ <- recordUsage text (vc_VoiceID voice);
      Ret (Ok (mkSynthesize (vc_VoiceID voice) (Z.of_nat (length chunks))
                 (EncodeToString b64std (map byte_val (concat (map ck_Data chunks)))) used))
  end.
End manager.

(** ** The router *)

(** [P]: the providers, a nil one missing; [hits] and [misses] are counters. *)
Record Router (P : Type) := mkRouter { rt_routes : gmap string (option P); rt_fallback : option P }.
Arguments mkRouter {P} _ _.
Arguments rt_routes {P} _.
Arguments rt_fallback {P} _.

Record RouteMetrics := mkRouteMetrics { rm_hits : gmap string Z; rm_misses : Z }.

Definition incRouteHit (voiceID : string) (m : RouteMetrics) : RouteMetrics :=
  mkRouteMetrics (<[voiceID := default 0 (rm_hits m !! voiceID) + 1]> (rm_hits m)) (rm_misses m).
Definition incRouteMiss (m : RouteMetrics) : RouteMetrics := mkRouteMetrics (rm_hits m) (rm_misses m + 1).

(** The provider a request goes to. *)
Definition RouterStream {P} (r : Router P) (voice : VoiceConfig) (m : RouteMetrics) : result tts_error P * RouteMetrics :=
  match mjoin (rt_routes r !! vc_VoiceID voice) with
  | Some provider => (Ok provider, incRouteHit (vc_VoiceID voice) m)
  | None => (match rt_fallback r with Some p => Ok p | None => Err ErrClosed end, incRouteMiss m)
  end.

(** The routes in the order Go ranges over them, then the fallback; a probe that
    fails ends it, and every provider is closed. *)
Definition in_order {P} (order : list (option P)) (r : Router P) : list P := omap id (order ++ [rt_fallback r]).
Definition first_error {P} (f : P -> option tts_error) (ps : list P) : option tts_error := head (omap f ps).

Definition RouterPing {P} (ping : P -> option tts_error) (order : list (option P)) (r : Router P) : option tts_error :=
  first_error ping (in_order order r).
Definition RouterClose {P} (close : P -> option tts_error) (order : list (option P)) (r : Router P)
  : option tts_error * list P :=
  (first_error close (in_order order r), in_order order r).

(** ** Requests, interleaved *)

(** What the outside answers a step. *)
Record TReply := mkTReply { tr_primary : stream; tr_fallback : stream; tr_gone : bool }.

(** What a step does that others see; [Counted] is an answer of the primary: a
    server error, or a success. *)
Inductive TEvent :=
| Counted (failed : bool)
| AskedPrimary
| AskedFallback
| Recorded (voiceID : string) (chars : Z).

Definition perform_tts {R} (a : TReply) (e : ttsE R) (m : Manager) : R * Manager * list TEvent :=
  match e in ttsE R return R * Manager * list TEvent with
  | LoadFallback => (mg_fallbackOn m, m, [])
  | ResetFails => (tt, mkManager 0 (mg_fallbackOn m) (mg_fallbackTriggered m), [Counted false])
  | AddFail => let n := int32 (mg_fails m + 1) in
               (n, mkManager n (mg_fallbackOn m) (mg_fallbackTriggered m), [Counted true])
  | SwitchOn => (tt, mkManager (mg_fails m) true (mg_fallbackTriggered m), [])
  | IncFallback => (tt, mkManager (mg_fails m) (mg_fallbackOn m) (mg_fallbackTriggered m + 1), [])
  | AskPrimary _ _ => (tr_primary a, m, [AskedPrimary])
  | AskFallback _ _ => (tr_fallback a, m, [AskedFallback])
  | Withdrawn => (tr_gone a, m, [])
  | RecordTTSUsage voiceID chars => (tt, m, [Recorded voiceID chars])
  end.

Definition answered : Type := result Error SynthesizeResponse.

(** [Arrive]: a request; [Step i]: the next step of the [i]-th. *)
Inductive TMove := Arrive (text voiceID query : string) | Step (i : nat) (a : TReply).

Record Desk := mkDesk { dk_manager : Manager; dk_requests : list (tprog answered); dk_log : list (nat * TEvent) }.

Section desk.
Variable has_primary has_fallback has_recorder : bool.

Definition desk_step (d : Desk) (c : TMove) : Desk :=
  match c with
  | Arrive text voiceID query =>
      mkDesk (dk_manager d) (dk_requests d ++ [PostSynthesize has_primary has_fallback has_recorder text voiceID query])
        (dk_log d)
  | Step i a =>
      match dk_requests d !! i with
      | Some (Do e k) =>
          let '(r, m, es) := perform_tts a e (dk_manager d) in
          mkDesk m (<[i := k r]> (dk_requests d)) (dk_log d ++ map (pair i) es)
      | _ => d
      end
  end.

Definition run_desk (cs : list TMove) (d : Desk) : Desk := foldl desk_step d cs.
End desk.

Definition open_desk : Desk := mkDesk NewManager [] [].

(** The answers of the primary that were counted, in order. *)
Definition counted (es : list TEvent) : list bool := omap (fun e => match e with Counted b => Some b | _ => None end) es.

(** * What the failover guarantees *)

(** How many server errors were counted since the last success. *)
Definition failures (g : list bool) : Z := foldl (fun n b => if b : bool then n + 1 else 0) 0 g.

(** Three server errors in a row were counted. *)
Definition tripped (g : list bool) : Prop := exists pre post, g = pre ++ [true; true; true] ++ post.

Lemma failures_tail g : 0 <= failures g /\ exists pre, g = pre ++ repeat true (Z.to_nat (failures g)).
Proof.
  induction g as [|b g [H0 [pre IH]]] using rev_ind; [split; [done|by exists []]|].
  unfold failures in *. rewrite foldl_app. cbn. set (n := foldl _ 0 g) in *. destruct b.
  - split; [lia|]. exists pre. rewrite Z2Nat.inj_add, repeat_app by lia. cbn. rewrite IH at 1. by rewrite app_assoc.
  - split; [lia|]. by exists (g ++ [false]); rewrite app_nil_r.
Qed.

Lemma int32_id n : 0 <= n < 2 ^ 31 -> int32 n = n.
Proof. unfold int32. intros H. rewrite Z.mod_small; lia. Qed.

Lemma int32_plus n : int32 (int32 n + 1) = int32 (n + 1).
Proof.
  unfold int32. f_equal. replace ((n + 2 ^ 31) mod 2 ^ 32 - 2 ^ 31 + 1 + 2 ^ 31) with ((n + 2 ^ 31) mod 2 ^ 32 + 1) by lia.
  rewrite Z.add_mod_idemp_l by lia. f_equal. lia.
Qed.

(** A count that has reached the limit, wrapped or not, is one of three in a row. *)
Lemma limit_trips g : fallbackTriggerLimit <= int32 (failures g) -> tripped g.
Proof.
  intros H. destruct (failures_tail g) as [H0 [pre E]].
  assert (3 <= failures g) as H3.
  { unfold fallbackTriggerLimit in H. destruct (Z.lt_ge_cases (failures g) 3) as [Hlt|]; [|done]. rewrite int32_id in H; lia. }
  exists pre, (repeat true (Z.to_nat (failures g - 3))). rewrite E at 1. f_equal.
  replace (failures g) with (3 + (failures g - 3)) at 1 by lia. by rewrite Z2Nat.inj_add, repeat_app by lia.
Qed.

Lemma tripped_app g g' : tripped g -> tripped (g ++ g').
Proof. intros (pre & post & ->). exists pre, (post ++ g'). by rewrite <- !app_assoc. Qed.

Lemma counted_app es es' : counted (es ++ es') = counted es ++ counted es'.
Proof. unfold counted. induction es as [|[] es IH]; cbn; [done|..]; first [exact IH|f_equal; exact IH]. Qed.

#[local] Arguments counted : simpl never.
#[local] Arguments int32 : simpl never.
#[local] Arguments failures : simpl never.

(** The manager next to the log of what all requests did. *)
Definition perform_logged (R : Type) (a : TReply) (e : ttsE R) (s : Manager * list TEvent)
  : R * (Manager * list TEvent) * list TEvent :=
  let '(r, m, es) := perform_tts a e s.1 in (r, (m, s.2 ++ es), es).

Section failover.
Variable has_primary has_fallback has_recorder : bool.

Definition sound (s : Manager * list TEvent) : Prop :=
  mg_fails s.1 = int32 (failures (counted s.2)) /\ (mg_fallbackOn s.1 = true -> tripped (counted s.2)).

(** [t]: this request may switch. *)
Definition may (t : bool) (s : Manager * list TEvent) : Prop :=
  sound s /\ (t = true -> tripped (counted s.2)).

Definition moved (t : bool) (s s' : Manager * list TEvent) (es : list TEvent) (t' : bool) : Prop := may t' s'.

Abbreviation follows := (tracks perform_logged may moved).

(** A step that leaves the manager and the count alone. *)
Lemma idle_step {R} (e : ttsE R) t (post : bool -> R -> Prop) :
  (forall a m, (perform_tts a e m).1.2 = m /\ counted (perform_tts a e m).2 = []) -> (forall r, post t r) ->
  follows t (call e) post.
Proof.
  intros He Hp. apply tracks_call. intros a s [[Hf Ho] Ht]. exists t. split; [|apply Hp].
  unfold moved, may, sound, perform_logged. destruct (perform_tts a e s.1) as [[r m] es] eqn:E.
  destruct (He a s.1) as [H1 H2]. rewrite E in H1, H2. cbn [fst snd] in *. subst m. rewrite counted_app, H2, app_nil_r. done.
Qed.

Lemma streamFallback_follows text voice t : follows t (streamFallback has_fallback text voice) (fun _ _ => True).
Proof. unfold streamFallback. destruct has_fallback; [by apply idle_step|done]. Qed.

Lemma Stream_follows text voice t : follows t (Stream has_primary has_fallback text voice) (fun _ _ => True).
Proof.
  unfold Stream. apply tracks_bind, idle_step; [done|]. intros [|]; [apply streamFallback_follows|].
  destruct has_primary; [|done]. apply tracks_bind, idle_step; [done|]. intros [ch|err].
  - intros a s [[Hf Ho] Ht]. exists t. split; [|done]. unfold moved, may, sound. cbn. rewrite counted_app. cbn.
    split; [split|].
    + unfold failures. by rewrite foldl_app.
    + intros H. by apply tripped_app, Ho.
    + intros H. by apply tripped_app, Ht.
  - destruct (negb (IsHTTP5xx err)); [done|]. intros a s [[Hf Ho] Ht]. cbn [bind call perform_logged perform_tts fst snd].
    set (g := counted s.2) in *.
    assert (counted (s.2 ++ [Counted true]) = g ++ [true]) as Eg by by rewrite counted_app.
    assert (int32 (mg_fails s.1 + 1) = int32 (failures (g ++ [true]))) as En.
    { rewrite Hf, int32_plus. unfold failures. by rewrite foldl_app. }
    destruct (int32 (mg_fails s.1 + 1) <? fallbackTriggerLimit) eqn:Hn.
    { exists t. split; [|done]. unfold moved, may, sound. cbn. rewrite Eg, En.
      split; [split; [done|]|]; intros H; apply tripped_app; auto. }
    assert (tripped (g ++ [true])) as Htrip by (apply limit_trips; rewrite <- En; lia).
    exists true. split; [unfold moved, may, sound; cbn; by rewrite Eg, En|].
    intros a' s' [[Hf' Ho'] Ht']. exists true. split.
    { unfold moved, may, sound. cbn. rewrite app_nil_r. repeat split; auto. }
    intros a'' s'' [[Hf'' Ho''] Ht'']. exists true. split; [|apply streamFallback_follows].
    unfold moved, may, sound. cbn. rewrite app_nil_r. repeat split; auto.
Qed.

Lemma drain_follows ch : forall chunks t, follows t (drain ch chunks) (fun _ _ => True).
Proof.
  induction ch as [|c ch IH]; intros chunks t; [done|]. cbn [drain]. apply tracks_bind, idle_step; [done|].
  intros [|]; [done|apply IH].
Qed.

Lemma PostSynthesize_follows text voiceID query t :
  follows t (PostSynthesize has_primary has_fallback has_recorder text voiceID query) (fun _ _ => True).
Proof.
  unfold PostSynthesize, Collect. apply tracks_bind, tracks_bind.
  eapply tracks_mono; [|apply Stream_follows]. intros t1 [ch|err] _; [|done].
  eapply tracks_mono; [|apply drain_follows]. intros t2 [[chunks [err|]] rest] _; [done|].
  apply tracks_bind, idle_step; [done|]. intros used. apply tracks_bind. unfold recordUsage.
  destruct has_recorder; [by apply idle_step|done].
Qed.
End failover.

Section desks.
Variable has_primary has_fallback has_recorder : bool.

Abbreviation run := (run_desk has_primary has_fallback has_recorder).
Abbreviation request := (PostSynthesize has_primary has_fallback has_recorder).

Definition ghost (d : Desk) : Manager * list TEvent := (dk_manager d, map snd (dk_log d)).

Lemma logged_log i (es : list TEvent) l : map snd (l ++ map (pair (i : nat)) es) = map snd l ++ es.
Proof. rewrite map_app, map_map. cbn. by rewrite map_id. Qed.

(** The count is right, and a request that may switch has three errors behind it. *)
Definition desk_ok (d : Desk) : Prop :=
  sound (ghost d) /\
  Forall (fun p => exists t, (t = true -> tripped (counted (map snd (dk_log d)))) /\
                     tracks perform_logged may moved t p (fun _ _ => True)) (dk_requests d).

Lemma desk_ok_step d c : desk_ok d -> desk_ok (desk_step has_primary has_fallback has_recorder d c).
Proof.
  intros [Hs Hr]. destruct c as [text voiceID query|i a]; cbn [desk_step].
  - split; [exact Hs|]. apply Forall_app. split; [exact Hr|]. repeat constructor.
    exists false. split; [done|]. apply PostSynthesize_follows.
  - destruct (dk_requests d !! i) as [[|R e k]|] eqn:Ei; [done| |done].
    destruct (Forall_lookup_1 _ _ _ _ Hr Ei) as (t & Ht & Hp).
    destruct (Hp a (ghost d)) as (t' & Hm & Hk); [by split|].
    unfold perform_logged in Hm, Hk. destruct (perform_tts a e (dk_manager d)) as [[r m] es] eqn:Ee.
    cbn [ghost fst snd] in Hm, Hk. rewrite Ee in Hm, Hk. cbn [fst snd] in Hm, Hk. destruct Hm as [Hs' Ht'].
    unfold desk_ok, ghost. cbn [dk_manager dk_log dk_requests]. rewrite logged_log. split; [exact Hs'|].
    apply Forall_insert; [|by exists t'].
    eapply Forall_impl; [exact Hr|]. intros p (t0 & H0 & Hp0). exists t0. split; [|done].
    intros E. rewrite counted_app. by apply tripped_app, H0.
Qed.

(** In every interleaving of requests the manager has switched only if it counted
    three server errors of the primary with no success between them. *)
Lemma switch_needs_three_failures cs :
  let d := run cs open_desk in mg_fallbackOn (dk_manager d) = true -> tripped (counted (map snd (dk_log d))).
Proof.
  intros d. assert (desk_ok d) as [[_ H] _]; [|exact H]. unfold d, run_desk. apply foldl_keeps.
  - intros s c _. apply desk_ok_step.
  - split; [by split|constructor].
Qed.

(** A request that finds the manager switched does not ask the primary. *)
Definition avoids (p : tprog answered) : Prop :=
  tracks (fun R => @perform_tts R) (fun (_ : unit) m => mg_fallbackOn m = true)
    (fun _ _ m' es _ => mg_fallbackOn m' = true /\ AskedPrimary ∉ es) tt p (fun _ _ => True).

Lemma request_avoids text voiceID query : avoids (request text voiceID query).
Proof.
  unfold avoids, PostSynthesize, Collect, Stream. apply tracks_bind, tracks_bind, tracks_bind, tracks_call.
  intros a m Hm. exists tt. split; [split; [exact Hm|set_solver]|]. cbn [perform_tts fst snd]. rewrite Hm.
  assert (forall ch chunks, tracks (fun R => @perform_tts R) (fun (_ : unit) m => mg_fallbackOn m = true)
            (fun _ _ m' es _ => mg_fallbackOn m' = true /\ AskedPrimary ∉ es) tt (drain ch chunks) (fun _ _ => True)) as Hd.
  { induction ch as [|c ch IH]; intros chunks; [done|]. cbn [drain]. apply tracks_bind, tracks_call.
    intros a' m' Hm'. exists tt. split; [split; [exact Hm'|set_solver]|]. destruct (perform_tts a' Withdrawn m').1.1; [done|apply IH]. }
  unfold streamFallback. destruct has_fallback; [|done]. apply tracks_call. intros a1 m1 Hm1. exists tt.
  split; [split; [exact Hm1|set_solver]|]. cbn [perform_tts fst snd]. destruct (tr_fallback a1) as [ch|]; [|done].
  eapply tracks_mono; [|apply Hd]. intros [] [[chunks [err|]] rest] _; [done|]. apply tracks_bind, tracks_call.
  intros a2 m2 Hm2. exists tt. split; [split; [exact Hm2|set_solver]|]. apply tracks_bind. unfold recordUsage.
  destruct has_recorder; [|done]. apply tracks_call. intros a3 m3 Hm3. exists tt. split; [split; [exact Hm3|set_solver]|done].
Qed.

(** [n]: how many requests there were when the manager was seen switched. *)
Definition switched_from (n : nat) (d : Desk) : Prop :=
  mg_fallbackOn (dk_manager d) = true /\ (n <= length (dk_requests d))%nat /\
  (forall i p, (n <= i)%nat -> dk_requests d !! i = Some p -> avoids p) /\
  forall i, (n <= i)%nat -> (i, AskedPrimary) ∉ dk_log d.

Lemma switched_from_step n d c : switched_from n d -> switched_from n (desk_step has_primary has_fallback has_recorder d c).
Proof.
  intros (Hon & Hn & Hp & Hl). destruct c as [text voiceID query|i a]; cbn [desk_step].
  - split; [exact Hon|]. cbn. rewrite length_app. split; [lia|]. split; [|exact Hl].
    intros i p Hi [H|[_ H]]%lookup_app_Some; [by eapply Hp|]. apply list_lookup_singleton_Some in H as [_ <-]. apply request_avoids.
  - destruct (dk_requests d !! i) as [[|R e k]|] eqn:Ei; [done| |done].
    destruct (perform_tts a e (dk_manager d)) as [[r m] es] eqn:Ee.
    assert (mg_fallbackOn m = true) as Hm by (by destruct e; injection Ee as <- <- <-).
    split; [exact Hm|]. cbn. rewrite length_insert. split; [exact Hn|]. split.
    + intros j p Hj Hjp. destruct (decide (i = j)) as [<-|Hne].
      * rewrite list_lookup_insert_eq in Hjp by (by eapply lookup_lt_Some). injection Hjp as <-.
        destruct (Hp i _ Hj Ei a (dk_manager d) Hon) as ([] & _ & Hk). by rewrite Ee in Hk.
      * rewrite list_lookup_insert_ne in Hjp by done. by eapply Hp.
    + intros j Hj [H|H]%elem_of_app; [by eapply Hl|]. apply list_elem_of_fmap in H as (e' & [= <- <-] & H).
      destruct (Hp j _ Hj Ei a (dk_manager d) Hon) as ([] & [_ Hno] & _). by rewrite Ee in Hno.
Qed.

(** Once switched, the manager stays so, and no request that arrives afterwards
    asks the primary. *)
Lemma switch_is_for_good d cs :
  mg_fallbackOn (dk_manager d) = true -> (forall i, (length (dk_requests d) <= i)%nat -> (i, AskedPrimary) ∉ dk_log d) ->
  let d' := run cs d in
  mg_fallbackOn (dk_manager d') = true /\
  forall i, (length (dk_requests d) <= i)%nat -> (i, AskedPrimary) ∉ dk_log d'.
Proof.
  intros Hon Hl d'. assert (switched_from (length (dk_requests d)) d') as (H1 & _ & _ & H2); [|by split].
  unfold d', run_desk. apply foldl_keeps; [intros s c _; apply switched_from_step|].
  split; [exact Hon|]. split; [done|]. split; [|exact Hl]. intros i p Hi H%lookup_lt_Some. lia.
Qed.
End desks.

(** ** A request alone, and what goes wrong *)

Fixpoint steps (i : nat) (as_ : list TReply) : list TMove :=
  match as_ with [] => [] | a :: as_ => Step i a :: steps i as_ end.

Definition says (primary fallback : stream) : TReply := mkTReply primary fallback false.
Definition ten_ms : stream := Ok [mkChunk ["001"; "002"]%char 0 true 0].
Definition bad_gateway : stream := Err (Wrapped "stream" (HTTPStatusError 502)).

(** Three requests that fail one after the other switch the manager, and the
    third is served by the fallback. *)
Example third_failure_switches :
  let failing i := Arrive "hi" "" "" :: steps i (repeat (says bad_gateway ten_ms) 9) in
  let d := run_desk true true true (failing 0%nat ++ failing 1%nat ++ failing 2%nat) open_desk in
  mg_fallbackOn (dk_manager d) = true /\ mg_fallbackTriggered (dk_manager d) = 1 /\
  map (fun p => match p with Ret (Ok r) => Some (sy_AudioBase64 r, sy_UsedFallback r) | _ => None end) (dk_requests d) =
    [None; None; Some ("AQI="%string, true)].
Proof. vm_compute. by repeat split. Qed.

(** Four requests that are in flight together switch the manager once and count
    two switches. *)
Lemma one_switch_counts_twice :
  let asks i := Arrive "hi" "" "" :: steps i (repeat (says bad_gateway ten_ms) 2) in
  let d := run_desk true true true
    (concat (map asks [0; 1; 2; 3]%nat) ++ concat (map (fun i => steps i (repeat (says bad_gateway ten_ms) 9)) [0; 1; 2; 3]%nat))
    open_desk in
  mg_fallbackOn (dk_manager d) = true /\ mg_fallbackTriggered (dk_manager d) = 2.
Proof. vm_compute. by split. Qed.

(** A client that hangs up while the audio is collected: the rest of the stream
    is not received, and the synthesis is not recorded. *)
Lemma dropped_request_is_not_recorded :
  let gone := mkTReply (Ok [mkChunk ["001"; "002"]%char 0 false 0; mkChunk ["003"]%char 1 true 0]) ten_ms true in
  let d := run_desk true true true (Arrive "hi" "" "" :: steps 0 (repeat gone 9)) open_desk in
  map snd (dk_log d) = [AskedPrimary; Counted false] /\
  dk_requests d = [Ret (Err (Internal "tts synthesis failed"))].
Proof. vm_compute. by split. Qed.

Lemma stream_is_left_unread ch chunk :
  drain (chunk :: ch) [] = (gone <- call Withdrawn;
    if gone : bool then Ret ([], Some ContextDone, ch) else drain ch [chunk]).
Proof. done. Qed.

(** Every voice of the catalog is looked up by its identifier, but for the speed of
    the ladder's, which shares its speaker with the default voice. *)
Lemma catalog_is_looked_up v : In v Catalog -> vc_VoiceID (LookupVoice (vc_VoiceID v)) = vc_VoiceID v.
Proof. intros H. repeat (destruct H as [<-|H]; [by vm_compute|]). done. Qed.
