(* ===== verification/Starter.v ===== *)
(** * The starter corpus and the candidates of the hit detector ([internal/corpus])

    [starter.go] gives a learner without phrases a first corpus; [source_adapter.go]
    hands the hit detector a learner's blocks.  Both are programs over the corpus
    service.  The services they are wired with are configured: the branches for a
    nil service are left out. *)
From S2P Require Import Prelude Prog GoString GoUnicode GoTime GoSort ApiErr Corpus CorpusStore CorpusLaws CorpusListing CorpusService CorpusServiceLaws CorpusApi HitDetect.

Open Scope Z_scope.
Open Scope prog_scope.

Definition StarterBlocks : list BlockFields :=
  [mkFields "说明阻塞点" "I'm blocked on the API review." "I am blocked on the API review." "standup" "report";
   mkFields "把会议收尾" "Let's wrap up." "let's wrap up the meeting" "review" "summarize";
   mkFields "推动上线" "Let's ship it." "let's ship it" "review" "commit";
   mkFields "请求澄清" "Could you clarify what you mean by that?" "could you clarify" "1on1" "clarify";
   mkFields "委婉拒绝延期" "I'd rather not push the deadline." "I don't want to push the deadline" "1on1" "disagree";
   mkFields "主动提议" "How about we pair on this tomorrow?" "how about we pair on this tomorrow" "casual" "propose";
   mkFields "承认不确定" "I'm not 100% sure yet, but I'll confirm by EOD." "I'm not sure yet" "standup" "defer";
   mkFields "总结结论" "Bottom line: we'll ship next Tuesday." "bottom line" "review" "summarize";
   mkFields "请求反馈" "Does that work for you?" "does that work for you" "1on1" "ask";
   mkFields "礼貌结束" "Thanks for your time today." "thanks for your time" "casual" "agree"]%string.

Definition starterSourceSession : string := "dev-starter-corpus".

(** [ListBlocksRequest{UserID: userID, Limit: limit}] *)
Definition first_blocks (userID : string) (limit : Z) : ListBlocksRequest :=
  mkListBlocksRequest userID "" "" "" "" "" limit false false.

Definition ProvisionStarterCorpus (userID : string) : cprog (result error Z) :=
  existing <-! Svc_ListBlocks (first_blocks userID 1);
  match br_Items existing with
  | _ :: _ => Ret (Ok 0)
  | [] =>
      resp <-! BatchAccept userID starterSourceSession StarterBlocks;
      Ret (Ok (ba_AcceptedCount resp))
  end.

Definition SourceCandidateLimit : Z := 50.

Definition CandidatesForUser (userID : string) : cprog (result error (list BlockCandidate)) :=
  resp <-! Svc_ListBlocks (first_blocks userID SourceCandidateLimit);
  Ret (Ok (map (fun item => mkCandidate (v_ID item) (v_ExpressionEN item) (v_IntentZH item) (v_AnchorUserSaid item)
                              (v_SceneTag item) (v_FunctionTag item)) (br_Items resp))).

(** * What they guarantee *)

Section starter.
Context {mr : MapRange} (o : COracle).
Hypothesis Halone : calone o.
Hypothesis Hids : forall i j, co_id o i = co_id o j -> i = j.

Lemma run_first_blocks u limit n s : TrimSpace u <> ""%string -> 0 < limit <= maxListLimit ->
  exists next, run_prog o (Svc_ListBlocks (first_blocks u limit)) n s =
    (Ok (mkListBlocksResponse (map toView (ListBlocks (plain_filter (TrimSpace u) limit) s)) next false), S n, s).
Proof.
  intros Hu Hl. unfold Svc_ListBlocks, first_blocks. cbn [lb_UserID]. apply String.eqb_neq in Hu as ->.
  assert (normalizeLimit limit = limit) as El.
  { unfold normalizeLimit. rewrite (proj2 (Z.leb_gt limit 0)), (proj2 (Z.ltb_ge maxListLimit limit)) by lia. done. }
  unfold list_filter. cbn [lb_Cursor lb_UpdatedAfter lb_SceneTag lb_FunctionTag lb_Keyword lb_FavoriteOnly lb_PinnedOnly lb_Limit].
  rewrite El. change (TrimSpace "") with ""%string. cbn [String.eqb negb andb orb].
  change (normalizeOptionalEnum "") with ""%string. cbn [String.eqb negb andb].
  rewrite (run_cdb o Halone). cbn [handle fst snd]. by eexists.
Qed.

(** Whether the learner has a phrase. *)
Definition owns (u : string) (s : MemoryStore) : Prop := exists id b, blocks s !! id = Some b /\ live u b = true.

Lemma first_block_owned u s : ListBlocks (plain_filter u 1) s <> [] <-> owns u s.
Proof.
  rewrite ListBlocks_take by (vm_compute; discriminate). change (Z.to_nat (lf_Limit (plain_filter u 1))) with 1%nat.
  unfold listing. set (l := List.filter (list_match (plain_filter u 1)) (all_blocks s)).
  assert (l <> [] <-> owns u s) as <-.
  { split.
    - destruct l as [|b l'] eqn:El; [done|]. intros _. assert (b ∈ l) as Hb by (rewrite El; left).
      unfold l in Hb. apply list_elem_of_In, filter_In in Hb as [Hb Hm]. rewrite plain_match in Hm.
      apply list_elem_of_In, list_elem_of_fmap in Hb as ([id b'] & -> & Hb). apply elem_of_map_to_list in Hb. by exists id, b'.
    - intros (id & b & Hb & Hm) E. assert (b ∈ l) as Hin; [|rewrite E in Hin; by apply not_elem_of_nil in Hin].
      apply list_elem_of_In, filter_In. rewrite plain_match. split; [|done].
      apply list_elem_of_In, list_elem_of_fmap. exists (id, b). split; [done|]. by apply elem_of_map_to_list. }
  pose proof (sort_Slice_Permutation (list_less (plain_filter u 1)) l) as Hp.
  destruct (sort_Slice (list_less (plain_filter u 1)) l) as [|x xs], l as [|y ys]; cbn; try done.
  - by apply Permutation_nil_l in Hp.
  - by apply Permutation_sym, Permutation_nil_l in Hp.
Qed.

Lemma unowned_scannable u s : ~ owns u s -> scannable u s.
Proof.
  intros Ho. unfold scannable. destruct (List.filter (live u) (all_blocks s)) as [|b l] eqn:El; [cbn; lia|].
  destruct Ho. assert (b ∈ List.filter (live u) (all_blocks s)) as Hb by (rewrite El; left).
  apply list_elem_of_In, filter_In in Hb as [Hb Hl].
  apply list_elem_of_In, list_elem_of_fmap in Hb as ([id b'] & -> & Hb).
  apply elem_of_map_to_list in Hb. by exists id, b'.
Qed.

(** A learner with a phrase is given nothing. *)
Lemma starter_is_no_topping_up u n s : TrimSpace u <> ""%string -> owns (TrimSpace u) s ->
  run_prog o (ProvisionStarterCorpus u) n s = (Ok 0, S n, s).
Proof.
  intros Hu Ho. unfold ProvisionStarterCorpus. rewrite run_bind.
  destruct (run_first_blocks u 1 n s Hu ltac:(vm_compute; split; [reflexivity|discriminate])) as [next ->].
  cbn [br_Items]. apply first_block_owned in Ho. by destruct (ListBlocks _ s).
Qed.

Lemma starter_valid u src now id : Forall (fun item => is_ok (newAcceptedBlock u src now id item) = true) StarterBlocks.
Proof. repeat constructor. Qed.

(** An accept of valid phrases succeeds. *)
Lemma accept_items_succeeds u src now items : forall by_expr bs merged n (s : MemoryStore),
  (forall id, Forall (fun item => is_ok (newAcceptedBlock u src now id item) = true) items) ->
  exists r m, run_prog o (accept_items u src now items by_expr bs merged) n s = (Ok r, m, s).
Proof.
  induction items as [|item items IH]; intros by_expr bs merged n s Hv; cbn [accept_items]; [by eexists _, _|].
  rewrite run_cid. pose proof (Forall_inv (Hv (co_id o n))) as H1. cbn in H1.
  destruct (newAcceptedBlock u src now (co_id o n) item) as [b|]; [|done].
  assert (forall id, Forall (fun item => is_ok (newAcceptedBlock u src now id item) = true) items) as Hv'
    by (intros id; by eapply Forall_inv_tail).
  case_match; by apply IH.
Qed.

(** A learner without a phrase, alone, is given exactly the starter corpus, each
    phrase once; whoever is given it is given nothing the next time. *)
Lemma starter_is_given_once u n s :
  TrimSpace u <> ""%string -> ~ owns (TrimSpace u) s -> blocks_keyed s -> (forall k, blocks s !! co_id o k = None) ->
  exists count m s', run_prog o (ProvisionStarterCorpus u) n s = (Ok count, m, s') /\
    (forall k, has_phrase (TrimSpace u) s' k <-> requested StarterBlocks k) /\
    phrases_distinct (TrimSpace u) s' /\
    run_prog o (ProvisionStarterCorpus u) m s' = (Ok 0, S m, s').
Proof.
  intros Hu Ho Hk Hfresh. set (user := TrimSpace u) in *.
  destruct (run_first_blocks u 1 n s Hu ltac:(vm_compute; split; [reflexivity|discriminate])) as [next Hrun].
  assert (ListBlocks (plain_filter user 1) s = []) as E1.
  { destruct (ListBlocks (plain_filter user 1) s) eqn:E; [done|]. destruct Ho. apply first_block_owned. by rewrite E. }
  fold user in Hrun. rewrite E1 in Hrun.
  assert (exists resp m s', run_prog o (BatchAccept u starterSourceSession StarterBlocks) (S n) s = (Ok resp, m, s'))
    as (resp & m & s' & Ha).
  { unfold BatchAccept. fold user. destruct (String.eqb_spec user "") as [|_]; [done|].
    change (String.eqb (TrimSpace starterSourceSession) "") with false.
    destruct StarterBlocks as [|item items] eqn:Eb; [discriminate Eb|]. rewrite <- Eb. clear Eb.
    rewrite run_cnow, (run_cdb o Halone), run_bind.
    edestruct accept_items_succeeds as (r & m & ->); [intros id; apply starter_valid|].
    rewrite (run_cdb o Halone). by eexists _, _, _. }
  assert (forall k, ~ has_phrase user s k) as Hnone.
  { intros k (id & b & Hb & Hl & _). apply Ho. by exists id, b. }
  apply unowned_scannable in Ho as Hscan.
  destruct (run_accept o Halone Hids u starterSourceSession StarterBlocks (S n) s resp m s' Hk Hscan Hfresh Ha)
    as (Hk' & _ & _ & Hd & Hh). fold user in Hd, Hh.
  exists (ba_AcceptedCount resp), m, s'. split; [|split; [|split]].
  - unfold ProvisionStarterCorpus. rewrite run_bind, Hrun. cbn [br_Items map]. by rewrite run_bind, Ha.
  - intros k. rewrite Hh. split; [by intros [H%Hnone|]|by right].
  - apply Hd. intros i j a b Ha' _ Hla _ _. destruct Ho. by exists i, a.
  - apply starter_is_no_topping_up; [done|]. fold user.
    destruct (proj2 (Hh (NormalizeExpression (TrimSpace (bf_ExpressionEN (hd wrap_up StarterBlocks)))))) as (id & b & Hb & Hl & _).
    { right. exists (hd wrap_up StarterBlocks). split; [left|done]. }
    by exists id, b.
Qed.

(** The candidates are the first fifty of the learner's live blocks in the order of
    the list endpoint. *)
Lemma candidates_are_listed u n s : TrimSpace u <> ""%string ->
  exists cs, run_prog o (CandidatesForUser u) n s = (Ok cs, S n, s) /\ (length cs <= 50)%nat /\
    map bc_ID cs = map b_ID (ListBlocks (plain_filter (TrimSpace u) SourceCandidateLimit) s).
Proof.
  intros Hu. unfold CandidatesForUser. rewrite run_bind.
  destruct (run_first_blocks u SourceCandidateLimit n s Hu ltac:(vm_compute; split; [reflexivity|discriminate])) as [next ->].
  eexists. split; [done|]. cbn [br_Items]. rewrite !map_map, !length_map. split; [|done].
  rewrite ListBlocks_take by (vm_compute; discriminate). rewrite length_take. change (Z.to_nat _) with 50%nat. lia.
Qed.
End starter.

(** ** What the comments say otherwise *)

#[local] Existing Instance key_order.

(** A learner who deletes the whole corpus is given the starter again. *)
Lemma starter_comes_back :
  let '(given, n, s) := run_prog (quiet_corpus 5) (ProvisionStarterCorpus "u") 0 NewMemoryStore in
  let s := (handle (ESoftDeleteAll "u" 6) s).2 in
  given = Ok 10 /\ (run_prog (quiet_corpus 7) (ProvisionStarterCorpus "u") n s).1.1 = Ok 10.
Proof. vm_compute. by split. Qed.
